(* ===== verification/_CoqProject ===== *)
-Q . S2P
Prelude.v
Bitops.v
Fs.v
Balloc.v
Inode.v
Ialloc.v
Alloc.v
Bmap.v
Blktree.v
Bufio.v
Fballoc.v
Truncate.v
Cut.v
Truncspec.v
Truncprops.v
Inactive.v
Hash.v
Lockf.v
LockRanges.v
LockCorrect.v
Sort.v
Dirent.v
Dirslot.v
Dir.v
Direnter.v
Dirspec.v
Dirempty.v
Dcache.v
Dirrun.v
Nametree.v
Vnops.v
Vnoplaws.v
Memns.v
Vnopspec.v
Rename.v
Renamespec.v
Namespace.v
Attr.v
Readdir.v
Ihash.v
Vget.v
Readwrite.v
Rwspec.v
Rwprops.v
