(* ===== verification/Prelude.v ===== *)
(** * A verification of the ext2fsX kernel extension

    ext2fsX is an ext2 file system for macOS: a kernel extension made of the BSD ext2
    code (src/src/gnu/ext2fs/), helper code (src/src/kern/) and routines taken from Linux
    (src/src/gnu/ext2fs/linux/).  This library models the parts of the extension that
    decide what is stored on the disk and who may lock it, as functions that can be
    executed, and proves what makes them correct.

    ** The parts and the files

    - [Prelude]: machine integers, the monad of kernel code, its predicate [wp], counting
      and sums, words.
    - [Bitops] (i386-bitops.h): operations on bitmap blocks.
    - [Fs] (fs.h, ext2_fs_sb.h, ext2_fs.h): superblock, group descriptors, buffers; the
      state shared by the allocators, its well-formedness and its abstract view, the sets
      of blocks and of inodes in use.
    - [Balloc] (ext2_linux_balloc.c): [ext2_new_block], [ext2_free_blocks].
    - [Ialloc] (ext2_linux_ialloc.c): [ext2_new_inode], [ext2_free_inode].
    - [Alloc] (ext2_alloc.c): allocation for a file with its preallocation window, on top
      of [Balloc] and [Ialloc].
    - [Inode] (ext2_inode_cnv.c): the in-core and the on-disk inode.
    - [Bmap] (ext2_bmap.c): the block of the disk behind a block of a file.
      [Blktree]: the tree of blocks that the pointers of a file form.
    - [Bufio]: the buffers of the kernel as an interface with laws, and a device in
      memory that satisfies them.
    - [Fballoc] (ext2_balloc.c): [ext2_balloc2], which gives a block of a file its
      storage, on top of [Alloc] and [Bmap].
    - [Truncate] (ext2_inode.c): [ext2_truncate] with [ext2_indirtrunc], [ext2_update] and
      [ext2_inactive].  [Cut]: what [ext2_indirtrunc] frees; [Truncspec]: the steps of
      [ext2_truncate]; [Truncprops] and [Inactive]: the theorems about the whole routines.
    - [Hash] (ext2_hash.c, linux/fs/ext3/hash.c): the two hash functions of indexed
      directories.
    - [Lockf] (kern/ext2_lockf.c): advisory locks on a store of lock structures;
      [LockRanges]: what a list of locks means, without pointers; [LockCorrect]: the
      loops of [Lockf] compute the transformers of [LockRanges].
    - [Sort] (kern/kheapsort.c, kern/qsort.c): heapsort and introsort, for any comparison
      that satisfies the interface [Comparator].
    - [Dirent], [Dirslot], [Dir], [Direnter], [Dirempty], [Dcache] (ext2_lookup.c):
      directory entries in the bytes of a block; entering, removing and rewriting an
      entry; the search of a directory and what it leaves in the inode; the operations
      on the whole directory; the cache of positions.  [Dirspec]: directories as maps
      from names to inodes, and lookups in them.  [Dirrun]: the requests of the kernel on
      a directory, each with the lookups that come before it and the positions that these
      leave in the cache, and their refinement.
    - [Vnops] (ext2_vnops.c, with [ext2_valloc] of ext2_alloc.c and
      [ext2_checkpath_nolock] of ext2_lookup.c): creating, linking, removing and renaming
      files and directories.  [Attr]: attributes and symbolic links.
      [Nametree]: trees of names with link counts, without code; [Vnoplaws]: the laws of
      what the operations call, and rules for the operations; [Memns]: a file system in
      memory that satisfies the laws; [Vnopspec], [Rename], [Renamespec]: what each
      operation does; [Namespace]: the theorems.
    - [Readdir] (ext2_lookup.c): [ext2_readdir], on the directories of [Dir].
    - [Ihash] (ext2_ihash.c): the table of in-core inodes.  [Vget] (ext2_vfsops.c): the
      protocol by which threads bring an inode into core, on top of [Ihash].
    - [Readwrite] (ext2_readwrite.c): [ext2_read] and [ext2_write].  [Rwspec]: the bytes of
      a file, and what the loops over its blocks do to them; [Rwprops]: the theorems.

    The components meet where the code calls across files: [Alloc] calls [Balloc] and
    [Ialloc] on the state of [Fs]; [Balloc] and [Ialloc] call [Bitops]; [Fballoc] calls
    [Alloc] and [Bmap] and uses the buffers of the kernel, which ask [Bmap] where a block
    is, through the class [BufIO], whose laws are in [BufIOLaws]; [Truncate] gives blocks
    back through [Alloc], asks [Fballoc] for the block that the new end cuts, and writes
    inodes with the conversion of [Inode]; [Direnter] uses
    the file operations [EXT2_WRITE] and [ext2_truncate] through the class [DirIO], whose
    laws are in [DirIOLaws]; [Vnops] uses directories, truncation, inode update and the
    allocation of inodes through the class [VnOps], whose laws, in [VnLaws], speak of the
    map of names of each directory, as the theorems of [Dirrun] do, and of the attributes
    of the in-core inodes.  What a directory remembers of a lookup is part of that
    interface: [ready] says that it is right for a name.  A lookup establishes it, an entry
    that is made or removed in the directory destroys it, and the laws of entering,
    removing and rewriting demand it; so a request ([exec] of [Namespace]) is a sequence
    of calls that begins with the kernel's lookups.  This is why a renaming to a new name
    in the same directory is not a request there: after [ext2_direnter] the position of the
    old name is no longer right, and with the code of [Dcache] both names are lost
    ([rename_loses_names]).  [Readwrite] uses buffers, allocation and the user's memory
    through the class [RwOps], whose laws are in [RwLaws]; [read_serves_readdir] shows that
    it gives [Readdir] what that relies on.

    ** How the code is modelled

    Routines that change state are functions in the monad [kern] below: they return, call
    [panic], touch memory outside a buffer ([Fault]), or run out of the fuel that a loop
    was given.  [wp] asks for a return, so that each theorem stated with [wp], or with an
    equation [m s = Ret a s'], also says that the code neither panics nor faults nor
    loops.  The names of the source are kept; the phases of a long routine, between its
    labels, are definitions of their own.

    A C integer is a [Z]; conversions to [w]-bit types are written out ([u32], [i32] and
    so on) where the source converts or can overflow.  Buffers are lists of bytes, every
    access is checked.  The target is little-endian x86_64.  Kernel interfaces
    (authorisation, name cache, buffer I/O, memory) are arguments of the definitions that
    use them.  Critical sections are single steps; the threads of [Vget] interleave at
    every access to what they share, by a schedule that is any list of threads; where a lock is dropped between two
    calls, the theorems treat the calls as separate steps, and the problems found between
    them are stated as theorems ([direnter_stale_room], [dcache_stale_position],
    [rename_loses_names]).  The super lock, which the bitmap readers of the allocators drop
    while they wait for the device, is held in the model: no other thread allocates
    meanwhile.  The assembly code of [memscan] is modelled by the offset that it finds; its
    callers use only the low half of the pointer that it leaves.  The
    inode lock that [ext2_balloc2] and [ext2_truncate] drop around the buffer operations
    is not modelled: no other thread changes the inode meanwhile.  In the vnode operations
    the locks of the inodes are left out and an operation runs without others in between;
    [ext2_rmdir] waits for a lookup of the directory that is under way, so that in the
    model it does not return ([OutOfFuel]) when there is one.

    ** Fuel

    Loops whose termination is not structural take fuel, and the theorems show that the
    fuel the definitions pass is enough: a lock list is not longer than the store
    ([list_fuel]); a search of a directory advances by at least 8 bytes in each step and
    gets one unit for each byte; [compact] gets one for each byte of the slot; the block
    and the inode search get one for each group, and their retries finish in one pass; the heap routines get the number of elements, and introsort
    its depth limit.  The recursion of [ext2_indirtrunc] is structural in the level.  The
    walk of [ext2_checkpath_nolock] to the root gets one unit for each in-core inode, and
    in a tree it visits none twice.  The loop of [ext2_readdir] gets one unit for each byte
    of the buffer; those of [ext2_read] and [ext2_write] get one for each byte requested.

    ** Bounds

    The theorems about truncation are for blocks of at most 4096 bytes ([nindir] <= 2^10),
    where an [int] can number the blocks of the largest file; a file is not larger than
    [s_maxfilesize].  A request to read or write ends before block 2^31 - 1, since the code
    keeps the number of a block in an [int].

    ** What the theorems show

    - Allocation ([Balloc], [Ialloc], [Alloc]): the routines implement an abstract
      allocator on sets of blocks and inodes: what is handed out was free, lies in the
      data zone, and is accounted for in all counters; what is freed becomes free again;
      bad requests are refused; the preallocation window is always returned.
    - Bit operations ([Bitops]): the word-wise searches equal the bit-by-bit scan, and
      the case in which one runs out of the block.
    - Inodes ([Inode]): the conversions respect the types and the meaning of the fields,
      and writing and reading an inode are inverse to each other.
    - Block mapping ([Bmap]): the paths are those of a number in base [nindir]; the
      mapping is the pointer in the last block of the path.
    - Storage of a file ([Fballoc]): after a successful request the block map finds the
      block; the tree of blocks of the file stays a tree, and all its other blocks stay
      where they are, also when a request fails; the blocks that become used are those the
      file gains; two errors that are mishandled.
    - Hashes ([Hash]): both implementations agree, and where they do not.
    - Locks ([LockCorrect]): setting and clearing ranges update the byte map as POSIX
      demands and keep the invariants of the list; queries are exact; blocked requests
      sleep in the right queue, are woken when a byte they wait for is released, and an
      interrupted one leaves no trace; deadlocks are detected exactly up to the depth
      limit; a dangling pointer.
    - Sorting ([Sort]): both sorts return a sorted permutation, in bounds.
    - Directories ([Dirrun] and the files before it): lookups, creations, removals and
      replacements act on the directory as on a map, through any sequence of requests; an
      insertion compacts and cuts the directory without losing an entry; the test for
      emptiness is exact; the cached positions are right when they are fresh, and what
      happens when they are not.  A creation may report the error of the inode's update
      although the entry is there ([create_half_done]); the specification says so.
    - The name space ([Namespace]), on a device that works and without renamings to a new
      name in the same directory: each request returns without a panic and changes names
      and link counts as specified or, when it reports an error, not at all; every
      sequence of requests keeps the link counts equal to the number of entries and the
      directories a tree; a renaming moves one name and never a directory below itself;
      what goes wrong when the device fails.
    - Reading directories ([Readdir]): a call moves the entries that fit; a client that
      calls again and again is done after one call for each entry and gets each once.
    - In-core inodes ([Ihash], [Vget]): the table maps a key to the inodes that were
      entered for it, the newest first; a thread that is not preempted gets the one inode
      of its key; two that are can always make two, and can lose the lock.
    - Reading and writing ([Rwprops]), for files without a page cache and on a device that
      works: a write puts a first part of the request, all of it without an error, over
      the bytes of the file and raises the size; a read gives what was written; what goes
      wrong with set-id bits, append-only files and failing writes.
    - Attributes ([Attr]): short symbolic links are read as they were made; two wrong
      cases of changing flags and owners.

    ** What is not modelled, and why

    Indexed directories (linux/fs/ext3/namei.c, dir.c and the unused ext2_htree.c):
    [is_dx] is taken to be false.  The paging of files
    (ext2_io_apple.c, with [ext2_blkalloc], a variant of [ext2_balloc2]), which drives the
    cluster layer of the kernel; writing through that layer is modelled, but its effect on
    the file is not stated.  The contents of data blocks: the
    buffers of [BufIO] give no law for them, so that the clearing of the last block of a
    truncated file is modelled but not stated.  Nanoseconds, [i_modrev] and the teardown
    of a vnode in [ext2_reclaim].  The VFS operations (ext2_vfsops.c) and those vnode
    operations that mostly drive the kernel's interfaces: getattr, close, fsync, pathconf,
    and those of devices, fifos and kqueue.  Of [ext2_vget_internal], what follows a read
    error of the device, and the conversion of the inode, which is that of [Inode].
    ext2_attrlist.c (volume attributes), sysctl and debug output.  The user-space
    programs (src/src/e2fsprogs, e2undel, extfsmgr, depend), which are other programs, in
    part third-party code. *)

From stdpp Require Export base tactics option list list_numbers numbers gmap strings.
From Stdlib Require Export ZArith Lia.

#[global] Set Default Goal Selector "!".
Open Scope Z_scope.

Declare Scope ext2_scope.
Delimit Scope ext2_scope with ext2.

Create HintDb ext2.

(** ** Machine integers

    A [w]-bit C integer is a [Z]; the conversions below are the implicit and
    explicit casts of the source. *)

(** [uintw w x]: the value of [x] converted to an unsigned [w]-bit type. *)
Definition uintw (w x : Z) : Z := x mod 2 ^ w.

(** [sintw w x]: the value of [x] converted to a signed (two's complement)
    [w]-bit type. *)
Definition sintw (w x : Z) : Z := (x + 2 ^ (w - 1)) mod 2 ^ w - 2 ^ (w - 1).

Abbreviation u8 := (uintw 8).
Abbreviation u16 := (uintw 16).
Abbreviation u32 := (uintw 32).
Abbreviation u64 := (uintw 64).
Abbreviation i8 := (sintw 8).
Abbreviation i16 := (sintw 16).
Abbreviation i32 := (sintw 32).
Abbreviation i64 := (sintw 64).

Lemma uintw_small w x : 0 <= x < 2 ^ w -> uintw w x = x.
Proof. intros. unfold uintw. by apply Z.mod_small. Qed.

Lemma uintw_bound w x : 0 <= w -> 0 <= uintw w x < 2 ^ w.
Proof. intros. apply Z.mod_pos_bound. by apply Z.pow_pos_nonneg. Qed.

Lemma sintw_small w x : 0 < w -> - 2 ^ (w - 1) <= x < 2 ^ (w - 1) -> sintw w x = x.
Proof.
  intros Hw Hx. unfold sintw.
  assert (2 ^ w = 2 * 2 ^ (w - 1)) as E.
  { rewrite <- Z.pow_succ_r by lia. f_equal; lia. }
  rewrite Z.mod_small; lia.
Qed.

Lemma sintw_bound w x : 0 < w -> - 2 ^ (w - 1) <= sintw w x < 2 ^ (w - 1).
Proof.
  intros Hw. unfold sintw.
  assert (2 ^ w = 2 * 2 ^ (w - 1)) as E.
  { rewrite <- Z.pow_succ_r by lia. f_equal; lia. }
  pose proof (Z.mod_pos_bound (x + 2 ^ (w - 1)) (2 ^ w)). lia.
Qed.

Lemma uintw_idemp w x : 0 <= w -> uintw w (uintw w x) = uintw w x.
Proof. intros. apply uintw_small. by apply uintw_bound. Qed.

Lemma uintw_add_l w x y : uintw w (uintw w x + y) = uintw w (x + y).
Proof. unfold uintw. apply Zplus_mod_idemp_l. Qed.

Lemma uintw_add_r w x y : uintw w (x + uintw w y) = uintw w (x + y).
Proof. unfold uintw. apply Zplus_mod_idemp_r. Qed.

Lemma uintw_sub_l w x y : uintw w (uintw w x - y) = uintw w (x - y).
Proof. unfold uintw. apply Zminus_mod_idemp_l. Qed.

(** [mach]: erase the casts whose argument is provably in range. *)
Ltac mach :=
  repeat first
    [ rewrite uintw_small by lia
    | rewrite sintw_small by lia ].

(** C's [x & ~(2^k - 1)]: rounding down to a multiple of [2^k]. *)
Lemma land_lnot_ones x k : 0 <= k -> Z.land x (Z.lnot (Z.ones k)) = x - x mod 2 ^ k.
Proof.
  intros Hk. rewrite <- Z.ldiff_land, Z.ldiff_ones_r by done.
  rewrite Z.shiftl_mul_pow2, Z.shiftr_div_pow2 by done.
  assert (2 ^ k <> 0) by (apply Z.pow_nonzero; lia).
  pose proof (Z.div_mod x (2 ^ k)). lia.
Qed.

(** A non-negative number below [2^w] has no bit set from [w] on. *)
Lemma testbit_high x w i : 0 <= x < 2 ^ w -> 0 <= w <= i -> Z.testbit x i = false.
Proof.
  intros Hx Hi. destruct (decide (x = 0)) as [->|]; [apply Z.testbit_0_l|].
  apply Z.bits_above_log2; [lia|].
  enough (Z.log2 x < w) by lia. apply Z.log2_lt_pow2; lia.
Qed.

(** ** Kernel code as a state monad

    A routine of the driver runs on a state [S] and returns, panics the kernel,
    accesses memory outside the buffer it was given, or (for the loops that are
    written with [goto]) exhausts the fuel the model gives it. *)

Inductive outcome (S A : Type) : Type :=
| Ret (a : A) (s : S)
| Panic (msg : string)
| Fault
| OutOfFuel.
Arguments Ret {S A} a s.
Arguments Panic {S A} msg.
Arguments Fault {S A}.
Arguments OutOfFuel {S A}.

Definition kern (S A : Type) : Type := S -> outcome S A.

#[export] Instance kern_ret S : MRet (kern S) := fun A a s => Ret a s.

#[export] Instance kern_bind S : MBind (kern S) := fun A B k m s =>
  match m s with
  | Ret a s' => k a s'
  | Panic msg => Panic msg
  | Fault => Fault
  | OutOfFuel => OutOfFuel
  end.

Definition gets {S A} (f : S -> A) : kern S A := fun s => Ret (f s) s.
Definition modify {S} (f : S -> S) : kern S unit := fun s => Ret tt (f s).
Definition panic {S A} (msg : string) : kern S A := fun _ => Panic msg.
Definition out_of_fuel {S A} : kern S A := fun _ => OutOfFuel.

(** A memory access: [None] is an access outside the buffer. *)
Definition access {S A} (o : option A) : kern S A := fun s =>
  match o with Some a => Ret a s | None => Fault end.

(** [wp m Q s]: started in [s], [m] returns (it neither panics, nor faults, nor
    runs out of fuel), in a result and state that satisfy [Q]. *)
Definition wp {S A} (m : kern S A) (Q : A -> S -> Prop) (s : S) : Prop :=
  match m s with Ret a s' => Q a s' | _ => False end.

Section wp.
Context {S A B : Type}.
Implicit Types (Q : A -> S -> Prop) (s : S).

Lemma wp_ret (a : A) Q s : Q a s -> wp (mret a : kern S A) Q s.
Proof. done. Qed.

Lemma wp_bind (m : kern S B) (k : B -> kern S A) Q s :
  wp m (fun b => wp (k b) Q) s -> wp (m ≫= k) Q s.
Proof. unfold wp, mbind, kern_bind. by destruct (m s). Qed.

Lemma wp_mono (m : kern S A) (Q Q' : A -> S -> Prop) s :
  wp m Q s -> (forall a s', Q a s' -> Q' a s') -> wp m Q' s.
Proof. unfold wp. destruct (m s); naive_solver. Qed.

Lemma wp_gets (f : S -> A) Q s : Q (f s) s -> wp (gets f) Q s.
Proof. done. Qed.

Lemma wp_access (o : option A) (a : A) Q s : o = Some a -> Q a s -> wp (access o) Q s.
Proof. by intros ->. Qed.

(** The executable reading of [wp]. *)
Lemma wp_run (m : kern S A) Q s :
  wp m Q s <-> exists a s', m s = Ret a s' /\ Q a s'.
Proof. unfold wp. destruct (m s); naive_solver. Qed.
End wp.

Lemma wp_modify {S} (f : S -> S) (Q : unit -> S -> Prop) s : Q tt (f s) -> wp (modify f) Q s.
Proof. done. Qed.

(** What a routine returns if it does, in every state: a predicate that needs no
    knowledge of the state. *)
Definition yields {S A} (P : A -> Prop) (m : kern S A) : Prop := forall s a s', m s = Ret a s' -> P a.

Lemma yields_ret {S A} (P : A -> Prop) a : P a -> yields P (mret a : kern S A).
Proof. by intros Ha s a' s' [= <- <-]. Qed.

Lemma yields_bind {S A B} (P1 : A -> Prop) (P : B -> Prop) (m : kern S A) (k : A -> kern S B) :
  yields P1 m -> (forall a, P1 a -> yields P (k a)) -> yields P (m ≫= k).
Proof.
  intros Hm Hk s b s'. unfold mbind, kern_bind. destruct (m s) as [a s1| | |] eqn:E; [|done..].
  intros E'. by apply (Hk a (Hm s a s1 E) s1 b s').
Qed.

Lemma yields_skip {S A B} (P : B -> Prop) (m : kern S A) (k : A -> kern S B) :
  (forall a, yields P (k a)) -> yields P (m ≫= k).
Proof. intros Hk. by apply (yields_bind (fun _ => True)). Qed.

Lemma yields_panic {S A} (P : A -> Prop) msg : yields P (panic msg : kern S A).
Proof. by intros s a s'. Qed.

(** What is returned may be used to show what holds. *)
Lemma wp_yields {S A} (P : A -> Prop) (m : kern S A) Q s :
  yields P m -> wp m (fun a s' => P a -> Q a s') s -> wp m Q s.
Proof. intros Hy Hw. unfold wp in *. destruct (m s) as [a s'| | |] eqn:E; [|done..]. by apply Hw, (Hy s a s'). Qed.

(** Symbolic execution of one step whose outcome [wp] determines. *)
Lemma bind_run {S A B} (m : kern S A) (k : A -> kern S B) s a s' :
  wp m (fun a' s'' => a' = a /\ s'' = s') s -> (m ≫= k) s = k a s'.
Proof. unfold wp, mbind, kern_bind. destruct (m s); [|done..]. by intros [-> ->]. Qed.

(** Push [wp] through the monad's own operations. *)
Ltac wp_step :=
  lazymatch goal with
  | |- wp (mret _) _ _ => apply wp_ret
  | |- wp (_ ≫= _) _ _ => apply wp_bind
  | |- wp (gets _) _ _ => apply wp_gets
  | |- wp (modify _) _ _ => apply wp_modify
  | |- wp (access (Some _)) _ _ => apply wp_ret
  end.
Ltac wp_steps := repeat (wp_step; cbn beta).

(** ** Counting clear bits *)

(** Number of [i < n] with [f i = false]. *)
Fixpoint count_clear (f : Z -> bool) (n : nat) : Z :=
  match n with
  | O => 0
  | S m => count_clear f m + (if f (Z.of_nat m) then 0 else 1)
  end.

Lemma count_clear_ext f g n :
  (forall i, 0 <= i < Z.of_nat n -> f i = g i) -> count_clear f n = count_clear g n.
Proof.
  induction n as [|n IH]; intros H; [done|]. cbn [count_clear].
  rewrite IH, (H (Z.of_nat n)); [done|lia|]. intros; apply H; lia.
Qed.

Lemma count_clear_bound f n : 0 <= count_clear f n <= Z.of_nat n.
Proof. induction n as [|n IH]; cbn [count_clear]; [lia|]. destruct (f _); lia. Qed.

(** Setting one clear bit lowers the count by one. *)
Lemma count_clear_set f g n j :
  0 <= j < Z.of_nat n -> f j = false -> g j = true ->
  (forall i, 0 <= i < Z.of_nat n -> i <> j -> f i = g i) ->
  count_clear g n = count_clear f n - 1.
Proof.
  intros Hj Hf Hg Heq. induction n as [|n IH]; [lia|]. cbn [count_clear].
  destruct (decide (j = Z.of_nat n)) as [->|].
  - rewrite Hf, Hg, (count_clear_ext g f); [lia|]. intros. symmetry. apply Heq; lia.
  - rewrite IH, (Heq (Z.of_nat n)) by (lia || (intros; apply Heq; lia)). lia.
Qed.

(** Setting the [m] clear bits from [lo] on lowers the count by [m]. *)
Lemma count_clear_range f g n lo m :
  0 <= lo -> lo + Z.of_nat m <= Z.of_nat n ->
  (forall i, lo <= i < lo + Z.of_nat m -> f i = false) ->
  (forall i, 0 <= i < Z.of_nat n ->
     g i = if decide (lo <= i < lo + Z.of_nat m) then true else f i) ->
  count_clear g n = count_clear f n - Z.of_nat m.
Proof.
  intros Hlo. revert g. induction m as [|m IH]; intros g Hn Hf Hg.
  - rewrite (count_clear_ext g f); [lia|]. intros i Hi. rewrite Hg by done.
    by rewrite decide_False by lia.
  - set (h i := if decide (lo <= i < lo + Z.of_nat m) then true else f i).
    assert (count_clear h n = count_clear f n - Z.of_nat m) as E.
    { apply IH; [lia| |done]. intros i Hi. apply Hf. lia. }
    rewrite (count_clear_set h g n (lo + Z.of_nat m)); [lia|lia| | |].
    + unfold h. rewrite decide_False by lia. apply Hf. lia.
    + rewrite Hg, decide_True by lia. done.
    + intros i Hi Hne. rewrite Hg by done. unfold h.
      destruct (decide (lo <= i < lo + Z.of_nat m)).
      * by rewrite decide_True by lia.
      * by rewrite decide_False by lia.
Qed.

Lemma count_clear_pos f n :
  0 < count_clear f n <-> exists j, 0 <= j < Z.of_nat n /\ f j = false.
Proof.
  induction n as [|n IH]; cbn [count_clear].
  - split; [lia|]. intros (j & ? & ?). lia.
  - pose proof (count_clear_bound f n). split.
    + destruct (f (Z.of_nat n)) eqn:E.
      * intros. destruct IH as [IH _]. destruct IH as (j & ? & ?); [lia|].
        exists j. split; [lia|done].
      * intros. exists (Z.of_nat n). split; [lia|done].
    + intros (j & Hj & Hfj). destruct (decide (j = Z.of_nat n)) as [->|].
      * rewrite Hfj. lia.
      * enough (0 < count_clear f n) by (destruct (f (Z.of_nat n)); lia).
        apply IH. exists j. split; [lia|done].
Qed.

(** ** Sums over lists *)

Definition sumZ (l : list Z) : Z := foldr Z.add 0 l.

Lemma sumZ_insert l i x y : l !! i = Some x -> sumZ (<[i := y]> l) = sumZ l - x + y.
Proof.
  revert i. induction l as [|a l IH]; intros [|i] H; simplify_eq/=; [lia|].
  rewrite (IH i) by done. lia.
Qed.

Lemma sumZ_nonneg l : Forall (fun x => 0 <= x) l -> 0 <= sumZ l.
Proof. induction 1; simpl in *; lia. Qed.

Lemma sumZ_elem l i x : Forall (fun x => 0 <= x) l -> l !! i = Some x -> x <= sumZ l.
Proof.
  intros Hl. revert i. induction Hl as [|a l Ha Hl IH]; intros [|i] H; simplify_eq/=.
  - pose proof (sumZ_nonneg l Hl). lia.
  - specialize (IH i H). lia.
Qed.

Lemma sumZ_pos l : Forall (fun x => 0 <= x) l -> 0 < sumZ l ->
  exists i x, l !! i = Some x /\ 0 < x.
Proof.
  induction 1 as [|a l Ha Hl IH]; simpl; [lia|]. intros Hs.
  destruct (decide (a = 0)) as [->|].
  - destruct IH as (i & x & ? & ?); [lia|]. by exists (S i), x.
  - exists O, a. split; [done|lia].
Qed.

Lemma sumZ_le l b : Forall (fun x => x <= b) l -> sumZ l <= b * Z.of_nat (length l).
Proof. unfold sumZ. induction 1; cbn [foldr length] in *; lia. Qed.

(** ** Unsigned words *)

Definition is_uint (w x : Z) : Prop := 0 <= x < 2 ^ w.

Lemma uint_uintw w x : 0 <= w -> is_uint w (uintw w x).
Proof. apply uintw_bound. Qed.

(** Bitwise operations that have no bit above [w] when their arguments have none. *)
Lemma uint_bitwise w x : 0 <= w -> 0 <= x -> (forall i, w <= i -> Z.testbit x i = false) -> is_uint w x.
Proof. intros Hw Hx H. split; [done|]. by apply Z.bounded_iff_bits_nonneg. Qed.

Lemma uint_land w x y : 0 <= w -> is_uint w x -> 0 <= y -> is_uint w (Z.land x y).
Proof.
  intros Hw Hx Hy. apply uint_bitwise; [done|by apply Z.land_nonneg; left; apply Hx|].
  intros i Hi. by rewrite Z.land_spec, (testbit_high x w) by (split; done || apply Hx).
Qed.

Lemma uint_lor w x y : 0 <= w -> is_uint w x -> is_uint w y -> is_uint w (Z.lor x y).
Proof.
  intros Hw Hx Hy. apply uint_bitwise; [done|apply Z.lor_nonneg; split; [apply Hx|apply Hy]|].
  intros i Hi. by rewrite Z.lor_spec, !(testbit_high _ w) by done.
Qed.

Lemma uint_lxor w x y : 0 <= w -> is_uint w x -> is_uint w y -> is_uint w (Z.lxor x y).
Proof.
  intros Hw Hx Hy. apply uint_bitwise; [done| |].
  - apply Z.lxor_nonneg. destruct Hx, Hy. tauto.
  - intros i Hi. by rewrite Z.lxor_spec, !(testbit_high _ w) by done.
Qed.

Lemma uint_shiftr w x n : 0 <= w -> 0 <= n -> is_uint w x -> is_uint w (Z.shiftr x n).
Proof.
  intros Hw Hn Hx. apply uint_bitwise; [done|apply Z.shiftr_nonneg, Hx|].
  intros i Hi. rewrite Z.shiftr_spec by lia. apply (testbit_high x w); [done|lia].
Qed.

#[export] Hint Resolve uint_uintw uint_land uint_lor uint_lxor uint_shiftr : ext2.

Lemma sintw_add_l w x y : sintw w (sintw w x + y) = sintw w (x + y).
Proof.
  unfold sintw. f_equal.
  replace ((x + 2 ^ (w - 1)) mod 2 ^ w - 2 ^ (w - 1) + y + 2 ^ (w - 1)) with ((x + 2 ^ (w - 1)) mod 2 ^ w + y) by lia.
  rewrite Zplus_mod_idemp_l. f_equal. lia.
Qed.

(** Casts between the signed and unsigned type of one width. *)
Lemma sintw_idemp w x : sintw w (sintw w x) = sintw w x.
Proof. pose proof (sintw_add_l w x 0) as E. by rewrite !Z.add_0_r in E. Qed.

(** Congruence of the sum. *)
Lemma sintw_add w x x' y y' : sintw w x = sintw w x' -> sintw w y = sintw w y' -> sintw w (x + y) = sintw w (x' + y').
Proof.
  intros Ex Ey. by rewrite <- sintw_add_l, Ex, sintw_add_l, Z.add_comm, <- sintw_add_l, Ey, sintw_add_l, Z.add_comm.
Qed.

Lemma sintw_sub w x y y' : sintw w y = sintw w y' -> sintw w (x - y) = sintw w (x - y').
Proof.
  unfold sintw. set (h := 2 ^ (w - 1)). set (m := 2 ^ w). intros E. f_equal.
  replace (x - y + h) with (x + h + h - (y + h)) by lia. replace (x - y' + h) with (x + h + h - (y' + h)) by lia.
  rewrite (Zminus_mod _ (y + h)), (Zminus_mod _ (y' + h)). do 2 f_equal. lia.
Qed.

Lemma uintw_sintw w x : uintw w (sintw w x) = uintw w x.
Proof. unfold uintw, sintw. rewrite Zminus_mod_idemp_l. f_equal. lia. Qed.

Lemma sintw_uintw w x : sintw w (uintw w x) = sintw w x.
Proof. unfold uintw, sintw. by rewrite Zplus_mod_idemp_l. Qed.

Lemma uintw_lor w x y : 0 <= w -> uintw w (Z.lor x y) = Z.lor (uintw w x) (uintw w y).
Proof.
  intros Hw. apply Z.bits_inj'. intros i Hi. unfold uintw. rewrite Z.lor_spec.
  destruct (decide (i < w)).
  - by rewrite !Z.mod_pow2_bits_low, Z.lor_spec by lia.
  - by rewrite !Z.mod_pow2_bits_high by lia.
Qed.

(** Splitting a word in a low and a high part and joining them. *)
Lemma split_join x k : 0 <= k -> Z.lor (x mod 2 ^ k) (Z.shiftl (x / 2 ^ k) k) = x.
Proof.
  intros Hk. apply Z.bits_inj'. intros i Hi. rewrite Z.lor_spec, <- Z.shiftr_div_pow2 by done.
  destruct (decide (i < k)).
  - rewrite Z.mod_pow2_bits_low, Z.shiftl_spec_low by lia. by rewrite orb_false_r.
  - rewrite Z.mod_pow2_bits_high, Z.shiftl_spec, Z.shiftr_spec by lia. cbn. f_equal. lia.
Qed.

Lemma join_low x y k : 0 <= k -> is_uint k x -> Z.lor x (Z.shiftl y k) mod 2 ^ k = x.
Proof.
  intros Hk Hx. apply Z.bits_inj'. intros i Hi. destruct (decide (i < k)).
  - rewrite Z.mod_pow2_bits_low, Z.lor_spec, Z.shiftl_spec_low by lia. by rewrite orb_false_r.
  - rewrite Z.mod_pow2_bits_high by lia. by rewrite (testbit_high x k) by (done || lia).
Qed.

Lemma join_high x y k : 0 <= k -> is_uint k x -> Z.lor x (Z.shiftl y k) / 2 ^ k = y.
Proof.
  intros Hk Hx. rewrite <- Z.shiftr_div_pow2 by done. apply Z.bits_inj'. intros i Hi.
  rewrite Z.shiftr_spec, Z.lor_spec, Z.shiftl_spec by lia.
  rewrite (testbit_high x k) by (done || lia). cbn. f_equal. lia.
Qed.

(** ** Lists of consecutive integers *)

Lemma take_seqZ m n i : 0 <= n -> n <= i -> take (Z.to_nat n) (seqZ m i) = seqZ m n.
Proof.
  intros Hn Hi. replace i with (n + (i - n)) by lia. rewrite seqZ_app by lia.
  rewrite take_app_length'; [done|]. rewrite length_seqZ. done.
Qed.

(** ** Maps without repeated values *)

Lemma size_map_img `{Countable K} (m : gmap K Z) :
  (forall i j x, m !! i = Some x -> m !! j = Some x -> i = j) -> size (map_img m : gset Z) = size m.
Proof.
  induction m as [|i x m Hi IH] using map_ind; intros Hinj.
  { by rewrite map_img_empty_L, map_size_empty. }
  assert ({[x]} ## (map_img m : gset Z)) as Hx.
  { apply disjoint_singleton_l. rewrite elem_of_map_img. intros [j Hj].
    assert (i = j); [|congruence]. apply (Hinj i j x); [by rewrite lookup_insert_eq|].
    rewrite lookup_insert_ne; [done|congruence]. }
  rewrite map_img_insert_notin_L, map_size_insert_None by done. rewrite size_union, size_singleton by done.
  f_equal. apply IH. intros j k y Hj Hk. apply (Hinj j k y); (rewrite lookup_insert_ne; [done|congruence]).
Qed.

(** ** Rounding up to a multiple: the macro [roundup] *)

Definition roundup (x y : Z) : Z := (x + (y - 1)) / y * y.

Lemma roundup_ge x y : 0 < y -> 0 <= x -> x <= roundup x y < x + y.
Proof.
  intros Hy Hx. unfold roundup. pose proof (Z.div_mod (x + (y - 1)) y ltac:(lia)).
  pose proof (Z.mod_pos_bound (x + (y - 1)) y Hy). lia.
Qed.

Lemma roundup_le x y m : 0 < y -> 0 <= x <= m -> (y | m) -> roundup x y <= m.
Proof.
  intros Hy Hx [q ->]. unfold roundup. assert ((x + (y - 1)) / y <= q); [|nia].
  apply Z.lt_succ_r, Z.div_lt_upper_bound; lia.
Qed.

(** ** Assignments

    [var a := x in k] is an assignment to a local variable in straight-line code: a
    [let] that reduction does not expand on its own, so that long sequences of
    assignments can be reasoned about one at a time. *)
Definition assign {A B} (x : A) (k : A -> B) : B := k x.
Notation "'var' a ':=' x 'in' k" := (assign x (fun a => k))
  (at level 200, a name, x at level 200, k at level 200) : ext2_scope.
Open Scope ext2_scope.

(** Forget the value that was assigned. *)
Lemma assign_all {A B} (P : B -> Prop) (x : A) (k : A -> B) :
  (forall v, P (k v)) -> P (assign x k).
Proof. intros H. apply H. Qed.

(** Two assignments agree when the values do and the rests agree on any value that
    satisfies [P]. *)
Lemma assign_ext {A B} (P : A -> Prop) (x y : A) (k1 k2 : A -> B) :
  x = y -> P y -> (forall v, P v -> k1 v = k2 v) -> assign x k1 = assign y k2.
Proof. intros -> Hy H. apply H, Hy. Qed.
