(* ===== verification/Bitops.v ===== *)
(** * Bit operations on bitmap blocks (src/src/gnu/ext2fs/i386-bitops.h)

    A bitmap block is the list of its bytes.  Bit [n] of the block is bit
    [n mod 8] of byte [n / 8], which on this little-endian target is also bit
    [n mod 32] of the 32-bit word [n / 32] the [bts]/[btr]/[bt] instructions
    address, and bit [n mod 64] of the 64-bit word [n / 64] the search routines
    load.  Every routine returns [None] when it would read or write outside the
    block.  The search routines are the [__x86_64__] branches of the header. *)

From S2P Require Import Prelude.

(** ** The block as a function from bit numbers *)

Definition wf_bytes (bs : list Z) : Prop := Forall (fun b => 0 <= b < 256) bs.

(** Number of bits in a block. *)
Definition nbits (bs : list Z) : Z := 8 * Z.of_nat (length bs).

Definition bitat (bs : list Z) (n : Z) : bool :=
  match bs !! Z.to_nat (n / 8) with
  | Some b => Z.testbit b (n mod 8)
  | None => false
  end.

(** Reference search: first clear bit of [lo, lo + k), or [lo + k]. *)
Fixpoint scan_clear (bs : list Z) (lo : Z) (k : nat) : Z :=
  match k with
  | O => lo
  | S k => if bitat bs lo then scan_clear bs (lo + 1) k else lo
  end.

(** ** The operations *)

Definition byte_of (nr : Z) (bs : list Z) : option Z :=
  if nr <? 0 then None else bs !! Z.to_nat (nr / 8).

Definition set_bit (nr : Z) (bs : list Z) : option (bool * list Z) :=
  b ← byte_of nr bs;
  Some (Z.testbit b (nr mod 8),
        <[Z.to_nat (nr / 8) := Z.lor b (Z.shiftl 1 (nr mod 8))]> bs).

Definition clear_bit (nr : Z) (bs : list Z) : option (bool * list Z) :=
  b ← byte_of nr bs;
  Some (Z.testbit b (nr mod 8),
        <[Z.to_nat (nr / 8) := Z.ldiff b (Z.shiftl 1 (nr mod 8))]> bs).

Definition change_bit (nr : Z) (bs : list Z) : option (bool * list Z) :=
  b ← byte_of nr bs;
  Some (Z.testbit b (nr mod 8),
        <[Z.to_nat (nr / 8) := Z.lxor b (Z.shiftl 1 (nr mod 8))]> bs).

Definition test_bit (nr : Z) (bs : list Z) : option bool :=
  b ← byte_of nr bs; Some (Z.testbit b (nr mod 8)).

(** Little-endian load of the 64-bit word at byte [8 * p]. *)
Fixpoint le_combine (bs : list Z) : Z :=
  match bs with
  | [] => 0
  | b :: bs => Z.lor b (Z.shiftl (le_combine bs) 8)
  end.

Definition load64 (bs : list Z) (p : Z) : option Z :=
  if (0 <=? p) && (8 * p + 8 <=? Z.of_nat (length bs))
  then Some (le_combine (take 8 (drop (Z.to_nat (8 * p)) bs)))
  else None.

(** [bsf]: index of the lowest set bit; the result is undefined on zero. *)
Fixpoint bsf_from (k : nat) (i w : Z) : option Z :=
  match k with
  | O => None
  | S k => if Z.testbit w i then Some i else bsf_from k (i + 1) w
  end.

Definition bsf (w : Z) : option Z := bsf_from 64 0 w.

Definition ffz (word : Z) : option Z := bsf (u64 (Z.lnot word)).

Definition ones64 : Z := 2 ^ 64 - 1.

(** The word loop of [find_first_zero_bit]: [p] is the word pointer, [size] an
    [unsigned long].  Each round consumes a word of the block, so a fuel of one
    more than the block's length is never exhausted. *)
Fixpoint ffzb_loop (fuel : nat) (bs : list Z) (p size result : Z) : option Z :=
  match fuel with
  | O => None
  | S fuel =>
      if Z.land size (Z.lnot 63) =? 0 then
        if size =? 0 then Some result
        else
          w ← load64 bs p;
          let tmp := u64 (Z.lor w (u64 (Z.shiftl ones64 size))) in
          if tmp =? ones64 then Some (result + size)
          else z ← ffz tmp; Some (result + z)
      else
        tmp ← load64 bs p;
        if u64 (Z.lnot tmp) =? 0
        then ffzb_loop fuel bs (p + 1) (u64 (size - 64)) (result + 64)
        else z ← ffz tmp; Some (result + z)
  end.

Definition find_first_zero_bit_at (bs : list Z) (p size : Z) : option Z :=
  ffzb_loop (S (length bs)) bs p (u64 size) 0.

Definition find_first_zero_bit (bs : list Z) (size : Z) : option Z :=
  find_first_zero_bit_at bs 0 size.

Definition find_next_zero_bit (bs : list Z) (size offset : Z) : option Z :=
  let p := Z.shiftr offset 6 in
  let bit := Z.land offset 63 in
  if negb (bit =? 0) then
    w ← load64 bs p;
    let set := default 64 (bsf (u64 (Z.lnot (Z.shiftr w bit)))) in
    if set <? 64 - bit then Some (set + offset)
    else
      res ← find_first_zero_bit_at bs (p + 1) (u64 (size - 64 * (p + 1)));
      Some (offset + (64 - bit) + res)
  else
    res ← find_first_zero_bit_at bs p (u64 (size - 64 * p));
    Some (offset + 0 + res).

(** [memscan data+p c size]: the offset (from the start of the block) of the
    first byte equal to [c] in [size] bytes, or one past the area. *)
Fixpoint memscan_go (l : list Z) (c size i : Z) : option Z :=
  if size =? 0 then Some i
  else match l with
       | [] => None
       | b :: l => if b =? c then Some i else memscan_go l c (size - 1) (i + 1)
       end.

Definition memscan (bs : list Z) (p c size : Z) : option Z :=
  if p <? 0 then None else memscan_go (drop (Z.to_nat p) bs) c size p.

(** ** Bytes and bits *)

Lemma bitat_byte bs n b :
  0 <= n -> bs !! Z.to_nat (n / 8) = Some b -> bitat bs n = Z.testbit b (n mod 8).
Proof. intros _ H. unfold bitat. by rewrite H. Qed.

Lemma byte_of_ok nr bs :
  0 <= nr < nbits bs -> exists b, byte_of nr bs = Some b /\ bs !! Z.to_nat (nr / 8) = Some b.
Proof.
  unfold byte_of, nbits. intros H. rewrite (proj2 (Z.ltb_ge nr 0)) by lia.
  destruct (lookup_lt_is_Some_2 bs (Z.to_nat (nr / 8))) as [b Hb]; [|by exists b].
  assert (nr / 8 < Z.of_nat (length bs)) by (apply Z.div_lt_upper_bound; lia).
  pose proof (Z.div_pos nr 8). lia.
Qed.

Lemma test_bit_ok nr bs : 0 <= nr < nbits bs -> test_bit nr bs = Some (bitat bs nr).
Proof.
  intros H. destruct (byte_of_ok nr bs H) as (b & Hb & Hl).
  unfold test_bit, bitat. rewrite Hb, Hl. done.
Qed.

Lemma nbits_insert bs i b : nbits (<[i := b]> bs) = nbits bs.
Proof. unfold nbits. by rewrite length_insert. Qed.

(** Effect on the bits of replacing one byte. *)
Lemma bitat_insert bs n i b :
  0 <= n < nbits bs -> 0 <= i ->
  bitat (<[Z.to_nat (n / 8) := b]> bs) i =
    if decide (i / 8 = n / 8) then Z.testbit b (i mod 8) else bitat bs i.
Proof.
  unfold bitat, nbits. intros Hn Hi.
  assert (n / 8 < Z.of_nat (length bs)) by (apply Z.div_lt_upper_bound; lia).
  pose proof (Z.div_pos n 8). pose proof (Z.div_pos i 8).
  destruct (decide (i / 8 = n / 8)) as [->|Hne].
  - rewrite list_lookup_insert_eq by lia. done.
  - rewrite list_lookup_insert_ne by lia. done.
Qed.

Lemma testbit_one_shift k i :
  0 <= k -> 0 <= i -> Z.testbit (Z.shiftl 1 k) i = bool_decide (i = k).
Proof.
  intros Hk Hi. rewrite Z.shiftl_1_l, Z.pow2_bits_eqb by done.
  case_bool_decide; [subst; apply Z.eqb_refl|apply Z.eqb_neq; lia].
Qed.

Lemma same_byte_same_bit i n : i / 8 = n / 8 -> (i mod 8 = n mod 8 <-> i = n).
Proof. intros. pose proof (Z.div_mod i 8). pose proof (Z.div_mod n 8). lia. Qed.

(** A read-modify-write of the byte holding bit [nr] by [f], where [f b] changes
    bit [nr mod 8] to [v] and keeps the others, updates exactly bit [nr]. *)
Lemma update_bit_spec bs nr (f : Z -> Z) (v : bool) b :
  0 <= nr < nbits bs -> bs !! Z.to_nat (nr / 8) = Some b ->
  (forall k, 0 <= k < 8 ->
     Z.testbit (f b) k = if decide (k = nr mod 8) then v else Z.testbit b k) ->
  forall i, 0 <= i ->
    bitat (<[Z.to_nat (nr / 8) := f b]> bs) i = if decide (i = nr) then v else bitat bs i.
Proof.
  intros Hnr Hb Hf i Hi. rewrite bitat_insert by done.
  destruct (decide (i / 8 = nr / 8)) as [E|NE].
  - pose proof (same_byte_same_bit i nr E).
    rewrite Hf by (apply Z.mod_pos_bound; lia).
    destruct (decide (i mod 8 = nr mod 8)), (decide (i = nr)); try tauto.
    unfold bitat. rewrite E, Hb. done.
  - destruct (decide (i = nr)) as [->|]; [done|]. done.
Qed.

Lemma byte_update_range b k :
  0 <= b < 256 -> 0 <= k < 8 ->
  0 <= Z.lor b (Z.shiftl 1 k) < 256 /\ 0 <= Z.ldiff b (Z.shiftl 1 k) < 256.
Proof.
  intros Hb Hk.
  assert (forall x, 0 <= x -> (forall i, 8 <= i -> Z.testbit x i = false) -> 0 <= x < 256) as R.
  { intros x Hx Hi. split; [done|]. destruct (decide (x = 0)) as [->|]; [lia|].
    apply (Z.log2_lt_pow2 x 8); [lia|]. destruct (Z.ltb_spec (Z.log2 x) 8); [done|].
    specialize (Hi (Z.log2 x) ltac:(lia)). rewrite Z.bit_log2 in Hi by lia. done. }
  assert (0 <= Z.shiftl 1 k) by (apply Z.shiftl_nonneg; lia).
  split; apply R.
  - apply Z.lor_nonneg; lia.
  - intros i Hi. rewrite Z.lor_spec, (testbit_high b 8) by lia.
    rewrite testbit_one_shift by lia. case_bool_decide; [lia|done].
  - apply Z.ldiff_nonneg; lia.
  - intros i Hi. rewrite Z.ldiff_spec, (testbit_high b 8) by lia. done.
Qed.

(** What the three operations promise of a block they change: the bit's old
    value is returned, and the new block differs from the old in that bit only. *)
Record bit_updated (bs bs' : list Z) (nr : Z) (v : bool) : Prop := {
  bu_bits : forall i, 0 <= i -> bitat bs' i = if decide (i = nr) then v else bitat bs i;
  bu_length : length bs' = length bs;
  bu_wf : wf_bytes bs -> wf_bytes bs';
}.

Lemma set_bit_ok nr bs :
  0 <= nr < nbits bs ->
  exists bs', set_bit nr bs = Some (bitat bs nr, bs') /\ bit_updated bs bs' nr true.
Proof.
  intros H. destruct (byte_of_ok nr bs H) as (b & Hb & Hl).
  assert (0 <= nr mod 8 < 8) by (apply Z.mod_pos_bound; lia).
  exists (<[Z.to_nat (nr / 8) := Z.lor b (Z.shiftl 1 (nr mod 8))]> bs). split.
  - unfold set_bit. rewrite Hb. unfold bitat. by rewrite Hl.
  - split; [|apply length_insert|].
    + apply (update_bit_spec bs nr (fun b => Z.lor b (Z.shiftl 1 (nr mod 8)))); [done..|].
      intros k Hk. rewrite Z.lor_spec, testbit_one_shift by lia.
      destruct (decide _), (bool_decide _) eqn:E; rewrite ?orb_true_r, ?orb_false_r; try done.
      * by apply bool_decide_eq_false in E.
      * by apply bool_decide_eq_true in E.
    + intros W. apply Forall_insert; [done|]. apply byte_update_range; [|done].
      by eapply Forall_lookup_1 in W.
Qed.

Lemma clear_bit_ok nr bs :
  0 <= nr < nbits bs ->
  exists bs', clear_bit nr bs = Some (bitat bs nr, bs') /\ bit_updated bs bs' nr false.
Proof.
  intros H. destruct (byte_of_ok nr bs H) as (b & Hb & Hl).
  assert (0 <= nr mod 8 < 8) by (apply Z.mod_pos_bound; lia).
  exists (<[Z.to_nat (nr / 8) := Z.ldiff b (Z.shiftl 1 (nr mod 8))]> bs). split.
  - unfold clear_bit. rewrite Hb. unfold bitat. by rewrite Hl.
  - split; [|apply length_insert|].
    + apply (update_bit_spec bs nr (fun b => Z.ldiff b (Z.shiftl 1 (nr mod 8)))); [done..|].
      intros k Hk. rewrite Z.ldiff_spec, testbit_one_shift by lia.
      destruct (decide _), (bool_decide _) eqn:E; rewrite ?andb_true_r, ?andb_false_r; try done.
      * by apply bool_decide_eq_false in E.
      * by apply bool_decide_eq_true in E.
    + intros W. apply Forall_insert; [done|]. apply byte_update_range; [|done].
      by eapply Forall_lookup_1 in W.
Qed.

Lemma change_bit_ok nr bs :
  0 <= nr < nbits bs ->
  exists bs', change_bit nr bs = Some (bitat bs nr, bs') /\ length bs' = length bs /\
    forall i, 0 <= i -> bitat bs' i = if decide (i = nr) then negb (bitat bs nr) else bitat bs i.
Proof.
  intros H. destruct (byte_of_ok nr bs H) as (b & Hb & Hl).
  assert (0 <= nr mod 8 < 8) by (apply Z.mod_pos_bound; lia).
  exists (<[Z.to_nat (nr / 8) := Z.lxor b (Z.shiftl 1 (nr mod 8))]> bs). split_and!.
  - unfold change_bit. rewrite Hb. unfold bitat. by rewrite Hl.
  - apply length_insert.
  - apply (update_bit_spec bs nr (fun b => Z.lxor b (Z.shiftl 1 (nr mod 8)))); [done..|].
    intros k Hk. rewrite Z.lxor_spec, testbit_one_shift by lia. unfold bitat. rewrite Hl.
    destruct (decide _) as [->|], (bool_decide _) eqn:E; rewrite ?xorb_true_r, ?xorb_false_r; try done.
    + by apply bool_decide_eq_false in E.
    + by apply bool_decide_eq_true in E.
Qed.

(** ** Words *)

Lemma le_combine_testbit bs i :
  wf_bytes bs -> 0 <= i -> Z.testbit (le_combine bs) i = bitat bs i.
Proof.
  intros W. revert i. induction W as [|b bs Hb W IH]; intros i Hi; cbn [le_combine].
  - rewrite Z.testbit_0_l. unfold bitat. by rewrite lookup_nil.
  - rewrite Z.lor_spec. unfold bitat. destruct (decide (i < 8)) as [Hlt|Hge].
    + rewrite Z.shiftl_spec_low, orb_false_r by done.
      rewrite Z.div_small, Z.mod_small by lia. done.
    + rewrite Z.shiftl_spec_high by lia. rewrite (testbit_high b 8) by lia. cbn [orb].
      rewrite IH by lia. unfold bitat.
      replace (i / 8) with (Z.succ ((i - 8) / 8)).
      2:{ replace i with ((i - 8) + 1 * 8) at 2 by lia. rewrite Z.div_add by lia. lia. }
      replace (i mod 8) with ((i - 8) mod 8).
      2:{ replace (i - 8) with (i + (-1) * 8) by lia. by rewrite Z.mod_add. }
      pose proof (Z.div_pos (i - 8) 8). rewrite Z2Nat.inj_succ by lia. done.
Qed.

Lemma le_combine_bound bs : wf_bytes bs -> 0 <= le_combine bs < 2 ^ nbits bs.
Proof.
  intros W.
  assert (0 <= le_combine bs) as H0.
  { induction W; cbn [le_combine]; [lia|]. apply Z.lor_nonneg.
    split; [lia|]. by apply Z.shiftl_nonneg. }
  split; [done|]. assert (0 <= nbits bs) by (unfold nbits; lia).
  destruct (decide (le_combine bs = 0)) as [->|]; [apply Z.pow_pos_nonneg; lia|].
  apply Z.log2_lt_pow2; [lia|]. destruct (Z.ltb_spec (Z.log2 (le_combine bs)) (nbits bs)); [done|].
  assert (Z.testbit (le_combine bs) (Z.log2 (le_combine bs)) = true) as E by (apply Z.bit_log2; lia).
  rewrite le_combine_testbit in E by (done || apply Z.log2_nonneg).
  unfold bitat in E. rewrite lookup_ge_None_2 in E; [done|].
  unfold nbits in *. apply Nat2Z.inj_le. rewrite Z2Nat.id by (apply Z.div_pos; lia).
  apply Z.div_le_lower_bound; lia.
Qed.

Lemma bitat_drop_take bs k m i :
  0 <= i < 8 * Z.of_nat m ->
  bitat (take m (drop k bs)) i = bitat bs (8 * Z.of_nat k + i).
Proof.
  intros Hi. unfold bitat.
  assert (i / 8 < Z.of_nat m) by (apply Z.div_lt_upper_bound; lia).
  pose proof (Z.div_pos i 8).
  rewrite lookup_take_lt by lia. rewrite lookup_drop.
  replace (8 * Z.of_nat k + i) with (i + Z.of_nat k * 8) by lia.
  rewrite Z.div_add, Z.mod_add by lia.
  replace (Z.to_nat (i / 8 + Z.of_nat k)) with (k + Z.to_nat (i / 8))%nat by lia. done.
Qed.

(** A word load inside the block gives its 64 bits. *)
Lemma load64_ok bs p :
  wf_bytes bs -> 0 <= p -> 8 * p + 8 <= Z.of_nat (length bs) ->
  exists w, load64 bs p = Some w /\ 0 <= w < 2 ^ 64 /\
    forall i, 0 <= i < 64 -> Z.testbit w i = bitat bs (64 * p + i).
Proof.
  intros W Hp Hl. unfold load64.
  rewrite (proj2 (Z.leb_le 0 p)), (proj2 (Z.leb_le (8 * p + 8) _)) by done. cbn [andb].
  eexists. split; [done|].
  assert (wf_bytes (take 8 (drop (Z.to_nat (8 * p)) bs))) as W'
    by (unfold wf_bytes; auto using Forall_take, Forall_drop).
  split.
  - pose proof (le_combine_bound _ W') as B.
    replace (nbits (take 8 (drop (Z.to_nat (8 * p)) bs))) with 64 in B; [done|].
    unfold nbits. rewrite length_take, length_drop. lia.
  - intros i Hi. rewrite le_combine_testbit by (done || lia).
    rewrite bitat_drop_take by lia. f_equal. lia.
Qed.

Lemma bsf_from_spec k i w :
  match bsf_from k i w with
  | Some r => i <= r < i + Z.of_nat k /\ Z.testbit w r = true /\
              forall j, i <= j < r -> Z.testbit w j = false
  | None => forall j, i <= j < i + Z.of_nat k -> Z.testbit w j = false
  end.
Proof.
  revert i. induction k as [|k IH]; intros i; cbn [bsf_from]; [intros; lia|].
  destruct (Z.testbit w i) eqn:E.
  - split_and!; [lia|lia|done|]. intros; lia.
  - specialize (IH (i + 1)). destruct (bsf_from k (i + 1) w) as [r|].
    + destruct IH as (? & ? & IH). split_and!; [lia|lia|done|].
      intros j Hj. destruct (decide (j = i)) as [->|]; [done|]. apply IH; lia.
    + intros j Hj. destruct (decide (j = i)) as [->|]; [done|]. apply IH; lia.
Qed.

Lemma u64_lnot_testbit w i : 0 <= i < 64 -> Z.testbit (u64 (Z.lnot w)) i = negb (Z.testbit w i).
Proof.
  intros Hi. unfold uintw. rewrite Z.mod_pow2_bits_low by lia. by rewrite Z.lnot_spec by lia.
Qed.

(** All 64 bits set is the test [~tmp == 0]. *)
Lemma u64_lnot_zero w : 0 <= w < 2 ^ 64 ->
  (u64 (Z.lnot w) =? 0) = true <-> forall i, 0 <= i < 64 -> Z.testbit w i = true.
Proof.
  intros Hw. rewrite Z.eqb_eq. split.
  - intros E i Hi. pose proof (u64_lnot_testbit w i Hi) as T. rewrite E, Z.testbit_0_l in T.
    by destruct (Z.testbit w i).
  - intros H. apply Z.bits_inj'. intros i Hi. rewrite Z.testbit_0_l.
    destruct (decide (i < 64)).
    + rewrite u64_lnot_testbit, H by lia. done.
    + apply (testbit_high _ 64); [apply uintw_bound; lia|lia].
Qed.

Lemma ones64_all w : 0 <= w < 2 ^ 64 ->
  w = ones64 <-> forall i, 0 <= i < 64 -> Z.testbit w i = true.
Proof.
  intros Hw. change ones64 with (Z.ones 64). split.
  - intros -> i Hi. by apply Z.ones_spec_low.
  - intros H. apply Z.bits_inj'. intros i Hi. destruct (decide (i < 64)).
    + rewrite H, Z.ones_spec_low by lia. done.
    + rewrite (testbit_high w 64), Z.ones_spec_high by lia. done.
Qed.

(** ** The searches *)

(** [r] is the first clear bit of [lo, hi), or [hi] when there is none. *)
Record first_clear (bs : list Z) (lo hi r : Z) : Prop := {
  fc_range : lo <= r <= hi;
  fc_before : forall n, lo <= n < r -> bitat bs n = true;
  fc_at : r < hi -> bitat bs r = false;
}.

Lemma first_clear_unique bs lo hi r r' :
  first_clear bs lo hi r -> first_clear bs lo hi r' -> r = r'.
Proof.
  intros [R B A] [R' B' A']. destruct (Z.lt_trichotomy r r') as [H|[H|H]]; [|done|].
  - rewrite B' in A by lia. specialize (A ltac:(lia)). done.
  - rewrite B in A' by lia. specialize (A' ltac:(lia)). done.
Qed.

Lemma scan_clear_first bs lo k : first_clear bs lo (lo + Z.of_nat k) (scan_clear bs lo k).
Proof.
  revert lo. induction k as [|k IH]; intros lo; cbn [scan_clear].
  - split; intros; lia.
  - destruct (bitat bs lo) eqn:E; [|split; [lia| |done]; intros; lia].
    destruct (IH (lo + 1)) as [R B A]. split; [lia| |].
    + intros n Hn. destruct (decide (n = lo)) as [->|]; [done|]. apply B; lia.
    + intros. apply A. lia.
Qed.

(** Extending a fully set prefix. *)
Lemma first_clear_skip bs lo mid hi r :
  lo <= mid -> (forall n, lo <= n < mid -> bitat bs n = true) ->
  first_clear bs mid hi r -> first_clear bs lo hi r.
Proof.
  intros Hm Hset [R B A]. split; [lia| |done].
  intros n Hn. destruct (decide (n < mid)); [apply Hset|apply B]; lia.
Qed.

Lemma ffz_ok w : 0 <= w < 2 ^ 64 -> w <> ones64 ->
  exists z, ffz w = Some z /\ 0 <= z < 64 /\ Z.testbit w z = false /\
    forall i, 0 <= i < z -> Z.testbit w i = true.
Proof.
  intros Hw Hne. unfold ffz, bsf.
  pose proof (bsf_from_spec 64 0 (u64 (Z.lnot w))) as S.
  destruct (bsf_from 64 0 (u64 (Z.lnot w))) as [z|].
  - destruct S as (R & T & B). exists z. split; [done|]. split; [lia|]. split.
    + rewrite u64_lnot_testbit in T by lia. by apply negb_true_iff in T.
    + intros i Hi. specialize (B i ltac:(lia)). rewrite u64_lnot_testbit in B by lia.
      by apply negb_false_iff in B.
  - destruct Hne. apply ones64_all; [done|]. intros i Hi.
    specialize (S i ltac:(lia)). rewrite u64_lnot_testbit in S by lia.
    by apply negb_false_iff in S.
Qed.

(** The last, partial word: the bits from [size] up are forced to one. *)
Lemma partial_word_testbit w size i :
  0 <= size -> 0 <= i < 64 ->
  Z.testbit (u64 (Z.lor w (u64 (Z.shiftl ones64 size)))) i =
    (Z.testbit w i || (size <=? i)).
Proof.
  intros Hs Hi. unfold uintw. rewrite Z.mod_pow2_bits_low by lia.
  rewrite Z.lor_spec, Z.mod_pow2_bits_low, Z.shiftl_spec by lia. f_equal.
  change ones64 with (Z.ones 64). destruct (Z.leb_spec size i).
  - apply Z.ones_spec_low. lia.
  - apply Z.testbit_neg_r. lia.
Qed.

(** [w] shows the bits of word [p], those from [size] up read as ones. *)
Definition shows_word (bs : list Z) (p size w : Z) : Prop :=
  forall i, 0 <= i < 64 -> Z.testbit w i = (bitat bs (64 * p + i) || (size <=? i)).

Lemma shows_word_zero bs p size w z :
  shows_word bs p size w -> 0 <= z < 64 -> Z.testbit w z = false ->
  (forall i, 0 <= i < z -> Z.testbit w i = true) ->
  first_clear bs (64 * p) (64 * p + size) (64 * p + z).
Proof.
  intros S Hz T0 T1. rewrite S in T0 by done. apply orb_false_iff in T0 as [T0 Tle].
  apply Z.leb_gt in Tle. split; [lia| |done]. intros n Hn.
  specialize (T1 (n - 64 * p) ltac:(lia)). rewrite S in T1 by lia.
  replace (64 * p + (n - 64 * p)) with n in T1 by lia.
  destruct (Z.leb_spec size (n - 64 * p)); [lia|]. by rewrite orb_false_r in T1.
Qed.

Lemma shows_word_ones bs p size w :
  shows_word bs p size w -> 0 <= w < 2 ^ 64 -> w = ones64 ->
  forall n, 64 * p <= n < 64 * p + Z.min 64 size -> bitat bs n = true.
Proof.
  intros S Hw E n Hn. rewrite ones64_all in E by done. specialize (E (n - 64 * p) ltac:(lia)).
  rewrite S in E by lia. replace (64 * p + (n - 64 * p)) with n in E by lia.
  destruct (Z.leb_spec size (n - 64 * p)); [lia|]. by rewrite orb_false_r in E.
Qed.

Lemma ffzb_partial bs p size w result :
  0 <= w < 2 ^ 64 -> 0 <= size < 64 ->
  (forall i, 0 <= i < 64 -> Z.testbit w i = bitat bs (64 * p + i)) ->
  let tmp := u64 (Z.lor w (u64 (Z.shiftl ones64 size))) in
  exists z, (if tmp =? ones64 then Some (result + size)
             else z ← ffz tmp; Some (result + z)) = Some (result + z) /\
    first_clear bs (64 * p) (64 * p + size) (64 * p + z).
Proof.
  intros Hw Hs Tw tmp.
  assert (0 <= tmp < 2 ^ 64) as Htmp by (apply uintw_bound; lia).
  assert (shows_word bs p size tmp) as S.
  { intros i Hi. unfold tmp. rewrite partial_word_testbit, Tw by lia. done. }
  destruct (Z.eqb_spec tmp ones64) as [E1|N1].
  - exists size. split; [done|]. split; [lia| |lia].
    intros n Hn. apply (shows_word_ones bs p size tmp S Htmp E1). lia.
  - destruct (ffz_ok tmp Htmp N1) as (z & Hz & Rz & T0 & T1).
    exists z. rewrite Hz. split; [done|]. by apply (shows_word_zero bs p size tmp).
Qed.

Lemma ffzb_loop_ok fuel bs p size result :
  wf_bytes bs -> (64 | nbits bs) -> 0 <= p -> 0 <= size < 2 ^ 64 ->
  64 * p + size <= nbits bs -> size / 64 < Z.of_nat fuel ->
  exists z, ffzb_loop fuel bs p size result = Some (result + z) /\
    first_clear bs (64 * p) (64 * p + size) (64 * p + z).
Proof.
  intros W [q Hq]. revert p size result.
  induction fuel as [|fuel IH]; intros p size result Hp Hs Hb Hf.
  { pose proof (Z.div_pos size 64). lia. }
  cbn [ffzb_loop]. change 63 with (Z.ones 6). rewrite land_lnot_ones by lia.
  change (2 ^ 6) with 64.
  pose proof (Z.div_mod size 64 ltac:(lia)). pose proof (Z.mod_pos_bound size 64 ltac:(lia)).
  destruct (Z.eqb_spec size 0) as [->|N0].
  { exists 0. split; [f_equal; lia|]. split; intros; lia. }
  destruct (load64_ok bs p W Hp ltac:(unfold nbits in *; lia)) as (w & -> & Hw & Tw).
  cbn [mbind option_bind].
  destruct (Z.eqb_spec (size - size mod 64) 0) as [E|NE]; [by apply ffzb_partial; [|lia|]|].
  assert (shows_word bs p size w) as S.
  { intros i Hi. rewrite Tw by lia. destruct (Z.leb_spec size i); [lia|]. by rewrite orb_false_r. }
  destruct (decide (w = ones64)) as [E1|N1].
  - rewrite (proj2 (u64_lnot_zero w Hw)) by (by apply ones64_all).
    rewrite uintw_small by lia.
    assert ((size - 64) / 64 = size / 64 - 1) as Hdiv.
    { replace (size - 64) with (size + (-1) * 64) by lia. rewrite Z.div_add; lia. }
    destruct (IH (p + 1) (size - 64) (result + 64)) as (z & -> & F); [lia..|].
    exists (64 + z). split; [f_equal; lia|].
    apply (first_clear_skip _ _ (64 * (p + 1))); [lia| |].
    + intros n Hn. apply (shows_word_ones bs p size w S Hw E1). lia.
    + by replace (64 * p + size) with (64 * (p + 1) + (size - 64)) by lia;
        replace (64 * p + (64 + z)) with (64 * (p + 1) + z) by lia.
  - destruct (u64 (Z.lnot w) =? 0) eqn:E0.
    { destruct N1. apply ones64_all; [done|]. by apply u64_lnot_zero. }
    destruct (ffz_ok w Hw N1) as (z & -> & Hz & T0 & T1).
    exists z. split; [done|]. by apply (shows_word_zero bs p size w).
Qed.

Lemma find_first_zero_bit_at_ok bs p size :
  wf_bytes bs -> (64 | nbits bs) -> 0 <= p -> 0 <= size < 2 ^ 64 -> 64 * p + size <= nbits bs ->
  exists z, find_first_zero_bit_at bs p size = Some z /\
    first_clear bs (64 * p) (64 * p + size) (64 * p + z).
Proof.
  intros W D Hp Hs Hb. unfold find_first_zero_bit_at. rewrite uintw_small by done.
  destruct (ffzb_loop_ok (S (length bs)) bs p size 0) as (z & -> & F); [try done..| |by exists z].
  assert (size / 64 <= Z.of_nat (length bs)) by (apply Z.div_le_upper_bound; unfold nbits in *; lia).
  lia.
Qed.

Lemma find_first_zero_bit_first bs size :
  wf_bytes bs -> (64 | nbits bs) -> 0 <= size <= nbits bs -> nbits bs < 2 ^ 64 ->
  exists r, find_first_zero_bit bs size = Some r /\ first_clear bs 0 size r.
Proof.
  intros W D Hs Hn. unfold find_first_zero_bit.
  destruct (find_first_zero_bit_at_ok bs 0 size W D) as (z & -> & F); [lia..|].
  by exists z.
Qed.

Lemma split_offset offset :
  Z.shiftr offset 6 = offset / 64 /\ Z.land offset 63 = offset mod 64.
Proof.
  split; [by rewrite Z.shiftr_div_pow2|]. change 63 with (Z.ones 6). by rewrite Z.land_ones.
Qed.

(** The partial first word of [find_next_zero_bit]: the asm's [set] is the
    distance to the first clear bit of the word at or after [bit], and at least
    [64 - bit] when the rest of the word is full. *)
Lemma first_word_scan bs p bit w :
  0 <= w < 2 ^ 64 -> 0 < bit < 64 ->
  (forall i, 0 <= i < 64 -> Z.testbit w i = bitat bs (64 * p + i)) ->
  let set := default 64 (bsf (u64 (Z.lnot (Z.shiftr w bit)))) in
  if set <? 64 - bit
  then 0 <= set /\ bitat bs (64 * p + bit + set) = false /\
       forall n, 64 * p + bit <= n < 64 * p + bit + set -> bitat bs n = true
  else forall n, 64 * p + bit <= n < 64 * (p + 1) -> bitat bs n = true.
Proof.
  intros Hw Hbit Tw set.
  assert (forall i, 0 <= i < 64 - bit ->
            Z.testbit (u64 (Z.lnot (Z.shiftr w bit))) i = negb (bitat bs (64 * p + bit + i))) as T.
  { intros i Hi. rewrite u64_lnot_testbit, Z.shiftr_spec, Tw by lia. do 2 f_equal. lia. }
  unfold set, bsf. pose proof (bsf_from_spec 64 0 (u64 (Z.lnot (Z.shiftr w bit)))) as S.
  destruct (bsf_from 64 0 _) as [r|]; cbn [from_option id].
  - destruct S as (R & T1 & B). destruct (Z.ltb_spec r (64 - bit)).
    + split; [lia|]. rewrite T in T1 by lia. split; [by apply negb_true_iff in T1|].
      intros n Hn. specialize (B (n - 64 * p - bit) ltac:(lia)). rewrite T in B by lia.
      apply negb_false_iff in B. rewrite <- B. f_equal. lia.
    + intros n Hn. specialize (B (n - 64 * p - bit) ltac:(lia)). rewrite T in B by lia.
      apply negb_false_iff in B. rewrite <- B. f_equal. lia.
  - destruct (Z.ltb_spec 64 (64 - bit)); [lia|].
    intros n Hn. specialize (S (n - 64 * p - bit) ltac:(lia)). rewrite T in S by lia.
    apply negb_false_iff in S. rewrite <- S. f_equal. lia.
Qed.

Lemma find_next_zero_bit_first bs size offset :
  wf_bytes bs -> (64 | nbits bs) -> (64 | size) -> 0 <= offset <= size -> size <= nbits bs ->
  nbits bs < 2 ^ 64 ->
  exists r, find_next_zero_bit bs size offset = Some r /\ first_clear bs offset size r.
Proof.
  intros W D [q Hq] Ho Hs Hn. unfold find_next_zero_bit.
  destruct (split_offset offset) as [-> ->].
  pose proof (Z.div_mod offset 64 ltac:(lia)) as DM.
  pose proof (Z.mod_pos_bound offset 64 ltac:(lia)) as MB.
  set (p := offset / 64) in *. set (bit := offset mod 64) in *.
  destruct (Z.eqb_spec bit 0) as [E0|N0]; cbn [negb].
  - rewrite uintw_small by lia.
    destruct (find_first_zero_bit_at_ok bs p (size - 64 * p) W D) as (z & -> & F); [lia..|].
    cbn [mbind option_bind]. exists (offset + 0 + z). split; [done|].
    replace (64 * p + (size - 64 * p)) with size in F by lia.
    by replace offset with (64 * p) by lia; replace (64 * p + 0 + z) with (64 * p + z) by lia.
  - destruct (load64_ok bs p W ltac:(lia) ltac:(unfold nbits in *; lia)) as (w & -> & Hw & Tw).
    cbn [mbind option_bind]. pose proof (first_word_scan bs p bit w Hw ltac:(lia) Tw) as S.
    cbn zeta in S. set (set := default 64 _) in *. destruct (Z.ltb_spec set (64 - bit)).
    + destruct S as (Z0 & Hc & Hb). exists (set + offset). split; [done|].
      replace (64 * p + bit) with offset in Hc, Hb by lia.
      split; [lia| |intros _; by rewrite Z.add_comm]. intros n ?. apply Hb. lia.
    + rewrite uintw_small by lia.
      destruct (find_first_zero_bit_at_ok bs (p + 1) (size - 64 * (p + 1)) W D)
        as (z & -> & F); [lia..|].
      cbn [mbind option_bind]. exists (offset + (64 - bit) + z). split; [done|].
      apply (first_clear_skip _ _ (64 * (p + 1))); [lia| |].
      * intros n ?. apply S. lia.
      * by replace size with (64 * (p + 1) + (size - 64 * (p + 1))) by lia;
          replace (offset + (64 - bit) + z) with (64 * (p + 1) + z) by lia.
Qed.

(** [memscan] for a zero byte: the result is the first zero byte of the area. *)
Lemma memscan_go_ok l c size i :
  0 <= size <= Z.of_nat (length l) ->
  exists r, memscan_go l c size i = Some r /\ i <= r <= i + size /\
    (r < i + size -> l !! Z.to_nat (r - i) = Some c) /\
    (forall k, i <= k < r -> l !! Z.to_nat (k - i) <> Some c).
Proof.
  revert size i. induction l as [|b l IH]; intros size i Hs; cbn [memscan_go length] in *.
  - replace size with 0 by lia. cbn. exists i. split_and!; [done|lia|lia|lia|intros; lia].
  - destruct (Z.eqb_spec size 0) as [->|].
    { exists i. split_and!; [done|lia|lia|lia|intros; lia]. }
    destruct (Z.eqb_spec b c) as [->|Hne].
    { exists i. split_and!; [done|lia|lia| |intros; lia]. rewrite Z.sub_diag. done. }
    destruct (IH (size - 1) (i + 1)) as (r & -> & R & A & B); [lia|].
    exists r. split_and!; [done|lia|lia| |].
    + intros. replace (Z.to_nat (r - i)) with (S (Z.to_nat (r - (i + 1)))) by lia.
      apply A. lia.
    + intros k Hk. destruct (decide (k = i)) as [->|].
      * rewrite Z.sub_diag. simpl. congruence.
      * replace (Z.to_nat (k - i)) with (S (Z.to_nat (k - (i + 1)))) by lia. apply B. lia.
Qed.

Lemma memscan_ok bs p c size :
  0 <= p -> 0 <= size -> p + size <= Z.of_nat (length bs) ->
  exists r, memscan bs p c size = Some r /\ p <= r <= p + size /\
    (r < p + size -> bs !! Z.to_nat r = Some c).
Proof.
  intros Hp Hs Hl. unfold memscan. rewrite (proj2 (Z.ltb_ge p 0)) by lia.
  destruct (memscan_go_ok (drop (Z.to_nat p) bs) c size p) as (r & -> & R & A & _).
  { rewrite length_drop. lia. }
  exists r. split_and!; [done|lia|lia|]. intros Hlt. specialize (A Hlt).
  rewrite lookup_drop in A. rewrite <- A. f_equal. lia.
Qed.

(** All eight bits of a zero byte are clear. *)
Lemma bitat_zero_byte bs r i :
  0 <= r -> bs !! Z.to_nat r = Some 0 -> 8 * r <= i < 8 * r + 8 -> bitat bs i = false.
Proof.
  intros Hr Hb Hi. unfold bitat.
  replace (i / 8) with r; [by rewrite Hb, Z.testbit_0_l|].
  apply Z.div_unique with (i - 8 * r); lia.
Qed.

#[export] Hint Resolve uintw_bound : ext2.

(** ** Properties *)

(** [find_first_zero_bit], which reads the bitmap a 64-bit word at a time
    and masks the last partial word, returns what the bit-by-bit scan of the
    first [size] bits returns, and stays inside the block. *)
Theorem find_first_zero_bit_scan bs size :
  wf_bytes bs -> (64 | nbits bs) -> 0 <= size <= nbits bs -> nbits bs < 2 ^ 64 ->
  find_first_zero_bit bs size = Some (scan_clear bs 0 (Z.to_nat size)).
Proof.
  intros W D Hs Hn. destruct (find_first_zero_bit_first bs size W D Hs Hn) as (r & -> & F).
  f_equal. eapply first_clear_unique; [exact F|].
  pose proof (scan_clear_first bs 0 (Z.to_nat size)) as S.
  by rewrite Z.add_0_l, Z2Nat.id in S by lia.
Qed.

Definition bitmap_demo : list Z :=
  [255; 255; 255; 255; 255; 255; 255; 255; 255; 255; 127; 255; 255; 255; 255; 255].

Lemma find_first_zero_bit_scan_witness :
  find_first_zero_bit bitmap_demo 100 = Some (scan_clear bitmap_demo 0 (Z.to_nat 100)) /\
  scan_clear bitmap_demo 0 (Z.to_nat 100) = 87.
Proof.
  split; [|reflexivity]. apply find_first_zero_bit_scan.
  - unfold wf_bytes, bitmap_demo. repeat (constructor; [lia|]). constructor.
  - exists 2. reflexivity.
  - vm_compute. split; discriminate.
  - reflexivity.
Defined.

(** [find_next_zero_bit], called with a size that is a whole number of
    64-bit words, returns what the bit-by-bit scan from [offset] returns: the
    first clear bit at or after [offset], or [size]. *)
Theorem find_next_zero_bit_scan bs size offset :
  wf_bytes bs -> (64 | nbits bs) -> (64 | size) -> 0 <= offset <= size ->
  size <= nbits bs -> nbits bs < 2 ^ 64 ->
  find_next_zero_bit bs size offset = Some (scan_clear bs offset (Z.to_nat (size - offset))).
Proof.
  intros W D D' Ho Hs Hn.
  destruct (find_next_zero_bit_first bs size offset W D D' Ho Hs Hn) as (r & -> & F).
  f_equal. eapply first_clear_unique; [exact F|].
  pose proof (scan_clear_first bs offset (Z.to_nat (size - offset))) as S.
  rewrite Z2Nat.id in S by lia. by replace (offset + (size - offset)) with size in S by lia.
Qed.

Lemma find_next_zero_bit_scan_witness :
  find_next_zero_bit bitmap_demo 128 70 = Some (scan_clear bitmap_demo 70 (Z.to_nat (128 - 70))) /\
  scan_clear bitmap_demo 70 (Z.to_nat (128 - 70)) = 87.
Proof.
  split; [|reflexivity]. apply find_next_zero_bit_scan.
  - unfold wf_bytes, bitmap_demo. repeat (constructor; [lia|]). constructor.
  - exists 2. reflexivity.
  - exists 2. reflexivity.
  - lia.
  - vm_compute. discriminate.
  - reflexivity.
Defined.

(** Setting a clear bit and clearing it again restores the bitmap block
    byte for byte, and each call reports the bit's previous value. *)
Theorem set_clear_roundtrip bs nr :
  wf_bytes bs -> 0 <= nr < nbits bs -> bitat bs nr = false ->
  exists bs', set_bit nr bs = Some (false, bs') /\ clear_bit nr bs' = Some (true, bs).
Proof.
  intros W Hnr Hc. destruct (byte_of_ok nr bs Hnr) as (b & Hb & Hl).
  assert (0 <= nr mod 8 < 8) by (apply Z.mod_pos_bound; lia).
  rewrite (bitat_byte bs nr b) in Hc by (done || lia).
  pose proof (lookup_lt_Some _ _ _ Hl) as Hlt.
  unfold set_bit, clear_bit. rewrite Hb. cbn [mbind option_bind]. rewrite Hc.
  eexists. split; [done|]. unfold byte_of. rewrite (proj2 (Z.ltb_ge nr 0)) by lia.
  rewrite list_lookup_insert_eq by done. cbn [mbind option_bind].
  rewrite Z.lor_spec, testbit_one_shift, bool_decide_eq_true_2, orb_true_r by (done || lia).
  rewrite list_insert_insert_eq. do 2 f_equal. rewrite list_insert_id; [done|]. rewrite Hl. f_equal.
  apply Z.bits_inj'. intros i Hi.
  rewrite Z.ldiff_spec, Z.lor_spec, testbit_one_shift by lia.
  case_bool_decide; subst; [by rewrite Hc|]. by rewrite orb_false_r, andb_true_r.
Qed.

Lemma set_clear_roundtrip_witness :
  exists bs', set_bit 87 bitmap_demo = Some (false, bs') /\
              clear_bit 87 bs' = Some (true, bitmap_demo).
Proof.
  apply set_clear_roundtrip.
  - unfold wf_bytes, bitmap_demo. repeat (constructor; [lia|]). constructor.
  - vm_compute. split; [discriminate|reflexivity].
  - reflexivity.
Defined.

(** The word loop with a size that goes beyond the block: it stops at the first clear bit
    of the block, or leaves the block. *)
Lemma ffzb_overrun fuel bs p size result :
  wf_bytes bs -> (64 | nbits bs) -> 0 <= p -> 64 * p <= nbits bs -> nbits bs - 64 * p + 64 <= size < 2 ^ 64 ->
  (nbits bs - 64 * p) / 64 < Z.of_nat fuel ->
  exists z, first_clear bs (64 * p) (nbits bs) (64 * p + z) /\
    ffzb_loop fuel bs p size result = if 64 * p + z <? nbits bs then Some (result + z) else None.
Proof.
  intros W [q Hq]. revert p size result. induction fuel as [|fuel IH]; intros p size result Hp Hb Hs Hf.
  { pose proof (Z.div_pos (nbits bs - 64 * p) 64). lia. }
  cbn [ffzb_loop]. change 63 with (Z.ones 6). rewrite land_lnot_ones by lia. change (2 ^ 6) with 64.
  pose proof (Z.div_mod size 64 ltac:(lia)). pose proof (Z.mod_pos_bound size 64 ltac:(lia)).
  destruct (Z.eqb_spec (size - size mod 64) 0) as [|_]; [lia|].
  destruct (decide (64 * p = nbits bs)) as [Ep|Np].
  { exists 0. split; [split; intros; lia|]. rewrite (proj2 (Z.ltb_ge _ _)) by lia. unfold load64.
    rewrite (proj2 (Z.leb_gt (8 * p + 8) _)) by (unfold nbits in *; lia). by rewrite andb_false_r. }
  destruct (load64_ok bs p W Hp ltac:(unfold nbits in *; lia)) as (w & -> & Hw & Tw). cbn [mbind option_bind].
  assert (shows_word bs p 64 w) as S.
  { intros i Hi. rewrite Tw by lia. destruct (Z.leb_spec 64 i); [lia|]. by rewrite orb_false_r. }
  destruct (decide (w = ones64)) as [E1|N1].
  - rewrite (proj2 (u64_lnot_zero w Hw)) by (by apply ones64_all). rewrite uintw_small by lia.
    assert ((nbits bs - 64 * (p + 1)) / 64 = (nbits bs - 64 * p) / 64 - 1) as Hdiv.
    { replace (nbits bs - 64 * (p + 1)) with (nbits bs - 64 * p + (-1) * 64) by lia. rewrite Z.div_add; lia. }
    destruct (IH (p + 1) (size - 64) (result + 64)) as (z & F & ->); [lia..|].
    exists (64 + z). replace (64 * p + (64 + z)) with (64 * (p + 1) + z) by lia.
    replace (result + 64 + z) with (result + (64 + z)) by lia. split; [|done].
    apply (first_clear_skip _ _ (64 * (p + 1))); [lia| |done].
    intros n Hn. apply (shows_word_ones bs p 64 w S Hw E1). lia.
  - destruct (u64 (Z.lnot w) =? 0) eqn:E0.
    { destruct N1. apply ones64_all; [done|]. by apply u64_lnot_zero. }
    destruct (ffz_ok w Hw N1) as (z & -> & Hz & T0 & T1). exists z. cbn [mbind option_bind].
    destruct (shows_word_zero bs p 64 w z S Hz T0 T1) as [F1 F2 F3].
    rewrite (proj2 (Z.ltb_lt _ _)) by lia. split; [|done]. split; [lia|done|]. intros _. apply F3. lia.
Qed.

(** A size that is not a multiple of 64 breaks [find_next_zero_bit]: when the search
    starts in the last, partial word of the bitmap and the rest of that word is full, the
    size that is left is negative and becomes a huge [unsigned long].  The search then
    gives the first clear bit of the whole block, beyond the size that was asked for, and
    if there is none it reads behind the end of the block. *)
Theorem find_next_zero_bit_overrun bs size offset :
  wf_bytes bs -> (64 | nbits bs) -> 0 <= offset < size -> size <= nbits bs -> nbits bs < 2 ^ 63 ->
  size mod 64 <> 0 -> offset mod 64 <> 0 -> offset / 64 = size / 64 ->
  (forall n, offset <= n < 64 * (size / 64 + 1) -> bitat bs n = true) ->
  exists r, first_clear bs offset (nbits bs) r /\ size < r /\
    find_next_zero_bit bs size offset = if r <? nbits bs then Some r else None.
Proof.
  intros W D Ho Hs Hn Hm Hb Hp Hfull. pose proof D as [q Hq]. unfold find_next_zero_bit. destruct (split_offset offset) as [-> ->].
  rewrite Hp in *. pose proof (Z.div_mod offset 64 ltac:(lia)) as DM. pose proof (Z.mod_pos_bound offset 64 ltac:(lia)) as MB.
  pose proof (Z.div_mod size 64 ltac:(lia)) as DS. pose proof (Z.mod_pos_bound size 64 ltac:(lia)) as MS. rewrite Hp in DM.
  set (p := size / 64) in *. set (bit := offset mod 64) in *. rewrite (proj2 (Z.eqb_neq bit 0)) by done. cbn [negb].
  assert (64 * (p + 1) <= nbits bs) as Hpn by lia.
  destruct (load64_ok bs p W ltac:(lia) ltac:(unfold nbits in *; lia)) as (w & -> & Hw & Tw). cbn [mbind option_bind].
  pose proof (first_word_scan bs p bit w Hw ltac:(lia) Tw) as S. cbn zeta in S. set (set := default 64 _) in *.
  destruct (Z.ltb_spec set (64 - bit)).
  { destruct S as (Z0 & Hc & _). rewrite Hfull in Hc by lia. done. }
  assert (u64 (size - 64 * (p + 1)) = 2 ^ 64 + (size - 64 * (p + 1))) as ->.
  { unfold uintw. symmetry. apply (Z.mod_unique _ _ (-1)); lia. }
  unfold find_first_zero_bit_at. rewrite uintw_small by lia.
  assert ((nbits bs - 64 * (p + 1)) / 64 < Z.of_nat (Datatypes.S (length bs))) as Hf.
  { assert ((nbits bs - 64 * (p + 1)) / 64 <= Z.of_nat (length bs)) by (apply Z.div_le_upper_bound; unfold nbits in *; lia). lia. }
  destruct (ffzb_overrun _ bs (p + 1) (2 ^ 64 + (size - 64 * (p + 1))) 0 W D ltac:(lia) ltac:(lia) ltac:(lia) Hf) as (z & F & ->).
  pose proof F as [F1 _ _]. exists (64 * (p + 1) + z). split; [|split; [lia|]].
  - apply (first_clear_skip _ _ (64 * (p + 1))); [lia| |done]. intros n Hn'. apply Hfull. lia.
  - destruct (_ <? _); [|done]. cbn [mbind option_bind]. f_equal. lia.
Qed.

Lemma find_next_zero_bit_overrun_witness :
  exists r, first_clear (replicate 16 255) 71 128 r /\ 72 < r /\ find_next_zero_bit (replicate 16 255) 72 71 = if r <? 128 then Some r else None.
Proof.
  apply (find_next_zero_bit_overrun (replicate 16 255) 72 71).
  - apply Forall_replicate. lia.
  - by exists 2.
  - lia.
  - by vm_compute.
  - by vm_compute.
  - done.
  - done.
  - done.
  - intros n Hn. change (64 * (72 / 64 + 1)) with 128 in Hn.
    unfold bitat. assert (Z.to_nat (n / 8) < 16)%nat as Hlt by (assert (n / 8 < 16) by (apply Z.div_lt_upper_bound; lia); lia).
    rewrite lookup_replicate_2 by done. change 255 with (Z.ones 8). apply Z.ones_spec_low, Z.mod_pos_bound. lia.
Defined.
