(* ===== verification/Fs.v ===== *)
(** * The mounted file system: superblock, group descriptors, buffers

    State shared by the block allocator, the inode allocator and the file layer:
    [struct m_ext2fs] (src/src/gnu/ext2fs/ext2_fs_sb.h), the on-disk superblock
    [struct ext2fs] and group descriptors [struct ext2_group_desc]
    (src/src/gnu/ext2fs/ext2_fs.h), the super lock (fs.h) and the buffer cache
    seen through the device.

    Integers are in CPU order: the target is little-endian, where [le16_to_cpu]
    and friends (src/src/ext2_littleendian.h) are casts.

    The buffer cache is the map [dev] from device addresses to block contents: a
    routine that changes a buffer in place changes [dev]; an address without
    contents is one whose read fails.  [bdwrite]/[bwrite] of a buffer and
    [mark_buffer_dirty] of a descriptor block are recorded in [written] and
    [s_gd_dirty], so that "the change reaches the disk" can be stated. *)

From S2P Require Import Prelude Bitops.

(** ** Data *)

Record group_desc := mkGd {
  bg_block_bitmap : Z;        (* __u32 *)
  bg_inode_bitmap : Z;        (* __u32 *)
  bg_inode_table : Z;         (* __u32 *)
  bg_free_blocks_count : Z;   (* __u16 *)
  bg_free_inodes_count : Z;   (* __u16 *)
  bg_used_dirs_count : Z;     (* __u16 *)
}.

(** The superblock fields the allocators read and write. *)
Record ext2fs := mkEs {
  s_inodes_count : Z;
  s_blocks_count : Z;
  s_r_blocks_count : Z;
  s_free_blocks_count : Z;
  s_free_inodes_count : Z;
  s_first_data_block : Z;
  s_prealloc_blocks : Z;      (* __u8 *)
}.

(** The in-core values that are computed at mount time and do not change. *)
Record geometry := mkGeo {
  e2fs_fsize : Z;
  e2fs_bpg : Z;
  e2fs_ipg : Z;
  e2fs_itpg : Z;
  s_groups_count : Z;
  s_blocksize : Z;
  s_d_blocksize : Z;
  s_fsbtodb : Z;
}.

(** The arrays [s_{block,inode}_bitmap{,_number}] and [s_loaded_..._bitmaps]; a
    buffer pointer is [None] for NULL, else the device address of the buffer. *)
Record bitmap_cache := mkCache {
  c_loaded : Z;
  c_number : list Z;
  c_buf : list (option Z);
}.

Record m_ext2fs := mkFs {
  geo : geometry;
  s_es : ext2fs;
  s_group_desc : list (list group_desc);
  s_gd_dirty : gset Z;
  s_block_cache : bitmap_cache;
  s_inode_cache : bitmap_cache;
  s_dirt : bool;
  s_dircount : Z;
  s_lock : bool;
  dev : gmap Z (list Z);
  written : gset Z;
}.

Definition EXT2_MAX_GROUP_LOADED : Z := 8.
Definition EXT2_FIRST_INO : Z := 11.
Definition EXT2_DEFAULT_PREALLOC_BLOCKS : Z := 8.

(** [EXT2_DESC_PER_BLOCK]: the descriptor is 32 bytes long. *)
Definition EXT2_DESC_PER_BLOCK (g : geometry) : Z := s_blocksize g / 32.

(** [fsbtodb]: a shift of the [int] block number. *)
Definition fsbtodb (g : geometry) (b : Z) : Z := i32 (Z.shiftl b (s_fsbtodb g)).

(** *** Field updates *)

Definition set_es (f : ext2fs -> ext2fs) (s : m_ext2fs) : m_ext2fs :=
  mkFs (geo s) (f (s_es s)) (s_group_desc s) (s_gd_dirty s) (s_block_cache s)
    (s_inode_cache s) (s_dirt s) (s_dircount s) (s_lock s) (dev s) (written s).
Definition set_group_desc (f : list (list group_desc) -> list (list group_desc))
    (s : m_ext2fs) : m_ext2fs :=
  mkFs (geo s) (s_es s) (f (s_group_desc s)) (s_gd_dirty s) (s_block_cache s)
    (s_inode_cache s) (s_dirt s) (s_dircount s) (s_lock s) (dev s) (written s).
Definition set_gd_dirty (i : Z) (s : m_ext2fs) : m_ext2fs :=
  mkFs (geo s) (s_es s) (s_group_desc s) ({[i]} ∪ s_gd_dirty s) (s_block_cache s)
    (s_inode_cache s) (s_dirt s) (s_dircount s) (s_lock s) (dev s) (written s).
Definition set_block_cache (c : bitmap_cache) (s : m_ext2fs) : m_ext2fs :=
  mkFs (geo s) (s_es s) (s_group_desc s) (s_gd_dirty s) c
    (s_inode_cache s) (s_dirt s) (s_dircount s) (s_lock s) (dev s) (written s).
Definition set_inode_cache (c : bitmap_cache) (s : m_ext2fs) : m_ext2fs :=
  mkFs (geo s) (s_es s) (s_group_desc s) (s_gd_dirty s) (s_block_cache s)
    c (s_dirt s) (s_dircount s) (s_lock s) (dev s) (written s).
Definition set_dirt (s : m_ext2fs) : m_ext2fs :=
  mkFs (geo s) (s_es s) (s_group_desc s) (s_gd_dirty s) (s_block_cache s)
    (s_inode_cache s) true (s_dircount s) (s_lock s) (dev s) (written s).
Definition set_dircount (f : Z -> Z) (s : m_ext2fs) : m_ext2fs :=
  mkFs (geo s) (s_es s) (s_group_desc s) (s_gd_dirty s) (s_block_cache s)
    (s_inode_cache s) (s_dirt s) (f (s_dircount s)) (s_lock s) (dev s) (written s).
Definition set_lock (l : bool) (s : m_ext2fs) : m_ext2fs :=
  mkFs (geo s) (s_es s) (s_group_desc s) (s_gd_dirty s) (s_block_cache s)
    (s_inode_cache s) (s_dirt s) (s_dircount s) l (dev s) (written s).
Definition set_dev (a : Z) (data : list Z) (s : m_ext2fs) : m_ext2fs :=
  mkFs (geo s) (s_es s) (s_group_desc s) (s_gd_dirty s) (s_block_cache s)
    (s_inode_cache s) (s_dirt s) (s_dircount s) (s_lock s) (<[a := data]> (dev s)) (written s).
Definition set_written (a : Z) (s : m_ext2fs) : m_ext2fs :=
  mkFs (geo s) (s_es s) (s_group_desc s) (s_gd_dirty s) (s_block_cache s)
    (s_inode_cache s) (s_dirt s) (s_dircount s) (s_lock s) (dev s) ({[a]} ∪ written s).

Definition es_set_free_blocks (n : Z) (es : ext2fs) : ext2fs :=
  mkEs (s_inodes_count es) (s_blocks_count es) (s_r_blocks_count es) n
    (s_free_inodes_count es) (s_first_data_block es) (s_prealloc_blocks es).
Definition es_set_free_inodes (n : Z) (es : ext2fs) : ext2fs :=
  mkEs (s_inodes_count es) (s_blocks_count es) (s_r_blocks_count es)
    (s_free_blocks_count es) n (s_first_data_block es) (s_prealloc_blocks es).
Definition gd_set_free_blocks (n : Z) (gd : group_desc) : group_desc :=
  mkGd (bg_block_bitmap gd) (bg_inode_bitmap gd) (bg_inode_table gd) n
    (bg_free_inodes_count gd) (bg_used_dirs_count gd).
Definition gd_set_free_inodes (n : Z) (gd : group_desc) : group_desc :=
  mkGd (bg_block_bitmap gd) (bg_inode_bitmap gd) (bg_inode_table gd)
    (bg_free_blocks_count gd) n (bg_used_dirs_count gd).
Definition gd_set_used_dirs (n : Z) (gd : group_desc) : group_desc :=
  mkGd (bg_block_bitmap gd) (bg_inode_bitmap gd) (bg_inode_table gd)
    (bg_free_blocks_count gd) (bg_free_inodes_count gd) n.

(** ** Locks, buffers, descriptors *)

Abbreviation FS := (kern m_ext2fs).

(** [lock_super] / [unlock_super]: the super mutex is not recursive. *)
Definition lock_super : FS unit :=
  l ← gets s_lock;
  if l : bool then panic "lock_super: already locked" else modify (set_lock true).
Definition unlock_super : FS unit :=
  l ← gets s_lock;
  if l : bool then modify (set_lock false) else panic "unlock_super: not locked".

(** [buf_meta_bread] of file system block [lbn]: the buffer, or [None] when the
    device reports an error. *)
Definition buf_meta_bread (lbn : Z) : FS (option Z) :=
  s ← gets id;
  let a := fsbtodb (geo s) lbn in
  mret (match dev s !! a with Some _ => Some a | None => None end).

(** [buf_dataptr]: the contents of a buffer that was read. *)
Definition buf_data (a : Z) : FS (list Z) :=
  d ← gets dev; access (d !! a).
Definition buf_store (a : Z) (data : list Z) : FS unit := modify (set_dev a data).
Definition buf_write (a : Z) : FS unit := modify (set_written a).

(** A pointer to a descriptor: descriptor block and index in it. *)
Definition gdptr : Type := Z * Z.

Definition gd_lookup (s : m_ext2fs) (p : gdptr) : option group_desc :=
  blk ← s_group_desc s !! Z.to_nat p.1; blk !! Z.to_nat p.2.

Definition gd_load (p : gdptr) : FS group_desc := s ← gets id; access (gd_lookup s p).

Definition gd_update (p : gdptr) (f : group_desc -> group_desc) (s : m_ext2fs) : m_ext2fs :=
  set_group_desc (alter (alter f (Z.to_nat p.2)) (Z.to_nat p.1)) s.
Definition gd_store (p : gdptr) (f : group_desc -> group_desc) : FS unit := modify (gd_update p f).

Definition mark_buffer_dirty (bp : Z) : FS unit := modify (set_gd_dirty bp).

(** [get_group_desc]: the descriptor of a group and the buffer that holds it.
    Buffer and pointer are given by the index of the descriptor block. *)
Definition get_group_desc (block_group : Z) : FS (gdptr * Z) :=
  s ← gets id;
  let bg := u32 block_group in
  if s_groups_count (geo s) <=? bg
  then panic "ext2_group_desc: block_group >= groups_count"
  else
    let group_desc := bg / EXT2_DESC_PER_BLOCK (geo s) in
    let desc := bg mod EXT2_DESC_PER_BLOCK (geo s) in
    match s_group_desc s !! Z.to_nat group_desc with
    | None => panic "ext2_group_desc: Group descriptor not loaded"
    | Some _ => mret ((group_desc, desc), group_desc)
    end.

(** ** Block groups and their bitmaps *)

(** Where the descriptor of group [g] lives. *)
Definition gdp_of (geo : geometry) (g : Z) : gdptr :=
  (g / EXT2_DESC_PER_BLOCK geo, g mod EXT2_DESC_PER_BLOCK geo).

Definition gd_of (s : m_ext2fs) (g : Z) : option group_desc := gd_lookup s (gdp_of (geo s) g).

(** The allocators work on two kinds of bitmaps, which share one invariant. *)
Inductive bm_kind := BlockMap | InodeMap.

#[export] Instance bm_kind_eq_dec : EqDecision bm_kind.
Proof. solve_decision. Defined.

Definition bm_block (k : bm_kind) : group_desc -> Z :=
  match k with BlockMap => bg_block_bitmap | InodeMap => bg_inode_bitmap end.
Definition bm_free (k : bm_kind) : group_desc -> Z :=
  match k with BlockMap => bg_free_blocks_count | InodeMap => bg_free_inodes_count end.
Definition bm_size (k : bm_kind) : geometry -> Z :=
  match k with BlockMap => e2fs_bpg | InodeMap => e2fs_ipg end.
Definition es_free (k : bm_kind) : ext2fs -> Z :=
  match k with BlockMap => s_free_blocks_count | InodeMap => s_free_inodes_count end.
Definition es_set_free (k : bm_kind) : Z -> ext2fs -> ext2fs :=
  match k with BlockMap => es_set_free_blocks | InodeMap => es_set_free_inodes end.

Definition free_of (s : m_ext2fs) (k : bm_kind) (g : Z) : Z :=
  match gd_of s g with Some gd => bm_free k gd | None => 0 end.

Definition groups (s : m_ext2fs) : list Z := seqZ 0 (s_groups_count (geo s)).

Definition total_free (s : m_ext2fs) (k : bm_kind) : Z := sumZ (free_of s k <$> groups s).

(** Block number of bit [n] of group [g]. *)
Definition blockno (s : m_ext2fs) (g n : Z) : Z :=
  n + g * e2fs_bpg (geo s) + s_first_data_block (s_es s).

(** Bits that are never free: blocks past the end of the device, block 0, the
    group's own bitmaps and inode table; the reserved inodes. *)
Definition reserved (s : m_ext2fs) (k : bm_kind) (g : Z) (gd : group_desc) (n : Z) : Prop :=
  match k with
  | BlockMap =>
      let b := blockno s g n in
      s_blocks_count (s_es s) <= b \/ b = 0 \/ b = bg_block_bitmap gd \/ b = bg_inode_bitmap gd \/
      bg_inode_table gd <= b < bg_inode_table gd + e2fs_itpg (geo s)
  | InodeMap => n + g * e2fs_ipg (geo s) + 1 < EXT2_FIRST_INO
  end.

(** ** Well-formed file systems *)

Record wf_geo (g : geometry) (es : ext2fs) : Prop := {
  wg_groups : 0 < s_groups_count g < 2 ^ 31;
  wg_bsize : 32 <= s_blocksize g <= 2 ^ 16;
  wg_bsize8 : (8 | s_blocksize g);
  wg_size : forall k, 0 < bm_size k g < 2 ^ 16 /\ bm_size k g <= 8 * s_blocksize g;
  wg_bpg64 : (64 | e2fs_bpg g);
  wg_itpg : 0 < e2fs_itpg g < 2 ^ 32;
  wg_first : 0 <= s_first_data_block es;
  wg_last : s_first_data_block es + (s_groups_count g - 1) * e2fs_bpg g < s_blocks_count es
            <= s_first_data_block es + s_groups_count g * e2fs_bpg g;
  wg_inodes : s_inodes_count es = s_groups_count g * e2fs_ipg g;
  wg_inodes31 : s_inodes_count es < 2 ^ 31 - 1;
  wg_shift : 0 <= s_fsbtodb g;
  wg_dev : s_blocks_count es * 2 ^ s_fsbtodb g < 2 ^ 31;
  wg_prealloc : 0 <= s_prealloc_blocks es < 256;
}.

Record wf_bitmap (s : m_ext2fs) (k : bm_kind) (g : Z) (gd : group_desc) (bm : list Z) : Prop := {
  wb_block : 0 <= bm_block k gd < s_blocks_count (s_es s);
  wb_dev : dev s !! fsbtodb (geo s) (bm_block k gd) = Some bm;
  wb_bytes : wf_bytes bm;
  wb_len : Z.of_nat (length bm) = s_blocksize (geo s);
  wb_count : bm_free k gd = count_clear (bitat bm) (Z.to_nat (bm_size k (geo s)));
  wb_reserved : forall n, 0 <= n < bm_size k (geo s) -> reserved s k g gd n -> bitat bm n = true;
}.

Definition cache_empty (c : bitmap_cache) : Prop :=
  c_loaded c = 0 /\ c_buf c = replicate 8 None.

Definition is_group (s : m_ext2fs) (g : Z) : Prop := 0 <= g < s_groups_count (geo s).

Record wf (s : m_ext2fs) : Prop := {
  wf_geometry : wf_geo (geo s) (s_es s);
  wf_groups : forall g, is_group s g ->
    exists gd, gd_of s g = Some gd /\ 0 <= bg_inode_table gd < 2 ^ 32 /\
      0 <= bg_used_dirs_count gd < 2 ^ 16 /\
      forall k, exists bm, wf_bitmap s k g gd bm;
  wf_distinct : forall k k' g g' gd gd',
    is_group s g -> is_group s g' -> gd_of s g = Some gd -> gd_of s g' = Some gd' ->
    bm_block k gd = bm_block k' gd' -> k = k' /\ g = g';
  wf_total : forall k, es_free k (s_es s) = total_free s k;
  wf_caches : cache_empty (s_block_cache s) /\ cache_empty (s_inode_cache s);
}.

(** *** Consequences of the geometry *)

Lemma fsbtodb_small g es b :
  wf_geo g es -> 0 <= b < s_blocks_count es -> fsbtodb g b = b * 2 ^ s_fsbtodb g.
Proof.
  intros W Hb. destruct W. unfold fsbtodb. rewrite Z.shiftl_mul_pow2 by done.
  assert (0 < 2 ^ s_fsbtodb g) by (apply Z.pow_pos_nonneg; lia).
  apply sintw_small; [lia|]. change (2 ^ (32 - 1)) with (2 ^ 31). nia.
Qed.

Lemma fsbtodb_inj g es a b :
  wf_geo g es -> 0 <= a < s_blocks_count es -> 0 <= b < s_blocks_count es ->
  fsbtodb g a = fsbtodb g b -> a = b.
Proof.
  intros W Ha Hb. rewrite !(fsbtodb_small g es) by done.
  assert (0 < 2 ^ s_fsbtodb g) by (apply Z.pow_pos_nonneg; destruct W; lia). nia.
Qed.

Lemma blocks_count_small g es : wf_geo g es -> 0 < s_blocks_count es < 2 ^ 31.
Proof.
  intros W. pose proof (wg_shift _ _ W). pose proof (wg_dev _ _ W).
  pose proof (wg_last _ _ W). pose proof (wg_first _ _ W). pose proof (wg_groups _ _ W).
  destruct (wg_size _ _ W BlockMap) as [Hs _]. cbn [bm_size] in Hs.
  assert (0 < 2 ^ s_fsbtodb g) by (apply Z.pow_pos_nonneg; lia). nia.
Qed.

Lemma dpb_pos g es : wf_geo g es -> 0 < EXT2_DESC_PER_BLOCK g.
Proof. intros []. unfold EXT2_DESC_PER_BLOCK. apply Z.div_str_pos. lia. Qed.

Lemma wf_nbits s k g gd bm :
  wf s -> wf_bitmap s k g gd bm ->
  nbits bm = 8 * s_blocksize (geo s) /\ (64 | nbits bm) /\ bm_size k (geo s) <= nbits bm < 2 ^ 64.
Proof.
  intros W B. pose proof (wf_geometry _ W) as G. unfold nbits. rewrite (wb_len _ _ _ _ _ B).
  pose proof (wg_size _ _ G k). pose proof (wg_bsize _ _ G). destruct (wg_bsize8 _ _ G) as [q Hq].
  split; [done|]. split; [exists q; lia|lia].
Qed.

(** *** Descriptor updates *)

Lemma gdp_of_inj geo es g g' :
  wf_geo geo es -> gdp_of geo g = gdp_of geo g' -> g = g'.
Proof.
  intros W E. pose proof (dpb_pos _ _ W). unfold gdp_of in E. injection E as E1 E2.
  pose proof (Z.div_mod g (EXT2_DESC_PER_BLOCK geo) ltac:(lia)).
  pose proof (Z.div_mod g' (EXT2_DESC_PER_BLOCK geo) ltac:(lia)). congruence.
Qed.

Lemma gdp_of_nonneg geo es g :
  wf_geo geo es -> 0 <= g -> 0 <= (gdp_of geo g).1 /\ 0 <= (gdp_of geo g).2.
Proof.
  intros W Hg. pose proof (dpb_pos _ _ W). split; cbn.
  - by apply Z.div_pos.
  - by apply Z.mod_pos_bound.
Qed.

Lemma gd_lookup_update s p q f :
  0 <= p.1 -> 0 <= p.2 -> 0 <= q.1 -> 0 <= q.2 ->
  gd_lookup (gd_update p f s) q = if decide (p = q) then f <$> gd_lookup s q else gd_lookup s q.
Proof.
  destruct p as [p1 p2], q as [q1 q2]. cbn. intros. unfold gd_lookup, gd_update. cbn.
  destruct (decide (p1 = q1)) as [->|N1].
  - rewrite list_lookup_alter_eq. destruct (s_group_desc s !! Z.to_nat q1) as [blk|]; cbn.
    2:{ by destruct (decide _). }
    destruct (decide (p2 = q2)) as [->|N2].
    + rewrite list_lookup_alter_eq. rewrite decide_True by done. done.
    + rewrite list_lookup_alter_ne by lia. rewrite decide_False by congruence. done.
  - rewrite list_lookup_alter_ne by lia. rewrite decide_False by congruence. done.
Qed.

Lemma gd_of_update s es g g' f :
  wf_geo (geo s) es -> 0 <= g -> 0 <= g' ->
  gd_of (gd_update (gdp_of (geo s) g) f s) g' =
    if decide (g = g') then f <$> gd_of s g' else gd_of s g'.
Proof.
  intros W Hg Hg'. unfold gd_of. cbn [geo gd_update set_group_desc].
  destruct (gdp_of_nonneg _ _ g W Hg), (gdp_of_nonneg _ _ g' W Hg').
  rewrite gd_lookup_update by done. destruct (decide (g = g')) as [->|N].
  - by rewrite decide_True.
  - rewrite decide_False; [done|]. intros E. destruct N. by eapply gdp_of_inj.
Qed.

(** *** The effect of an allocation or release in one bitmap

    [bm_changed s s' k g gd gd' bm']: [s'] is [s] with the bitmap of kind [k] of
    group [g] replaced by [bm'], the free counts of the group and of the
    superblock adjusted, and nothing else changed that the invariant mentions. *)
Record bm_changed (s s' : m_ext2fs) (k : bm_kind) (g : Z) (gd gd' : group_desc) (bm' : list Z)
    : Prop := {
  bc_geo : geo s' = geo s;
  bc_es : s_es s' = es_set_free k (es_free k (s_es s) + bm_free k gd' - bm_free k gd) (s_es s);
  bc_gd : forall g', is_group s g' ->
            gd_of s' g' = if decide (g = g') then Some gd' else gd_of s g';
  bc_same_block : forall k', bm_block k' gd' = bm_block k' gd;
  bc_same_free : forall k', k' <> k -> bm_free k' gd' = bm_free k' gd;
  bc_same_table : bg_inode_table gd' = bg_inode_table gd;
  bc_used_dirs : 0 <= bg_used_dirs_count gd' < 2 ^ 16;
  bc_dev : dev s' = <[fsbtodb (geo s) (bm_block k gd) := bm']> (dev s);
  bc_caches : s_block_cache s' = s_block_cache s /\ s_inode_cache s' = s_inode_cache s;
}.

Lemma total_free_change s s' k k' g gd gd' bm' :
  bm_changed s s' k g gd gd' bm' -> is_group s g -> gd_of s g = Some gd ->
  total_free s' k' = total_free s k' + bm_free k' gd' - bm_free k' gd.
Proof.
  intros C Hg Hgd. unfold total_free, groups. rewrite (bc_geo _ _ _ _ _ _ _ C).
  assert (free_of s' k' <$> seqZ 0 (s_groups_count (geo s)) =
          <[Z.to_nat g := bm_free k' gd']> (free_of s k' <$> seqZ 0 (s_groups_count (geo s)))) as ->.
  { apply list_eq. intros i. destruct (decide (i < length (seqZ 0 (s_groups_count (geo s))))%nat) as [Hi|Hi].
    2:{ rewrite !lookup_ge_None_2; [done|rewrite length_insert, length_fmap; lia|rewrite length_fmap; lia]. }
    rewrite length_seqZ in Hi.
    rewrite list_lookup_fmap, lookup_seqZ_lt by lia. cbn [fmap option_fmap option_map].
    unfold free_of at 1. rewrite (bc_gd _ _ _ _ _ _ _ C) by (unfold is_group; lia).
    destruct (decide (g = 0 + Z.of_nat i)) as [E|N].
    - replace (Z.to_nat g) with i by lia.
      rewrite list_lookup_insert_eq by (rewrite length_fmap, length_seqZ; lia). done.
    - unfold is_group in Hg. rewrite list_lookup_insert_ne by lia.
      rewrite list_lookup_fmap, lookup_seqZ_lt by lia. done. }
  rewrite (sumZ_insert _ _ (bm_free k' gd)); [unfold is_group in *; lia|].
  unfold is_group in Hg. rewrite list_lookup_fmap, lookup_seqZ_lt by lia.
  cbn [fmap option_fmap option_map]. unfold free_of. rewrite Z.add_0_l, Z2Nat.id by lia.
  by rewrite Hgd.
Qed.

Lemma es_set_free_fields k n es :
  s_blocks_count (es_set_free k n es) = s_blocks_count es /\
  s_first_data_block (es_set_free k n es) = s_first_data_block es /\
  es_free k (es_set_free k n es) = n /\
  (forall k', k' <> k -> es_free k' (es_set_free k n es) = es_free k' es).
Proof. destruct k; (split_and!; [done..|]); intros []; done. Qed.

Lemma wf_geo_set_free g es k n : wf_geo g es -> wf_geo g (es_set_free k n es).
Proof. intros []. by destruct k; constructor. Qed.

Lemma wf_group_bitmap s g k gd :
  wf s -> is_group s g -> gd_of s g = Some gd -> exists bm, wf_bitmap s k g gd bm.
Proof.
  intros W Hg Hgd. destruct (wf_groups _ W g Hg) as (gd2 & E & _ & _ & B).
  rewrite Hgd in E. injection E as <-. apply B.
Qed.

Lemma reserved_changed s s' k k' g0 g gd gd' gd0 gd0' bm' n :
  bm_changed s s' k g gd gd' bm' ->
  (forall k'', bm_block k'' gd0' = bm_block k'' gd0) -> bg_inode_table gd0' = bg_inode_table gd0 ->
  reserved s' k' g0 gd0' n <-> reserved s k' g0 gd0 n.
Proof.
  intros C Hb Ht. unfold reserved, blockno.
  rewrite (bc_geo _ _ _ _ _ _ _ C), (bc_es _ _ _ _ _ _ _ C), Ht.
  destruct (es_set_free_fields k (es_free k (s_es s) + bm_free k gd' - bm_free k gd) (s_es s))
    as (-> & -> & _).
  pose proof (Hb BlockMap) as B1. pose proof (Hb InodeMap) as B2. cbn [bm_block] in B1, B2.
  rewrite B1, B2. done.
Qed.

Lemma wf_bitmap_other s s' k g gd gd' bm' k0 g0 gd0 gd0' bm0 :
  wf s -> is_group s g -> is_group s g0 -> gd_of s g = Some gd -> gd_of s g0 = Some gd0 ->
  bm_changed s s' k g gd gd' bm' -> (k0, g0) <> (k, g) ->
  (forall k'', bm_block k'' gd0' = bm_block k'' gd0) -> bg_inode_table gd0' = bg_inode_table gd0 ->
  bm_free k0 gd0' = bm_free k0 gd0 ->
  0 <= bm_block k gd < s_blocks_count (s_es s) ->
  wf_bitmap s k0 g0 gd0 bm0 -> wf_bitmap s' k0 g0 gd0' bm0.
Proof.
  intros W Hg Hg0 Hgd Hgd0 C Hne Hb Ht Hf Hblk B.
  pose proof (bc_geo _ _ _ _ _ _ _ C) as Eg. pose proof (bc_es _ _ _ _ _ _ _ C) as Ee.
  destruct (es_set_free_fields k (es_free k (s_es s) + bm_free k gd' - bm_free k gd) (s_es s))
    as (Ebc & _). rewrite <- Ee in Ebc.
  constructor; rewrite ?Hb, ?Eg, ?Ebc, ?Hf; try apply B.
  - rewrite (bc_dev _ _ _ _ _ _ _ C), lookup_insert_ne; [apply B|].
    intros E. apply (fsbtodb_inj _ _ _ _ (wf_geometry _ W)) in E; [|done|apply B].
    destruct (wf_distinct _ W k k0 g g0 gd gd0) as [-> ->]; done.
  - intros n Hn Hr. apply (wb_reserved _ _ _ _ _ B); [done|].
    by eapply (reserved_changed s s').
Qed.

(** Every bitmap allocation or release that keeps the counts exact and the
    reserved bits set preserves the invariant. *)
Lemma bm_changed_wf s s' k g gd gd' bm bm' :
  wf s -> is_group s g -> gd_of s g = Some gd -> wf_bitmap s k g gd bm ->
  bm_changed s s' k g gd gd' bm' ->
  wf_bytes bm' -> length bm' = length bm ->
  bm_free k gd' = count_clear (bitat bm') (Z.to_nat (bm_size k (geo s))) ->
  (forall n, 0 <= n < bm_size k (geo s) -> reserved s k g gd n -> bitat bm' n = true) ->
  wf s'.
Proof.
  intros W Hg Hgd B C Wb Hl Hc Hr.
  pose proof (bc_geo _ _ _ _ _ _ _ C) as Eg. pose proof (bc_es _ _ _ _ _ _ _ C) as Ee.
  destruct (es_set_free_fields k (es_free k (s_es s) + bm_free k gd' - bm_free k gd) (s_es s))
    as (Ebc & _ & Ef & Efo). rewrite <- Ee in Ebc, Ef, Efo.
  assert (wf_bitmap s' k g gd' bm') as B'.
  { constructor; rewrite ?(bc_same_block _ _ _ _ _ _ _ C), ?Eg, ?Ebc; try done; try apply B.
    - rewrite (bc_dev _ _ _ _ _ _ _ C). apply lookup_insert_eq.
    - rewrite Hl. apply B.
    - intros n Hn Hres. apply Hr; [done|].
      apply (reserved_changed s s' k k g g gd gd' gd gd' bm' n C); [| |exact Hres].
      + apply (bc_same_block _ _ _ _ _ _ _ C).
      + apply (bc_same_table _ _ _ _ _ _ _ C). }
  constructor.
  - rewrite Eg, Ee. apply wf_geo_set_free, (wf_geometry _ W).
  - intros g0 Hg0. unfold is_group in Hg0. rewrite Eg in Hg0.
    destruct (wf_groups _ W g0 Hg0) as (gd0 & Hgd0 & Ht0 & Hd0 & HB0).
    rewrite (bc_gd _ _ _ _ _ _ _ C) by done. destruct (decide (g = g0)) as [<-|N].
    + rewrite Hgd in Hgd0. injection Hgd0 as <-. exists gd'. split; [done|].
      split; [by rewrite (bc_same_table _ _ _ _ _ _ _ C)|].
      split; [apply (bc_used_dirs _ _ _ _ _ _ _ C)|]. intros k0.
      destruct (decide (k0 = k)) as [->|Nk]; [by exists bm'|]. destruct (HB0 k0) as [bm0 B0].
      exists bm0. apply (wf_bitmap_other s s' k g gd gd' bm' k0 g gd gd' bm0); try done; try apply C; try apply B; [congruence|done].
    + exists gd0. split; [done|]. split; [done|]. split; [done|]. intros k0.
      destruct (HB0 k0) as [bm0 B0]. exists bm0.
      apply (wf_bitmap_other s s' k g gd gd' bm' k0 g0 gd0 gd0 bm0); try done; try apply B. congruence.
  - intros k1 k2 g1 g2 gd1 gd2. unfold is_group. rewrite Eg. intros H1 H2.
    rewrite !(bc_gd _ _ _ _ _ _ _ C) by done.
    pose proof (bc_same_block _ _ _ _ _ _ _ C) as Hsb. intros E1 E2.
    destruct (decide (g = g1)) as [<-|], (decide (g = g2)) as [<-|]; simplify_eq;
      rewrite ?Hsb; by apply (wf_distinct _ W).
  - intros k0. rewrite (total_free_change s s' k k0 g gd gd' bm' C Hg Hgd), <- (wf_total _ W).
    destruct (decide (k0 = k)) as [->|N]; [done|].
    rewrite Efo, (bc_same_free _ _ _ _ _ _ _ C) by done. lia.
  - destruct (bc_caches _ _ _ _ _ _ _ C) as [-> ->]. apply (wf_caches _ W).
Qed.

(** ** Program logic of the primitives *)

(** States that agree on everything the invariant reads. *)
Definition same_core (s s' : m_ext2fs) : Prop :=
  geo s' = geo s /\ s_es s' = s_es s /\ s_group_desc s' = s_group_desc s /\ dev s' = dev s /\
  s_block_cache s' = s_block_cache s /\ s_inode_cache s' = s_inode_cache s.

Lemma wf_same_core s s' : same_core s s' -> wf s -> wf s'.
Proof.
  destruct s, s'. intros (E1 & E2 & E3 & E4 & E5 & E6) []. simpl in *. subst.
  constructor; [done| |done|done|done].
  intros g Hg. destruct (wf_groups0 g Hg) as (gd & ? & ? & ? & B). exists gd.
  split_and!; try done; try lia. intros k. destruct (B k) as [bm []]. exists bm. by constructor.
Qed.

Lemma set_lock_same s l : s_lock s = l -> set_lock l s = s.
Proof. destruct s. simpl. by intros ->. Qed.

Lemma set_lock_twice s l l' : set_lock l (set_lock l' s) = set_lock l s.
Proof. done. Qed.

Lemma wp_lock_super (Q : unit -> m_ext2fs -> Prop) s :
  s_lock s = false -> Q tt (set_lock true s) -> wp lock_super Q s.
Proof. intros H ?. unfold lock_super. wp_steps. rewrite H. by wp_steps. Qed.

Lemma wp_unlock_super (Q : unit -> m_ext2fs -> Prop) s :
  s_lock s = true -> Q tt (set_lock false s) -> wp unlock_super Q s.
Proof. intros H ?. unfold unlock_super. wp_steps. rewrite H. by wp_steps. Qed.

Lemma wp_gd_load (Q : group_desc -> m_ext2fs -> Prop) s g gd :
  gd_of s g = Some gd -> Q gd s -> wp (gd_load (gdp_of (geo s) g)) Q s.
Proof. intros H ?. unfold gd_load. wp_steps. by apply (wp_access _ gd). Qed.

Lemma wp_get_group_desc (Q : gdptr * Z -> m_ext2fs -> Prop) s g gd :
  wf_geo (geo s) (s_es s) -> is_group s g -> gd_of s g = Some gd ->
  Q (gdp_of (geo s) g, (gdp_of (geo s) g).1) s -> wp (get_group_desc g) Q s.
Proof.
  intros W Hg Hgd HQ. unfold get_group_desc. wp_steps.
  pose proof (wg_groups _ _ W). unfold is_group in Hg. rewrite uintw_small by lia.
  rewrite (proj2 (Z.leb_gt _ _)) by (cbn; lia).
  unfold gd_of, gd_lookup in Hgd. cbn in Hgd |- *.
  destruct (s_group_desc s !! _) as [blk|]; [|done]. done.
Qed.

Lemma wp_buf_data (Q : list Z -> m_ext2fs -> Prop) s a d :
  dev s !! a = Some d -> Q d s -> wp (buf_data a) Q s.
Proof. intros H ?. unfold buf_data. wp_steps. by apply (wp_access _ d). Qed.

(** [get_group_desc] followed by a load of the descriptor. *)
Lemma wf_gd s g : wf s -> is_group s g -> exists gd, gd_of s g = Some gd.
Proof. intros W Hg. destruct (wf_groups _ W g Hg) as (gd & ? & _). by exists gd. Qed.

(** ** Deciding well-formedness

    An executable checker, in the manner of [e2fsck]; it is sound for [wf]. *)

#[export] Instance reserved_dec s k g gd n : Decision (reserved s k g gd n).
Proof. destruct k; cbn; apply _. Defined.

Definition wf_geo_check (g : geometry) (es : ext2fs) : bool :=
  bool_decide (0 < s_groups_count g < 2 ^ 31 /\ 32 <= s_blocksize g <= 2 ^ 16 /\
    s_blocksize g mod 8 = 0 /\
    (0 < e2fs_bpg g < 2 ^ 16 /\ e2fs_bpg g <= 8 * s_blocksize g) /\
    (0 < e2fs_ipg g < 2 ^ 16 /\ e2fs_ipg g <= 8 * s_blocksize g) /\
    e2fs_bpg g mod 64 = 0 /\ 0 < e2fs_itpg g < 2 ^ 32 /\ 0 <= s_first_data_block es /\
    s_first_data_block es + (s_groups_count g - 1) * e2fs_bpg g < s_blocks_count es
      <= s_first_data_block es + s_groups_count g * e2fs_bpg g /\
    s_inodes_count es = s_groups_count g * e2fs_ipg g /\ s_inodes_count es < 2 ^ 31 - 1 /\
    0 <= s_fsbtodb g /\ s_blocks_count es * 2 ^ s_fsbtodb g < 2 ^ 31 /\
    0 <= s_prealloc_blocks es < 256).

Definition wf_bitmap_check (s : m_ext2fs) (g : Z) (gd : group_desc) (k : bm_kind) : bool :=
  match dev s !! fsbtodb (geo s) (bm_block k gd) with
  | None => false
  | Some bm =>
      bool_decide (0 <= bm_block k gd < s_blocks_count (s_es s)) &&
      forallb (fun b => bool_decide (0 <= b < 256)) bm &&
      (Z.of_nat (length bm) =? s_blocksize (geo s)) &&
      (bm_free k gd =? count_clear (bitat bm) (Z.to_nat (bm_size k (geo s)))) &&
      forallb (fun n => implb (bool_decide (reserved s k g gd n)) (bitat bm n))
        (seqZ 0 (bm_size k (geo s)))
  end.

Definition wf_group_check (s : m_ext2fs) (g : Z) : bool :=
  match gd_of s g with
  | None => false
  | Some gd =>
      bool_decide (0 <= bg_inode_table gd < 2 ^ 32 /\ 0 <= bg_used_dirs_count gd < 2 ^ 16) &&
      wf_bitmap_check s g gd BlockMap && wf_bitmap_check s g gd InodeMap
  end.

(** The bitmap block of each kind in each group. *)
Definition bitmap_block_of (s : m_ext2fs) (kg : bm_kind * Z) : option Z :=
  bm_block kg.1 <$> gd_of s kg.2.

Definition distinct_check (s : m_ext2fs) : bool :=
  let l := (pair BlockMap <$> groups s) ++ (pair InodeMap <$> groups s) in
  forallb (fun p => forallb (fun q => implb (bool_decide (bitmap_block_of s p = bitmap_block_of s q))
                                        (bool_decide (p = q))) l) l.

Definition cache_check (c : bitmap_cache) : bool :=
  (c_loaded c =? 0) && bool_decide (c_buf c = replicate 8 None).

Definition wf_check (s : m_ext2fs) : bool :=
  wf_geo_check (geo s) (s_es s) && forallb (wf_group_check s) (groups s) && distinct_check s &&
  (s_free_blocks_count (s_es s) =? total_free s BlockMap) &&
  (s_free_inodes_count (s_es s) =? total_free s InodeMap) &&
  cache_check (s_block_cache s) && cache_check (s_inode_cache s).

Lemma wf_geo_check_ok g es : wf_geo_check g es = true -> wf_geo g es.
Proof.
  intros H. apply bool_decide_eq_true in H. destruct_and!. constructor; try (done || lia).
  - by apply Z.mod_divide.
  - by intros [].
  - by apply Z.mod_divide.
Qed.

Lemma wf_bitmap_check_ok s g gd k : wf_bitmap_check s g gd k = true -> exists bm, wf_bitmap s k g gd bm.
Proof.
  unfold wf_bitmap_check. destruct (dev s !! _) as [bm|] eqn:E; [|done]. intros H.
  rewrite !andb_true_iff in H. destruct H as [[[[H1 H2] H3] H4] H5]. exists bm. constructor; try done.
  - by apply bool_decide_eq_true in H1.
  - apply Forall_forall. intros b Hb. apply list_elem_of_In in Hb.
    by apply (proj1 (forallb_forall _ _) H2), bool_decide_eq_true in Hb.
  - lia.
  - lia.
  - intros n Hn Hr. assert (In n (seqZ 0 (bm_size k (geo s)))) as Hin
      by (apply list_elem_of_In, elem_of_seqZ; lia).
    apply (proj1 (forallb_forall _ _) H5) in Hin. by rewrite bool_decide_eq_true_2 in Hin.
Qed.

Lemma elem_of_groups s g : is_group s g <-> In g (groups s).
Proof. unfold groups, is_group. rewrite <- list_elem_of_In, elem_of_seqZ. lia. Qed.

Lemma distinct_check_ok s k k' g g' gd gd' :
  distinct_check s = true -> is_group s g -> is_group s g' ->
  gd_of s g = Some gd -> gd_of s g' = Some gd' ->
  bm_block k gd = bm_block k' gd' -> k = k' /\ g = g'.
Proof.
  unfold distinct_check. set (l := _ ++ _). intros H Hg Hg' E E' Hb.
  assert (forall k g, is_group s g -> In (k, g) l) as HI.
  { intros k0 g0 H0. apply elem_of_groups, list_elem_of_In in H0. apply list_elem_of_In, elem_of_app.
    destruct k0; [left|right]; apply list_elem_of_fmap; by exists g0. }
  apply (proj1 (forallb_forall _ _)) with (x := (k, g)) in H; [|by apply HI].
  apply (proj1 (forallb_forall _ _)) with (x := (k', g')) in H; [|by apply HI].
  rewrite bool_decide_eq_true_2 in H.
  - apply bool_decide_eq_true in H. by simplify_eq.
  - unfold bitmap_block_of. cbn. rewrite E, E'. cbn. by f_equal.
Qed.

Lemma wf_check_ok s : wf_check s = true -> wf s.
Proof.
  unfold wf_check. rewrite !andb_true_iff. intros [[[[[[H1 H2] H3] H4] H5] H6] H7]. constructor.
  - by apply wf_geo_check_ok.
  - intros g Hg. apply elem_of_groups in Hg. apply (proj1 (forallb_forall _ _) H2) in Hg.
    unfold wf_group_check in Hg. destruct (gd_of s g) as [gd|]; [|done]. exists gd.
    rewrite !andb_true_iff in Hg. destruct Hg as [[G1 G2] G3]. apply bool_decide_eq_true in G1.
    split; [done|]. split; [tauto|]. split; [tauto|].
    intros []; by apply wf_bitmap_check_ok.
  - intros. eapply distinct_check_ok; eassumption.
  - intros []; cbn; lia.
  - unfold cache_check in *. rewrite !andb_true_iff, !Z.eqb_eq, !bool_decide_eq_true in *. done.
Qed.

(** A small file system: two groups of 64 blocks, of which the second is cut off
    at block 100, and of 16 inodes. *)
Definition example_fs : m_ext2fs :=
  mkFs (mkGeo 32 64 16 2 2 32 512 0)
    (mkEs 32 100 5 87 22 1 0)
    [[mkGd 3 4 5 58 6 2]; [mkGd 67 68 69 29 16 0]] ∅
    (mkCache 0 (replicate 8 0) (replicate 8 None)) (mkCache 0 (replicate 8 0) (replicate 8 None))
    false 2 false
    (list_to_map
      [(3, [63; 0; 0; 0; 0; 0; 0; 0] ++ replicate 24 255);
       (4, [255; 3] ++ replicate 30 255);
       (67, [63; 0; 0; 0; 248; 255; 255; 255] ++ replicate 24 255);
       (68, [0; 0] ++ replicate 30 255)]) ∅.

Lemma example_fs_wf : wf example_fs.
Proof. apply wf_check_ok. vm_compute. reflexivity. Qed.
