(* ===== verification/Balloc.v ===== *)
(** * The block allocator (src/src/gnu/ext2fs/ext2_linux_balloc.c)

    [ext2_new_block] and [ext2_free_blocks] on the state of [Fs], in the
    configuration the kext is built with ([EXT2_SB_BITMAP_CACHE] 0,
    [EXT2_PREALLOCATE] defined).  The phases of [ext2_new_block] between its
    labels are definitions of their own. *)

From S2P Require Import Prelude Bitops Fs.

(** ** Loading a block bitmap *)

Definition read_block_bitmap (block_group : Z) : FS Z :=
  '(gdp, _) ← get_group_desc block_group;
  gd ← gd_load gdp;
  let lbn := i32 (bg_block_bitmap gd) in
  unlock_super;;
  r ← buf_meta_bread lbn;
  match r with
  | None => panic "ext2: read_block_bitmap: Cannot read block bitmap"
  | Some bp => lock_super;; mret bp
  end.

(** First index below [n] at which [numbers] holds [x], or [n]. *)
Fixpoint find_number (numbers : list Z) (x : Z) (n : nat) (i : nat) : nat :=
  match n with
  | O => i
  | S n => if decide (numbers !! i = Some x) then i else find_number numbers x n (S i)
  end.

(** The LRU rotation [for (j = i; j > 0; j--) a[j] = a[j - 1]; a[0] = x]. *)
Definition rotate_to_front {A} (i : nat) (l : list A) : list A :=
  match l !! i with
  | Some x => x :: take i l ++ drop (S i) l
  | None => l
  end.

(** Returns the slot number and the buffer stored in [*bpp], if one is stored. *)
Definition load__block_bitmap (block_group : Z) : FS (Z * option Z) :=
  s ← gets id;
  let c := s_block_cache s in
  if s_groups_count (geo s) <=? block_group
  then panic "ext2: load_block_bitmap: block_group >= groups_count"
  else if s_groups_count (geo s) <=? EXT2_MAX_GROUP_LOADED then
    b ← access (c_buf c !! Z.to_nat block_group);
    match b with
    | Some _ =>
        if decide (c_number c !! Z.to_nat block_group = Some block_group)
        then mret (block_group, None)
        else panic "ext2: load_block_bitmap: block_group != block_bitmap_number"
    | None => bp ← read_block_bitmap block_group; mret (block_group, Some bp)
    end
  else
    let i := find_number (c_number c) block_group (Z.to_nat (c_loaded c)) 0 in
    if decide (Z.of_nat i < c_loaded c /\ c_number c !! i = Some block_group) then
      modify (set_block_cache
        (mkCache (c_loaded c) (rotate_to_front i (c_number c)) (rotate_to_front i (c_buf c))));;
      mret (0, None)
    else bp ← read_block_bitmap block_group; mret (0, Some bp).

Definition load_block_bitmap (block_group : Z) : FS (Z * option Z) :=
  load__block_bitmap block_group.

(** The pattern [load_block_bitmap (mp, i, &bp); ... buf_dataptr(bp)]: using
    [bp] when it was not stored is a use of an uninitialised pointer. *)
Definition load_bitmap_buf (block_group : Z) : FS Z :=
  '(_, bpp) ← load_block_bitmap (u32 block_group); access bpp.

(** ** Freeing *)

Definition in_range (b first len : Z) : bool :=
  (first <=? b) && (b <=? u64 (first + len - 1)).

(** The loop [for (i = 0; i < count; i++)] of [ext2_free_blocks]. *)
Fixpoint free_bits (n : nat) (gdp : gdptr) (bp bit i : Z) : FS unit :=
  match n with
  | O => mret tt
  | S n =>
      data ← buf_data bp;
      '(old, data') ← access (clear_bit (i32 (bit + i)) data);
      buf_store bp data';;
      (if old : bool then
         gd ← gd_load gdp;
         gd_store gdp (gd_set_free_blocks (u16 (bg_free_blocks_count gd + 1)));;
         es ← gets s_es;
         modify (set_es (es_set_free_blocks (u32 (s_free_blocks_count es + 1))))
       else mret tt);;
      free_bits n gdp bp bit (i + 1)
  end.

Definition ext2_free_blocks (block count : Z) : FS unit :=
  lock_super;;
  s ← gets id;
  let es := s_es s in
  let bpg := e2fs_bpg (geo s) in
  let itpg := e2fs_itpg (geo s) in
  if (block <? s_first_data_block es) || (s_blocks_count es <? u64 (block + count))
  then unlock_super
  else
    let block_group := (block - s_first_data_block es) / bpg in
    let bit := (block - s_first_data_block es) mod bpg in
    if bpg <? u64 (bit + count)
    then panic "ext2_free_blocks: Freeing blocks across group boundary"
    else
      bp ← load_bitmap_buf block_group;
      '(gdp, bp2) ← get_group_desc block_group;
      gd ← gd_load gdp;
      if in_range (bg_block_bitmap gd) block count
         || in_range (bg_inode_bitmap gd) block count
         || in_range block (bg_inode_table gd) itpg
         || in_range (u64 (block + count - 1)) (bg_inode_table gd) itpg
      then panic "ext2_free_blocks: Freeing blocks in system zones"
      else
        free_bits (Z.to_nat count) gdp bp bit 0;;
        mark_buffer_dirty bp2;;
        modify set_dirt;;
        unlock_super;;
        buf_write bp.

(** ** Searching a bitmap *)

Inductive search_result := GotBlock (j : Z) | SearchBack (j : Z) | NotFound.

(** No free block near the goal: a free byte in the remainder of the group, then
    any free bit in it. *)
Definition rest_of_group (bpg : Z) (data : list Z) (j : Z) : option search_result :=
  r ← memscan data (Z.shiftr j 3) 0 (Z.shiftr (u64 (bpg - j + 7)) 3);
  let k := i32 (Z.shiftl r 3) in
  if u64 k <? bpg then Some (SearchBack k)
  else
    k ← find_next_zero_bit data bpg j;
    if u64 (i32 k) <? bpg then Some (GotBlock (i32 k)) else Some NotFound.

(** The search of the goal's group: the goal bit, the bits up to the next 64-bit
    boundary, a free byte in the rest of the group, a free bit in the rest. *)
Definition goal_search (bpg : Z) (data : list Z) (j : Z) : option search_result :=
  b ← test_bit j data;
  if negb b then Some (GotBlock j)
  else
    '(j, hit) ← (if negb (j =? 0) then
                   let end_goal := Z.land (i32 (j + 63)) (Z.lnot 63) in
                   j' ← find_next_zero_bit data end_goal j;
                   Some (i32 j', i32 j' <? end_goal)
                 else Some (j, false));
    if hit : bool then Some (GotBlock j) else rest_of_group bpg data j.

(** The search of another group: a free byte, else any free bit. *)
Definition group_search (bpg : Z) (data : list Z) : option search_result :=
  r ← memscan data 0 0 (Z.shiftr bpg 3);
  let j := i32 (Z.shiftl r 3) in
  if u64 j <? bpg then Some (SearchBack j)
  else
    j ← find_first_zero_bit data bpg;
    if bpg <=? u64 (i32 j) then Some NotFound else Some (SearchBack (i32 j)).

(** [for (k = 0; k < 7 && j > 0 && !ext2_test_bit (j - 1, data); k++, j--);] *)
Fixpoint search_back (n : nat) (data : list Z) (j : Z) : option Z :=
  match n with
  | O => Some j
  | S n =>
      if 0 <? j then
        b ← test_bit (j - 1) data;
        if negb b then search_back n data (j - 1) else Some j
      else Some j
  end.

(** [for (k = 0; k < groups_count; k++) { i++; ... }]: the next group, cyclically
    after [i], whose descriptor claims free blocks. *)
Fixpoint next_group (n : nat) (i : Z) : FS (option (Z * gdptr * Z)) :=
  match n with
  | O => mret None
  | S n =>
      ngroups ← gets (fun s => s_groups_count (geo s));
      let i := if ngroups <=? u64 (i + 1) then 0 else i + 1 in
      '(gdp, bp2) ← get_group_desc i;
      gd ← gd_load gdp;
      if 0 <? bg_free_blocks_count gd then mret (Some (i, gdp, bp2)) else next_group n i
  end.

(** The preallocation loop: set the bits after [j] until one is already set. *)
Fixpoint prealloc_bits (n : nat) (bp bpg j k goal count : Z) : FS Z :=
  match n with
  | O => mret count
  | S n =>
      if (k <? goal) && (u64 (j + k) <? bpg) then
        data ← buf_data bp;
        '(old, data') ← access (set_bit (j + k) data);
        buf_store bp data';;
        if old : bool then mret count else prealloc_bits n bp bpg j (k + 1) goal (count + 1)
      else mret count
  end.

(** ** Allocating *)

(** The end of [ext2_new_block], from [j = tmp;] on: the range check and the
    counters.  The second component of the result is what was stored in
    [*prealloc_count], [*prealloc_block], if anything was. *)
Definition commit_block (tmp : Z) (gdp : gdptr) (bp bp2 : Z) (pre : option (Z * Z))
    : FS (option (Z * option (Z * Z))) :=
  es ← gets s_es;
  if s_blocks_count es <=? u32 tmp then
    unlock_super;; buf_write bp;; mret (Some (0, pre))
  else
    gd ← gd_load gdp;
    gd_store gdp (gd_set_free_blocks (u16 (bg_free_blocks_count gd - 1)));;
    mark_buffer_dirty bp2;;
    es ← gets s_es;
    modify (set_es (es_set_free_blocks (u32 (s_free_blocks_count es - 1))));;
    modify set_dirt;;
    unlock_super;;
    buf_write bp;;
    mret (Some (tmp, pre)).

(** The code after [got_block:], for bit [j] of group [i].  The result
    [None] is [goto repeat]. *)
Definition got_block (prealloc : bool) (i j : Z) (gdp : gdptr) (bp bp2 : Z)
    : FS (option (Z * option (Z * Z))) :=
  s ← gets id;
  let es := s_es s in
  let bpg := e2fs_bpg (geo s) in
  let tmp := i32 (j + i * bpg + s_first_data_block es) in
  gd ← gd_load gdp;
  if (u32 tmp =? bg_block_bitmap gd) || (u32 tmp =? bg_inode_bitmap gd)
     || ((bg_inode_table gd <=? u32 tmp)
         && (u64 tmp <=? u64 (bg_inode_table gd + e2fs_itpg (geo s) - 1)))
  then panic "ext2_new_block: Allocating block in system zone"
  else
    data ← buf_data bp;
    '(old, data') ← access (set_bit j data);
    buf_store bp data';;
    if old : bool then mret None
    else
      pre ← (if prealloc then
               let prealloc_goal :=
                 if s_prealloc_blocks es =? 0 then EXT2_DEFAULT_PREALLOC_BLOCKS
                 else s_prealloc_blocks es in
               count ← prealloc_bits (Z.to_nat prealloc_goal) bp bpg j 1 prealloc_goal 0;
               gd ← gd_load gdp;
               gd_store gdp (gd_set_free_blocks (u16 (bg_free_blocks_count gd - count)));;
               es ← gets s_es;
               modify (set_es (es_set_free_blocks (u32 (s_free_blocks_count es - count))));;
               mret (Some (count, u32 (tmp + 1)))
             else mret None);
      commit_block tmp gdp bp bp2 pre.

(** From [search_back:] or [got_block:] on. *)
Definition finish_search (prealloc : bool) (r : search_result) (i : Z) (gdp : gdptr) (bp bp2 : Z)
    : FS (option (Z * option (Z * Z))) :=
  match r with
  | GotBlock j => got_block prealloc i j gdp bp bp2
  | SearchBack j =>
      data ← buf_data bp;
      j ← access (search_back 7 data j);
      got_block prealloc i j gdp bp bp2
  | NotFound => unlock_super;; mret (Some (0, None))
  end.

(** From "Now search the rest of the groups" on. *)
Definition search_rest (prealloc : bool) (i : Z) : FS (option (Z * option (Z * Z))) :=
  s ← gets id;
  r ← next_group (Z.to_nat (s_groups_count (geo s))) i;
  match r with
  | None => unlock_super;; mret (Some (0, None))
  | Some (i, gdp, bp2) =>
      bp ← load_bitmap_buf i;
      data ← buf_data bp;
      sr ← access (group_search (e2fs_bpg (geo s)) data);
      finish_search prealloc sr i gdp bp bp2
  end.

(** One pass from [repeat:]. *)
Definition new_block_pass (goal : Z) (prealloc : bool) : FS (option (Z * option (Z * Z))) :=
  s ← gets id;
  let es := s_es s in
  let bpg := e2fs_bpg (geo s) in
  let goal := if (goal <? s_first_data_block es) || (s_blocks_count es <=? goal)
              then s_first_data_block es else goal in
  let i := i32 ((goal - s_first_data_block es) / bpg) in
  '(gdp, bp2) ← get_group_desc i;
  gd ← gd_load gdp;
  if 0 <? bg_free_blocks_count gd then
    let j := i32 ((goal - s_first_data_block es) mod bpg) in
    bp ← load_bitmap_buf i;
    data ← buf_data bp;
    sr ← access (goal_search bpg data j);
    match sr with
    | NotFound => search_rest prealloc i
    | _ => finish_search prealloc sr i gdp bp bp2
    end
  else search_rest prealloc i.

Fixpoint new_block_repeat (fuel : nat) (goal : Z) (prealloc : bool) : FS (Z * option (Z * Z)) :=
  match fuel with
  | O => out_of_fuel
  | S fuel =>
      r ← new_block_pass goal prealloc;
      match r with
      | Some res => mret res
      | None => new_block_repeat fuel goal prealloc
      end
  end.

(** [ext2_new_block mp goal prealloc_count prealloc_block]; [prealloc] says
    whether the caller passes non-null pointers.  One pass is always enough
    ([ext2_new_block_ok] below), the fuel allows a second one. *)
Definition ext2_new_block (goal : Z) (prealloc : bool) : FS (Z * option (Z * Z)) :=
  lock_super;; new_block_repeat 2 goal prealloc.

(** ** Sparse superblock groups *)

(** [test_root(a, b)] with [b > 1]: each round divides [a], so [a] rounds are
    enough. *)
Fixpoint test_root_loop (fuel : nat) (a b : Z) : option bool :=
  match fuel with
  | O => None
  | S fuel =>
      if a =? 1 then Some true
      else if negb (Z.rem a b =? 0) then Some false
      else test_root_loop fuel (Z.quot a b) b
  end.

Definition test_root (a b : Z) : option bool :=
  if a =? 0 then Some true else test_root_loop (Z.to_nat (Z.abs a) + 1) a b.

Definition ext2_group_sparse (group : Z) : option bool :=
  r3 ← test_root group 3;
  if r3 : bool then Some true
  else r5 ← test_root group 5;
       if r5 : bool then Some true else test_root group 7.

(** ** The searches find free bits *)

(** The alignment [(j + 63) & ~63]. *)
Lemma end_goal_spec j bpg :
  0 <= j < bpg -> (64 | bpg) -> bpg < 2 ^ 16 ->
  let e := Z.land (i32 (j + 63)) (Z.lnot 63) in j <= e <= bpg /\ (64 | e).
Proof.
  intros Hj [q Hq] Hb e. unfold e. mach. change (Z.lnot 63) with (Z.lnot (Z.ones 6)).
  rewrite land_lnot_ones by lia. change (2 ^ 6) with 64.
  pose proof (Z.div_mod (j + 63) 64 ltac:(lia)). pose proof (Z.mod_pos_bound (j + 63) 64 ltac:(lia)).
  split; [lia|]. exists ((j + 63) / 64). lia.
Qed.

Lemma shiftr3 x : Z.shiftr x 3 = x / 8.
Proof. by rewrite Z.shiftr_div_pow2. Qed.
Lemma shiftl3 x : Z.shiftl x 3 = 8 * x.
Proof. rewrite Z.shiftl_mul_pow2; lia. Qed.

Section search.
Context (bpg : Z) (data : list Z).
Hypothesis (W : wf_bytes data) (D : (64 | nbits data)) (Db : (64 | bpg)).
Hypothesis (Hb : 0 < bpg < 2 ^ 16) (Hn : bpg <= nbits data < 2 ^ 64).

(** What a search result says of the bits from [lo] on. *)
Definition search_ok (lo : Z) (r : search_result) : Prop :=
  match r with
  | GotBlock k | SearchBack k => 0 <= k < bpg /\ bitat data k = false
  | NotFound => forall n, lo <= n < bpg -> bitat data n = true
  end.

(** A free byte found by [memscan] from [p] on gives a free bit; otherwise the
    scaled result is past the group. *)
Lemma memscan_free p size :
  0 <= p -> 0 <= size -> p + size = bpg / 8 ->
  exists r, memscan data p 0 size = Some r /\ i32 (Z.shiftl r 3) = 8 * r /\ p <= r <= bpg / 8 /\
    (r < bpg / 8 -> bitat data (8 * r) = false).
Proof.
  intros Hp Hs Hps. assert (8 | bpg) as [q Hq].
  { destruct Db as [q ->]. exists (q * 8). lia. }
  assert (bpg / 8 = q) as E by (rewrite Hq, Z.div_mul; lia).
  destruct (memscan_ok data p 0 size) as (r & -> & Hr & Hz); [lia|lia|unfold nbits in *; lia|].
  exists r. split; [done|]. rewrite shiftl3. mach. split; [done|]. split; [lia|].
  intros. apply (bitat_zero_byte data r); [lia|apply Hz; lia|lia].
Qed.

Lemma group_search_ok :
  exists r, group_search bpg data = Some r /\ search_ok 0 r /\ (forall j, r <> GotBlock j).
Proof.
  assert (8 | bpg) as [q Hq] by (destruct Db as [q ->]; exists (q * 8); lia).
  assert (bpg / 8 = q) as E by (rewrite Hq, Z.div_mul; lia).
  unfold group_search. rewrite shiftr3.
  destruct (memscan_free 0 (bpg / 8)) as (r & -> & Hk & Hr & Hz); [lia|lia|lia|].
  cbn [mbind option_bind]. rewrite Hk. mach. destruct (Z.ltb_spec (8 * r) bpg).
  - eexists. split; [done|]. split; [|done]. split; [lia|]. apply Hz. lia.
  - destruct (find_first_zero_bit_first data bpg) as (k & -> & [R B A]); [done|done|lia|lia|].
    cbn [mbind option_bind]. mach. destruct (Z.leb_spec bpg k).
    + eexists. split; [done|]. split; [|done]. intros n ?. apply B. lia.
    + eexists. split; [done|]. split; [|done]. split; [lia|]. by apply A.
Qed.

(** The steps after the probe of the goal's neighbourhood. *)
Lemma rest_of_group_ok j :
  0 <= j <= bpg ->
  exists r, rest_of_group bpg data j = Some r /\ search_ok j r.
Proof.
  intros Hj. assert (8 | bpg) as [q Hq] by (destruct Db as [q ->]; exists (q * 8); lia).
  assert (bpg / 8 = q) as E by (rewrite Hq, Z.div_mul; lia).
  unfold rest_of_group. rewrite !shiftr3. mach.
  assert (j / 8 + (bpg - j + 7) / 8 = bpg / 8) as Hsz.
  { rewrite E. pose proof (Z.div_mod j 8 ltac:(lia)). pose proof (Z.mod_pos_bound j 8 ltac:(lia)).
    pose proof (Z.div_mod (bpg - j + 7) 8 ltac:(lia)).
    pose proof (Z.mod_pos_bound (bpg - j + 7) 8 ltac:(lia)). lia. }
  destruct (memscan_free (j / 8) ((bpg - j + 7) / 8)) as (r & -> & Hk & Hr & Hz);
    [apply Z.div_pos; lia|apply Z.div_pos; lia|done|].
  cbn [mbind option_bind]. rewrite Hk. pose proof (Z.div_pos j 8 ltac:(lia) ltac:(lia)). mach.
  destruct (Z.ltb_spec (8 * r) bpg).
  - eexists. split; [done|]. split; [lia|]. apply Hz. lia.
  - destruct (find_next_zero_bit_first data bpg j) as (k & -> & [R B A]); [done|done|done|lia|lia|lia|].
    cbn [mbind option_bind]. mach. destruct (Z.ltb_spec k bpg).
    + eexists. split; [done|]. split; [lia|]. by apply A.
    + eexists. split; [done|]. intros n ?. apply B. lia.
Qed.

Lemma goal_search_ok j :
  0 <= j < bpg ->
  exists r, goal_search bpg data j = Some r /\ search_ok j r /\
    (bitat data j = false -> r = GotBlock j).
Proof.
  intros Hj. unfold goal_search. rewrite test_bit_ok by lia. cbn [mbind option_bind].
  destruct (bitat data j) eqn:Ej; cbn [negb].
  2:{ eexists. split; [done|]. split; [split; [lia|done]|done]. }
  destruct (Z.eqb_spec j 0) as [->|Hj0]; cbn [negb].
  { cbn [mbind option_bind]. destruct (rest_of_group_ok 0) as (r & -> & Hr); [lia|].
    exists r. split; [done|]. split; [exact Hr|done]. }
  destruct (end_goal_spec j bpg Hj Db ltac:(lia)) as [He De].
  set (e := Z.land _ _) in *.
  destruct (find_next_zero_bit_first data e j) as (k & -> & [R B A]); [done|done|done|lia|lia|lia|].
  cbn [mbind option_bind]. mach. destruct (Z.ltb_spec k e).
  { eexists. split; [done|]. split; [|done]. split; [lia|]. by apply A. }
  destruct (rest_of_group_ok k) as (r & -> & Hr); [lia|].
  exists r. split; [done|]. split; [|done]. destruct r; [exact Hr..|].
  intros n ?. destruct (decide (n < k)); [apply B|apply Hr]; lia.
Qed.
End search.

Lemma search_back_ok n data j :
  0 <= j < nbits data -> bitat data j = false ->
  exists j', search_back n data j = Some j' /\ 0 <= j' <= j /\ bitat data j' = false.
Proof.
  revert j. induction n as [|n IH]; intros j Hj Hc; cbn [search_back].
  { exists j. split; [done|]. split; [lia|done]. }
  destruct (Z.ltb_spec 0 j); [|exists j; split; [done|]; split; [lia|done]].
  rewrite test_bit_ok by lia. cbn [mbind option_bind].
  destruct (bitat data (j - 1)) eqn:E; cbn [negb].
  - exists j. split; [done|]. split; [lia|done].
  - destruct (IH (j - 1)) as (j' & -> & ? & ?); [lia|done|].
    exists j'. split; [done|]. split; [lia|done].
Qed.

(** ** Program logic of the bitmap loads *)

Lemma wp_load_bitmap_buf (Q : Z -> m_ext2fs -> Prop) s g gd bm :
  wf s -> is_group s g -> gd_of s g = Some gd -> wf_bitmap s BlockMap g gd bm ->
  s_lock s = true -> Q (fsbtodb (geo s) (bg_block_bitmap gd)) s ->
  wp (load_bitmap_buf g) Q s.
Proof.
  intros W Hg Hgd B L HQ. pose proof (wf_geometry _ W) as G.
  pose proof (wg_groups _ _ G). pose proof (blocks_count_small _ _ G).
  assert (wp (read_block_bitmap g)
            (fun bp s' => bp = fsbtodb (geo s) (bg_block_bitmap gd) /\ s' = s) s) as R.
  { unfold read_block_bitmap. wp_steps. eapply wp_get_group_desc; [done..|]. wp_steps.
    eapply wp_gd_load; [done|]. pose proof (wb_block _ _ _ _ _ B) as Hb. cbn [bm_block] in Hb.
    wp_steps. apply wp_unlock_super; [done|]. wp_steps. unfold buf_meta_bread. wp_steps.
    mach. pose proof (wb_dev _ _ _ _ _ B) as Hd. cbn [bm_block] in Hd. cbn [geo dev set_lock id].
    rewrite Hd. wp_steps. apply wp_lock_super; [done|]. wp_steps.
    split; [done|]. rewrite set_lock_twice. by apply set_lock_same. }
  unfold load_bitmap_buf, load_block_bitmap, load__block_bitmap. wp_steps. cbn [id].
  unfold is_group in Hg. rewrite uintw_small by lia.
  rewrite (proj2 (Z.leb_gt (s_groups_count (geo s)) g)) by lia.
  destruct (wf_caches _ W) as [[Cl Cb] _]. rewrite Cl, Cb.
  destruct (Z.leb_spec (s_groups_count (geo s)) EXT2_MAX_GROUP_LOADED) as [H8|H8].
  - unfold EXT2_MAX_GROUP_LOADED in H8. rewrite lookup_replicate_2 by lia. wp_steps.
    eapply wp_mono; [exact R|]. intros ? ? [-> ->]. by wp_steps.
  - cbn [Z.to_nat find_number]. rewrite decide_False by lia. wp_steps.
    eapply wp_mono; [exact R|]. intros ? ? [-> ->]. by wp_steps.
Qed.

(** ** Ranges of bits *)

(** [bits_set bm bm' lo m]: the [m] bits from [lo] on were clear in [bm] and are
    set in [bm']; the other bits are the same. *)
Record bits_set (bm bm' : list Z) (lo m : Z) : Prop := {
  bs_bits : forall i, 0 <= i -> bitat bm' i = if decide (lo <= i < lo + m) then true else bitat bm i;
  bs_clear : forall i, lo <= i < lo + m -> bitat bm i = false;
  bs_length : length bm' = length bm;
  bs_wf : wf_bytes bm -> wf_bytes bm';
}.

Lemma bits_set_nil bm lo : bits_set bm bm lo 0.
Proof. split; [|intros; lia|done|done]. intros. by rewrite decide_False by lia. Qed.

Lemma bits_set_cons bm bm1 bm2 lo m :
  0 <= lo -> 0 <= m -> bitat bm lo = false -> bit_updated bm bm1 lo true ->
  bits_set bm1 bm2 (lo + 1) m -> bits_set bm bm2 lo (m + 1).
Proof.
  intros Hlo Hm Hc [U1 U2 U3] [B1 B2 B3 B4]. split; [| |congruence|auto].
  - intros i Hi. rewrite B1, U1 by done.
    destruct (decide (lo + 1 <= i < lo + 1 + m)), (decide (i = lo)), (decide (lo <= i < lo + (m + 1)));
      (lia || done).
  - intros i Hi. destruct (decide (i = lo)) as [->|]; [done|].
    specialize (B2 i ltac:(lia)). rewrite U1, decide_False in B2 by lia. done.
Qed.

Lemma bits_set_count bm bm' lo m n :
  bits_set bm bm' lo m -> 0 <= lo -> 0 <= m -> lo + m <= Z.of_nat n ->
  count_clear (bitat bm') n = count_clear (bitat bm) n - m.
Proof.
  intros [B1 B2 _ _] Hlo Hm Hn.
  rewrite (count_clear_range (bitat bm) (bitat bm') n lo (Z.to_nat m)); rewrite ?Z2Nat.id by done;
    [done|done|done|done|]. intros i Hi. apply B1. lia.
Qed.

Lemma set_dev_twice a d d' s : set_dev a d (set_dev a d' s) = set_dev a d s.
Proof. unfold set_dev. cbn. by rewrite insert_insert_eq. Qed.

Lemma set_dev_id a d s : dev s !! a = Some d -> set_dev a d s = s.
Proof. intros H. destruct s. unfold set_dev. cbn in *. by rewrite insert_id. Qed.

Lemma wp_prealloc_bits n (Q : Z -> m_ext2fs -> Prop) s bp data bpg j k goal cnt :
  dev s !! bp = Some data -> 0 <= j -> 0 < k -> j + k <= bpg -> bpg <= nbits data -> bpg < 2 ^ 16 ->
  (forall m data', 0 <= m -> j + k + m <= bpg -> m < Z.max 1 (goal - k + 1) ->
     bits_set data data' (j + k) m -> Q (cnt + m) (set_dev bp data' s)) ->
  wp (prealloc_bits n bp bpg j k goal cnt) Q s.
Proof.
  revert s data k cnt. induction n as [|n IH]; intros s data k cnt Hd Hj Hk Hjk Hb H16 HQ;
    cbn [prealloc_bits].
  all: assert (wp (mret cnt : FS Z) Q s) as Hstop.
  1, 3: apply wp_ret; replace cnt with (cnt + 0) by lia;
    rewrite <- (set_dev_id bp data s Hd); apply HQ; [lia|lia|lia|apply bits_set_nil].
  - done.
  - destruct (Z.ltb_spec k goal); cbn [andb]; [|done]. rewrite uintw_small by lia.
    destruct (Z.ltb_spec (j + k) bpg); [|done].
    wp_steps. eapply wp_buf_data; [done|]. wp_steps.
    destruct (set_bit_ok (j + k) data) as (d1 & Hset & U); [lia|].
    eapply wp_access; [exact Hset|]. destruct (bitat data (j + k)) eqn:Ec; wp_steps; unfold buf_store; wp_steps.
    + replace cnt with (cnt + 0) by lia. apply HQ; [lia|lia|lia|].
      destruct U as [U1 U2 U3]. split; [|intros; lia|done|done].
      intros i Hi. rewrite U1, (decide_False (P := _ <= i < _)) by lia.
      destruct (decide (i = j + k)) as [->|]; done.
    + apply (IH _ d1); [cbn; by rewrite lookup_insert_eq|lia|lia|lia| |lia|].
      { unfold nbits. destruct U as [_ -> _]. done. }
      intros m d2 Hm1 Hm2 Hm3 Hm4. rewrite set_dev_twice. replace (cnt + 1 + m) with (cnt + (m + 1)) by lia.
      apply HQ; [lia|lia|lia|]. apply (bits_set_cons data d1); [lia|lia|done|done|].
      by replace (j + k + 1) with (j + (k + 1)) by lia.
Qed.

(** ** Taking a block *)

(** The state after bit [j] of group [g] and the [m] bits behind it were taken. *)
Record taken (s : m_ext2fs) (g j m : Z) (s' : m_ext2fs) : Prop := {
  tk_wf : wf s';
  tk_lock : s_lock s' = false;
  tk_bits : exists gd gd' bm bm',
    gd_of s g = Some gd /\ wf_bitmap s BlockMap g gd bm /\ bits_set bm bm' j (m + 1) /\
    bm_free BlockMap gd' = bm_free BlockMap gd - (m + 1) /\
    bm_changed s s' BlockMap g gd gd' bm' /\
    fsbtodb (geo s) (bg_block_bitmap gd) ∈ written s';
  tk_dirt : s_dirt s' = true;
  tk_gd_dirty : (gdp_of (geo s) g).1 ∈ s_gd_dirty s';
}.

Lemma blockno_bound s g j :
  wf s -> is_group s g -> 0 <= j < e2fs_bpg (geo s) ->
  0 <= blockno s g j < s_first_data_block (s_es s) + s_groups_count (geo s) * e2fs_bpg (geo s).
Proof.
  intros W Hg Hj. pose proof (wg_first _ _ (wf_geometry _ W)). unfold is_group, blockno in *. nia.
Qed.

(** A free bit is not reserved. *)
Lemma free_not_reserved s g gd bm j :
  wf s -> is_group s g -> wf_bitmap s BlockMap g gd bm -> 0 <= j < e2fs_bpg (geo s) ->
  bitat bm j = false -> ~ reserved s BlockMap g gd j.
Proof.
  intros W Hg B Hj Hc Hr. rewrite (wb_reserved _ _ _ _ _ B) in Hc by done. done.
Qed.

(** The counters do not wrap. *)
Lemma free_counts s k g gd bm :
  wf s -> is_group s g -> gd_of s g = Some gd -> wf_bitmap s k g gd bm ->
  0 <= bm_free k gd < 2 ^ 16 /\ bm_free k gd <= es_free k (s_es s) < 2 ^ 31 + 2 ^ 16.
Proof.
  intros W Hg Hgd B. pose proof (wf_geometry _ W) as G.
  destruct (wg_size _ _ G k) as [Hs _].
  pose proof (count_clear_bound (bitat bm) (Z.to_nat (bm_size k (geo s)))) as Hc.
  rewrite <- (wb_count _ _ _ _ _ B) in Hc. split; [lia|]. rewrite (wf_total _ W).
  assert (Forall (fun x => 0 <= x <= bm_size k (geo s)) (free_of s k <$> groups s)) as F.
  { apply Forall_fmap, Forall_forall. intros g' Hg'. unfold groups in Hg'.
    apply elem_of_seqZ in Hg'. destruct (wf_groups _ W g') as (gd' & Hgd' & _ & _ & HB).
    { unfold is_group. lia. }
    destruct (HB k) as [bm' B']. cbn. unfold free_of. rewrite Hgd', (wb_count _ _ _ _ _ B').
    pose proof (count_clear_bound (bitat bm') (Z.to_nat (bm_size k (geo s)))). lia. }
  split.
  - unfold total_free. apply (sumZ_elem _ (Z.to_nat g)).
    { eapply Forall_impl; [exact F|]. cbn. lia. }
    unfold is_group in Hg. unfold groups. rewrite list_lookup_fmap, lookup_seqZ_lt by lia.
    cbn. unfold free_of. by rewrite ?Z.add_0_l, Z2Nat.id, Hgd by lia.
  - assert (Forall (fun x => x <= bm_size k (geo s)) (free_of s k <$> groups s)) as F'.
    { eapply Forall_impl; [exact F|]. cbn. lia. }
    pose proof (sumZ_le _ _ F') as HS. unfold total_free in *. unfold groups in HS at 2.
    rewrite length_fmap, length_seqZ in HS. pose proof (wg_groups _ _ G).
    pose proof (wg_last _ _ G). pose proof (wg_inodes _ _ G). pose proof (wg_inodes31 _ _ G).
    pose proof (blocks_count_small _ _ G). pose proof (wg_first _ _ G).
    rewrite Z2Nat.id in HS by lia. destruct k; cbn [bm_size] in *; nia.
Qed.

(** Building the invariant after an allocation from the final state's fields. *)
Lemma taken_intro s s' g gd bm bm' j m :
  wf s -> is_group s g -> gd_of s g = Some gd -> wf_bitmap s BlockMap g gd bm ->
  0 <= j -> 0 <= m -> j + m < e2fs_bpg (geo s) -> bits_set bm bm' j (m + 1) ->
  bm_changed s s' BlockMap g gd (gd_set_free_blocks (bg_free_blocks_count gd - (m + 1)) gd) bm' ->
  s_lock s' = false -> s_dirt s' = true -> (gdp_of (geo s) g).1 ∈ s_gd_dirty s' ->
  fsbtodb (geo s) (bg_block_bitmap gd) ∈ written s' ->
  taken s g j m s'.
Proof.
  intros W Hg Hgd B Hj Hm Hjm Hbits C L D GD Wr. pose proof Hbits as [B1 B2 B3 B4].
  split; [|done| |done|done].
  - eapply (bm_changed_wf s s'); [done..| |by rewrite B3| |].
    + apply B4, B.
    + cbn [bm_free bm_size]. rewrite (bits_set_count bm bm' j (m + 1)); [|done|lia|lia|].
      * pose proof (wb_count _ _ _ _ _ B) as E. cbn [bm_free bm_size gd_set_free_blocks bg_free_blocks_count] in E |- *. lia.
      * cbn. rewrite Z2Nat.id; lia.
    + intros n Hn Hr. rewrite B1 by lia. destruct (decide _); [done|]. by apply (wb_reserved _ _ _ _ _ B).
  - exists gd, (gd_set_free_blocks (bg_free_blocks_count gd - (m + 1)) gd), bm, bm'.
    split_and!; try done.
Qed.

(** Lowering both free counters by [x]. *)
Lemma bm_changed_counts s s2 s' g gd gd1 bm' x :
  bm_changed s s2 BlockMap g gd gd1 bm' -> is_group s g ->
  geo s' = geo s2 ->
  s_es s' = es_set_free_blocks (s_free_blocks_count (s_es s2) - x) (s_es s2) ->
  (forall g', 0 <= g' -> gd_of s' g' =
     if decide (g = g') then gd_set_free_blocks (bg_free_blocks_count gd1 - x) <$> gd_of s2 g'
     else gd_of s2 g') ->
  dev s' = dev s2 -> s_block_cache s' = s_block_cache s2 -> s_inode_cache s' = s_inode_cache s2 ->
  bm_changed s s' BlockMap g gd (gd_set_free_blocks (bg_free_blocks_count gd1 - x) gd1) bm'.
Proof.
  intros [C1 C2 C3 C4 C5 C6 C7 C8 [C9 C10]] Hg E1 E2 E3 E4 E5 E6.
  split; [congruence| | |intros k'; rewrite <- C4; by destruct k'| |done|done|congruence|split; congruence].
  - rewrite E2, C2. unfold es_set_free, es_set_free_blocks. cbn. f_equal. lia.
  - intros g' Hg'. rewrite E3, C3 by (unfold is_group in *; tauto || lia).
    by destruct (decide (g = g')).
  - intros [] Hk'; [done|]. exact (C5 InodeMap Hk').
Qed.

Lemma gd_set_free_blocks_id gd : gd_set_free_blocks (bg_free_blocks_count gd) gd = gd.
Proof. by destruct gd. Qed.
Lemma es_set_free_blocks_id es : es_set_free_blocks (s_free_blocks_count es) es = es.
Proof. by destruct es. Qed.

(** Replacing the bitmap buffer alone. *)
Lemma bm_changed_dev s g gd bm' :
  wf s -> is_group s g -> gd_of s g = Some gd ->
  bm_changed s (set_dev (fsbtodb (geo s) (bg_block_bitmap gd)) bm' s) BlockMap g gd gd bm'.
Proof.
  intros W Hg Hgd. destruct (wf_groups _ W g Hg) as (gd0 & E & _ & Hu & _).
  rewrite Hgd in E. injection E as <-. split; try done.
  - cbn. rewrite Z.add_simpl_r. by rewrite es_set_free_blocks_id.
  - intros g' _. destruct (decide (g = g')) as [<-|]; done.
Qed.

Lemma wp_commit_block (Q : option (Z * option (Z * Z)) -> m_ext2fs -> Prop)
    s s2 g gd bm bm' j m pre :
  wf s -> is_group s g -> gd_of s g = Some gd -> wf_bitmap s BlockMap g gd bm ->
  0 <= j -> 0 <= m -> j + m < e2fs_bpg (geo s) -> bits_set bm bm' j (m + 1) ->
  bm_changed s s2 BlockMap g gd (gd_set_free_blocks (bg_free_blocks_count gd - m) gd) bm' ->
  s_lock s2 = true ->
  (forall s', taken s g j m s' -> Q (Some (blockno s g j, pre)) s') ->
  wp (commit_block (blockno s g j) (gdp_of (geo s) g) (fsbtodb (geo s) (bg_block_bitmap gd))
        (gdp_of (geo s) g).1 pre) Q s2.
Proof.
  intros W Hg Hgd B Hj Hm Hjm Hbits C L HQ. pose proof (wf_geometry _ W) as G.
  destruct (free_counts s BlockMap g gd bm W Hg Hgd B) as [F1 F2]. cbn [bm_free es_free] in F1, F2.
  pose proof (bits_set_count bm bm' j (m + 1) (Z.to_nat (e2fs_bpg (geo s))) Hbits) as Hcount.
  pose proof (count_clear_bound (bitat bm') (Z.to_nat (e2fs_bpg (geo s)))) as Hpos.
  pose proof (wb_count _ _ _ _ _ B) as Hc. cbn [bm_free bm_size] in Hc.
  pose proof (free_not_reserved s g gd bm j W Hg B ltac:(lia)) as NR.
  rewrite (bs_clear _ _ _ _ Hbits) in NR by lia. specialize (NR eq_refl).
  unfold reserved in NR. pose proof (blocks_count_small _ _ G).
  pose proof (blockno_bound s g j W Hg ltac:(lia)).
  pose proof C as [C1 C2 C3 _ _ _ _ _ _]. cbn [bm_free gd_set_free_blocks bg_free_blocks_count] in C2.
  assert (s_blocks_count (s_es s2) = s_blocks_count (s_es s)) as Eb by by rewrite C2.
  assert (s_free_blocks_count (s_es s2) = s_free_blocks_count (s_es s) - m) as Ef
    by (rewrite C2; cbn; lia).
  assert (gd_of s2 g = Some (gd_set_free_blocks (bg_free_blocks_count gd - m) gd)) as Egd2.
  { rewrite C3 by done. by rewrite decide_True. }
  unfold commit_block. wp_steps. rewrite Eb, uintw_small by lia.
  rewrite (proj2 (Z.leb_gt _ _)) by lia.
  rewrite <- C1. wp_steps. eapply wp_gd_load; [done|].
  unfold gd_store, mark_buffer_dirty. wp_steps. apply wp_unlock_super; [done|].
  unfold buf_write. wp_steps. cbn [s_es set_gd_dirty gd_update set_group_desc].
  cbn [bg_free_blocks_count gd_set_free_blocks]. rewrite Ef, !uintw_small by lia.
  apply HQ. eapply taken_intro; try done; rewrite <- ?C1.
  - set (gd1 := gd_set_free_blocks (bg_free_blocks_count gd - m) gd) in *.
    replace (gd_set_free_blocks (bg_free_blocks_count gd - (m + 1)) gd)
      with (gd_set_free_blocks (bg_free_blocks_count gd1 - 1) gd1)
      by (unfold gd1, gd_set_free_blocks; cbn; f_equal; lia).
    apply (bm_changed_counts s s2); try done.
    + cbn. rewrite Ef. done.
    + intros g' Hg'. rewrite <- (gd_of_update s2 (s_es s) g g'); [done|by rewrite C1|apply Hg|done].
  - cbn. set_solver.
  - cbn. set_solver.
Qed.

Lemma wp_got_block (Q : option (Z * option (Z * Z)) -> m_ext2fs -> Prop) prealloc s g gd bm j :
  wf s -> is_group s g -> gd_of s g = Some gd -> wf_bitmap s BlockMap g gd bm ->
  0 <= j < e2fs_bpg (geo s) -> bitat bm j = false -> s_lock s = true ->
  (forall m s', 0 <= m -> j + m < e2fs_bpg (geo s) -> taken s g j m s' -> (prealloc = false -> m = 0) ->
     Q (Some (blockno s g j, if prealloc then Some (m, blockno s g j + 1) else None)) s') ->
  wp (got_block prealloc g j (gdp_of (geo s) g) (fsbtodb (geo s) (bg_block_bitmap gd))
        (gdp_of (geo s) g).1) Q s.
Proof.
  intros W Hg Hgd B Hj Hc L HQ. pose proof (wf_geometry _ W) as G.
  destruct (free_counts s BlockMap g gd bm W Hg Hgd B) as [F1 F2]. cbn [bm_free es_free] in F1, F2.
  destruct (wf_nbits _ _ _ _ _ W B) as (_ & _ & Hn). destruct (wg_size _ _ G BlockMap) as [Hs _].
  cbn [bm_size] in Hn, Hs. pose proof (blocks_count_small _ _ G). pose proof (wg_itpg _ _ G).
  pose proof (blockno_bound s g j W Hg Hj).
  pose proof (free_not_reserved s g gd bm j W Hg B Hj Hc) as NR. unfold reserved in NR.
  destruct (wf_groups _ W g Hg) as (gd0 & E0 & Ht & _). rewrite Hgd in E0. injection E0 as <-.
  unfold got_block. wp_steps. eapply wp_gd_load; [done|].
  cbn [id]. fold (blockno s g j). mach.
  rewrite (proj2 (Z.eqb_neq (blockno s g j) (bg_block_bitmap gd))) by lia.
  rewrite (proj2 (Z.eqb_neq (blockno s g j) (bg_inode_bitmap gd))) by lia. cbn [orb].
  replace ((bg_inode_table gd <=? blockno s g j) && _) with false by (symmetry; lia).
  wp_steps. eapply wp_buf_data; [apply B|]. wp_steps.
  destruct (set_bit_ok j bm) as (d1 & Hset & U); [lia|].
  eapply wp_access; [exact Hset|]. rewrite Hc. unfold buf_store. wp_steps.
  assert (bits_set bm d1 j 1) as S1.
  { apply (bits_set_cons bm d1 d1 j 0); [lia|lia|done|done|apply bits_set_nil]. }
  destruct prealloc; wp_steps.
  2:{ apply (wp_commit_block _ s _ g gd bm d1 j 0); try done; try lia.
      - rewrite Z.sub_0_r, gd_set_free_blocks_id. by apply bm_changed_dev.
      - intros s' T. apply (HQ 0 s'); [lia|lia|done|done]. }
  set (goal := if s_prealloc_blocks _ =? 0 then _ else _).
  eapply (wp_prealloc_bits _ _ _ _ d1); [by cbn; rewrite lookup_insert_eq|lia|lia|lia|..].
  { unfold nbits in *. rewrite (bu_length _ _ _ _ U). lia. }
  { lia. }
  intros m d2 Hm1 Hm2 _ S2. rewrite set_dev_twice, Z.add_0_l.
  assert (bits_set bm d2 j (m + 1)) as S by (apply (bits_set_cons bm d1 d2); lia || done).
  pose proof (bits_set_count bm d2 j (m + 1) (Z.to_nat (e2fs_bpg (geo s))) S) as Hcount.
  pose proof (count_clear_bound (bitat d2) (Z.to_nat (e2fs_bpg (geo s)))) as Hpos.
  pose proof (wb_count _ _ _ _ _ B) as Hcnt. cbn [bm_free bm_size] in Hcnt.
  set (s1 := set_dev _ d2 s). unfold gd_store. wp_steps.
  eapply (wp_gd_load _ s1 g gd); [done|]. wp_steps. mach.
  cbn [s_es s_free_blocks_count gd_update set_group_desc s1 set_dev]. mach.
  eapply (wp_commit_block _ s _ g gd bm d2 j m); try done; try lia.
  - apply (bm_changed_counts s s1); try done; [by apply bm_changed_dev|].
    intros g' Hg'. rewrite <- (gd_of_update s1 (s_es s) g g'); [done|done|apply Hg|done].
  - intros s' T. apply (HQ m s'); [lia|lia|done|done].
Qed.

(** ** The walk over the groups *)

Lemma wp_next_group n i (Q : option (Z * gdptr * Z) -> m_ext2fs -> Prop) s :
  wf s -> is_group s i ->
  (forall g gd, is_group s g -> gd_of s g = Some gd -> 0 < bg_free_blocks_count gd ->
     Q (Some (g, gdp_of (geo s) g, (gdp_of (geo s) g).1)) s) ->
  ((forall t, 1 <= t <= Z.of_nat n ->
      free_of s BlockMap ((i + t) mod s_groups_count (geo s)) = 0) -> Q None s) ->
  wp (next_group n i) Q s.
Proof.
  intros W. pose proof (wg_groups _ _ (wf_geometry _ W)) as HN.
  set (N := s_groups_count (geo s)) in *.
  revert i. induction n as [|n IH]; intros i Hi HS HF; cbn [next_group].
  { wp_steps. apply HF. intros; lia. }
  wp_steps. fold N. unfold is_group in Hi. fold N in Hi. rewrite uintw_small by lia.
  set (i' := if N <=? i + 1 then 0 else i + 1).
  assert (i' = (i + 1) mod N /\ 0 <= i' < N) as [Ei' Hi'].
  { unfold i'. destruct (Z.leb_spec N (i + 1)).
    - replace (i + 1) with N by lia. rewrite Z.mod_same by lia. lia.
    - rewrite Z.mod_small by lia. lia. }
  destruct (wf_gd s i' W Hi') as [gd Hgd].
  eapply wp_get_group_desc; [apply W|done|done|]. wp_steps. eapply wp_gd_load; [done|].
  destruct (Z.ltb_spec 0 (bg_free_blocks_count gd)) as [Hpos|Hz].
  { wp_steps. by eapply HS. }
  apply IH; [done|done|]. intros Hrest. apply HF. intros t Ht.
  destruct (decide (t = 1)) as [->|].
  - rewrite <- Ei'. unfold free_of. rewrite Hgd. cbn.
    destruct (wf_group_bitmap s i' BlockMap gd W Hi' Hgd) as [bm B].
    destruct (free_counts s BlockMap i' gd bm W Hi' Hgd B). cbn in *. lia.
  - specialize (Hrest (t - 1) ltac:(lia)). rewrite Ei', Zplus_mod_idemp_l in Hrest.
    by replace (i + 1 + (t - 1)) with (i + t) in Hrest by lia.
Qed.

(** When no group claims a free block, the superblock's count is zero. *)
Lemma no_group_free s k i :
  wf s -> is_group s i ->
  (forall t, 1 <= t <= s_groups_count (geo s) ->
     free_of s k ((i + t) mod s_groups_count (geo s)) = 0) ->
  es_free k (s_es s) = 0.
Proof.
  intros W Hi H. rewrite (wf_total _ W k).
  unfold total_free.
  assert (forall l, Forall (fun x => x = 0) l -> sumZ l = 0) as HS.
  { induction 1; cbn [sumZ foldr] in *; [done|]. unfold sumZ in *. lia. }
  apply HS, Forall_fmap, Forall_forall. intros g Hg. unfold groups in Hg.
  apply elem_of_seqZ in Hg. cbn. unfold is_group in Hi. set (N := s_groups_count (geo s)) in *.
  pose proof (Z.mod_pos_bound (g - i - 1) N ltac:(lia)).
  specialize (H ((g - i - 1) mod N + 1) ltac:(lia)).
  replace (i + ((g - i - 1) mod N + 1)) with ((g - i - 1) mod N + (i + 1)) in H by lia.
  rewrite Zplus_mod_idemp_l in H.
  replace (g - i - 1 + (i + 1)) with g in H by lia. by rewrite Z.mod_small in H by lia.
Qed.

(** ** Whole allocations *)

(** A successful allocation of block [b]: bit [j] of group [g] and, with
    preallocation, the [m] bits behind it are taken. *)
Record allocated (s : m_ext2fs) (prealloc : bool) (g j m : Z) (r : Z * option (Z * Z))
    (s' : m_ext2fs) : Prop := {
  al_group : is_group s g;
  al_range : 0 <= j /\ 0 <= m /\ j + m < e2fs_bpg (geo s);
  al_m : prealloc = false -> m = 0;
  al_result : r = (blockno s g j, if prealloc then Some (m, blockno s g j + 1) else None);
  al_taken : taken s g j m s';
}.

Lemma wp_finish_search (Q : option (Z * option (Z * Z)) -> m_ext2fs -> Prop) prealloc s g gd bm lo sr :
  wf s -> is_group s g -> gd_of s g = Some gd -> wf_bitmap s BlockMap g gd bm -> s_lock s = true ->
  search_ok (e2fs_bpg (geo s)) bm lo sr -> sr <> NotFound ->
  (forall j m r s', allocated s prealloc g j m r s' ->
     (forall k, sr = GotBlock k -> j = k) -> Q (Some r) s') ->
  wp (finish_search prealloc sr g (gdp_of (geo s) g) (fsbtodb (geo s) (bg_block_bitmap gd))
        (gdp_of (geo s) g).1) Q s.
Proof.
  intros W Hg Hgd B L Hsr HNF HQ. destruct (wf_nbits _ _ _ _ _ W B) as (_ & _ & Hn).
  cbn [bm_size] in Hn.
  destruct sr as [j|j|]; [| |done]; destruct Hsr as [Hj Hc]; cbn [finish_search].
  - eapply wp_got_block; try done. intros m s' Hm Hjm T Hp.
    apply (HQ j m); [split; done || lia|]. by intros k [= ->].
  - wp_steps. eapply wp_buf_data; [apply B|]. wp_steps.
    destruct (search_back_ok 7 bm j) as (j' & Hsb & Hj' & Hc'); [lia|done|].
    eapply wp_access; [exact Hsb|].
    eapply wp_got_block; try done; [lia|]. intros m s' Hm Hjm T Hp.
    apply (HQ j' m); [split; done || lia|]. by intros k [=].
Qed.

Lemma wp_search_rest (Q : option (Z * option (Z * Z)) -> m_ext2fs -> Prop) prealloc s i :
  wf s -> is_group s i -> s_lock s = true ->
  (forall g j m r s', allocated s prealloc g j m r s' -> Q (Some r) s') ->
  (s_free_blocks_count (s_es s) = 0 -> Q (Some (0, None)) (set_lock false s)) ->
  wp (search_rest prealloc i) Q s.
Proof.
  intros W Hi L HQ HF. pose proof (wf_geometry _ W) as G. unfold search_rest. wp_steps.
  apply wp_next_group; [done|done|..].
  - intros g gd Hg Hgd Hpos. wp_steps.
    destruct (wf_group_bitmap s g BlockMap gd W Hg Hgd) as [bm B].
    eapply wp_load_bitmap_buf; try done. wp_steps. eapply wp_buf_data; [apply B|]. wp_steps.
    destruct (wf_nbits _ _ _ _ _ W B) as (_ & D & Hn). destruct (wg_size _ _ G BlockMap) as [Hs _].
    destruct (group_search_ok (e2fs_bpg (geo s)) bm) as (sr & Hsr & Ok & _);
      [apply B|done|apply G|done|done|].
    eapply wp_access; [exact Hsr|]. eapply wp_finish_search; try done.
    + intros ->. cbn in Ok.
      pose proof (wb_count _ _ _ _ _ B) as Hc. cbn [bm_free bm_size] in Hc. rewrite Hc in Hpos.
      apply count_clear_pos in Hpos as (n & Hn1 & Hn2). cbn in Hn1.
      rewrite Ok in Hn2 by lia. done.
    + intros j m r s' A _. by eapply HQ.
  - intros Hz. wp_steps. apply wp_unlock_super; [done|]. wp_steps. apply HF.
    rewrite Z2Nat.id in Hz by (pose proof (wg_groups _ _ G); cbn; lia).
    by apply (no_group_free s BlockMap i).
Qed.

(** The goal the search really uses. *)
Definition clamp_goal (s : m_ext2fs) (goal : Z) : Z :=
  if (goal <? s_first_data_block (s_es s)) || (s_blocks_count (s_es s) <=? goal)
  then s_first_data_block (s_es s) else goal.

Lemma clamp_goal_spec s goal :
  wf s -> s_first_data_block (s_es s) <= clamp_goal s goal < s_blocks_count (s_es s).
Proof.
  intros W. pose proof (wg_last _ _ (wf_geometry _ W)). pose proof (wg_groups _ _ (wf_geometry _ W)).
  destruct (wg_size _ _ (wf_geometry _ W) BlockMap) as [Hs _]. cbn in Hs.
  unfold clamp_goal. destruct (Z.ltb_spec goal (s_first_data_block (s_es s))); cbn [orb]; [nia|].
  destruct (Z.leb_spec (s_blocks_count (s_es s)) goal); [nia|lia].
Qed.

(** Group and bit of a block number. *)
Definition block_group_of (s : m_ext2fs) (b : Z) : Z :=
  (b - s_first_data_block (s_es s)) / e2fs_bpg (geo s).
Definition block_bit_of (s : m_ext2fs) (b : Z) : Z :=
  (b - s_first_data_block (s_es s)) mod e2fs_bpg (geo s).

Lemma block_group_ok s b :
  wf s -> s_first_data_block (s_es s) <= b < s_blocks_count (s_es s) ->
  is_group s (block_group_of s b) /\ 0 <= block_bit_of s b < e2fs_bpg (geo s) /\
  blockno s (block_group_of s b) (block_bit_of s b) = b.
Proof.
  intros W Hb. pose proof (wg_last _ _ (wf_geometry _ W)).
  destruct (wg_size _ _ (wf_geometry _ W) BlockMap) as [Hs _]. cbn in Hs.
  unfold is_group, block_group_of, block_bit_of, blockno.
  set (x := b - s_first_data_block (s_es s)). set (bpg := e2fs_bpg (geo s)) in *.
  pose proof (Z.div_mod x bpg ltac:(lia)). pose proof (Z.mod_pos_bound x bpg ltac:(lia)).
  split_and!; [apply Z.div_pos; lia| |lia|lia|lia].
  apply Z.div_lt_upper_bound; lia.
Qed.

(** ** Which blocks are in use *)

Definition bitmap_bit (s : m_ext2fs) (k : bm_kind) (g n : Z) : bool :=
  match gd_of s g with
  | Some gd => match dev s !! fsbtodb (geo s) (bm_block k gd) with
               | Some bm => bitat bm n
               | None => true
               end
  | None => true
  end.

Definition block_used (s : m_ext2fs) (b : Z) : bool :=
  bitmap_bit s BlockMap (block_group_of s b) (block_bit_of s b).

Lemma bitmap_bit_wf s k g gd bm n :
  gd_of s g = Some gd -> wf_bitmap s k g gd bm -> bitmap_bit s k g n = bitat bm n.
Proof. intros Hgd B. unfold bitmap_bit. by rewrite Hgd, (wb_dev _ _ _ _ _ B). Qed.

(** A bitmap change is visible in the changed bitmap only. *)
Lemma bitmap_bit_changed s s' k g gd gd' bm' k0 g0 n :
  wf s -> is_group s g -> is_group s g0 -> gd_of s g = Some gd ->
  bm_changed s s' k g gd gd' bm' ->
  bitmap_bit s' k0 g0 n =
    if decide (k0 = k /\ g0 = g) then bitat bm' n else bitmap_bit s k0 g0 n.
Proof.
  intros W Hg Hg0 Hgd C. unfold bitmap_bit.
  rewrite (bc_geo _ _ _ _ _ _ _ C), (bc_gd _ _ _ _ _ _ _ C), (bc_dev _ _ _ _ _ _ _ C) by done.
  destruct (wf_groups _ W g0 Hg0) as (gd0 & Hgd0 & _ & _ & HB).
  destruct (HB k0) as [bm0 B0]. destruct (wf_group_bitmap s g k gd W Hg Hgd) as [bm B].
  assert (gd_of s' g0 = Some (if decide (g = g0) then gd' else gd0) /\
          bm_block k0 (if decide (g = g0) then gd' else gd0) = bm_block k0 gd0) as [_ Hb].
  { rewrite (bc_gd _ _ _ _ _ _ _ C) by done. destruct (decide (g = g0)) as [<-|]; [|done].
    rewrite (bc_same_block _ _ _ _ _ _ _ C). by simplify_eq. }
  replace (if decide (g = g0) then Some gd' else gd_of s g0)
    with (Some (if decide (g = g0) then gd' else gd0)) by (by destruct (decide (g = g0))).
  rewrite Hb, Hgd0. destruct (decide (k0 = k /\ g0 = g)) as [[-> ->]|N].
  - simplify_eq. by rewrite lookup_insert_eq.
  - rewrite lookup_insert_ne; [done|]. intros E.
    apply (fsbtodb_inj _ _ _ _ (wf_geometry _ W)) in E; [|apply B|apply B0].
    destruct (wf_distinct _ W k k0 g g0 gd gd0); [done..|]. by destruct N.
Qed.

Lemma taken_used s g j m s' b :
  wf s -> is_group s g -> 0 <= j -> 0 <= m -> j + m < e2fs_bpg (geo s) -> taken s g j m s' ->
  s_first_data_block (s_es s) <= b < s_blocks_count (s_es s) ->
  block_used s' b = block_used s b || bool_decide (blockno s g j <= b <= blockno s g j + m) /\
  (blockno s g j <= b <= blockno s g j + m -> block_used s b = false).
Proof.
  intros W Hg Hj Hm Hjm T Hb. destruct (tk_bits _ _ _ _ _ T) as (gd & gd' & bm & bm' & Hgd & B & S & _ & C & _).
  destruct (block_group_ok s b W Hb) as (Hgb & Hbit & Hbb).
  unfold block_used, block_group_of, block_bit_of.
  rewrite (bc_geo _ _ _ _ _ _ _ C), (bc_es _ _ _ _ _ _ _ C).
  cbn [es_set_free es_set_free_blocks s_first_data_block].
  fold (block_group_of s b) (block_bit_of s b).
  rewrite (bitmap_bit_changed s s' BlockMap g gd gd' bm') by done.
  destruct (decide (BlockMap = BlockMap /\ block_group_of s b = g)) as [[_ Eg]|N].
  - rewrite Eg, (bitmap_bit_wf s BlockMap g gd bm) by done.
    assert (blockno s g j <= b <= blockno s g j + m <-> j <= block_bit_of s b < j + (m + 1)) as Eq.
    { rewrite <- Hbb at 1 2. rewrite Eg. unfold blockno. lia. }
    split.
    + rewrite (bs_bits _ _ _ _ S) by lia. destruct (decide _) as [D|D].
      * rewrite bool_decide_eq_true_2, orb_true_r; [done|]. by apply Eq.
      * rewrite bool_decide_eq_false_2, orb_false_r; [done|]. intros H. by apply D, Eq.
    + intros H. apply (bs_clear _ _ _ _ S). by apply Eq.
  - assert (~ blockno s g j <= b <= blockno s g j + m) as Hout.
    { rewrite <- Hbb. unfold blockno. unfold is_group in *. intros H. apply N. split; [done|]. nia. }
    rewrite bool_decide_eq_false_2, orb_false_r by done. split; [done|]. intros; lia.
Qed.

(** ** Abstract allocator

    The abstract state is the set of blocks in use, a subset of the data zone. *)

Definition zone (lo hi : Z) : gset Z := list_to_set (seqZ lo (hi - lo)).

Lemma elem_of_zone lo hi x : x ∈ zone lo hi <-> lo <= x < hi.
Proof. unfold zone. rewrite elem_of_list_to_set, elem_of_seqZ. lia. Qed.

Definition data_zone (s : m_ext2fs) : gset Z :=
  zone (s_first_data_block (s_es s)) (s_blocks_count (s_es s)).

Definition used_blocks (s : m_ext2fs) : gset Z :=
  filter (fun b => block_used s b = true) (data_zone s).

(** Allocation: fails only when the zone is full; otherwise takes a free block,
    the goal itself if that is free, and [m] free blocks behind it. *)
Inductive abs_alloc (space : gset Z) (goal : Z) (U : gset Z) : Z -> Z -> gset Z -> Prop :=
| abs_full : U = space -> abs_alloc space goal U 0 0 U
| abs_take b m :
    b <> 0 -> 0 <= m -> zone b (b + m + 1) ⊆ space ∖ U ->
    (goal ∈ space ∖ U -> b = goal) ->
    abs_alloc space goal U b m (U ∪ zone b (b + m + 1)).

Lemma elem_of_used s b :
  b ∈ used_blocks s <-> block_used s b = true /\
    s_first_data_block (s_es s) <= b < s_blocks_count (s_es s).
Proof. unfold used_blocks, data_zone. by rewrite elem_of_filter, elem_of_zone. Qed.

(** A full file system in terms of its counters. *)
Lemma no_free_full s : wf s -> s_free_blocks_count (s_es s) = 0 -> used_blocks s = data_zone s.
Proof.
  intros W Hz. apply set_eq. intros b. rewrite elem_of_used. unfold data_zone. rewrite elem_of_zone.
  split; [tauto|]. intros Hb. split; [|done].
  destruct (block_group_ok s b W Hb) as (Hg & Hbit & _).
  destruct (wf_gd s _ W Hg) as [gd Hgd].
  destruct (wf_group_bitmap s _ BlockMap gd W Hg Hgd) as [bm B].
  destruct (free_counts s BlockMap _ gd bm W Hg Hgd B) as [F1 F2]. cbn [es_free] in F2.
  pose proof (wb_count _ _ _ _ _ B) as Hc.
  unfold block_used. rewrite (bitmap_bit_wf s BlockMap _ gd bm) by done.
  destruct (bitat bm (block_bit_of s b)) eqn:E; [done|].
  assert (0 < count_clear (bitat bm) (Z.to_nat (bm_size BlockMap (geo s)))); [|lia].
  apply count_clear_pos. exists (block_bit_of s b). cbn. split; [lia|done].
Qed.

(** ** [ext2_new_block] *)

Lemma wp_new_block_pass (Q : option (Z * option (Z * Z)) -> m_ext2fs -> Prop) goal prealloc s :
  wf s -> s_lock s = true ->
  (forall g j m r s', allocated s prealloc g j m r s' ->
     (block_used s (clamp_goal s goal) = false -> blockno s g j = clamp_goal s goal) ->
     Q (Some r) s') ->
  (s_free_blocks_count (s_es s) = 0 -> Q (Some (0, None)) (set_lock false s)) ->
  wp (new_block_pass goal prealloc) Q s.
Proof.
  intros W L HQ HF. pose proof (wf_geometry _ W) as G. unfold new_block_pass. wp_steps.
  cbn [id]. fold (clamp_goal s goal). set (goal' := clamp_goal s goal).
  pose proof (clamp_goal_spec s goal W) as Hgoal. fold goal' in Hgoal.
  destruct (block_group_ok s goal' W Hgoal) as (Hg & Hbit & Hbb).
  unfold block_group_of, block_bit_of in *.
  pose proof (wg_groups _ _ G). destruct (wg_size _ _ G BlockMap) as [Hs _]. cbn [bm_size] in Hs.
  pose proof Hg as Hg1. unfold is_group in Hg1. mach.
  set (g := (goal' - s_first_data_block (s_es s)) / e2fs_bpg (geo s)) in *.
  set (j := (goal' - s_first_data_block (s_es s)) mod e2fs_bpg (geo s)) in *.
  destruct (wf_gd s g W Hg) as [gd Hgd].
  destruct (wf_group_bitmap s g BlockMap gd W Hg Hgd) as [bm B].
  assert (block_used s goal' = bitat bm j) as EU by by apply (bitmap_bit_wf s BlockMap g gd bm).
  eapply wp_get_group_desc; [done..|]. wp_steps. eapply wp_gd_load; [done|].
  assert (bitat bm j = true -> wp (search_rest prealloc g) Q s) as Hrest.
  { intros Hset. apply wp_search_rest; try done. intros g' j' m r s' A. apply (HQ g' j' m r s' A).
    fold goal'. by rewrite EU, Hset. }
  pose proof (wb_count _ _ _ _ _ B) as Hc. cbn [bm_free bm_size] in Hc.
  destruct (Z.ltb_spec 0 (bg_free_blocks_count gd)) as [Hpos|Hz].
  2:{ apply Hrest. destruct (bitat bm j) eqn:E; [done|].
      pose proof (proj2 (count_clear_pos (bitat bm) (Z.to_nat (e2fs_bpg (geo s))))) as P.
      specialize (P ltac:(exists j; split; [lia|done])). lia. }
  wp_steps. eapply wp_load_bitmap_buf; try done. wp_steps. eapply wp_buf_data; [apply B|]. wp_steps.
  destruct (wf_nbits _ _ _ _ _ W B) as (_ & D & Hn). cbn [bm_size] in Hn.
  destruct (goal_search_ok (e2fs_bpg (geo s)) bm) with (j := j) as (sr & Hsr & Ok & Hfree);
    [apply B|done|apply G|done|done|done|].
  eapply wp_access; [exact Hsr|].
  assert (sr <> NotFound -> wp (finish_search prealloc sr g (gdp_of (geo s) g)
            (fsbtodb (geo s) (bg_block_bitmap gd)) (gdp_of (geo s) g).1) Q s) as Hfin.
  { intros NF. eapply wp_finish_search; try done. intros j' m r s' A Hk.
    apply (HQ g j' m r s' A). fold goal'. rewrite EU. intros Hcl. rewrite (Hk j (Hfree Hcl)). done. }
  destruct sr as [k|k|]; [by apply Hfin|by apply Hfin|].
  apply Hrest. destruct (bitat bm j) eqn:E; [done|]. by specialize (Hfree eq_refl).
Qed.

Lemma wf_bitmap_lock l s k g gd bm : wf_bitmap (set_lock l s) k g gd bm -> wf_bitmap s k g gd bm.
Proof. by intros []. Qed.

Lemma taken_lock l s g j m s' : taken (set_lock l s) g j m s' -> taken s g j m s'.
Proof.
  intros [H1 H2 (gd & gd' & bm & bm' & E & B & S & F & [] & Wr) H4 H5]. split; try done.
  exists gd, gd', bm, bm'. split_and!; try done. by apply (wf_bitmap_lock l).
Qed.

Lemma allocated_lock l s p g j m r s' :
  allocated (set_lock l s) p g j m r s' -> allocated s p g j m r s'.
Proof. intros []. split; try done. by apply (taken_lock l). Qed.

Lemma wf_lock l s : wf s -> wf (set_lock l s).
Proof. by apply wf_same_core. Qed.

(** The whole routine, started without the lock. *)
Lemma wp_new_block (Q : Z * option (Z * Z) -> m_ext2fs -> Prop) goal prealloc s :
  wf s -> s_lock s = false ->
  (forall g j m r s', allocated s prealloc g j m r s' ->
     (block_used s (clamp_goal s goal) = false -> blockno s g j = clamp_goal s goal) -> Q r s') ->
  (s_free_blocks_count (s_es s) = 0 -> Q (0, None) s) ->
  wp (ext2_new_block goal prealloc) Q s.
Proof.
  intros W L HQ HF. unfold ext2_new_block. wp_steps. apply wp_lock_super; [done|].
  cbn [new_block_repeat]. wp_steps. apply wp_new_block_pass; [by apply wf_lock|done| |].
  - intros g j m r s' A Hgoal. wp_steps. apply (HQ g j m r s'); [by apply (allocated_lock true)|done].
  - intros Hz. wp_steps. rewrite set_lock_twice, set_lock_same by done. by apply HF.
Qed.

(** An allocation's effect on the set of used blocks. *)
Lemma allocated_used s p g j m r s' :
  wf s -> allocated s p g j m r s' ->
  used_blocks s' = used_blocks s ∪ zone (blockno s g j) (blockno s g j + m + 1) /\
  zone (blockno s g j) (blockno s g j + m + 1) ⊆ data_zone s ∖ used_blocks s /\
  blockno s g j <> 0.
Proof.
  intros W [Hg (Hj & Hm & Hjm) _ _ T].
  destruct (tk_bits _ _ _ _ _ T) as (gd & gd' & bm & bm' & Hgd & B & S & _ & C & _).
  assert (forall i, j <= i < j + (m + 1) -> ~ reserved s BlockMap g gd i) as NR.
  { intros i Hi. apply (free_not_reserved s g gd bm i W Hg B); [lia|]. by apply (bs_clear _ _ _ _ S). }
  assert (forall b, blockno s g j <= b <= blockno s g j + m ->
            s_first_data_block (s_es s) <= b < s_blocks_count (s_es s)) as Hz.
  { intros b Hb. specialize (NR (b - blockno s g 0) ltac:(unfold blockno in *; lia)).
    pose proof (blockno_bound s g j W Hg ltac:(lia)). destruct (wg_size _ _ (wf_geometry _ W) BlockMap).
    unfold reserved, blockno, is_group in *. cbn [bm_size] in *. nia. }
  split_and!.
  - apply set_eq. intros b. rewrite elem_of_union, !elem_of_used, elem_of_zone.
    rewrite (bc_es _ _ _ _ _ _ _ C). cbn [es_set_free es_set_free_blocks s_first_data_block s_blocks_count].
    split.
    + intros [U Hb]. destruct (taken_used s g j m s' b) as [E _]; try done.
      rewrite E in U. apply orb_true_iff in U as [U|U]; [by left|]. apply bool_decide_eq_true in U. right; lia.
    + intros HU. assert (s_first_data_block (s_es s) <= b < s_blocks_count (s_es s)) as Hb.
      { destruct HU as [[_ ?]|?]; [done|]. apply Hz. lia. }
      split; [|done]. destruct (taken_used s g j m s' b) as [E _]; try done. rewrite E.
      apply orb_true_iff. destruct HU as [[? _]|?]; [by left|]. right. apply bool_decide_eq_true. lia.
  - intros b. rewrite elem_of_difference, elem_of_used, elem_of_zone. unfold data_zone. rewrite elem_of_zone.
    intros Hb. split; [apply Hz; lia|]. intros [U Hb'].
    destruct (taken_used s g j m s' b) as [_ E]; try done. rewrite E in U by lia. done.
  - specialize (NR j ltac:(lia)). unfold reserved in NR. lia.
Qed.

(** ** [ext2_free_blocks] *)

(** [bits_cleared bm bm' lo m x]: the [m] bits from [lo] on are clear in [bm'], [x]
    of them were set in [bm]; the other bits are the same. *)
Record bits_cleared (bm bm' : list Z) (lo m x : Z) : Prop := {
  bcl_bits : forall i, 0 <= i -> bitat bm' i = if decide (lo <= i < lo + m) then false else bitat bm i;
  bcl_length : length bm' = length bm;
  bcl_wf : wf_bytes bm -> wf_bytes bm';
  bcl_x : 0 <= x <= m;
  bcl_count : forall n, lo + m <= Z.of_nat n ->
    count_clear (bitat bm') n = count_clear (bitat bm) n + x;
  bcl_all : (forall i, lo <= i < lo + m -> bitat bm i = true) -> x = m;
}.

Lemma bits_cleared_nil bm lo : bits_cleared bm bm lo 0 0.
Proof.
  split; [|done|done|lia| |done].
  - intros. by rewrite decide_False by lia.
  - intros. lia.
Qed.

Lemma bits_cleared_cons bm bm1 bm2 lo m x :
  0 <= lo -> 0 <= m -> bit_updated bm bm1 lo false -> bits_cleared bm1 bm2 (lo + 1) m x ->
  bits_cleared bm bm2 lo (m + 1) (x + if bitat bm lo then 1 else 0).
Proof.
  intros Hlo Hm [U1 U2 U3] [B1 B2 B3 B4 B5 B6]. split; [|congruence|auto| | |].
  - intros i Hi. rewrite B1, U1 by done.
    destruct (decide (lo + 1 <= i < lo + 1 + m)), (decide (i = lo)), (decide (lo <= i < lo + (m + 1)));
      (lia || done).
  - destruct (bitat bm lo); lia.
  - intros n Hn. rewrite B5 by lia. destruct (bitat bm lo) eqn:E.
    + rewrite (count_clear_set (bitat bm1) (bitat bm) n lo); [lia|lia| |done|].
      * rewrite U1 by done. by rewrite decide_True.
      * intros i Hi Hne. rewrite U1 by lia. by rewrite decide_False.
    + rewrite (count_clear_ext (bitat bm1) (bitat bm)); [lia|]. intros i Hi. rewrite U1 by lia.
      destruct (decide (i = lo)) as [->|]; done.
  - intros Hall. rewrite (Hall lo) by lia. rewrite B6; [lia|]. intros i Hi. rewrite U1 by lia.
    rewrite decide_False by lia. apply Hall. lia.
Qed.

Lemma bm_changed_set_dev s s2 g gd gd1 bm bm' :
  bm_changed s s2 BlockMap g gd gd1 bm ->
  bm_changed s (set_dev (fsbtodb (geo s) (bg_block_bitmap gd)) bm' s2) BlockMap g gd gd1 bm'.
Proof.
  intros [C1 C2 C3 C4 C5 C6 C7 C8 C9]. split; try done. cbn. rewrite C8. by rewrite insert_insert_eq.
Qed.

(** The free counts in the middle of a release. *)
Definition free_inv (s : m_ext2fs) (g : Z) (gd gd1 : group_desc) (bm : list Z) (s2 : m_ext2fs) : Prop :=
  bm_changed s s2 BlockMap g gd gd1 bm /\
  bg_free_blocks_count gd1 = count_clear (bitat bm) (Z.to_nat (e2fs_bpg (geo s))) /\
  s_lock s2 = true.

Lemma wp_free_bits n (Q : unit -> m_ext2fs -> Prop) s s2 g gd gd1 bm bit i :
  wf s -> is_group s g -> gd_of s g = Some gd -> (exists bm0, wf_bitmap s BlockMap g gd bm0) ->
  free_inv s g gd gd1 bm s2 -> 0 <= bit -> 0 <= i ->
  bit + i + Z.of_nat n <= e2fs_bpg (geo s) -> e2fs_bpg (geo s) <= nbits bm ->
  (forall s3 gd3 bm3 x, free_inv s g gd gd3 bm3 s3 ->
     bits_cleared bm bm3 (bit + i) (Z.of_nat n) x -> Q tt s3) ->
  wp (free_bits n (gdp_of (geo s) g) (fsbtodb (geo s) (bg_block_bitmap gd)) bit i) Q s2.
Proof.
  intros W Hg Hgd [bm0 B0]. destruct (free_counts s BlockMap g gd bm0 W Hg Hgd B0) as [F1 F2].
  destruct (wg_size _ _ (wf_geometry _ W) BlockMap) as [Hs _]. cbn [bm_free es_free bm_size] in F1, F2, Hs.
  revert s2 gd1 bm i. induction n as [|n IH]; intros s2 gd1 bm i Inv Hbit Hi Hn Hnb HQ; cbn [free_bits].
  { wp_steps. apply (HQ s2 gd1 bm 0 Inv), bits_cleared_nil. }
  destruct Inv as (C & Hc & L). pose proof C as [C1 C2 C3 _ _ _ _ C8 _]. cbn [bm_free] in C2.
  wp_steps. eapply wp_buf_data; [by rewrite C8; apply lookup_insert_eq|]. mach.
  destruct (clear_bit_ok (bit + i) bm) as (bm1 & Hclr & U); [lia|].
  pose proof (bm_changed_set_dev s s2 g gd gd1 bm bm1 C) as C'.
  assert (nbits bm1 = nbits bm) as Enb by (unfold nbits; by rewrite (bu_length _ _ _ _ U)).
  pose proof (count_clear_bound (bitat bm1) (Z.to_nat (e2fs_bpg (geo s)))) as Hb1.
  wp_steps. eapply wp_access; [exact Hclr|]. unfold buf_store, gd_store. wp_steps.
  assert (forall s4 gd4, free_inv s g gd gd4 bm1 s4 ->
            wp (free_bits n (gdp_of (geo s) g) (fsbtodb (geo s) (bg_block_bitmap gd)) bit (i + 1)) Q s4)
    as Hnext.
  { intros s4 gd4 Inv4. eapply (IH s4 gd4 bm1 (i + 1)); [done|done|lia|lia|by rewrite Enb|].
    intros s3 gd3 bm3 x Inv3 Hx. eapply HQ; [exact Inv3|].
    replace (Z.of_nat (S n)) with (Z.of_nat n + 1) by lia.
    eapply bits_cleared_cons; [lia|lia|done|]. by replace (bit + i + 1) with (bit + (i + 1)) by lia. }
  destruct (bitat bm (bit + i)) eqn:E; wp_steps.
  - set (s3 := set_dev _ bm1 s2) in *.
    assert (gd_of s3 g = Some gd1) as Eg by (rewrite (bc_gd _ _ _ _ _ _ _ C') by done; by rewrite decide_True).
    assert (geo s3 = geo s) as Eg3 by done.
    rewrite <- Eg3. eapply wp_gd_load; [exact Eg|]. wp_steps. rewrite Eg3.
    assert (count_clear (bitat bm1) (Z.to_nat (e2fs_bpg (geo s)))
            = bg_free_blocks_count gd1 + 1) as Hc1.
    { rewrite Hc, (count_clear_set (bitat bm1) (bitat bm) _ (bit + i)); [lia|lia| |done|].
      - rewrite (bu_bits _ _ _ _ U) by lia. by rewrite decide_True.
      - intros k Hk Hne. rewrite (bu_bits _ _ _ _ U) by lia. by rewrite decide_False. }
    apply (Hnext _ (gd_set_free_blocks (bg_free_blocks_count gd1 - (-1)) gd1)).
    pose proof (count_clear_bound (bitat bm) (Z.to_nat (e2fs_bpg (geo s)))).
    assert (s_es s3 = s_es s2) as Ees by done.
    split_and!; [|cbn; lia|done].
    apply (bm_changed_counts s s3); try done.
    + cbn. rewrite C2. cbn. mach. f_equal; lia.
    + intros g' Hg'. replace (bg_free_blocks_count gd1 - -1) with (bg_free_blocks_count gd1 + 1) by lia.
      rewrite (uintw_small 16) by lia. rewrite <- Eg3.
      rewrite <- (gd_of_update s3 (s_es s) g g'); [done|rewrite Eg3; apply W|apply Hg|done].
  - apply (Hnext _ gd1). split_and!; [done| |done].
    rewrite Hc. apply count_clear_ext. intros k Hk. rewrite (bu_bits _ _ _ _ U) by lia.
    destruct (decide (k = bit + i)) as [->|]; done.
Qed.

(** What a caller must guarantee: a range inside the data zone and inside one
    group, which meets neither block 0 nor the group's own metadata. *)
Record freeable (s : m_ext2fs) (block count : Z) : Prop := {
  fr_count : 0 < count;
  fr_block : s_first_data_block (s_es s) <= block /\ block + count <= s_blocks_count (s_es s);
  fr_group : block_bit_of s block + count <= e2fs_bpg (geo s);
  fr_system : forall gd b, gd_of s (block_group_of s block) = Some gd -> block <= b < block + count ->
    b <> 0 /\ b <> bg_block_bitmap gd /\ b <> bg_inode_bitmap gd /\
    ~ (bg_inode_table gd <= b < bg_inode_table gd + e2fs_itpg (geo s));
}.

(** The state after [count] blocks were released, [x] of which were in use. *)
Record freed (s : m_ext2fs) (block count x : Z) (s' : m_ext2fs) : Prop := {
  fd_wf : wf s';
  fd_lock : s_lock s' = false;
  fd_dirt : s_dirt s' = true;
  fd_gd_dirty : (gdp_of (geo s) (block_group_of s block)).1 ∈ s_gd_dirty s';
  fd_bits : exists gd gd' bm bm',
    gd_of s (block_group_of s block) = Some gd /\
    wf_bitmap s BlockMap (block_group_of s block) gd bm /\
    bits_cleared bm bm' (block_bit_of s block) count x /\
    bm_free BlockMap gd' = bm_free BlockMap gd + x /\
    bm_changed s s' BlockMap (block_group_of s block) gd gd' bm' /\
    fsbtodb (geo s) (bg_block_bitmap gd) ∈ written s';
}.

(** The range test against the system zones passes on a freeable range. *)
Lemma freeable_zones s block count gd :
  wf s -> freeable s block count -> gd_of s (block_group_of s block) = Some gd ->
  0 <= bg_inode_table gd < 2 ^ 32 ->
  in_range (bg_block_bitmap gd) block count || in_range (bg_inode_bitmap gd) block count
  || in_range block (bg_inode_table gd) (e2fs_itpg (geo s))
  || in_range (block + count - 1) (bg_inode_table gd) (e2fs_itpg (geo s)) = false.
Proof.
  intros W [F1 F2 F3 F4] Hgd Ht. pose proof (blocks_count_small _ _ (wf_geometry _ W)).
  pose proof (wg_first _ _ (wf_geometry _ W)). pose proof (wg_itpg _ _ (wf_geometry _ W)).
  pose proof (fun b => F4 gd b Hgd) as F. unfold in_range. mach.
  pose proof (F block) as Fa. pose proof (F (block + count - 1)) as Fz.
  pose proof (F (bg_block_bitmap gd)) as Fb. pose proof (F (bg_inode_bitmap gd)) as Fi.
  rewrite !orb_false_iff, !andb_false_iff, !Z.leb_gt. lia.
Qed.

Lemma freeable_group s block count :
  wf s -> freeable s block count ->
  is_group s (block_group_of s block) /\ 0 <= block_bit_of s block /\
  blockno s (block_group_of s block) (block_bit_of s block) = block.
Proof.
  intros W [F1 F2 F3 F4]. destruct (block_group_ok s block W) as (? & ? & ?); [lia|].
  split; [done|]. split; [lia|done].
Qed.

Lemma freed_intro s block count x gd gd3 bm bm3 s' :
  wf s -> freeable s block count -> gd_of s (block_group_of s block) = Some gd ->
  wf_bitmap s BlockMap (block_group_of s block) gd bm ->
  bits_cleared bm bm3 (block_bit_of s block) count x ->
  bg_free_blocks_count gd3 = count_clear (bitat bm3) (Z.to_nat (e2fs_bpg (geo s))) ->
  bm_changed s s' BlockMap (block_group_of s block) gd gd3 bm3 ->
  s_lock s' = false -> s_dirt s' = true ->
  (gdp_of (geo s) (block_group_of s block)).1 ∈ s_gd_dirty s' ->
  fsbtodb (geo s) (bg_block_bitmap gd) ∈ written s' ->
  freed s block count x s'.
Proof.
  intros W F Hgd B BC Hc C L D GD Wr.
  destruct (freeable_group s block count W F) as (Hg & Hbit & Hbb). pose proof BC as [B1 B2 B3 B4 B5 B6].
  split; [|done..|].
  - eapply (bm_changed_wf s s'); try done; [by apply B3, B|].
    intros n Hn Hr. rewrite B1 by lia. destruct (decide _) as [Hin|]; [|by apply (wb_reserved _ _ _ _ _ B)].
    unfold reserved in Hr. pose proof (fr_block _ _ _ F).
    destruct (fr_system _ _ _ F gd (blockno s (block_group_of s block) n) Hgd); unfold blockno in *; lia.
  - exists gd, gd3, bm, bm3. split_and!; try done. cbn [bm_free].
    rewrite Hc, B5 by (pose proof (fr_group _ _ _ F); destruct (wg_size _ _ (wf_geometry _ W) BlockMap); cbn [bm_size] in *; lia).
    pose proof (wb_count _ _ _ _ _ B) as E. cbn [bm_free bm_size] in E. lia.
Qed.

Lemma wp_ext2_free_blocks (Q : unit -> m_ext2fs -> Prop) s block count :
  wf s -> s_lock s = false -> freeable s block count ->
  (forall s' x, freed s block count x s' -> Q tt s') ->
  wp (ext2_free_blocks block count) Q s.
Proof.
  intros W L F HQ. destruct (freeable_group s block count W F) as (Hg & Hbit & Hbb).
  pose proof (wf_geometry _ W) as G. pose proof (blocks_count_small _ _ G).
  pose proof (wg_first _ _ G). pose proof (fr_block _ _ _ F). pose proof (fr_count _ _ _ F).
  pose proof (fr_group _ _ _ F). destruct (wg_size _ _ G BlockMap) as [Hs _]. cbn [bm_size] in Hs.
  destruct (wf_groups _ W _ Hg) as (gd & Hgd & Ht & _ & HB). destruct (HB BlockMap) as [bm B].
  pose proof (freeable_zones s block count gd W F Hgd Ht) as Hz.
  destruct (wf_nbits _ _ _ _ _ W B) as (_ & _ & Hn). cbn [bm_size] in Hn.
  unfold ext2_free_blocks. wp_steps. apply wp_lock_super; [done|]. wp_steps.
  cbn [id geo s_es set_lock].
  fold (block_group_of s block) (block_bit_of s block).
  set (g := block_group_of s block) in *. set (bit := block_bit_of s block) in *. mach.
  rewrite (proj2 (Z.ltb_ge block _)), (proj2 (Z.ltb_ge (s_blocks_count _) _)) by lia. cbn [orb].
  rewrite (proj2 (Z.ltb_ge _ (bit + count))) by lia. wp_steps.
  set (s1 := set_lock true s). assert (wf s1) as W1 by by apply wf_lock.
  assert (wf_bitmap s1 BlockMap g gd bm) as B1 by by destruct B.
  eapply (wp_load_bitmap_buf _ s1 g gd bm); [done..|]. wp_steps.
  eapply (wp_get_group_desc _ s1 g gd); [apply W1|done|done|]. wp_steps.
  eapply (wp_gd_load _ s1 g gd); [done|]. rewrite Hz. wp_steps.
  eapply (wp_free_bits _ _ s1 s1 g gd gd bm bit 0); try done; [by exists bm| |cbn; lia|cbn; lia|].
  { pose proof (bm_changed_dev s1 g gd bm W1 Hg Hgd) as C.
    rewrite set_dev_id in C by apply B1. split; [done|]. split; [apply B|done]. }
  intros s3 gd3 bm3 x (C & Hc & L3) BC. rewrite Z.add_0_r, Z2Nat.id in BC by lia.
  wp_steps. unfold mark_buffer_dirty. wp_steps. apply wp_unlock_super; [done|].
  unfold buf_write. wp_steps. apply (HQ _ x). eapply freed_intro; try done.
  - destruct C as [C1 C2 C3 C4 C5 C6 C7 C8 C9]. by split.
  - cbn. set_solver.
  - cbn. set_solver.
Qed.

(** A release's effect on the set of used blocks. *)
Lemma freed_used s block count x s' :
  wf s -> freeable s block count -> freed s block count x s' ->
  used_blocks s' = used_blocks s ∖ zone block (block + count) /\
  (zone block (block + count) ⊆ used_blocks s -> x = count).
Proof.
  intros W F [_ _ _ _ (gd & gd' & bm & bm' & Hgd & B & BC & _ & C & _)].
  destruct (freeable_group s block count W F) as (Hg & Hbit & Hbb).
  pose proof (fr_block _ _ _ F). pose proof (fr_count _ _ _ F). pose proof (fr_group _ _ _ F).
  set (g := block_group_of s block) in *. set (bit := block_bit_of s block) in *.
  assert (forall b, s_first_data_block (s_es s) <= b < s_blocks_count (s_es s) ->
            block_used s' b = block_used s b && bool_decide (~ block <= b < block + count) /\
            (block <= b < block + count -> block_used s b = bitat bm (bit + (b - block)))) as HU.
  { intros b Hb. destruct (block_group_ok s b W Hb) as (Hgb & Hbitb & Hbbb).
    unfold block_used, block_group_of, block_bit_of.
    rewrite (bc_geo _ _ _ _ _ _ _ C), (bc_es _ _ _ _ _ _ _ C).
    cbn [es_set_free es_set_free_blocks s_first_data_block].
    fold (block_group_of s b) (block_bit_of s b).
    rewrite (bitmap_bit_changed s s' BlockMap g gd gd' bm') by done.
    unfold blockno, is_group in *.
    destruct (decide (BlockMap = BlockMap /\ block_group_of s b = g)) as [[_ Eg]|N].
    - rewrite Eg, (bitmap_bit_wf s BlockMap g gd bm) by done. rewrite Eg in Hbbb.
      split; [|intros; f_equal; lia].
      rewrite (bcl_bits _ _ _ _ _ BC) by lia. destruct (decide _) as [D|D].
      + rewrite bool_decide_eq_false_2, andb_false_r; [done|lia].
      + rewrite bool_decide_eq_true_2, andb_true_r; [done|lia].
    - assert (~ block <= b < block + count) as Hout.
      { intros Hin. apply N. split; [done|]. nia. }
      rewrite bool_decide_eq_true_2, andb_true_r by done. split; [done|]. lia. }
  split.
  - apply set_eq. intros b. rewrite elem_of_difference, !elem_of_used, elem_of_zone.
    rewrite (bc_es _ _ _ _ _ _ _ C). cbn [es_set_free es_set_free_blocks s_first_data_block s_blocks_count].
    split.
    + intros [U Hb]. destruct (HU b Hb) as [E _]. rewrite E, andb_true_iff, bool_decide_eq_true in U. tauto.
    + intros [[U Hb] Hout]. destruct (HU b Hb) as [E _]. rewrite E, andb_true_iff, bool_decide_eq_true. tauto.
  - intros Hall. apply (bcl_all _ _ _ _ _ BC). intros i Hi.
    assert (block + (i - bit) ∈ used_blocks s) as Hin by (apply Hall, elem_of_zone; lia).
    apply elem_of_used in Hin as [U Hb]. destruct (HU _ Hb) as [_ E]. rewrite E in U by lia.
    by replace (bit + (block + (i - bit) - block)) with i in U by lia.
Qed.

(** A block just taken can be freed. *)
Lemma taken_freeable s g j s1 :
  wf s -> is_group s g -> 0 <= j < e2fs_bpg (geo s) -> taken s g j 0 s1 ->
  freeable s1 (blockno s g j) 1.
Proof.
  intros W Hg Hj T. destruct (tk_bits _ _ _ _ _ T) as (gd & gd' & bm & bm' & Hgd & B & S & _ & C & _).
  assert (block_group_of s1 (blockno s g j) = g /\ block_bit_of s1 (blockno s g j) = j) as [Eg Ej].
  { unfold block_group_of, block_bit_of, blockno.
    rewrite (bc_geo _ _ _ _ _ _ _ C), (bc_es _ _ _ _ _ _ _ C).
    cbn [es_set_free es_set_free_blocks s_first_data_block].
    rewrite Z.add_simpl_r, Z.div_add, Z.div_small, Z.mod_add, Z.mod_small by lia. lia. }
  pose proof (free_not_reserved s g gd bm j W Hg B Hj) as NR.
  rewrite (bs_clear _ _ _ _ S) in NR by lia. specialize (NR eq_refl). unfold reserved in NR.
  split; [lia| | |].
  - rewrite (bc_es _ _ _ _ _ _ _ C). cbn [es_set_free es_set_free_blocks s_first_data_block s_blocks_count].
    unfold blockno, is_group in *. nia.
  - rewrite Ej, (bc_geo _ _ _ _ _ _ _ C). lia.
  - intros gd1 x. rewrite Eg, (bc_gd _ _ _ _ _ _ _ C), decide_True by done. intros [= <-] Hx.
    replace x with (blockno s g j) by lia. rewrite (bc_geo _ _ _ _ _ _ _ C).
    pose proof (bc_same_block _ _ _ _ _ _ _ C BlockMap) as S1.
    pose proof (bc_same_block _ _ _ _ _ _ _ C InodeMap) as S2. cbn [bm_block] in S1, S2.
    rewrite S1, S2, (bc_same_table _ _ _ _ _ _ _ C). lia.
Qed.

(** ** Sparse groups *)

Lemma test_root_loop_ok fuel a b :
  1 < b -> 0 < a -> (Z.to_nat a < fuel)%nat ->
  exists r, test_root_loop fuel a b = Some r /\ (r = true <-> exists n, 0 <= n /\ a = b ^ n).
Proof.
  revert a. induction fuel as [|fuel IH]; intros a Hb Ha Hf; [lia|]. cbn [test_root_loop].
  destruct (Z.eqb_spec a 1) as [->|Ha1].
  { exists true. split; [done|]. split; [|done]. intros _. by exists 0. }
  rewrite Z.rem_mod_nonneg, Z.quot_div_nonneg by lia. pose proof (Z.div_mod a b ltac:(lia)) as D.
  pose proof (Z.mod_pos_bound a b ltac:(lia)).
  assert (forall n, 0 <= n -> a = b ^ n -> 0 < n /\ b ^ n = b * b ^ (n - 1)) as Hpow.
  { intros n Hn ->. destruct (decide (n = 0)) as [->|]; [done|]. split; [lia|].
    rewrite <- Z.pow_succ_r by lia. f_equal; lia. }
  destruct (Z.eqb_spec (a mod b) 0) as [E|N]; cbn [negb].
  - rewrite E, Z.add_0_r in D. assert (a / b < a) by nia. assert (0 < a / b) by nia.
    destruct (IH (a / b)) as (r & -> & Hr); [done|lia|lia|]. exists r. split; [done|]. rewrite Hr.
    split; intros (n & Hn & En).
    + exists (n + 1). split; [lia|]. rewrite Z.pow_add_r, Z.pow_1_r by lia. lia.
    + destruct (Hpow n Hn En) as [Hn0 Ep]. exists (n - 1). split; [lia|]. nia.
  - exists false. split; [done|]. split; [done|]. intros (n & Hn & En). exfalso. apply N.
    destruct (Hpow n Hn En) as [Hn0 Ep]. rewrite En, Ep, Z.mul_comm. apply Z.mod_mul. lia.
Qed.

Lemma test_root_ok a b :
  1 < b -> 0 <= a ->
  exists r, test_root a b = Some r /\ (r = true <-> a = 0 \/ exists n, 0 <= n /\ a = b ^ n).
Proof.
  intros Hb Ha. unfold test_root. destruct (Z.eqb_spec a 0) as [->|].
  { exists true. split; [done|]. split; [by left|done]. }
  destruct (test_root_loop_ok (Z.to_nat (Z.abs a) + 1) a b) as (r & -> & Hr); [lia..|].
  exists r. split; [done|]. rewrite Hr. split; [by right|]. intros [|]; [lia|done].
Qed.

(** ** Properties *)

(** C1: On a well-formed file system [ext2_new_block] neither panics nor leaves the
    bitmap buffer, finishes in one pass, keeps the file system well-formed, gives
    the lock back, and implements the abstract allocator: it fails with 0 only on
    a full file system, hands out a free block of the data zone (the goal, if that
    is free) and preallocates exactly the free blocks it reports behind it. *)
Theorem ext2_new_block_refines s goal prealloc :
  wf s -> s_lock s = false ->
  exists b m pre s',
    ext2_new_block goal prealloc s = Ret (b, pre) s' /\ wf s' /\ s_lock s' = false /\
    abs_alloc (data_zone s) (clamp_goal s goal) (used_blocks s) b m (used_blocks s') /\
    (prealloc = false -> m = 0) /\
    pre = (if prealloc && negb (b =? 0) then Some (m, b + 1) else None).
Proof.
  intros W L.
  enough (wp (ext2_new_block goal prealloc) (fun r s' => exists m, wf s' /\ s_lock s' = false /\
    abs_alloc (data_zone s) (clamp_goal s goal) (used_blocks s) r.1 m (used_blocks s') /\
    (prealloc = false -> m = 0) /\
    r.2 = (if prealloc && negb (r.1 =? 0) then Some (m, r.1 + 1) else None)) s) as H.
  { apply wp_run in H as ([b pre] & s' & E & m & HQ). by exists b, m, pre, s'. }
  apply wp_new_block; [done|done| |].
  - intros g j m r s' A Hgoal. destruct (allocated_used s prealloc g j m r s' W A) as (U & D & N0).
    destruct A as [Hg Hr Hp -> T]. exists m. cbn.
    split; [apply T|]. split; [apply T|]. split; [|split; [done|]].
    + rewrite U. constructor; [done|lia|done|]. rewrite elem_of_difference, elem_of_used.
      unfold data_zone. rewrite elem_of_zone. intros [Hz HNU]. apply Hgoal.
      destruct (block_used s (clamp_goal s goal)); [|done]. tauto.
    + rewrite (proj2 (Z.eqb_neq _ _)) by done. by destruct prealloc.
  - intros Hz. exists 0. cbn. rewrite andb_false_r. split_and!; try done.
    apply abs_full. by apply no_free_full.
Qed.

Lemma ext2_new_block_refines_witness :
  wf example_fs /\ exists b m pre s',
    ext2_new_block 40 true example_fs = Ret (b, pre) s' /\ wf s' /\ s_lock s' = false /\
    abs_alloc (data_zone example_fs) (clamp_goal example_fs 40) (used_blocks example_fs) b m (used_blocks s') /\
    (true = false -> m = 0) /\
    pre = (if true && negb (b =? 0) then Some (m, b + 1) else None).
Proof.
  split; [exact example_fs_wf|].
  exact (ext2_new_block_refines example_fs 40 true example_fs_wf eq_refl).
Defined.

(** A successful allocation is accounted for and reaches the disk: the free
    counts of the superblock and of the block's group drop by one plus the number
    of preallocated blocks, the superblock is marked dirty, the descriptor block of
    that group is marked dirty and the block bitmap is written out. *)
Theorem ext2_new_block_accounts s goal prealloc b pre s' :
  wf s -> s_lock s = false -> ext2_new_block goal prealloc s = Ret (b, pre) s' -> b <> 0 ->
  let m := match pre with Some (m, _) => m | None => 0 end in
  let g := block_group_of s b in
  s_free_blocks_count (s_es s') = s_free_blocks_count (s_es s) - (m + 1) /\
  free_of s' BlockMap g = free_of s BlockMap g - (m + 1) /\
  (forall g', is_group s g' -> g' <> g -> gd_of s' g' = gd_of s g') /\
  s_dirt s' = true /\ (gdp_of (geo s) g).1 ∈ s_gd_dirty s' /\
  (exists gd, gd_of s g = Some gd /\ fsbtodb (geo s) (bg_block_bitmap gd) ∈ written s').
Proof.
  intros W L E Hb m g.
  pose proof (wp_new_block (fun r s' => (r.1 <> 0 -> exists g j m, allocated s prealloc g j m r s')) goal
    prealloc s W L) as H.
  unfold wp in H. rewrite E in H. destruct H as (g0 & j & m0 & A); [eauto|done|done|].
  destruct A as [Hg (Hj & Hm & Hjm) Hp Hr T]. injection Hr as -> Hpre.
  assert (g = g0) as ->.
  { unfold g, block_group_of, blockno. destruct (wg_size _ _ (wf_geometry _ W) BlockMap). cbn [bm_size] in *.
    rewrite Z.add_simpl_r, Z.div_add, Z.div_small by lia. lia. }
  assert (m = m0) as ->.
  { unfold m. rewrite Hpre. destruct prealloc; [done|]. by rewrite Hp. }
  destruct (tk_bits _ _ _ _ _ T) as (gd & gd' & bm & bm' & Hgd & B & S & F & C & Wr).
  split_and!; [| | |apply T|apply T|by exists gd].
  - rewrite (bc_es _ _ _ _ _ _ _ C), F. cbn. lia.
  - unfold free_of. rewrite (bc_gd _ _ _ _ _ _ _ C), decide_True, Hgd by done. done.
  - intros g' Hg' Hne. rewrite (bc_gd _ _ _ _ _ _ _ C), decide_False by done. done.
Qed.

Lemma ext2_new_block_accounts_witness :
  exists s', ext2_new_block 40 true example_fs = Ret (40, Some (7, 41)) s' /\
    s_free_blocks_count (s_es s') = 87 - 8 /\ free_of s' BlockMap 0 = 58 - 8.
Proof.
  destruct (ext2_new_block 40 true example_fs) as [[b pre] s'| | |] eqn:E;
    [|vm_compute in E; discriminate E..].
  exists s'. assert ((b, pre) = (40, Some (7, 41))) as H by (vm_compute in E; congruence).
  injection H as -> ->. split; [reflexivity|].
  pose proof (ext2_new_block_accounts example_fs 40 true 40 (Some (7, 41)) s' example_fs_wf eq_refl E
    ltac:(discriminate)) as (H1 & H2 & _).
  split; [exact H1|exact H2].
Defined.

(** C6: Freeing a range that lies in the data zone, in one group and outside that
    group's metadata never panics, keeps the file system well-formed, removes
    exactly the range from the used blocks, raises the free count of the superblock
    by the number of blocks that were in use ([count], when all were), and writes
    the bitmap and the descriptor block. *)
Theorem ext2_free_blocks_refines s block count :
  wf s -> s_lock s = false -> freeable s block count ->
  exists s' x, ext2_free_blocks block count s = Ret tt s' /\ wf s' /\ s_lock s' = false /\
    used_blocks s' = used_blocks s ∖ zone block (block + count) /\ 0 <= x <= count /\
    s_free_blocks_count (s_es s') = s_free_blocks_count (s_es s) + x /\
    (zone block (block + count) ⊆ used_blocks s -> x = count) /\
    s_dirt s' = true /\ (gdp_of (geo s) (block_group_of s block)).1 ∈ s_gd_dirty s' /\
    (exists gd, gd_of s (block_group_of s block) = Some gd /\
       fsbtodb (geo s) (bg_block_bitmap gd) ∈ written s').
Proof.
  intros W L F.
  assert (wp (ext2_free_blocks block count) (fun _ s' => exists x, freed s block count x s') s) as H.
  { apply wp_ext2_free_blocks; [done..|]. intros s' x ?. by exists x. }
  apply wp_run in H as ([] & s' & E & x & D). exists s', x.
  destruct (freed_used s block count x s' W F D) as [U A].
  destruct (fd_bits _ _ _ _ _ D) as (gd & gd' & bm & bm' & Hgd & B & BC & Hf & C & Wr).
  split_and!; try done; try apply D; try apply BC; [|by exists gd].
  rewrite (bc_es _ _ _ _ _ _ _ C), Hf. cbn. lia.
Qed.

Lemma ext2_free_blocks_refines_witness :
  exists s' x, ext2_free_blocks 71 3 example_fs = Ret tt s' /\ wf s' /\ s_lock s' = false /\
    used_blocks s' = used_blocks example_fs ∖ zone 71 (71 + 3) /\ 0 <= x <= 3 /\
    s_free_blocks_count (s_es s') = s_free_blocks_count (s_es example_fs) + x /\
    (zone 71 (71 + 3) ⊆ used_blocks example_fs -> x = 3) /\
    s_dirt s' = true /\
    (gdp_of (geo example_fs) (block_group_of example_fs 71)).1 ∈ s_gd_dirty s' /\
    (exists gd, gd_of example_fs (block_group_of example_fs 71) = Some gd /\
       fsbtodb (geo example_fs) (bg_block_bitmap gd) ∈ written s').
Proof.
  apply (ext2_free_blocks_refines example_fs 71 3); [exact example_fs_wf|reflexivity|].
  split; [lia|vm_compute; split; congruence|vm_compute; congruence|].
  intros gd b Hgd Hb. vm_compute in Hgd. injection Hgd as <-. cbn. lia.
Defined.

(** [ext2_free_blocks] refuses bad ranges before it touches anything: a range
    outside the data zone leaves the state as it is; a range in the data zone that
    crosses the end of its group, or whose first or last block is in the group's
    inode table, or that contains one of the group's bitmaps, panics. *)
Theorem ext2_free_blocks_rejects s block count :
  wf s -> s_lock s = false -> 0 <= block < 2 ^ 32 -> 0 < count < 2 ^ 32 ->
  let zone_ok := s_first_data_block (s_es s) <= block /\ block + count <= s_blocks_count (s_es s) in
  (~ zone_ok -> ext2_free_blocks block count s = Ret tt s) /\
  (zone_ok -> e2fs_bpg (geo s) < block_bit_of s block + count ->
   ext2_free_blocks block count s = Panic "ext2_free_blocks: Freeing blocks across group boundary") /\
  (zone_ok -> block_bit_of s block + count <= e2fs_bpg (geo s) ->
   forall gd, gd_of s (block_group_of s block) = Some gd ->
   (block <= bg_block_bitmap gd < block + count \/ block <= bg_inode_bitmap gd < block + count \/
    bg_inode_table gd <= block < bg_inode_table gd + e2fs_itpg (geo s) \/
    bg_inode_table gd <= block + count - 1 < bg_inode_table gd + e2fs_itpg (geo s)) ->
   ext2_free_blocks block count s = Panic "ext2_free_blocks: Freeing blocks in system zones").
Proof.
  intros W L Hb Hc zone_ok. pose proof (wf_geometry _ W) as G. pose proof (blocks_count_small _ _ G).
  pose proof (wg_first _ _ G). pose proof (wg_itpg _ _ G).
  destruct (wg_size _ _ G BlockMap) as [Hs _]. cbn [bm_size] in Hs.
  assert (0 <= block_bit_of s block < e2fs_bpg (geo s)) as Hbit by (apply Z.mod_pos_bound; lia).
  unfold ext2_free_blocks.
  rewrite (bind_run _ _ _ tt (set_lock true s)) by by apply wp_lock_super.
  rewrite (bind_run _ _ _ (set_lock true s) (set_lock true s)) by by apply wp_gets.
  cbn [geo s_es set_lock]. fold (block_group_of s block) (block_bit_of s block). mach.
  subst zone_ok. split_and!.
  - intros N. replace (_ || _) with true by (symmetry; apply orb_true_iff; rewrite !Z.ltb_lt; lia).
    unfold unlock_super, mbind, kern_bind, gets, modify. cbn [s_lock set_lock].
    rewrite set_lock_twice. by rewrite set_lock_same.
  - intros Z1 Z2. replace (_ || _) with false by (symmetry; apply orb_false_iff; rewrite !Z.ltb_ge; lia).
    by rewrite (proj2 (Z.ltb_lt _ _)).
  - intros Z1 Z2 gd Hgd Hsys. destruct (block_group_ok s block W ltac:(lia)) as (Hg & _ & _).
    replace (_ || _) with false by (symmetry; apply orb_false_iff; rewrite !Z.ltb_ge; lia).
    rewrite (proj2 (Z.ltb_ge _ _)) by lia.
    destruct (wf_group_bitmap s _ BlockMap gd W Hg Hgd) as [bm B].
    set (s1 := set_lock true s). assert (wf s1) as W1 by by apply wf_lock.
    rewrite (bind_run _ _ s1 (fsbtodb (geo s) (bg_block_bitmap gd)) s1)
      by (apply (wp_load_bitmap_buf _ s1 _ gd bm); [done..|by destruct B|done|done]).
    rewrite (bind_run _ _ s1 (gdp_of (geo s) (block_group_of s block),
               (gdp_of (geo s) (block_group_of s block)).1) s1)
      by (apply (wp_get_group_desc _ s1 _ gd); [apply W1|done|done|done]).
    rewrite (bind_run _ _ s1 gd s1) by (by apply (wp_gd_load _ s1 _ gd)).
    destruct (wf_groups _ W _ Hg) as (gd0 & E0 & Ht & _). rewrite Hgd in E0. injection E0 as <-.
    unfold in_range. mach. replace (_ || _) with true; [done|].
    symmetry. rewrite !orb_true_iff, !andb_true_iff, !Z.leb_le. lia.
Qed.

Lemma ext2_free_blocks_rejects_witness :
  ext2_free_blocks 90 20 example_fs = Ret tt example_fs /\
  ext2_free_blocks 60 8 example_fs = Panic "ext2_free_blocks: Freeing blocks across group boundary" /\
  ext2_free_blocks 2 3 example_fs = Panic "ext2_free_blocks: Freeing blocks in system zones".
Proof.
  split_and!.
  - apply (ext2_free_blocks_rejects example_fs 90 20); [exact example_fs_wf|done|lia|lia|].
    vm_compute. intros [_ H]. by apply H.
  - apply (ext2_free_blocks_rejects example_fs 60 8); [exact example_fs_wf|done|lia|lia|cbn; lia|].
    vm_compute. done.
  - eapply (ext2_free_blocks_rejects example_fs 2 3);
      [exact example_fs_wf|done|lia|lia|cbn; lia|vm_compute; congruence|reflexivity|cbn; lia].
Defined.

(** Allocating a block and freeing it again restores the set of used blocks and
    the superblock's free count. *)
Theorem alloc_free_roundtrip s goal b s1 :
  wf s -> s_lock s = false -> ext2_new_block goal false s = Ret (b, None) s1 -> b <> 0 ->
  exists s2, ext2_free_blocks b 1 s1 = Ret tt s2 /\ wf s2 /\
    used_blocks s2 = used_blocks s /\ data_zone s2 = data_zone s /\
    s_free_blocks_count (s_es s2) = s_free_blocks_count (s_es s).
Proof.
  intros W L E Hb.
  pose proof (wp_new_block (fun r s' => (r.1 <> 0 -> exists g j m, allocated s false g j m r s')) goal
    false s W L) as H.
  unfold wp in H. rewrite E in H. destruct H as (g & j & m & A); [eauto|done|done|].
  destruct (allocated_used s _ g j m _ s1 W A) as (U & D & _).
  destruct A as [Hg (Hj & Hm & Hjm) Hp Hr T]. rewrite (Hp eq_refl) in *. injection Hr as ->.
  destruct (tk_bits _ _ _ _ _ T) as (gd & gd' & bm & bm' & Hgd & B & S & F & C & _).
  pose proof (taken_freeable s g j s1 W Hg ltac:(lia) T) as Fr.
  assert (zone (blockno s g j) (blockno s g j + 1) = {[blockno s g j]}) as EZ.
  { apply set_eq. intros x. rewrite elem_of_zone, elem_of_singleton. lia. }
  replace (blockno s g j + 0 + 1) with (blockno s g j + 1) in U, D by lia. rewrite EZ in U, D.
  pose proof (wp_ext2_free_blocks (fun _ s' => exists x, freed s1 (blockno s g j) 1 x s') s1
    (blockno s g j) 1 (tk_wf _ _ _ _ _ T) (tk_lock _ _ _ _ _ T) Fr) as Hf.
  apply wp_run in Hf as ([] & s2 & E2 & x & Fd); [|by intros s' x ?; exists x].
  destruct (freed_used s1 _ 1 x s2 (tk_wf _ _ _ _ _ T) Fr Fd) as [U2 Hx].
  exists s2. split; [done|]. split; [apply Fd|].
  rewrite Hx in Fd by (rewrite EZ, U; apply union_subseteq_r).
  destruct (fd_bits _ _ _ _ _ Fd) as (g1 & g2 & b1 & b2 & Hg1 & B1 & BC1 & F1 & C1 & _).
  split_and!.
  - rewrite U2, U, EZ. assert (blockno s g j ∉ used_blocks s) as NU.
    { apply (elem_of_difference (C := gset Z) (data_zone s)), D, elem_of_singleton. done. }
    clear - NU. set_solver.
  - unfold data_zone. by rewrite (bc_es _ _ _ _ _ _ _ C1), (bc_es _ _ _ _ _ _ _ C).
  - rewrite (bc_es _ _ _ _ _ _ _ C1), F1, (bc_es _ _ _ _ _ _ _ C), F. cbn. lia.
Qed.

Lemma alloc_free_roundtrip_witness :
  exists s1 s2, ext2_new_block 40 false example_fs = Ret (40, None) s1 /\
    ext2_free_blocks 40 1 s1 = Ret tt s2 /\ used_blocks s2 = used_blocks example_fs.
Proof.
  destruct (ext2_new_block 40 false example_fs) as [[b pre] s1| | |] eqn:E;
    [|vm_compute in E; discriminate E..].
  assert ((b, pre) = (40, None)) as H by (vm_compute in E; congruence). injection H as -> ->.
  destruct (alloc_free_roundtrip example_fs 40 40 s1 example_fs_wf eq_refl E ltac:(discriminate))
    as (s2 & H1 & _ & H2 & _).
  exists s1, s2. split; [reflexivity|]. split; [exact H1|exact H2].
Defined.

(** [ext2_group_sparse] terminates on every group number and says yes exactly
    for 0 and the powers of 3, 5 and 7 (1 included). *)
Theorem ext2_group_sparse_powers group :
  0 <= group ->
  exists r, ext2_group_sparse group = Some r /\
    (r = true <-> group = 0 \/ exists p n, (p = 3 \/ p = 5 \/ p = 7) /\ 0 <= n /\ group = p ^ n).
Proof.
  intros H. unfold ext2_group_sparse.
  destruct (test_root_ok group 3) as (r3 & -> & H3); [lia|done|].
  destruct (test_root_ok group 5) as (r5 & -> & H5); [lia|done|].
  destruct (test_root_ok group 7) as (r7 & -> & H7); [lia|done|].
  exists (r3 || r5 || r7). split; [by destruct r3, r5|].
  rewrite !orb_true_iff, H3, H5, H7. split.
  - intros [[[|(n & ? & ?)]|[|(n & ? & ?)]]|[|(n & ? & ?)]]; [by left| |by left| |by left|]; right;
      [exists 3, n|exists 5, n|exists 7, n]; tauto.
  - intros [|(p & n & Hp & ? & ?)]; [tauto|]. destruct Hp as [-> | [-> | ->]]; eauto 8.
Qed.

Lemma ext2_group_sparse_powers_witness :
  0 <= 49 /\ exists r, ext2_group_sparse 49 = Some r /\
    (r = true <-> 49 = 0 \/ exists p n, (p = 3 \/ p = 5 \/ p = 7) /\ 0 <= n /\ 49 = p ^ n).
Proof. split; [lia|]. apply (ext2_group_sparse_powers 49). lia. Defined.
