(* ===== verification/Inode.v ===== *)
(** * Inodes in memory and on disk (src/src/gnu/ext2fs/ext2_inode_cnv.c)

    [struct inode] (inode.h) and [struct ext2_inode] (ext2_fs.h) with the fields the
    conversion routines touch, and the routines [ext2_ei2i] and [ext2_i2ei].  The target
    is little-endian, where [le32_to_cpu] and friends are casts. *)

From S2P Require Import Prelude.

Definition NDADDR : Z := 12.
Definition NIADDR : Z := 3.

(** The in-core inode; signed C types hold signed values. *)
Record inode := mkInode {
  i_mode : Z;          (* u_int16_t *)
  i_nlink : Z;         (* int16_t *)
  i_size : Z;          (* u_int64_t *)
  i_atime : Z;         (* int32_t *)
  i_mtime : Z;         (* int32_t *)
  i_ctime : Z;         (* int32_t *)
  i_db : list Z;       (* int32_t [NDADDR] *)
  i_ib : list Z;       (* int32_t [NIADDR] *)
  i_flags : Z;         (* u_int32_t *)
  i_blocks : Z;        (* int32_t *)
  i_gen : Z;           (* int32_t *)
  i_uid : Z;           (* u_int32_t *)
  i_gid : Z;           (* u_int32_t *)
  i_e2flags : Z;       (* u_int32_t *)
}.

(** The on-disk inode; [i_uid_low] and [i_gid_low] are other names of [i_uid] and
    [i_gid], [i_size_high] of [i_dir_acl]. *)
Record ext2_inode := mkEi {
  ei_mode : Z;         (* __u16 *)
  ei_uid : Z;          (* __u16 *)
  ei_size : Z;         (* __u32 *)
  ei_atime : Z;        (* __u32 *)
  ei_ctime : Z;        (* __u32 *)
  ei_mtime : Z;        (* __u32 *)
  ei_dtime : Z;        (* __u32 *)
  ei_gid : Z;          (* __u16 *)
  ei_links_count : Z;  (* __u16 *)
  ei_blocks : Z;       (* __u32 *)
  ei_flags : Z;        (* __u32 *)
  ei_block : list Z;   (* __u32 [15] *)
  ei_generation : Z;   (* __u32 *)
  ei_size_high : Z;    (* __u32 *)
  ei_uid_high : Z;     (* __u16 *)
  ei_gid_high : Z;     (* __u16 *)
}.

(** The superblock fields the conversion reads and writes. *)
Record sb_features := mkSb {
  s_rev_level : Z;
  s_first_ino : Z;
  s_inode_size : Z;
  s_feature_ro_compat : Z;
  sb_dirt : bool;
}.

Definition EXT2_GOOD_OLD_REV : Z := 0.
Definition EXT2_DYNAMIC_REV : Z := 1.
Definition EXT2_FEATURE_RO_COMPAT_LARGE_FILE : Z := 2.
Definition EXT2_IMMUTABLE_FL : Z := 0x10.
Definition EXT2_APPEND_FL : Z := 0x20.

Definition S_ISREG (mode : Z) : bool := Z.land mode 0xF000 =? 0x8000.

(** [ext3_update_dynamic_rev] (linux/fs/ext3/super.c). *)
Definition ext3_update_dynamic_rev (sb : sb_features) : sb_features :=
  if EXT2_GOOD_OLD_REV <? s_rev_level sb then sb
  else mkSb EXT2_DYNAMIC_REV 11 128 (s_feature_ro_compat sb) (sb_dirt sb).

Definition EXT2_HAS_RO_COMPAT_FEATURE (sb : sb_features) (mask : Z) : bool :=
  negb (Z.land (s_feature_ro_compat sb) mask =? 0).
Definition EXT2_SET_RO_COMPAT_FEATURE (sb : sb_features) (mask : Z) : sb_features :=
  mkSb (s_rev_level sb) (s_first_ino sb) (s_inode_size sb)
    (Z.lor (s_feature_ro_compat sb) mask) (sb_dirt sb).

Definition fs_high2lowuid (uid : Z) : Z := if 65535 <? uid then 65534 else u16 uid.
Definition low_16_bits (x : Z) : Z := Z.land x 0xFFFF.
Definition high_16_bits (x : Z) : Z := Z.shiftr (Z.land x 0xFFFF0000) 16.

(** [flags & bit ? value : 0] *)
Definition flag_if (flags bit value : Z) : Z := if Z.land flags bit =? 0 then 0 else value.

Section Conversion.
(** The [chflags] bits of <sys/stat.h>. *)
Context (APPEND IMMUTABLE : Z).

(** [ext2_ei2i]: [no_uid32] is the mount option NO_UID32. *)
Definition ext2_ei2i (no_uid32 : bool) (ei : ext2_inode) : inode :=
  let mode := if ei_links_count ei =? 0 then 0 else ei_mode ei in
  let uid := if no_uid32 then ei_uid ei
             else u32 (Z.lor (ei_uid ei) (i32 (Z.shiftl (ei_uid_high ei) 16))) in
  let gid := if no_uid32 then ei_gid ei
             else u32 (Z.lor (ei_gid ei) (i32 (Z.shiftl (ei_gid_high ei) 16))) in
  let size := if S_ISREG mode
              then Z.lor (ei_size ei) (u64 (Z.shiftl (ei_size_high ei) 32)) else ei_size ei in
  mkInode mode (i16 (ei_links_count ei)) size
    (i32 (ei_atime ei)) (i32 (ei_mtime ei)) (i32 (ei_ctime ei))
    (i32 <$> take 12 (ei_block ei)) (i32 <$> take 3 (drop 12 (ei_block ei)))
    (Z.lor (flag_if (ei_flags ei) EXT2_APPEND_FL APPEND)
           (flag_if (ei_flags ei) EXT2_IMMUTABLE_FL IMMUTABLE))
    (i32 (ei_blocks ei)) (i32 (ei_generation ei)) uid gid (ei_flags ei).

(** [if (i_flags & value) e2flags |= bit; else e2flags &= ~bit;] *)
Definition sync_flag (i_flags value e2flags bit : Z) : Z :=
  if Z.land i_flags value =? 0 then Z.land e2flags (u32 (Z.lnot bit)) else Z.lor e2flags bit.

(** The large-file bookkeeping at the end of [ext2_i2ei]. *)
Definition note_large_file (ip : inode) (sb : sb_features) : sb_features :=
  if S_ISREG (i_mode ip) && (0x7fffffff <? i_size ip) then
    if negb (EXT2_HAS_RO_COMPAT_FEATURE sb EXT2_FEATURE_RO_COMPAT_LARGE_FILE)
       || (s_rev_level sb =? EXT2_GOOD_OLD_REV)
    then
      let sb := EXT2_SET_RO_COMPAT_FEATURE (ext3_update_dynamic_rev sb)
                  EXT2_FEATURE_RO_COMPAT_LARGE_FILE in
      mkSb (s_rev_level sb) (s_first_ino sb) (s_inode_size sb) (s_feature_ro_compat sb) true
    else sb
  else sb.

(** [ext2_i2ei]: the new on-disk inode ([ei] is the old one: the size's high half is
    written for regular files only), the in-core inode with its [i_e2flags] brought up
    to date, and the superblock. *)
Definition ext2_i2ei (no_uid32 : bool) (ip : inode) (ei : ext2_inode) (sb : sb_features)
    : ext2_inode * inode * sb_features :=
  let dtime := if i_nlink ip =? 0 then u32 (i_mtime ip) else 0 in
  let e2flags := sync_flag (i_flags ip) APPEND (i_e2flags ip) EXT2_APPEND_FL in
  let e2flags := sync_flag (i_flags ip) IMMUTABLE e2flags EXT2_IMMUTABLE_FL in
  let uid_low := if no_uid32 then fs_high2lowuid (i_uid ip) else low_16_bits (i_uid ip) in
  let gid_low := if no_uid32 then fs_high2lowuid (i_gid ip) else low_16_bits (i_gid ip) in
  let keep_high := negb no_uid32 && (dtime =? 0) in
  let uid_high := if keep_high then high_16_bits (i_uid ip) else 0 in
  let gid_high := if keep_high then high_16_bits (i_gid ip) else 0 in
  let size_high := if S_ISREG (i_mode ip) then u32 (Z.shiftr (i_size ip) 32) else ei_size_high ei in
  (mkEi (i_mode ip) uid_low (u32 (i_size ip)) (u32 (i_atime ip)) (u32 (i_ctime ip))
     (u32 (i_mtime ip)) dtime gid_low (u16 (i_nlink ip)) (u32 (i_blocks ip)) e2flags
     ((u32 <$> i_db ip) ++ (u32 <$> i_ib ip)) (u32 (i_gen ip)) size_high uid_high gid_high,
   mkInode (i_mode ip) (i_nlink ip) (i_size ip) (i_atime ip) (i_mtime ip) (i_ctime ip)
     (i_db ip) (i_ib ip) (i_flags ip) (i_blocks ip) (i_gen ip) (i_uid ip) (i_gid ip) e2flags,
   note_large_file ip sb).

End Conversion.

(** ** The 16-bit halves of the owner ids *)

Lemma low_16_bits_mod x : low_16_bits x = x mod 2 ^ 16.
Proof. unfold low_16_bits. change 0xFFFF with (Z.ones 16). by rewrite Z.land_ones. Qed.

Lemma high_16_bits_div x : is_uint 32 x -> high_16_bits x = x / 2 ^ 16.
Proof.
  intros Hx. unfold high_16_bits. rewrite <- Z.shiftr_div_pow2 by done. apply Z.bits_inj'. intros i Hi.
  rewrite !Z.shiftr_spec, Z.land_spec by done. change 0xFFFF0000 with (Z.shiftl (Z.ones 16) 16).
  rewrite Z.shiftl_spec, Z.testbit_ones_nonneg by lia.
  destruct (Z.ltb_spec (i + 16 - 16) 16); [by rewrite andb_true_r|].
  by rewrite (testbit_high x 32) by (done || lia).
Qed.

(** The in-core id made from the two halves. *)
Lemma id_halves lo hi :
  is_uint 16 lo -> is_uint 16 hi ->
  u32 (Z.lor lo (i32 (Z.shiftl hi 16))) = Z.lor lo (Z.shiftl hi 16) /\
  is_uint 32 (Z.lor lo (Z.shiftl hi 16)).
Proof.
  unfold is_uint. intros Hlo Hhi.
  assert (is_uint 32 (Z.shiftl hi 16)) as Hs by (rewrite Z.shiftl_mul_pow2 by done; unfold is_uint; lia).
  assert (is_uint 32 (Z.lor lo (Z.shiftl hi 16))) as Hl by (apply uint_lor; unfold is_uint in *; lia).
  split; [|done]. rewrite uintw_lor, uintw_sintw by done. unfold is_uint in *. by mach.
Qed.

Lemma id_roundtrip x :
  is_uint 32 x -> u32 (Z.lor (low_16_bits x) (i32 (Z.shiftl (high_16_bits x) 16))) = x.
Proof.
  intros Hx. rewrite low_16_bits_mod, high_16_bits_div by done.
  assert (is_uint 16 (x mod 2 ^ 16)) by (apply Z.mod_pos_bound; lia).
  assert (is_uint 16 (x / 2 ^ 16)).
  { unfold is_uint in *. split; [apply Z.div_pos; lia|apply Z.div_lt_upper_bound; lia]. }
  destruct (id_halves (x mod 2 ^ 16) (x / 2 ^ 16)) as [-> _]; [done..|]. by apply split_join.
Qed.

(** ** Flags *)

Section Flags.
Context (APPEND IMMUTABLE : Z).
Hypothesis (HA : 0 < APPEND) (HI : 0 < IMMUTABLE) (HAI : Z.land APPEND IMMUTABLE = 0).

(** In-core flags are determined by two bits. *)
Definition chflags (a i : bool) : Z := Z.lor (if a then APPEND else 0) (if i then IMMUTABLE else 0).

Lemma chflags_bits a i :
  (Z.land (chflags a i) APPEND =? 0) = negb a /\ (Z.land (chflags a i) IMMUTABLE =? 0) = negb i.
Proof.
  unfold chflags. rewrite !Z.land_lor_distr_l.
  destruct a, i; rewrite ?Z.land_diag, ?Z.land_0_l, ?HAI, ?(Z.land_comm IMMUTABLE APPEND), ?HAI,
    ?Z.lor_0_r, ?Z.lor_0_l; split; (apply Z.eqb_eq || apply Z.eqb_neq); lia.
Qed.

(** The on-disk flag bits after [ext2_i2ei] synchronised them. *)
Lemma sync_flags_bits a i e2 n :
  is_uint 32 e2 -> 0 <= n ->
  Z.testbit (sync_flag (chflags a i) IMMUTABLE (sync_flag (chflags a i) APPEND e2 EXT2_APPEND_FL)
               EXT2_IMMUTABLE_FL) n =
    if decide (n = 5) then a else if decide (n = 4) then i else Z.testbit e2 n.
Proof.
  intros He Hn. unfold sync_flag. destruct (chflags_bits a i) as [-> ->].
  change EXT2_APPEND_FL with (2 ^ 5). change EXT2_IMMUTABLE_FL with (2 ^ 4).
  assert (forall k, 0 <= k < 32 -> forall x, is_uint 32 x ->
    Z.testbit (Z.land x (u32 (Z.lnot (2 ^ k)))) n = Z.testbit x n && negb (n =? k)) as Hclr.
  { intros k Hk x Hx. rewrite Z.land_spec. unfold uintw. destruct (decide (n < 32)).
    - rewrite Z.mod_pow2_bits_low, Z.lnot_spec, Z.pow2_bits_eqb by lia. by rewrite Z.eqb_sym.
    - by rewrite (testbit_high x 32) by (done || lia). }
  assert (forall k x, 0 <= k -> Z.testbit (Z.lor x (2 ^ k)) n = Z.testbit x n || (n =? k)) as Hset.
  { intros k x Hk. rewrite Z.lor_spec, Z.pow2_bits_eqb by lia. by rewrite Z.eqb_sym. }
  assert (is_uint 32 (Z.land e2 (u32 (Z.lnot (2 ^ 5))))) by (apply uint_land; [done|done|apply uintw_bound; lia]).
  assert (is_uint 32 (Z.lor e2 (2 ^ 5))) by (apply uint_lor; [done|done|unfold is_uint; lia]).
  destruct a, i; cbn [negb]; rewrite ?Hset, ?Hclr, ?Hset, ?Hclr by (done || lia);
    destruct (Z.eqb_spec n 5), (Z.eqb_spec n 4), (decide (n = 5)), (decide (n = 4));
    try lia; destruct (Z.testbit e2 n); done.
Qed.

(** [x & bit] tests one bit. *)
Lemma land_bit x k : 0 <= k -> (Z.land x (2 ^ k) =? 0) = negb (Z.testbit x k).
Proof.
  intros Hk. assert (Z.land x (2 ^ k) = if Z.testbit x k then 2 ^ k else 0) as ->.
  { apply Z.bits_inj'. intros n Hn. rewrite Z.land_spec, Z.pow2_bits_eqb by done.
    destruct (Z.eqb_spec k n) as [->|N].
    - destruct (Z.testbit x n); [by rewrite Z.pow2_bits_true|by rewrite Z.bits_0].
    - rewrite andb_false_r. destruct (Z.testbit x k); [|by rewrite Z.bits_0].
      by rewrite Z.pow2_bits_false by done. }
  destruct (Z.testbit x k); [|done]. apply Z.eqb_neq. by apply Z.pow_nonzero.
Qed.

Lemma flag_if_bits a i x :
  Z.testbit x 5 = a -> Z.testbit x 4 = i ->
  Z.lor (flag_if x EXT2_APPEND_FL APPEND) (flag_if x EXT2_IMMUTABLE_FL IMMUTABLE) = chflags a i.
Proof.
  intros Ea Ei. unfold flag_if, chflags. change EXT2_APPEND_FL with (2 ^ 5).
  change EXT2_IMMUTABLE_FL with (2 ^ 4). rewrite !land_bit, Ea, Ei by done. by destruct a, i.
Qed.

End Flags.

(** ** Valid inodes *)

Definition is_sint (w x : Z) : Prop := - 2 ^ (w - 1) <= x < 2 ^ (w - 1).

(** An in-core inode whose fields fit their types and whose [chflags] bits are the two
    that exist on disk. *)
Record valid_inode (APPEND IMMUTABLE : Z) (ip : inode) : Prop := {
  vi_mode : is_uint 16 (i_mode ip);
  vi_nlink : is_sint 16 (i_nlink ip);
  vi_size : is_uint 64 (i_size ip);
  vi_times : is_sint 32 (i_atime ip) /\ is_sint 32 (i_mtime ip) /\ is_sint 32 (i_ctime ip);
  vi_db : length (i_db ip) = 12%nat /\ Forall (is_sint 32) (i_db ip);
  vi_ib : length (i_ib ip) = 3%nat /\ Forall (is_sint 32) (i_ib ip);
  vi_flags : exists a i, i_flags ip = chflags APPEND IMMUTABLE a i;
  vi_blocks : is_sint 32 (i_blocks ip);
  vi_gen : is_sint 32 (i_gen ip);
  vi_ids : is_uint 32 (i_uid ip) /\ is_uint 32 (i_gid ip);
  vi_e2flags : is_uint 32 (i_e2flags ip);
}.

Record valid_ei (ei : ext2_inode) : Prop := {
  ve_16 : is_uint 16 (ei_mode ei) /\ is_uint 16 (ei_uid ei) /\ is_uint 16 (ei_gid ei) /\
          is_uint 16 (ei_links_count ei) /\ is_uint 16 (ei_uid_high ei) /\ is_uint 16 (ei_gid_high ei);
  ve_32 : is_uint 32 (ei_size ei) /\ is_uint 32 (ei_atime ei) /\ is_uint 32 (ei_ctime ei) /\
          is_uint 32 (ei_mtime ei) /\ is_uint 32 (ei_dtime ei) /\ is_uint 32 (ei_blocks ei) /\
          is_uint 32 (ei_flags ei) /\ is_uint 32 (ei_generation ei) /\ is_uint 32 (ei_size_high ei);
  ve_block : length (ei_block ei) = 15%nat /\ Forall (is_uint 32) (ei_block ei);
}.

Lemma sint_roundtrip w x : 0 < w -> is_sint w x -> sintw w (uintw w x) = x.
Proof. intros. rewrite sintw_uintw. by apply sintw_small. Qed.

Lemma uint_roundtrip w x : is_uint w x -> uintw w (sintw w x) = x.
Proof. intros. rewrite uintw_sintw. by apply uintw_small. Qed.

Lemma map_sint_roundtrip l : Forall (is_sint 32) l -> i32 <$> (u32 <$> l) = l.
Proof.
  intros H. rewrite <- list_fmap_compose. induction H as [|x l Hx Hl IH]; [done|].
  cbn. rewrite IH. f_equal. by apply sint_roundtrip.
Qed.

Lemma map_uint_roundtrip l : Forall (is_uint 32) l -> u32 <$> (i32 <$> l) = l.
Proof.
  intros H. rewrite <- list_fmap_compose. induction H as [|x l Hx Hl IH]; [done|].
  cbn. rewrite IH. f_equal. by apply uint_roundtrip.
Qed.

(** What is written and read again. *)
Lemma write_read APPEND IMMUTABLE ip ei sb :
  0 < APPEND -> 0 < IMMUTABLE -> Z.land APPEND IMMUTABLE = 0 ->
  valid_inode APPEND IMMUTABLE ip -> i_nlink ip <> 0 ->
  (S_ISREG (i_mode ip) = true \/ i_size ip < 2 ^ 32) ->
  let '(ei', ip', _) := ext2_i2ei APPEND IMMUTABLE false ip ei sb in
  ext2_ei2i APPEND IMMUTABLE false ei' = ip'.
Proof.
  intros HA HI HAI [V1 V2 V3 (V4 & V5 & V6) [V7 V7'] [V8 V8'] (a & i & V9) V10 V11 [V12 V12'] V13] Hn Hs.
  unfold ext2_i2ei, ext2_ei2i. cbn.
  rewrite (proj2 (Z.eqb_neq (i_nlink ip) 0)) by done. cbn [negb andb Z.eqb].
  assert (u16 (i_nlink ip) <> 0) as Hn'.
  { intros E. apply Hn. rewrite <- (sint_roundtrip 16 (i_nlink ip)), E by done. done. }
  rewrite (proj2 (Z.eqb_neq (u16 (i_nlink ip)) 0)) by done.
  rewrite !id_roundtrip, !sint_roundtrip by done.
  rewrite take_app_length', drop_app_length' by (by rewrite length_fmap, V7).
  rewrite map_sint_roundtrip by done.
  rewrite take_ge by (by rewrite length_fmap, V8). rewrite map_sint_roundtrip by done.
  f_equal.
  - destruct (S_ISREG (i_mode ip)); [|destruct Hs; [done|]; unfold is_uint in *; by mach].
    unfold is_uint in V3. rewrite Z.shiftr_div_pow2 by done.
    rewrite (uintw_small 32 (i_size ip / _))
      by (split; [apply Z.div_pos; lia|apply Z.div_lt_upper_bound; lia]).
    rewrite (uintw_small 64).
    + apply (split_join (i_size ip) 32). done.
    + rewrite Z.shiftl_mul_pow2 by done. pose proof (Z.div_mod (i_size ip) (2 ^ 32) ltac:(lia)).
      pose proof (Z.mod_pos_bound (i_size ip) (2 ^ 32) ltac:(lia)).
      pose proof (Z.div_pos (i_size ip) (2 ^ 32)). lia.
  - rewrite V9. apply flag_if_bits; by rewrite (sync_flags_bits APPEND IMMUTABLE) by done.
Qed.

(** ** Properties *)

(** Writing an in-core inode that has links, on a file system with 32-bit ids, and
    reading it back gives the same inode (with [i_e2flags] synchronised with
    [i_flags]); the size must fit 32 bits unless the file is a regular one. *)
Theorem inode_write_read APPEND IMMUTABLE ip ei sb :
  0 < APPEND -> 0 < IMMUTABLE -> Z.land APPEND IMMUTABLE = 0 ->
  valid_inode APPEND IMMUTABLE ip -> i_nlink ip <> 0 ->
  (S_ISREG (i_mode ip) = true \/ i_size ip < 2 ^ 32) ->
  let '(ei', ip', _) := ext2_i2ei APPEND IMMUTABLE false ip ei sb in
  ext2_ei2i APPEND IMMUTABLE false ei' = ip'.
Proof. apply write_read. Qed.

Lemma inode_write_read_witness :
  let ip := mkInode 0x81a4 1 (5 * 2 ^ 32 + 7) (-1) 100 200 (replicate 12 (-5)) [9; 0; 0] 0x40004 16 77
              100000 20 0x80020 in
  ext2_ei2i 0x40004 0x20002 false
    (ext2_i2ei 0x40004 0x20002 false ip
       (mkEi 0 0 0 0 0 0 0 0 0 0 0 [] 0 0 0 0) (mkSb 0 0 0 0 false)).1.1 = ip.
Proof.
  intros ip.
  pose proof (inode_write_read 0x40004 0x20002 ip (mkEi 0 0 0 0 0 0 0 0 0 0 0 [] 0 0 0 0) (mkSb 0 0 0 0 false)
    ltac:(lia) ltac:(lia) eq_refl) as H.
  transitivity (ext2_i2ei 0x40004 0x20002 false ip
       (mkEi 0 0 0 0 0 0 0 0 0 0 0 [] 0 0 0 0) (mkSb 0 0 0 0 false)).1.2; [|vm_compute; reflexivity].
  apply H; [|discriminate|left; reflexivity].
  split; try (unfold is_uint, is_sint; cbn; lia).
  - split; [reflexivity|]. repeat constructor; unfold is_sint; lia.
  - split; [reflexivity|]. repeat constructor; unfold is_sint; lia.
  - exists true, false. reflexivity.
Defined.

(** The flags that are written fit their field. *)
Lemma sync_flag_uint i_flags value e2flags bit :
  is_uint 32 e2flags -> is_uint 32 bit -> is_uint 32 (sync_flag i_flags value e2flags bit).
Proof.
  intros H1 H2. unfold sync_flag. destruct (_ =? 0); [|by apply uint_lor].
  apply uint_land; [done|done|apply uintw_bound; lia].
Qed.

Lemma owner_halves x : is_uint 32 x -> is_uint 16 (low_16_bits x) /\ is_uint 16 (high_16_bits x) /\ is_uint 16 (fs_high2lowuid x).
Proof.
  intros Hx. rewrite low_16_bits_mod, high_16_bits_div by done. unfold fs_high2lowuid, is_uint in *.
  split; [apply Z.mod_pos_bound; lia|]. split; [split; [apply Z.div_pos; lia|apply Z.div_lt_upper_bound; lia]|].
  destruct (_ <? _); [lia|]. apply uintw_bound. lia.
Qed.

(** The conversions give fields in range. *)
Lemma conversions_in_range APPEND IMMUTABLE no_uid32 :
  (forall ei, valid_ei ei -> valid_inode APPEND IMMUTABLE (ext2_ei2i APPEND IMMUTABLE no_uid32 ei)) /\
  (forall ip ei sb, valid_inode APPEND IMMUTABLE ip -> valid_ei ei ->
     let '(ei', ip', _) := ext2_i2ei APPEND IMMUTABLE no_uid32 ip ei sb in
     valid_ei ei' /\ valid_inode APPEND IMMUTABLE ip').
Proof.
  assert (forall l, Forall (is_sint 32) (i32 <$> l)) as Hs.
  { intros l. apply Forall_fmap, Forall_forall. intros x _. apply sintw_bound. lia. }
  assert (forall l, Forall (is_uint 32) (u32 <$> l)) as Hu.
  { intros l. apply Forall_fmap, Forall_forall. intros x _. apply uintw_bound. lia. }
  assert (forall x, is_uint 16 x -> is_uint 32 x) as H16 by (unfold is_uint; lia).
  split.
  - intros ei [(V1 & V2 & V3 & V4 & V5 & V6) (W1 & W2 & W3 & W4 & W5 & W6 & W7 & W8 & W9) [V7 V7']].
    destruct (id_halves _ _ V2 V5) as [E1 U1]. destruct (id_halves _ _ V3 V6) as [E2 U2].
    unfold ext2_ei2i. split; cbn; try (by apply sintw_bound; lia).
    + destruct (_ =? 0); [unfold is_uint; lia|done].
    + assert (is_uint 64 (ei_size ei)) by (unfold is_uint in *; lia).
      destruct (S_ISREG _); [|done]. apply uint_lor; [done|done|apply uintw_bound; lia].
    + split_and!; apply sintw_bound; lia.
    + split; [|done]. rewrite length_fmap, length_take. lia.
    + split; [|done]. rewrite length_fmap, length_take, length_drop. lia.
    + exists (Z.testbit (ei_flags ei) 5), (Z.testbit (ei_flags ei) 4). by apply flag_if_bits.
    + rewrite E1, E2. destruct no_uid32; split; auto.
    + done.
  - intros ip ei sb [V1 V2 V3 (V4 & V5 & V6) [V7 V7'] [V8 V8'] V9 V10 V11 [V12 V12'] V13] [_ (_ & _ & _ & _ & _ & _ & _ & _ & W9) _].
    destruct (owner_halves _ V12) as (L1 & L2 & L3). destruct (owner_halves _ V12') as (M1 & M2 & M3).
    unfold ext2_i2ei. assert (forall x, is_uint 16 (u16 x)) as U16 by (intros; apply uintw_bound; lia).
    assert (forall x, is_uint 32 (u32 x)) as U32 by (intros; apply uintw_bound; lia).
    assert (is_uint 16 0 /\ is_uint 32 0) as [Z16 Z32] by (unfold is_uint; lia).
    assert (is_uint 32 (sync_flag (i_flags ip) IMMUTABLE (sync_flag (i_flags ip) APPEND (i_e2flags ip) EXT2_APPEND_FL) EXT2_IMMUTABLE_FL)) as E2.
    { apply sync_flag_uint; [apply sync_flag_uint; [done|]|]; unfold is_uint, EXT2_APPEND_FL, EXT2_IMMUTABLE_FL; lia. }
    split; split; cbn; try done.
    + destruct no_uid32, (i_nlink ip =? 0), (u32 (i_mtime ip) =? 0); cbn; split_and!; done.
    + destruct (i_nlink ip =? 0), (S_ISREG (i_mode ip)); split_and!; done.
    + split; [rewrite length_app, !length_fmap; lia|]. by apply Forall_app.
Qed.

(** The on-disk inode [ei] stands for [ip]: what the fields mean, as numbers.  Signed fields
    have the same bits; an inode without links has no mode; the high halves count only with
    32-bit owner ids, and for regular files. *)
Record stands_for (APPEND IMMUTABLE : Z) (no_uid32 : bool) (ei : ext2_inode) (ip : inode) : Prop := {
  st_mode : i_mode ip = if decide (ei_links_count ei = 0) then 0 else ei_mode ei;
  st_links : u16 (i_nlink ip) = ei_links_count ei;
  st_uid : i_uid ip = ei_uid ei + (if no_uid32 then 0 else 2 ^ 16 * ei_uid_high ei);
  st_gid : i_gid ip = ei_gid ei + (if no_uid32 then 0 else 2 ^ 16 * ei_gid_high ei);
  st_size : i_size ip = ei_size ei + (if S_ISREG (i_mode ip) then 2 ^ 32 * ei_size_high ei else 0);
  st_times : u32 (i_atime ip) = ei_atime ei /\ u32 (i_mtime ip) = ei_mtime ei /\ u32 (i_ctime ip) = ei_ctime ei;
  st_block : (u32 <$> i_db ip) ++ (u32 <$> i_ib ip) = ei_block ei;
  st_blocks : u32 (i_blocks ip) = ei_blocks ei;
  st_gen : u32 (i_gen ip) = ei_generation ei;
  st_flags : i_flags ip = chflags APPEND IMMUTABLE (Z.testbit (ei_flags ei) 5) (Z.testbit (ei_flags ei) 4);
}.

Lemma lor_add lo hi k : 0 <= k -> is_uint k lo -> Z.lor lo (Z.shiftl hi k) = lo + 2 ^ k * hi.
Proof.
  intros Hk Hlo. rewrite Z.shiftl_mul_pow2 by done. rewrite <- Z.add_lor_land, Z.mul_comm.
  assert (Z.land lo (2 ^ k * hi) = 0) as ->; [|lia]. apply Z.bits_inj'. intros n Hn. rewrite Z.land_spec, Z.bits_0, Z.mul_comm.
  destruct (decide (n < k)).
  - by rewrite Z.mul_pow2_bits_low, andb_false_r by lia.
  - by rewrite (testbit_high lo k) by (done || lia).
Qed.

Lemma read_stands_for APPEND IMMUTABLE no_uid32 ei :
  valid_ei ei -> stands_for APPEND IMMUTABLE no_uid32 ei (ext2_ei2i APPEND IMMUTABLE no_uid32 ei).
Proof.
  intros [(V1 & V2 & V3 & V4 & V5 & V6) (W1 & W2 & W3 & W4 & W5 & W6 & W7 & W8 & W9) [V7 V7']].
  destruct (id_halves _ _ V2 V5) as [E1 _]. destruct (id_halves _ _ V3 V6) as [E2 _].
  unfold ext2_ei2i. split; cbn; rewrite ?uint_roundtrip by done; try done.
  - by destruct (Z.eqb_spec (ei_links_count ei) 0), (decide (ei_links_count ei = 0)).
  - destruct no_uid32; [lia|]. by rewrite E1, lor_add.
  - destruct no_uid32; [lia|]. by rewrite E2, lor_add.
  - destruct (S_ISREG _); [|lia]. unfold is_uint in *. rewrite (uintw_small 64) by (rewrite Z.shiftl_mul_pow2; lia). by rewrite lor_add.
  - rewrite !map_uint_roundtrip by (try apply Forall_take; try apply Forall_drop; done).
    rewrite (take_ge (drop 12 _)), take_drop by (rewrite length_drop; lia). done.
  - by apply flag_if_bits.
Qed.

(** C32: The conversions keep to the types of the C fields and to the meaning of the fields.
    Whatever valid on-disk inode is read, every field of the in-core inode is in the range
    of its type and is what the on-disk inode stands for.  A valid in-core inode is written
    as an on-disk inode whose fields are in range; with 32-bit owner ids, when the file has
    links and its size fits, that stands for the in-core inode, which keeps all fields but
    the on-disk flags; with 16-bit ids an owner that is too large becomes 65534.  The time
    of deletion is set exactly for an inode without links. *)
Theorem inode_types APPEND IMMUTABLE no_uid32 :
  0 < APPEND -> 0 < IMMUTABLE -> Z.land APPEND IMMUTABLE = 0 ->
  (forall ei, valid_ei ei -> valid_inode APPEND IMMUTABLE (ext2_ei2i APPEND IMMUTABLE no_uid32 ei) /\
     stands_for APPEND IMMUTABLE no_uid32 ei (ext2_ei2i APPEND IMMUTABLE no_uid32 ei)) /\
  (forall ip ei sb, valid_inode APPEND IMMUTABLE ip -> valid_ei ei ->
     let '(ei', ip', _) := ext2_i2ei APPEND IMMUTABLE no_uid32 ip ei sb in
     valid_ei ei' /\ valid_inode APPEND IMMUTABLE ip' /\
     (no_uid32 = false -> i_nlink ip <> 0 -> S_ISREG (i_mode ip) = true \/ i_size ip < 2 ^ 32 ->
        stands_for APPEND IMMUTABLE false ei' ip /\ stands_for APPEND IMMUTABLE false ei' ip') /\
     (no_uid32 = true -> ei_uid ei' = (if decide (i_uid ip < 2 ^ 16) then i_uid ip else 65534) /\ ei_uid_high ei' = 0 /\
        ei_gid ei' = (if decide (i_gid ip < 2 ^ 16) then i_gid ip else 65534) /\ ei_gid_high ei' = 0) /\
     ei_dtime ei' = (if decide (i_nlink ip = 0) then ei_mtime ei' else 0)).
Proof.
  intros HA HI HAI. destruct (conversions_in_range APPEND IMMUTABLE no_uid32) as [HR HW]. split.
  { intros ei V. split; [by apply HR|by apply read_stands_for]. }
  intros ip ei sb V Ve. specialize (HW ip ei sb V Ve).
  destruct (ext2_i2ei APPEND IMMUTABLE no_uid32 ip ei sb) as [[ei' ip'] sb'] eqn:E. destruct HW as [V1 V2]. split_and!; [done|done|..].
  - intros -> Hn Hs. pose proof (write_read APPEND IMMUTABLE ip ei sb HA HI HAI V Hn Hs) as H. rewrite E in H.
    pose proof (read_stands_for APPEND IMMUTABLE false ei' V1) as S. rewrite H in S. split; [|done].
    unfold ext2_i2ei in E. injection E as <- <- _. by destruct S.
  - intros ->. unfold ext2_i2ei in E. injection E as <- _ _. cbn. unfold fs_high2lowuid.
    destruct (vi_ids _ _ _ V) as [U1 U2]. unfold is_uint in U1, U2. split_and!; try done.
    + destruct (Z.ltb_spec 65535 (i_uid ip)), (decide (i_uid ip < 2 ^ 16)); try lia. by rewrite uintw_small by lia.
    + destruct (Z.ltb_spec 65535 (i_gid ip)), (decide (i_gid ip < 2 ^ 16)); try lia. by rewrite uintw_small by lia.
  - unfold ext2_i2ei in E. injection E as <- _ _. cbn. by destruct (Z.eqb_spec (i_nlink ip) 0), (decide (i_nlink ip = 0)).
Qed.

Lemma inode_types_witness :
  let ei := mkEi 0x41ed 500 1024 4294967295 10 20 0 600 2 8 0x30 (replicate 15 4000000000) 9 0 1 2 in
  valid_inode 4 2 (ext2_ei2i 4 2 false ei) /\ stands_for 4 2 false ei (ext2_ei2i 4 2 false ei).
Proof.
  intros ei. refine (proj1 (inode_types 4 2 false _ _ _) ei _); try reflexivity.
  split; cbn; unfold is_uint; try lia. split; [reflexivity|]. repeat constructor; lia.
Defined.

(** Reading an on-disk inode in use and writing it back unchanged, on a file system
    with 32-bit ids, reproduces it bit by bit. *)
Theorem inode_read_write APPEND IMMUTABLE ei sb :
  0 < APPEND -> 0 < IMMUTABLE -> Z.land APPEND IMMUTABLE = 0 ->
  valid_ei ei -> ei_links_count ei <> 0 -> ei_dtime ei = 0 ->
  (ext2_i2ei APPEND IMMUTABLE false (ext2_ei2i APPEND IMMUTABLE false ei) ei sb).1.1 = ei.
Proof.
  intros HA HI HAI [(V1 & V2 & V3 & V4 & V5 & V6) (W1 & W2 & W3 & W4 & W5 & W6 & W7 & W8 & W9) [V7 V7']] Hl Hd.
  unfold ext2_i2ei, ext2_ei2i. cbn.
  rewrite (proj2 (Z.eqb_neq _ _) Hl).
  assert (i16 (ei_links_count ei) <> 0) as Hl'.
  { intros E. apply Hl. rewrite <- (uint_roundtrip 16 (ei_links_count ei)), E by done. done. }
  rewrite (proj2 (Z.eqb_neq _ _) Hl'). cbn [negb andb Z.eqb].
  destruct (id_halves _ _ V2 V5) as [-> U1]. destruct (id_halves _ _ V3 V6) as [-> U2].
  rewrite !low_16_bits_mod, !high_16_bits_div, !join_low, !join_high, !uint_roundtrip by done.
  rewrite !map_uint_roundtrip by (try apply Forall_take; try apply Forall_drop; done).
  rewrite (take_ge (drop 12 _)), take_drop by (rewrite length_drop; lia).
  rewrite (flag_if_bits APPEND IMMUTABLE (Z.testbit (ei_flags ei) 5) (Z.testbit (ei_flags ei) 4)) by done.
  destruct ei as [m u s at' ct mt dt g l b f bl gn sh uh gh]. cbn in *. subst dt. f_equal.
  - unfold is_uint in *. destruct (S_ISREG m); [|by mach].
    rewrite (uintw_small 64) by (rewrite Z.shiftl_mul_pow2; lia). by apply join_low.
  - apply Z.bits_inj'. intros n Hn. rewrite (sync_flags_bits APPEND IMMUTABLE) by done.
    destruct (decide (n = 5)) as [->|]; [done|]. by destruct (decide (n = 4)) as [->|].
  - unfold is_uint in *. destruct (S_ISREG m); [|done].
    rewrite (uintw_small 64) by (rewrite Z.shiftl_mul_pow2; lia).
    rewrite Z.shiftr_div_pow2, join_high by done. by mach.
Qed.

Lemma inode_read_write_witness :
  let ei := mkEi 0x41ed 500 1024 4294967295 10 20 0 600 2 8 0x30 (replicate 15 4000000000) 9 0 1 2 in
  (ext2_i2ei 0x40004 0x20002 false (ext2_ei2i 0x40004 0x20002 false ei) ei (mkSb 0 0 0 0 false)).1.1 = ei.
Proof.
  apply inode_read_write; try reflexivity; try discriminate.
  split; cbn; unfold is_uint; try lia. split; [reflexivity|]. repeat constructor; lia.
Defined.

Lemma has_large_file sb :
  EXT2_HAS_RO_COMPAT_FEATURE sb EXT2_FEATURE_RO_COMPAT_LARGE_FILE = Z.testbit (s_feature_ro_compat sb) 1.
Proof.
  unfold EXT2_HAS_RO_COMPAT_FEATURE. change EXT2_FEATURE_RO_COMPAT_LARGE_FILE with (2 ^ 1).
  by rewrite land_bit, negb_involutive.
Qed.

(** Writing a regular file of 2 GiB or more leaves a superblock that says so: a
    dynamic revision with the LARGE_FILE feature, all other features kept; when the
    superblock said so already it is not touched, and no other inode touches it. *)
Theorem large_file_feature APPEND IMMUTABLE no_uid32 ip ei sb :
  0 <= s_rev_level sb ->
  let sb' := (ext2_i2ei APPEND IMMUTABLE no_uid32 ip ei sb).2 in
  if S_ISREG (i_mode ip) && (2 ^ 31 <=? i_size ip) then
    EXT2_HAS_RO_COMPAT_FEATURE sb' EXT2_FEATURE_RO_COMPAT_LARGE_FILE = true /\
    EXT2_DYNAMIC_REV <= s_rev_level sb' /\
    s_feature_ro_compat sb' = Z.lor (s_feature_ro_compat sb) EXT2_FEATURE_RO_COMPAT_LARGE_FILE /\
    (EXT2_HAS_RO_COMPAT_FEATURE sb EXT2_FEATURE_RO_COMPAT_LARGE_FILE = true ->
     EXT2_DYNAMIC_REV <= s_rev_level sb -> sb' = sb) /\
    (sb' <> sb -> sb_dirt sb' = true)
  else sb' = sb.
Proof.
  intros Hrev sb'. subst sb'. cbn [ext2_i2ei snd]. unfold note_large_file.
  replace (0x7fffffff <? i_size ip) with (2 ^ 31 <=? i_size ip)
    by (destruct (Z.leb_spec (2 ^ 31) (i_size ip)), (Z.ltb_spec 0x7fffffff (i_size ip)); lia).
  destruct (S_ISREG (i_mode ip) && (2 ^ 31 <=? i_size ip)); [|done].
  rewrite !has_large_file. unfold EXT2_GOOD_OLD_REV, EXT2_DYNAMIC_REV.
  destruct (Z.testbit (s_feature_ro_compat sb) 1) eqn:Ef; cbn [negb orb].
  - assert (Z.lor (s_feature_ro_compat sb) EXT2_FEATURE_RO_COMPAT_LARGE_FILE = s_feature_ro_compat sb) as Elor.
    { apply Z.bits_inj'. intros n Hn. rewrite Z.lor_spec. change EXT2_FEATURE_RO_COMPAT_LARGE_FILE with (2 ^ 1).
      rewrite Z.pow2_bits_eqb by done.
      destruct (Z.eqb_spec 1 n) as [<-|]; [by rewrite Ef|by rewrite orb_false_r]. }
    rewrite Elor. destruct (Z.eqb_spec (s_rev_level sb) 0) as [Er|Er].
    + unfold ext3_update_dynamic_rev, EXT2_SET_RO_COMPAT_FEATURE, EXT2_GOOD_OLD_REV. rewrite Er.
      cbn [Z.ltb Z.compare s_rev_level s_feature_ro_compat sb_dirt]. rewrite Elor.
      split_and!; [done|done|done|intros _ ?; unfold EXT2_DYNAMIC_REV in *; lia|done].
    + split_and!; [done|lia|done|done|done].
  - unfold EXT2_SET_RO_COMPAT_FEATURE. cbn [s_rev_level s_feature_ro_compat sb_dirt].
    assert (s_feature_ro_compat (ext3_update_dynamic_rev sb) = s_feature_ro_compat sb) as Efeat.
    { unfold ext3_update_dynamic_rev. by destruct (_ <? _). }
    rewrite Efeat. split_and!; [|unfold ext3_update_dynamic_rev, EXT2_GOOD_OLD_REV|done|done|done].
    + rewrite Z.lor_spec. by rewrite orb_true_r.
    + destruct (Z.ltb_spec 0 (s_rev_level sb)); cbn; [lia|done].
Qed.

Lemma large_file_feature_witness :
  let ip := mkInode 0x81a4 1 (2 ^ 31) 0 0 0 (replicate 12 0) (replicate 3 0) 0 0 0 0 0 0 in
  s_rev_level (ext2_i2ei 0x40004 0x20002 false ip (mkEi 0 0 0 0 0 0 0 0 0 0 0 [] 0 0 0 0) (mkSb 0 0 0 5 false)).2 = 1 /\
  EXT2_HAS_RO_COMPAT_FEATURE
    (ext2_i2ei 0x40004 0x20002 false ip (mkEi 0 0 0 0 0 0 0 0 0 0 0 [] 0 0 0 0) (mkSb 0 0 0 5 false)).2
    EXT2_FEATURE_RO_COMPAT_LARGE_FILE = true.
Proof.
  intros ip. split; [reflexivity|].
  exact (proj1 (large_file_feature 0x40004 0x20002 false ip (mkEi 0 0 0 0 0 0 0 0 0 0 0 [] 0 0 0 0)
    (mkSb 0 0 0 5 false) (Z.le_refl 0))).
Defined.
