(* ===== verification/Ialloc.v ===== *)
(** * The inode allocator (src/src/gnu/ext2fs/ext2_linux_ialloc.c)

    [ext2_new_inode] and [ext2_free_inode] on the state of [Fs], in the
    configuration the kext is built with ([EXT2_SB_BITMAP_CACHE] 0).  Of an inode
    the routines read the number, the link count, the mode and, for the parent
    directory, its block group; these are their arguments here. *)

From S2P Require Import Prelude Bitops Fs Balloc.

Definition S_IFMT : Z := 0xF000.
Definition S_IFDIR : Z := 0x4000.
Definition S_ISDIR (mode : Z) : bool := Z.land mode S_IFMT =? S_IFDIR.

(** ** Loading an inode bitmap *)

Definition read_inode_bitmap (block_group : Z) : FS Z :=
  '(gdp, _) ← get_group_desc block_group;
  gd ← gd_load gdp;
  let lbn := i32 (bg_inode_bitmap gd) in
  unlock_super;;
  r ← buf_meta_bread lbn;
  match r with
  | None => panic "ext2: read_inode_bitmap: Cannot read inode bitmap"
  | Some bp => lock_super;; mret bp
  end.

Definition load_inode_bitmap (block_group : Z) : FS (Z * option Z) :=
  s ← gets id;
  let c := s_inode_cache s in
  if s_groups_count (geo s) <=? block_group
  then panic "ext2: load_inode_bitmap: block_group >= groups_count"
  else if (0 <? c_loaded c) && bool_decide (c_number c !! 0%nat = Some block_group)
  then mret (0, None)
  else if s_groups_count (geo s) <=? EXT2_MAX_GROUP_LOADED then
    b ← access (c_buf c !! Z.to_nat block_group);
    match b with
    | Some _ =>
        if decide (c_number c !! Z.to_nat block_group = Some block_group)
        then mret (block_group, None)
        else panic "ext2: load_inode_bitmap: block_group != inode_bitmap_number"
    | None => bp ← read_inode_bitmap block_group; mret (block_group, Some bp)
    end
  else
    let i := find_number (c_number c) block_group (Z.to_nat (c_loaded c)) 0 in
    if decide (Z.of_nat i < c_loaded c /\ c_number c !! i = Some block_group) then
      modify (set_inode_cache
        (mkCache (c_loaded c) (rotate_to_front i (c_number c)) (rotate_to_front i (c_buf c))));;
      mret (0, None)
    else bp ← read_inode_bitmap block_group; mret (0, Some bp).

(** [load_inode_bitmap (mp, i, &bp); ... buf_dataptr(bp)]. *)
Definition load_inode_bitmap_buf (block_group : Z) : FS Z :=
  '(_, bpp) ← load_inode_bitmap (u32 block_group); access bpp.

(** ** Freeing *)

Definition ext2_free_inode (i_number i_nlink i_mode : Z) : FS unit :=
  if negb (i_nlink =? 0) then mret tt
  else
    lock_super;;
    s ← gets id;
    if (i_number <? EXT2_FIRST_INO) || (s_inodes_count (s_es s) <? i_number)
    then unlock_super
    else
      let ipg := e2fs_ipg (geo s) in
      let block_group := (i_number - 1) / ipg in
      let bit := (i_number - 1) mod ipg in
      bp ← load_inode_bitmap_buf block_group;
      data ← buf_data bp;
      '(old, data') ← access (clear_bit bit data);
      buf_store bp data';;
      (if old : bool then
         '(gdp, bp2) ← get_group_desc block_group;
         gd ← gd_load gdp;
         gd_store gdp (gd_set_free_inodes (u16 (bg_free_inodes_count gd + 1)));;
         (if S_ISDIR i_mode then
            gd ← gd_load gdp;
            gd_store gdp (gd_set_used_dirs (u16 (bg_used_dirs_count gd - 1)));;
            modify (set_dircount (fun n => i64 (n - 1)))
          else mret tt);;
         mark_buffer_dirty bp2;;
         es ← gets s_es;
         modify (set_es (es_set_free_inodes (u32 (s_free_inodes_count es + 1))))
       else mret tt);;
      modify set_dirt;;
      unlock_super;;
      buf_write bp.

(** ** Choosing a group *)

(** The scan of all groups for a directory: of the groups with at least the average
    number of free inodes, the first one with the most free blocks.  [best] is [i]
    and [gdp], [bp2] the descriptor buffer looked at last. *)
Fixpoint dir_groups (n : nat) (j avefreei : Z) (best : option (Z * gdptr)) (bp2 : option Z)
    : FS (option (Z * gdptr) * option Z) :=
  match n with
  | O => mret (best, bp2)
  | S n =>
      '(tmp, bp2) ← get_group_desc j;
      gd ← gd_load tmp;
      better ←
        (if negb (bg_free_inodes_count gd =? 0) && (avefreei <=? bg_free_inodes_count gd) then
           match best with
           | None => mret true
           | Some (_, gdp) =>
               gb ← gd_load gdp; mret (bg_free_blocks_count gb <? bg_free_blocks_count gd)
           end
         else mret false);
      dir_groups n (j + 1) avefreei (if better : bool then Some (j, tmp) else best) (Some bp2)
  end.

(** The quadratic hash: [for (j = 1; j < groups_count; j <<= 1)].  The shift
    leaves the positive range after 31 rounds. *)
Fixpoint quadratic_groups (n : nat) (i j : Z) : FS (option (Z * gdptr * Z)) :=
  match n with
  | O => out_of_fuel
  | S n =>
      ngroups ← gets (fun s => s_groups_count (geo s));
      if u64 j <? ngroups then
        let i := i32 (i + j) in
        let i := if ngroups <=? u64 i then i32 (i - ngroups) else i in
        '(tmp, bp2) ← get_group_desc i;
        gd ← gd_load tmp;
        if negb (bg_free_inodes_count gd =? 0) then mret (Some (i, tmp, bp2))
        else quadratic_groups n i (i32 (Z.shiftl j 1))
      else mret None
  end.

(** The linear search over all groups, cyclically after [i]. *)
Fixpoint linear_groups (n : nat) (i : Z) : FS (option (Z * gdptr * Z)) :=
  match n with
  | O => mret None
  | S n =>
      ngroups ← gets (fun s => s_groups_count (geo s));
      let i := if ngroups <=? u64 (i + 1) then 0 else i + 1 in
      '(tmp, bp2) ← get_group_desc i;
      gd ← gd_load tmp;
      if negb (bg_free_inodes_count gd =? 0) then mret (Some (i, tmp, bp2)) else linear_groups n i
  end.

(** The group, its descriptor and [bp2] for a directory. *)
Definition choose_dir_group : FS (option (Z * gdptr * Z)) :=
  s ← gets id;
  let avefreei := i32 (s_free_inodes_count (s_es s) / s_groups_count (geo s)) in
  '(best, bp2) ← dir_groups (Z.to_nat (s_groups_count (geo s))) 0 avefreei None None;
  match best with
  | None => mret None
  | Some (i, gdp) => bp2 ← access bp2; mret (Some (i, gdp, bp2))
  end.

(** The same for other inodes, near the group of the parent directory. *)
Definition choose_file_group (i_block_group : Z) : FS (option (Z * gdptr * Z)) :=
  s ← gets id;
  let i := i32 i_block_group in
  '(tmp, bp2) ← get_group_desc i;
  gd ← gd_load tmp;
  if negb (bg_free_inodes_count gd =? 0) then mret (Some (i, tmp, bp2))
  else
    r ← quadratic_groups 32 i 1;
    match r with
    | Some _ => mret r
    | None => linear_groups (Z.to_nat (s_groups_count (geo s))) i
    end.

(** ** Allocating *)

(** From [j += i * EXT2_INODES_PER_GROUP(sb) + 1] on. *)
Definition commit_inode (mode j : Z) (gdp : gdptr) (bp bp2 : Z) : FS (option Z) :=
  s ← gets id;
  if (j <? EXT2_FIRST_INO) || (s_inodes_count (s_es s) <? u32 j)
  then unlock_super;; mret (Some 0)
  else
    gd ← gd_load gdp;
    gd_store gdp (gd_set_free_inodes (u16 (bg_free_inodes_count gd - 1)));;
    (if S_ISDIR mode then
       gd ← gd_load gdp;
       gd_store gdp (gd_set_used_dirs (u16 (bg_used_dirs_count gd + 1)));;
       modify (set_dircount (fun n => i64 (n + 1)))
     else mret tt);;
    mark_buffer_dirty bp2;;
    es ← gets s_es;
    modify (set_es (es_set_free_inodes (u32 (s_free_inodes_count es - 1))));;
    modify set_dirt;;
    unlock_super;;
    buf_write bp;;
    mret (Some j).

(** One pass from [repeat:]; [None] is [goto repeat]. *)
Definition new_inode_pass (i_block_group mode : Z) : FS (option Z) :=
  r ← (if S_ISDIR mode then choose_dir_group else choose_file_group i_block_group);
  match r with
  | None => unlock_super;; mret (Some 0)
  | Some (i, gdp, bp2) =>
      bp ← load_inode_bitmap_buf i;
      data ← buf_data bp;
      ipg ← gets (fun s => e2fs_ipg (geo s));
      j ← access (find_first_zero_bit data ipg);
      let j := i32 j in
      if u64 j <? ipg then
        '(old, data') ← access (set_bit j data);
        buf_store bp data';;
        if old : bool then mret None
        else commit_inode mode (i32 (j + i * ipg + 1)) gdp bp bp2
      else
        gd ← gd_load gdp;
        if negb (bg_free_inodes_count gd =? 0) then unlock_super;; mret (Some 0)
        else mret None
  end.

Fixpoint new_inode_repeat (fuel : nat) (i_block_group mode : Z) : FS Z :=
  match fuel with
  | O => out_of_fuel
  | S fuel =>
      r ← new_inode_pass i_block_group mode;
      match r with
      | Some ino => mret ino
      | None => new_inode_repeat fuel i_block_group mode
      end
  end.

(** [ext2_new_inode dir mode] for a non-null [dir]; one pass is always enough
    ([ext2_new_inode_refines] below), the fuel allows a second one. *)
Definition ext2_new_inode (i_block_group mode : Z) : FS Z :=
  lock_super;; new_inode_repeat 2 i_block_group mode.

(** ** Program logic of the bitmap loads *)

Lemma wp_load_inode_bitmap_buf (Q : Z -> m_ext2fs -> Prop) s g gd bm :
  wf s -> is_group s g -> gd_of s g = Some gd -> wf_bitmap s InodeMap g gd bm ->
  s_lock s = true -> Q (fsbtodb (geo s) (bg_inode_bitmap gd)) s ->
  wp (load_inode_bitmap_buf g) Q s.
Proof.
  intros W Hg Hgd B L HQ. pose proof (wf_geometry _ W) as G.
  pose proof (wg_groups _ _ G). pose proof (blocks_count_small _ _ G).
  assert (wp (read_inode_bitmap g)
            (fun bp s' => bp = fsbtodb (geo s) (bg_inode_bitmap gd) /\ s' = s) s) as R.
  { unfold read_inode_bitmap. wp_steps. eapply wp_get_group_desc; [done..|]. wp_steps.
    eapply wp_gd_load; [done|]. pose proof (wb_block _ _ _ _ _ B) as Hb. cbn [bm_block] in Hb.
    wp_steps. apply wp_unlock_super; [done|]. wp_steps. unfold buf_meta_bread. wp_steps.
    mach. pose proof (wb_dev _ _ _ _ _ B) as Hd. cbn [bm_block] in Hd. cbn [geo dev set_lock id].
    rewrite Hd. wp_steps. apply wp_lock_super; [done|]. wp_steps.
    split; [done|]. rewrite set_lock_twice. by apply set_lock_same. }
  unfold load_inode_bitmap_buf, load_inode_bitmap. wp_steps. cbn [id].
  unfold is_group in Hg. rewrite uintw_small by lia.
  rewrite (proj2 (Z.leb_gt (s_groups_count (geo s)) g)) by lia.
  destruct (wf_caches _ W) as [_ [Cl Cb]]. rewrite Cl, Cb. cbn [Z.ltb Z.compare andb].
  destruct (Z.leb_spec (s_groups_count (geo s)) EXT2_MAX_GROUP_LOADED) as [H8|H8].
  - unfold EXT2_MAX_GROUP_LOADED in H8. rewrite lookup_replicate_2 by lia. wp_steps.
    eapply wp_mono; [exact R|]. intros ? ? [-> ->]. by wp_steps.
  - cbn [Z.to_nat find_number]. rewrite decide_False by lia. wp_steps.
    eapply wp_mono; [exact R|]. intros ? ? [-> ->]. by wp_steps.
Qed.

(** ** The choice of a group *)

Lemma groups_count_small s : wf s -> s_groups_count (geo s) <= 2 ^ 26.
Proof.
  intros W. pose proof (wf_geometry _ W) as G. pose proof (blocks_count_small _ _ G).
  pose proof (wg_last _ _ G). pose proof (wg_first _ _ G). pose proof (wg_groups _ _ G).
  destruct (wg_size _ _ G BlockMap) as [Hs _]. destruct (wg_bpg64 _ _ G) as [q Hq].
  cbn [bm_size] in Hs. nia.
Qed.

(** The free counts of a group, as read through its descriptor. *)
Lemma wf_free_of s k g gd :
  wf s -> is_group s g -> gd_of s g = Some gd ->
  free_of s k g = bm_free k gd /\ 0 <= bm_free k gd < 2 ^ 16.
Proof.
  intros W Hg Hgd. destruct (wf_group_bitmap s g k gd W Hg Hgd) as [bm B].
  destruct (free_counts s k g gd bm W Hg Hgd B). unfold free_of. by rewrite Hgd.
Qed.

Lemma wp_linear_groups n i (Q : option (Z * gdptr * Z) -> m_ext2fs -> Prop) s :
  wf s -> is_group s i ->
  (forall g, is_group s g -> 0 < free_of s InodeMap g ->
     Q (Some (g, gdp_of (geo s) g, (gdp_of (geo s) g).1)) s) ->
  ((forall t, 1 <= t <= Z.of_nat n ->
      free_of s InodeMap ((i + t) mod s_groups_count (geo s)) = 0) -> Q None s) ->
  wp (linear_groups n i) Q s.
Proof.
  intros W. pose proof (wg_groups _ _ (wf_geometry _ W)) as HN.
  set (N := s_groups_count (geo s)) in *.
  revert i. induction n as [|n IH]; intros i Hi HS HF; cbn [linear_groups].
  { wp_steps. apply HF. intros; lia. }
  wp_steps. fold N. unfold is_group in Hi. fold N in Hi. rewrite uintw_small by lia.
  set (i' := if N <=? i + 1 then 0 else i + 1).
  assert (i' = (i + 1) mod N /\ 0 <= i' < N) as [Ei' Hi'].
  { unfold i'. destruct (Z.leb_spec N (i + 1)).
    - replace (i + 1) with N by lia. rewrite Z.mod_same by lia. lia.
    - rewrite Z.mod_small by lia. lia. }
  destruct (wf_gd s i' W Hi') as [gd Hgd]. destruct (wf_free_of s InodeMap i' gd W Hi' Hgd) as [Ef Hf].
  cbn [bm_free] in Ef, Hf.
  eapply wp_get_group_desc; [apply W|done|done|]. wp_steps. eapply wp_gd_load; [done|].
  destruct (Z.eqb_spec (bg_free_inodes_count gd) 0) as [Hz|Hnz]; cbn [negb].
  2:{ wp_steps. apply HS; [done|lia]. }
  apply IH; [done|done|]. intros Hrest. apply HF. intros t Ht.
  destruct (decide (t = 1)) as [->|].
  - rewrite <- Ei'. lia.
  - specialize (Hrest (t - 1) ltac:(lia)). rewrite Ei', Zplus_mod_idemp_l in Hrest.
    by replace (i + 1 + (t - 1)) with (i + t) in Hrest by lia.
Qed.

(** The quadratic hash stays inside the file system and finishes within its fuel. *)
Lemma wp_quadratic_groups n k i (Q : option (Z * gdptr * Z) -> m_ext2fs -> Prop) s :
  wf s -> is_group s i -> 0 <= k <= 27 -> Z.of_nat n = 32 - k ->
  (forall g, is_group s g -> 0 < free_of s InodeMap g ->
     Q (Some (g, gdp_of (geo s) g, (gdp_of (geo s) g).1)) s) ->
  Q None s ->
  wp (quadratic_groups n i (2 ^ k)) Q s.
Proof.
  intros W. pose proof (groups_count_small s W) as HN.
  revert k i. induction n as [|n IH]; intros k i Hi Hk Hn HS HF; cbn [quadratic_groups]; [lia|].
  wp_steps. assert (0 < 2 ^ k <= 2 ^ 27) as H2k.
  { split; [apply Z.pow_pos_nonneg; lia|apply Z.pow_le_mono_r; lia]. }
  rewrite uintw_small by lia. destruct (Z.ltb_spec (2 ^ k) (s_groups_count (geo s))) as [Hlt|]; [|done].
  assert (k < 26) as Hk26 by (apply (Z.pow_lt_mono_r_iff 2); lia).
  unfold is_group in Hi. mach.
  set (i' := if s_groups_count (geo s) <=? i + 2 ^ k then _ else _).
  assert (is_group s i') as Hi'.
  { unfold i', is_group. destruct (Z.leb_spec (s_groups_count (geo s)) (i + 2 ^ k)); mach; lia. }
  destruct (wf_gd s i' W Hi') as [gd Hgd]. destruct (wf_free_of s InodeMap i' gd W Hi' Hgd) as [Ef Hf].
  cbn [bm_free] in Ef, Hf.
  wp_steps. eapply wp_get_group_desc; [apply W|done|done|]. wp_steps. eapply wp_gd_load; [done|].
  destruct (Z.eqb_spec (bg_free_inodes_count gd) 0) as [Hz|Hnz]; cbn [negb].
  2:{ wp_steps. apply HS; [done|lia]. }
  rewrite Z.shiftl_mul_pow2, sintw_small by lia. rewrite <- (Z.pow_add_r 2 k 1) by lia.
  apply IH; [done|lia|lia|done|done].
Qed.

Lemma wp_choose_file_group (Q : option (Z * gdptr * Z) -> m_ext2fs -> Prop) s i :
  wf s -> is_group s i ->
  (forall g, is_group s g -> 0 < free_of s InodeMap g -> (0 < free_of s InodeMap i -> g = i) ->
     Q (Some (g, gdp_of (geo s) g, (gdp_of (geo s) g).1)) s) ->
  (s_free_inodes_count (s_es s) = 0 -> Q None s) ->
  wp (choose_file_group i) Q s.
Proof.
  intros W Hi HS HF. pose proof (groups_count_small s W). unfold choose_file_group. wp_steps.
  pose proof Hi as Hi1. unfold is_group in Hi1. rewrite sintw_small by lia.
  destruct (wf_gd s i W Hi) as [gd Hgd]. destruct (wf_free_of s InodeMap i gd W Hi Hgd) as [Ef Hf].
  cbn [bm_free] in Ef, Hf.
  eapply wp_get_group_desc; [apply W|done|done|]. wp_steps. eapply wp_gd_load; [done|].
  destruct (Z.eqb_spec (bg_free_inodes_count gd) 0) as [Hz|Hnz]; cbn [negb]; wp_steps.
  2:{ apply HS; [done|lia|done]. }
  assert (forall g, is_group s g -> 0 < free_of s InodeMap g ->
     Q (Some (g, gdp_of (geo s) g, (gdp_of (geo s) g).1)) s) as HS' by (intros; apply HS; lia || done).
  change 1 with (2 ^ 0). apply wp_quadratic_groups; [done|done|lia|lia| |].
  { intros g Hg Hfg. wp_steps. by apply HS'. }
  apply wp_linear_groups; [done|done|done|].
  change (id s) with s. rewrite Z2Nat.id by lia. intros Hall. apply HF. by apply (no_group_free s InodeMap i).
Qed.

(** A group a directory may go to: it has a free inode, and no fewer than average. *)
Definition dir_qualifies (s : m_ext2fs) (g : Z) : Prop :=
  0 < free_of s InodeMap g /\
  s_free_inodes_count (s_es s) / s_groups_count (geo s) <= free_of s InodeMap g.

(** The first group with the most free blocks among the qualifying groups below [j]. *)
Definition best_dir_group (s : m_ext2fs) (j i : Z) : Prop :=
  0 <= i < j /\ dir_qualifies s i /\
  forall g, 0 <= g < j -> dir_qualifies s g ->
    free_of s BlockMap g <= free_of s BlockMap i /\
    (g < i -> free_of s BlockMap g < free_of s BlockMap i).

Definition best_so_far (s : m_ext2fs) (j : Z) (best : option (Z * gdptr)) : Prop :=
  match best with
  | None => forall g, 0 <= g < j -> ~ dir_qualifies s g
  | Some (i, p) => p = gdp_of (geo s) i /\ best_dir_group s j i
  end.

Lemma best_so_far_step s j best gd (better : bool) :
  wf s -> is_group s j -> gd_of s j = Some gd -> best_so_far s j best ->
  (better = true <-> dir_qualifies s j /\
     match best with Some (i, _) => free_of s BlockMap i < free_of s BlockMap j | None => True end) ->
  best_so_far s (j + 1) (if better then Some (j, gdp_of (geo s) j) else best).
Proof.
  intros W Hj Hgd Hb Hbetter. unfold is_group in Hj. destruct better.
  - destruct Hbetter as [H _]. destruct (H eq_refl) as [Hq Hm]. split; [done|].
    split; [lia|]. split; [done|]. intros g Hg Hqg. destruct (decide (g = j)) as [->|]; [lia|].
    destruct best as [[i p]|].
    + destruct Hb as (_ & _ & _ & Hall). specialize (Hall g ltac:(lia) Hqg). lia.
    + exfalso. apply (Hb g); [lia|done].
  - assert (dir_qualifies s j -> match best with
      Some (i, _) => free_of s BlockMap j <= free_of s BlockMap i | None => False end) as Hn.
    { intros Hq. destruct best as [[i p]|].
      - destruct (decide (free_of s BlockMap i < free_of s BlockMap j)); [|lia].
        by assert (false = true) by by apply Hbetter.
      - by assert (false = true) by by apply Hbetter. }
    destruct best as [[i p]|]; cbn in *.
    + destruct Hb as (-> & Hi & Hqi & Hall). split; [done|]. split; [lia|]. split; [done|].
      intros g Hg Hqg. destruct (decide (g = j)) as [->|]; [specialize (Hn Hqg); lia|].
      apply Hall; [lia|done].
    + intros g Hg Hqg. destruct (decide (g = j)) as [->|]; [by apply Hn|]. apply (Hb g); [lia|done].
Qed.

Lemma wp_dir_groups n j best bp2 (Q : option (Z * gdptr) * option Z -> m_ext2fs -> Prop) s :
  wf s -> 0 <= j -> j + Z.of_nat n = s_groups_count (geo s) -> best_so_far s j best ->
  (0 < j -> bp2 = Some (gdp_of (geo s) (j - 1)).1) ->
  (forall best', best_so_far s (s_groups_count (geo s)) best' ->
     Q (best', Some (gdp_of (geo s) (s_groups_count (geo s) - 1)).1) s) ->
  wp (dir_groups n j (s_free_inodes_count (s_es s) / s_groups_count (geo s)) best bp2) Q s.
Proof.
  intros W. pose proof (wg_groups _ _ (wf_geometry _ W)) as HN.
  revert j best bp2. induction n as [|n IH]; intros j best bp2 Hj Hn Hb Hbp HQ; cbn [dir_groups].
  { wp_steps. rewrite Hbp by lia. replace j with (s_groups_count (geo s)) in * by lia. by apply HQ. }
  assert (is_group s j) as Hg by (unfold is_group; lia).
  destruct (wf_gd s j W Hg) as [gd Hgd].
  destruct (wf_free_of s InodeMap j gd W Hg Hgd) as [Ef Hf].
  destruct (wf_free_of s BlockMap j gd W Hg Hgd) as [Ebf Hbf]. cbn [bm_free] in Ef, Hf, Ebf, Hbf.
  wp_steps. eapply wp_get_group_desc; [apply W|done|done|]. wp_steps. eapply wp_gd_load; [done|].
  set (avg := s_free_inodes_count (s_es s) / s_groups_count (geo s)) in *.
  assert (forall better, (better = true <-> dir_qualifies s j /\
     match best with Some (i, _) => free_of s BlockMap i < free_of s BlockMap j | None => True end) ->
     wp (dir_groups n (j + 1) avg (if better : bool then Some (j, gdp_of (geo s) j) else best)
           (Some (gdp_of (geo s) j).1)) Q s) as Hnext.
  { intros better Hbet. apply IH; [lia|lia|by eapply best_so_far_step| |done].
    intros _. by rewrite Z.add_simpl_r. }
  wp_steps. unfold dir_qualifies in Hnext. fold avg in Hnext. rewrite Ef, Ebf in Hnext.
  destruct (Z.eqb_spec (bg_free_inodes_count gd) 0) as [Hz|Hnz]; cbn [negb andb].
  { wp_steps. apply (Hnext false). split; [done|lia]. }
  destruct (Z.leb_spec avg (bg_free_inodes_count gd)).
  2:{ wp_steps. apply (Hnext false). split; [done|lia]. }
  destruct best as [[i p]|].
  - destruct Hb as (-> & Hi & _). assert (is_group s i) as Hgi by (unfold is_group; lia).
    destruct (wf_gd s i W Hgi) as [gi Hgdi].
    destruct (wf_free_of s BlockMap i gi W Hgi Hgdi) as [Ei _]. cbn [bm_free] in Ei.
    wp_steps. eapply wp_gd_load; [done|]. wp_steps. apply Hnext. rewrite Ei, Z.ltb_lt. lia.
  - wp_steps. apply (Hnext true). split; [intros _; split; [lia|done]|done].
Qed.

(** Some group has at least the average number of free inodes. *)
Lemma dir_group_exists s :
  wf s -> (forall g, is_group s g -> ~ dir_qualifies s g) -> s_free_inodes_count (s_es s) = 0.
Proof.
  intros W H. pose proof (wg_groups _ _ (wf_geometry _ W)) as HN. unfold dir_qualifies in H.
  pose proof (wf_total _ W InodeMap) as T. cbn [es_free] in T.
  set (N := s_groups_count (geo s)) in *. set (total := s_free_inodes_count (s_es s)) in *.
  assert (Forall (fun x => 0 <= x) (free_of s InodeMap <$> groups s)) as F0.
  { apply Forall_fmap, Forall_forall. intros g Hg. apply elem_of_seqZ in Hg. cbn.
    assert (is_group s g) as Hgr by (unfold is_group; lia).
    destruct (wf_gd s g W Hgr) as [gd Hgd]. destruct (wf_free_of s InodeMap g gd W Hgr Hgd). lia. }
  pose proof (sumZ_nonneg _ F0) as Hnn. unfold total_free in T. rewrite <- T in Hnn.
  destruct (decide (total = 0)); [done|]. exfalso.
  assert (Forall (fun x => x <= Z.max 0 (total / N - 1)) (free_of s InodeMap <$> groups s)) as F.
  { apply Forall_fmap, Forall_forall. intros g Hg. apply elem_of_seqZ in Hg. cbn.
    specialize (H g ltac:(unfold is_group; lia)). lia. }
  apply sumZ_le in F. rewrite length_fmap in F. unfold groups in F at 2. rewrite length_seqZ, <- T in F.
  fold N in F. rewrite Z2Nat.id in F by lia. pose proof (Z.mul_div_le total N ltac:(lia)).
  pose proof (Z.div_pos total N ltac:(lia) ltac:(lia)). nia.
Qed.

Lemma free_inodes_bound s : wf s -> s_free_inodes_count (s_es s) <= s_inodes_count (s_es s).
Proof.
  intros W. pose proof (wf_geometry _ W) as G. pose proof (wg_groups _ _ G).
  pose proof (wf_total _ W InodeMap) as T. cbn [es_free] in T. rewrite T, (wg_inodes _ _ G).
  unfold total_free. etrans; [apply (sumZ_le _ (e2fs_ipg (geo s)))|].
  - apply Forall_fmap, Forall_forall. intros g Hg. apply elem_of_seqZ in Hg. cbn.
    destruct (wf_groups _ W g ltac:(unfold is_group; lia)) as (gd & Hgd & _ & _ & HB).
    destruct (HB InodeMap) as [bm B]. unfold free_of. rewrite Hgd, (wb_count _ _ _ _ _ B).
    pose proof (count_clear_bound (bitat bm) (Z.to_nat (bm_size InodeMap (geo s)))).
    destruct (wg_size _ _ G InodeMap). cbn [bm_size] in *. lia.
  - unfold groups. rewrite length_fmap, length_seqZ. lia.
Qed.

Lemma wp_choose_dir_group (Q : option (Z * gdptr * Z) -> m_ext2fs -> Prop) s :
  wf s ->
  (forall g, best_dir_group s (s_groups_count (geo s)) g ->
     Q (Some (g, gdp_of (geo s) g, (gdp_of (geo s) (s_groups_count (geo s) - 1)).1)) s) ->
  (s_free_inodes_count (s_es s) = 0 -> Q None s) ->
  wp choose_dir_group Q s.
Proof.
  intros W HS HF. pose proof (groups_count_small s W). pose proof (wg_groups _ _ (wf_geometry _ W)) as HN.
  assert (0 <= s_free_inodes_count (s_es s) / s_groups_count (geo s) < 2 ^ 31) as Havg.
  { assert (is_group s 0) as H0 by (unfold is_group; lia). destruct (wf_gd s 0 W H0) as [gd Hgd].
    destruct (wf_group_bitmap s 0 InodeMap gd W H0 Hgd) as [bm B].
    destruct (free_counts s InodeMap 0 gd bm W H0 Hgd B) as [Hf1 Hf2]. cbn [bm_free es_free] in Hf1, Hf2.
    split; [apply Z.div_pos; lia|]. apply Z.div_lt_upper_bound; [lia|].
    pose proof (wg_inodes31 _ _ (wf_geometry _ W)). pose proof (free_inodes_bound s W). nia. }
  unfold choose_dir_group. wp_steps. change (id s) with s. rewrite sintw_small by lia.
  apply wp_dir_groups; [done|lia|rewrite Z2Nat.id; lia|intros g ?; lia|lia|].
  intros [[i p]|] Hb; wp_steps.
  - destruct Hb as [-> Hb]. by apply HS.
  - apply HF. apply dir_group_exists; [done|]. intros g Hg. by apply Hb.
Qed.

(** ** Which inodes are in use *)

Definition inodeno (s : m_ext2fs) (g n : Z) : Z := n + g * e2fs_ipg (geo s) + 1.
Definition inode_group_of (s : m_ext2fs) (ino : Z) : Z := (ino - 1) / e2fs_ipg (geo s).
Definition inode_bit_of (s : m_ext2fs) (ino : Z) : Z := (ino - 1) mod e2fs_ipg (geo s).

Definition inode_used (s : m_ext2fs) (ino : Z) : bool :=
  bitmap_bit s InodeMap (inode_group_of s ino) (inode_bit_of s ino).

Definition inode_space (s : m_ext2fs) : gset Z := zone 1 (s_inodes_count (s_es s) + 1).
Definition used_inodes (s : m_ext2fs) : gset Z :=
  filter (fun i => inode_used s i = true) (inode_space s).

Lemma elem_of_used_inodes s i :
  i ∈ used_inodes s <-> inode_used s i = true /\ 1 <= i <= s_inodes_count (s_es s).
Proof. unfold used_inodes, inode_space. rewrite elem_of_filter, elem_of_zone. split; intros [? ?]; (split; [done|lia]). Qed.

Lemma ipg_range s : wf s -> 0 < e2fs_ipg (geo s) < 2 ^ 16.
Proof. intros W. apply (wg_size _ _ (wf_geometry _ W) InodeMap). Qed.

Lemma inode_group_ok s ino :
  wf s -> 1 <= ino <= s_inodes_count (s_es s) ->
  is_group s (inode_group_of s ino) /\ 0 <= inode_bit_of s ino < e2fs_ipg (geo s) /\
  inodeno s (inode_group_of s ino) (inode_bit_of s ino) = ino.
Proof.
  intros W Hi. rewrite (wg_inodes _ _ (wf_geometry _ W)) in Hi. pose proof (ipg_range s W).
  unfold is_group, inode_group_of, inode_bit_of, inodeno.
  pose proof (Z.div_mod (ino - 1) (e2fs_ipg (geo s)) ltac:(lia)).
  pose proof (Z.mod_pos_bound (ino - 1) (e2fs_ipg (geo s)) ltac:(lia)).
  split_and!; [apply Z.div_pos; lia| |lia|lia|lia]. apply Z.div_lt_upper_bound; lia.
Qed.

Lemma inodeno_ok s g j :
  wf s -> is_group s g -> 0 <= j < e2fs_ipg (geo s) ->
  1 <= inodeno s g j <= s_inodes_count (s_es s) /\
  inode_group_of s (inodeno s g j) = g /\ inode_bit_of s (inodeno s g j) = j.
Proof.
  intros W Hg Hj. rewrite (wg_inodes _ _ (wf_geometry _ W)).
  unfold is_group, inode_group_of, inode_bit_of, inodeno in *.
  rewrite Z.add_simpl_r, Z.div_add, Z.div_small, Z.mod_add, Z.mod_small by lia. nia.
Qed.

(** ** The effect of taking or releasing an inode *)

(** The descriptor after the inode counts changed by [x] and, for a directory, the
    directory count by [-x]. *)
Definition inode_gd (isdir : bool) (x : Z) (gd : group_desc) : group_desc :=
  let gd := gd_set_free_inodes (bg_free_inodes_count gd + x) gd in
  if isdir then gd_set_used_dirs (u16 (bg_used_dirs_count gd - x)) gd else gd.

(** [s'] is [s] with bit [j] of the inode bitmap of group [g] changed to [v], the
    counters adjusted by [x], and descriptor buffer [bp2] marked dirty. *)
Record inode_changed (s : m_ext2fs) (g j x : Z) (v isdir : bool) (bp2 : Z) (s' : m_ext2fs) : Prop := {
  ic_wf : wf s';
  ic_lock : s_lock s' = false;
  ic_dirt : s_dirt s' = true;
  ic_gd_dirty : bp2 ∈ s_gd_dirty s';
  ic_dircount : s_dircount s' = if isdir then i64 (s_dircount s - x) else s_dircount s;
  ic_bits : exists gd bm bm',
    gd_of s g = Some gd /\ wf_bitmap s InodeMap g gd bm /\
    bitat bm j = negb v /\ bit_updated bm bm' j v /\
    bm_changed s s' InodeMap g gd (inode_gd isdir x gd) bm' /\
    fsbtodb (geo s) (bg_inode_bitmap gd) ∈ written s';
}.

(** Deriving it from the fields of the final state. *)
Lemma inode_changed_intro s s' g j x v isdir bp2 gd bm bm' :
  wf s -> is_group s g -> gd_of s g = Some gd -> wf_bitmap s InodeMap g gd bm ->
  0 <= j < e2fs_ipg (geo s) -> bitat bm j = negb v -> bit_updated bm bm' j v ->
  x = (if v then -1 else 1) -> ~ reserved s InodeMap g gd j ->
  geo s' = geo s ->
  s_es s' = es_set_free_inodes (s_free_inodes_count (s_es s) + x) (s_es s) ->
  (forall g', 0 <= g' -> gd_of s' g' =
     if decide (g = g') then inode_gd isdir x <$> gd_of s g' else gd_of s g') ->
  dev s' = <[fsbtodb (geo s) (bg_inode_bitmap gd) := bm']> (dev s) ->
  s_block_cache s' = s_block_cache s -> s_inode_cache s' = s_inode_cache s ->
  s_lock s' = false -> s_dirt s' = true -> bp2 ∈ s_gd_dirty s' ->
  s_dircount s' = (if isdir then i64 (s_dircount s - x) else s_dircount s) ->
  fsbtodb (geo s) (bg_inode_bitmap gd) ∈ written s' ->
  inode_changed s g j x v isdir bp2 s'.
Proof.
  intros W Hg Hgd B Hj Hb U Hx NR Eg Ee Egd Ed Ec1 Ec2 L D GD DC Wr.
  destruct (wf_groups _ W g Hg) as (gd0 & E0 & _ & Hu & _). rewrite Hgd in E0. injection E0 as <-.
  assert (bm_changed s s' InodeMap g gd (inode_gd isdir x gd) bm') as C.
  { split; try done.
    - rewrite Ee. cbn. f_equal. destruct isdir; cbn; lia.
    - intros g' Hg'. rewrite Egd by apply Hg'. destruct (decide (g = g')) as [<-|]; [|done].
      by rewrite Hgd.
    - intros []; by destruct isdir.
    - intros [] ?; [by destruct isdir|done].
    - by destruct isdir.
    - destruct isdir; cbn; [apply uintw_bound; lia|done]. }
  split; try done; [|by exists gd, bm, bm'].
  eapply (bm_changed_wf s s'); try done; [apply (bu_wf _ _ _ _ U), B|apply U| |].
  - pose proof (wb_count _ _ _ _ _ B) as Hc. cbn [bm_free bm_size] in *.
    assert (bg_free_inodes_count (inode_gd isdir x gd) = bg_free_inodes_count gd + x) as ->
      by by destruct isdir.
    assert (forall i, 0 <= i -> bitat bm' i = if decide (i = j) then v else bitat bm i) as Hbits
      by apply U.
    destruct v.
    + rewrite (count_clear_set (bitat bm) (bitat bm') _ j); [lia|lia|done| |].
      * rewrite Hbits by lia. by rewrite decide_True.
      * intros i Hi Hne. rewrite Hbits by lia. by rewrite decide_False.
    + rewrite Hc, (count_clear_set (bitat bm') (bitat bm) _ j); [lia|lia| |done|].
      * rewrite Hbits by lia. by rewrite decide_True.
      * intros i Hi Hne. rewrite Hbits by lia. by rewrite decide_False.
  - intros n Hn Hr. rewrite (bu_bits _ _ _ _ U) by lia.
    destruct (decide (n = j)) as [->|]; [by destruct NR|]. by apply (wb_reserved _ _ _ _ _ B).
Qed.

(** The side conditions of [inode_changed_intro] that hold by computation. *)
Ltac inode_changed_side :=
  lazymatch goal with
  | |- _ ∈ _ => apply elem_of_union_l, elem_of_singleton; reflexivity
  | |- s_es _ = _ => idtac
  | |- forall _, _ => idtac
  | |- ~ _ => assumption
  | |- _ <= _ < _ => assumption
  | |- _ => first [assumption | reflexivity]
  end.

(** A clear inode bit is an allocatable inode. *)
Lemma free_inode_not_reserved s g gd bm j :
  wf s -> wf_bitmap s InodeMap g gd bm -> 0 <= j < e2fs_ipg (geo s) -> bitat bm j = false ->
  EXT2_FIRST_INO <= inodeno s g j /\ ~ reserved s InodeMap g gd j.
Proof.
  intros W B Hj Hc. assert (~ reserved s InodeMap g gd j) as NR.
  { intros Hr. by rewrite (wb_reserved _ _ _ _ _ B) in Hc. }
  split; [|done]. unfold reserved, inodeno in *. lia.
Qed.

Lemma wp_commit_inode (Q : option Z -> m_ext2fs -> Prop) mode s g j bp2 gd bm bm' :
  wf s -> is_group s g -> gd_of s g = Some gd -> wf_bitmap s InodeMap g gd bm ->
  0 <= j < e2fs_ipg (geo s) -> bitat bm j = false -> bit_updated bm bm' j true -> s_lock s = true ->
  (forall s', inode_changed s g j (-1) true (S_ISDIR mode) bp2 s' -> Q (Some (inodeno s g j)) s') ->
  wp (commit_inode mode (inodeno s g j) (gdp_of (geo s) g)
        (fsbtodb (geo s) (bg_inode_bitmap gd)) bp2) Q
     (set_dev (fsbtodb (geo s) (bg_inode_bitmap gd)) bm' s).
Proof.
  intros W Hg Hgd B Hj Hc U L HQ. pose proof (wf_geometry _ W) as G.
  destruct (free_counts s InodeMap g gd bm W Hg Hgd B) as [F1 F2]. cbn [bm_free es_free] in F1, F2.
  destruct (free_inode_not_reserved s g gd bm j W B Hj Hc) as [Hfirst NR].
  destruct (inodeno_ok s g j W Hg Hj) as (Hr & _ & _). pose proof (wg_inodes31 _ _ G).
  assert (0 < bg_free_inodes_count gd) as Hpos.
  { pose proof (wb_count _ _ _ _ _ B) as E. cbn [bm_free bm_size] in E. rewrite E.
    apply count_clear_pos. exists j. split; [lia|done]. }
  unfold commit_inode. wp_steps. cbn [id s_es set_dev]. rewrite uintw_small by lia.
  rewrite (proj2 (Z.ltb_ge _ _) Hfirst), (proj2 (Z.ltb_ge (s_inodes_count (s_es s)) _)) by lia.
  cbn [orb]. set (s1 := set_dev _ bm' s).
  wp_steps. eapply (wp_gd_load _ s1 g gd); [done|]. unfold gd_store, mark_buffer_dirty, buf_write. wp_steps.
  assert (forall g' f, 0 <= g' -> gd_of (gd_update (gdp_of (geo s) g) f s1) g' =
            if decide (g = g') then f <$> gd_of s g' else gd_of s g') as Hupd.
  { intros g' f Hg'. exact (gd_of_update s1 (s_es s) g g' f G (proj1 Hg) Hg'). }
  destruct (S_ISDIR mode) eqn:ED; wp_steps.
  - set (s2 := gd_update _ _ s1) in *.
    eapply (wp_gd_load _ s2 g (gd_set_free_inodes (bg_free_inodes_count gd - 1) gd)).
    { unfold s2. rewrite Hupd, decide_True, Hgd by (done || apply Hg). cbn. by rewrite uintw_small by lia. }
    wp_steps. apply wp_unlock_super; [done|]. wp_steps. apply HQ.
    apply (inode_changed_intro s _ g j (-1) true true bp2 gd bm bm'); inode_changed_side.
    + cbn. rewrite uintw_small by lia. done.
    + intros g' Hg'.
      transitivity (gd_of (gd_update (gdp_of (geo s2) g)
        (gd_set_used_dirs (u16 (bg_used_dirs_count gd + 1))) s2) g'); [reflexivity|].
      rewrite (gd_of_update s2 (s_es s) g g'); [|done|apply Hg|done]. unfold s2. rewrite Hupd by done.
      destruct (decide (g = g')) as [<-|]; [|done]. rewrite Hgd. cbn. unfold inode_gd.
      rewrite (uintw_small 16 (bg_free_inodes_count gd - 1)) by lia. done.
  - apply wp_unlock_super; [done|]. wp_steps. apply HQ.
    apply (inode_changed_intro s _ g j (-1) true false bp2 gd bm bm'); inode_changed_side.
    + cbn. rewrite uintw_small by lia. done.
    + intros g' Hg'. transitivity (gd_of (gd_update (gdp_of (geo s) g)
        (gd_set_free_inodes (u16 (bg_free_inodes_count gd - 1))) s1) g'); [reflexivity|].
      rewrite Hupd by done.
      destruct (decide (g = g')) as [<-|]; [|done]. rewrite Hgd. cbn. by rewrite uintw_small by lia.
Qed.

(** Where a successful allocation puts the inode, and which descriptor buffer it
    marks dirty. *)
Definition chosen_group (s : m_ext2fs) (i_block_group mode g bp2 : Z) : Prop :=
  if S_ISDIR mode then
    best_dir_group s (s_groups_count (geo s)) g /\
    bp2 = (gdp_of (geo s) (s_groups_count (geo s) - 1)).1
  else
    is_group s g /\ 0 < free_of s InodeMap g /\
    (0 < free_of s InodeMap i_block_group -> g = i_block_group) /\
    bp2 = (gdp_of (geo s) g).1.

Lemma chosen_group_free s ibg mode g bp2 :
  chosen_group s ibg mode g bp2 -> is_group s g /\ 0 < free_of s InodeMap g.
Proof.
  unfold chosen_group, best_dir_group, is_group, dir_qualifies. destruct (S_ISDIR mode); intros; tauto.
Qed.

(** A new inode [ino]. *)
Record inode_allocated (s : m_ext2fs) (ibg mode : Z) (ino : Z) (g j bp2 : Z) (s' : m_ext2fs) : Prop := {
  ia_group : is_group s g;
  ia_chosen : chosen_group s ibg mode g bp2;
  ia_bit : 0 <= j < e2fs_ipg (geo s);
  ia_first : forall n, 0 <= n < j -> bitmap_bit s InodeMap g n = true;
  ia_ino : ino = inodeno s g j;
  ia_min : EXT2_FIRST_INO <= ino;
  ia_changed : inode_changed s g j (-1) true (S_ISDIR mode) bp2 s';
}.

Lemma wp_new_inode_pass (Q : option Z -> m_ext2fs -> Prop) s ibg mode :
  wf s -> is_group s ibg -> s_lock s = true ->
  (forall ino g j bp2 s', inode_allocated s ibg mode ino g j bp2 s' -> Q (Some ino) s') ->
  (s_free_inodes_count (s_es s) = 0 -> Q (Some 0) (set_lock false s)) ->
  wp (new_inode_pass ibg mode) Q s.
Proof.
  intros W Hi L HQ HF. pose proof (wf_geometry _ W) as G. pose proof (ipg_range s W).
  unfold new_inode_pass. apply wp_bind.
  match goal with |- wp _ ?P s => set (Qc := P) end.
  assert (s_free_inodes_count (s_es s) = 0 -> Qc None s) as HN.
  { intros Hz. unfold Qc. wp_steps. apply wp_unlock_super; [done|]. wp_steps. by apply HF. }
  assert (forall g bp2, chosen_group s ibg mode g bp2 -> Qc (Some (g, gdp_of (geo s) g, bp2)) s) as HS.
  { intros g bp2 Hch. destruct (chosen_group_free s ibg mode g bp2 Hch) as [Hg Hpos]. unfold Qc.
    destruct (wf_gd s g W Hg) as [gd Hgd].
    destruct (wf_group_bitmap s g InodeMap gd W Hg Hgd) as [bm B].
    destruct (wf_free_of s InodeMap g gd W Hg Hgd) as [Ef _]. cbn [bm_free] in Ef.
    destruct (wf_nbits _ _ _ _ _ W B) as (_ & D & Hn). cbn [bm_size] in Hn.
    wp_steps. eapply wp_load_inode_bitmap_buf; try done. wp_steps. eapply wp_buf_data; [apply B|]. wp_steps.
    destruct (find_first_zero_bit_first bm (e2fs_ipg (geo s))) as (j & Hj & [R Bf A]);
      [apply B|done|lia|lia|].
    eapply wp_access; [exact Hj|]. mach.
    assert (j < e2fs_ipg (geo s)) as Hjlt.
    { destruct (decide (j = e2fs_ipg (geo s))) as [->|]; [|lia]. exfalso.
      pose proof (wb_count _ _ _ _ _ B) as Hc. cbn [bm_free bm_size] in Hc.
      rewrite Ef, Hc in Hpos. apply count_clear_pos in Hpos as (n & Hn1 & Hn2).
      by rewrite Bf in Hn2 by lia. }
    rewrite (proj2 (Z.ltb_lt _ _)) by lia.
    assert (bitat bm j = false) as Hclear by (apply A; lia).
    destruct (set_bit_ok j bm) as (bm' & Hset & U); [lia|]. wp_steps.
    eapply wp_access; [exact Hset|]. rewrite Hclear. unfold buf_store. wp_steps.
    destruct (inodeno_ok s g j W Hg ltac:(lia)) as (Hr & _). pose proof (wg_inodes31 _ _ G).
    fold (inodeno s g j). rewrite sintw_small by lia.
    eapply wp_commit_inode; try done; [lia|]. intros s' C. apply (HQ _ g j bp2).
    split; try done; [lia| |apply (free_inode_not_reserved s g gd bm j); done || lia].
    intros n Hn'. rewrite (bitmap_bit_wf s InodeMap g gd bm) by done. apply Bf. lia. }
  unfold chosen_group in HS. destruct (S_ISDIR mode) eqn:ED.
  - apply wp_choose_dir_group; [done| |done]. intros g Hb. by apply HS.
  - apply wp_choose_file_group; [done|done| |done]. intros g Hg Hf Hp. by apply HS.
Qed.

Lemma inode_allocated_lock l s ibg mode ino g j bp2 s' :
  inode_allocated (set_lock l s) ibg mode ino g j bp2 s' -> inode_allocated s ibg mode ino g j bp2 s'.
Proof.
  intros [H1 H2 H3 H4 H5 H6 [C1 C2 C3 C4 C5 (gd & bm & bm' & Hgd & B & Hc & U & [] & Wr)]].
  split; try done. split; try done. exists gd, bm, bm'. split_and!; try done.
  by apply (wf_bitmap_lock l).
Qed.

Lemma wp_new_inode (Q : Z -> m_ext2fs -> Prop) s ibg mode :
  wf s -> is_group s ibg -> s_lock s = false ->
  (forall ino g j bp2 s', inode_allocated s ibg mode ino g j bp2 s' -> Q ino s') ->
  (s_free_inodes_count (s_es s) = 0 -> Q 0 s) ->
  wp (ext2_new_inode ibg mode) Q s.
Proof.
  intros W Hi L HQ HF. unfold ext2_new_inode. wp_steps. apply wp_lock_super; [done|].
  cbn [new_inode_repeat]. wp_steps. apply wp_new_inode_pass; [by apply wf_lock|done|done| |].
  - intros ino g j bp2 s' A. wp_steps. apply (HQ ino g j bp2). by apply (inode_allocated_lock true).
  - intros Hz. wp_steps. rewrite set_lock_twice, set_lock_same by done. by apply HF.
Qed.

(** ** [ext2_free_inode] *)

Lemma valid_inode_not_reserved s ino gd :
  wf s -> EXT2_FIRST_INO <= ino <= s_inodes_count (s_es s) ->
  ~ reserved s InodeMap (inode_group_of s ino) gd (inode_bit_of s ino).
Proof.
  intros W Hi. destruct (inode_group_ok s ino W) as (_ & _ & E); [unfold EXT2_FIRST_INO in Hi; lia|].
  unfold reserved, inodeno in *. lia.
Qed.

(** Freeing a number whose bit is already clear only rewrites the bitmap. *)
Definition free_inode_noop (s s' : m_ext2fs) : Prop :=
  wf s' /\ s_lock s' = false /\ s_es s' = s_es s /\ s_group_desc s' = s_group_desc s /\
  geo s' = geo s /\ dev s' = dev s /\ s_dircount s' = s_dircount s.

Lemma bit_updated_same bm bm' j v :
  wf_bytes bm -> bitat bm j = v -> bit_updated bm bm' j v -> 0 <= j < nbits bm -> bm' = bm.
Proof.
  intros Wb E [U1 U2 U3] Hj. apply list_eq. intros i.
  destruct (decide (i < length bm)%nat) as [Hi|Hi].
  2:{ by rewrite !lookup_ge_None_2 by lia. }
  destruct (lookup_lt_is_Some_2 bm i Hi) as [a Ha].
  destruct (lookup_lt_is_Some_2 bm' i ltac:(lia)) as [b Hb]. rewrite Ha, Hb. f_equal.
  pose proof (Forall_lookup_1 _ _ _ _ Wb Ha) as Ra. pose proof (Forall_lookup_1 _ _ _ _ (U3 Wb) Hb) as Rb.
  apply Z.bits_inj'. intros n Hn. destruct (decide (n < 8)) as [Hn8|].
  2:{ rewrite !(testbit_high _ 8) by (cbn in *; lia). done. }
  specialize (U1 (8 * Z.of_nat i + n) ltac:(lia)). unfold bitat in U1, E.
  rewrite (Z.mul_comm 8), Z.div_add_l, Z.div_small, Z.add_0_r, Nat2Z.id, Ha, Hb in U1 by lia.
  rewrite Z.add_comm, Z.mod_add, Z.mod_small in U1 by lia. rewrite U1.
  destruct (decide _) as [<-|]; [|done]. rewrite <- E.
  rewrite (Z.add_comm n), Z.div_add_l, Z.div_small, Z.add_0_r, Nat2Z.id, Ha by lia.
  rewrite Z.add_comm, Z.mod_add, Z.mod_small by lia. done.
Qed.

Lemma wp_ext2_free_inode (Q : unit -> m_ext2fs -> Prop) s ino mode :
  wf s -> s_lock s = false -> EXT2_FIRST_INO <= ino <= s_inodes_count (s_es s) ->
  let g := inode_group_of s ino in let j := inode_bit_of s ino in
  (forall s', bitmap_bit s InodeMap g j = true ->
     inode_changed s g j 1 false (S_ISDIR mode) (gdp_of (geo s) g).1 s' -> Q tt s') ->
  (forall s', bitmap_bit s InodeMap g j = false -> free_inode_noop s s' -> Q tt s') ->
  wp (ext2_free_inode ino 0 mode) Q s.
Proof.
  intros W L Hi g j HS HF. pose proof (wf_geometry _ W) as G. pose proof (ipg_range s W).
  pose proof (wg_inodes31 _ _ G). assert (EXT2_FIRST_INO = 11) as E11 by done.
  destruct (inode_group_ok s ino W ltac:(lia)) as (Hg & Hj & _). fold g j in Hg, Hj.
  destruct (wf_gd s g W Hg) as [gd Hgd]. destruct (wf_group_bitmap s g InodeMap gd W Hg Hgd) as [bm B].
  destruct (free_counts s InodeMap g gd bm W Hg Hgd B) as [F1 F2]. cbn [bm_free es_free] in F1, F2.
  destruct (wf_nbits _ _ _ _ _ W B) as (_ & D & Hn). cbn [bm_size] in Hn.
  rewrite (bitmap_bit_wf s InodeMap g gd bm j Hgd B) in HS, HF.
  unfold ext2_free_inode. cbn [negb Z.eqb]. wp_steps. apply wp_lock_super; [done|]. wp_steps.
  cbn [id s_es geo set_lock]. fold (inode_group_of s ino) (inode_bit_of s ino). fold g j.
  rewrite (proj2 (Z.ltb_ge ino _)), (proj2 (Z.ltb_ge (s_inodes_count (s_es s)) _)) by lia. cbn [orb].
  set (s1 := set_lock true s). assert (wf s1) as W1 by by apply wf_lock.
  assert (wf_bitmap s1 InodeMap g gd bm) as B1 by by destruct B.
  wp_steps. eapply (wp_load_inode_bitmap_buf _ s1 g gd bm); [done..|]. wp_steps.
  eapply wp_buf_data; [apply B1|]. wp_steps.
  destruct (clear_bit_ok j bm) as (bm' & Hclr & U); [lia|].
  eapply wp_access; [exact Hclr|]. unfold buf_store, gd_store, mark_buffer_dirty, buf_write. wp_steps.
  cbn [geo set_lock s1]. destruct (bitat bm j) eqn:Ej; wp_steps.
  2:{ apply wp_unlock_super; [done|]. wp_steps. apply HF; [done|].
      assert (bm' = bm) as -> by (eapply bit_updated_same; [apply B|done|done|lia]).
      rewrite set_dev_id by apply B1.
      split; [|done]. apply (wf_same_core s1); [done|done]. }
  set (s2 := set_dev _ bm' s1).
  assert (count_clear (bitat bm) (Z.to_nat (e2fs_ipg (geo s))) < e2fs_ipg (geo s)) as Hlt.
  { pose proof (count_clear_bound (bitat bm') (Z.to_nat (e2fs_ipg (geo s)))) as Hb.
    rewrite (count_clear_set (bitat bm') (bitat bm) _ j); [lia|lia| |done|].
    - rewrite (bu_bits _ _ _ _ U) by lia. by rewrite decide_True.
    - intros i Hi' Hne. rewrite (bu_bits _ _ _ _ U) by lia. by rewrite decide_False. }
  pose proof (wb_count _ _ _ _ _ B) as Hc. cbn [bm_free bm_size] in Hc.
  pose proof (free_inodes_bound s W) as Hfb.
  eapply (wp_get_group_desc _ s2 g gd); [done..|]. wp_steps.
  eapply (wp_gd_load _ s2 g gd); [done|]. wp_steps.
  assert (forall g' f, 0 <= g' -> gd_of (gd_update (gdp_of (geo s) g) f s2) g' =
            if decide (g = g') then f <$> gd_of s g' else gd_of s g') as Hupd.
  { intros g' f Hg'. exact (gd_of_update s2 (s_es s) g g' f G (proj1 Hg) Hg'). }
  assert (~ reserved s InodeMap g gd j) as NR by (apply valid_inode_not_reserved; done).
  destruct (S_ISDIR mode) eqn:ED; wp_steps.
  - set (s3 := gd_update _ _ s2).
    eapply (wp_gd_load _ s3 g (gd_set_free_inodes (bg_free_inodes_count gd + 1) gd)).
    { unfold s3. cbn [geo s2 set_dev s1 set_lock]. rewrite Hupd, decide_True, Hgd by (done || apply Hg).
      cbn. by rewrite uintw_small by lia. }
    wp_steps. apply wp_unlock_super; [done|]. wp_steps. apply HS; [done|].
    apply (inode_changed_intro s _ g j 1 false true _ gd bm bm'); inode_changed_side.
    + cbn. rewrite uintw_small by lia. done.
    + intros g' Hg'. transitivity (gd_of (gd_update (gdp_of (geo s3) g)
        (gd_set_used_dirs (u16 (bg_used_dirs_count gd - 1))) s3) g'); [reflexivity|].
      rewrite (gd_of_update s3 (s_es s) g g'); [|done|apply Hg|done]. unfold s3.
      change (gdp_of (geo s2) g) with (gdp_of (geo s) g). rewrite Hupd by done.
      destruct (decide (g = g')) as [<-|]; [|done]. rewrite Hgd. cbn. unfold inode_gd.
      rewrite (uintw_small 16 (bg_free_inodes_count gd + 1)) by lia. done.
  - apply wp_unlock_super; [done|]. wp_steps. apply HS; [done|].
    apply (inode_changed_intro s _ g j 1 false false _ gd bm bm'); inode_changed_side.
    + cbn. rewrite uintw_small by lia. done.
    + intros g' Hg'. transitivity (gd_of (gd_update (gdp_of (geo s) g)
        (gd_set_free_inodes (u16 (bg_free_inodes_count gd + 1))) s2) g'); [reflexivity|].
      rewrite Hupd by done.
      destruct (decide (g = g')) as [<-|]; [|done]. rewrite Hgd. cbn. by rewrite uintw_small by lia.
Qed.

(** ** The effect on the set of used inodes *)

Lemma inode_changed_used s g j x v isdir bp2 s' ino :
  wf s -> is_group s g -> 0 <= j < e2fs_ipg (geo s) -> inode_changed s g j x v isdir bp2 s' ->
  1 <= ino <= s_inodes_count (s_es s) ->
  inode_used s' ino = if decide (ino = inodeno s g j) then v else inode_used s ino.
Proof.
  intros W Hg Hj [_ _ _ _ _ (gd & bm & bm' & Hgd & B & Hb & U & C & _)] Hi.
  destruct (inode_group_ok s ino W Hi) as (Hgi & Hji & Ei).
  unfold inode_used, inode_group_of, inode_bit_of. rewrite (bc_geo _ _ _ _ _ _ _ C).
  fold (inode_group_of s ino) (inode_bit_of s ino).
  rewrite (bitmap_bit_changed s s' InodeMap g gd (inode_gd isdir x gd) bm') by done.
  destruct (inodeno_ok s g j W Hg Hj) as (_ & Eg & Ej).
  destruct (decide (ino = inodeno s g j)) as [->|Hne].
  - rewrite Eg, Ej, decide_True by done. rewrite (bu_bits _ _ _ _ U) by lia. by rewrite decide_True.
  - destruct (decide _) as [[_ E]|]; [|done].
    rewrite E, (bitmap_bit_wf s InodeMap g gd bm) by done. rewrite (bu_bits _ _ _ _ U) by lia.
    rewrite decide_False; [done|]. intros Ejj. apply Hne. by rewrite <- Ei, E, Ejj.
Qed.

Lemma inode_changed_set s g j x (v : bool) isdir bp2 s' :
  wf s -> is_group s g -> 0 <= j < e2fs_ipg (geo s) -> inode_changed s g j x v isdir bp2 s' ->
  inode_space s' = inode_space s /\
  used_inodes s' = if v then used_inodes s ∪ {[inodeno s g j]} else used_inodes s ∖ {[inodeno s g j]}.
Proof.
  intros W Hg Hj C. pose proof (fun ino => inode_changed_used s g j x v isdir bp2 s' ino W Hg Hj C) as HU.
  destruct C as [_ _ _ _ _ (gd & bm & bm' & Hgd & B & Hb & U & C & _)].
  assert (s_inodes_count (s_es s') = s_inodes_count (s_es s)) as E by by rewrite (bc_es _ _ _ _ _ _ _ C).
  split; [unfold inode_space; by rewrite E|].
  destruct (inodeno_ok s g j W Hg Hj) as (Hr & _). apply set_eq. intros i.
  rewrite elem_of_used_inodes, E. destruct v.
  - rewrite elem_of_union, elem_of_used_inodes, elem_of_singleton. split.
    + intros [Hu Hi]. rewrite HU in Hu by done. destruct (decide _); [by right|by left].
    + intros [[Hu Hi] | ->]; (split; [|done]); rewrite HU by done; by destruct (decide _).
  - rewrite elem_of_difference, elem_of_used_inodes, elem_of_singleton. split.
    + intros [Hu Hi]. rewrite HU in Hu by done. by destruct (decide _).
    + intros [[Hu Hi] Hne]. split; [|done]. rewrite HU by done. by destruct (decide _).
Qed.

Lemma inode_gd_inverse isdir gd :
  0 <= bg_used_dirs_count gd < 2 ^ 16 -> inode_gd isdir 1 (inode_gd isdir (-1) gd) = gd.
Proof.
  intros H. destruct gd as [a b c d e f]. unfold inode_gd. cbn in H.
  unfold gd_set_used_dirs, gd_set_free_inodes.
  destruct isdir; cbn; f_equal; [lia| |lia].
  unfold uintw. rewrite Zminus_mod_idemp_l. replace (f - -1 - 1) with f by lia. apply Z.mod_small. lia.
Qed.

(** The counters after a change. *)
Lemma inode_changed_counts s g j x v isdir bp2 s' :
  is_group s g -> inode_changed s g j x v isdir bp2 s' ->
  s_free_inodes_count (s_es s') = s_free_inodes_count (s_es s) + x /\
  gd_of s' g = inode_gd isdir x <$> gd_of s g /\
  (forall g', is_group s g' -> g' <> g -> gd_of s' g' = gd_of s g').
Proof.
  intros Hg [_ _ _ _ _ (gd & bm & bm' & Hgd & B & Hb & U & C & _)]. split_and!.
  - rewrite (bc_es _ _ _ _ _ _ _ C). cbn. unfold inode_gd. destruct isdir; cbn; lia.
  - rewrite (bc_gd _ _ _ _ _ _ _ C), decide_True, Hgd by done. done.
  - intros g' Hg' Hne. rewrite (bc_gd _ _ _ _ _ _ _ C), decide_False by done. done.
Qed.

(** No free inode in terms of the counters. *)
Lemma no_free_inodes s : wf s -> s_free_inodes_count (s_es s) = 0 -> used_inodes s = inode_space s.
Proof.
  intros W Hz. apply set_eq. intros i. rewrite elem_of_used_inodes. unfold inode_space. rewrite elem_of_zone.
  split; [intros [_ ?]; lia|]. intros Hi. split; [|lia].
  destruct (inode_group_ok s i W ltac:(lia)) as (Hg & Hj & _). destruct (wf_gd s _ W Hg) as [gd Hgd].
  destruct (wf_group_bitmap s _ InodeMap gd W Hg Hgd) as [bm B].
  destruct (free_counts s InodeMap _ gd bm W Hg Hgd B) as [F1 F2]. cbn [es_free] in F2.
  pose proof (wb_count _ _ _ _ _ B) as Hc.
  unfold inode_used. rewrite (bitmap_bit_wf s InodeMap _ gd bm) by done.
  destruct (bitat bm (inode_bit_of s i)) eqn:E; [done|].
  assert (0 < count_clear (bitat bm) (Z.to_nat (bm_size InodeMap (geo s)))); [|lia].
  apply count_clear_pos. exists (inode_bit_of s i). cbn [bm_size]. split; [lia|done].
Qed.

(** ** Properties *)

(** C7: On a well-formed file system [ext2_new_inode] neither panics nor leaves the
    bitmap buffer, finishes in one pass and gives the lock back.  It fails with 0
    only when every inode is in use, and then changes nothing; otherwise it returns
    a non-reserved inode number that was free, adds exactly that number to the used
    inodes, takes one from the free counts of the superblock and of the inode's
    group, counts a directory in both directory counts, and keeps the file system
    well-formed. *)
Theorem ext2_new_inode_refines s i_block_group mode :
  wf s -> s_lock s = false -> is_group s i_block_group ->
  exists ino s', ext2_new_inode i_block_group mode s = Ret ino s' /\ wf s' /\ s_lock s' = false /\
    ((ino = 0 /\ s' = s /\ used_inodes s = inode_space s) \/
     (EXT2_FIRST_INO <= ino /\ ino ∈ inode_space s ∖ used_inodes s /\
      used_inodes s' = used_inodes s ∪ {[ino]} /\
      s_free_inodes_count (s_es s') = s_free_inodes_count (s_es s) - 1 /\
      gd_of s' (inode_group_of s ino)
        = inode_gd (S_ISDIR mode) (-1) <$> gd_of s (inode_group_of s ino) /\
      s_dircount s' = (if S_ISDIR mode then i64 (s_dircount s + 1) else s_dircount s))).
Proof.
  intros W L Hg0.
  match goal with |- exists ino s', _ /\ ?P => assert (wp (ext2_new_inode i_block_group mode)
    (fun ino s' => P) s) as H end.
  2:{ by apply wp_run in H. }
  apply wp_new_inode; try done.
  - intros ino g j bp2 s' [Hg Hch Hj Hfirst -> Hmin C].
    destruct (inodeno_ok s g j W Hg Hj) as (Hr & Eg & Ej).
    destruct (inode_changed_set s g j _ _ _ bp2 s' W Hg Hj C) as [_ EU].
    destruct (inode_changed_counts s g j _ _ _ bp2 s' Hg C) as (E1 & E2 & _).
    split; [apply C|]. split; [apply C|]. right. rewrite Eg.
    split; [done|]. split; [|split; [done|]; split; [lia|]; split; [done|]].
    + rewrite elem_of_difference, elem_of_used_inodes. unfold inode_space. rewrite elem_of_zone.
      split; [lia|]. intros [Hu _]. unfold inode_used in Hu. rewrite Eg, Ej in Hu.
      destruct (ic_bits _ _ _ _ _ _ _ _ C) as (gd & bm & bm' & Hgd & B & Hb & _).
      by rewrite (bitmap_bit_wf s InodeMap g gd bm j Hgd B), Hb in Hu.
    + by rewrite (ic_dircount _ _ _ _ _ _ _ _ C).
  - intros Hz. split; [done|]. split; [done|]. left. split; [done|]. split; [done|]. by apply no_free_inodes.
Qed.

Lemma ext2_new_inode_refines_witness :
  exists ino s', ext2_new_inode 1 0x8000 example_fs = Ret ino s' /\ wf s' /\ s_lock s' = false /\
    ((ino = 0 /\ s' = example_fs /\ used_inodes example_fs = inode_space example_fs) \/
     (EXT2_FIRST_INO <= ino /\ ino ∈ inode_space example_fs ∖ used_inodes example_fs /\
      used_inodes s' = used_inodes example_fs ∪ {[ino]} /\
      s_free_inodes_count (s_es s') = s_free_inodes_count (s_es example_fs) - 1 /\
      gd_of s' (inode_group_of example_fs ino)
        = inode_gd (S_ISDIR 0x8000) (-1) <$> gd_of example_fs (inode_group_of example_fs ino) /\
      s_dircount s' = (if S_ISDIR 0x8000 then i64 (s_dircount example_fs + 1) else s_dircount example_fs))).
Proof.
  apply (ext2_new_inode_refines example_fs 1 0x8000 example_fs_wf); [reflexivity|].
  split; [lia|reflexivity].
Defined.

(** Placement.  A directory goes to the first of the groups with the most free
    blocks among those with a free inode and at least the average number of free
    inodes, and the descriptor buffer that is marked dirty is that of the LAST group
    (it was looked at last), which need not hold the descriptor that changed.  Any
    other inode goes to its parent's group if that has a free inode, and the right
    descriptor buffer is marked dirty.  Within the group the lowest free number is
    taken, and its bitmap is written. *)
Theorem ext2_new_inode_placement s i_block_group mode ino s' :
  wf s -> s_lock s = false -> is_group s i_block_group ->
  ext2_new_inode i_block_group mode s = Ret ino s' -> ino <> 0 ->
  let g := inode_group_of s ino in
  (S_ISDIR mode = true ->
     best_dir_group s (s_groups_count (geo s)) g /\
     (gdp_of (geo s) (s_groups_count (geo s) - 1)).1 ∈ s_gd_dirty s') /\
  (S_ISDIR mode = false ->
     (0 < free_of s InodeMap i_block_group -> g = i_block_group) /\
     (gdp_of (geo s) g).1 ∈ s_gd_dirty s') /\
  (forall i, inode_group_of s i = g -> 1 <= i < ino -> inode_used s i = true) /\
  (exists gd, gd_of s g = Some gd /\ fsbtodb (geo s) (bg_inode_bitmap gd) ∈ written s').
Proof.
  intros W L Hg0 E Hne g.
  assert (wp (ext2_new_inode i_block_group mode) (fun ino s' => ino <> 0 -> exists g j bp2,
    inode_allocated s i_block_group mode ino g j bp2 s') s) as H.
  { apply wp_new_inode; try done. intros ino1 g1 j bp2 s1 A _. by exists g1, j, bp2. }
  unfold wp in H. rewrite E in H. destruct (H Hne) as (g1 & j & bp2 & A). clear H.
  destruct A as [Hg Hch Hj Hfirst -> Hmin C].
  destruct (inodeno_ok s g1 j W Hg Hj) as (Hr & Eg & Ej). unfold g. rewrite Eg. clear g.
  pose proof (ic_gd_dirty _ _ _ _ _ _ _ _ C) as GD. unfold chosen_group in Hch.
  split_and!.
  - intros Hd. rewrite Hd in Hch. destruct Hch as [Hb <-]. done.
  - intros Hd. rewrite Hd in Hch. destruct Hch as (_ & _ & Hp & <-). done.
  - intros i Egi Hi. unfold inode_used. rewrite Egi.
    destruct (inode_group_ok s i W ltac:(lia)) as (_ & Hji & Ei). apply Hfirst.
    rewrite Egi in Ei. unfold inodeno in *. lia.
  - destruct (ic_bits _ _ _ _ _ _ _ _ C) as (gd & bm & bm' & Hgd & B & Hb & U & Cb & Wr). by exists gd.
Qed.

Lemma ext2_new_inode_placement_witness :
  exists s', ext2_new_inode 1 0x4000 example_fs = Ret 17 s' /\
    (best_dir_group example_fs 2 1 /\ 1 ∈ s_gd_dirty s').
Proof.
  destruct (ext2_new_inode 1 0x4000 example_fs) as [ino s'| | |] eqn:E; [|vm_compute in E; discriminate E..].
  assert (ino = 17) as -> by (vm_compute in E; congruence).
  exists s'. split; [reflexivity|].
  apply (ext2_new_inode_placement example_fs 1 0x4000 17 s' example_fs_wf eq_refl);
    [split; [lia|reflexivity]|exact E|lia|reflexivity].
Defined.

(** C20: [ext2_free_inode] ignores an inode that still has links, and one whose number
    is reserved or too large.  Any other number it removes from the used inodes,
    without panic, keeping the file system well-formed and the lock free; the free
    count of the superblock grows by one exactly when the inode was in use, and then
    the group's counts (for a directory, that of directories too) and the dirty mark of
    the right descriptor buffer follow.  The count of directories of the mounted file
    system falls by one exactly when a directory was in use. *)
Theorem ext2_free_inode_refines s i_number i_nlink i_mode :
  wf s -> s_lock s = false -> 0 <= i_number < 2 ^ 32 ->
  exists s', ext2_free_inode i_number i_nlink i_mode s = Ret tt s' /\
    if bool_decide (i_nlink = 0 /\ EXT2_FIRST_INO <= i_number <= s_inodes_count (s_es s)) then
      wf s' /\ s_lock s' = false /\
      used_inodes s' = used_inodes s ∖ {[i_number]} /\
      s_free_inodes_count (s_es s')
        = s_free_inodes_count (s_es s) + (if inode_used s i_number then 1 else 0) /\
      s_dircount s' = (if inode_used s i_number && S_ISDIR i_mode then i64 (s_dircount s - 1) else s_dircount s) /\
      (inode_used s i_number = true ->
         gd_of s' (inode_group_of s i_number)
           = inode_gd (S_ISDIR i_mode) 1 <$> gd_of s (inode_group_of s i_number) /\
         (gdp_of (geo s) (inode_group_of s i_number)).1 ∈ s_gd_dirty s')
    else s' = s.
Proof.
  intros W L Hn. case_bool_decide as D.
  - destruct D as [-> Hv]. assert (EXT2_FIRST_INO = 11) as E11 by done.
    match goal with |- exists s', _ /\ ?P =>
      assert (wp (ext2_free_inode i_number 0 i_mode) (fun _ s' => P) s) as H end.
    2:{ apply wp_run in H as ([] & s' & ?). by exists s'. }
    destruct (inode_group_ok s i_number W ltac:(lia)) as (Hg & Hj & Ei).
    apply wp_ext2_free_inode; try done.
    + intros s' Hu C. destruct (inode_changed_set s _ _ _ _ _ _ s' W Hg Hj C) as [_ EU].
      destruct (inode_changed_counts s _ _ _ _ _ _ s' Hg C) as (E1 & E2 & _). rewrite Ei in EU.
      assert (inode_used s i_number = true) as -> by done.
      split_and!; [apply C|apply C|done|done|apply C|intros _; split; [done|apply C]].
    + intros s' Hu (W' & L' & Ees & Egd & Egeo & Edev & Edc).
      assert (inode_used s i_number = false) as Eu by done. rewrite Eu.
      assert (forall i, inode_used s' i = inode_used s i) as EU.
      { intros i. unfold inode_used, bitmap_bit, gd_of, gd_lookup, inode_group_of, inode_bit_of.
        by rewrite Egeo, Egd, Edev. }
      split_and!; try done; [|rewrite Ees; lia].
      apply set_eq. intros i. rewrite elem_of_difference, !elem_of_used_inodes, elem_of_singleton, EU, Ees.
      split; [|tauto]. intros [Hi Hr]. split; [done|]. intros ->. by rewrite Eu in Hi.
  - exists s. split; [|done]. unfold ext2_free_inode.
    destruct (Z.eqb_spec i_nlink 0) as [->|]; cbn [negb]; [|done].
    rewrite (bind_run _ _ _ tt (set_lock true s)) by by apply wp_lock_super.
    rewrite (bind_run _ _ _ (set_lock true s) (set_lock true s)) by by apply wp_gets.
    cbn [s_es set_lock].
    replace (_ || _) with true by (symmetry; rewrite orb_true_iff, !Z.ltb_lt; lia).
    unfold unlock_super, mbind, kern_bind, gets, modify. cbn [s_lock set_lock].
    rewrite set_lock_twice. by rewrite set_lock_same.
Qed.

Lemma ext2_free_inode_refines_witness :
  exists s', ext2_free_inode 20 0 0x8000 example_fs = Ret tt s' /\
    used_inodes s' = used_inodes example_fs ∖ {[20]}.
Proof.
  destruct (ext2_free_inode_refines example_fs 20 0 0x8000 example_fs_wf eq_refl ltac:(lia))
    as (s' & E & H).
  exists s'. split; [exact E|]. rewrite bool_decide_eq_true_2 in H by (split; [done|vm_compute; split; congruence]).
  apply H.
Defined.

(** A new inode that is freed again leaves the used inodes, the free count of the
    superblock and the descriptor of its group as they were. *)
Theorem inode_alloc_free_roundtrip s i_block_group mode ino s1 :
  wf s -> s_lock s = false -> is_group s i_block_group ->
  ext2_new_inode i_block_group mode s = Ret ino s1 -> ino <> 0 ->
  exists s2, ext2_free_inode ino 0 mode s1 = Ret tt s2 /\ wf s2 /\
    used_inodes s2 = used_inodes s /\
    s_free_inodes_count (s_es s2) = s_free_inodes_count (s_es s) /\
    gd_of s2 (inode_group_of s ino) = gd_of s (inode_group_of s ino).
Proof.
  intros W L Hg0 E Hne.
  assert (wp (ext2_new_inode i_block_group mode) (fun ino s' => ino <> 0 -> exists g j bp2,
    inode_allocated s i_block_group mode ino g j bp2 s') s) as H.
  { apply wp_new_inode; try done. intros ino1 g1 j bp2 s' A _. by exists g1, j, bp2. }
  unfold wp in H. rewrite E in H. destruct (H Hne) as (g & j & bp2 & [Hg _ Hj _ -> Hmin C]). clear H.
  destruct (inodeno_ok s g j W Hg Hj) as (Hr & Eg & Ej). rewrite Eg.
  destruct (inode_changed_set s g j _ _ _ bp2 s1 W Hg Hj C) as [_ EU].
  destruct (inode_changed_counts s g j _ _ _ bp2 s1 Hg C) as (E1 & E2 & _).
  assert (inode_used s1 (inodeno s g j) = true) as Hu1.
  { rewrite (inode_changed_used s g j _ _ _ bp2 s1 (inodeno s g j) W Hg Hj C Hr). by rewrite decide_True. }
  pose proof (ic_bits _ _ _ _ _ _ _ _ C) as (gd & bm & bm' & Hgd & B & Hb & U & Cb & Wr).
  assert (geo s1 = geo s /\ s_inodes_count (s_es s1) = s_inodes_count (s_es s)) as [Egeo Ecnt].
  { split; [apply (bc_geo _ _ _ _ _ _ _ Cb)|]. by rewrite (bc_es _ _ _ _ _ _ _ Cb). }
  pose proof (ic_wf _ _ _ _ _ _ _ _ C) as W1.
  assert (wp (ext2_free_inode (inodeno s g j) 0 mode) (fun _ s2 =>
    inode_changed s1 g j 1 false (S_ISDIR mode) (gdp_of (geo s1) g).1 s2) s1) as H.
  { unfold inode_used in Hu1. pose proof Eg as Eg'. pose proof Ej as Ej'.
    unfold inode_group_of, inode_bit_of in Eg', Ej', Hu1. rewrite <- Egeo in Eg', Ej'.
    apply wp_ext2_free_inode; [done|apply C|lia| |].
    - intros s2 _ C2. unfold inode_group_of, inode_bit_of in C2. by rewrite Eg', Ej' in C2.
    - intros s2 Hu2. unfold inode_group_of, inode_bit_of in Hu2. by rewrite Hu1 in Hu2. }
  apply wp_run in H as ([] & s2 & E3 & C2). exists s2. split; [done|]. split; [apply C2|].
  assert (is_group s1 g) as Hg1 by (unfold is_group; by rewrite Egeo).
  destruct (inode_changed_set s1 g j _ _ _ _ s2 W1 Hg1 ltac:(by rewrite Egeo) C2) as [_ EU2].
  destruct (inode_changed_counts s1 g j _ _ _ _ s2 Hg1 C2) as (E4 & E5 & _).
  assert (inodeno s1 g j = inodeno s g j) as Eino by (unfold inodeno; by rewrite Egeo).
  split_and!; [|lia|].
  - rewrite EU2, EU, Eino. assert (inodeno s g j ∉ used_inodes s) as NU.
    { rewrite elem_of_used_inodes. unfold inode_used. rewrite Eg, Ej.
      rewrite (bitmap_bit_wf s InodeMap g gd bm j Hgd B), Hb. by intros [? _]. }
    clear - NU. set_solver.
  - rewrite E5, E2, Hgd. cbn. f_equal. apply inode_gd_inverse.
    destruct (wf_groups _ W g Hg) as (gd0 & E0 & _ & Hud & _). rewrite Hgd in E0. by injection E0 as <-.
Qed.

Lemma inode_alloc_free_roundtrip_witness :
  exists s1 s2, ext2_new_inode 1 0x4000 example_fs = Ret 17 s1 /\
    ext2_free_inode 17 0 0x4000 s1 = Ret tt s2 /\ used_inodes s2 = used_inodes example_fs.
Proof.
  destruct (ext2_new_inode 1 0x4000 example_fs) as [ino s1| | |] eqn:E; [|vm_compute in E; discriminate E..].
  assert (ino = 17) as -> by (vm_compute in E; congruence).
  destruct (inode_alloc_free_roundtrip example_fs 1 0x4000 17 s1 example_fs_wf eq_refl)
    as (s2 & E2 & _ & EU & _); [split; [lia|reflexivity]|exact E|lia|].
  exists s1, s2. split; [reflexivity|]. split; [exact E2|exact EU].
Defined.
