(* ===== verification/Alloc.v ===== *)
(** * Allocation on behalf of a file (src/src/gnu/ext2fs/ext2_alloc.c)

    [ext2_alloc] takes blocks for a file, from the window of blocks that were
    preallocated for it or from [ext2_new_block]; [ext2_discard_prealloc] returns the
    window; [ext2_blkpref] chooses the goal; [ext2_blkfree] and [ext2_vfree] give blocks
    and inodes back.  Routines that change the inode return the changed inode. *)

From S2P Require Import Prelude Bitops Fs Balloc Inode Ialloc.

(** [struct inode] in memory: the part that mirrors the disk inode ([Inode.inode]) and
    the fields of the allocation policy; all of them are u_int32_t. *)
Record file := mkFile {
  ip : inode;
  i_number : Z;
  i_flag : Z;
  i_block_group : Z;
  i_next_alloc_block : Z;
  i_next_alloc_goal : Z;
  i_prealloc_block : Z;
  i_prealloc_count : Z;
}.

Definition IN_CHANGE : Z := 2.
Definition IN_UPDATE : Z := 4.
Definition ENOSPC : Z := 28.

Definition set_ip (f : inode -> inode) (x : file) : file :=
  mkFile (f (ip x)) (i_number x) (i_flag x) (i_block_group x) (i_next_alloc_block x)
    (i_next_alloc_goal x) (i_prealloc_block x) (i_prealloc_count x).
Definition set_flag (m : Z) (x : file) : file :=
  mkFile (ip x) (i_number x) (Z.lor (i_flag x) m) (i_block_group x) (i_next_alloc_block x)
    (i_next_alloc_goal x) (i_prealloc_block x) (i_prealloc_count x).
Definition set_next_alloc (block goal : Z) (x : file) : file :=
  mkFile (ip x) (i_number x) (i_flag x) (i_block_group x) block goal
    (i_prealloc_block x) (i_prealloc_count x).
Definition set_prealloc (block count : Z) (x : file) : file :=
  mkFile (ip x) (i_number x) (i_flag x) (i_block_group x) (i_next_alloc_block x)
    (i_next_alloc_goal x) block count.
Definition set_blocks (n : Z) (i : inode) : inode :=
  mkInode (i_mode i) (i_nlink i) (i_size i) (i_atime i) (i_mtime i) (i_ctime i) (i_db i) (i_ib i)
    (i_flags i) n (i_gen i) (i_uid i) (i_gid i) (i_e2flags i).
Definition set_mode (m : Z) (i : inode) : inode :=
  mkInode m (i_nlink i) (i_size i) (i_atime i) (i_mtime i) (i_ctime i) (i_db i) (i_ib i)
    (i_flags i) (i_blocks i) (i_gen i) (i_uid i) (i_gid i) (i_e2flags i).

Definition ext2_discard_prealloc (f : file) : FS file :=
  if i_prealloc_count f =? 0 then mret f
  else
    let i := i_prealloc_count f in
    let blk := i_prealloc_block f in
    ext2_free_blocks blk i;;
    mret (set_prealloc (i_prealloc_block f) 0 f).

(** [btodb]: the size in device blocks. *)
Definition btodb (bytes devblock : Z) : Z := u32 bytes / devblock.

(** The part behind the checks, with the goal already adjusted. *)
Definition ext2_alloc_rest (junk : Z * Z) (f : file) (lbn bpref size : Z) : FS (file * Z * Z) :=
  '(f, bno) ←
    (if negb (i_prealloc_count f =? 0)
        && ((u32 bpref =? i_prealloc_block f) || (u32 (bpref + 1) =? i_prealloc_block f))
     then
       mret (set_prealloc (u32 (i_prealloc_block f + 1)) (u32 (i_prealloc_count f - 1)) f,
             i32 (i_prealloc_block f))
     else
       f ← ext2_discard_prealloc f;
       if S_ISREG (i_mode (ip f)) then
         '(bno, pre) ← ext2_new_block (u64 bpref) true;
         let '(icount, ibn) := match pre with Some p => p | None => junk end in
         mret (set_prealloc ibn icount f, i32 bno)
       else
         '(bno, _) ← ext2_new_block (u64 bpref) false;
         mret (f, i32 bno));
  if 0 <? bno then
    s ← gets id;
    let f := set_next_alloc (u32 lbn) (u32 bno) f in
    let f := set_ip (fun i => set_blocks (i32 (i_blocks i + btodb size (s_d_blocksize (geo s)))) i) f in
    mret (set_flag (Z.lor IN_CHANGE IN_UPDATE) f, 0, bno)
  else mret (f, ENOSPC, 0).

(** Returns the inode, the error and [*bnp]; [junk] is what the uninitialised locals
    [icount] and [ibn] hold: [ext2_new_block] sets them only when it finds a block. *)
Definition ext2_alloc (junk : Z * Z) (f : file) (lbn bpref size cr_uid : Z) : FS (file * Z * Z) :=
  s ← gets id;
  let es := s_es s in
  if (u64 size =? s_blocksize (geo s)) && (s_free_blocks_count es =? 0) then mret (f, ENOSPC, 0)
  else if negb (cr_uid =? 0) && (s_free_blocks_count es <? s_r_blocks_count es) then mret (f, ENOSPC, 0)
  else
    let bpref := if s_blocks_count es <=? u32 bpref then 0 else bpref in
    ext2_alloc_rest junk f lbn bpref size.

(** The search [for (tmp = indx - 1; tmp >= 0; tmp--)] for a set pointer. *)
Fixpoint last_pointer (n : nat) (bap : list Z) : option Z :=
  match n with
  | O => None
  | S n => match bap !! n with
           | Some p => if p =? 0 then last_pointer n bap else Some p
           | None => None
           end
  end.

(** [bap] is [None] for a null pointer. *)
Definition ext2_blkpref (f : file) (s : m_ext2fs) (lbn indx : Z) (bap : option (list Z)) (blocknr : Z) : Z :=
  if negb (i_next_alloc_block f =? 0) && (i_next_alloc_block f =? u32 lbn) then i32 (i_next_alloc_goal f)
  else
    match bap ≫= last_pointer (Z.to_nat indx) with
    | Some p => p
    | None =>
        if negb (blocknr =? 0) then blocknr
        else i32 (u32 (i32 (i_block_group f * e2fs_bpg (geo s))) + s_first_data_block (s_es s))
    end.

Definition ext2_blkfree (bno size : Z) : FS unit :=
  s ← gets id; ext2_free_blocks (u64 bno) (u64 (u64 size / e2fs_fsize (geo s))).

(** [pip] is the inode of the vnode that is passed, the parent directory. *)
Definition ext2_vfree (pip : file) (ino mode : Z) : FS file :=
  s ← gets id;
  if e2fs_ipg (geo s) * s_groups_count (geo s) <? u32 ino then panic "ext2_vfree: range"
  else
    pip ← ext2_discard_prealloc pip;
    let save_i_mode := i_mode (ip pip) in
    let pip := set_ip (set_mode (u16 mode)) pip in
    ext2_free_inode (i_number pip) (i_nlink (ip pip)) (i_mode (ip pip));;
    mret (set_ip (set_mode save_i_mode) pip).

(** Unused with the unified buffer cache. *)
Definition ext2_reallocblks : Z := ENOSPC.

(** ** The preallocation window *)

(** The blocks that are marked in the bitmap but hold no data of the file. *)
Definition window (f : file) : gset Z :=
  zone (i_prealloc_block f) (i_prealloc_block f + i_prealloc_count f).

Record file_ok (s : m_ext2fs) (f : file) : Prop := {
  fo_count : 0 <= i_prealloc_count f < 2 ^ 32;
  fo_free : 0 < i_prealloc_count f ->
    freeable s (i_prealloc_block f) (i_prealloc_count f) /\ window f ⊆ used_blocks s;
}.

Lemma window_empty f : i_prealloc_count f = 0 -> window f = ∅.
Proof. intros E. apply set_eq. intros x. unfold window. rewrite elem_of_zone, E. set_solver by lia. Qed.

(** What is left of a freeable range when its first block is taken. *)
Lemma freeable_tail s block count :
  wf s -> 1 < count -> freeable s block count -> freeable s (block + 1) (count - 1).
Proof.
  intros W Hc F. pose proof F as [F1 F2 F3 F4].
  destruct (freeable_group s block count W F) as (Hg & Hb & Hn).
  destruct (wg_size _ _ (wf_geometry _ W) BlockMap) as [Hs _]. cbn [bm_size] in Hs.
  assert (block_group_of s (block + 1) = block_group_of s block /\
          block_bit_of s (block + 1) = block_bit_of s block + 1) as [Eg Eb].
  { unfold block_group_of, block_bit_of, blockno in *.
    set (d := block - s_first_data_block (s_es s)) in *.
    replace (block + 1 - s_first_data_block (s_es s)) with (d + 1) by lia.
    pose proof (Z.div_mod d (e2fs_bpg (geo s))) as Hdm. pose proof (Z.mod_pos_bound d (e2fs_bpg (geo s))).
    split; [symmetry; apply (Z.div_unique_pos _ _ _ (d mod e2fs_bpg (geo s) + 1)); lia|
            symmetry; apply (Z.mod_unique_pos _ _ (d / e2fs_bpg (geo s))); lia]. }
  split; [lia|lia|rewrite Eb; lia|]. rewrite Eg. intros gd b Hgd Hb'. apply (F4 gd); [done|lia].
Qed.

(** Any part of the blocks that were taken together can be freed. *)
Lemma taken_part_freeable s g j m s1 i n :
  wf s -> is_group s g -> 0 <= j -> j + m < e2fs_bpg (geo s) -> taken s g j m s1 ->
  0 <= i -> 0 < n -> i + n <= m + 1 -> freeable s1 (blockno s g j + i) n.
Proof.
  intros W Hg Hj Hjm T Hi Hn Hin. destruct (tk_bits _ _ _ _ _ T) as (gd & gd' & bm & bm' & Hgd & B & S & _ & C & _).
  assert (forall x, j <= x < j + (m + 1) -> ~ reserved s BlockMap g gd x) as NR.
  { intros x Hx. apply (free_not_reserved s g gd bm x W Hg B); [lia|]. by apply (bs_clear _ _ _ _ S). }
  assert (block_group_of s1 (blockno s g j + i) = g /\ block_bit_of s1 (blockno s g j + i) = j + i) as [Eg Ej].
  { unfold block_group_of, block_bit_of, blockno.
    rewrite (bc_geo _ _ _ _ _ _ _ C), (bc_es _ _ _ _ _ _ _ C).
    cbn [es_set_free es_set_free_blocks s_first_data_block].
    replace (j + g * e2fs_bpg (geo s) + s_first_data_block (s_es s) + i - s_first_data_block (s_es s))
      with (j + i + g * e2fs_bpg (geo s)) by lia.
    rewrite Z.div_add, Z.div_small, Z.mod_add, Z.mod_small by lia. lia. }
  split; [lia| | |].
  - rewrite (bc_es _ _ _ _ _ _ _ C). cbn [es_set_free es_set_free_blocks s_first_data_block s_blocks_count].
    pose proof (NR (j + i + n - 1) ltac:(lia)) as R. unfold reserved, blockno, is_group in *. nia.
  - rewrite Ej, (bc_geo _ _ _ _ _ _ _ C). lia.
  - intros gd1 x. rewrite Eg, (bc_gd _ _ _ _ _ _ _ C), decide_True by done. intros [= <-] Hx.
    pose proof (NR (x - blockno s g 0) ltac:(unfold blockno in *; lia)) as R. unfold reserved in R.
    replace (blockno s g (x - blockno s g 0)) with x in R by (unfold blockno; lia).
    rewrite (bc_geo _ _ _ _ _ _ _ C).
    pose proof (bc_same_block _ _ _ _ _ _ _ C BlockMap) as S1.
    pose proof (bc_same_block _ _ _ _ _ _ _ C InodeMap) as S2. cbn [bm_block] in S1, S2.
    rewrite S1, S2, (bc_same_table _ _ _ _ _ _ _ C). lia.
Qed.

(** A part of a freeable range. *)
Lemma freeable_first s block count n : 0 < n <= count -> freeable s block count -> freeable s block n.
Proof. intros Hn [F1 F2 F3 F4]. split; [lia|lia|lia|]. intros gd b Hgd Hb. apply (F4 gd b Hgd). lia. Qed.

(** Whether a range can be freed does not depend on the bitmaps. *)
Lemma freeable_changed s s' g gd gd' bm' block count :
  wf s -> gd_of s g = Some gd -> bm_changed s s' BlockMap g gd gd' bm' ->
  freeable s block count -> freeable s' block count.
Proof.
  intros W Hgd C F. destruct (freeable_group s block count W F) as (Hg & _). destruct F as [F1 F2 F3 F4].
  pose proof (bc_same_block _ _ _ _ _ _ _ C BlockMap) as S1. pose proof (bc_same_block _ _ _ _ _ _ _ C InodeMap) as S2.
  pose proof (bc_same_table _ _ _ _ _ _ _ C) as S3. cbn [bm_block] in S1, S2.
  assert (block_group_of s' block = block_group_of s block /\ block_bit_of s' block = block_bit_of s block) as [Eg Eb].
  { unfold block_group_of, block_bit_of. rewrite (bc_geo _ _ _ _ _ _ _ C), (bc_es _ _ _ _ _ _ _ C). done. }
  split; [done| | |].
  - rewrite (bc_es _ _ _ _ _ _ _ C). done.
  - rewrite Eb, (bc_geo _ _ _ _ _ _ _ C). done.
  - intros gd1 b. rewrite Eg, (bc_gd _ _ _ _ _ _ _ C), (bc_geo _ _ _ _ _ _ _ C) by done.
    destruct (decide (g = block_group_of s block)) as [->|].
    + intros [= <-] Hb. rewrite S1, S2, S3. by apply F4.
    + apply F4.
Qed.

(** ** [ext2_discard_prealloc] *)

(** The state after the window was returned. *)
Record discarded (s : m_ext2fs) (f f' : file) (s' : m_ext2fs) : Prop := {
  di_file : f' = set_prealloc (i_prealloc_block f) 0 f;
  di_wf : wf s';
  di_lock : s_lock s' = false;
  di_used : used_blocks s' = used_blocks s ∖ window f;
  di_free : s_free_blocks_count (s_es s') = s_free_blocks_count (s_es s) + i_prealloc_count f;
  di_geo : geo s' = geo s;
  di_es : exists n, s_es s' = es_set_free_blocks n (s_es s);
  di_inodes : used_inodes s' = used_inodes s;
  di_keeps : forall block count, freeable s block count -> freeable s' block count;
}.

Lemma set_prealloc_id f : i_prealloc_count f = 0 -> set_prealloc (i_prealloc_block f) 0 f = f.
Proof. destruct f. cbn. by intros ->. Qed.

Lemma window_emptied b f : window (set_prealloc b 0 f) = ∅.
Proof. by apply window_empty. Qed.

(** A change of a block bitmap does not touch the inode bitmaps. *)
Lemma bm_changed_inodes s s' g gd gd' bm' :
  wf s -> is_group s g -> gd_of s g = Some gd -> bm_changed s s' BlockMap g gd gd' bm' ->
  used_inodes s' = used_inodes s.
Proof.
  intros W Hg Hgd C. pose proof (wf_geometry _ W) as G. destruct (wg_size _ _ G InodeMap) as [Hs _]. cbn [bm_size] in Hs.
  apply set_eq. intros i. rewrite !elem_of_used_inodes.
  rewrite (bc_es _ _ _ _ _ _ _ C). cbn [es_set_free es_set_free_blocks s_inodes_count].
  assert (1 <= i <= s_inodes_count (s_es s) -> inode_used s' i = inode_used s i) as E; [|intuition congruence].
  intros Hi. unfold inode_used, inode_group_of, inode_bit_of. rewrite (bc_geo _ _ _ _ _ _ _ C).
  rewrite (bitmap_bit_changed s s' BlockMap g gd gd' bm'), decide_False; try done; [by intros [? _]|].
  unfold is_group. rewrite (wg_inodes _ _ G) in Hi. split; [apply Z.div_pos; lia|].
  apply Z.div_lt_upper_bound; lia.
Qed.

(** And a change of an inode bitmap does not touch the block bitmaps. *)
Lemma bm_changed_blocks s s' g gd gd' bm' :
  wf s -> is_group s g -> gd_of s g = Some gd -> bm_changed s s' InodeMap g gd gd' bm' ->
  used_blocks s' = used_blocks s.
Proof.
  intros W Hg Hgd C. unfold used_blocks, data_zone. rewrite (bc_es _ _ _ _ _ _ _ C). cbn [es_set_free es_set_free_inodes s_first_data_block s_blocks_count].
  apply set_eq. intros b. rewrite !elem_of_filter, elem_of_zone.
  enough (s_first_data_block (s_es s) <= b < s_blocks_count (s_es s) -> block_used s' b = block_used s b) as E by (intuition congruence).
  intros Hb. destruct (block_group_ok s b W ltac:(lia)) as (Hgb & _). unfold block_used.
  assert (block_group_of s' b = block_group_of s b /\ block_bit_of s' b = block_bit_of s b) as [-> ->].
  { unfold block_group_of, block_bit_of. by rewrite (bc_geo _ _ _ _ _ _ _ C), (bc_es _ _ _ _ _ _ _ C). }
  rewrite (bitmap_bit_changed s s' InodeMap g gd gd' bm'), decide_False; try done. by intros [? _].
Qed.

Lemma wp_discard (Q : file -> m_ext2fs -> Prop) s f :
  wf s -> s_lock s = false -> file_ok s f ->
  (forall f' s', discarded s f f' s' -> Q f' s') -> wp (ext2_discard_prealloc f) Q s.
Proof.
  intros W L F HQ. unfold ext2_discard_prealloc.
  destruct (Z.eqb_spec (i_prealloc_count f) 0) as [E|E].
  { wp_steps. apply HQ. split; try done.
    - by rewrite set_prealloc_id.
    - rewrite window_empty by done. set_solver.
    - lia.
    - exists (s_free_blocks_count (s_es s)). by destruct (s_es s). }
  pose proof (fo_count _ _ F). destruct (fo_free _ _ F) as [Fr Hw]; [lia|].
  wp_steps. apply wp_ext2_free_blocks; [done..|]. intros s' x D. wp_steps. apply HQ.
  destruct (freed_used s _ _ x s' W Fr D) as [U Hx]. specialize (Hx Hw). subst x.
  destruct (fd_bits _ _ _ _ _ D) as (gd & gd' & bm & bm' & Hgd & B & BC & Hf & C & _).
  destruct (freeable_group s _ _ W Fr) as (Hg & _).
  split; try done; try apply D.
  - rewrite (bc_es _ _ _ _ _ _ _ C), Hf. cbn. lia.
  - apply C.
  - eexists. apply C.
  - by eapply bm_changed_inodes.
  - intros b n. by eapply freeable_changed.
Qed.

(** ** [ext2_alloc] *)

(** The file after block [b] was allocated for [lbn]. *)
Definition with_block (s : m_ext2fs) (lbn b size : Z) (f : file) : file :=
  set_flag (Z.lor IN_CHANGE IN_UPDATE)
    (set_ip (fun i => set_blocks (i32 (i_blocks i + btodb size (s_d_blocksize (geo s)))) i)
      (set_next_alloc (u32 lbn) b f)).

(** [alloc_result s f lbn size f' b s']: the allocation of [b] for block [lbn] of the
    file, in terms of the blocks that hold data: those in use outside the window. *)
Record alloc_result (s : m_ext2fs) (f : file) (lbn size : Z) (f' : file) (b : Z) (s' : m_ext2fs) : Prop := {
  ar_wf : wf s';
  ar_lock : s_lock s' = false;
  ar_file : file_ok s' f';
  ar_fresh : b ∈ data_zone s ∖ (used_blocks s ∖ window f);
  ar_nonzero : 0 < b < 2 ^ 31;
  ar_freeable : freeable s' b 1;
  ar_data : used_blocks s' ∖ window f' = (used_blocks s ∖ window f) ∪ {[b]};
  ar_free : s_free_blocks_count (s_es s') + i_prealloc_count f'
            = s_free_blocks_count (s_es s) + i_prealloc_count f - 1;
  ar_inode : exists pb pc, f' = with_block s lbn b size (set_prealloc pb pc f);
  ar_zone : data_zone s' = data_zone s /\ geo s' = geo s;
  ar_keeps : forall block count, freeable s block count -> freeable s' block count;
}.

Lemma with_block_window s lbn b size f : window (with_block s lbn b size f) = window f.
Proof. done. Qed.

Lemma with_block_ok s s0 lbn b size f : file_ok s f -> file_ok s (with_block s0 lbn b size f).
Proof. intros [H1 H2]. by split. Qed.

Lemma used_in_zone s : used_blocks s ⊆ data_zone s.
Proof. unfold used_blocks. intros x. rewrite elem_of_filter. tauto. Qed.

(** The hit: the first block of the window. *)
Lemma alloc_hit s f lbn size :
  wf s -> s_lock s = false -> file_ok s f -> 0 < i_prealloc_count f ->
  let f1 := set_prealloc (u32 (i_prealloc_block f + 1)) (u32 (i_prealloc_count f - 1)) f in
  0 < i_prealloc_block f < 2 ^ 31 /\
  alloc_result s f lbn size (with_block s lbn (i_prealloc_block f) size f1) (i_prealloc_block f) s.
Proof.
  intros W L F Hc f1. pose proof (fo_count _ _ F) as Hcount. destruct (fo_free _ _ F Hc) as [Fr Hw].
  pose proof (blocks_count_small _ _ (wf_geometry _ W)) as Hsm. pose proof (wg_first _ _ (wf_geometry _ W)) as Hfirst.
  pose proof (fr_block _ _ _ Fr) as Hb.
  assert (0 < i_prealloc_block f < 2 ^ 31) as Hpos.
  { destruct (freeable_group s _ _ W Fr) as (Hg & _). destruct (wf_gd s _ W Hg) as [gd Hgd].
    destruct (fr_system _ _ _ Fr gd (i_prealloc_block f) Hgd); lia. }
  split; [done|].
  assert (window f1 = zone (i_prealloc_block f + 1) (i_prealloc_block f + i_prealloc_count f)) as Ew.
  { unfold window, f1. cbn [i_prealloc_block i_prealloc_count set_prealloc]. mach. f_equal. lia. }
  assert (i_prealloc_block f ∈ used_blocks s) as Hin.
  { apply Hw. unfold window. rewrite elem_of_zone. lia. }
  assert (file_ok s f1) as F1.
  { split; [apply uintw_bound; lia|]. rewrite Ew. cbn [i_prealloc_block i_prealloc_count set_prealloc f1]. mach.
    intros Hc1. split; [apply freeable_tail; done || lia|]. etrans; [|exact Hw].
    intros x. unfold window. rewrite !elem_of_zone. lia. }
  split; try done.
  - by apply with_block_ok.
  - apply elem_of_difference. split; [by apply used_in_zone|]. rewrite elem_of_difference. intros [_ N]. apply N.
    unfold window. rewrite elem_of_zone. lia.
  - apply (freeable_first s _ (i_prealloc_count f)); [lia|done].
  - rewrite with_block_window, Ew. apply set_eq. intros x.
    rewrite elem_of_union, !elem_of_difference, elem_of_singleton. unfold window. rewrite !elem_of_zone.
    destruct (decide (x = i_prealloc_block f)) as [->|]; [|split; [intros [??]; left; split; [done|lia]|intros [[??]|?]; [split; [done|lia]|done]]].
    split; [by right|]. intros _. split; [done|lia].
  - cbn. mach. lia.
  - by eexists _, _.
Qed.

(** The miss: the window is returned and a block is taken from the bitmap. *)
Lemma free_nonneg s k : wf s -> 0 <= es_free k (s_es s).
Proof.
  intros W. assert (is_group s 0) as Hg by (pose proof (wg_groups _ _ (wf_geometry _ W)); unfold is_group; lia).
  destruct (wf_gd s 0 W Hg) as [gd Hgd]. destruct (wf_group_bitmap s 0 k gd W Hg Hgd) as [bm B].
  pose proof (free_counts s k 0 gd bm W Hg Hgd B). lia.
Qed.

Lemma discarded_free_pos s f f' s' :
  wf s -> file_ok s f -> discarded s f f' s' ->
  s_free_blocks_count (s_es s) <> 0 -> s_free_blocks_count (s_es s') <> 0.
Proof.
  intros W F D Hne. pose proof (fo_count _ _ F). rewrite (di_free _ _ _ _ D).
  pose proof (free_nonneg s BlockMap W). cbn [es_free] in *. lia.
Qed.

Lemma discarded_zone s f f' s' : discarded s f f' s' -> data_zone s' = data_zone s.
Proof. intros D. unfold data_zone. by destruct (di_es _ _ _ _ D) as [n ->]. Qed.

(** The first block of an allocation holds data, the ones behind it are the window. *)
Lemma alloc_miss s f fd sd prealloc g j m r s' lbn size :
  wf s -> file_ok s f -> discarded s f fd sd -> allocated sd prealloc g j m r s' ->
  let b := blockno sd g j in
  let f1 := if prealloc then set_prealloc (b + 1) m fd else fd in
  0 < b < 2 ^ 31 /\ alloc_result s f lbn size (with_block s lbn b size f1) b s'.
Proof.
  intros W F D A b f1. pose proof (di_wf _ _ _ _ D) as Wd.
  destruct (allocated_used sd prealloc g j m r s' Wd A) as (U & Z1 & N0). fold b in U, Z1, N0.
  destruct A as [Hg (Hj & Hm & Hjm) Hp Hr T].
  destruct (tk_bits _ _ _ _ _ T) as (gd & gd' & bm & bm' & Hgd & B & S & Hf & C & _).
  pose proof (blocks_count_small _ _ (wf_geometry _ Wd)) as Hsm. pose proof (wg_first _ _ (wf_geometry _ Wd)) as Hfirst.
  destruct (wg_size _ _ (wf_geometry _ Wd) BlockMap) as [Hs _]. cbn [bm_size] in Hs.
  assert (forall x, b <= x <= b + m -> x ∈ data_zone sd /\ x ∉ used_blocks sd) as Hz.
  { intros x Hx. apply elem_of_difference, Z1, elem_of_zone. lia. }
  destruct (Hz b ltac:(lia)) as [Hbz Hbu]. pose proof Hbz as Hbr. unfold data_zone in Hbr. rewrite elem_of_zone in Hbr.
  assert (0 < b < 2 ^ 31) as Hb by lia. split; [done|].
  assert (i_prealloc_count f1 = m /\ window f1 = zone (b + 1) (b + 1 + m)) as [Ec Ew].
  { unfold window, f1. destruct prealloc; [done|]. rewrite (di_file _ _ _ _ D), (Hp eq_refl). cbn.
    split; [done|]. apply set_eq. intros x. rewrite !elem_of_zone. lia. }
  assert (exists pb pc, f1 = set_prealloc pb pc f) as (pb & pc & Ef).
  { unfold f1. rewrite (di_file _ _ _ _ D). destruct prealloc; by eexists _, _. }
  assert (used_blocks s' ∖ window f1 = used_blocks sd ∪ {[b]}) as Edata.
  { rewrite Ew, U. apply set_eq. intros x. rewrite elem_of_difference, !elem_of_union, !elem_of_zone, elem_of_singleton.
    specialize (Hz x). destruct (decide (b <= x <= b + m)) as [Hx|].
    - destruct (Hz Hx). split; [intros [[?|?] ?]; [done|right; lia]|intros [?| ->]; [done|]]. split; [right|]; lia.
    - split; [intros [[?|?] ?]; [by left|lia]|intros [?| ->]; [split; [by left|lia]|lia]]. }
  split; try done.
  - apply T.
  - apply T.
  - apply with_block_ok. split; rewrite Ec; [lia|]. intros Hm0. split.
    + unfold f1. destruct prealloc; [|by rewrite (Hp eq_refl) in Hm0].
      cbn. apply (taken_part_freeable sd g j m s'); done || lia.
    + rewrite Ew, U. intros x. rewrite elem_of_union, !elem_of_zone. right. lia.
  - rewrite <- (di_used _ _ _ _ D), <- (discarded_zone _ _ _ _ D). by apply elem_of_difference.
  - unfold b. rewrite <- (Z.add_0_r (blockno sd g j)). apply (taken_part_freeable sd g j m s'); done || lia.
  - by rewrite with_block_window, Edata, (di_used _ _ _ _ D).
  - change (i_prealloc_count (with_block s lbn b size f1)) with (i_prealloc_count f1).
    rewrite Ec, (bc_es _ _ _ _ _ _ _ C), Hf. cbn [es_set_free es_set_free_blocks s_free_blocks_count es_free].
    rewrite (di_free _ _ _ _ D). lia.
  - exists pb, pc. by rewrite Ef.
  - rewrite <- (discarded_zone _ _ _ _ D), (bc_geo _ _ _ _ _ _ _ C), (di_geo _ _ _ _ D).
    unfold data_zone. by rewrite (bc_es _ _ _ _ _ _ _ C).
  - intros x n Hx. apply (freeable_changed sd s' g gd gd' bm'); [done..|]. by apply (di_keeps _ _ _ _ D).
Qed.

(** The condition under which the allocation is refused. *)
Definition no_space (s : m_ext2fs) (cr_uid : Z) : bool :=
  (s_free_blocks_count (s_es s) =? 0)
  || (negb (cr_uid =? 0) && (s_free_blocks_count (s_es s) <? s_r_blocks_count (s_es s))).

Lemma i32_sign x : 0 < x < 2 ^ 31 -> i32 x = x.
Proof. intros H. apply sintw_small; lia. Qed.

(** Choosing the block: what the rest of the routine sees. *)
Lemma wp_alloc_choose (Q : file * Z -> m_ext2fs -> Prop) junk s f bpref lbn size :
  wf s -> s_lock s = false -> file_ok s f -> s_free_blocks_count (s_es s) <> 0 ->
  (forall f1 b s', 0 < b < 2 ^ 31 -> alloc_result s f lbn size (with_block s lbn b size f1) b s' -> Q (f1, b) s') ->
  wp (if negb (i_prealloc_count f =? 0)
        && ((u32 bpref =? i_prealloc_block f) || (u32 (bpref + 1) =? i_prealloc_block f))
      then mret (set_prealloc (u32 (i_prealloc_block f + 1)) (u32 (i_prealloc_count f - 1)) f,
                 i32 (i_prealloc_block f))
      else
        f ← ext2_discard_prealloc f;
        if S_ISREG (i_mode (ip f)) then
          '(bno, pre) ← ext2_new_block (u64 bpref) true;
          let '(icount, ibn) := match pre with Some p => p | None => junk end in
          mret (set_prealloc ibn icount f, i32 bno)
        else
          '(bno, _) ← ext2_new_block (u64 bpref) false;
          mret (f, i32 bno)) Q s.
Proof.
  intros W L F Hfree HQ. pose proof (fo_count _ _ F) as Hcount.
  destruct (_ && _) eqn:E.
  { apply andb_true_iff in E as [E _]. apply negb_true_iff, Z.eqb_neq in E.
    destruct (alloc_hit s f lbn size W L F ltac:(lia)) as [Hb A]. apply wp_ret. rewrite i32_sign by done.
    by apply HQ. }
  clear E. wp_steps. apply wp_discard; [done..|]. intros fd sd D.
  pose proof (discarded_free_pos _ _ _ _ W F D Hfree) as Hfree'.
  destruct (S_ISREG _); wp_steps;
    (apply wp_new_block; [apply D|apply D| |done]); intros g j m r s' A _;
    pose proof (alloc_miss s f fd sd _ g j m r s' lbn size W F D A) as [Hb R];
    rewrite (al_result _ _ _ _ _ _ _ A); cbn; wp_steps; rewrite i32_sign by done; by apply HQ.
Qed.

(** The routine for whole blocks. *)
Lemma wp_ext2_alloc (Q : file * Z * Z -> m_ext2fs -> Prop) junk s f lbn bpref size cr_uid :
  wf s -> s_lock s = false -> file_ok s f -> size = s_blocksize (geo s) ->
  (no_space s cr_uid = true -> Q (f, ENOSPC, 0) s) ->
  (no_space s cr_uid = false -> forall f' b s', alloc_result s f lbn size f' b s' -> Q (f', 0, b) s') ->
  wp (ext2_alloc junk f lbn bpref size cr_uid) Q s.
Proof.
  intros W L F Esize H1 H2. unfold ext2_alloc, no_space in *. pose proof (wg_bsize _ _ (wf_geometry _ W)) as Hbs.
  assert (u64 size =? s_blocksize (geo s) = true) as Es by (apply Z.eqb_eq; rewrite Esize; apply uintw_small; lia).
  wp_steps. unfold id. rewrite Es. cbn [andb].
  destruct (Z.eqb_spec (s_free_blocks_count (s_es s)) 0) as [|Hfree]; [wp_steps; by apply H1|]. cbn [orb] in *.
  destruct (_ && _); [wp_steps; by apply H1|]. specialize (H2 eq_refl).
  generalize (if s_blocks_count (s_es s) <=? u32 bpref then 0 else bpref). intros bp.
  unfold ext2_alloc_rest. wp_steps. apply (wp_alloc_choose _ junk s f bp lbn size W L F Hfree).
  intros f1 b s' Hb R. rewrite (proj2 (Z.ltb_lt 0 b)) by lia. wp_steps.
  destruct (ar_zone _ _ _ _ _ _ _ R) as [_ Eg]. unfold id. rewrite Eg.
  assert (u32 b = b) as -> by (apply uintw_small; lia). by apply H2.
Qed.

(** Giving a new block back. *)
Record given_back (s : m_ext2fs) (b : Z) (s' : m_ext2fs) : Prop := {
  gb_wf : wf s';
  gb_lock : s_lock s' = false;
  gb_used : used_blocks s' = used_blocks s ∖ {[b]};
  gb_free : s_free_blocks_count (s_es s') = s_free_blocks_count (s_es s) + 1;
  gb_zone : data_zone s' = data_zone s /\ geo s' = geo s;
  gb_inodes : used_inodes s' = used_inodes s;
  gb_freeable : forall block count, freeable s block count -> freeable s' block count;
}.

Lemma wp_ext2_blkfree (Q : unit -> m_ext2fs -> Prop) s b size :
  wf s -> s_lock s = false -> freeable s b 1 -> b ∈ used_blocks s ->
  size = s_blocksize (geo s) -> e2fs_fsize (geo s) = s_blocksize (geo s) ->
  (forall s', given_back s b s' -> Q tt s') -> wp (ext2_blkfree b size) Q s.
Proof.
  intros W L F Hb Es Ef HQ. pose proof (wg_bsize _ _ (wf_geometry _ W)) as Hbs.
  pose proof (fr_block _ _ _ F). pose proof (wg_first _ _ (wf_geometry _ W)).
  pose proof (blocks_count_small _ _ (wf_geometry _ W)).
  unfold ext2_blkfree. wp_steps. unfold id. rewrite Ef, Es, (uintw_small 64 (s_blocksize _)) by lia.
  rewrite Z.div_same by lia. mach. apply wp_ext2_free_blocks; [done..|]. intros s' x D. apply HQ.
  destruct (freed_used s b 1 x s' W F D) as [U Hx].
  assert (zone b (b + 1) = {[b]}) as Ez by (apply set_eq; intros y; rewrite elem_of_zone, elem_of_singleton; lia).
  rewrite Ez in *. specialize (Hx ltac:(set_solver)). subst x.
  destruct (fd_bits _ _ _ _ _ D) as (gd & gd' & bm & bm' & Hgd & B & BC & Hf & C & _).
  split; [apply D|apply D|done| |split| |].
  - rewrite (bc_es _ _ _ _ _ _ _ C), Hf. cbn. lia.
  - unfold data_zone. by rewrite (bc_es _ _ _ _ _ _ _ C).
  - apply C.
  - destruct (freeable_group s _ _ W F) as (Hg & _). by eapply bm_changed_inodes.
  - intros block count. by eapply freeable_changed.
Qed.

(** C19: Allocating a block of a file.  The request fails with ENOSPC and changes nothing
    when no block is free, or when the caller is not root and fewer blocks are free than
    are reserved.  Otherwise it succeeds: the block is one of the data zone that held no
    data (the blocks of the preallocation window count as holding none), it is positive,
    it is the only block that now holds data in addition, the free blocks together with
    the window drop by one, the file system stays well-formed, and the window that is
    left is again one that can be discarded.  The garbage in the uninitialised locals
    never matters. *)
Theorem ext2_alloc_refines junk s f lbn bpref cr_uid :
  wf s -> s_lock s = false -> file_ok s f ->
  let size := s_blocksize (geo s) in
  (no_space s cr_uid = true -> ext2_alloc junk f lbn bpref size cr_uid s = Ret (f, ENOSPC, 0) s) /\
  (no_space s cr_uid = false -> exists f' b s',
     ext2_alloc junk f lbn bpref size cr_uid s = Ret (f', 0, b) s' /\ alloc_result s f lbn size f' b s').
Proof.
  intros W L F size. split; intros H.
  - assert (wp (ext2_alloc junk f lbn bpref size cr_uid) (fun r s' => r = (f, ENOSPC, 0) /\ s' = s) s) as Hw
      by (apply wp_ext2_alloc; congruence || done).
    apply wp_run in Hw as (r & s' & -> & -> & ->). done.
  - assert (wp (ext2_alloc junk f lbn bpref size cr_uid)
      (fun r s' => exists f' b, r = (f', 0, b) /\ alloc_result s f lbn size f' b s') s) as Hw
      by (apply wp_ext2_alloc; congruence || eauto).
    apply wp_run in Hw as (r & s' & -> & f' & b & -> & R). by exists f', b, s'.
Qed.

(** The removal of an inode without links and without a window. *)
Lemma wp_vfree (Q : file -> m_ext2fs -> Prop) s f mode :
  wf s -> s_lock s = false -> i_prealloc_count f = 0 -> i_nlink (ip f) = 0 ->
  EXT2_FIRST_INO <= i_number f <= s_inodes_count (s_es s) ->
  (forall s', wf s' -> s_lock s' = false -> geo s' = geo s -> used_blocks s' = used_blocks s ->
     used_inodes s' = used_inodes s ∖ {[i_number f]} -> s_free_blocks_count (s_es s') = s_free_blocks_count (s_es s) -> Q f s') ->
  wp (ext2_vfree f (i_number f) mode) Q s.
Proof.
  intros W L Hc Hn Hi HQ. assert (EXT2_FIRST_INO = 11) as E11 by done. pose proof (wg_inodes31 _ _ (wf_geometry _ W)).
  unfold ext2_vfree. wp_steps. unfold id. rewrite (uintw_small 32 (i_number f)) by lia.
  rewrite (proj2 (Z.ltb_ge _ _)) by (pose proof (wg_inodes _ _ (wf_geometry _ W)); lia).
  wp_steps. apply wp_discard; [done..|split; lia|]. intros fd sd D.
  assert (fd = f) as -> by (rewrite (di_file _ _ _ _ D); by apply set_prealloc_id).
  assert (used_blocks sd = used_blocks s) as Eu.
  { rewrite (di_used _ _ _ _ D), window_empty by done. set_solver. }
  pose proof (di_free _ _ _ _ D) as Ef. rewrite Hc, Z.add_0_r in Ef.
  assert (s_inodes_count (s_es sd) = s_inodes_count (s_es s)) as Ei by (destruct (di_es _ _ _ _ D) as [n ->]; done).
  cbn [ip set_ip set_mode i_nlink i_mode i_number]. rewrite Hn.
  assert (forall f1 : file, set_ip (set_mode (i_mode (ip f1))) (set_ip (set_mode (u16 mode)) f1) = f1) as Eta.
  { intros [[] ?????]. done. }
  wp_steps. destruct (inode_group_ok sd (i_number f) (di_wf _ _ _ _ D) ltac:(lia)) as (Hg & Hj & Eno).
  apply wp_ext2_free_inode; [apply D|apply D|lia|..].
  - intros s' _ C. wp_steps. rewrite Eta. destruct (inode_changed_set sd _ _ _ _ _ _ s' (di_wf _ _ _ _ D) Hg Hj C) as [_ EU].
    rewrite Eno in EU. destruct (ic_bits _ _ _ _ _ _ _ _ C) as (gd & bm & bm' & Hgd & B & _ & _ & BC & _).
    apply HQ; [apply C|apply C|by rewrite (bc_geo _ _ _ _ _ _ _ BC), (di_geo _ _ _ _ D)| | |].
    + rewrite <- Eu. by apply (bm_changed_blocks sd s' _ gd _ bm' (di_wf _ _ _ _ D) Hg Hgd BC).
    + by rewrite EU, (di_inodes _ _ _ _ D).
    + rewrite (bc_es _ _ _ _ _ _ _ BC). exact Ef.
  - intros s' Hb (W' & L' & Ees & Egd & Egeo & Edev & _). wp_steps. rewrite Eta.
    assert (used_inodes s' = used_inodes sd /\ used_blocks s' = used_blocks sd) as [EI EB].
    { split; apply set_eq; intros i.
      - rewrite !elem_of_used_inodes, Ees. unfold inode_used, bitmap_bit, gd_of, gd_lookup, inode_group_of, inode_bit_of. by rewrite Egeo, Egd, Edev.
      - unfold used_blocks, data_zone. rewrite !elem_of_filter, Ees. unfold block_used, bitmap_bit, gd_of, gd_lookup, block_group_of, block_bit_of.
        by rewrite Ees, Egeo, Egd, Edev. }
    apply HQ; [done|done|by rewrite Egeo, (di_geo _ _ _ _ D)|congruence| |by rewrite Ees].
    rewrite EI, (di_inodes _ _ _ _ D). symmetry. apply difference_disjoint_L. rewrite <- (di_inodes _ _ _ _ D).
    apply disjoint_singleton_r. rewrite elem_of_used_inodes. intros [Hu _]. unfold inode_used in Hu. congruence.
Qed.

(** A file without a window, of regular type. *)
Definition example_file : file :=
  mkFile (mkInode 33188 1 0 0 0 0 (replicate 12 0) (replicate 3 0) 0 0 0 0 0 0) 12 0 0 0 0 0 0.

Lemma example_file_ok s : file_ok s example_file.
Proof. by split. Qed.

Lemma ext2_alloc_refines_witness :
  exists f' b s', ext2_alloc (0, 0) example_file 0 40 (s_blocksize (geo example_fs)) 0 example_fs = Ret (f', 0, b) s' /\
    alloc_result example_fs example_file 0 (s_blocksize (geo example_fs)) f' b s'.
Proof.
  refine (proj2 (ext2_alloc_refines (0, 0) example_fs example_file 0 40 0 example_fs_wf eq_refl
    (example_file_ok _)) _). vm_compute. reflexivity.
Defined.

(** [ext2_vfree] with the parent directory (which has links) as the vnode, the way
    [ext2_valloc] calls it, frees no inode: it returns the window, and the inodes in use
    stay the same whatever inode number is passed. *)
Theorem ext2_vfree_leaks s pip ino mode :
  wf s -> s_lock s = false -> file_ok s pip -> i_nlink (ip pip) <> 0 ->
  u32 ino <= e2fs_ipg (geo s) * s_groups_count (geo s) ->
  exists pip' s', ext2_vfree pip ino mode s = Ret pip' s' /\ used_inodes s' = used_inodes s /\
    ip pip' = ip pip.
Proof.
  intros W L F Hn Hr. apply wp_run. unfold ext2_vfree. wp_steps. unfold id.
  rewrite (proj2 (Z.ltb_ge _ _)) by done. wp_steps. apply wp_discard; [done..|]. intros f' s' D.
  rewrite (di_file _ _ _ _ D). unfold ext2_free_inode. cbn. rewrite (proj2 (Z.eqb_neq _ _)) by done. cbn.
  wp_steps. split; [apply D|]. destruct pip as [i ????]. by destruct i.
Qed.

Lemma ext2_vfree_leaks_witness :
  wf example_fs /\ exists pip' s', ext2_vfree example_file 15 33188 example_fs = Ret pip' s' /\
    used_inodes s' = used_inodes example_fs /\ ip pip' = ip example_file.
Proof.
  split; [exact example_fs_wf|].
  apply (ext2_vfree_leaks example_fs example_file 15 33188 example_fs_wf eq_refl (example_file_ok _)); [done|].
  vm_compute. discriminate.
Defined.
