(* ===== verification/Bmap.v ===== *)
(** * Logical to physical block mapping (src/src/gnu/ext2fs/ext2_bmap.c)

    [ext2_getlbns] computes the path of indirect blocks to a block of a file, and
    [ext2_bmaparray] follows it.  Logical block numbers are C [int]s; indirect blocks
    have negative logical numbers. *)

From S2P Require Import Prelude Inode.

(** [struct indir] without [in_exists], which only debugging code reads. *)
Record indir := mkIndir { in_lbn : Z; in_off : Z }.

#[export] Instance indir_eq_dec : EqDecision indir.
Proof. solve_decision. Defined.

(** ** [ext2_getlbns] *)

(** The loop that finds the number of levels of indirection: [i], [blockcnt] and [bn]
    when it breaks, [None] for EFBIG. *)
Fixpoint level_loop (n : nat) (nindir blockcnt bn : Z) : option (Z * Z * Z) :=
  match n with
  | O => None
  | S m =>
      let qblockcnt := i64 (blockcnt * nindir) in
      if bn <? qblockcnt then Some (Z.of_nat n, blockcnt, bn)
      else level_loop m nindir (i32 qblockcnt) (i32 (bn - i32 qblockcnt))
  end.

(** The loop that stores the entries, for [NIADDR - i + 1] rounds. *)
Fixpoint path_loop (n : nat) (nindir realbn metalbn bn blockcnt : Z) : list indir :=
  match n with
  | O => []
  | S n =>
      if metalbn =? realbn then []
      else
        let off := i32 (u64 (bn ÷ blockcnt) mod nindir) in
        mkIndir metalbn off ::
          path_loop n nindir realbn (i32 (metalbn - (-1 + off * blockcnt))) bn
            (i32 (u64 blockcnt / nindir))
  end.

(** The stored entries ([*nump] is their number); [None] is EFBIG. *)
Definition ext2_getlbns (nindir bn : Z) : option (list indir) :=
  let realbn := bn in
  let bn := if bn <? 0 then i32 (- bn) else bn in
  if bn <? NDADDR then Some []
  else
    '(i, blockcnt, bn) ← level_loop 3 nindir 1 (i32 (bn - NDADDR));
    let metalbn := if 0 <=? realbn then i32 (- (realbn - bn + NIADDR - i))
                   else i32 (- (- realbn - bn + NIADDR - i)) in
    Some (mkIndir metalbn (NIADDR - i) ::
            path_loop (Z.to_nat (NIADDR - i + 1)) nindir realbn metalbn bn blockcnt).

(** ** [ext2_bmaparray] *)

(** What the mount structure provides: [um_nindir], [um_bptrtodb] and [um_seqinc]. *)
Record ext2mount := mkMount { um_nindir : Z; um_bptrtodb : Z; um_seqinc : Z }.

Definition blkptrtodb (ump : ext2mount) (b : Z) : Z := i32 (Z.shiftl b (um_bptrtodb ump)).
Definition is_sequential (ump : ext2mount) (a b : Z) : bool := u64 b =? u64 (a + um_seqinc ump).

(** [for (; bn < limit && *runp < maxrun && is_sequential (get (bn - 1)) (get bn);
    ++bn, ++*runp);] *)
Fixpoint run_forward (n : nat) (ump : ext2mount) (get : Z -> option Z) (bn limit maxrun run : Z)
    : option Z :=
  match n with
  | O => Some run
  | S n =>
      if (bn <? limit) && (run <? maxrun) then
        a ← get (bn - 1); b ← get bn;
        if is_sequential ump a b then run_forward n ump get (bn + 1) limit maxrun (run + 1) else Some run
      else Some run
  end.

(** [for (; bn >= 0 && *runb < maxrun && is_sequential (get bn) (get (bn + 1));
    --bn, ++*runb);] *)
Fixpoint run_backward (n : nat) (ump : ext2mount) (get : Z -> option Z) (bn maxrun run : Z)
    : option Z :=
  match n with
  | O => Some run
  | S n =>
      if (0 <=? bn) && (run <? maxrun) then
        a ← get bn; b ← get (bn + 1);
        if is_sequential ump a b then run_backward n ump get (bn - 1) maxrun (run + 1) else Some run
      else Some run
  end.

(** Array access: [None] is outside the array. *)
Definition aref (l : list Z) (i : Z) : option Z := if i <? 0 then None else l !! Z.to_nat i.

(** The runs around index [bn] of an array of [limit] block pointers, when [runp] is
    wanted; [runb] may be wanted with it. *)
Definition runs (ump : ext2mount) (l : list Z) (bn limit maxrun : Z) (want_runb : bool) : option (Z * Z) :=
  runp ← run_forward (Z.to_nat limit) ump (aref l) (bn + 1) limit maxrun 0;
  runb ← (if want_runb && (0 <? bn) then run_backward (Z.to_nat limit) ump (aref l) (bn - 1) maxrun 0
          else Some 0);
  Some (runp, runb).

(** Result of the mapping: an error number, or [*bnp], [*runp], [*runb]. *)
Inductive bmap_result := BmapError (e : Z) | Mapped (bnp runp runb : Z).

Definition EFBIG : Z := 27.
Definition EIO : Z := 5.

(** The buffers of the file's indirect blocks that are valid in the cache, by their
    logical number. *)
Abbreviation bcache := (gmap Z (list Z)).

Section Bmaparray.
(** The contents of the device, by device address (an array of pointers per indirect
    block; [None] is a read error), and the mount. *)
Context (ump : ext2mount) (disk : Z -> option (list Z)).

(** [buf_getblk] and the read that follows it when the buffer is not valid: [inl] is
    the contents, [inr None] a null buffer, [inr (Some e)] a read error. *)
Definition getblk (lbn daddr : Z) (c : bcache) : (list Z + option Z) * bcache :=
  match c !! lbn with
  | Some d => (inl d, c)
  | None =>
      if daddr =? 0 then (inr None, c)
      else match disk (blkptrtodb ump daddr) with
           | Some d => (inl d, <[lbn := d]> c)
           | None => (inr (Some EIO), c)
           end
  end.

(** The loop over the rest of the path.  [daddr] is the address so far; the result
    carries it and the runs, or an error. *)
Fixpoint walk_loop (ap : list indir) (bn daddr maxrun : Z) (want_runp want_runb : bool) (c : bcache)
    : option ((Z * Z * Z + Z) * bcache) :=
  match ap with
  | [] => Some (inl (daddr, 0, 0), c)
  | e :: rest =>
      if in_lbn e =? bn then Some (inl (daddr, 0, 0), c)
      else
        match getblk (in_lbn e) daddr c with
        | (inr None, c) => Some (inl (daddr, 0, 0), c)
        | (inr (Some e), c) => Some (inr e, c)
        | (inl bap, c) =>
            p ← aref bap (in_off e);
            let daddr := i32 p in
            match rest with
            | [] =>
                if negb (daddr =? 0) && want_runp then
                  '(runp, runb) ← runs ump bap (in_off e) (um_nindir ump) maxrun want_runb;
                  Some (inl (daddr, runp, runb), c)
                else Some (inl (daddr, 0, 0), c)
            | _ => walk_loop rest bn daddr maxrun want_runp want_runb c
            end
        end
  end.

(** [None] is an access outside [i_db], [i_ib] or an indirect block.  [maxrun] is
    [io_maxwritecnt / iosize - 1]. *)
Definition ext2_bmaparray (ip : inode) (bn maxrun : Z) (want_runp want_runb : bool) (c : bcache)
    : option (bmap_result * bcache) :=
  match ext2_getlbns (um_nindir ump) bn with
  | None => Some (BmapError EFBIG, c)
  | Some [] =>
      p ← aref (i_db ip) bn;
      let bnp := blkptrtodb ump p in
      if bnp =? 0 then Some (Mapped (-1) 0 0, c)
      else if want_runp then
        '(runp, runb) ← runs ump (i_db ip) bn NDADDR maxrun want_runb;
        Some (Mapped bnp runp runb, c)
      else Some (Mapped bnp 0 0, c)
  | Some (a :: ap) =>
      daddr ← aref (i_ib ip) (in_off a);
      '(r, c) ← walk_loop ap bn daddr maxrun want_runp want_runb c;
      match r with
      | inr e => Some (BmapError e, c)
      | inl (daddr, runp, runb) =>
          let bnp := blkptrtodb ump daddr in
          Some (Mapped (if bnp =? 0 then -1 else bnp) runp runb, c)
      end
  end.

End Bmaparray.

(** ** The shape of a path *)

(** First file block below [k] levels of indirection. *)
Definition base (nindir k : Z) : Z :=
  NDADDR + (if 1 <? k then nindir else 0) + (if 2 <? k then nindir ^ 2 else 0)
         + (if 3 <? k then nindir ^ 3 else 0).

(** Entry [t] of the path to block [base k + x]: an indirect block's logical number is
    minus the sum of the first block it covers and its height, and the offset is a
    digit of [x] in base [nindir]. *)
Definition path_entry (nindir k x t : Z) : indir :=
  mkIndir (- (base nindir k + (x - x mod nindir ^ (k - t + 1)) + (k - t)))
          ((x / nindir ^ (k - t)) mod nindir).

Definition path_head (nindir k : Z) : indir := mkIndir (- (base nindir k + (k - 1))) (k - 1).

Definition path_spec (nindir k x : Z) : list indir :=
  path_head nindir k :: (path_entry nindir k x <$> seqZ 1 k).

Section Path.
Context (N : Z).
Hypothesis HN : 4 <= N <= 2 ^ 14.

(** The powers of the fan-out fit their machine types. *)
Lemma fanout_bounds : 16 <= N ^ 2 <= 2 ^ 28 /\ 64 <= N ^ 3 <= 2 ^ 42 /\ N ^ 2 = N * N /\ N ^ 3 = N ^ 2 * N.
Proof.
  assert (N ^ 2 = N * N) as E2 by lia. assert (N ^ 3 = N ^ 2 * N) as E3 by lia.
  split; [rewrite E2; nia|]. split; [rewrite E3; nia|done].
Qed.

(** The level search, unrolled. *)
Lemma level_loop_unrolled y :
  0 <= y < 2 ^ 31 ->
  level_loop 3 N 1 y =
    if y <? N then Some (3, 1, y)
    else if y - N <? N ^ 2 then Some (2, N, y - N)
    else if y - N - N ^ 2 <? N ^ 3 then Some (1, N ^ 2, y - N - N ^ 2) else None.
Proof.
  intros Hy. destruct fanout_bounds as (B2 & B3 & E2 & E3). cbn [level_loop].
  rewrite Z.mul_1_l, (sintw_small 64 N) by lia. destruct (Z.ltb_spec y N); [done|].
  rewrite !(sintw_small 32 N), (sintw_small 32 (y - N)) by lia. rewrite <- E2.
  rewrite (sintw_small 64 (N ^ 2)) by lia. destruct (Z.ltb_spec (y - N) (N ^ 2)); [done|].
  rewrite !(sintw_small 32 (N ^ 2)), (sintw_small 32 (y - N - N ^ 2)) by lia. rewrite <- E3.
  rewrite (sintw_small 64 (N ^ 3)) by lia. done.
Qed.

Lemma pow_step m : 0 <= m -> N ^ (m + 1) = N ^ m * N.
Proof. intros. rewrite Z.pow_add_r by lia. lia. Qed.

Lemma pow_pos m : 0 <= m -> 0 < N ^ m.
Proof. intros. apply Z.pow_pos_nonneg; lia. Qed.

(** Dropping the digits below position [m + 1] in two steps. *)
Lemma trunc_step x m :
  0 <= x -> 0 <= m ->
  x - x mod N ^ m = x - x mod N ^ (m + 1) + (x / N ^ m) mod N * N ^ m.
Proof.
  intros Hx Hm. pose proof (pow_pos m Hm). rewrite pow_step by done.
  rewrite Z.rem_mul_r by lia. lia.
Qed.

(** One round of the path loop: from the logical number of entry [t] to that of the
    next entry. *)
Lemma path_loop_ok n k x realbn t s :
  1 <= k <= 3 -> 0 <= x < N ^ k -> base N k + x < 2 ^ 31 - 4 -> 1 <= t <= s -> t + Z.of_nat n = k + 1 ->
  s <= k + 1 -> (s <= k -> in_lbn (path_entry N k x s) = realbn) ->
  (forall u, t <= u < s -> in_lbn (path_entry N k x u) <> realbn) ->
  path_loop n N realbn (in_lbn (path_entry N k x t)) x (N ^ (k - t)) = path_entry N k x <$> seqZ t (s - t).
Proof.
  intros Hk Hx Hb. revert t. induction n as [|n IH]; intros t Ht Hn Hs Heq Hne; cbn [path_loop].
  { by replace (s - t) with 0 by lia. }
  destruct (decide (t = s)) as [->|Hts].
  { rewrite Heq by lia. by rewrite Z.eqb_refl, Z.sub_diag. }
  rewrite seqZ_cons by lia. cbn [fmap list_fmap].
  rewrite (proj2 (Z.eqb_neq _ realbn)) by (apply Hne; lia).
  destruct fanout_bounds as (B2 & B3 & E2 & E3).
  pose proof (pow_pos (k - t) ltac:(lia)) as Hp.
  assert (N ^ (k - t) <= 2 ^ 28) as Hp'.
  { assert (N ^ (k - t) <= N ^ 2) by (apply Z.pow_le_mono_r; lia). lia. }
  rewrite Z.quot_div_nonneg by lia.
  pose proof (Z.div_pos x (N ^ (k - t)) ltac:(lia) Hp).
  assert (x / N ^ (k - t) <= x) by (apply Z.div_le_upper_bound; nia).
  assert (0 <= base N k) as Hbase by (unfold base, NDADDR; repeat destruct (_ <? _); lia).
  pose proof (Z.mod_pos_bound (x / N ^ (k - t)) N ltac:(lia)) as Hm.
  rewrite (uintw_small 64) by lia. rewrite (sintw_small 32 (_ mod N)) by lia.
  f_equal. replace (Z.pred (s - t)) with (s - (t + 1)) by lia.
  replace (Z.succ t) with (t + 1) by lia.
  destruct n as [|n]; [by replace (s - (t + 1)) with 0 by lia|].
  assert (N ^ (k - t) = N ^ (k - (t + 1)) * N) as Ep by (rewrite <- pow_step by lia; f_equal; lia).
  pose proof (pow_pos (k - (t + 1)) ltac:(lia)).
  assert (i32 (u64 (N ^ (k - t)) / N) = N ^ (k - (t + 1))) as ->.
  { rewrite uintw_small by lia. rewrite Ep, Z.div_mul by lia. apply sintw_small; [lia|].
    change (2 ^ (32 - 1)) with (2 ^ 31). nia. }
  assert (i32 (in_lbn (path_entry N k x t) - (-1 + (x / N ^ (k - t)) mod N * N ^ (k - t)))
          = in_lbn (path_entry N k x (t + 1))) as ->.
  { unfold path_entry. cbn [in_lbn]. pose proof (trunc_step x (k - t) ltac:(lia) ltac:(lia)) as Ht'.
    replace (k - (t + 1) + 1) with (k - t) by lia.
    pose proof (Z.mod_pos_bound x (N ^ (k - t)) ltac:(lia)).
    assert (x mod N ^ (k - t) <= x) by (apply Z.mod_le; lia).
    rewrite sintw_small; [lia|lia|]. change (2 ^ (32 - 1)) with (2 ^ 31). lia. }
  apply IH; [lia|lia|lia|done|]. intros u Hu. apply Hne. lia.
Qed.

Lemma level_loop_ok k x :
  1 <= k <= 3 -> 0 <= x < N ^ k -> base N k + x < 2 ^ 31 ->
  level_loop 3 N 1 (base N k + x - NDADDR) = Some (4 - k, N ^ (k - 1), x).
Proof.
  intros Hk Hx Hb. destruct fanout_bounds as (B2 & B3 & E2 & E3).
  assert (base N k = NDADDR + (if 1 <? k then N else 0) + (if 2 <? k then N ^ 2 else 0)) as Eb.
  { unfold base. rewrite (proj2 (Z.ltb_ge 3 k)) by lia. lia. }
  assert (NDADDR <= base N k) as Hbase by (rewrite Eb; repeat destruct (_ <? _); lia).
  unfold NDADDR in *. rewrite level_loop_unrolled by lia.
  assert (k = 1 \/ k = 2 \/ k = 3) as D by lia. destruct D as [-> | [-> | ->]];
    cbn [Z.ltb Z.compare Pos.compare Pos.compare_cont] in Eb.
  - rewrite Z.pow_1_r in Hx. rewrite (proj2 (Z.ltb_lt _ _)) by lia. do 2 f_equal. lia.
  - rewrite (proj2 (Z.ltb_ge _ N)) by lia. rewrite (proj2 (Z.ltb_lt _ _)) by lia.
    rewrite Z.pow_1_r. do 2 f_equal. lia.
  - rewrite (proj2 (Z.ltb_ge _ N)), (proj2 (Z.ltb_ge _ (N ^ 2))) by lia.
    rewrite (proj2 (Z.ltb_lt _ _)) by lia. do 2 f_equal. lia.
Qed.

(** Every data block below the limit of triple indirection has the specified path. *)
Lemma getlbns_data k x :
  1 <= k <= 3 -> 0 <= x < N ^ k -> base N k + x < 2 ^ 31 - 4 ->
  ext2_getlbns N (base N k + x) = Some (path_spec N k x).
Proof.
  intros Hk Hx Hb. destruct fanout_bounds as (B2 & B3 & E2 & E3).
  assert (base N k = NDADDR + (if 1 <? k then N else 0) + (if 2 <? k then N ^ 2 else 0)) as Eb.
  { unfold base. rewrite (proj2 (Z.ltb_ge 3 k)) by lia. lia. }
  assert (NDADDR <= base N k) as Hbase by (rewrite Eb; repeat destruct (_ <? _); lia).
  unfold ext2_getlbns. unfold NDADDR in *.
  rewrite (proj2 (Z.ltb_ge _ 0)), (proj2 (Z.ltb_ge _ 12)) by lia. rewrite sintw_small by lia.
  pose proof (level_loop_ok k x Hk Hx ltac:(lia)) as El. unfold NDADDR in El. rewrite El.
  cbn [mbind option_bind]. rewrite (proj2 (Z.leb_le 0 _)) by lia. unfold NIADDR.
  rewrite sintw_small by (change (2 ^ (32 - 1)) with (2 ^ 31); lia).
  unfold path_spec, path_head. replace (3 - (4 - k)) with (k - 1) by lia.
  replace (- (base N k + x - x + 3 - (4 - k))) with (- (base N k + (k - 1))) by lia.
  do 2 f_equal. replace (k - 1 + 1) with k by lia.
  transitivity (path_entry N k x <$> seqZ 1 (k + 1 - 1)); [|by rewrite Z.add_simpl_r].
  rewrite <- (path_loop_ok (Z.to_nat k) k x (base N k + x) 1 (k + 1)); [|lia|lia|lia|lia|lia|lia|intros; lia|].
  - f_equal. unfold path_entry. cbn [in_lbn]. replace (k - 1 + 1) with k by lia.
    rewrite (Z.mod_small x) by lia. lia.
  - intros u Hu. unfold path_entry. cbn [in_lbn].
    pose proof (Z.mod_le x (N ^ (k - u + 1)) ltac:(lia) ltac:(apply pow_pos; lia)). lia.
Qed.

Lemma base_values : base N 1 = 12 /\ base N 2 = 12 + N /\ base N 3 = 12 + N + N ^ 2 /\
  base N 4 = 12 + N + N ^ 2 + N ^ 3.
Proof. unfold base, NDADDR. cbn -[Z.pow Z.add]. lia. Qed.

Lemma base_range k : 1 <= k <= 3 -> NDADDR <= base N k /\ base N k + N ^ k = base N (k + 1).
Proof.
  intros Hk. destruct fanout_bounds as (B2 & B3 & E2 & E3). destruct base_values as (V1 & V2 & V3 & V4).
  assert (k = 1 \/ k = 2 \/ k = 3) as D by lia. unfold NDADDR.
  destruct D as [-> | [-> | ->]].
  - change (1 + 1) with 2. rewrite V1, V2, Z.pow_1_r. lia.
  - change (2 + 1) with 3. lia.
  - change (3 + 1) with 4. lia.
Qed.

(** Beyond triple indirection. *)
Lemma getlbns_efbig bn : base N 4 <= bn < 2 ^ 31 -> ext2_getlbns N bn = None.
Proof.
  intros Hb. destruct fanout_bounds as (B2 & B3 & E2 & E3).
  destruct base_values as (V1 & V2 & V3 & V4). rewrite V4 in Hb. unfold ext2_getlbns, NDADDR. rewrite (proj2 (Z.ltb_ge _ 0)), (proj2 (Z.ltb_ge _ 12)) by lia.
  rewrite sintw_small by lia. rewrite level_loop_unrolled by lia.
  rewrite (proj2 (Z.ltb_ge _ N)), (proj2 (Z.ltb_ge _ (N ^ 2))), (proj2 (Z.ltb_ge _ (N ^ 3))) by lia. done.
Qed.

(** Each block number is direct, at one of the three levels, or too large. *)
Lemma bn_cases bn :
  NDADDR <= bn -> base N 4 <= bn \/ exists k x, 1 <= k <= 3 /\ 0 <= x < N ^ k /\ bn = base N k + x.
Proof.
  intros Hb. destruct (base_range 1 ltac:(lia)) as [_ S1], (base_range 2 ltac:(lia)) as [_ S2],
    (base_range 3 ltac:(lia)) as [_ S3].
  change (1 + 1) with 2 in S1. change (2 + 1) with 3 in S2. change (3 + 1) with 4 in S3.
  destruct base_values as (B1 & _). unfold NDADDR in Hb.
  destruct (decide (base N 4 <= bn)); [by left|]. right.
  destruct (decide (bn < base N 2)); [exists 1, (bn - base N 1); lia|].
  destruct (decide (bn < base N 3)); [exists 2, (bn - base N 2); lia|].
  exists 3, (bn - base N 3). lia.
Qed.

(** The entries above height [d] depend only on the digits of [x] above position [d]. *)
Lemma path_entry_same k x x' d u :
  0 <= d -> 1 <= u < k - d -> x' / N ^ (d + 1) = x / N ^ (d + 1) ->
  path_entry N k x' u = path_entry N k x u.
Proof.
  intros Hd Hu Eq. set (M := N ^ (d + 1)) in *. pose proof (pow_pos (d + 1) ltac:(lia)) as HM. fold M in HM.
  assert (forall e, d + 1 <= e -> x' / N ^ e = x / N ^ e) as Ediv.
  { intros e He. assert (N ^ e = M * N ^ (e - (d + 1))) as -> by (unfold M; rewrite <- Z.pow_add_r by lia; f_equal; lia).
    pose proof (pow_pos (e - (d + 1)) ltac:(lia)). rewrite <- !Z.div_div by lia. by rewrite Eq. }
  unfold path_entry. f_equal; [|by rewrite Ediv by lia].
  assert (forall y e, 0 <= e -> y - y mod N ^ e = N ^ e * (y / N ^ e)) as Et.
  { intros y e He. pose proof (pow_pos e He). pose proof (Z.div_mod y (N ^ e) ltac:(lia)). lia. }
  rewrite !Et, Ediv by lia. done.
Qed.

Lemma path_entry_above k x d u :
  0 <= x -> 0 <= d -> u < k - d -> 1 <= u -> d < N ^ (d + 1) ->
  path_entry N k (x - x mod N ^ (d + 1) + d) u = path_entry N k x u.
Proof.
  intros Hx Hd Hu Hu1 Hdl. apply (path_entry_same k x _ d); [lia|lia|].
  pose proof (pow_pos (d + 1) ltac:(lia)) as HM.
  pose proof (Z.div_mod x (N ^ (d + 1)) ltac:(lia)) as Hdm.
  replace (x - x mod N ^ (d + 1) + d) with (d + (x / N ^ (d + 1)) * N ^ (d + 1)) by lia.
  rewrite Z.div_add, Z.div_small by lia. lia.
Qed.

(** The path to a neighbour in the same last-level block. *)
Lemma path_spec_shift k x i :
  1 <= k -> 0 <= x mod N + i < N ->
  exists lbn, path_spec N k x = (path_head N k :: (path_entry N k x <$> seqZ 1 (k - 1))) ++ [mkIndir lbn (x mod N)] /\
    path_spec N k (x + i) = (path_head N k :: (path_entry N k x <$> seqZ 1 (k - 1))) ++ [mkIndir lbn (x mod N + i)].
Proof.
  intros Hk Hi. pose proof (Z.div_mod x N ltac:(lia)) as Hdm.
  assert ((x + i) / N = x / N) as Eq.
  { replace (x + i) with (x mod N + i + (x / N) * N) by lia. rewrite Z.div_add, Z.div_small by lia. lia. }
  assert ((x + i) mod N = x mod N + i) as Em.
  { replace (x + i) with (x mod N + i + (x / N) * N) by lia. by rewrite Z.mod_add, Z.mod_small by lia. }
  exists (in_lbn (path_entry N k x k)). unfold path_spec.
  assert (forall y, path_entry N k y <$> seqZ 1 k = (path_entry N k y <$> seqZ 1 (k - 1)) ++ [path_entry N k y k]) as Es.
  { intros y. replace k with (k - 1 + 1) at 2 by lia. rewrite seqZ_app, fmap_app by lia.
    rewrite (seqZ_cons _ 1), (seqZ_nil _ (Z.pred 1)) by lia. cbn [fmap list_fmap].
    by replace (1 + (k - 1)) with k by lia. }
  rewrite !Es. cbn [app]. split.
  - do 4 f_equal. unfold path_entry. by rewrite Z.sub_diag, Z.div_1_r.
  - f_equal. f_equal.
    + apply list_fmap_ext. intros j u Hu. apply lookup_seqZ in Hu as [-> ?].
      apply (path_entry_same k x (x + i) 0); [lia|lia|]. by rewrite !Z.pow_1_r.
    + f_equal. unfold path_entry. rewrite Z.sub_diag, Z.div_1_r, Z.div_1_r, Z.add_0_l, Z.pow_1_r. cbn [in_lbn]. rewrite Em.
      f_equal. lia.
Qed.

(** The path of an indirect block is the part above it of the path of any block
    below it. *)
Lemma getlbns_meta k x t :
  1 <= k <= 3 -> 0 <= x < N ^ k -> base N k + x < 2 ^ 31 - 8 -> 1 <= t <= k ->
  ext2_getlbns N (in_lbn (path_entry N k x t)) = Some (take (Z.to_nat t) (path_spec N k x)).
Proof.
  intros Hk Hx Hb Ht. destruct (base_range k Hk) as [Hbase Hnext].
  destruct fanout_bounds as (B2 & B3 & E2 & E3).
  set (d := k - t). set (M := N ^ (d + 1)). pose proof (pow_pos (d + 1) ltac:(lia)) as HM. fold M in HM.
  assert (4 <= M) as HM4.
  { unfold M. rewrite pow_step by lia. pose proof (pow_pos d ltac:(lia)). nia. }
  pose proof (Z.div_mod x M ltac:(lia)) as Hdm. pose proof (Z.mod_pos_bound x M ltac:(lia)) as Hmod.
  assert (N ^ k = M * N ^ (t - 1)) as Ek by (unfold M; rewrite <- Z.pow_add_r by lia; f_equal; lia).
  set (x' := x - x mod M + d).
  assert (0 <= x' < N ^ k) as Hx'.
  { pose proof (pow_pos (t - 1) ltac:(lia)).
    assert (x / M < N ^ (t - 1)) by (apply Z.div_lt_upper_bound; lia).
    pose proof (Z.div_pos x M ltac:(lia) ltac:(lia)). unfold x'. split; nia. }
  assert (in_lbn (path_entry N k x t) = - (base N k + x')) as Elbn.
  { unfold path_entry. cbn [in_lbn]. fold d. fold M. unfold x'. lia. }
  rewrite Elbn. unfold ext2_getlbns, NDADDR in *.
  rewrite (proj2 (Z.ltb_lt _ 0)) by lia. rewrite Z.opp_involutive, (sintw_small 32 (base N k + x')) by lia.
  rewrite (proj2 (Z.ltb_ge _ 12)), sintw_small by lia.
  pose proof (level_loop_ok k x' Hk Hx' ltac:(lia)) as El. unfold NDADDR in El. rewrite El.
  cbn [mbind option_bind]. rewrite (proj2 (Z.leb_gt 0 _)) by lia. unfold NIADDR.
  rewrite sintw_small by (change (2 ^ (32 - 1)) with (2 ^ 31); lia).
  unfold path_spec, path_head. replace (3 - (4 - k)) with (k - 1) by lia.
  replace (- (base N k + x' - x' + 3 - (4 - k))) with (- (base N k + (k - 1))) by lia.
  replace (Z.to_nat t) with (S (Z.to_nat (t - 1))) by lia. cbn [take]. do 2 f_equal.
  replace (k - 1 + 1) with k by lia.
  rewrite <- fmap_take, take_seqZ by lia.
  assert (forall u, 1 <= u < t -> path_entry N k x' u = path_entry N k x u) as Eabove.
  { intros u Hu. apply path_entry_above; [lia|lia|lia|lia|]. fold M. lia. }
  transitivity (path_entry N k x' <$> seqZ 1 (t - 1)).
  2:{ apply list_fmap_ext. intros i u Hu. apply lookup_seqZ in Hu as [-> ?]. apply Eabove. lia. }
  rewrite <- (path_loop_ok (Z.to_nat k) k x' (- (base N k + x')) 1 t); [|lia|lia|lia|lia|lia|lia| |].
  - f_equal. unfold path_entry. cbn [in_lbn]. replace (k - 1 + 1) with k by lia.
    rewrite (Z.mod_small x') by lia. lia.
  - intros _. unfold path_entry. cbn [in_lbn]. fold d. fold M.
    assert (x' mod M = d) as ->; [|unfold x'; lia].
    unfold x'. replace (x - x mod M + d) with (d + (x / M) * M) by lia.
    rewrite Z.mod_add, Z.mod_small by lia. done.
  - intros u Hu. rewrite Eabove, <- Elbn by lia. unfold path_entry. cbn [in_lbn]. fold d. fold M.
    assert (exists q, x - x mod N ^ (k - u + 1) = x - x mod M - q * M) as [q Eq].
    { assert (N ^ (k - u + 1) = M * N ^ (t - u)) as E by (unfold M; rewrite <- Z.pow_add_r by lia; f_equal; lia).
      pose proof (pow_pos (t - u) ltac:(lia)). rewrite E, Z.rem_mul_r by lia.
      exists ((x / M) mod N ^ (t - u)). lia. }
    rewrite Eq. intros E. assert (q * M = t - u \/ q * M = u - t) as Eqm by lia.
    assert (q = 0 \/ 1 <= q \/ q <= -1) as D by lia. destruct D as [->|D]; [lia|]. nia.
Qed.

(** The first digits of [x], and all of them. *)
Lemma path_value_prefix k x n :
  0 <= k -> 0 <= x < N ^ k -> 0 <= n <= k ->
  foldl (fun acc e => acc * N + in_off e) 0 (path_entry N k x <$> seqZ 1 n) = x / N ^ (k - n).
Proof.
  intros Hk Hx Hn. replace n with (Z.of_nat (Z.to_nat n)) in * by lia.
  induction (Z.to_nat n) as [|m IH]; [cbn; rewrite Z.sub_0_r; by rewrite Z.div_small|].
  rewrite seqZ_S, fmap_app, foldl_app, IH by lia. cbn -[Z.of_nat Z.pow].
  replace (k - Z.of_nat m) with (k - Z.of_nat (S m) + 1) by lia.
  rewrite pow_step, <- Z.div_div by (try apply Z.pow_nonzero; lia).
  replace (1 + Z.of_nat m) with (Z.of_nat (S m)) by lia.
  pose proof (Z.div_mod (x / N ^ (k - Z.of_nat (S m))) N ltac:(lia)). lia.
Qed.

Lemma path_value k x :
  0 <= k -> 0 <= x < N ^ k ->
  foldl (fun acc e => acc * N + in_off e) 0 (path_entry N k x <$> seqZ 1 k) = x.
Proof. intros Hk Hx. rewrite path_value_prefix, Z.sub_diag, Z.div_1_r by lia. done. Qed.
End Path.

(** ** Runs of consecutive pointers *)

Lemma aref_ok l i : 0 <= i < Z.of_nat (length l) -> exists x, aref l i = Some x.
Proof.
  intros Hi. unfold aref. rewrite (proj2 (Z.ltb_ge _ _)) by lia.
  destruct (lookup_lt_is_Some_2 l (Z.to_nat i)) as [x ->]; [lia|]. by eexists.
Qed.

(** Entries [i] and [i + 1] of an array are sequential. *)
Definition seq_at (ump : ext2mount) (get : Z -> option Z) (i : Z) : Prop :=
  exists a b, get i = Some a /\ get (i + 1) = Some b /\ is_sequential ump a b = true.

Lemma run_forward_ok n ump get bn limit maxrun run :
  (forall i, bn - 1 <= i < limit -> exists a, get i = Some a) -> limit - bn <= Z.of_nat n ->
  exists m, run_forward n ump get bn limit maxrun run = Some (run + m) /\ 0 <= m /\
    (m = 0 \/ (bn + m <= limit /\ run + m <= maxrun)) /\
    (forall i, 0 <= i < m -> seq_at ump get (bn - 1 + i)).
Proof.
  revert bn run. induction n as [|n IH]; intros bn run Hget Hn; cbn [run_forward].
  { exists 0. rewrite Z.add_0_r. split; [done|]. split; [done|]. split; [by left|]. intros; lia. }
  destruct (Z.ltb_spec bn limit) as [Hlt|Hge]; cbn [andb].
  2:{ exists 0. rewrite Z.add_0_r. split; [done|]. split; [done|]. split; [by left|]. intros; lia. }
  destruct (Z.ltb_spec run maxrun) as [Hm|Hm].
  2:{ exists 0. rewrite Z.add_0_r. split; [done|]. split; [done|]. split; [by left|]. intros; lia. }
  destruct (Hget (bn - 1) ltac:(lia)) as [a Ea]. destruct (Hget bn ltac:(lia)) as [b Eb].
  rewrite Ea, Eb. cbn [mbind option_bind]. destruct (is_sequential ump a b) eqn:S.
  - destruct (IH (bn + 1) (run + 1)) as (m & -> & H0 & H1 & H2); [intros; apply Hget; lia|lia|].
    exists (m + 1). split; [f_equal; lia|]. split; [lia|]. split; [right; lia|].
    intros i Hi. destruct (decide (i = 0)) as [->|].
    + exists a, b. rewrite Z.add_0_r. replace (bn - 1 + 1) with bn by lia. done.
    + specialize (H2 (i - 1) ltac:(lia)). by replace (bn + 1 - 1 + (i - 1)) with (bn - 1 + i) in H2 by lia.
  - exists 0. rewrite Z.add_0_r. split; [done|]. split; [done|]. split; [by left|]. intros; lia.
Qed.

Lemma run_backward_ok n ump get bn maxrun run :
  (forall i, 0 <= i <= bn + 1 -> exists a, get i = Some a) -> bn + 1 <= Z.of_nat n ->
  exists m, run_backward n ump get bn maxrun run = Some (run + m) /\ 0 <= m /\
    (m = 0 \/ (m <= bn + 1 /\ run + m <= maxrun)) /\
    (forall i, 0 <= i < m -> seq_at ump get (bn - i)).
Proof.
  revert bn run. induction n as [|n IH]; intros bn run Hget Hn; cbn [run_backward].
  { exists 0. rewrite Z.add_0_r. split; [done|]. split; [done|]. split; [by left|]. intros; lia. }
  destruct (Z.leb_spec 0 bn) as [Hlt|Hge]; cbn [andb].
  2:{ exists 0. rewrite Z.add_0_r. split; [done|]. split; [done|]. split; [by left|]. intros; lia. }
  destruct (Z.ltb_spec run maxrun) as [Hm|Hm].
  2:{ exists 0. rewrite Z.add_0_r. split; [done|]. split; [done|]. split; [by left|]. intros; lia. }
  destruct (Hget bn ltac:(lia)) as [a Ea]. destruct (Hget (bn + 1) ltac:(lia)) as [b Eb].
  rewrite Ea, Eb. cbn [mbind option_bind]. destruct (is_sequential ump a b) eqn:S.
  - destruct (IH (bn - 1) (run + 1)) as (m & -> & H0 & H1 & H2); [intros; apply Hget; lia|lia|].
    exists (m + 1). split; [f_equal; lia|]. split; [lia|]. split; [right; lia|].
    intros i Hi. destruct (decide (i = 0)) as [->|].
    + exists a, b. by rewrite Z.sub_0_r.
    + specialize (H2 (i - 1) ltac:(lia)). by replace (bn - 1 - (i - 1)) with (bn - i) in H2 by lia.
  - exists 0. rewrite Z.add_0_r. split; [done|]. split; [done|]. split; [by left|]. intros; lia.
Qed.

(** The runs around an index lie inside the array and are sequential. *)
Lemma runs_ok ump l bn maxrun wb :
  0 <= bn < Z.of_nat (length l) ->
  exists runp runb, runs ump l bn (Z.of_nat (length l)) maxrun wb = Some (runp, runb) /\
    0 <= runp <= Z.max 0 maxrun /\ 0 <= runb <= Z.max 0 maxrun /\
    bn + runp < Z.of_nat (length l) /\ runb <= bn /\
    (forall i, - runb <= i < runp -> seq_at ump (aref l) (bn + i)).
Proof.
  intros Hb. unfold runs.
  destruct (run_forward_ok (Z.to_nat (Z.of_nat (length l))) ump (aref l) (bn + 1) (Z.of_nat (length l))
    maxrun 0) as (m & -> & Hm & Hlim & Hseq); [intros; apply aref_ok; lia|lia|].
  cbn [mbind option_bind]. rewrite Z.add_0_l in *.
  assert (exists m', (if wb && (0 <? bn) then run_backward (Z.to_nat (Z.of_nat (length l))) ump (aref l)
      (bn - 1) maxrun 0 else Some 0) = Some m' /\ 0 <= m' /\ (m' = 0 \/ m' <= bn /\ m' <= maxrun) /\
      (forall i, 0 <= i < m' -> seq_at ump (aref l) (bn - 1 - i))) as (m' & -> & Hm' & Hlim' & Hseq').
  { destruct (wb && (0 <? bn)) eqn:E.
    - destruct (run_backward_ok (Z.to_nat (Z.of_nat (length l))) ump (aref l) (bn - 1) maxrun 0)
        as (m' & -> & H1 & H2 & H3); [intros; apply aref_ok; lia|lia|].
      exists m'. rewrite Z.add_0_l in *. split; [done|]. split; [done|]. split; [lia|done].
    - exists 0. split; [done|]. split; [done|]. split; [by left|]. intros; lia. }
  exists m, m'. split; [done|]. split_and!; try lia. intros i Hi. destruct (decide (0 <= i)).
  - specialize (Hseq i ltac:(lia)). by replace (bn + 1 - 1 + i) with (bn + i) in Hseq by lia.
  - specialize (Hseq' (- i - 1) ltac:(lia)). by replace (bn - 1 - (- i - 1)) with (bn + i) in Hseq' by lia.
Qed.

(** ** The mapping a file's block pointers define *)

Section Mapping.
Context (ump : ext2mount) (disk : Z -> option (list Z)) (ip : inode).
Abbreviation N := (um_nindir ump).

(** From a block pointer to the pointer at offset [off] of the indirect block it
    points to; below a hole there are only holes. *)
Definition ptr_step (p : option Z) (off : Z) : option Z :=
  p ← p;
  if i32 p =? 0 then Some 0 else bap ← disk (blkptrtodb ump (i32 p)); aref bap off.

Definition path_ptr (path : list indir) : option Z :=
  match path with
  | [] => None
  | a :: ap => foldl ptr_step (aref (i_ib ip) (in_off a)) (in_off <$> ap)
  end.

(** The block pointer of file block [bn]: [None] when a block of its path cannot be
    read or the number is too large. *)
Definition file_ptr (bn : Z) : option Z :=
  match ext2_getlbns N bn with
  | None => None
  | Some [] => aref (i_db ip) bn
  | Some path => path_ptr path
  end.

(** A cached indirect block has the contents the device has for it. *)
Definition cache_ok (c : bcache) : Prop :=
  forall lbn d, c !! lbn = Some d ->
    exists path p, ext2_getlbns N lbn = Some path /\ path_ptr path = Some p /\ i32 p <> 0 /\
      disk (blkptrtodb ump (i32 p)) = Some d.

(** Device address of a block pointer, [-1] for a hole. *)
Definition dev_addr (p : Z) : Z :=
  let b := blkptrtodb ump (i32 p) in if b =? 0 then -1 else b.

Hypothesis (HN : 4 <= N <= 2 ^ 14).
Hypothesis (Hdisk : forall a d, disk a = Some d -> Z.of_nat (length d) = N).
Hypothesis (Hdb : length (i_db ip) = 12%nat /\ Forall (is_sint 32) (i_db ip)).
Hypothesis (Hib : length (i_ib ip) = 3%nat /\ Forall (is_sint 32) (i_ib ip)).

Lemma path_ptr_app pre e : pre <> [] -> path_ptr (pre ++ [e]) = ptr_step (path_ptr pre) (in_off e).
Proof. destruct pre as [|a pre]; [done|]. intros _. cbn. by rewrite fmap_app, foldl_app. Qed.

Lemma path_ptr_hole pre rest :
  pre <> [] -> path_ptr pre = Some 0 -> path_ptr (pre ++ rest) = Some 0.
Proof.
  intros Hpre H0. revert pre Hpre H0. induction rest as [|e rest IH]; intros pre Hpre H0.
  - by rewrite app_nil_r.
  - rewrite cons_middle, app_assoc. apply IH; [by destruct pre|]. by rewrite path_ptr_app, H0.
Qed.

Lemma path_ptr_prefix pre rest p :
  pre <> [] -> path_ptr (pre ++ rest) = Some p -> exists q, path_ptr pre = Some q.
Proof.
  intros Hpre. revert p. induction rest as [|e rest IH] using rev_ind; intros p H.
  - rewrite app_nil_r in H. by exists p.
  - rewrite app_assoc, path_ptr_app in H by (by destruct pre).
    destruct (path_ptr (pre ++ rest)) as [q|] eqn:E; [by apply (IH q)|done].
Qed.

(** One buffer access of the loop. *)
Lemma getblk_ok pre lbn p c q off :
  cache_ok c -> ext2_getlbns N lbn = Some pre -> path_ptr pre = Some p -> i32 p <> 0 ->
  ptr_step (Some p) off = Some q ->
  exists bap c', getblk ump disk lbn (i32 p) c = (inl bap, c') /\ cache_ok c' /\
    disk (blkptrtodb ump (i32 p)) = Some bap /\ aref bap off = Some q.
Proof.
  intros C Hl Hp H0 Hs. cbn in Hs. rewrite (proj2 (Z.eqb_neq _ _) H0) in Hs.
  destruct (disk (blkptrtodb ump (i32 p))) as [bap|] eqn:Ed; [|done]. cbn in Hs.
  unfold getblk. destruct (c !! lbn) as [d|] eqn:Ec.
  - exists d, c. destruct (C lbn d Ec) as (path & p' & Hl' & Hp' & _ & Hd').
    assert (path = pre) as -> by congruence. assert (p' = p) as -> by congruence.
    assert (d = bap) as -> by congruence. done.
  - rewrite (proj2 (Z.eqb_neq _ _) H0), Ed. exists bap, (<[lbn := bap]> c). split; [done|].
    split; [|done]. intros lbn' d. destruct (decide (lbn' = lbn)) as [->|Hne].
    + rewrite lookup_insert_eq. intros [= <-]. by exists pre, p.
    + rewrite lookup_insert_ne by done. apply C.
Qed.

(** The loop follows the path. *)
Lemma walk_loop_ok rest pre bn maxrun wr wb c p q :
  (forall i e, rest !! i = Some e ->
     in_lbn e <> bn /\ ext2_getlbns N (in_lbn e) = Some (pre ++ take i rest) /\ 0 <= in_off e < N) ->
  pre <> [] -> cache_ok c -> path_ptr pre = Some p -> path_ptr (pre ++ rest) = Some q ->
  exists runp runb c', walk_loop ump disk rest bn (i32 p) maxrun wr wb c = Some (inl (i32 q, runp, runb), c') /\
    cache_ok c' /\ 0 <= runp <= Z.max 0 maxrun /\ 0 <= runb <= Z.max 0 maxrun /\
    (runp = 0 /\ runb = 0 \/
     exists init l pl bap, rest = init ++ [l] /\ path_ptr (pre ++ init) = Some pl /\ i32 pl <> 0 /\
       disk (blkptrtodb ump (i32 pl)) = Some bap /\ in_off l + runp < N /\ runb <= in_off l /\
       (forall i, - runb <= i < runp -> seq_at ump (aref bap) (in_off l + i))).
Proof.
  revert pre p c. induction rest as [|e rest IH]; intros pre p c Hr Hpre C Hp Hq; cbn [walk_loop].
  { rewrite app_nil_r in Hq. assert (p = q) as -> by congruence.
    exists 0, 0, c. split; [done|]. split; [done|]. split; [lia|]. split; [lia|by left]. }
  destruct (Hr O e eq_refl) as (Hne & Hlbn & Hoff). rewrite app_nil_r in Hlbn.
  rewrite (proj2 (Z.eqb_neq _ _) Hne). rewrite cons_middle, app_assoc in Hq.
  destruct (path_ptr_prefix (pre ++ [e]) rest q) as [p1 Hp1]; [by destruct pre|done|].
  pose proof Hp1 as Hs. rewrite path_ptr_app, Hp in Hs by done.
  destruct (decide (i32 p = 0)) as [H0|H0].
  - assert (p1 = 0) as -> by (cbn in Hs; rewrite H0 in Hs; cbn in Hs; congruence).
    rewrite (path_ptr_hole (pre ++ [e]) rest) in Hq by (done || by destruct pre).
    injection Hq as <-. unfold getblk. destruct (c !! in_lbn e) as [d|] eqn:Ec.
    { exfalso. destruct (C _ _ Ec) as (path & p' & Hl' & Hp' & Hne' & _).
      assert (path = pre) as -> by congruence. assert (p' = p) as -> by congruence. done. }
    rewrite H0. cbn. exists 0, 0, c. split; [done|]. split; [done|]. split; [lia|]. split; [lia|by left].
  - destruct (getblk_ok pre (in_lbn e) p c p1 (in_off e) C Hlbn Hp H0 Hs)
      as (bap & c' & Eg & C' & Ed & Ea). rewrite Eg, Ea. cbn [mbind option_bind].
    destruct rest as [|e2 rest].
    + rewrite app_nil_r in Hq. assert (p1 = q) as -> by congruence.
      destruct (negb (i32 q =? 0) && wr).
      * destruct (runs_ok ump bap (in_off e) maxrun wb) as (runp & runb & Er & Hb1 & Hb2 & Hb3 & Hb4 & Hseq);
          [by rewrite (Hdisk _ _ Ed)|]. rewrite (Hdisk _ _ Ed) in Er, Hb3. rewrite Er. cbn.
        exists runp, runb, c'. split_and!; try done; try lia. right. exists [], e, p, bap.
        rewrite app_nil_r. done.
      * exists 0, 0, c'. split; [done|]. split; [done|]. split; [lia|]. split; [lia|by left].
    + destruct (IH (pre ++ [e]) p1 c') as (runp & runb & c2 & Ew & C2 & B1 & B2 & Hrun);
        [|by destruct pre|done|done|done|].
      * intros i e' Hi. specialize (Hr (S i) e' Hi). cbn [take] in Hr.
        by rewrite cons_middle, app_assoc in Hr.
      * exists runp, runb, c2. split; [done|]. split; [done|]. split; [done|]. split; [done|].
        destruct Hrun as [?|(init & l & pl & b & E & Hpl & Hrest)]; [by left|right].
        exists (e :: init), l, pl, b. rewrite E. split; [done|].
        by rewrite cons_middle, app_assoc.
Qed.

(** The pointers around a block in its last-level indirect block. *)
Lemma file_ptr_shift k x i init l pl bap :
  1 <= k <= 3 -> 0 <= x < N ^ k -> base N k + x < 2 ^ 31 - 8 -> 0 <= x + i < N ^ k ->
  base N k + x + i < 2 ^ 31 - 8 ->
  path_spec N k x = init ++ [l] -> init <> [] -> path_ptr init = Some pl -> i32 pl <> 0 ->
  disk (blkptrtodb ump (i32 pl)) = Some bap -> 0 <= in_off l + i < N ->
  file_ptr (base N k + x + i) = aref bap (in_off l + i).
Proof.
  intros Hk Hx Hb Hxi Hbi Ep Hne Hpl H0 Hd Hoff.
  assert (in_off l = x mod N) as El.
  { destruct (path_spec_shift N HN k x 0) as (lbn & E & _); [lia|rewrite Z.add_0_r; apply Z.mod_pos_bound; lia|].
    rewrite E in Ep. apply app_inj_tail in Ep as [_ <-]. done. }
  rewrite El in *. destruct (path_spec_shift N HN k x i) as (lbn & E1 & E2); [lia|lia|].
  rewrite E1 in Ep. apply app_inj_tail in Ep as [<- _].
  unfold file_ptr. rewrite <- Z.add_assoc, (getlbns_data N HN k (x + i)) by lia. rewrite E2.
  match goal with |- match ?p with _ => _ end = _ => change (path_ptr p = aref bap (x mod N + i)) end.
  rewrite path_ptr_app, Hpl by done. cbn. by rewrite (proj2 (Z.eqb_neq _ _) H0), Hd.
Qed.

Lemma sint_ptr l i p : Forall (is_sint 32) l -> aref l i = Some p -> i32 p = p.
Proof.
  intros F H. unfold aref in H. destruct (i <? 0); [done|].
  apply sintw_small; [lia|]. by apply (Forall_lookup_1 _ _ _ _ F H).
Qed.

(** The result of [ext2_bmaparray] for a readable block. *)
Lemma bmaparray_ok bn maxrun wr wb c p :
  0 <= bn < base N 4 -> bn + N < 2 ^ 31 - 8 -> cache_ok c -> file_ptr bn = Some p ->
  exists runp runb c', ext2_bmaparray ump disk ip bn maxrun wr wb c = Some (Mapped (dev_addr p) runp runb, c') /\
    cache_ok c' /\ 0 <= runp <= Z.max 0 maxrun /\ 0 <= runb <= Z.max 0 maxrun /\
    (forall i, - runb <= i < runp -> exists a b, file_ptr (bn + i) = Some a /\
       file_ptr (bn + i + 1) = Some b /\ is_sequential ump a b = true).
Proof.
  intros Hb Hb31 C Hp. unfold ext2_bmaparray.
  assert (forall c', cache_ok c' -> exists runp runb c2, Some (Mapped (dev_addr p) 0 0, c') =
     Some (Mapped (dev_addr p) runp runb, c2) /\ cache_ok c2 /\ 0 <= runp <= Z.max 0 maxrun /\
     0 <= runb <= Z.max 0 maxrun /\ (forall i, - runb <= i < runp -> exists a b, file_ptr (bn + i) = Some a /\
       file_ptr (bn + i + 1) = Some b /\ is_sequential ump a b = true)) as Hnorun.
  { intros c' C'. exists 0, 0, c'. split; [done|]. split; [done|]. split; [lia|]. split; [lia|]. intros; lia. }
  destruct (decide (bn < NDADDR)) as [Hd|Hd].
  - assert (forall n, 0 <= n < NDADDR -> ext2_getlbns N n = Some []) as Hdir.
    { intros n Hn. unfold ext2_getlbns. rewrite (proj2 (Z.ltb_ge n 0)) by lia. by rewrite (proj2 (Z.ltb_lt n _)) by lia. }
    assert (forall n, 0 <= n < NDADDR -> file_ptr n = aref (i_db ip) n) as Hfp.
    { intros n Hn. unfold file_ptr. by rewrite Hdir. }
    rewrite Hdir, <- Hfp, Hp by lia. cbn [mbind option_bind].
    assert (i32 p = p) as Ep by (rewrite Hfp in Hp by lia; eapply sint_ptr; [apply Hdb|done]).
    unfold dev_addr in Hnorun |- *. rewrite Ep in *. cbv zeta in *.
    destruct (Z.eqb_spec (blkptrtodb ump p) 0); [by apply Hnorun|]. destruct wr; [|by apply Hnorun].
    assert (NDADDR = Z.of_nat (length (i_db ip))) as En by (rewrite (proj1 Hdb); done). unfold NDADDR in *.
    rewrite En. destruct (runs_ok ump (i_db ip) bn maxrun wb) as (runp & runb & -> & B1 & B2 & B3 & B4 & Hseq);
      [lia|]. cbn. exists runp, runb, c. split_and!; try done; try lia.
    intros i Hi. rewrite !Hfp by lia. by apply Hseq.
  - destruct (bn_cases N HN bn) as [|(k & x & Hk & Hx & ->)]; [lia|lia|].
    unfold file_ptr in Hp. rewrite (getlbns_data N HN k x) in Hp |- * by lia.
    unfold path_spec in Hp |- *. set (rest := path_entry N k x <$> seqZ 1 k) in *.
    assert (path_ptr ([path_head N k] ++ rest) = Some p) as Hp' by done.
    destruct (path_ptr_prefix [path_head N k] rest p) as [p0 Hp0]; [done|done|].
    cbn in Hp0. cbn [in_off path_head]. cbn [in_off path_head] in Hp0. rewrite Hp0. cbn [mbind option_bind].
    rewrite <- (sint_ptr (i_ib ip) (k - 1) p0) by (apply Hib || done).
    destruct (walk_loop_ok rest [path_head N k] (base N k + x) maxrun wr wb c p0 p)
      as (runp & runb & c' & -> & C' & B1 & B2 & Hrun); [|done|done|done|done|].
    + intros i e He. unfold rest in He. rewrite list_lookup_fmap in He.
      destruct (seqZ 1 k !! i) as [u|] eqn:Eu; [|done]. injection He as <-.
      apply lookup_seqZ in Eu as [-> Hi]. split_and!.
      * unfold path_entry. cbn [in_lbn].
        pose proof (Z.mod_le x (N ^ (k - (1 + Z.of_nat i) + 1)) ltac:(lia) ltac:(apply (pow_pos N HN); lia)).
        destruct (base_range N HN k Hk) as [Hbase _]. unfold NDADDR in *. lia.
      * rewrite (getlbns_meta N HN k x) by lia.
        replace (Z.to_nat (1 + Z.of_nat i)) with (S i) by lia. done.
      * cbn [in_off path_entry]. apply Z.mod_pos_bound. lia.
      * cbn [in_off path_entry]. apply Z.mod_pos_bound. lia.
    + exists runp, runb, c'. cbn [mbind option_bind]. split; [done|]. split; [done|]. split; [done|]. split; [done|].
      intros i Hi. destruct Hrun as [[-> ->]|(init & l & pl & bap & E & Hpl & Hnz & Hdk & Hl1 & Hl2 & Hseq)]; [lia|].
      assert (path_spec N k x = ([path_head N k] ++ init) ++ [l]) as Es.
      { unfold path_spec. fold rest. rewrite E. done. }
      assert (in_off l = x mod N) as El.
      { destruct (path_spec_shift N HN k x 0) as (lbn & E1 & _);
          [lia|rewrite Z.add_0_r; apply Z.mod_pos_bound; lia|].
        rewrite E1 in Es. apply app_inj_tail in Es as [_ <-]. done. }
      rewrite El in Hl1, Hl2, Hseq. pose proof (Z.mod_pos_bound x N ltac:(lia)).
      assert (forall j, - runb <= j <= runp -> file_ptr (base N k + x + j) = aref bap (x mod N + j)) as Hfp.
      { intros j Hj. rewrite <- El. apply (file_ptr_shift k x j ([path_head N k] ++ init) l pl bap); try done; try lia.
        pose proof (Z.div_mod x N ltac:(lia)). pose proof (Z.div_pos x N ltac:(lia) ltac:(lia)).
        assert (N ^ k = N * N ^ (k - 1)) as Ek by (rewrite <- Z.pow_succ_r by lia; f_equal; lia).
        assert (x / N < N ^ (k - 1)) by (apply Z.div_lt_upper_bound; lia). nia. }
      rewrite <- (Z.add_assoc _ i 1), !Hfp by lia. rewrite Z.add_assoc. by apply Hseq.
Qed.
(** The address of an indirect block, as the buffer layer asks for it. *)
Lemma bmaparray_meta k x t c p :
  1 <= k <= 3 -> 0 <= x < N ^ k -> base N k + x < 2 ^ 31 - 8 -> 1 <= t <= k -> cache_ok c ->
  path_ptr (take (Z.to_nat t) (path_spec N k x)) = Some p ->
  exists c', ext2_bmaparray ump disk ip (in_lbn (path_entry N k x t)) 0 false false c
    = Some (Mapped (dev_addr p) 0 0, c') /\ cache_ok c'.
Proof.
  intros Hk Hx Hb Ht C Hp. unfold ext2_bmaparray. rewrite (getlbns_meta N HN k x t) by done.
  unfold path_spec in *. replace (Z.to_nat t) with (S (Z.to_nat (t - 1))) in * by lia. cbn [take] in *.
  rewrite <- fmap_take, take_seqZ in * by lia. set (rest := path_entry N k x <$> seqZ 1 (t - 1)) in *.
  destruct (path_ptr_prefix [path_head N k] rest p) as [p0 Hp0]; [done|done|].
  cbn in Hp0. cbn [in_off path_head] in *. rewrite Hp0. cbn [mbind option_bind].
  rewrite <- (sint_ptr (i_ib ip) (k - 1) p0) by (apply Hib || done).
  destruct (walk_loop_ok rest [path_head N k] (in_lbn (path_entry N k x t)) 0 false false c p0 p)
    as (runp & runb & c' & -> & C' & B1 & B2 & _); [|done|done|done|done|].
  - intros i e He. unfold rest in He. rewrite list_lookup_fmap in He.
    destruct (seqZ 1 (t - 1) !! i) as [u|] eqn:Eu; [|done]. injection He as <-.
    apply lookup_seqZ in Eu as [-> Hi].
    assert (ext2_getlbns N (in_lbn (path_entry N k x (1 + Z.of_nat i)))
            = Some (path_head N k :: take i (path_entry N k x <$> seqZ 1 k))) as Eg.
    { rewrite (getlbns_meta N HN k x) by lia. by replace (Z.to_nat (1 + Z.of_nat i)) with (S i) by lia. }
    split_and!.
    + intros E. rewrite E, (getlbns_meta N HN k x) in Eg by lia. injection Eg as Eg. apply (f_equal length) in Eg.
      unfold path_spec in Eg. cbn [length] in Eg. rewrite !length_take in Eg. cbn [length] in Eg.
      rewrite length_fmap, length_seqZ in Eg. lia.
    + rewrite Eg. cbn [app]. do 2 f_equal. unfold rest.
      rewrite <- (take_seqZ 1 (t - 1) k), fmap_take, take_take by lia. f_equal. lia.
    + cbn [in_off path_entry]. apply Z.mod_pos_bound. lia.
    + cbn [in_off path_entry]. apply Z.mod_pos_bound. lia.
  - exists c'. cbn [mbind option_bind]. assert (runp = 0) as -> by lia. by assert (runb = 0) as -> by lia.
Qed.
End Mapping.

(** ** Properties *)

(** [ext2_getlbns] on a data block: direct blocks have an empty path; a block
    within triple indirection at level [k] has a path of [k + 1] entries, whose
    offsets, the first excepted, are the base-[nindir] digits of its distance from
    the first block of the level, so that the path determines the block; other
    numbers give EFBIG. *)
Theorem getlbns_digits N bn :
  4 <= N <= 2 ^ 14 -> 0 <= bn < 2 ^ 31 - 8 ->
  match ext2_getlbns N bn with
  | None => base N 4 <= bn
  | Some [] => bn < NDADDR
  | Some (a :: ap) =>
      let k := Z.of_nat (length ap) in
      1 <= k <= 3 /\ in_off a = k - 1 /\ Forall (fun e => 0 <= in_off e < N /\ in_lbn e < 0) ap /\
      bn = base N k + foldl (fun acc e => acc * N + in_off e) 0 ap
  end.
Proof.
  intros HN Hb. destruct (decide (bn < NDADDR)) as [Hd|Hd].
  { unfold ext2_getlbns. rewrite (proj2 (Z.ltb_ge bn 0)) by lia. by rewrite (proj2 (Z.ltb_lt bn _)) by lia. }
  destruct (bn_cases N HN bn) as [H4|(k & x & Hk & Hx & ->)]; [lia|by rewrite getlbns_efbig by lia|].
  rewrite (getlbns_data N HN k x) by lia. unfold path_spec. rewrite length_fmap, length_seqZ, Z2Nat.id by lia.
  destruct (base_range N HN k Hk) as [Hbase _]. unfold NDADDR in *.
  split; [done|]. split; [done|]. split.
  - apply Forall_fmap, Forall_forall. intros u Hu. apply elem_of_seqZ in Hu. cbn.
    pose proof (Z.mod_le x (N ^ (k - u + 1)) ltac:(lia) ltac:(apply (pow_pos N HN); lia)).
    split; [apply Z.mod_pos_bound; lia|lia].
  - f_equal. by rewrite (path_value N HN) by lia.
Qed.

Lemma getlbns_digits_witness :
  exists a ap, ext2_getlbns 256 70000 = Some (a :: ap) /\
    70000 = base 256 (Z.of_nat (length ap)) + foldl (fun acc e => acc * 256 + in_off e) 0 ap.
Proof.
  pose proof (getlbns_digits 256 70000 ltac:(lia) ltac:(lia)) as H.
  destruct (ext2_getlbns 256 70000) as [[|a ap]|] eqn:E; [vm_compute in E; discriminate| |vm_compute in E; discriminate].
  exists a, ap. split; [reflexivity|]. apply H.
Defined.

(** The logical number of each indirect block on the path of a data block leads to
    that indirect block: [ext2_getlbns] of entry [t] returns the first [t] entries of
    the path. *)
Theorem getlbns_indirect_prefix N bn path t e :
  4 <= N <= 2 ^ 14 -> 0 <= bn < 2 ^ 31 - 8 -> ext2_getlbns N bn = Some path ->
  path !! S t = Some e -> ext2_getlbns N (in_lbn e) = Some (take (S t) path).
Proof.
  intros HN Hb E He. destruct (decide (bn < NDADDR)) as [Hd|Hd].
  { unfold ext2_getlbns in E. rewrite (proj2 (Z.ltb_ge bn 0)), (proj2 (Z.ltb_lt bn _)) in E by lia.
    by simplify_eq. }
  destruct (bn_cases N HN bn) as [H4|(k & x & Hk & Hx & ->)];
    [lia|by rewrite getlbns_efbig in E by lia|].
  rewrite (getlbns_data N HN k x) in E by lia. injection E as <-.
  change ((path_entry N k x <$> seqZ 1 k) !! t = Some e) in He. rewrite list_lookup_fmap in He. destruct (seqZ 1 k !! t) as [u|] eqn:Eu; [|done]. injection He as <-.
  apply lookup_seqZ in Eu as [-> Ht]. rewrite (getlbns_meta N HN k x) by lia. do 2 f_equal. lia.
Qed.

Lemma getlbns_indirect_prefix_witness :
  exists path e, ext2_getlbns 256 70000 = Some path /\ path !! 2%nat = Some e /\
    ext2_getlbns 256 (in_lbn e) = Some (take 2 path).
Proof.
  destruct (ext2_getlbns 256 70000) as [path|] eqn:E; [|vm_compute in E; discriminate].
  destruct (path !! 2%nat) as [e|] eqn:He; [|vm_compute in E; injection E as <-; discriminate].
  exists path, e. split; [reflexivity|]. split; [exact He|].
  exact (getlbns_indirect_prefix 256 70000 path 1 e ltac:(lia) ltac:(lia) E He).
Defined.

(** C24: When every block on the path of file block [bn] can be read, [ext2_bmaparray]
    returns the device address of the file's pointer for [bn] ([-1] for a hole),
    leaves the cached indirect blocks consistent with the device, and reports runs
    that are real: each of the [runb] blocks before and the [runp] blocks after [bn]
    has a pointer sequential with its neighbour's, and neither exceeds [maxrun]. *)
Theorem bmaparray_maps ump disk ip bn maxrun want_runp want_runb c p :
  4 <= um_nindir ump <= 2 ^ 14 -> (forall a d, disk a = Some d -> Z.of_nat (length d) = um_nindir ump) ->
  length (i_db ip) = 12%nat /\ Forall (is_sint 32) (i_db ip) ->
  length (i_ib ip) = 3%nat /\ Forall (is_sint 32) (i_ib ip) ->
  0 <= bn < base (um_nindir ump) 4 -> bn + um_nindir ump < 2 ^ 31 - 8 ->
  cache_ok ump disk ip c -> file_ptr ump disk ip bn = Some p ->
  exists runp runb c', ext2_bmaparray ump disk ip bn maxrun want_runp want_runb c
      = Some (Mapped (dev_addr ump p) runp runb, c') /\
    cache_ok ump disk ip c' /\ 0 <= runp <= Z.max 0 maxrun /\ 0 <= runb <= Z.max 0 maxrun /\
    (forall i, - runb <= i < runp -> exists a b, file_ptr ump disk ip (bn + i) = Some a /\
       file_ptr ump disk ip (bn + i + 1) = Some b /\ is_sequential ump a b = true).
Proof. intros HN Hdisk Hdb Hib Hb Hb31 C Hp. by apply bmaparray_ok. Qed.

(** A file with one single-indirect block, at device address 100. *)
Definition example_mount : ext2mount := mkMount 256 1 1.
Definition example_disk (a : Z) : option (list Z) :=
  if a =? 100 then Some ([7; 8; 9; 0] ++ replicate 252 0) else None.
Definition example_inode : inode :=
  mkInode 0x81a4 1 (20 * 1024) 0 0 0 (replicate 12 5) [50; 0; 0] 0 0 0 0 0 0.

Lemma bmaparray_maps_witness :
  exists runp runb c', ext2_bmaparray example_mount example_disk example_inode 13 7 true true ∅
      = Some (Mapped (dev_addr example_mount 8) runp runb, c') /\
    cache_ok example_mount example_disk example_inode c' /\
    0 <= runp <= Z.max 0 7 /\ 0 <= runb <= Z.max 0 7 /\
    (forall i, - runb <= i < runp -> exists a b, file_ptr example_mount example_disk example_inode (13 + i) = Some a /\
       file_ptr example_mount example_disk example_inode (13 + i + 1) = Some b /\
       is_sequential example_mount a b = true).
Proof.
  apply (bmaparray_maps example_mount example_disk example_inode 13 7 true true ∅ 8); try (cbn; lia).
  - intros a d. unfold example_disk. destruct (a =? 100); [intros [= <-]; reflexivity|discriminate].
  - split; [reflexivity|]. repeat constructor; unfold is_sint; lia.
  - split; [reflexivity|]. repeat constructor; unfold is_sint; lia.
  - vm_compute. split; [discriminate|reflexivity].
  - intros lbn d H. rewrite lookup_empty in H. discriminate.
  - vm_compute. reflexivity.
Defined.
