(* ===== verification/Blktree.v ===== *)
(** * The tree of blocks of a file

    The block pointers of a file as a tree: a pointer is reached by its index in [i_db],
    or by its index in [i_ib] and the offsets in the indirect blocks that lead to it.
    [tree_ok] says that the tree is a tree; the lemmas [link_root] and [link_entry] say
    that storing one pointer to a cleared block changes the tree at one place. *)

From S2P Require Import Prelude Inode Bmap.

(** ** Pointers of a file *)

Definition set_db (i v : Z) (x : inode) : inode :=
  mkInode (i_mode x) (i_nlink x) (i_size x) (i_atime x) (i_mtime x) (i_ctime x)
    (<[Z.to_nat i := v]> (i_db x)) (i_ib x)
    (i_flags x) (i_blocks x) (i_gen x) (i_uid x) (i_gid x) (i_e2flags x).
Definition set_ib (i v : Z) (x : inode) : inode :=
  mkInode (i_mode x) (i_nlink x) (i_size x) (i_atime x) (i_mtime x) (i_ctime x)
    (i_db x) (<[Z.to_nat i := v]> (i_ib x))
    (i_flags x) (i_blocks x) (i_gen x) (i_uid x) (i_gid x) (i_e2flags x).

(** Where a pointer is stored. *)
Inductive slot := Direct (i : Z) | Trail (t : list Z).

#[export] Instance slot_eq_dec : EqDecision slot.
Proof. solve_decision. Defined.

Definition valid (N : Z) (q : slot) : Prop :=
  match q with
  | Direct i => 0 <= i < NDADDR
  | Trail [] => False
  | Trail (a :: ap) => 0 <= a < NIADDR /\ Z.of_nat (length ap) <= a + 1 /\ Forall (fun o => 0 <= o < N) ap
  end.

(** The slot holds a pointer to an indirect block. *)
Definition indirect (q : slot) : Prop :=
  match q with Trail (a :: ap) => Z.of_nat (length ap) <= a | _ => False end.

#[export] Instance indirect_dec q : Decision (indirect q).
Proof. destruct q as [|[|]]; cbn; apply _. Defined.

Lemma valid_prefix N t o : valid N (Trail (t ++ [o])) -> t <> [] -> valid N (Trail t) /\ indirect (Trail t) /\ 0 <= o < N.
Proof.
  destruct t as [|a ap]; [done|]. cbn. rewrite length_app, Forall_app, Forall_singleton. cbn. intros ? _.
  split_and!; try tauto; try lia.
Qed.

Lemma valid_snoc N t o : valid N (Trail t) -> indirect (Trail t) -> 0 <= o < N -> valid N (Trail (t ++ [o])).
Proof.
  destruct t as [|a ap]; [done|]. cbn. rewrite length_app, Forall_app, Forall_singleton. cbn. intros ???.
  split_and!; try tauto; try lia.
Qed.

#[export] Instance slot_countable : Countable slot.
Proof.
  refine (inj_countable' (fun q => match q with Direct i => inl i | Trail t => inr t end)
            (fun x => match x with inl i => Direct i | inr t => Trail t end) _).
  by intros [].
Defined.

Section Tree.
Context (ump : ext2mount).
Local Abbreviation N := (um_nindir ump).

Section View.
Context (disk : Z -> option (list Z)) (ip : inode).

Definition trail_ptr (t : list Z) : option Z :=
  match t with
  | [] => None
  | a :: ap => foldl (ptr_step ump disk) (aref (i_ib ip) a) ap
  end.

Definition slot_ptr (q : slot) : option Z :=
  match q with Direct i => aref (i_db ip) i | Trail t => trail_ptr t end.

Lemma path_ptr_trail path : path_ptr ump disk ip path = trail_ptr (in_off <$> path).
Proof. by destruct path. Qed.

Lemma trail_snoc t o : t <> [] -> trail_ptr (t ++ [o]) = ptr_step ump disk (trail_ptr t) o.
Proof. destruct t as [|a ap]; [done|]. intros _. cbn. by rewrite foldl_app. Qed.

(** The tree of a file whose blocks, indirect blocks included, are among [U]: every
    slot can be read, and no block is used twice. *)
Record tree_ok (U : gset Z) : Prop := {
  to_db : length (i_db ip) = 12%nat;
  to_ib : length (i_ib ip) = 3%nat;
  to_ptr q : valid N q -> exists p, slot_ptr q = Some p /\ (p = 0 \/ p ∈ U);
  to_inj q1 q2 p : valid N q1 -> valid N q2 -> slot_ptr q1 = Some p -> slot_ptr q2 = Some p -> p <> 0 -> q1 = q2;
}.

(** The file owns block [b]. *)
Definition owns (b : Z) : Prop := b <> 0 /\ exists q, valid N q /\ slot_ptr q = Some b.
End View.

Lemma tree_ok_mono disk ip U U' : U ⊆ U' -> tree_ok disk ip U -> tree_ok disk ip U'.
Proof.
  intros H [T1 T2 T3 T4]. split; try done. intros q Hq. destruct (T3 q Hq) as (p & Hp & [->|Hin]); [by exists 0; auto|].
  exists p. split; [done|right; set_solver].
Qed.

(** ** Changing one pointer *)

(** The tree with block [b] stored at slot [q0]. *)
Definition linked (disk disk' : Z -> option (list Z)) (ip ip' : inode) (q0 : slot) (b : Z) : Prop :=
  forall q, valid N q -> slot_ptr disk' ip' q = if decide (q = q0) then Some b else slot_ptr disk ip q.

Lemma linked_ok disk disk' ip ip' q0 b U :
  tree_ok disk ip U -> linked disk disk' ip ip' q0 b -> b ∉ U -> b <> 0 ->
  length (i_db ip') = 12%nat -> length (i_ib ip') = 3%nat -> tree_ok disk' ip' (U ∪ {[b]}).
Proof.
  intros T L Hb H0 E1 E2. split; [done..| |].
  - intros q Hq. rewrite (L q Hq). destruct (decide (q = q0)); [exists b; set_solver|].
    destruct (to_ptr _ _ _ T q Hq) as (p & Hp & HU). exists p. set_solver.
  - intros q1 q2 p V1 V2. rewrite (L q1 V1), (L q2 V2).
    assert (forall q, valid N q -> slot_ptr disk ip q = Some b -> False) as Hnew.
    { intros q Hq E. destruct (to_ptr _ _ _ T q Hq) as (p' & Hp' & HU). assert (p' = b) as -> by congruence.
      destruct HU; done. }
    destruct (decide (q1 = q0)) as [->|], (decide (q2 = q0)) as [->|]; intros A1 A2 Hne; [done| | |].
    + injection A1 as <-. by destruct (Hnew q2).
    + injection A2 as <-. by destruct (Hnew q1).
    + by eapply (to_inj _ _ _ T).
Qed.

Lemma aref_insert l i j v :
  0 <= i < Z.of_nat (length l) -> 0 <= j ->
  aref (<[Z.to_nat i := v]> l) j = if decide (j = i) then Some v else aref l j.
Proof.
  intros Hi Hj. unfold aref. rewrite (proj2 (Z.ltb_ge j 0)) by lia. destruct (decide (j = i)) as [->|].
  - apply list_lookup_insert_eq. lia.
  - apply list_lookup_insert_ne. lia.
Qed.

(** Storing the address of a data block in [i_db]. *)
Lemma link_direct disk ip U i b :
  tree_ok disk ip U -> 0 <= i < NDADDR -> linked disk disk ip (set_db i b ip) (Direct i) b.
Proof.
  intros T Hi [j|t] V; cbn [slot_ptr].
  - cbn in V |- *. rewrite aref_insert by (rewrite ?(to_db _ _ _ T); unfold NDADDR in *; lia).
    repeat destruct (decide _); congruence.
  - by rewrite decide_False by done.
Qed.
(** Below a hole there are only holes. *)
Lemma trail_below disk ip t t' :
  t <> [] -> trail_ptr disk ip t = Some 0 -> trail_ptr disk ip (t ++ t') = Some 0.
Proof.
  intros Ht H0. induction t' as [|o t' IH] using rev_ind; [by rewrite app_nil_r|].
  by rewrite app_assoc, trail_snoc, IH by by destruct t.
Qed.

(** *** Pointers and device addresses

    Block pointers below [B] have distinct device addresses. *)

Context (B : Z) (HB : B <= 2 ^ 31).
Context (Hdev : forall p q, 0 <= p < B -> 0 <= q < B -> blkptrtodb ump p = blkptrtodb ump q -> p = q).

(** All blocks of [U] are file system blocks. *)
Definition blocks_in (U : gset Z) : Prop := forall p, p ∈ U -> 0 <= p < B.

Lemma i32_block p : 0 <= p < B -> i32 p = p.
Proof. intros. apply sintw_small; lia. Qed.

(** Stepping through a pointer of the tree. *)
Lemma ptr_step_block disk p o :
  0 < p < B -> ptr_step ump disk (Some p) o = (d ← disk (blkptrtodb ump p); aref d o).
Proof. intros Hp. cbn. rewrite i32_block by lia. by rewrite (proj2 (Z.eqb_neq p 0)) by lia. Qed.

Lemma block_pos U p : blocks_in U -> p ∈ U -> p <> 0 -> 0 < p < B.
Proof. intros HU Hp Hne. specialize (HU p Hp). lia. Qed.

(** Pointers depend only on the contents of the file's own blocks. *)
Lemma trail_ptr_same disk disk' ip U t :
  blocks_in U -> tree_ok disk ip U ->
  (forall p, p ∈ U -> p <> 0 -> disk' (blkptrtodb ump p) = disk (blkptrtodb ump p)) ->
  valid N (Trail t) -> trail_ptr disk' ip t = trail_ptr disk ip t.
Proof.
  intros HU T Hd. induction t as [|o t IH] using rev_ind; intros V; [done|].
  destruct (decide (t = [])) as [->|Ht]; [done|]. destruct (valid_prefix N t o V Ht) as (V' & _ & _).
  rewrite !trail_snoc, IH by done. destruct (to_ptr _ _ _ T (Trail t) V') as (p & Ep & Hp). cbn [slot_ptr] in Ep.
  rewrite Ep. destruct (decide (p = 0)) as [->|Hne]; [done|]. destruct Hp as [->|Hp]; [done|].
  rewrite !ptr_step_block by by eapply block_pos. by rewrite Hd.
Qed.

Lemma slot_ptr_same disk disk' ip U q :
  blocks_in U -> tree_ok disk ip U ->
  (forall p, p ∈ U -> p <> 0 -> disk' (blkptrtodb ump p) = disk (blkptrtodb ump p)) ->
  valid N q -> slot_ptr disk' ip q = slot_ptr disk ip q.
Proof. destruct q as [i|t]; [done|]. apply trail_ptr_same. Qed.

(** They depend only on the contents of its indirect blocks. *)
Lemma slot_ptr_indirect disk disk' ip U q :
  blocks_in U -> tree_ok disk ip U ->
  (forall t p, valid N (Trail t) -> indirect (Trail t) -> trail_ptr disk ip t = Some p -> p <> 0 ->
     disk' (blkptrtodb ump p) = disk (blkptrtodb ump p)) ->
  valid N q -> slot_ptr disk' ip q = slot_ptr disk ip q.
Proof.
  intros HU T Hd. destruct q as [i|t]; [done|]. induction t as [|o t IH] using rev_ind; intros V; [done|].
  destruct (decide (t = [])) as [->|Ht]; [done|]. destruct (valid_prefix N t o V Ht) as (V' & I & _).
  cbn [slot_ptr] in *. rewrite !trail_snoc, IH by done. destruct (to_ptr _ _ _ T (Trail t) V') as (p & Ep & Hp).
  cbn [slot_ptr] in Ep. rewrite Ep. destruct (decide (p = 0)) as [->|Hne]; [done|]. destruct Hp as [->|Hp]; [done|].
  rewrite !ptr_step_block by by eapply block_pos. by rewrite (Hd t p).
Qed.

(** A cleared indirect block holds only holes. *)
Lemma cleared_step disk b o :
  0 < b < B -> 0 <= o < N -> disk (blkptrtodb ump b) = Some (replicate (Z.to_nat N) 0) ->
  ptr_step ump disk (Some b) o = Some 0.
Proof.
  intros Hb Ho Hd. rewrite ptr_step_block, Hd by done. cbn. unfold aref.
  rewrite (proj2 (Z.ltb_ge o 0)) by lia. apply lookup_replicate_2. lia.
Qed.

(** Storing the address of a cleared block in [i_ib]. *)
Lemma link_root disk disk' ip U a b :
  blocks_in U -> tree_ok disk ip U -> 0 <= a < NIADDR -> aref (i_ib ip) a = Some 0 -> 0 < b < B ->
  (forall p, p ∈ U -> p <> 0 -> disk' (blkptrtodb ump p) = disk (blkptrtodb ump p)) ->
  disk' (blkptrtodb ump b) = Some (replicate (Z.to_nat N) 0) ->
  linked disk disk' ip (set_ib a b ip) (Trail [a]) b.
Proof.
  intros HU T Ha H0 Hb Hd Hz [i|t] V; cbn [slot_ptr].
  { by rewrite decide_False by done. }
  induction t as [|o t IH] using rev_ind; [done|]. destruct (decide (t = [])) as [->|Ht].
  { cbn in V |- *. rewrite aref_insert by (rewrite ?(to_ib _ _ _ T); unfold NIADDR in *; lia).
    repeat destruct (decide _); congruence. }
  destruct (valid_prefix N t o V Ht) as (V' & _ & Ho). rewrite !trail_snoc, IH by done.
  rewrite (decide_False (P := Trail (t ++ [o]) = _)).
  2:{ intros [= E]. destruct t as [|x [|]]; done. }
  destruct (decide (Trail t = Trail [a])) as [[= ->]|Hne].
  - rewrite (cleared_step disk' b o) by done. cbn [trail_ptr]. by rewrite H0.
  - destruct (to_ptr _ _ _ T (Trail t) V') as (p & Ep & Hp). cbn [slot_ptr] in Ep. rewrite Ep.
    destruct (decide (p = 0)) as [->|Hp0]; [done|]. destruct Hp as [->|Hp]; [done|].
    rewrite !ptr_step_block by by eapply block_pos. by rewrite Hd.
Qed.

(** Storing the address of a block in an indirect block; it is cleared when it is an
    indirect block itself. *)
Lemma link_entry disk disk' ip U t o p d b :
  blocks_in U -> tree_ok disk ip U -> valid N (Trail (t ++ [o])) -> t <> [] ->
  trail_ptr disk ip t = Some p -> p <> 0 -> disk (blkptrtodb ump p) = Some d -> Z.of_nat (length d) = N ->
  aref d o = Some 0 -> 0 < b < B ->
  disk' (blkptrtodb ump p) = Some (<[Z.to_nat o := b]> d) ->
  (forall x, x ∈ U -> x <> 0 -> x <> p -> disk' (blkptrtodb ump x) = disk (blkptrtodb ump x)) ->
  (indirect (Trail (t ++ [o])) -> disk' (blkptrtodb ump b) = Some (replicate (Z.to_nat N) 0)) ->
  linked disk disk' ip ip (Trail (t ++ [o])) b.
Proof.
  intros HU T V Ht Hp Hp0 Hd Hlen H0 Hb Hd' Hother Hz [i|u]; cbn [slot_ptr].
  { intros _. by rewrite decide_False by done. }
  destruct (valid_prefix N t o V Ht) as (Vt & _ & Ho).
  destruct (to_ptr _ _ _ T (Trail t) Vt) as (p' & Ep' & HpU). cbn [slot_ptr] in Ep'.
  assert (p' = p) as -> by congruence. destruct HpU as [->|HpU]; [done|].
  assert (trail_ptr disk ip (t ++ [o]) = Some 0) as Ehole.
  { rewrite trail_snoc, Hp, ptr_step_block, Hd by (done || by eapply block_pos). done. }
  induction u as [|x u IH] using rev_ind; intros Vu; [done|]. destruct (decide (u = [])) as [->|Hu].
  { cbn. rewrite decide_False; [done|]. intros [= E]. destruct t as [|? [|]]; done. }
  destruct (valid_prefix N u x Vu Hu) as (V' & Iu & Hx). rewrite !(trail_snoc _ _ u), IH by done.
  destruct (decide (Trail u = Trail (t ++ [o]))) as [[= ->]|Hne].
  { rewrite (cleared_step disk' b x) by (try done; by apply Hz). rewrite Ehole. cbn.
    rewrite decide_False; [done|]. intros [= E]. apply (f_equal length) in E. rewrite !length_app in E. cbn in E. lia. }
  destruct (to_ptr _ _ _ T (Trail u) V') as (q & Eq & Hq). cbn [slot_ptr] in Eq. rewrite Eq.
  destruct (decide (q = 0)) as [->|Hq0].
  { rewrite decide_False; [done|]. intros [= E]. apply app_inj_tail in E as [-> _]. congruence. }
  destruct Hq as [->|Hq]; [done|]. rewrite !ptr_step_block by by eapply block_pos.
  destruct (decide (q = p)) as [->|Hqp].
  - assert (u = t) as ->. { enough (Trail u = Trail t) by congruence. by eapply (to_inj _ _ _ T _ _ p). }
    rewrite Hd', Hd. cbn. rewrite aref_insert by lia.
    destruct (decide (x = o)) as [->|]; [by rewrite decide_True|]. rewrite decide_False; [done|].
    intros [= E]. apply app_inj_tail in E as [_ ?]. done.
  - rewrite Hother by done. rewrite decide_False; [done|]. intros [= E]. apply app_inj_tail in E as [-> _]. congruence.
Qed.

End Tree.

(** ** The slot of a file block *)

Definition slot_of (N bn : Z) : slot :=
  if bn <? NDADDR then Direct bn
  else match ext2_getlbns N bn with Some path => Trail (in_off <$> path) | None => Trail [] end.

(** The blocks of a file whose indirect blocks an [int] can number. *)
Definition file_block (N bn : Z) : Prop := 0 <= bn < base N 4 /\ bn + N < 2 ^ 31 - 8.

Section Slots.
Context (N : Z) (HN : 4 <= N <= 2 ^ 14).

Lemma slot_of_data k x :
  1 <= k <= 3 -> 0 <= x < N ^ k -> base N k + x < 2 ^ 31 - 8 ->
  slot_of N (base N k + x) = Trail (in_off <$> path_spec N k x).
Proof.
  intros Hk Hx Hb. unfold slot_of. destruct (base_range N HN k Hk) as [Hbase _].
  rewrite (proj2 (Z.ltb_ge _ _)) by lia. by rewrite (getlbns_data N HN k x) by lia.
Qed.

Lemma path_offsets_valid k x : 1 <= k <= 3 ->
  valid N (Trail (in_off <$> path_spec N k x)) /\ ~ indirect (Trail (in_off <$> path_spec N k x)).
Proof.
  intros Hk. cbn. rewrite !length_fmap, length_seqZ. unfold NIADDR. split_and!; try lia.
  apply Forall_fmap, Forall_fmap, Forall_forall. intros u _. cbn. apply Z.mod_pos_bound. lia.
Qed.

Lemma slot_of_valid bn : file_block N bn -> valid N (slot_of N bn) /\ ~ indirect (slot_of N bn).
Proof.
  intros [Hb H31]. destruct (decide (bn < NDADDR)) as [Hd|Hd].
  { unfold slot_of. rewrite (proj2 (Z.ltb_lt _ _)) by done. cbn. split; [lia|tauto]. }
  destruct (bn_cases N HN bn) as [|(k & x & Hk & Hx & ->)]; [lia|lia|].
  rewrite slot_of_data by lia. by apply path_offsets_valid.
Qed.

Lemma path_value_offsets l :
  foldl (fun acc e => acc * N + in_off e) 0 l = foldl (fun acc o => acc * N + o) 0 (in_off <$> l).
Proof.
  generalize 0. intros z. revert z. induction l as [|e l IH]; intros z; [done|].
  cbn. by rewrite IH.
Qed.

Lemma slot_of_inj bn bn' : file_block N bn -> file_block N bn' -> slot_of N bn = slot_of N bn' -> bn = bn'.
Proof.
  intros [Hb H31] [Hb' H31']. destruct (decide (bn < NDADDR)) as [Hd|Hd], (decide (bn' < NDADDR)) as [Hd'|Hd'].
  - unfold slot_of. rewrite !(proj2 (Z.ltb_lt _ _)) by done. congruence.
  - destruct (bn_cases N HN bn') as [|(k & x & Hk & Hx & ->)]; [lia|lia|]. rewrite (slot_of_data k x) by lia.
    unfold slot_of. by rewrite (proj2 (Z.ltb_lt bn _)) by done.
  - destruct (bn_cases N HN bn) as [|(k & x & Hk & Hx & ->)]; [lia|lia|]. rewrite (slot_of_data k x) by lia.
    unfold slot_of. by rewrite (proj2 (Z.ltb_lt bn' _)) by done.
  - destruct (bn_cases N HN bn) as [|(k & x & Hk & Hx & ->)]; [lia|lia|].
    destruct (bn_cases N HN bn') as [|(k' & x' & Hk' & Hx' & ->)]; [lia|lia|]. rewrite !slot_of_data by lia.
    unfold path_spec. cbn [fmap list_fmap in_off path_head]. intros [= E1 E2].
    assert (k' = k) as -> by lia. f_equal.
    rewrite <- (path_value N HN k x), <- (path_value N HN k x'), !path_value_offsets by lia.
    f_equal. exact E2.
Qed.

Lemma file_ptr_slot ump disk ip bn :
  um_nindir ump = N -> file_block N bn -> file_ptr ump disk ip bn = slot_ptr ump disk ip (slot_of N bn).
Proof.
  intros HE [Hb H31]. unfold file_ptr. rewrite HE. destruct (decide (bn < NDADDR)) as [Hd|Hd].
  - unfold slot_of. rewrite (proj2 (Z.ltb_lt _ _)) by done. unfold ext2_getlbns.
    rewrite (proj2 (Z.ltb_ge bn 0)) by lia. by rewrite (proj2 (Z.ltb_lt bn _)).
  - destruct (bn_cases N HN bn) as [|(k & x & Hk & Hx & ->)]; [lia|lia|].
    rewrite slot_of_data, (getlbns_data N HN k x) by (done || lia). cbn [slot_ptr].
    rewrite <- path_ptr_trail. done.
Qed.
End Slots.

(** ** What a pointer covers *)

Definition digits (N : Z) (ap : list Z) : Z := foldl (fun acc o => acc * N + o) 0 ap.

(** The levels of blocks below a pointer: 0 for a pointer to a data block. *)
Definition height (t : list Z) : Z :=
  match t with [] => 0 | a :: ap => a + 1 - Z.of_nat (length ap) end.

(** The first file block below a pointer. *)
Definition first_block (N : Z) (q : slot) : Z :=
  match q with
  | Direct i => i
  | Trail [] => 0
  | Trail (a :: ap) => base N (a + 1) + digits N ap * N ^ height (a :: ap)
  end.

(** The logical number of an indirect block. *)
Definition lbn_of (N : Z) (t : list Z) : Z := - (first_block N (Trail t) + height t - 1).

Section Cover.
Context (N : Z) (HN : 4 <= N <= 2 ^ 14).

Lemma digits_snoc ap o : digits N (ap ++ [o]) = digits N ap * N + o.
Proof. unfold digits. by rewrite foldl_app. Qed.

Lemma digits_range ap :
  Forall (fun o => 0 <= o < N) ap -> 0 <= digits N ap < N ^ Z.of_nat (length ap).
Proof.
  induction ap as [|o ap IH] using rev_ind; intros F; [by cbn|].
  apply Forall_app in F as [F Fo]. rewrite Forall_singleton in Fo. specialize (IH F).
  rewrite digits_snoc, length_app. cbn [length]. rewrite Nat.add_1_r, Nat2Z.inj_succ, Z.pow_succ_r by lia.
  revert IH. generalize (N ^ Z.of_nat (length ap)) (digits N ap). intros P d [H1 H2].
  assert (0 <= d * N <= (P - 1) * N) by (split; [apply Z.mul_nonneg_nonneg|apply Z.mul_le_mono_nonneg_r]; lia). lia.
Qed.

Lemma digits_inj ap ap' :
  Forall (fun o => 0 <= o < N) ap -> Forall (fun o => 0 <= o < N) ap' -> length ap = length ap' ->
  digits N ap = digits N ap' -> ap = ap'.
Proof.
  revert ap'. induction ap as [|o ap IH] using rev_ind; intros ap' F F' El E; [by destruct ap'|].
  destruct ap' as [|o' ap' _] using rev_ind; [rewrite length_app in El; cbn in El; lia|].
  apply Forall_app in F as [F Fo], F' as [F' Fo']. rewrite Forall_singleton in Fo, Fo'.
  rewrite !digits_snoc in E. rewrite !length_app in El. cbn in El.
  assert (o = o' /\ digits N ap = digits N ap') as [-> Ed].
  { destruct (Z.div_mod_unique N (digits N ap) (digits N ap') o o'); [lia..|done]. }
  f_equal. apply IH; try done. lia.
Qed.

Lemma height_snoc t o : t <> [] -> height (t ++ [o]) = height t - 1.
Proof. destruct t as [|a ap]; [done|]. intros _. cbn. rewrite length_app. cbn. lia. Qed.

Lemma height_valid t : valid N (Trail t) -> 0 <= height t <= 3 /\ (indirect (Trail t) <-> 1 <= height t).
Proof. destruct t as [|a ap]; [done|]. cbn. unfold NIADDR. lia. Qed.

Lemma first_snoc t o :
  t <> [] -> valid N (Trail (t ++ [o])) ->
  first_block N (Trail (t ++ [o])) = first_block N (Trail t) + o * N ^ (height t - 1).
Proof.
  intros Ht V. destruct (valid_prefix N t o V Ht) as (Vt & It & Ho).
  pose proof (height_valid t Vt) as [Hh [Hi _]]. specialize (Hi It).
  pose proof (height_snoc t o Ht) as Eh. destruct t as [|a ap]; [done|]. cbn [app] in *. cbn [first_block].
  rewrite Eh, digits_snoc. set (h := height (a :: ap)) in *.
  assert (N ^ h = N * N ^ (h - 1)) as Ep by (rewrite <- Z.pow_succ_r by lia; f_equal; lia). lia.
Qed.

(** The blocks below a pointer. *)
Lemma first_range a ap : valid N (Trail (a :: ap)) ->
  base N (a + 1) <= first_block N (Trail (a :: ap)) /\
  first_block N (Trail (a :: ap)) + N ^ height (a :: ap) <= base N (a + 1) + N ^ (a + 1).
Proof.
  intros V. pose proof (height_valid _ V) as [Hh _]. destruct V as (Ha & Hl & F).
  pose proof (digits_range ap F) as Hd. cbn [first_block]. set (h := height (a :: ap)) in *.
  pose proof (pow_pos N HN h ltac:(lia)) as Hp.
  assert (N ^ (a + 1) = N ^ h * N ^ Z.of_nat (length ap)) as Ep.
  { rewrite <- Z.pow_add_r by lia. f_equal. unfold h. cbn. lia. }
  rewrite Ep. nia.
Qed.

Lemma first_nonneg q : valid N q -> 0 <= first_block N q.
Proof.
  destruct q as [i|[|a ap]]; [cbn; lia|done|]. intros V. pose proof (first_range a ap V) as [Hf _].
  destruct V as (Ha & _). unfold NIADDR in *. pose proof (base_range N HN (a + 1) ltac:(lia)). unfold NDADDR in *. lia.
Qed.

Lemma first_slot_of bn : file_block N bn -> first_block N (slot_of N bn) = bn.
Proof.
  intros [Hb H31]. destruct (decide (bn < NDADDR)) as [Hd|Hd].
  { unfold slot_of. by rewrite (proj2 (Z.ltb_lt _ _)). }
  destruct (bn_cases N HN bn) as [|(k & x & Hk & Hx & ->)]; [lia|lia|].
  rewrite (slot_of_data N HN k x) by lia. unfold path_spec. cbn [fmap list_fmap first_block in_off path_head].
  unfold digits. pose proof (path_value N HN k x ltac:(lia) Hx) as E. rewrite path_value_offsets in E. rewrite E.
  cbn [height]. rewrite !length_fmap, length_seqZ. rewrite Z2Nat.id by lia.
  replace (k - 1 + 1) with k by lia. rewrite Z.sub_diag. lia.
Qed.

Lemma base_mono k k' : 1 <= k -> k < k' <= 4 -> base N k + N ^ k <= base N k'.
Proof.
  intros Hk Hk'. destruct (base_range N HN 1 ltac:(lia)) as [_ E1], (base_range N HN 2 ltac:(lia)) as [_ E2],
    (base_range N HN 3 ltac:(lia)) as [_ E3]. change (1 + 1) with 2 in E1. change (2 + 1) with 3 in E2. change (3 + 1) with 4 in E3.
  pose proof (pow_pos N HN 2 ltac:(lia)). pose proof (pow_pos N HN 3 ltac:(lia)).
  assert (k = 1 \/ k = 2 \/ k = 3) as [-> | [-> | ->]] by lia;
    (assert (k' = 2 \/ k' = 3 \/ k' = 4) as [-> | [-> | ->]] by lia); lia.
Qed.

(** What is below a pointer is covered by it. *)
Lemma valid_app t u : t <> [] -> valid N (Trail (t ++ u)) -> valid N (Trail t).
Proof.
  intros Ht. induction u as [|o u IH] using rev_ind; [by rewrite app_nil_r|]. rewrite app_assoc. intros V.
  apply IH. eapply valid_prefix; [done|]. by destruct t.
Qed.

Lemma first_app t u : t <> [] -> valid N (Trail (t ++ u)) ->
  first_block N (Trail t) <= first_block N (Trail (t ++ u)) /\
  first_block N (Trail (t ++ u)) + N ^ height (t ++ u) <= first_block N (Trail t) + N ^ height t.
Proof.
  intros Ht. induction u as [|o u IH] using rev_ind; [rewrite app_nil_r; lia|]. rewrite app_assoc. intros V.
  assert (t ++ u <> []) as Hu by by destruct t.
  destruct (valid_prefix N (t ++ u) o V Hu) as (Vu & Iu & Ho). specialize (IH Vu).
  rewrite first_snoc, height_snoc by done. pose proof (height_valid _ Vu) as [_ [Hh _]]. specialize (Hh Iu).
  set (h := height (t ++ u)) in *. pose proof (pow_pos N HN (h - 1) ltac:(lia)).
  assert (N ^ h = N * N ^ (h - 1)) as E by (rewrite <- Z.pow_succ_r by lia; f_equal; lia). nia.
Qed.

(** Numbers with different numbers of trailing zero digits are far apart. *)
Lemma aligned_apart h h' d d' : 1 <= h -> h < h' <= 3 -> d * N ^ h + h <> d' * N ^ h' + h'.
Proof.
  intros Hh Hh' E. assert (N ^ h' = N ^ h * N ^ (h' - h)) as Ep by (rewrite <- Z.pow_add_r by lia; f_equal; lia).
  rewrite Ep in E. pose proof (fanout_bounds N HN).
  assert (4 <= N ^ h) by (assert (h = 1 \/ h = 2) as [-> | ->] by lia; lia).
  assert (N ^ h * (d - d' * N ^ (h' - h)) = h' - h) as Em by lia.
  set (m := d - d' * N ^ (h' - h)) in Em. assert (m = 0 \/ 1 <= m \/ m <= -1) as Dm by lia. nia.
Qed.

Lemma lbn_of_neg t : valid N (Trail t) -> indirect (Trail t) -> lbn_of N t < 0.
Proof.
  intros V I. pose proof (height_valid t V) as [_ Hi]. apply Hi in I. unfold lbn_of.
  destruct t as [|a ap]; [done|]. pose proof (first_range a ap V) as [Hf _]. destruct V as (Ha & _). unfold NIADDR in *.
  pose proof (base_range N HN (a + 1) ltac:(lia)). unfold NDADDR in *. lia.
Qed.

(** The numbers on the path to a block. *)
Lemma path_entry_lbn k x t :
  1 <= k <= 3 -> 0 <= x < N ^ k -> 1 <= t <= k ->
  lbn_of N (in_off <$> take (Z.to_nat t) (path_spec N k x)) = in_lbn (path_entry N k x t).
Proof.
  intros Hk Hx Ht. replace (Z.to_nat t) with (S (Z.to_nat (t - 1))) by lia.
  unfold path_spec, lbn_of. cbn [take fmap list_fmap in_off path_head first_block].
  assert (take (Z.to_nat (t - 1)) (path_entry N k x <$> seqZ 1 k) = path_entry N k x <$> seqZ 1 (t - 1)) as ->.
  { replace k with ((t - 1) + (k - t + 1)) at 2 by lia. rewrite seqZ_app, fmap_app by lia. apply take_app_length'.
    by rewrite length_fmap, length_seqZ. }
  unfold digits. rewrite <- path_value_offsets, (path_value_prefix N HN) by lia.
  cbn [height]. rewrite !length_fmap, length_seqZ, Z2Nat.id by lia. unfold path_entry. cbn [in_lbn].
  replace (k - 1 + 1 - (t - 1)) with (k - t + 1) by lia. replace (k - (t - 1)) with (k - t + 1) by lia.
  replace (k - 1 + 1) with k by lia.
  pose proof (Z.div_mod x (N ^ (k - t + 1)) ltac:(pose proof (pow_pos N HN (k - t + 1)); lia)). lia.
Qed.

(** Logical numbers of indirect blocks are distinct. *)
Lemma lbn_of_inj t t' :
  valid N (Trail t) -> valid N (Trail t') -> indirect (Trail t) -> indirect (Trail t') ->
  lbn_of N t = lbn_of N t' -> t = t'.
Proof.
  intros V V' I I' E. pose proof (height_valid t V) as [Hh Hi]. pose proof (height_valid t' V') as [Hh' Hi'].
  apply Hi in I. apply Hi' in I'. clear Hi Hi'. destruct t as [|a ap]; [done|]. destruct t' as [|a' ap']; [done|].
  pose proof (first_range a ap V) as R. pose proof (first_range a' ap' V') as R'.
  unfold lbn_of in E. pose proof V as (Ha & Hl & F). pose proof V' as (Ha' & Hl' & F'). unfold NIADDR in *.
  assert (forall h, 1 <= h <= 3 -> h <= N ^ h) as Hsmall.
  { intros h Hr. pose proof (fanout_bounds N HN). assert (h = 1 \/ h = 2 \/ h = 3) as [-> | [-> | ->]] by lia; lia. }
  pose proof (Hsmall (height (a :: ap)) ltac:(lia)). pose proof (Hsmall (height (a' :: ap')) ltac:(lia)).
  assert (a = a') as <-.
  { assert (a < a' \/ a = a' \/ a' < a) as [L|[?|L]] by lia; [|done|].
    - pose proof (base_mono (a + 1) (a' + 1) ltac:(lia) ltac:(lia)). lia.
    - pose proof (base_mono (a' + 1) (a + 1) ltac:(lia) ltac:(lia)). lia. }
  cbn [first_block] in E. set (h := height (a :: ap)) in *. set (h' := height (a :: ap')) in *.
  assert (h = h') as Ehh.
  { assert (h < h' \/ h = h' \/ h' < h) as [L|[?|L]] by lia; [|done|].
    - destruct (aligned_apart h h' (digits N ap) (digits N ap')); lia.
    - destruct (aligned_apart h' h (digits N ap') (digits N ap)); lia. }
  f_equal. apply digits_inj; [done|done|unfold h, h' in Ehh; cbn in Ehh; lia|].
  rewrite Ehh in E. pose proof (pow_pos N HN h' ltac:(lia)). nia.
Qed.
End Cover.
