(* ===== verification/Bufio.v ===== *)
(** * The kernel's buffers

    What the file system uses of the buffer layer, for the buffers of one file: a class of
    operations, their laws, and an instance in memory that shows that the laws can be met.
    Buffers are looked up by logical number; those of indirect blocks have negative ones. *)

From S2P Require Import Prelude Inode Bmap Blktree.

(** A buffer in use: its logical number, the device address that was set or found, and
    its contents as 32-bit words. *)
Record buf := mkBuf { b_lblkno : Z; b_blkno : Z; b_data : list Z }.

Definition buf_setblkno (a : Z) (bp : buf) : buf := mkBuf (b_lblkno bp) a (b_data bp).
Definition buf_setdata (d : list Z) (bp : buf) : buf := mkBuf (b_lblkno bp) (b_blkno bp) d.
Definition buf_clear (bp : buf) : buf := buf_setdata (replicate (length (b_data bp)) 0) bp.
(** [bap[i] = v] for the data pointer [bap] of the buffer. *)
Definition buf_set (i v : Z) (bp : buf) : buf := buf_setdata (<[Z.to_nat i := v]> (b_data bp)) bp.

(** The operations, over the state [bst] of the buffer layer.  The reads get the inode
    because they ask the file system where a block is ([ext2_blockmap], that is
    [ext2_bmaparray]).  A number that is returned is an error, 0 for success.
    [buf_strategy] reads from the address in the buffer; [buf_invalidateblks] is called so
    that it spares the indirect blocks. *)
Class BufIO := {
  bst : Type;
  buf_getblk : Z -> Z -> bst -> buf * bst;
  buf_valid : buf -> bst -> bool;
  buf_strategy : buf -> bst -> Z * buf * bst;
  buf_bread : inode -> Z -> Z -> bst -> Z * buf * bst;
  buf_meta_bread : inode -> Z -> Z -> bst -> Z * buf * bst;
  buf_bwrite : buf -> bst -> Z * bst;
  buf_bdwrite : buf -> bst -> bst;
  buf_bawrite : buf -> bst -> bst;
  buf_brelse : buf -> bst -> bst;
  buf_markinvalid : buf -> bst -> bst;
  buf_invalidateblks : bool -> bst -> Z * bst;
  ubc_setsize : Z -> bst -> bst;
}.

(** The laws.  [content] is what the blocks hold, by device address, including what is
    still to be written of indirect blocks; [cached] gives the address that belongs to a
    valid buffer.
    - A read through the block map finds the block at the address the map gives, provided
      that a valid buffer of that number belongs to that address; a valid buffer of
      [buf_getblk] holds the block it belongs to.
    - A write, delayed or not, changes only the block at the address of the buffer, and
      unless it fails to the buffer's contents; the buffer belongs to that address then.
    - An operation on one buffer may drop others, but makes none valid. *)
Class BufIOLaws (ump : ext2mount) `{BufIO} := {
  content : bst -> Z -> option (list Z);
  cached : bst -> Z -> option Z;
  content_length b a d : content b a = Some d -> Z.of_nat (length d) = um_nindir ump;
  getblk_new lbn size b :
    let '(bp, b') := buf_getblk lbn size b in
    content b' = content b /\ (forall l a, cached b' l = Some a -> cached b l = Some a) /\
    b_lblkno bp = lbn /\ (0 <= size -> Z.of_nat (length (b_data bp)) = size / 4) /\
    (buf_valid bp b' = true -> exists a, cached b lbn = Some a /\ b_blkno bp = a /\
       forall d, content b a = Some d -> b_data bp = d);
  strategy_reads bp b :
    let '(error, bp', b') := buf_strategy bp b in
    content b' = content b /\
    (forall l a, cached b' l = Some a -> if decide (l = b_lblkno bp) then a = b_blkno bp else cached b l = Some a) /\
    b_lblkno bp' = b_lblkno bp /\ b_blkno bp' = b_blkno bp /\
    (error = 0 -> forall d, content b (b_blkno bp) = Some d -> b_data bp' = d);
  bread_maps ip lbn size b a c :
    let '(error, bp, b') := buf_bread ip lbn size b in
    content b' = content b /\ (forall l a, l <> lbn -> cached b' l = Some a -> cached b l = Some a) /\
    b_lblkno bp = lbn /\
    (ext2_bmaparray ump (content b) ip lbn 0 false false ∅ = Some (Mapped a 0 0, c) -> a <> -1 ->
     error = 0 -> b_blkno bp = a);
  meta_bread_maps ip lbn size b a c d :
    let '(error, bp, b') := buf_meta_bread ip lbn size b in
    content b' = content b /\ (forall l a, l <> lbn -> cached b' l = Some a -> cached b l = Some a) /\
    (ext2_bmaparray ump (content b) ip lbn 0 false false ∅ = Some (Mapped a 0 0, c) -> a <> -1 ->
     (forall a', cached b lbn = Some a' -> a' = a) -> content b a = Some d ->
     (forall a', cached b' lbn = Some a' -> a' = a) /\ (error = 0 -> bp = mkBuf lbn a d));
  bwrite_stores bp b :
    let '(error, b') := buf_bwrite bp b in
    (forall a, a <> b_blkno bp -> content b' a = content b a) /\
    (error = 0 -> Z.of_nat (length (b_data bp)) = um_nindir ump -> content b' (b_blkno bp) = Some (b_data bp)) /\
    (forall l a, cached b' l = Some a -> if decide (l = b_lblkno bp) then a = b_blkno bp else cached b l = Some a);
  bdwrite_stores bp b :
    (forall a, a <> b_blkno bp -> content (buf_bdwrite bp b) a = content b a) /\
    (Z.of_nat (length (b_data bp)) = um_nindir ump -> content (buf_bdwrite bp b) (b_blkno bp) = Some (b_data bp)) /\
    (forall l a, cached (buf_bdwrite bp b) l = Some a ->
       if decide (l = b_lblkno bp) then a = b_blkno bp else cached b l = Some a);
  bawrite_stores bp b :
    (forall a, a <> b_blkno bp -> content (buf_bawrite bp b) a = content b a) /\
    (forall l a, cached (buf_bawrite bp b) l = Some a ->
       if decide (l = b_lblkno bp) then a = b_blkno bp else cached b l = Some a);
  brelse_same bp b : content (buf_brelse bp b) = content b /\
    forall l a, cached (buf_brelse bp b) l = Some a -> cached b l = Some a;
  markinvalid_same bp b : content (buf_markinvalid bp b) = content b /\
    forall l a, cached (buf_markinvalid bp b) l = Some a -> cached b l = Some a;
  invalidateblks_same w b : content (buf_invalidateblks w b).2 = content b /\
    forall l a, cached (buf_invalidateblks w b).2 l = Some a -> cached b l = Some a;
  setsize_same n b : content (ubc_setsize n b) = content b /\
    forall l a, cached (ubc_setsize n b) l = Some a -> cached b l = Some a;
}.

(** ** Coherence

    The valid buffers of a file's indirect blocks belong to those blocks. *)

Section Coherence.
Context (ump : ext2mount) `{BufIOLaws ump}.
Local Abbreviation N := (um_nindir ump).

Definition coherent (x : inode) (b : bst) : Prop :=
  forall t p a, valid N (Trail t) -> indirect (Trail t) -> trail_ptr ump (content b) x t = Some p -> p <> 0 ->
    cached b (lbn_of N t) = Some a -> a = blkptrtodb ump p.

(** [others S b b']: only the buffers with numbers in [S] may have become valid. *)
Definition others (S : Z -> Prop) (b b' : bst) : Prop :=
  forall l a, ~ S l -> cached b' l = Some a -> cached b l = Some a.

(** A step that changes no contents and keeps the coherence of the file. *)
Definition quiet (x : inode) (b b' : bst) : Prop :=
  content b' = content b /\ (coherent x b -> coherent x b').

Lemma quiet_refl x b : quiet x b b.
Proof. by split. Qed.

Lemma quiet_trans x b1 b2 b3 : quiet x b1 b2 -> quiet x b2 b3 -> quiet x b1 b3.
Proof. intros [E1 C1] [E2 C2]. split; [congruence|auto]. Qed.

(** No buffer of an indirect block became valid. *)
Lemma quiet_data x b b' (S : Z -> Prop) :
  4 <= N <= 2 ^ 14 -> content b' = content b -> others S b b' -> (forall l, S l -> 0 <= l) -> quiet x b b'.
Proof.
  intros HN E O HS. split; [done|]. intros C t p a V I Ep Hp Ha. rewrite E in Ep. apply (C t p a); try done.
  apply O; [|done]. intros Hl. specialize (HS _ Hl). pose proof (lbn_of_neg N HN t V I). lia.
Qed.

Lemma quiet_none x b b' :
  content b' = content b -> (forall l a, cached b' l = Some a -> cached b l = Some a) -> quiet x b b'.
Proof.
  intros E O. split; [done|]. intros C t p a V I Ep Hp Ha. rewrite E in Ep. apply (C t p a); try done. by apply O.
Qed.
End Coherence.


(** ** Buffers over a device in memory

    The device is a finite map from addresses to blocks; reads of the addresses [unread]
    and writes to the addresses [bad] fail and change nothing, and no other operation
    fails; the buffers of indirect blocks that were read or written are valid, and a new
    buffer holds garbage, like one for a hole. *)

Section Memory.
Context (ump : ext2mount) (unread bad : Z -> bool).

Record memst := mkMem { m_dev : gmap Z (list Z); m_cache : gmap Z Z }.

Definition empty_mem : memst := mkMem ∅ ∅.

Definition mem_content (m : memst) (a : Z) : option (list Z) :=
  d ← m_dev m !! a; if Z.of_nat (length d) =? um_nindir ump then Some d else None.

Definition mem_map (m : memst) (x : inode) (lbn : Z) : option Z :=
  match ext2_bmaparray ump (mem_content m) x lbn 0 false false ∅ with
  | Some (Mapped a _ _, _) => if a =? -1 then None else Some a
  | _ => None
  end.

(** The address a valid buffer belongs to, else the one the file system gives. *)
Definition mem_find (m : memst) (x : inode) (lbn : Z) : option Z :=
  match m_cache m !! lbn with Some a => Some a | None => mem_map m x lbn end.

Definition mem_garbage (lbn size : Z) : buf := mkBuf lbn (-1) (replicate (Z.to_nat (size / 4)) (-1)).

Definition mem_read (x : inode) (lbn size : Z) (m : memst) : Z * buf * memst :=
  match a ← mem_find m x lbn; d ← mem_content m a; Some (mkBuf lbn a d) with
  | Some bp => if unread (b_blkno bp) then (EIO, mem_garbage lbn size, m)
               else (0, bp, mkMem (m_dev m) (<[lbn := b_blkno bp]> (m_cache m)))
  | None => (0, mem_garbage lbn size, m)
  end.

(** The contents of a data block are not kept. *)
Definition mem_read_data (x : inode) (lbn size : Z) (m : memst) : Z * buf * memst :=
  (0, mkBuf lbn (default (-1) (mem_map m x lbn)) (replicate (Z.to_nat (size / 4)) (-1)), m).

Definition mem_store (bp : buf) (m : memst) : memst :=
  mkMem (<[b_blkno bp := b_data bp]> (m_dev m)) (<[b_lblkno bp := b_blkno bp]> (m_cache m)).

Definition mem_write (bp : buf) (m : memst) : Z * memst :=
  if bad (b_blkno bp) then (EIO, mkMem (m_dev m) (delete (b_lblkno bp) (m_cache m))) else (0, mem_store bp m).

(** A valid buffer holds its block. *)
Definition mem_getblk (lbn size : Z) (m : memst) : buf * memst :=
  match a ← m_cache m !! lbn; d ← mem_content m a; Some (mkBuf lbn a d) with
  | Some bp => (if Z.of_nat (length (b_data bp)) =? size / 4 then bp else mem_garbage lbn size, m)
  | None => (mem_garbage lbn size, m)
  end.

Definition mem_valid (bp : buf) (m : memst) : bool :=
  match m_cache m !! b_lblkno bp with
  | Some a => (a =? b_blkno bp) && bool_decide (mem_content m a = Some (b_data bp))
  | None => false
  end.

Definition mem_strategy (bp : buf) (m : memst) : Z * buf * memst :=
  match mem_content m (b_blkno bp) with
  | Some d => if unread (b_blkno bp) then (EIO, bp, mkMem (m_dev m) (delete (b_lblkno bp) (m_cache m)))
              else (0, buf_setdata d bp, mkMem (m_dev m) (<[b_lblkno bp := b_blkno bp]> (m_cache m)))
  | None => (0, bp, mkMem (m_dev m) (delete (b_lblkno bp) (m_cache m)))
  end.

#[local] Instance mem_io : BufIO := {|
  bst := memst;
  buf_getblk := mem_getblk;
  buf_valid := mem_valid;
  buf_strategy := mem_strategy;
  buf_bread := mem_read_data;
  buf_meta_bread := mem_read;
  buf_bwrite := mem_write;
  buf_bdwrite := mem_store;
  buf_bawrite := mem_store;
  buf_brelse _ m := m;
  buf_markinvalid _ m := m;
  buf_invalidateblks _ m := (0, m);
  ubc_setsize _ m := m;
|}.

Lemma mem_content_other m bp a : a <> b_blkno bp -> mem_content (mem_store bp m) a = mem_content m a.
Proof. intros Hne. unfold mem_content. cbn. by rewrite lookup_insert_ne. Qed.

Lemma mem_content_same m bp :
  Z.of_nat (length (b_data bp)) = um_nindir ump -> mem_content (mem_store bp m) (b_blkno bp) = Some (b_data bp).
Proof. intros E. unfold mem_content. cbn. rewrite lookup_insert_eq. cbn. by rewrite E, Z.eqb_refl. Qed.

Lemma mem_content_length m a d : mem_content m a = Some d -> Z.of_nat (length d) = um_nindir ump.
Proof.
  unfold mem_content. destruct (m_dev m !! a) as [d'|]; cbn; [|done].
  destruct (Z.eqb_spec (Z.of_nat (length d')) (um_nindir ump)); [|done]. by intros [= <-].
Qed.

Lemma mem_map_ok m x lbn a c :
  ext2_bmaparray ump (mem_content m) x lbn 0 false false ∅ = Some (Mapped a 0 0, c) -> a <> -1 ->
  mem_map m x lbn = Some a.
Proof. intros E Ha. unfold mem_map. by rewrite E, (proj2 (Z.eqb_neq a (-1)) Ha). Qed.

(** The buffers that became valid. *)
Lemma cache_insert (m : memst) lbn a l a' : <[lbn := a]> (m_cache m) !! l = Some a' ->
  if decide (l = lbn) then a' = a else m_cache m !! l = Some a'.
Proof.
  destruct (decide (l = lbn)) as [->|Hne]; [rewrite lookup_insert_eq|rewrite lookup_insert_ne by done]; congruence.
Qed.

Lemma cache_delete (m : memst) lbn a l a' : delete lbn (m_cache m) !! l = Some a' ->
  if decide (l = lbn) then a' = a else m_cache m !! l = Some a'.
Proof. intros [Hne E]%lookup_delete_Some. by rewrite decide_False. Qed.

Lemma mem_getblk_new lbn size (m : memst) :
  let '(bp, m') := mem_getblk lbn size m in
  mem_content m' = mem_content m /\ (forall l a, m_cache m' !! l = Some a -> m_cache m !! l = Some a) /\
  b_lblkno bp = lbn /\ (0 <= size -> Z.of_nat (length (b_data bp)) = size / 4) /\
  (mem_valid bp m' = true -> exists a, m_cache m !! lbn = Some a /\ b_blkno bp = a /\
     forall d, mem_content m a = Some d -> b_data bp = d).
Proof.
  assert (forall bp, b_lblkno bp = lbn -> mem_valid bp m = true -> exists a, m_cache m !! lbn = Some a /\ b_blkno bp = a /\
    forall d, mem_content m a = Some d -> b_data bp = d) as Hv.
  { intros bp El. unfold mem_valid. rewrite El. destruct (m_cache m !! lbn) as [a|]; [|done].
    intros [->%Z.eqb_eq Hd%bool_decide_eq_true_1]%andb_true_iff. exists (b_blkno bp). split; [done|]. split; [done|].
    intros d E. rewrite E in Hd. by injection Hd as ->. }
  unfold mem_getblk. set (new := mem_garbage lbn size).
  assert (0 <= size -> Z.of_nat (length (b_data new)) = size / 4) as Hl.
  { intros Hs. cbn. rewrite length_replicate. pose proof (Z.div_pos size 4). lia. }
  destruct (a ← m_cache m !! lbn; d ← mem_content m a; Some (mkBuf lbn a d)) as [bp|] eqn:Eb.
  - assert (b_lblkno bp = lbn) as El.
    { destruct (m_cache m !! lbn) as [a|]; [cbn in Eb|done]. destruct (mem_content m a); [|done]. by injection Eb as <-. }
    destruct (Z.eqb_spec (Z.of_nat (length (b_data bp))) (size / 4)); split_and!; try done; by apply Hv.
  - split_and!; try done; by apply Hv.
Qed.

Lemma mem_strategy_reads bp (m : memst) :
  let '(error, bp', m') := mem_strategy bp m in
  mem_content m' = mem_content m /\
  (forall l a, m_cache m' !! l = Some a -> if decide (l = b_lblkno bp) then a = b_blkno bp else m_cache m !! l = Some a) /\
  b_lblkno bp' = b_lblkno bp /\ b_blkno bp' = b_blkno bp /\
  (error = 0 -> forall d, mem_content m (b_blkno bp) = Some d -> b_data bp' = d).
Proof.
  unfold mem_strategy. destruct (mem_content m (b_blkno bp)) as [d|]; [destruct (unread _)|]; split_and!; try done.
  - intros l a E. by apply cache_delete.
  - intros l a. apply cache_insert.
  - intros _ d' E. by injection E as <-.
  - intros l a E. by apply cache_delete.
Qed.

Lemma mem_read_maps x lbn size (m : memst) a c d :
  let '(error, bp, m') := mem_read x lbn size m in
  mem_content m' = mem_content m /\ (forall l a, l <> lbn -> m_cache m' !! l = Some a -> m_cache m !! l = Some a) /\
  (ext2_bmaparray ump (mem_content m) x lbn 0 false false ∅ = Some (Mapped a 0 0, c) -> a <> -1 ->
   (forall a', m_cache m !! lbn = Some a' -> a' = a) -> mem_content m a = Some d ->
   (forall a', m_cache m' !! lbn = Some a' -> a' = a) /\ (error = 0 -> bp = mkBuf lbn a d)).
Proof.
  unfold mem_read. set (found := _ ≫= _).
  assert (ext2_bmaparray ump (mem_content m) x lbn 0 false false ∅ = Some (Mapped a 0 0, c) -> a <> -1 ->
    (forall a', m_cache m !! lbn = Some a' -> a' = a) -> mem_content m a = Some d -> found = Some (mkBuf lbn a d)) as Hf.
  { intros E Ha Hc Hd. unfold found, mem_find.
    assert ((match m_cache m !! lbn with Some a => Some a | None => mem_map m x lbn end) = Some a) as ->.
    { destruct (m_cache m !! lbn) as [a'|]; [f_equal; by apply Hc|by eapply mem_map_ok]. }
    cbn. by rewrite Hd. }
  destruct found as [bp|]; [destruct (unread _)|].
  - done.
  - split; [done|]. split.
    { intros l a' Hl E. apply cache_insert in E. by rewrite decide_False in E. }
    intros E Ha Hc Hd. specialize (Hf E Ha Hc Hd) as [= ->]. cbn. rewrite lookup_insert_eq. split; congruence.
  - do 2 (split; [done|]). intros E Ha Hc Hd. by specialize (Hf E Ha Hc Hd).
Qed.

Lemma mem_store_stores bp (m : memst) :
  (forall a, a <> b_blkno bp -> mem_content (mem_store bp m) a = mem_content m a) /\
  (Z.of_nat (length (b_data bp)) = um_nindir ump -> mem_content (mem_store bp m) (b_blkno bp) = Some (b_data bp)) /\
  (forall l a, m_cache (mem_store bp m) !! l = Some a ->
     if decide (l = b_lblkno bp) then a = b_blkno bp else m_cache m !! l = Some a).
Proof.
  split; [intros a Ha; by apply mem_content_other|]. split; [apply mem_content_same|]. intros l a. apply cache_insert.
Qed.

Lemma mem_write_stores bp (m : memst) :
  let '(error, m') := mem_write bp m in
  (forall a, a <> b_blkno bp -> mem_content m' a = mem_content m a) /\
  (error = 0 -> Z.of_nat (length (b_data bp)) = um_nindir ump -> mem_content m' (b_blkno bp) = Some (b_data bp)) /\
  (forall l a, m_cache m' !! l = Some a -> if decide (l = b_lblkno bp) then a = b_blkno bp else m_cache m !! l = Some a).
Proof.
  unfold mem_write. destruct (bad (b_blkno bp)).
  - split; [done|]. split; [done|]. intros l a E. by apply cache_delete.
  - pose proof (mem_store_stores bp m) as (S1 & S2 & S3). auto.
Qed.

#[local] Instance mem_io_laws : BufIOLaws ump := {|
  content := mem_content;
  cached m l := m_cache m !! l;
  content_length := mem_content_length;
  getblk_new := mem_getblk_new;
  strategy_reads := mem_strategy_reads;
  bread_maps x lbn size m a c :=
    conj eq_refl (conj (fun _ _ _ E => E) (conj eq_refl (fun E Ha _ => f_equal (default (-1)) (mem_map_ok m x lbn a c E Ha))));
  meta_bread_maps := mem_read_maps;
  bwrite_stores := mem_write_stores;
  bdwrite_stores := mem_store_stores;
  bawrite_stores bp m := conj (proj1 (mem_store_stores bp m)) (proj2 (proj2 (mem_store_stores bp m)));
  brelse_same _ _ := conj eq_refl (fun _ _ E => E);
  markinvalid_same _ _ := conj eq_refl (fun _ _ E => E);
  invalidateblks_same _ _ := conj eq_refl (fun _ _ E => E);
  setsize_same _ _ := conj eq_refl (fun _ _ E => E);
|}.
End Memory.
