(* ===== verification/Fballoc.v ===== *)
(** * Giving a file its blocks (src/src/gnu/ext2fs/ext2_balloc.c)

    [ext2_balloc2] makes sure that a block of a file has storage: it allocates the block
    and the indirect blocks on its path that are missing.  It is where the block
    allocator ([Alloc]), the block map ([Bmap]) and the kernel's buffers meet; the
    buffers are used through the class [BufIO]. *)

From S2P Require Import Prelude Bitops Fs Balloc Inode Alloc Bmap Blktree Bufio.

(** ** [ext2_balloc2] *)

Definition B_CLRBUF : Z := 1.
Definition B_SYNC : Z := 2.
Definition B_NOBUFF : Z := 16.
Definition has_flag (flags m : Z) : bool := negb (Z.land flags m =? 0).

(** [fragroundup] and [blkoff]; the block size is a power of two. *)
Definition fragroundup (g : geometry) (size : Z) : Z := i32 (roundup (u64 size) (e2fs_fsize g)).
Definition blkoff (g : geometry) (loc : Z) : Z := Z.land loc (s_blocksize g - 1).

(** The error, [*bpp] and [*blk_alloc]. *)
Record balloc_res := mkRes { r_error : Z; r_bpp : option buf; r_alloc : Z }.
Definition failed (error : Z) : balloc_res := mkRes error None 0.

Section Balloc2.
Context `{BufIO} (junk : Z * Z) (cr_uid flags : Z).

Definition alloc_buf : bool := negb (has_flag flags B_NOBUFF).

(** The write of an indirect block that was changed: synchronous if required, otherwise
    delayed.  The error of the synchronous write is ignored. *)
Definition update_indirect (bp : buf) (b : bst) : bst :=
  if has_flag flags B_SYNC then (buf_bwrite bp b).2 else buf_bdwrite bp b.

(** A new indirect block: its buffer is cleared and written synchronously; when that
    fails the block is freed again.  Returns the error. *)
Definition write_indirect (s_bs lbn newb : Z) (b : bst) : FS (Z * bst) :=
  s ← gets id;
  let '(nbp, b) := buf_getblk lbn s_bs b in
  let nbp := buf_clear (buf_setblkno (fsbtodb (geo s) newb) nbp) in
  let '(error, b) := buf_bwrite nbp b in
  if negb (error =? 0) then ext2_blkfree newb s_bs;; mret (error, b)
  else mret (0, b).

(** The end of the direct case. *)
Definition direct_done (f : file) (b : bst) (bn newb nsize : Z) (bp : option buf) : file * bst * balloc_res :=
  (set_flag (Z.lor IN_CHANGE IN_UPDATE) (set_ip (set_db bn newb) f), b, mkRes 0 bp nsize).

(** The first [NDADDR] blocks. *)
Definition balloc_direct (f : file) (b : bst) (bn size : Z) : FS (file * bst * balloc_res) :=
  s ← gets id;
  let bs := s_blocksize (geo s) in
  nb ← access (aref (i_db (ip f)) bn);
  if negb (nb =? 0) && (u64 ((bn + 1) * bs) <=? i_size (ip f)) then
    if alloc_buf then
      let '(error, bp, b) := buf_bread (ip f) bn bs b in
      if negb (error =? 0) then mret (f, buf_brelse bp b, failed error)
      else mret (f, b, mkRes 0 (Some (buf_setblkno (fsbtodb (geo s) nb) bp)) 0)
    else mret (f, b, mkRes 0 None 0)
  else if negb (nb =? 0) then
    let osize := fragroundup (geo s) (blkoff (geo s) (i_size (ip f))) in
    let nsize := fragroundup (geo s) size in
    if nsize <=? osize then
      if alloc_buf then
        let '(error, bp, b) := buf_bread (ip f) bn osize b in
        if negb (error =? 0) then mret (f, buf_brelse bp b, failed error)
        else mret (direct_done f b bn nb nsize (Some (buf_setblkno (fsbtodb (geo s) nb) bp)))
      else mret (set_flag (Z.lor IN_CHANGE IN_UPDATE) f, b, mkRes 0 None 0)
    else panic "ext2_balloc: Something is terribly wrong"
  else
    let nsize := if i_size (ip f) <? u64 ((bn + 1) * bs) then fragroundup (geo s) size else i32 bs in
    '(f, error, newb) ← ext2_alloc junk f bn (ext2_blkpref f s bn bn (Some (i_db (ip f))) 0) nsize cr_uid;
    if negb (error =? 0) then mret (f, b, failed error)
    else if alloc_buf then
      let '(bp, b) := buf_getblk bn nsize b in
      let bp := buf_setblkno (fsbtodb (geo s) newb) bp in
      let bp := if has_flag flags B_CLRBUF then buf_clear bp else bp in
      mret (direct_done f b bn newb nsize (Some bp))
    else mret (direct_done f b bn newb nsize None).

(** The loop over the indirect blocks, from the entry [e] of the path on; [rest] are the
    entries behind it.  Returns an error, or the buffer of the last indirect block and
    the pointer found in it. *)
Fixpoint indirect_loop (f : file) (b : bst) (lbn pref : Z) (e : indir) (rest : list indir)
    : FS (file * bst * (Z + buf * Z)) :=
  s ← gets id;
  let bs := s_blocksize (geo s) in
  let '(error, bp, b) := buf_meta_bread (ip f) (in_lbn e) (i32 bs) b in
  if negb (error =? 0) then mret (f, buf_brelse bp b, inl error)
  else
    nb ← access (aref (b_data bp) (in_off e));
    let nb := i32 nb in
    match rest with
    | [] => mret (f, b, inr (bp, nb))
    | e2 :: rest =>
        if negb (nb =? 0) then indirect_loop f (buf_brelse bp b) lbn pref e2 rest
        else
          let pref := if pref =? 0
                      then ext2_blkpref f s lbn (in_off e2) (Some (b_data bp)) (b_lblkno bp) else pref in
          '(f, error, newb) ← ext2_alloc junk f lbn pref (i32 bs) cr_uid;
          if negb (error =? 0) then mret (f, buf_brelse bp b, inl error)
          else
            '(error, b) ← write_indirect (i32 bs) (in_lbn e2) newb b;
            if negb (error =? 0) then mret (f, buf_brelse bp b, inl error)
            else indirect_loop f (update_indirect (buf_set (in_off e) newb bp) b) lbn pref e2 rest
    end.

(** The first indirect block, allocated if it is missing: the error and [pref]. *)
Definition first_indirect (f : file) (b : bst) (lbn : Z) (e0 e1 : indir) : FS (file * bst * Z * Z) :=
  s ← gets id;
  let bs := s_blocksize (geo s) in
  nb ← access (aref (i_ib (ip f)) (in_off e0));
  if negb (nb =? 0) then mret (f, b, 0, 0)
  else
    let pref := ext2_blkpref f s lbn (in_off e0 + NDADDR) (Some (i_db (ip f) ++ i_ib (ip f))) 0 in
    '(f, error, newb) ← ext2_alloc junk f lbn pref (i32 bs) cr_uid;
    if negb (error =? 0) then mret (f, b, error, pref)
    else
      '(error, b) ← write_indirect (i32 bs) (in_lbn e1) newb b;
      if negb (error =? 0) then mret (f, b, error, pref)
      else mret (set_flag (Z.lor IN_CHANGE IN_UPDATE) (set_ip (set_ib (in_off e0) newb) f), b, 0, pref).

(** The data block behind an indirect block: [bp] is the last indirect block, [e] the
    entry for it and [nb] the pointer found there. *)
Definition data_block (f : file) (b : bst) (lbn : Z) (e : indir) (bp : buf) (nb : Z)
    : FS (file * bst * balloc_res) :=
  s ← gets id;
  let bs := s_blocksize (geo s) in
  if nb =? 0 then
    let pref := ext2_blkpref f s lbn (in_off e) (Some (b_data bp)) (b_lblkno bp) in
    '(f, error, newb) ← ext2_alloc junk f lbn pref (i32 bs) cr_uid;
    if negb (error =? 0) then mret (f, buf_brelse bp b, failed error)
    else
      let b := update_indirect (buf_set (in_off e) newb bp) b in
      if alloc_buf then
        let '(nbp, b) := buf_getblk lbn (i32 bs) b in
        let nbp := buf_setblkno (fsbtodb (geo s) newb) nbp in
        let nbp := if has_flag flags B_CLRBUF then buf_clear nbp else nbp in
        mret (f, b, mkRes 0 (Some nbp) (i32 bs))
      else mret (f, b, mkRes 0 None (i32 bs))
  else
    let b := buf_brelse bp b in
    if alloc_buf then
      if has_flag flags B_CLRBUF then
        let '(error, nbp, b) := buf_bread (ip f) lbn (i32 bs) b in
        if negb (error =? 0) then mret (f, buf_brelse nbp b, failed error)
        else mret (f, b, mkRes 0 (Some nbp) 0)
      else
        let '(nbp, b) := buf_getblk lbn (i32 bs) b in
        mret (f, b, mkRes 0 (Some (buf_setblkno (fsbtodb (geo s) nb) nbp)) 0)
    else mret (f, b, mkRes 0 None 0).

(** [size] is the number of bytes in use in the block. *)
Definition ext2_balloc2 (ump : ext2mount) (f : file) (b : bst) (bn size : Z) : FS (file * bst * balloc_res) :=
  if bn <? 0 then mret (f, b, failed EFBIG)
  else
    let f := if u32 bn =? u32 (i_next_alloc_block f + 1)
             then set_next_alloc (u32 (i_next_alloc_block f + 1)) (u32 (i_next_alloc_goal f + 1)) f else f in
    if bn <? NDADDR then balloc_direct f b bn size
    else
      match ext2_getlbns (um_nindir ump) bn with
      | Some (e0 :: e1 :: rest) =>
          '(f, b, error, pref) ← first_indirect f b bn e0 e1;
          if negb (error =? 0) then mret (f, b, failed error)
          else
            '(f, b, r) ← indirect_loop f b bn pref e1 rest;
            match r with
            | inl error => mret (f, b, failed error)
            | inr (bp, nb) => data_block f b bn (List.last (e1 :: rest) e1) bp nb
            end
      | Some _ => panic "ext2_balloc: ext2_getlbns returned indirect block"
      | None => mret (f, b, failed EFBIG)
      end.

(** The wrapper for callers that do not ask for [*blk_alloc]. *)
Definition ext2_balloc (ump : ext2mount) (f : file) (b : bst) (bn size : Z) : FS (file * bst * (Z * option buf)) :=
  '(f, b, r) ← ext2_balloc2 ump f b bn size; mret (f, b, (r_error r, r_bpp r)).

End Balloc2.

(** ** How a file grows *)

(** The values of the mount that the two parts of the driver compute separately; a
    fragment is a block. *)
Record mount_ok (ump : ext2mount) (s : m_ext2fs) : Prop := {
  mo_nindir : um_nindir ump = s_blocksize (geo s) / 4;
  mo_shift : um_bptrtodb ump = s_fsbtodb (geo s);
  mo_frag : e2fs_fsize (geo s) = s_blocksize (geo s);
  mo_pow2 : exists k, 0 <= k /\ s_blocksize (geo s) = 2 ^ k;
}.

(** The blocks that hold data of files and directories or are part of the system. *)
Definition data_blocks (s : m_ext2fs) (f : file) : gset Z := used_blocks s ∖ window f.

Section Growth.
Context (ump : ext2mount) `{BufIOLaws ump}.
Local Abbreviation N := (um_nindir ump).
Local Abbreviation ptr := (fun b f => slot_ptr ump (content b) (ip f)).

Record file_state (s : m_ext2fs) (f : file) (b : bst) : Prop := {
  st_wf : wf s;
  st_lock : s_lock s = false;
  st_mount : mount_ok ump s;
  st_file : file_ok s f;
  st_tree : tree_ok ump (content b) (ip f) (data_blocks s f);
  st_blocks : is_sint 32 (i_blocks (ip f));
  st_freeable q p : valid N q -> ptr b f q = Some p -> p <> 0 -> freeable s p 1;
  st_coherent : coherent ump (ip f) b;
}.

(** What an allocation does not touch. *)
Definition same_attr (f f' : file) : Prop :=
  i_number f' = i_number f /\ i_mode (ip f') = i_mode (ip f) /\ i_nlink (ip f') = i_nlink (ip f).

(** [grown s f b new leak s' f' b']: the file got the blocks [new], stored at the slots
    given, and nothing else changed in its tree; [leak] blocks are counted in [i_blocks]
    that the file did not get. *)
Record grown (s : m_ext2fs) (f : file) (b : bst) (new : gmap slot Z) (leak : Z)
    (s' : m_ext2fs) (f' : file) (b' : bst) : Prop := {
  gr_state : file_state s' f' b';
  gr_zone : data_zone s' = data_zone s /\ geo s' = geo s;
  gr_new : forall q x, new !! q = Some x ->
    valid N q /\ ptr b f q = Some 0 /\ 0 < x /\ x ∈ data_zone s /\ x ∉ data_blocks s f;
  gr_ptr : forall q, valid N q -> ptr b' f' q = match new !! q with Some x => Some x | None => ptr b f q end;
  gr_data : data_blocks s' f' = data_blocks s f ∪ map_img new;
  gr_free : s_free_blocks_count (s_es s') + i_prealloc_count f'
            = s_free_blocks_count (s_es s) + i_prealloc_count f - Z.of_nat (size new);
  gr_blocks : i_blocks (ip f')
    = i32 (i_blocks (ip f) + (Z.of_nat (size new) + leak) * btodb (s_blocksize (geo s)) (s_d_blocksize (geo s)));
  gr_size : i_size (ip f') = i_size (ip f);
  gr_attr : same_attr f f';
}.

Lemma grown_refl s f b b' f' :
  file_state s f b -> quiet ump (ip f) b b' -> ip f' = ip f ->
  i_prealloc_block f' = i_prealloc_block f -> i_prealloc_count f' = i_prealloc_count f -> i_number f' = i_number f ->
  grown s f b ∅ 0 s f' b'.
Proof.
  intros [W L M F T HB FR CO] [Ec Q] Ei Ep En Eno.
  assert (window f' = window f) as Ew by (unfold window; by rewrite Ep, En).
  assert (data_blocks s f' = data_blocks s f) as Ed by (unfold data_blocks; by rewrite Ew).
  split; cbn; rewrite ?Ei, ?Ec, ?Ed, ?map_size_empty, ?En, ?map_img_empty_L; try done.
  - split; try done; [|by rewrite Ec, Ei, Ed|by rewrite Ei|by rewrite Ec, Ei|rewrite Ei; by apply Q]. destruct F as [F1 F2]. split; rewrite ?Ep, ?En, ?Ew; done.
  - set_solver.
  - lia.
  - rewrite Z.add_0_r. symmetry. by apply sintw_small.
  - unfold same_attr. by rewrite Ei.
Qed.

Lemma grown_trans s0 f0 b0 n1 l1 s1 f1 b1 n2 l2 s2 f2 b2 :
  grown s0 f0 b0 n1 l1 s1 f1 b1 -> grown s1 f1 b1 n2 l2 s2 f2 b2 ->
  grown s0 f0 b0 (n2 ∪ n1) (l1 + l2) s2 f2 b2.
Proof.
  intros [S1 [Z1 Z1'] N1 P1 D1 F1 B1 C1 At1] [S2 [Z2 Z2'] N2 P2 D2 F2 B2 C2 At2].
  assert (n2 ##ₘ n1) as Hdisj.
  { apply map_disjoint_spec. intros q x y H2 H1. destruct (N2 q x H2) as (V & E & _ & _).
    rewrite (P1 q V), H1 in E. destruct (N1 q y H1) as (_ & _ & Hy & _). congruence || (injection E as ->; lia). }
  assert (map_img (SA:=gset Z) (n2 ∪ n1) = map_img n1 ∪ map_img n2) as Ei.
  { apply set_eq. intros x. rewrite elem_of_union, !elem_of_map_img. split.
    - intros [q Hq]. apply lookup_union_Some in Hq as [Hq|Hq]; eauto.
    - intros [[q Hq]|[q Hq]]; exists q; apply lookup_union_Some; auto. }
  split; [done|split; congruence| | | | | |congruence|unfold same_attr in *; intuition congruence].
  - intros q x. rewrite lookup_union_Some by done. intros [Hq|Hq]; [|by apply N1].
    destruct (N2 q x Hq) as (V & E & Hx & Hz & Hn). split; [done|]. rewrite P1 in E by done.
    assert (n1 !! q = None) as En by by eapply map_disjoint_Some_l. rewrite En in E. split_and!; try done.
    + congruence.
    + rewrite D1 in Hn. set_solver.
  - intros q V. rewrite P2, P1 by done. destruct (n2 !! q) as [x|] eqn:E2.
    + by rewrite (lookup_union_Some_l _ _ _ _ E2).
    + by rewrite lookup_union_r by done.
  - rewrite D2, D1, Ei. set_solver.
  - rewrite map_size_disj_union by done. lia.
  - rewrite B2, B1, map_size_disj_union, Z1', sintw_add_l by done. f_equal. lia.
Qed.

(** *** One new block *)

Lemma st_blocks_in s f b : file_state s f b -> blocks_in (s_blocks_count (s_es s)) (data_blocks s f).
Proof.
  intros S p Hp. unfold data_blocks in Hp. apply elem_of_difference in Hp as [Hp _].
  apply used_in_zone in Hp. unfold data_zone in Hp. rewrite elem_of_zone in Hp.
  pose proof (wg_first _ _ (wf_geometry _ (st_wf _ _ _ S))). lia.
Qed.

Lemma dev_fsbtodb s p : mount_ok ump s -> blkptrtodb ump p = fsbtodb (geo s) p.
Proof. intros M. unfold blkptrtodb, fsbtodb. by rewrite (mo_shift _ _ M). Qed.

Lemma st_dev s f b p q :
  file_state s f b -> 0 <= p < s_blocks_count (s_es s) -> 0 <= q < s_blocks_count (s_es s) ->
  blkptrtodb ump p = blkptrtodb ump q -> p = q.
Proof.
  intros S Hp Hq. rewrite !(dev_fsbtodb s) by apply S. apply (fsbtodb_inj _ (s_es s)); [apply S|done..].
Qed.

Lemma st_count s f b : file_state s f b -> s_blocks_count (s_es s) <= 2 ^ 31.
Proof. intros S. pose proof (blocks_count_small _ _ (wf_geometry _ (st_wf _ _ _ S))). lia. Qed.

Lemma st_nindir s f b : file_state s f b -> 4 <= N <= 2 ^ 14 /\ N = i32 (s_blocksize (geo s)) / 4.
Proof.
  intros S. rewrite (mo_nindir _ _ (st_mount _ _ _ S)). pose proof (wg_bsize _ _ (wf_geometry _ (st_wf _ _ _ S))).
  mach. split; [|done]. split; [apply Z.div_le_lower_bound; lia|apply Z.div_le_upper_bound; lia].
Qed.

Lemma new_block_used s f lbn size f1 nb s1 : alloc_result s f lbn size f1 nb s1 -> nb ∈ used_blocks s1.
Proof.
  intros A. assert (nb ∈ used_blocks s1 ∖ window f1) as Hin.
  { rewrite (ar_data _ _ _ _ _ _ _ A). apply elem_of_union_r, elem_of_singleton_2, eq_refl. }
  by apply elem_of_difference in Hin as [? _].
Qed.

Lemma slot_ptr_set_blocks disk n i q : slot_ptr ump disk (set_blocks n i) q = slot_ptr ump disk i q.
Proof. by destruct q. Qed.

Section New_block.
Context (s : m_ext2fs) (f : file) (b : bst) (lbn nb : Z) (f1 : file) (s1 : m_ext2fs).
Context (S : file_state s f b) (A : alloc_result s f lbn (s_blocksize (geo s)) f1 nb s1).

(** The new block is none of the file's blocks. *)
Lemma new_block_range : 0 < nb < s_blocks_count (s_es s) /\ nb ∈ data_zone s /\ nb ∉ data_blocks s f.
Proof.
  pose proof (ar_fresh _ _ _ _ _ _ _ A) as Hf. apply elem_of_difference in Hf as [Hz Hn].
  split; [|done]. pose proof (ar_nonzero _ _ _ _ _ _ _ A). unfold data_zone in Hz.
  rewrite elem_of_zone in Hz. lia.
Qed.

Lemma new_block_ip : exists n, ip f1 = set_blocks n (ip f) /\
  n = i32 (i_blocks (ip f) + btodb (s_blocksize (geo s)) (s_d_blocksize (geo s))).
Proof. destruct (ar_inode _ _ _ _ _ _ _ A) as (pb & pc & ->). cbn. by eexists. Qed.

Lemma new_block_attr : same_attr f f1.
Proof. by destruct (ar_inode _ _ _ _ _ _ _ A) as (pb & pc & ->). Qed.

(** A change at the new block's address does not show in the file. *)
Lemma new_block_hidden b1 p :
  (forall a, a <> blkptrtodb ump nb -> content b1 a = content b a) -> p ∈ data_blocks s f -> p <> 0 ->
  content b1 (blkptrtodb ump p) = content b (blkptrtodb ump p).
Proof.
  intros Hb1 Hp Hp0. destruct new_block_range as (Hr & _ & Hn). apply Hb1.
  pose proof (st_blocks_in _ _ _ S p Hp). intros E. apply (st_dev s f b) in E; [congruence|done|lia|lia].
Qed.

Lemma grown_link q0 f2 b2 :
  valid N q0 -> ptr b f q0 = Some 0 ->
  linked ump (content b) (content b2) (ip f) (ip f2) q0 nb ->
  i_prealloc_block f2 = i_prealloc_block f1 -> i_prealloc_count f2 = i_prealloc_count f1 ->
  i_blocks (ip f2) = i_blocks (ip f1) -> i_size (ip f2) = i_size (ip f1) -> same_attr f1 f2 ->
  length (i_db (ip f2)) = 12%nat -> length (i_ib (ip f2)) = 3%nat -> coherent ump (ip f2) b2 ->
  grown s f b {[q0 := nb]} 0 s1 f2 b2.
Proof.
  intros V0 E0 L Ep En Eb Es At Ed Ei C2. destruct new_block_range as (Hr & Hz & Hn).
  destruct new_block_ip as (n & Eip & En'). destruct S as [W Lk M F T HB FR CO].
  assert (window f2 = window f1) as Ew by (unfold window; by rewrite Ep, En).
  assert (data_blocks s1 f2 = data_blocks s f ∪ {[nb]}) as Edata.
  { unfold data_blocks. rewrite Ew. by rewrite (ar_data _ _ _ _ _ _ _ A). }
  destruct (ar_zone _ _ _ _ _ _ _ A) as [Z1 Z2].
  split; cbn.
  - split; try apply A.
    + destruct M as [M1 M2 M3 M4]. split; by rewrite Z2.
    + destruct (ar_file _ _ _ _ _ _ _ A) as [F1 F2]. split; rewrite ?Ep, ?En, ?Ew; done.
    + rewrite Edata. by apply (linked_ok ump (content b) (content b2) (ip f) (ip f2) q0 nb); try lia.
    + rewrite Eb, Eip. cbn. rewrite En'. unfold is_sint. apply sintw_bound. lia.
    + intros q p V E Hp. cbn in E. rewrite (L q V) in E. destruct (decide (q = q0)) as [->|].
      * injection E as <-. apply (ar_freeable _ _ _ _ _ _ _ A).
      * by apply (ar_keeps _ _ _ _ _ _ _ A), (FR q).
    + done.
  - done.
  - intros q x [<- <-]%lookup_singleton_Some. split_and!; try done; lia.
  - intros q Vq. rewrite (L q Vq). destruct (decide (q = q0)) as [->|Hne].
    + by rewrite lookup_singleton_eq.
    + by rewrite lookup_singleton_ne by congruence.
  - rewrite Edata. by rewrite map_img_singleton_L.
  - rewrite map_size_singleton, En, (ar_free _ _ _ _ _ _ _ A). lia.
  - rewrite Eb, Eip. cbn. rewrite En', map_size_singleton. f_equal. lia.
  - by rewrite Es, Eip.
  - destruct new_block_attr as (A1 & A2 & A3). unfold same_attr in *. intuition congruence.
Qed.

(** The pointers of the file, after a change at the new block's address. *)
Lemma new_block_ptr b1 q :
  (forall a, a <> blkptrtodb ump nb -> content b1 a = content b a) -> valid N q -> ptr b1 f1 q = ptr b f q.
Proof.
  intros Hb1 Vq. destruct new_block_ip as (n & Eip & _). cbn. rewrite Eip, slot_ptr_set_blocks.
  apply (slot_ptr_same ump (s_blocks_count (s_es s)) (st_count _ _ _ S) _ _ _ (data_blocks s f));
    [by eapply st_blocks_in|apply S| |done]. intros p. by apply new_block_hidden.
Qed.

(** The buffer of the new block, if it is the one for a hole of the file, does not show. *)
Lemma new_block_coherent b1 T2 :
  (forall a, a <> blkptrtodb ump nb -> content b1 a = content b a) ->
  others ump (fun l => exists t2, T2 = Some t2 /\ l = lbn_of N t2) b b1 ->
  (forall t2, T2 = Some t2 -> valid N (Trail t2) /\ indirect (Trail t2) /\ ptr b f (Trail t2) = Some 0) ->
  coherent ump (ip f1) b1.
Proof.
  intros Hb1 Ho HT2 t p a V I Ep Hp Ha. destruct (st_nindir _ _ _ S) as [HN _].
  pose proof (new_block_ptr b1 (Trail t) Hb1 V) as E1. cbn in E1. rewrite E1 in Ep.
  apply (st_coherent _ _ _ S t p a V I Ep Hp). apply Ho; [|done]. intros (t2 & -> & El).
  destruct (HT2 t2 eq_refl) as (V2 & I2 & E2). apply (lbn_of_inj N HN) in El as ->; [|done..]. cbn in Ep, E2. congruence.
Qed.

(** The block that could not be written is free again, but stays counted. *)
Lemma grown_fail s2 b2 :
  given_back s1 nb s2 -> (forall a, a <> blkptrtodb ump nb -> content b2 a = content b a) ->
  coherent ump (ip f1) b2 -> grown s f b ∅ 1 s2 f1 b2.
Proof.
  intros G Hb2 C2. destruct new_block_range as (Hr & Hz & Hn).
  destruct new_block_ip as (n & Eip & En'). pose proof S as [W Lk M F T HB FR CO].
  destruct (ar_zone _ _ _ _ _ _ _ A) as [Z1 Z2]. destruct (gb_zone _ _ _ G) as [Z3 Z4].
  pose proof (ar_data _ _ _ _ _ _ _ A) as D. fold (data_blocks s f) in D.
  assert (data_blocks s2 f1 = data_blocks s f) as Edata.
  { unfold data_blocks at 1. rewrite (gb_used _ _ _ G). set_solver. }
  assert (forall q, valid N q -> ptr b2 f1 q = ptr b f q) as Eptr.
  { intros q. by apply new_block_ptr. }
  split; cbn; try done.
  - split; try apply G.
    + destruct M as [M1 M2 M3 M4]. split; by rewrite Z4, Z2.
    + destruct (ar_file _ _ _ _ _ _ _ A) as [F1 F2]. split; [done|]. intros Hc. destruct (F2 Hc) as [F3 F4].
      split; [by apply (gb_freeable _ _ _ G)|]. rewrite (gb_used _ _ _ G).
      assert (nb ∈ used_blocks s1 ∖ window f1) by set_solver. set_solver.
    + rewrite Edata. split; [by rewrite Eip; apply T..| |].
      * intros q Vq. rewrite Eptr by done. by apply (to_ptr _ _ _ _ T).
      * intros q1 q2 p V1 V2. rewrite !Eptr by done. by apply (to_inj _ _ _ _ T).
    + rewrite Eip. cbn. rewrite En'. unfold is_sint. apply sintw_bound. lia.
    + intros q p V E Hp. rewrite Eptr in E by done. by apply (gb_freeable _ _ _ G), (ar_keeps _ _ _ _ _ _ _ A), (FR q).
    + done.
  - split; congruence.
  - rewrite Edata, map_img_empty_L. set_solver.
  - rewrite map_size_empty, (gb_free _ _ _ G). pose proof (ar_free _ _ _ _ _ _ _ A). lia.
  - rewrite Eip. cbn. rewrite En', map_size_empty. f_equal. lia.
  - by rewrite Eip.
  - apply new_block_attr.
Qed.
End New_block.
End Growth.

(** ** The steps of the routine *)

Section Steps.
Context (ump : ext2mount) `{BufIOLaws ump} (junk : Z * Z) (cr_uid flags : Z).
Local Abbreviation N := (um_nindir ump).
Local Abbreviation ptr := (fun b f => slot_ptr ump (content b) (ip f)).

(** No buffer operation fails. *)
Definition io_reliable : Prop :=
  (forall bp b, (buf_bwrite bp b).1 = 0) /\
  (forall ip lbn size b, (buf_meta_bread ip lbn size b).1.1 = 0) /\
  (forall ip lbn size b, (buf_bread ip lbn size b).1.1 = 0).

(** The synchronous writes whose errors are ignored succeed. *)
Definition sync_ok : Prop := has_flag flags B_SYNC = false \/ forall bp b, (buf_bwrite bp b).1 = 0.

(** Why a request failed. *)
Definition fail_reason (s : m_ext2fs) (error : Z) : Prop :=
  error <> 0 /\ (io_reliable -> error = ENOSPC /\ no_space s cr_uid = true).

Context (Hsync : sync_ok).

Lemma update_stores bp b :
  Z.of_nat (length (b_data bp)) = N ->
  content (update_indirect flags bp b) (b_blkno bp) = Some (b_data bp) /\
  (forall a, a <> b_blkno bp -> content (update_indirect flags bp b) a = content b a) /\
  (forall l a, cached (update_indirect flags bp b) l = Some a ->
     if decide (l = b_lblkno bp) then a = b_blkno bp else cached b l = Some a).
Proof using Hsync.
  intros Hl. unfold update_indirect. pose proof (bdwrite_stores bp b) as (D1 & D2 & D3).
  pose proof (bwrite_stores bp b) as B. destruct Hsync as [-> | Hs]; [by auto|].
  specialize (Hs bp b). destruct (buf_bwrite bp b) as [e b']. cbn in Hs. subst e. destruct B as (B1 & B2 & B3).
  destruct (has_flag flags B_SYNC); auto.
Qed.

Lemma grown_quiet s f b new leak s' f' b1 b2 :
  quiet ump (ip f') b1 b2 -> grown ump s f b new leak s' f' b1 -> grown ump s f b new leak s' f' b2.
Proof using.
  intros [E Q] [[? ? ? ? T ? FR CO] ? ? P ? ? ? ? ?]. split; try done; [|by rewrite E].
  split; try done; [by rewrite E..|by apply Q].
Qed.

Lemma grown_content_l s f b b1 new leak s' f' b' :
  content b1 = content b -> grown ump s f b1 new leak s' f' b' -> grown ump s f b new leak s' f' b'.
Proof using. intros E [? ? Nw P ? ? ? ? ?]. rewrite E in Nw, P. by split. Qed.

Lemma state_quiet s f b1 b2 : quiet ump (ip f) b1 b2 -> file_state ump s f b1 -> file_state ump s f b2.
Proof using. intros [E Q] [? ? ? ? T ? FR CO]. split; try done; [by rewrite E..|by apply Q]. Qed.

Lemma brelse_quiet x bp b : quiet ump x b (buf_brelse bp b).
Proof using. destruct (brelse_same bp b). by apply quiet_none. Qed.

(** Getting or reading the buffer of a file block. *)
Lemma getblk_quiet x bn size b : 4 <= N <= 2 ^ 14 -> 0 <= bn -> quiet ump x b (buf_getblk bn size b).2.
Proof using.
  intros HN Hbn. pose proof (getblk_new bn size b) as G. destruct (buf_getblk bn size b) as [bp b']. destruct G as (E & O & _).
  apply (quiet_data ump x b b' (fun l => l = bn)); [done|done| |intros l ->; lia]. intros l a Hl. by apply O.
Qed.

Lemma bread_quiet x bn size b : 4 <= N <= 2 ^ 14 -> 0 <= bn -> quiet ump x b (buf_bread x bn size b).2.
Proof using.
  intros HN Hbn. pose proof (bread_maps x bn size b 0 ∅) as G. destruct (buf_bread x bn size b) as [[e bp] b'].
  destruct G as (E & O & _).
  apply (quiet_data ump x b b' (fun l => l = bn)); [done|done| |intros l ->; lia]. intros l a Hl. by apply O.
Qed.

Lemma i32_bsize s f b : file_state ump s f b -> i32 (s_blocksize (geo s)) = s_blocksize (geo s).
Proof using. intros S. pose proof (wg_bsize _ _ (wf_geometry _ (st_wf _ _ _ _ S))). apply sintw_small; lia. Qed.

(** *** Writing a new indirect block *)

(** The new block [nb], with the number [lbn2], is cleared in [b2]. *)
Record cleared (b : bst) (lbn2 nb : Z) (b2 : bst) : Prop := {
  cl_zero : content b2 (blkptrtodb ump nb) = Some (replicate (Z.to_nat N) 0);
  cl_other a : a <> blkptrtodb ump nb -> content b2 a = content b a;
  cl_cached l a : cached b2 l = Some a -> if decide (l = lbn2) then a = blkptrtodb ump nb else cached b l = Some a;
}.

Lemma wp_write_indirect (Q : Z * bst -> m_ext2fs -> Prop) s f b lbn T2 nb f1 s1 :
  file_state ump s f b -> alloc_result s f lbn (s_blocksize (geo s)) f1 nb s1 ->
  valid N (Trail T2) -> indirect (Trail T2) -> ptr b f (Trail T2) = Some 0 ->
  (forall b2, cleared b (lbn_of N T2) nb b2 -> Q (0, b2) s1) ->
  (forall e b2 s2, e <> 0 -> ~ io_reliable -> grown ump s f b ∅ 1 s2 f1 b2 -> Q (e, b2) s2) ->
  wp (write_indirect (i32 (s_blocksize (geo s))) (lbn_of N T2) nb b) Q s1.
Proof using.
  intros S A V2 I2 E2 Hok Herr. set (lbn2 := lbn_of N T2) in *. destruct (st_nindir _ _ _ _ S) as [HN EN].
  destruct (ar_zone _ _ _ _ _ _ _ A) as [_ Eg]. pose proof (st_mount _ _ _ _ S) as M.
  unfold write_indirect. wp_steps. unfold id. rewrite Eg, <- (dev_fsbtodb ump s) by done.
  pose proof (getblk_new lbn2 (i32 (s_blocksize (geo s))) b) as G.
  destruct (buf_getblk lbn2 (i32 (s_blocksize (geo s))) b) as [nbp b1]. destruct G as (G3 & G4 & G1 & G2 & _).
  set (cbp := buf_clear _). pose proof (bwrite_stores cbp b1) as Hw.
  destruct (buf_bwrite cbp b1) as [e b2] eqn:Ew. destruct Hw as (W1 & W2 & W3). unfold cbp in W1, W2, W3.
  cbn [b_blkno b_data b_lblkno buf_clear buf_setblkno buf_setdata] in W1, W2, W3. rewrite G1 in W3.
  pose proof (wg_bsize _ _ (wf_geometry _ (st_wf _ _ _ _ S))) as Hbs.
  specialize (G2 ltac:(rewrite (i32_bsize s f b) by done; lia)). rewrite G3, length_replicate, G2, <- EN in *.
  assert (forall l a, cached b2 l = Some a -> if decide (l = lbn2) then a = blkptrtodb ump nb else cached b l = Some a) as W4.
  { intros l a Ha. apply W3 in Ha. destruct (decide (l = lbn2)); [done|by apply G4]. }
  destruct (Z.eqb_spec e 0) as [->|He]; cbn [negb].
  - wp_steps. apply Hok. split; [|done..]. rewrite W2 by done. f_equal. f_equal. lia.
  - wp_steps. apply wp_ext2_blkfree;
      [apply A|apply A|apply A|by apply (new_block_used s f lbn (s_blocksize (geo s)) f1 nb s1)
      |by rewrite Eg, (i32_bsize s f b)|by rewrite Eg, (mo_frag _ _ M)|].
    intros s2 G. wp_steps. apply Herr; [done| |].
    + intros (R & _). specialize (R cbp b1). by rewrite Ew in R.
    + apply (grown_fail ump s f b lbn nb f1 s1 S A); [done..|].
      apply (new_block_coherent ump s f b lbn nb f1 s1 S A b2 (Some T2)); [done| |by intros t2 [= <-]].
      intros l a Hl Ha. apply W4 in Ha. rewrite decide_False in Ha; [done|]. intros ->. apply Hl. by exists T2.
Qed.

(** *** Reading an indirect block *)

(** The logical number [lbn] is that of the indirect block at [T]. *)
Definition leads (lbn : Z) (T : list Z) : Prop :=
  exists k x t, 1 <= k <= 3 /\ 0 <= x < N ^ k /\ base N k + x < 2 ^ 31 - 8 /\ 1 <= t <= k /\
    lbn = in_lbn (path_entry N k x t) /\ T = in_off <$> take (Z.to_nat t) (path_spec N k x).

Lemma tree_sint s f b :
  file_state ump s f b -> Forall (is_sint 32) (i_db (ip f)) /\ Forall (is_sint 32) (i_ib (ip f)).
Proof using.
  intros S. pose proof (st_tree _ _ _ _ S) as T. pose proof (st_count _ _ _ _ S).
  assert (forall q p, valid N q -> ptr b f q = Some p -> is_sint 32 p) as Hs.
  { intros q p V E. destruct (to_ptr _ _ _ _ T q V) as (p' & Ep & Hp). assert (p' = p) as -> by congruence.
    unfold is_sint. destruct Hp as [->|Hp]; [lia|]. pose proof (st_blocks_in _ _ _ _ S p Hp). lia. }
  split; apply Forall_lookup; intros i p Hi.
  - pose proof (lookup_lt_Some _ _ _ Hi) as Hl. rewrite (to_db _ _ _ _ T) in Hl.
    apply (Hs (Direct (Z.of_nat i))); cbn; [unfold NDADDR; lia|]. unfold aref.
    rewrite (proj2 (Z.ltb_ge _ _)) by lia. by rewrite Nat2Z.id.
  - pose proof (lookup_lt_Some _ _ _ Hi) as Hl. rewrite (to_ib _ _ _ _ T) in Hl.
    apply (Hs (Trail [Z.of_nat i])); cbn; [unfold NIADDR; split_and!; (lia || by constructor)|]. unfold aref.
    rewrite (proj2 (Z.ltb_ge _ _)) by lia. by rewrite Nat2Z.id.
Qed.

Lemma state_ptr s f b q p :
  file_state ump s f b -> valid N q -> ptr b f q = Some p -> 0 <= p < s_blocks_count (s_es s).
Proof using.
  intros S V E. destruct (to_ptr _ _ _ _ (st_tree _ _ _ _ S) q V) as (p' & Ep & Hp).
  assert (p' = p) as -> by congruence. destruct Hp as [->|Hp]; [|by apply (st_blocks_in _ _ _ _ S)].
  pose proof (blocks_count_small _ _ (wf_geometry _ (st_wf _ _ _ _ S))). lia.
Qed.

Lemma leads_valid lbn T s f b : file_state ump s f b -> leads lbn T ->
  T <> [] /\ valid N (Trail T) /\ indirect (Trail T).
Proof using.
  intros S (k & x & t & Hk & Hx & Hb & Ht & _ & ->). destruct (st_nindir _ _ _ _ S) as [HN _].
  destruct (path_offsets_valid N HN k x Hk) as [V _]. unfold path_spec in *.
  replace (Z.to_nat t) with (Datatypes.S (Z.to_nat (t - 1))) by lia. cbn [take fmap list_fmap valid indirect] in *.
  rewrite !length_fmap, length_seqZ in V. rewrite !length_fmap, length_take, length_fmap, length_seqZ.
  cbn [in_off path_head] in *. destruct V as (V1 & V2 & V3). split_and!; try done; try lia.
  rewrite fmap_take. by apply Forall_take.
Qed.

Lemma leads_lbn lbn T : 4 <= N <= 2 ^ 14 -> leads lbn T -> lbn = lbn_of N T.
Proof using.
  intros HN (k & x & t & Hk & Hx & Hb & Ht & -> & ->). symmetry. by apply path_entry_lbn.
Qed.

Lemma dev_addr_block s f b p : file_state ump s f b -> 0 <= p < s_blocks_count (s_es s) -> p <> 0 ->
  dev_addr ump p = blkptrtodb ump p /\ blkptrtodb ump p <> -1.
Proof using.
  intros S Hp Hp0. pose proof (st_count _ _ _ _ S).
  unfold dev_addr. rewrite (sintw_small 32 p) by lia. rewrite (dev_fsbtodb ump s) by apply S.
  pose proof (wf_geometry _ (st_wf _ _ _ _ S)) as G. rewrite (fsbtodb_small _ _ _ G) by lia.
  assert (0 < 2 ^ s_fsbtodb (geo s)) by (apply Z.pow_pos_nonneg; pose proof (wg_shift _ _ G); lia).
  rewrite (proj2 (Z.eqb_neq _ 0)) by nia. split; [done|nia].
Qed.

Lemma meta_read s f b lbn T p size :
  file_state ump s f b -> leads lbn T -> ptr b f (Trail T) = Some p -> p <> 0 ->
  let '(error, bp, b') := buf_meta_bread (ip f) lbn size b in
  quiet ump (ip f) b b' /\
  (error = 0 -> exists d, bp = mkBuf lbn (blkptrtodb ump p) d /\
     content b (blkptrtodb ump p) = Some d /\ Z.of_nat (length d) = N).
Proof using.
  intros S HT Ep Hp0. destruct (leads_valid lbn T s f b S HT) as (Hne & V & I).
  destruct (st_nindir _ _ _ _ S) as [HN _]. pose proof (state_ptr s f b _ p S V Ep) as Hp.
  pose proof (st_count _ _ _ _ S). pose proof (st_tree _ _ _ _ S) as Tr.
  assert (exists d, content b (blkptrtodb ump p) = Some d) as [d Hd].
  { destruct (to_ptr _ _ _ _ Tr (Trail (T ++ [0]))) as (p' & Ep' & _); [apply valid_snoc; done || lia|].
    cbn [slot_ptr] in Ep, Ep'. rewrite trail_snoc, Ep in Ep' by done.
    rewrite (ptr_step_block ump (s_blocks_count (s_es s))) in Ep' by (done || lia).
    destruct (content b (blkptrtodb ump p)) as [d|]; [by eexists|done]. }
  pose proof (leads_lbn lbn T HN HT) as El. destruct (dev_addr_block s f b p S Hp Hp0) as [Ea Ha].
  assert (exists c, ext2_bmaparray ump (content b) (ip f) lbn 0 false false ∅ = Some (Mapped (blkptrtodb ump p) 0 0, c))
    as [c Ec].
  { destruct HT as (k & x & t & Hk & Hx & Hb & Ht & -> & ->). destruct (tree_sint s f b S) as [S1 S2].
    destruct (bmaparray_meta ump (content b) (ip f) HN (content_length b) (conj (to_db _ _ _ _ Tr) S1)
      (conj (to_ib _ _ _ _ Tr) S2) k x t ∅ p Hk Hx Hb Ht) as (c & Ec & _);
      [by intros l d' Hl; rewrite lookup_empty in Hl|by rewrite path_ptr_trail|].
    rewrite Ea in Ec. by exists c. }
  pose proof (meta_bread_maps (ip f) lbn size b (blkptrtodb ump p) c d) as L.
  destruct (buf_meta_bread _ _ _ _) as [[error bp] b']. destruct L as (L1 & L2 & L3).
  destruct (L3 Ec Ha) as [L4 L5]; [|done|].
  { intros a' Hc. rewrite El in Hc. by apply (st_coherent _ _ _ _ S T p a' V I). }
  split.
  { split; [done|]. intros C t' p' a V' I' Ep' Hp' Hc. rewrite L1 in Ep'. destruct (decide (lbn_of N t' = lbn)) as [E|E].
    - rewrite E in Hc. rewrite (L4 a Hc). rewrite El in E. apply (lbn_of_inj N HN) in E as ->; [|done..].
      cbn in Ep. congruence.
    - apply (C t' p' a V' I' Ep' Hp'). by apply L2. }
  intros ->. exists d. split; [by apply L5|]. split; [done|]. by apply (content_length b (blkptrtodb ump p)).
Qed.

(** *** The first indirect block *)

Lemma new_ip_fields s f lbn size nb f1 s1 : alloc_result s f lbn size f1 nb s1 ->
  i_db (ip f1) = i_db (ip f) /\ i_ib (ip f1) = i_ib (ip f) /\ i_size (ip f1) = i_size (ip f).
Proof using. intros A. by destruct (ar_inode _ _ _ _ _ _ _ A) as (pb & pc & ->). Qed.

(** A file that only got indirect blocks. *)
Definition only_indirect (new : gmap slot Z) : Prop := map_Forall (fun q _ => indirect q) new.

Lemma wp_first_indirect (Q : file * bst * Z * Z -> m_ext2fs -> Prop) s f b lbn e0 e1 :
  file_state ump s f b -> 0 <= in_off e0 < NIADDR -> leads (in_lbn e1) [in_off e0] ->
  (forall new s' f' b' pref p, grown ump s f b new 0 s' f' b' -> only_indirect new ->
     ptr b' f' (Trail [in_off e0]) = Some p -> p <> 0 -> Q (f', b', 0, pref) s') ->
  (forall error leak s' f' b' pref, grown ump s f b ∅ leak s' f' b' -> fail_reason s' error ->
     Q (f', b', error, pref) s') ->
  wp (first_indirect junk cr_uid f b lbn e0 e1) Q s.
Proof using.
  intros S Ha HL Hok Herr. pose proof (st_tree _ _ _ _ S) as T. destruct (st_nindir _ _ _ _ S) as [HN _].
  assert (valid N (Trail [in_off e0])) as V by (cbn; split_and!; (lia || constructor)).
  destruct (to_ptr _ _ _ _ T _ V) as (p & Ep & _). pose proof (state_ptr s f b _ p S V Ep) as Hp.
  pose proof Ep as Ep'. cbn [slot_ptr trail_ptr foldl] in Ep'.
  unfold first_indirect. wp_steps. rewrite Ep'. wp_steps. destruct (Z.eqb_spec p 0) as [->|Hp0]; cbn [negb].
  2:{ wp_steps. by apply (Hok ∅ s f b 0 p); [apply grown_refl; [|apply quiet_refl|..]|apply map_Forall_empty| |]. }
  unfold id. wp_steps. apply wp_ext2_alloc; [apply S|apply S|apply S|by apply (i32_bsize s f b)| |].
  { intros Hns. wp_steps. apply (Herr ENOSPC 0); [by apply grown_refl; [|apply quiet_refl|..]|done]. }
  rewrite (i32_bsize s f b) by done. intros Hns f1 nb s1 A. cbn [negb Z.eqb]. wp_steps.
  rewrite <- (i32_bsize s f b), (leads_lbn _ _ HN HL) by done.
  apply (wp_write_indirect _ s f b lbn [in_off e0] nb f1 s1); [done|done|done|cbn; lia|done| |].
  - intros b2 [Hz Hother Hcache]. wp_steps. destruct (new_ip_fields _ _ _ _ _ _ _ A) as (D1 & D2 & D3).
    destruct (new_block_range _ _ _ _ _ _ A) as (Hr & _ & _).
    assert (linked ump (content b) (content b2) (ip f) (set_ib (in_off e0) nb (ip f)) (Trail [in_off e0]) nb) as L.
    { apply (link_root ump (s_blocks_count (s_es s)) (st_count _ _ _ _ S) _ _ _ (data_blocks s f));
        [by eapply st_blocks_in|done|done|done|done| |done].
      intros x Hx. by apply (new_block_hidden ump s f b lbn nb f1 s1 S A). }
    eapply (Hok {[Trail [in_off e0] := nb]} s1 _ b2 _ nb).
    + apply (grown_link ump s f b lbn nb f1 s1 S A); cbn; try done.
      * intros q Vq. rewrite <- (L q Vq). destruct q as [i|t]; cbn; [by rewrite D1|].
        destruct t; [done|]. cbn. by rewrite D2.
      * rewrite D1. apply T.
      * rewrite length_insert, D2. apply T.
      * intros t p a Vt It Ep2 Hp2 Hc. apply Hcache in Hc.
        assert (slot_ptr ump (content b2) (set_ib (in_off e0) nb (ip f)) (Trail t) = Some p) as Ep3.
        { rewrite <- Ep2. destruct t; [done|]. cbn. by rewrite D2. }
        rewrite (L (Trail t) Vt) in Ep3. destruct (decide (Trail t = Trail [in_off e0])) as [[= ->]|Hne].
        -- rewrite decide_True in Hc by done. congruence.
        -- rewrite decide_False in Hc; [by apply (st_coherent _ _ _ _ S t p a)|].
           intros E. apply (lbn_of_inj N HN) in E as ->; [done|done|done|done|cbn; lia].
    + apply map_Forall_singleton. cbn. lia.
    + cbn. rewrite D2, aref_insert by (rewrite ?(to_ib _ _ _ _ T); unfold NIADDR in *; lia).
      by rewrite decide_True.
    + lia.
  - intros e b2 s2 He Hio G. rewrite (proj2 (Z.eqb_neq e 0)) by done. cbn [negb]. wp_steps.
    apply (Herr e 1); [done|]. split; [done|]. intros R. by destruct Hio.
Qed.

(** *** Below the first indirect block *)

(** Storing the new block in the indirect block at [T]. *)
Lemma link_step s f b lbn nb f1 s1 b1 T o p d num :
  file_state ump s f b -> alloc_result s f lbn (s_blocksize (geo s)) f1 nb s1 ->
  T <> [] -> valid N (Trail (T ++ [o])) -> ptr b f (Trail T) = Some p -> p <> 0 ->
  content b (blkptrtodb ump p) = Some d -> Z.of_nat (length d) = N -> aref d o = Some 0 ->
  (forall a, a <> blkptrtodb ump nb -> content b1 a = content b a) ->
  (indirect (Trail (T ++ [o])) -> content b1 (blkptrtodb ump nb) = Some (replicate (Z.to_nat N) 0)) ->
  (forall l a, cached b1 l = Some a -> if decide (indirect (Trail (T ++ [o])) /\ l = lbn_of N (T ++ [o]))
     then a = blkptrtodb ump nb else cached b l = Some a) -> num = lbn_of N T ->
  grown ump s f b {[Trail (T ++ [o]) := nb]} 0 s1 f1
    (update_indirect flags (buf_set o nb (mkBuf num (blkptrtodb ump p) d)) b1).
Proof using Hsync.
  intros S A HT V Ep Hp0 Hd Hlen Hhole Hb1 Hz Hcache ->. pose proof (st_tree _ _ _ _ S) as Tr.
  destruct (new_block_range _ _ _ _ _ _ A) as (Hr & _ & Hn).
  destruct (new_ip_fields _ _ _ _ _ _ _ A) as (D1 & D2 & D3).
  destruct (valid_prefix N T o V HT) as (VT & IT & Ho). pose proof (state_ptr s f b _ p S VT Ep) as Hp.
  destruct (update_stores (buf_set o nb (mkBuf (lbn_of N T) (blkptrtodb ump p) d)) b1) as (U1 & U2 & U3);
    [cbn; by rewrite length_insert|]. set (b2 := update_indirect _ _ _) in *.
  cbn [b_blkno b_data b_lblkno buf_set buf_setdata] in U1, U2, U3. destruct (st_nindir _ _ _ _ S) as [HN _].
  assert (forall x y, 0 <= x < s_blocks_count (s_es s) -> 0 <= y < s_blocks_count (s_es s) -> x <> y ->
    blkptrtodb ump x <> blkptrtodb ump y) as Hne.
  { intros x y Hx Hy Hxy E. by apply (st_dev ump s f b) in E. }
  assert (p <> nb) as Hpn.
  { intros ->. destruct (to_ptr _ _ _ _ Tr _ VT) as (p' & Ep' & [->|Hin]); [congruence|].
    assert (p' = nb) as -> by congruence. done. }
  assert (ptr b f (Trail (T ++ [o])) = Some 0) as Ehole.
  { cbn. rewrite trail_snoc by done. cbn [slot_ptr] in Ep. rewrite Ep.
    rewrite (ptr_step_block ump (s_blocks_count (s_es s))), Hd; [done|by eapply st_count|lia]. }
  assert (linked ump (content b) (content b2) (ip f) (ip f1) (Trail (T ++ [o])) nb) as L.
  { intros q Vq. transitivity (slot_ptr ump (content b2) (ip f) q).
    { destruct q as [i|t]; cbn; [by rewrite D1|]. destruct t; [done|]. cbn. by rewrite D2. }
    revert q Vq. apply (link_entry ump (s_blocks_count (s_es s)) (st_count _ _ _ _ S) _ _ _ (data_blocks s f) T o p d nb);
      try done.
    + by eapply st_blocks_in.
    + intros x Hx Hx0 Hxp. pose proof (st_blocks_in _ _ _ _ S x Hx).
      rewrite U2, Hb1; [done| |]; apply Hne; try done; try lia. congruence.
    + intros I. rewrite U2 by (apply Hne; lia). by apply Hz. }
  apply (grown_link ump s f b lbn nb f1 s1 S A); cbn; try done; [rewrite D1; apply Tr|rewrite D2; apply Tr|].
  intros t p' a Vt It Ep' Hp' Hc. apply U3 in Hc. pose proof (L (Trail t) Vt) as E. cbn [slot_ptr] in E. rewrite Ep' in E.
  assert (lbn_of N T <> lbn_of N (T ++ [o]) \/ ~ indirect (Trail (T ++ [o]))) as Hdiff.
  { destruct (decide (indirect (Trail (T ++ [o])))) as [I|]; [left|by right]. intros El.
    apply (lbn_of_inj N HN) in El; [|done..]. apply (f_equal length) in El. rewrite length_app in El. cbn in El. lia. }
  destruct (decide (lbn_of N t = lbn_of N T)) as [El|Hl].
  { apply (lbn_of_inj N HN) in El as ->; [|done..]. rewrite decide_False in E; [cbn in Ep; congruence|].
    intros [= ET]. apply (f_equal length) in ET. rewrite length_app in ET. cbn in ET. lia. }
  apply Hcache in Hc. destruct (decide (Trail t = Trail (T ++ [o]))) as [[= ->]|Ht].
  - rewrite decide_True in Hc by done. congruence.
  - rewrite decide_False in Hc; [by apply (st_coherent _ _ _ _ S t p' a)|]. intros [I El].
    apply (lbn_of_inj N HN) in El as ->; done.
Qed.

(** The pointer read from the indirect block at [T]. *)
Lemma entry_value s f b T o p d :
  file_state ump s f b -> T <> [] -> valid N (Trail (T ++ [o])) -> ptr b f (Trail T) = Some p -> p <> 0 ->
  content b (blkptrtodb ump p) = Some d -> Z.of_nat (length d) = N ->
  exists v, aref d o = Some v /\ i32 v = v /\ ptr b f (Trail (T ++ [o])) = Some v.
Proof using.
  intros S HT V Ep Hp0 Hd Hlen. destruct (valid_prefix N T o V HT) as (VT & IT & Ho).
  pose proof (state_ptr s f b _ p S VT Ep) as Hp. pose proof (st_count _ _ _ _ S).
  destruct (aref_ok d o) as [v Hv]; [lia|]. exists v.
  assert (ptr b f (Trail (T ++ [o])) = Some v) as E.
  { cbn [slot_ptr] in Ep |- *. rewrite trail_snoc, Ep by done.
    rewrite (ptr_step_block ump (s_blocks_count (s_es s))), Hd by (done || lia). done. }
  split_and!; [done| |done]. apply sintw_small; [lia|]. pose proof (state_ptr s f b _ v S V E). lia.
Qed.

Lemma read_failed s ip lbn size b error bp b' :
  buf_meta_bread ip lbn size b = (error, bp, b') -> error <> 0 -> fail_reason s error.
Proof using. intros E He. split; [done|]. intros (_ & R & _). specialize (R ip lbn size b). by rewrite E in R. Qed.

(** What the loop leaves: the buffer of the last indirect block and the pointer in it. *)
Definition at_last (s' : m_ext2fs) (f' : file) (b' : bst) (T : list Z) (l : indir) (bp : buf) (nb : Z) : Prop :=
  exists p d, T <> [] /\ ptr b' f' (Trail T) = Some p /\ p <> 0 /\
    bp = mkBuf (in_lbn l) (blkptrtodb ump p) d /\ content b' (blkptrtodb ump p) = Some d /\
    Z.of_nat (length d) = N /\ aref d (in_off l) = Some nb /\ in_lbn l = lbn_of N T.

Lemma wp_indirect_loop (Q : file * bst * (Z + buf * Z) -> m_ext2fs -> Prop) lbn rest : forall s f b pref e T p,
  file_state ump s f b ->
  (forall i e', (e :: rest) !! i = Some e' -> leads (in_lbn e') (T ++ (in_off <$> take i (e :: rest)))) ->
  valid N (Trail (T ++ (in_off <$> e :: rest))) -> ptr b f (Trail T) = Some p -> p <> 0 ->
  (forall new s' f' b' init l bp nb, e :: rest = init ++ [l] -> grown ump s f b new 0 s' f' b' -> only_indirect new ->
     at_last s' f' b' (T ++ (in_off <$> init)) l bp nb -> Q (f', b', inr (bp, nb)) s') ->
  (forall error new leak s' f' b', grown ump s f b new leak s' f' b' -> only_indirect new ->
     fail_reason s' error -> Q (f', b', inl error) s') ->
  wp (indirect_loop junk cr_uid flags f b lbn pref e rest) Q s.
Proof using Hsync.
  induction rest as [|e2 rest IH]; intros s f b0 pref e T p S0 HL V Ep0 Hp0 Hok Herr; cbn [indirect_loop];
    wp_steps; unfold id; pose proof (HL O e eq_refl) as HT; cbn [take fmap list_fmap] in HT; rewrite app_nil_r in HT;
    pose proof (meta_read s f b0 (in_lbn e) T p (i32 (s_blocksize (geo s))) S0 HT Ep0 Hp0) as R;
    destruct (leads_valid _ _ s f b0 S0 HT) as (HTne & VT & _); destruct (st_nindir _ _ _ _ S0) as [HN _];
    destruct (buf_meta_bread (ip f) (in_lbn e) (i32 (s_blocksize (geo s))) b0) as [[error bp] b] eqn:Er;
    destruct R as [RQ R2]; pose proof (state_quiet s f b0 b RQ S0) as S;
    (assert (forall er, er <> 0 -> er = error -> Q (f, buf_brelse bp b, inl er) s) as Hfail;
     [intros er He ->; eapply (Herr error ∅ 0); [|apply map_Forall_empty|by eapply read_failed];
      apply (grown_refl ump); [done|by eapply quiet_trans; [|apply brelse_quiet]|done..]|]).
  - destruct (Z.eqb_spec error 0) as [->|He]; cbn [negb]; [|wp_steps; by apply Hfail].
    destruct (R2 eq_refl) as (d & -> & Hd & Hlen). cbn [b_data].
    destruct (entry_value s f b0 T (in_off e) p d S0 HTne V Ep0 Hp0 Hd Hlen) as (v & Hv & Ev & _). rewrite Hv. wp_steps.
    rewrite Ev. apply (Hok ∅ s f b [] e); [done|by apply grown_refl|apply map_Forall_empty|].
    exists p, d. cbn [fmap list_fmap]. rewrite app_nil_r, (proj1 RQ). split_and!; try done. by apply leads_lbn.
  - assert (forall i e', (e2 :: rest) !! i = Some e' ->
      leads (in_lbn e') ((T ++ [in_off e]) ++ (in_off <$> take i (e2 :: rest)))) as HL'.
    { intros i e' Hi. rewrite <- app_assoc. apply (HL (Datatypes.S i) e' Hi). }
    assert (valid N (Trail ((T ++ [in_off e]) ++ (in_off <$> e2 :: rest)))) as V' by by rewrite <- app_assoc.
    pose proof (HL' O e2 eq_refl) as HT2. cbn [take fmap list_fmap] in HT2. rewrite app_nil_r in HT2.
    destruct (leads_valid _ _ s f b0 S0 HT2) as (_ & Ve & Ie).
    destruct (Z.eqb_spec error 0) as [->|He]; cbn [negb]; [|wp_steps; by apply Hfail].
    destruct (R2 eq_refl) as (d & -> & Hd & Hlen). clear R2 Hfail. cbn [b_data]. destruct RQ as [RQ _].
    rewrite <- RQ in Ep0, Hd. rename Ep0 into Ep. pose proof (fun s' f' b' new leak => grown_content_l s f b0 b new leak s' f' b' RQ) as Hl.
    destruct (entry_value s f b T (in_off e) p d S HTne Ve Ep Hp0 Hd Hlen) as (v & Hv & Ev & Epv). rewrite Hv. wp_steps.
    rewrite Ev. destruct (Z.eqb_spec v 0) as [->|Hv0]; cbn [negb].
    + (* the block is missing *)
      wp_steps. apply wp_ext2_alloc; [apply S|apply S|apply S|by apply (i32_bsize s f b)| |].
      { intros Hns. wp_steps. eapply (Herr ENOSPC ∅ 0); [|apply map_Forall_empty|done].
        apply Hl, (grown_refl ump); [done|apply brelse_quiet|done..]. }
      rewrite (i32_bsize s f b) by done. intros Hns f1 nb s1 A. cbn [negb Z.eqb]. wp_steps.
      rewrite <- (i32_bsize s f b), (leads_lbn _ _ HN HT2) by done.
      apply (wp_write_indirect _ s f b lbn (T ++ [in_off e]) nb f1 s1); [done..| |].
      * intros b2 [Hz Hother Hcache]. cbn [negb Z.eqb].
        pose proof (link_step s f b lbn nb f1 s1 b2 T (in_off e) p d (in_lbn e) S A HTne Ve Ep Hp0 Hd Hlen Hv Hother
          (fun _ => Hz) ltac:(intros l a Ha; apply Hcache in Ha; destruct (decide (_ /\ _)), (decide (l = _)); tauto)
          (leads_lbn _ _ HN HT)) as G.
        assert (only_indirect {[Trail (T ++ [in_off e]) := nb]}) as On by by apply map_Forall_singleton.
        destruct (new_block_range _ _ _ _ _ _ A) as (Hr & _).
        apply (IH s1 f1 _ _ e2 (T ++ [in_off e]) nb); [apply G|done|done| |lia| |].
        -- rewrite (gr_ptr _ _ _ _ _ _ _ _ _ G) by done. by rewrite lookup_singleton_eq.
        -- intros new s' f' b' init l bp n El G2 On2 AL. eapply (Hok _ s' f' b' (e :: init) l bp n);
             [by rewrite El|by apply Hl, (grown_trans ump _ _ _ _ 0 _ _ _ _ 0 _ _ _ G G2)|by apply map_Forall_union_2|].
           cbn [fmap list_fmap]. by rewrite cons_middle, app_assoc.
        -- intros er new leak s' f' b' G2 On2 Hf. eapply (Herr er);
             [by apply Hl, (grown_trans ump _ _ _ _ 0 _ _ _ _ leak _ _ _ G G2)|by apply map_Forall_union_2|done].
      * intros er b2 s2 He Hio G. rewrite (proj2 (Z.eqb_neq er 0)) by done. cbn [negb]. wp_steps.
        eapply (Herr er ∅ 1); [|apply map_Forall_empty|by split].
        eapply Hl, grown_quiet; [|exact G]. apply brelse_quiet.
    + (* the block is there *)
      pose proof (brelse_quiet (ip f) (mkBuf (in_lbn e) (blkptrtodb ump p) d) b) as Q1.
      assert (content (buf_brelse (mkBuf (in_lbn e) (blkptrtodb ump p) d) b) = content b) as Ec by apply Q1.
      apply (IH s f _ pref e2 (T ++ [in_off e]) v); [by eapply state_quiet|done|done|by rewrite Ec|done| |].
      * intros new s' f' b' init l bp n El G2 On2 AL. eapply (Hok _ s' f' b' (e :: init) l bp n);
          [by rewrite El|by eapply Hl, grown_content_l|done|].
        cbn [fmap list_fmap]. by rewrite cons_middle, app_assoc.
      * intros er new leak s' f' b' G2 On2 Hf. eapply (Herr er); [by eapply Hl, grown_content_l|done|done].
Qed.

(** *** The data block *)

(** What the caller gets: the block at slot [q] is [v], and the buffer, if one is wanted,
    is the block's; it is clear when that is wanted and the block is new. *)
Record served (new : gmap slot Z) (s' : m_ext2fs) (f' : file) (b' : bst) (r : balloc_res) (bn : Z) (q : slot)
    : Prop := {
  sv_error : r_error r = 0;
  sv_block : exists v, ptr b' f' q = Some v /\ v <> 0 /\
    if alloc_buf flags then exists bp, r_bpp r = Some bp /\ b_lblkno bp = bn /\ b_blkno bp = blkptrtodb ump v /\
      (is_Some (new !! q) -> has_flag flags B_CLRBUF = true -> Forall (fun w => w = 0) (b_data bp))
    else r_bpp r = None;
  sv_alloc : is_Some (new !! q) -> r_alloc r = s_blocksize (geo s');
}.

(** The slots of a request: indirect blocks, and the block itself. *)
Definition slots_for (q : slot) (new : gmap slot Z) : Prop := map_Forall (fun q' _ => q' = q \/ indirect q') new.

(** The outcome of a request for the block at slot [q]. *)
Definition outcome_ok (s : m_ext2fs) (f : file) (b : bst) (bn : Z) (q : slot) (res : file * bst * balloc_res)
    (s' : m_ext2fs) : Prop :=
  exists new leak, grown ump s f b new leak s' res.1.1 res.1.2 /\
    ((leak = 0 /\ slots_for q new /\ served new s' res.1.1 res.1.2 res.2 bn q) \/
     (only_indirect new /\ fail_reason s' (r_error res.2) /\ r_bpp res.2 = None)).

Lemma outcome_failed s f b bn q new leak s' f' b' error :
  grown ump s f b new leak s' f' b' -> only_indirect new -> fail_reason s' error ->
  outcome_ok s f b bn q (f', b', failed error) s'.
Proof using. intros G On Hf. exists new, leak. split; [done|right]. done. Qed.

Lemma outcome_trans s f b bn q new s1 f1 b1 res s' :
  grown ump s f b new 0 s1 f1 b1 -> only_indirect new -> ~ indirect q ->
  outcome_ok s1 f1 b1 bn q res s' -> outcome_ok s f b bn q res s'.
Proof using.
  intros G On Hq (n2 & leak & G2 & D). exists (n2 ∪ new), (0 + leak). split; [by eapply grown_trans|].
  destruct D as [(-> & Sl & [V1 V2 V3])|(On2 & D)]; [left|right].
  - assert (new !! q = None) as En.
    { destruct (new !! q) as [x|] eqn:E; [|done]. destruct Hq. by apply (On q x). }
    split; [done|]. split; [apply map_Forall_union_2; [done|]|].
    { intros q' x Hx. right. by apply (On q' x). }
    split; [done| |].
    + destruct V2 as (v & Ev & Hv & Hb). exists v. split; [done|]. split; [done|]. rewrite lookup_union_l; done.
    + by rewrite lookup_union_l.
  - split; [by apply map_Forall_union_2|done].
Qed.

(** The buffer of the block: the one that the caller gets. *)
Lemma data_mapped s f b bn v :
  file_state ump s f b -> file_block N bn -> ptr b f (slot_of N bn) = Some v -> v <> 0 ->
  exists c, ext2_bmaparray ump (content b) (ip f) bn 0 false false ∅ = Some (Mapped (blkptrtodb ump v) 0 0, c) /\
    blkptrtodb ump v <> -1.
Proof using.
  intros S Hbn Ev Hv. destruct (st_nindir _ _ _ _ S) as [HN _]. destruct (tree_sint s f b S) as [S1 S2].
  pose proof (st_tree _ _ _ _ S) as Tr. destruct (slot_of_valid N HN bn Hbn) as [V _].
  pose proof (state_ptr s f b _ v S V Ev) as Hp. cbn beta in Ev. rewrite <- (file_ptr_slot N HN) in Ev by done.
  destruct Hbn as [Hb1 Hb2].
  destruct (bmaparray_ok ump (content b) (ip f) HN (content_length b) (conj (to_db _ _ _ _ Tr) S1)
    (conj (to_ib _ _ _ _ Tr) S2) bn 0 false false ∅ v) as (r1 & r2 & c & E & _ & B1 & B2 & _);
    [done|done|by intros l d' Hl; rewrite lookup_empty in Hl|done|].
  destruct (dev_addr_block s f b v S) as [Ed Hne]; [lia|done|]. exists c. rewrite E, Ed. split; [|done].
  assert (r1 = 0) as -> by lia. by assert (r2 = 0) as -> by lia.
Qed.

(** The buffer that [buf_getblk] gives for the block. *)
Lemma getblk_clear x bn size v b : 4 <= N <= 2 ^ 14 -> 0 <= bn ->
  let '(nbp, b1) := buf_getblk bn size b in
  let bp := buf_setblkno v nbp in
  let bp := if has_flag flags B_CLRBUF then buf_clear bp else bp in
  quiet ump x b b1 /\ b_lblkno bp = bn /\ b_blkno bp = v /\
  (has_flag flags B_CLRBUF = true -> Forall (fun w => w = 0) (b_data bp)).
Proof using H0.
  intros HN Hbn. pose proof (getblk_new bn size b) as G. pose proof (getblk_quiet x bn size b HN Hbn) as GQ.
  destruct (buf_getblk bn size b) as [nbp b1]. destruct G as (_ & _ & G1 & _). cbn in *.
  destruct (has_flag flags B_CLRBUF); cbn; split_and!; try done. intros _. by apply Forall_replicate.
Qed.

(** The block was there. *)
Lemma outcome_existing s f b bn q v f2 b2 r :
  file_state ump s f b -> ptr b f q = Some v -> v <> 0 -> ip f2 = ip f ->
  i_prealloc_block f2 = i_prealloc_block f -> i_prealloc_count f2 = i_prealloc_count f -> i_number f2 = i_number f -> quiet ump (ip f) b b2 ->
  r_error r = 0 ->
  (if alloc_buf flags then exists bp, r_bpp r = Some bp /\ b_lblkno bp = bn /\ b_blkno bp = blkptrtodb ump v
   else r_bpp r = None) ->
  outcome_ok s f b bn q (f2, b2, r) s.
Proof using.
  intros S Ev Hv Ei Ep En Eno Ec He Hb. exists ∅, 0. split; [by apply grown_refl|]. left. split; [done|].
  split; [apply map_Forall_empty|]. split; [done| |rewrite lookup_empty; by intros []].
  exists v. cbn [fst snd]. rewrite Ei, (proj1 Ec). split; [done|]. split; [done|]. destruct (alloc_buf flags); [|done].
  destruct Hb as (bp & ? & ? & ?). exists bp. split_and!; try done. rewrite lookup_empty. by intros [].
Qed.

(** The block is new. *)
Lemma outcome_new s f b bn q nb s1 f1 b1 b2 r :
  grown ump s f b {[q := nb]} 0 s1 f1 b1 -> valid N q -> 0 < nb -> quiet ump (ip f1) b1 b2 ->
  r_error r = 0 -> r_alloc r = s_blocksize (geo s) ->
  (if alloc_buf flags then exists bp, r_bpp r = Some bp /\ b_lblkno bp = bn /\ b_blkno bp = blkptrtodb ump nb /\
     (has_flag flags B_CLRBUF = true -> Forall (fun w => w = 0) (b_data bp)) else r_bpp r = None) ->
  outcome_ok s f b bn q (f1, b2, r) s1.
Proof using.
  intros G V Hnb E2 Hr0 Hra Hrb. destruct (gr_zone _ _ _ _ _ _ _ _ _ G) as [_ Eg].
  exists {[q := nb]}, 0. split; [by eapply grown_quiet|]. left.
  split; [done|]. split; [apply map_Forall_singleton; by left|].
  split; [done| |intros _; cbn [snd]; by rewrite Hra, Eg].
  exists nb. cbn [fst snd]. rewrite (proj1 E2). split; [|split; [lia|]].
  - rewrite (gr_ptr _ _ _ _ _ _ _ _ _ G) by done. by rewrite lookup_singleton_eq.
  - destruct (alloc_buf flags); [|done]. destruct Hrb as (bp & ? & ? & ? & ?). exists bp. auto.
Qed.

Lemma wp_data_block s f b bn T e bp nb :
  file_state ump s f b -> file_block N bn -> at_last s f b T e bp nb -> slot_of N bn = Trail (T ++ [in_off e]) ->
  wp (data_block junk cr_uid flags f b bn e bp nb) (outcome_ok s f b bn (slot_of N bn)) s.
Proof using Hsync.
  intros S Hbn (p & d & HT & Ep & Hp0 & -> & Hd & Hlen & Hv & Hnum) Eq.
  destruct (st_nindir _ _ _ _ S) as [HN _]. destruct (slot_of_valid N HN bn Hbn) as [V Hleaf]. rewrite Eq in V, Hleaf |- *.
  destruct (entry_value s f b T (in_off e) p d S HT V Ep Hp0 Hd Hlen) as (v & Hv' & Ev & Epv).
  assert (v = nb) as -> by congruence. unfold data_block. wp_steps. unfold id.
  destruct (Z.eqb_spec nb 0) as [->|Hnb].
  - wp_steps. apply wp_ext2_alloc; [apply S|apply S|apply S|by apply (i32_bsize s f b)| |].
    { intros Hns. wp_steps. eapply outcome_failed; [|apply map_Forall_empty|done].
      apply (grown_refl ump); [done|apply brelse_quiet|done..]. }
    rewrite (i32_bsize s f b) by done. intros Hns f1 nb s1 A. cbn [negb Z.eqb].
    destruct (ar_zone _ _ _ _ _ _ _ A) as [_ Eg]. destruct (new_block_range _ _ _ _ _ _ A) as (Hr & _).
    pose proof (link_step s f b bn nb f1 s1 b T (in_off e) p d (in_lbn e) S A HT V Ep Hp0 Hd Hlen Hv
      (fun _ _ => eq_refl) (fun I => False_ind _ (Hleaf I))
      ltac:(intros l a Ha; by rewrite decide_False by (intros [I _]; by apply Hleaf)) Hnum) as G.
    set (b1 := update_indirect _ _ _) in *.
    assert (0 < nb) as Hnb by lia. pose proof (fun b2 r => outcome_new s f b bn _ nb s1 f1 b1 b2 r G V Hnb) as Hdone.
    rewrite <- (dev_fsbtodb ump s) by apply S.
    destruct (alloc_buf flags) eqn:Eab; cbn [fst snd]; wp_steps.
    + pose proof (getblk_clear (ip f1) bn (s_blocksize (geo s)) (blkptrtodb ump nb) b1 HN (proj1 (proj1 Hbn))) as Hg.
      destruct (buf_getblk bn (s_blocksize (geo s)) b1) as [nbp b2]. destruct Hg as (G1 & G2 & G3 & G4).
      wp_steps. apply Hdone; [done..|]. by eexists.
    + apply Hdone; [apply quiet_refl|done..].
  - pose proof (brelse_quiet (ip f) (mkBuf (in_lbn e) (blkptrtodb ump p) d) b) as Q1.
    assert (content (buf_brelse (mkBuf (in_lbn e) (blkptrtodb ump p) d) b) = content b) as Ec by apply Q1.
    pose proof Hbn as [[Hb0 _] _].
    set (b1 := buf_brelse _ _) in *. destruct (alloc_buf flags) eqn:Eab.
    2:{ wp_steps. apply (outcome_existing s f b bn _ nb); try done. by rewrite Eab. }
    destruct (has_flag flags B_CLRBUF) eqn:Ecl.
    + destruct (data_mapped s f b bn nb S Hbn) as (c & Em & Hm1); [by rewrite Eq|done|].
      pose proof (bread_maps (ip f) bn (i32 (s_blocksize (geo s))) b1 (blkptrtodb ump nb) c) as R.
      pose proof (bread_quiet (ip f) bn (i32 (s_blocksize (geo s))) b1 HN Hb0) as RQ.
      destruct (buf_bread _ _ _ b1) as [[er nbp] b2] eqn:Er. destruct R as (_ & _ & R2 & R3). rewrite Ec in R3.
      cbn [snd] in RQ. pose proof (quiet_trans _ _ _ _ _ Q1 RQ) as Q2.
      destruct (Z.eqb_spec er 0) as [->|He]; cbn [negb]; wp_steps.
      * apply (outcome_existing s f b bn _ nb); try done. rewrite Eab. exists nbp. split_and!; try done. by apply R3.
      * eapply outcome_failed; [|apply map_Forall_empty|].
        -- apply (grown_refl ump); [done| |done..]. by eapply quiet_trans; [|apply brelse_quiet].
        -- split; [done|]. intros (_ & _ & R). specialize (R (ip f) bn (i32 (s_blocksize (geo s))) b1). by rewrite Er in R.
    + pose proof (getblk_new bn (i32 (s_blocksize (geo s))) b1) as G.
      pose proof (getblk_quiet (ip f) bn (i32 (s_blocksize (geo s))) b1 HN Hb0) as GQ.
      destruct (buf_getblk _ _ b1) as [nbp b2]. destruct G as (_ & _ & G1 & _). cbn [snd] in GQ. wp_steps.
      apply (outcome_existing s f b bn _ nb); [done..|by eapply quiet_trans|done|]. rewrite Eab. eexists. split; [done|].
      cbn. by rewrite (dev_fsbtodb ump s) by apply S.
Qed.

(** *** The direct blocks *)

Lemma fragroundup_block s f b size :
  file_state ump s f b -> 0 <= size <= s_blocksize (geo s) ->
  fragroundup (geo s) size = if size =? 0 then 0 else s_blocksize (geo s).
Proof using.
  intros S Hs. pose proof (wg_bsize _ _ (wf_geometry _ (st_wf _ _ _ _ S))). unfold fragroundup, roundup.
  rewrite (mo_frag _ _ (st_mount _ _ _ _ S)), (uintw_small 64) by lia. set (bs := s_blocksize (geo s)) in *.
  destruct (Z.eqb_spec size 0) as [->|].
  - rewrite Z.div_small by lia. done.
  - assert ((size + (bs - 1)) / bs = 1) as -> by (symmetry; apply (Z.div_unique _ _ _ (size - 1)); lia).
    rewrite Z.mul_1_l. apply sintw_small; lia.
Qed.

Lemma blkoff_mod s f b x :
  file_state ump s f b -> blkoff (geo s) x = x mod s_blocksize (geo s).
Proof using.
  intros S. destruct (mo_pow2 _ _ (st_mount _ _ _ _ S)) as (k & Hk & E). unfold blkoff. rewrite E.
  rewrite <- Z.land_ones by done. by rewrite Z.ones_equiv.
Qed.

Lemma set_db_same i v x : aref (i_db x) i = Some v -> set_db i v x = x.
Proof using.
  unfold aref, set_db. destruct (i <? 0); [done|]. intros E. rewrite list_insert_id by done. by destruct x.
Qed.

(** A block that is there is inside the file, or the file's last block is partial. *)
Definition no_stray (s : m_ext2fs) (f : file) (bn : Z) : Prop :=
  forall p, bn < NDADDR -> aref (i_db (ip f)) bn = Some p -> p <> 0 ->
    (bn + 1) * s_blocksize (geo s) <= i_size (ip f) \/ i_size (ip f) mod s_blocksize (geo s) <> 0.

Lemma bread_failed s ip lbn size b er bp b' :
  buf_bread ip lbn size b = (er, bp, b') -> er <> 0 -> fail_reason s er.
Proof using. intros E He. split; [done|]. intros (_ & _ & R). specialize (R ip lbn size b). by rewrite E in R. Qed.

(** Reading a direct block that is there. *)
Lemma read_direct s f b bn size v f2 alloc :
  file_state ump s f b -> 0 <= bn -> ptr b f (Direct bn) = Some v -> v <> 0 -> alloc_buf flags = true -> ip f2 = ip f ->
  i_prealloc_block f2 = i_prealloc_block f -> i_prealloc_count f2 = i_prealloc_count f -> i_number f2 = i_number f ->
  let '(er, bp, b1) := buf_bread (ip f) bn size b in
  (er <> 0 -> outcome_ok s f b bn (Direct bn) (f, buf_brelse bp b1, failed er) s) /\
  (er = 0 -> outcome_ok s f b bn (Direct bn)
     (f2, b1, mkRes 0 (Some (buf_setblkno (fsbtodb (geo s) v) bp)) alloc) s).
Proof using.
  intros S Hbn Ev Hv Eab E1 E2 E3 E4. destruct (st_nindir _ _ _ _ S) as [HN _].
  pose proof (bread_maps (ip f) bn size b 0 ∅) as R. pose proof (bread_quiet (ip f) bn size b HN Hbn) as RQ.
  destruct (buf_bread _ _ _ b) as [[er bp] b1] eqn:Er. destruct R as (_ & _ & R2 & _). cbn [snd] in RQ. split; intros He.
  - eapply outcome_failed; [|apply map_Forall_empty|by eapply bread_failed].
    apply (grown_refl ump); [done|by eapply quiet_trans; [|apply brelse_quiet]|done..].
  - apply (outcome_existing s f b bn _ v); try done. rewrite Eab. eexists. split; [done|]. cbn.
    by rewrite (dev_fsbtodb ump s) by apply S.
Qed.

Lemma wp_balloc_direct s f b bn size :
  file_state ump s f b -> 0 <= bn < NDADDR -> 0 < size <= s_blocksize (geo s) -> no_stray s f bn ->
  wp (balloc_direct junk cr_uid flags f b bn size) (outcome_ok s f b bn (Direct bn)) s.
Proof using.
  intros S Hbn Hsize Hns. pose proof (st_tree _ _ _ _ S) as Tr. destruct (st_nindir _ _ _ _ S) as [HN _].
  pose proof (wg_bsize _ _ (wf_geometry _ (st_wf _ _ _ _ S))) as Hbs.
  destruct (to_ptr _ _ _ _ Tr (Direct bn)) as (v & Ev & _); [done|]. cbn [slot_ptr] in Ev.
  unfold balloc_direct. wp_steps. unfold id. rewrite Ev. wp_steps. unfold NDADDR in *.
  rewrite (i32_bsize s f b), (uintw_small 64 ((bn + 1) * s_blocksize (geo s))) by (done || nia).
  rewrite (blkoff_mod s f b), !(fragroundup_block s f b) by (done || lia || (pose proof (Z.mod_pos_bound (i_size (ip f)) (s_blocksize (geo s))); lia)).
  rewrite (proj2 (Z.eqb_neq size 0)) by lia.
  destruct (Z.eqb_spec v 0) as [->|Hv]; cbn [negb andb].
  - assert ((if i_size (ip f) <? (bn + 1) * s_blocksize (geo s) then s_blocksize (geo s)
             else s_blocksize (geo s)) = s_blocksize (geo s)) as -> by by destruct (_ <? _).
    wp_steps. apply wp_ext2_alloc; [apply S|apply S|apply S|done| |].
    { intros Hsp. wp_steps. eapply outcome_failed; [by apply grown_refl; [|apply quiet_refl|..]|apply map_Forall_empty|done]. }
    intros Hsp f1 nb s1 A. cbn [negb Z.eqb]. destruct (ar_zone _ _ _ _ _ _ _ A) as [_ Eg].
    destruct (new_block_range _ _ _ _ _ _ A) as (Hr & _ & Hn). destruct (new_ip_fields _ _ _ _ _ _ _ A) as (D1 & D2 & D3).
    assert (grown ump s f b {[Direct bn := nb]} 0 s1
      (set_flag (Z.lor IN_CHANGE IN_UPDATE) (set_ip (set_db bn nb) f1)) b) as G.
    { apply (grown_link ump s f b bn nb f1 s1 S A); cbn; try done.
      - intros q Vq. rewrite <- (link_direct ump (content b) (ip f) (data_blocks s f) bn nb Tr) by done.
        destruct q as [i|t]; cbn; [by rewrite D1|]. destruct t; [done|]. cbn. by rewrite D2.
      - rewrite length_insert, D1. apply Tr.
      - rewrite D2. apply Tr.
      - pose proof (new_block_coherent ump s f b bn nb f1 s1 S A b None (fun _ _ => eq_refl)
          (fun _ _ _ E => E) ltac:(done)) as C. intros [|a t] p c V I Ep Hp Hc; [done|]. by apply (C (a :: t) p). }
    assert (0 < nb) as Hnb by lia. pose proof (fun b2 r => outcome_new s f b bn (Direct bn) nb s1 _ b b2 r G Hbn Hnb) as Hdone.
    destruct (alloc_buf flags) eqn:Eab; wp_steps.
    + pose proof (getblk_clear (ip (set_flag (Z.lor IN_CHANGE IN_UPDATE) (set_ip (set_db bn nb) f1)))
        bn (s_blocksize (geo s)) (fsbtodb (geo s) nb) b HN (proj1 Hbn)) as Hg.
      destruct (buf_getblk bn (s_blocksize (geo s)) b) as [nbp b2]. destruct Hg as (G1 & G2 & G3 & G4).
      wp_steps. apply Hdone; [done..|]. eexists. split; [done|]. split; [done|]. split; [|done].
      rewrite G3. by rewrite (dev_fsbtodb ump s) by apply S.
    + apply Hdone; [apply quiet_refl|done..].
  - destruct (Z.leb_spec ((bn + 1) * s_blocksize (geo s)) (i_size (ip f))).
    + destruct (alloc_buf flags) eqn:Eab.
      * pose proof (read_direct s f b bn (s_blocksize (geo s)) v f 0 S (proj1 Hbn) Ev Hv Eab eq_refl eq_refl eq_refl eq_refl) as R.
        destruct (buf_bread _ _ _ b) as [[er bp] b1]. destruct R as [R1 R2].
        destruct (Z.eqb_spec er 0); cbn [negb]; wp_steps; [by apply R2|by apply R1].
      * wp_steps. apply (outcome_existing s f b bn _ v); try done; by rewrite Eab.
    + destruct (Hns v ltac:(unfold NDADDR; lia) Ev Hv) as [|Hoff]; [lia|]. rewrite (proj2 (Z.eqb_neq _ _) Hoff), Z.leb_refl.
      destruct (alloc_buf flags) eqn:Eab.
      * pose proof (read_direct s f b bn (s_blocksize (geo s)) v
          (set_flag (Z.lor IN_CHANGE IN_UPDATE) (set_ip (set_db bn v) f)) (s_blocksize (geo s)) S (proj1 Hbn) Ev Hv Eab
          (set_db_same _ _ _ Ev) eq_refl eq_refl eq_refl) as R.
        destruct (buf_bread _ _ _ b) as [[er bp] b1]. destruct R as [R1 R2].
        destruct (Z.eqb_spec er 0); cbn [negb]; wp_steps; [by apply R2|by apply R1].
      * wp_steps. apply (outcome_existing s f b bn _ v); try done; by rewrite Eab.
Qed.

(** *** The whole routine *)

Lemma grown_file_l s f0 f b new leak s' f' b' :
  ip f0 = ip f -> i_prealloc_block f0 = i_prealloc_block f -> i_prealloc_count f0 = i_prealloc_count f -> i_number f0 = i_number f ->
  grown ump s f0 b new leak s' f' b' -> grown ump s f b new leak s' f' b'.
Proof using.
  intros Ei Ep En Eno [G1 G2 G3 G4 G5 G6 G7 G8 G9].
  assert (data_blocks s f0 = data_blocks s f) as Ed by (unfold data_blocks, window; by rewrite Ep, En).
  unfold same_attr in G9. rewrite Eno in G9. rewrite Ei in *. rewrite Ed in *. rewrite En in *. by split.
Qed.

Lemma state_file s f0 f b :
  ip f0 = ip f -> i_prealloc_block f0 = i_prealloc_block f -> i_prealloc_count f0 = i_prealloc_count f -> i_number f0 = i_number f ->
  file_state ump s f b -> file_state ump s f0 b.
Proof using. intros Ei Ep En Eno S. apply (gr_state ump s f b ∅ 0 s f0 b), grown_refl; [done|apply quiet_refl|done..]. Qed.

(** The path of a block, entry by entry. *)
Lemma path_leads k x i e :
  1 <= k <= 3 -> 0 <= x < N ^ k -> base N k + x < 2 ^ 31 - 8 -> (path_entry N k x <$> seqZ 1 k) !! i = Some e ->
  leads (in_lbn e) ([k - 1] ++ (in_off <$> take i (path_entry N k x <$> seqZ 1 k))).
Proof using.
  intros Hk Hx Hb He. rewrite list_lookup_fmap in He. destruct (seqZ 1 k !! i) as [t|] eqn:Et; [|done].
  injection He as <-. apply lookup_seqZ in Et as [-> Hi]. exists k, x, (1 + Z.of_nat i).
  split_and!; try done; try lia. by replace (Z.to_nat (1 + Z.of_nat i)) with (Datatypes.S i) by lia.
Qed.

Lemma wp_balloc2 s f b bn size :
  file_state ump s f b -> file_block N bn -> 0 < size <= s_blocksize (geo s) -> no_stray s f bn ->
  wp (ext2_balloc2 junk cr_uid flags ump f b bn size) (outcome_ok s f b bn (slot_of N bn)) s.
Proof using Hsync.
  intros S Hbn Hsize Hns. destruct (st_nindir _ _ _ _ S) as [HN _].
  destruct (slot_of_valid N HN bn Hbn) as [_ Hleaf]. pose proof Hbn as [Hb1 Hb2].
  unfold ext2_balloc2. rewrite (proj2 (Z.ltb_ge bn 0)) by lia. set (f0 := if _ =? _ then _ else _).
  assert (ip f0 = ip f /\ i_prealloc_block f0 = i_prealloc_block f /\ i_prealloc_count f0 = i_prealloc_count f /\ i_number f0 = i_number f)
    as (E1 & E2 & E3 & E4) by (unfold f0; by destruct (_ =? _)).
  clearbody f0. pose proof (state_file s f0 f b E1 E2 E3 E4 S) as S0.
  apply (wp_mono _ (outcome_ok s f0 b bn (slot_of N bn)));
    [|intros res s' (new & leak & G & D); exists new, leak; split; [by eapply grown_file_l|done]].
  assert (no_stray s f0 bn) as Hns0 by (intros p; rewrite E1; apply Hns). clear S Hns E1 E2 E3 E4 f.
  destruct (Z.ltb_spec bn NDADDR) as [Hd|Hd].
  { assert (slot_of N bn = Direct bn) as -> by (unfold slot_of; by rewrite (proj2 (Z.ltb_lt _ _))).
    apply wp_balloc_direct; done || lia. }
  destruct (bn_cases N HN bn) as [|(k & x & Hk & Hx & ->)]; [lia|lia|].
  rewrite (slot_of_data N HN k x) in * by lia. rewrite (getlbns_data N HN k x) by lia.
  destruct (path_offsets_valid N HN k x Hk) as [V _].
  pose proof (path_leads k x) as HL. unfold path_spec in *.
  destruct (path_entry N k x <$> seqZ 1 k) as [|e1 rest] eqn:Epath.
  { apply fmap_nil_inv in Epath. rewrite seqZ_cons in Epath by lia. done. }
  wp_steps. apply (wp_first_indirect _ s f0 b _ (path_head N k) e1); [done|cbn; unfold NIADDR; lia|by apply (HL 0%nat); try done; lia| |].
  2:{ intros er leak s1 f1 b1 pref G Hf. rewrite (proj2 (Z.eqb_neq er 0)) by apply Hf. cbn [negb]. wp_steps.
      eapply outcome_failed; [done|apply map_Forall_empty|done]. }
  intros new1 s1 f1 b1 pref p G1 On1 Ep Hp0. cbn [negb Z.eqb]. wp_steps.
  apply (wp_indirect_loop _ _ rest s1 f1 b1 pref e1 [k - 1] p); [apply G1| |done|done|done| |].
  { intros i e' He'. apply HL; try done. lia. }
  2:{ intros er new2 leak s2 f2 b2 G2 On2 Hf. wp_steps. eapply outcome_failed; [|
        |done]; [by eapply grown_trans|by apply map_Forall_union_2]. }
  intros new2 s2 f2 b2 init l bp nb El G2 On2 AL. eapply wp_mono.
  { assert (List.last (e1 :: rest) e1 = l) as -> by by rewrite El, List.last_last.
    apply (wp_data_block s2 f2 b2 (base N k + x) ([k - 1] ++ (in_off <$> init)) l bp nb); [apply G2|done|done|].
    rewrite (slot_of_data N HN k x) by lia. unfold path_spec. rewrite Epath, El. cbn. by rewrite fmap_app. }
  intros res s' O. rewrite (slot_of_data N HN k x) in O by lia. unfold path_spec in O. rewrite Epath in O.
  apply (outcome_trans s f0 b _ _ (new2 ∪ new1) s2 f2 b2);
    [apply (grown_trans ump _ _ _ _ 0 _ _ _ _ 0 _ _ _ G1 G2)|by apply map_Forall_union_2|done|done].
Qed.
End Steps.

(** ** Properties *)

Section Consequences.
Context (ump : ext2mount) `{BufIOLaws ump} (junk : Z * Z) (cr_uid flags : Z).
Local Abbreviation N := (um_nindir ump).

(** The blocks gained, as a set. *)
Lemma grown_set s f b new leak s' f' b' :
  file_state ump s f b -> grown ump s f b new leak s' f' b' ->
  size (map_img new : gset Z) = size new /\ (map_img new : gset Z) ## data_blocks s f /\
  forall x, owns ump (content b') (ip f') x <-> owns ump (content b) (ip f) x \/ x ∈ (map_img new : gset Z).
Proof.
  intros S G. pose proof (gr_new _ _ _ _ _ _ _ _ _ G) as Hn. pose proof (gr_ptr _ _ _ _ _ _ _ _ _ G) as Hp.
  pose proof (st_tree _ _ _ _ (gr_state _ _ _ _ _ _ _ _ _ G)) as T'. split_and!.
  - apply size_map_img. intros i j x Hi Hj. destruct (Hn i x Hi) as (Vi & _ & Hx & _). destruct (Hn j x Hj) as (Vj & _).
    eapply (to_inj _ _ _ _ T' i j x); [done|done| | |lia]; (etrans; [by apply Hp|]); [by rewrite Hi|by rewrite Hj].
  - intros x Hx Hd. apply elem_of_map_img in Hx as [i Hi]. by destruct (Hn i x Hi) as (_ & _ & _ & _ & ?).
  - intros x. rewrite elem_of_map_img. split.
    + intros (H0x & q & V & E). specialize (Hp q V). cbn in Hp. rewrite E in Hp.
      destruct (new !! q) as [y|] eqn:Eq; [right; exists q; congruence|]. left. split; [done|]. by exists q.
    + intros [(H0x & q & V & E)|[q Hq]].
      * split; [done|]. exists q. split; [done|]. specialize (Hp q V). cbn in Hp.
        destruct (new !! q) as [y|] eqn:Eq; [|congruence]. destruct (Hn q y Eq) as (_ & E0 & _). cbn in E0. congruence.
      * destruct (Hn q x Hq) as (V & _ & Hx & _). split; [lia|]. exists q. split; [done|].
        specialize (Hp q V). cbn in Hp. by rewrite Hq in Hp.
Qed.

(** The mapping of the other blocks, and of the block itself when nothing was stored. *)
Lemma grown_file_ptr s f b new leak s' f' b' bn :
  grown ump s f b new leak s' f' b' -> file_block N bn -> new !! slot_of N bn = None ->
  file_ptr ump (content b') (ip f') bn = file_ptr ump (content b) (ip f) bn.
Proof.
  intros G Hbn En. destruct (st_nindir _ _ _ _ (gr_state _ _ _ _ _ _ _ _ _ G)) as [HN _].
  rewrite !(file_ptr_slot N HN) by done. destruct (slot_of_valid N HN bn Hbn) as [V _].
  pose proof (gr_ptr _ _ _ _ _ _ _ _ _ G _ V) as E. by rewrite En in E.
Qed.

Lemma slots_other s f b new leak s' f' b' bn bn' :
  grown ump s f b new leak s' f' b' -> file_block N bn -> file_block N bn' -> bn' <> bn ->
  slots_for (slot_of N bn) new -> new !! slot_of N bn' = None.
Proof.
  intros G Hbn Hbn' Hne Sl. destruct (st_nindir _ _ _ _ (gr_state _ _ _ _ _ _ _ _ _ G)) as [HN _].
  destruct (new !! slot_of N bn') as [x|] eqn:E; [|done]. destruct (Sl _ _ E) as [Eq|I].
  - by apply (slot_of_inj N HN) in Eq.
  - by destruct (slot_of_valid N HN bn' Hbn') as [_ ?].
Qed.

Lemma indirect_slots new bn : 4 <= N <= 2 ^ 14 -> only_indirect new -> file_block N bn -> new !! slot_of N bn = None.
Proof.
  intros HN On Hbn. destruct (new !! slot_of N bn) as [x|] eqn:E; [|done].
  by destruct (slot_of_valid N HN bn Hbn) as [_ []]; apply (On _ _ E).
Qed.

(** The outcome of a run. *)
Lemma balloc_outcome s f b bn size f' b' r s' :
  sync_ok flags -> file_state ump s f b -> file_block N bn -> 0 < size <= s_blocksize (geo s) -> no_stray s f bn ->
  ext2_balloc2 junk cr_uid flags ump f b bn size s = Ret (f', b', r) s' ->
  outcome_ok ump cr_uid flags s f b bn (slot_of N bn) (f', b', r) s'.
Proof.
  intros Hsy S Hbn Hsize Hns E. pose proof (wp_balloc2 ump junk cr_uid flags Hsy s f b bn size S Hbn Hsize Hns) as W.
  unfold wp in W. by rewrite E in W.
Qed.
End Consequences.

(** C14: A request for a block of a file returns, when no synchronous write fails whose
    error is dropped ([sync_ok]: the request is not synchronous, or the writes succeed; see
    [balloc_sync_error_lost]) and a direct block that is there is inside the file or the
    file's last block is partial ([no_stray]; otherwise it panics, [balloc_stray_panics]).
    When it succeeds, the block map ([ext2_bmaparray]) finds the block afterwards: at the
    address it had, or, if it had none, at that of a block that held no data before; the
    buffer that is returned, when one is wanted, is the one of that block, and it is clear
    when that is wanted and the block is new.  When it fails, there is no buffer, and
    unless the buffers of the kernel failed the reason is ENOSPC: no block is left for the
    caller. *)
Theorem balloc_serves (ump : ext2mount) `{BufIOLaws ump} (junk : Z * Z) (cr_uid flags : Z) s f b bn size :
  sync_ok flags -> file_state ump s f b -> file_block (um_nindir ump) bn -> 0 < size <= s_blocksize (geo s) ->
  no_stray s f bn ->
  exists f' b' r s', ext2_balloc2 junk cr_uid flags ump f b bn size s = Ret (f', b', r) s' /\
    (r_error r = 0 -> exists p v c,
       file_ptr ump (content b) (ip f) bn = Some p /\
       ext2_bmaparray ump (content b') (ip f') bn 0 false false ∅ = Some (Mapped (blkptrtodb ump v) 0 0, c) /\
       v ∈ data_blocks s' f' /\
       (p <> 0 -> v = p) /\ (p = 0 -> v ∉ data_blocks s f /\ r_alloc r = s_blocksize (geo s)) /\
       if alloc_buf flags then exists bp, r_bpp r = Some bp /\ b_lblkno bp = bn /\ b_blkno bp = blkptrtodb ump v /\
         (p = 0 -> has_flag flags B_CLRBUF = true -> Forall (fun w => w = 0) (b_data bp))
       else r_bpp r = None) /\
    (r_error r <> 0 -> r_bpp r = None /\ (io_reliable -> r_error r = ENOSPC /\ no_space s' cr_uid = true)).
Proof.
  intros Hsy S Hbn Hsize Hns.
  destruct (proj1 (wp_run _ _ _) (wp_balloc2 ump junk cr_uid flags Hsy s f b bn size S Hbn Hsize Hns))
    as ([[f' b'] r] & s' & E & new & leak & G & D).
  exists f', b', r, s'. split; [done|]. cbn [fst snd] in *. destruct (st_nindir _ _ _ _ S) as [HN _].
  destruct D as [(-> & Sl & [V1 (v & Ev & Hv & Hb) V3])|(On & [Hne Hr] & Hb)]; [|done].
  split; [intros _|done]. destruct (slot_of_valid _ HN bn Hbn) as [V _].
  pose proof (gr_state _ _ _ _ _ _ _ _ _ G) as S'. destruct (data_mapped ump s' f' b' bn v S' Hbn Ev Hv) as (c & Ec & _).
  destruct (to_ptr _ _ _ _ (st_tree _ _ _ _ S) _ V) as (p & Ep & _). exists p, v, c.
  destruct (to_ptr _ _ _ _ (st_tree _ _ _ _ S') _ V) as (v' & Ev' & Hin). assert (v' = v) as -> by congruence.
  destruct (gr_zone _ _ _ _ _ _ _ _ _ G) as [_ Eg]. rewrite Eg in V3.
  pose proof (gr_ptr _ _ _ _ _ _ _ _ _ G _ V) as Enew. cbn in Enew. rewrite Ev, Ep in Enew.
  assert (p = 0 -> new !! slot_of (um_nindir ump) bn = Some v) as Hp.
  { intros ->. destruct (new !! _) as [x|]; congruence. }
  split; [by rewrite (file_ptr_slot _ HN)|]. split; [done|]. split; [by destruct Hin|]. split_and!.
  - intros Hp0. destruct (new !! _) as [x|] eqn:Ex; [|congruence].
    destruct (gr_new _ _ _ _ _ _ _ _ _ G _ _ Ex) as (_ & E0 & _). cbn in E0. congruence.
  - intros E0. specialize (Hp E0). rewrite Hp in V3. split; [|by apply V3].
    by destruct (gr_new _ _ _ _ _ _ _ _ _ G _ _ Hp) as (_ & _ & _ & _ & ?).
  - destruct (alloc_buf flags); [|done]. destruct Hb as (bp & H1 & H2 & H3 & H4). exists bp. split_and!; try done.
    intros E0. apply H4. by rewrite Hp.
Qed.

(** C15: Whether a request that returns succeeds or fails (with [sync_ok] and [no_stray], as
    in the theorem before), the file system, the file's preallocation window and the tree
    of its blocks stay well-formed, no block is used twice, and every other block of the
    file stays mapped where it was (or a hole); when the request fails the requested block
    does too. *)
Theorem balloc_preserves (ump : ext2mount) `{BufIOLaws ump} (junk : Z * Z) (cr_uid flags : Z) s f b bn size f' b' r s' :
  sync_ok flags -> file_state ump s f b -> file_block (um_nindir ump) bn -> 0 < size <= s_blocksize (geo s) ->
  no_stray s f bn -> ext2_balloc2 junk cr_uid flags ump f b bn size s = Ret (f', b', r) s' ->
  file_state ump s' f' b' /\ i_size (ip f') = i_size (ip f) /\
  (forall bn', file_block (um_nindir ump) bn' -> bn' <> bn \/ r_error r <> 0 ->
     file_ptr ump (content b') (ip f') bn' = file_ptr ump (content b) (ip f) bn').
Proof.
  intros Hsy S Hbn Hsize Hns E. destruct (balloc_outcome ump _ _ _ _ _ _ _ _ _ _ _ _ Hsy S Hbn Hsize Hns E)
    as (new & leak & G & D).
  cbn [fst snd] in *. destruct (st_nindir _ _ _ _ S) as [HN _]. split; [apply G|]. split; [apply G|].
  intros bn' Hbn' Hor. apply (grown_file_ptr ump s f b new leak s' f' b' bn' G Hbn').
  destruct D as [(_ & Sl & [V1 _ _])|(On & _)]; [|by apply indirect_slots].
  apply (slots_other ump s f b new leak s' f' b' bn bn'); try done. by destruct Hor.
Qed.

(** The accounting of a request.  The blocks that become used are exactly those the
    file gains, indirect blocks included, and they held no data before; none is lost when
    the request fails.  The free blocks, counting the window, drop by their number; the
    [i_blocks] of a successful request rise by their size. *)
Theorem balloc_accounts (ump : ext2mount) `{BufIOLaws ump} (junk : Z * Z) (cr_uid flags : Z) s f b bn size f' b' r s' :
  sync_ok flags -> file_state ump s f b -> file_block (um_nindir ump) bn -> 0 < size <= s_blocksize (geo s) ->
  no_stray s f bn -> ext2_balloc2 junk cr_uid flags ump f b bn size s = Ret (f', b', r) s' ->
  exists new : gset Z,
    data_blocks s' f' = data_blocks s f ∪ new /\ new ## data_blocks s f /\
    (forall x, owns ump (content b') (ip f') x <-> owns ump (content b) (ip f) x \/ x ∈ new) /\
    s_free_blocks_count (s_es s') + i_prealloc_count f'
      = s_free_blocks_count (s_es s) + i_prealloc_count f - Z.of_nat (base.size new) /\
    (r_error r = 0 -> i_blocks (ip f')
       = i32 (i_blocks (ip f) + Z.of_nat (base.size new) * btodb (s_blocksize (geo s)) (s_d_blocksize (geo s)))).
Proof.
  intros Hsy S Hbn Hsize Hns E. destruct (balloc_outcome ump _ _ _ _ _ _ _ _ _ _ _ _ Hsy S Hbn Hsize Hns E)
    as (new & leak & G & D).
  cbn [fst snd] in *. destruct (grown_set ump s f b new leak s' f' b' S G) as (E1 & E2 & E3).
  exists (map_img new). rewrite E1. split; [apply G|]. split; [done|]. split; [done|]. split; [apply G|].
  intros He. destruct D as [(-> & _)|(_ & [Hne _] & _)]; [|done]. rewrite (gr_blocks _ _ _ _ _ _ _ _ _ G).
  f_equal. lia.
Qed.

(** A direct block that is there although the file ends before it, at the end of
    another block, makes the routine panic: it takes the request for the growth of a
    fragment.  So the callers may not leave such blocks behind. *)
Theorem balloc_stray_panics (ump : ext2mount) `{BufIOLaws ump} (junk : Z * Z) (cr_uid flags : Z) s f b bn size p :
  file_state ump s f b -> 0 <= bn < NDADDR -> 0 < size <= s_blocksize (geo s) ->
  aref (i_db (ip f)) bn = Some p -> p <> 0 ->
  0 <= i_size (ip f) < (bn + 1) * s_blocksize (geo s) -> i_size (ip f) mod s_blocksize (geo s) = 0 ->
  exists msg, ext2_balloc2 junk cr_uid flags ump f b bn size s = Panic msg.
Proof.
  intros S Hbn Hsize Ep Hp Hlt Hmod. pose proof (wg_bsize _ _ (wf_geometry _ (st_wf _ _ _ _ S))) as Hbs.
  unfold ext2_balloc2. rewrite (proj2 (Z.ltb_ge bn 0)), (proj2 (Z.ltb_lt bn NDADDR)) by lia.
  set (f0 := if _ =? _ then _ else _). assert (ip f0 = ip f) as E0 by (unfold f0; by destruct (_ =? _)).
  clearbody f0. unfold balloc_direct. rewrite (bind_run _ _ _ s s) by by apply wp_gets.
  unfold id. rewrite E0, Ep. unfold NDADDR in Hbn. rewrite (uintw_small 64) by nia.
  rewrite (blkoff_mod ump s f b), Hmod, !(fragroundup_block ump s f b) by (done || lia).
  unfold mbind, kern_bind, access. rewrite (proj2 (Z.eqb_neq p 0)), (proj2 (Z.leb_gt _ (i_size (ip f)))) by lia.
  cbn [negb andb]. rewrite (proj2 (Z.eqb_neq size 0)) by lia. cbn [Z.eqb].
  rewrite (proj2 (Z.leb_gt _ 0)) by lia. by eexists.
Qed.

(** ** Examples *)

Lemma empty_tree_ptr ump disk x q :
  i_db x = replicate 12 0 -> i_ib x = replicate 3 0 -> valid (um_nindir ump) q -> slot_ptr ump disk x q = Some 0.
Proof.
  intros Ed Ei. revert q. assert (forall n i, 0 <= i < Z.of_nat n -> aref (replicate n 0) i = Some 0) as Ha.
  { intros n i Hi. unfold aref. rewrite (proj2 (Z.ltb_ge i 0)) by lia. apply lookup_replicate_2. lia. }
  intros [i|[|a ap]]; cbn; [rewrite Ed; apply (Ha 12%nat)|done|]. intros (Hv & _). rewrite Ei, (Ha 3%nat) by done.
  clear. induction ap as [|o ap IH]; [done|]. by cbn.
Qed.

Lemma empty_tree_ok ump disk x U :
  i_db x = replicate 12 0 -> i_ib x = replicate 3 0 -> tree_ok ump disk x U.
Proof.
  intros Ed Ei. pose proof (fun q => empty_tree_ptr ump disk x q Ed Ei) as E0.
  split; [by rewrite Ed|by rewrite Ei|intros q Hq; exists 0; auto|].
  intros q1 q2 p V1 _ E1 _ Hp. rewrite E0 in E1 by done. congruence.
Qed.

Definition small_mount : ext2mount := mkMount 8 0 1.
Definition no_bad : Z -> bool := fun _ => false.

Lemma example_file_state :
  @file_state small_mount (mem_io small_mount no_bad no_bad) (mem_io_laws small_mount no_bad no_bad) example_fs example_file empty_mem.
Proof.
  split; [exact example_fs_wf|reflexivity| |apply example_file_ok|by apply empty_tree_ok|unfold is_sint; cbn; lia| |].
  2:{ intros q p V E Hp. by rewrite empty_tree_ptr in E; simplify_eq. }
  2:{ intros q p a V I E Hp. change (slot_ptr small_mount (mem_content small_mount empty_mem) (ip example_file) (Trail q) = Some p) in E.
      by rewrite empty_tree_ptr in E; simplify_eq. }
  split; [reflexivity|reflexivity|reflexivity|]. exists 5. split; [lia|reflexivity].
Qed.

(** A request for the first block behind the direct ones; it needs an indirect block. *)
Definition example_balloc (flags : Z) :=
  @ext2_balloc2 (mem_io small_mount no_bad no_bad) (0, 0) 0 flags small_mount example_file empty_mem 12 32 example_fs.

Lemma balloc_serves_witness :
  exists f' b' r s', example_balloc B_CLRBUF = Ret (f', b', r) s' /\ r_error r = 0 /\ exists v c,
    ext2_bmaparray small_mount (mem_content small_mount b') (ip f') 12 0 false false ∅
      = Some (Mapped (blkptrtodb small_mount v) 0 0, c) /\ v ∈ data_blocks s' f'.
Proof.
  destruct (@balloc_serves small_mount (mem_io small_mount no_bad no_bad) (mem_io_laws small_mount no_bad no_bad) (0, 0) 0 B_CLRBUF
    example_fs example_file empty_mem 12 32 (or_introl eq_refl) example_file_state ltac:(vm_compute; split; [split; congruence|done])
    ltac:(vm_compute; split; congruence) ltac:(intros p Hp; vm_compute in Hp; discriminate))
    as (f' & b' & r & s' & E & Hok & _).
  exists f', b', r, s'. split; [exact E|]. assert (r_error r = 0) as Er.
  { vm_compute in E. injection E as _ _ <- _. reflexivity. }
  split; [exact Er|]. destruct (Hok Er) as (p & v & c & _ & Ec & Hv & _). exists v, c. split; [exact Ec|exact Hv].
Defined.

Lemma example_block_12 : file_block (um_nindir small_mount) 12.
Proof. vm_compute. split; [split; congruence|done]. Qed.

Lemma example_no_stray bn : no_stray example_fs example_file bn.
Proof.
  intros p _ Hp Hne. unfold aref in Hp. destruct (bn <? 0); [done|].
  change (i_db (ip example_file)) with (replicate 12 0) in Hp. apply lookup_replicate in Hp as [-> _]. done.
Qed.

Lemma balloc_preserves_witness :
  exists f' b' r s', example_balloc 0 = Ret (f', b', r) s' /\
    @file_state small_mount (mem_io small_mount no_bad no_bad) (mem_io_laws small_mount no_bad no_bad) s' f' b' /\
    file_ptr small_mount (mem_content small_mount b') (ip f') 13
      = file_ptr small_mount (mem_content small_mount empty_mem) (ip example_file) 13.
Proof.
  destruct (example_balloc 0) as [[[f' b'] r] s'| | |] eqn:E; [|vm_compute in E; discriminate E..].
  exists f', b', r, s'. split; [reflexivity|].
  destruct (@balloc_preserves small_mount (mem_io small_mount no_bad no_bad) (mem_io_laws small_mount no_bad no_bad) (0, 0) 0 0
    example_fs example_file empty_mem 12 32 f' b' r s' (or_introl eq_refl) example_file_state example_block_12
    ltac:(vm_compute; split; congruence) (example_no_stray 12) E) as (S' & _ & Hp).
  split; [exact S'|]. apply (Hp 13); [vm_compute; split; [split; congruence|done]|left; congruence].
Defined.

Lemma balloc_accounts_witness :
  exists f' b' r s' (new : gset Z), example_balloc 0 = Ret (f', b', r) s' /\
    data_blocks s' f' = data_blocks example_fs example_file ∪ new /\ base.size new = 2%nat.
Proof.
  destruct (example_balloc 0) as [[[f' b'] r] s'| | |] eqn:E; [|vm_compute in E; discriminate E..].
  destruct (@balloc_accounts small_mount (mem_io small_mount no_bad no_bad) (mem_io_laws small_mount no_bad no_bad) (0, 0) 0 0
    example_fs example_file empty_mem 12 32 f' b' r s' (or_introl eq_refl) example_file_state example_block_12
    ltac:(vm_compute; split; congruence) (example_no_stray 12) E) as (new & E1 & _ & _ & E2 & _).
  exists f', b', r, s', new. split; [reflexivity|]. split; [exact E1|].
  assert (s_free_blocks_count (s_es s') + i_prealloc_count f' = 85) as E3
    by (vm_compute in E; injection E as <- _ _ <-; reflexivity).
  rewrite E3 in E2. change (s_free_blocks_count (s_es example_fs) + i_prealloc_count example_file) with 87 in E2. lia.
Defined.

(** The same request twice, without the size of the file being changed in between. *)
Lemma balloc_stray_panics_witness :
  exists f' b' r s' msg,
    @ext2_balloc2 (mem_io small_mount no_bad no_bad) (0, 0) 0 0 small_mount example_file empty_mem 0 32 example_fs = Ret (f', b', r) s' /\
    @ext2_balloc2 (mem_io small_mount no_bad no_bad) (0, 0) 0 0 small_mount f' b' 0 32 s' = Panic msg.
Proof.
  destruct (@ext2_balloc2 (mem_io small_mount no_bad no_bad) (0, 0) 0 0 small_mount example_file empty_mem 0 32 example_fs)
    as [[[f' b'] r] s'| | |] eqn:E; [|vm_compute in E; discriminate E..].
  destruct (@balloc_outcome small_mount (mem_io small_mount no_bad no_bad) (mem_io_laws small_mount no_bad no_bad) (0, 0) 0 0
    example_fs example_file empty_mem 0 32 f' b' r s' (or_introl eq_refl) example_file_state
    ltac:(vm_compute; split; [split; congruence|done]) ltac:(vm_compute; split; congruence) (example_no_stray 0) E)
    as (new & leak & G & _).
  cbn [fst snd] in G.
  assert (aref (i_db (ip f')) 0 = Some 7 /\ i_size (ip f') = 0 /\ s_blocksize (geo s') = 32) as (Ep & Es & Eb)
    by (vm_compute in E; injection E as <- _ _ <-; vm_compute; done).
  destruct (@balloc_stray_panics small_mount (mem_io small_mount no_bad no_bad) (mem_io_laws small_mount no_bad no_bad) (0, 0) 0 0
    s' f' b' 0 32 7 (gr_state _ _ _ _ _ _ _ _ _ G)) as [msg Em];
    [unfold NDADDR; lia|lia|exact Ep|lia|lia|rewrite Es; reflexivity|].
  exists f', b', r, s', msg. split; [reflexivity|exact Em].
Defined.

(** ** Errors that are mishandled *)

(** The address of the block whose write fails. *)
Definition bad_block (a : Z) : Z -> bool := fun a' => a' =? a.

(** A file with an empty indirect block 50. *)
Definition indirect_file : file :=
  set_ip (set_ib 0 50) example_file.

(** An error of a synchronous write is lost: with [B_SYNC], when the write of the
    indirect block that was to get the pointer fails, the request succeeds; yet the block
    map still finds a hole, and the block that was taken is not the file's. *)
Theorem balloc_sync_error_lost :
  exists f' b' r s' c,
    @ext2_balloc2 (mem_io small_mount no_bad (bad_block 50)) (0, 0) 0 B_SYNC small_mount indirect_file
      (mkMem {[50 := replicate 8 0]} ∅) 12 32 example_fs = Ret (f', b', r) s' /\
    r_error r = 0 /\ s_free_blocks_count (s_es s') + i_prealloc_count f' = s_free_blocks_count (s_es example_fs) - 1 /\
    ext2_bmaparray small_mount (mem_content small_mount b') (ip f') 12 0 false false ∅ = Some (Mapped (-1) 0 0, c).
Proof.
  destruct (@ext2_balloc2 (mem_io small_mount no_bad (bad_block 50)) (0, 0) 0 B_SYNC small_mount indirect_file
    (mkMem {[50 := replicate 8 0]} ∅) 12 32 example_fs) as [[[f' b'] r] s'| | |] eqn:E; [|vm_compute in E; discriminate E..].
  vm_compute in E. injection E as <- <- <- <-. do 5 eexists. split; [reflexivity|].
  split; [reflexivity|]. split; [reflexivity|]. vm_compute. reflexivity.
Qed.

(** [example_fs] on a device with blocks of 16 bytes. *)
Definition fine_fs : m_ext2fs :=
  mkFs (mkGeo 32 64 16 2 2 32 16 0) (s_es example_fs) (s_group_desc example_fs) ∅ (s_block_cache example_fs)
    (s_inode_cache example_fs) false 2 false (dev example_fs) ∅.

(** When a new indirect block cannot be written, it is freed, but it stays counted in
    the [i_blocks] of the file, which has no block. *)
Theorem balloc_write_error_counts :
  exists f' b' r s',
    @ext2_balloc2 (mem_io small_mount no_bad (fun _ => true)) (0, 0) 0 0 small_mount example_file empty_mem 12 32 fine_fs
      = Ret (f', b', r) s' /\
    r_error r = EIO /\ s_free_blocks_count (s_es s') + i_prealloc_count f' = s_free_blocks_count (s_es fine_fs) /\
    i_ib (ip f') = i_ib (ip example_file) /\ i_db (ip f') = i_db (ip example_file) /\
    i_blocks (ip f') = i_blocks (ip example_file) + 2.
Proof.
  destruct (@ext2_balloc2 (mem_io small_mount no_bad (fun _ => true)) (0, 0) 0 0 small_mount example_file empty_mem 12 32 fine_fs)
    as [[[f' b'] r] s'| | |] eqn:E; [|vm_compute in E; discriminate E..].
  vm_compute in E. injection E as <- <- <- <-. do 4 eexists. split; [reflexivity|]. split_and!; reflexivity.
Qed.
