(* ===== verification/Truncate.v ===== *)
(** * Truncation and inode update (src/src/gnu/ext2fs/ext2_inode.c)

    [ext2_truncate] changes the size of a file and gives the blocks behind the new end
    back, with [ext2_indirtrunc] for those below an indirect block; [ext2_update] writes
    the inode to the inode table; [ext2_inactive] is called when the last reference to a
    vnode is gone and removes files without links.  The lock of the inode is not
    modelled. *)

From S2P Require Import Prelude Bitops Fs Balloc Inode Ialloc Alloc Bmap Blktree Bufio Fballoc.

(** ** The inode and its vnode *)

Definition IN_ACCESS : Z := 1.
Definition IN_MODIFIED : Z := 8.
Definition IN_LAZYMOD : Z := 0x40.
Definition EXT2_NOATIME_FL : Z := 0x80.
(** <sys/vnode.h> *)
Definition IO_SYNC : Z := 4.

Inductive vtype := VREG | VDIR | VBLK | VCHR | VLNK | VSOCK | VFIFO.

#[export] Instance vtype_eq_dec : EqDecision vtype.
Proof. solve_decision. Defined.

(** What the kernel knows about the vnode and its mount: the type, whether the mount is
    read-only or asynchronous, whether the file has a page cache, the length up to which
    a symbolic link is kept in the inode, and whether writes are suspended. *)
Record vnode := mkVnode {
  v_type : vtype;
  v_rdonly : bool;
  v_async : bool;
  v_ubc : bool;
  v_maxsymlen : Z;
  v_suspended : bool;
}.

Definition clear_flag (m : Z) (x : file) : file :=
  mkFile (ip x) (i_number x) (Z.land (i_flag x) (u32 (Z.lnot m))) (i_block_group x) (i_next_alloc_block x)
    (i_next_alloc_goal x) (i_prealloc_block x) (i_prealloc_count x).
Definition set_size (n : Z) (i : inode) : inode :=
  mkInode (i_mode i) (i_nlink i) n (i_atime i) (i_mtime i) (i_ctime i) (i_db i) (i_ib i)
    (i_flags i) (i_blocks i) (i_gen i) (i_uid i) (i_gid i) (i_e2flags i).
(** The block pointers [i_db] and [i_ib]. *)
Definition set_blks (db ib : list Z) (i : inode) : inode :=
  mkInode (i_mode i) (i_nlink i) (i_size i) (i_atime i) (i_mtime i) (i_ctime i) db ib
    (i_flags i) (i_blocks i) (i_gen i) (i_uid i) (i_gid i) (i_e2flags i).
Definition set_times (atime mtime ctime : Z) (i : inode) : inode :=
  mkInode (i_mode i) (i_nlink i) (i_size i) atime mtime ctime (i_db i) (i_ib i)
    (i_flags i) (i_blocks i) (i_gen i) (i_uid i) (i_gid i) (i_e2flags i).

(** ** Sizes in blocks *)

(** [lblkno]: [s_bshift] is the logarithm of the block size. *)
Definition lblkno (g : geometry) (loc : Z) : Z := Z.shiftr loc (Z.log2 (s_blocksize g)).
Definition numfrags (g : geometry) (loc : Z) : Z := Z.shiftr loc (Z.log2 (s_blocksize g)).
Definition blksize (g : geometry) : Z := e2fs_fsize g.
(** [NINDIR], the number of pointers in a block. *)
Definition NINDIR (g : geometry) : Z := s_blocksize g / 4.

(** [s_maxfilesize] as the mount sets it. *)
Definition s_maxfilesize (g : geometry) : Z :=
  let bs := s_blocksize g in
  let addrs_per_block := bs / 4 in
  12 * bs + addrs_per_block * bs + addrs_per_block * addrs_per_block * bs
  + addrs_per_block * addrs_per_block * addrs_per_block * bs.

(** ** The inode table *)

(** The inode table on the device, by address, with the superblock fields that writing an
    inode changes; a block that is not there cannot be read. *)
Record itable := mkItable { it_blocks : gmap Z (list ext2_inode); it_sb : sb_features }.

Definition e2fs_ipb (g : geometry) : Z := s_blocksize g / 128.
Definition ino_to_cg (g : geometry) (x : Z) : Z := u32 (x - 1) / e2fs_ipg g.
Definition ino_to_fsba (g : geometry) (gd : group_desc) (x : Z) : Z :=
  u64 (bg_inode_table gd + u32 (x - 1) mod e2fs_ipg g / e2fs_ipb g).
Definition ino_to_fsbo (g : geometry) (x : Z) : Z := u32 (x - 1) mod e2fs_ipb g.

(** [bzero] of the [n] bytes from byte [off] on, in little-endian 32-bit words: in each
    word the bits between two byte boundaries are cleared. *)
Definition zero_bytes (off n : Z) (l : list Z) : list Z :=
  let bits x w := Z.max 0 (Z.min 32 (8 * (x - 4 * Z.of_nat w))) in
  imap (fun w v => i32 (v - v mod 2 ^ bits (off + n) w + v mod 2 ^ bits off w)) l.
(** The words from index [n] on are zeroed; they must exist. *)
Definition zero_from (n : Z) (d : list Z) : option (list Z) :=
  if (0 <=? n) && (n <=? Z.of_nat (length d))
  then Some (take (Z.to_nat n) d ++ replicate (length d - Z.to_nat n) 0) else None.

Section Truncate.
(** The time in seconds, the [chflags] bits, the mount option for 16-bit ids, and the
    addresses of the inode table that cannot be written. *)
Context (now APPEND IMMUTABLE : Z) (no_uid32 : bool) (it_bad : Z -> bool).

(** [ext2_itimes]. *)
Definition ext2_itimes (v : vnode) (f : file) : file :=
  let f := if has_flag (i_e2flags (ip f)) EXT2_NOATIME_FL then clear_flag IN_ACCESS f else f in
  if Z.land (i_flag f) (Z.lor IN_ACCESS (Z.lor IN_CHANGE IN_UPDATE)) =? 0 then f
  else
    let f := match v_type v with
             | VBLK | VCHR => set_flag IN_LAZYMOD f
             | _ => set_flag IN_MODIFIED f
             end in
    let f := if v_rdonly v then f
             else set_ip (fun i => set_times
                    (if has_flag (i_flag f) IN_ACCESS then now else i_atime i)
                    (if has_flag (i_flag f) IN_UPDATE then now else i_mtime i)
                    (if has_flag (i_flag f) IN_CHANGE then now else i_ctime i) i) f in
    clear_flag (Z.lor IN_ACCESS (Z.lor IN_CHANGE IN_UPDATE)) f.

(** [ext2_update]: the inode, the table and the error. *)
Definition ext2_update (v : vnode) (f : file) (t : itable) (waitfor : bool) : FS (file * itable * Z) :=
  if v_rdonly v then mret (f, t, 0)
  else
    let f := ext2_itimes v f in
    if negb (has_flag (i_flag f) IN_MODIFIED) then mret (f, t, 0)
    else
      s ← gets id;
      gd ← access (gd_lookup s (gdp_of (geo s) (ino_to_cg (geo s) (i_number f))));
      let a := u64 (Z.shiftl (ino_to_fsba (geo s) gd (i_number f)) (s_fsbtodb (geo s))) in
      match it_blocks t !! a with
      | None => mret (f, t, EIO)
      | Some blk =>
          let o := Z.to_nat (ino_to_fsbo (geo s) (i_number f)) in
          ei ← access (blk !! o);
          let '(ei, i, sb) := ext2_i2ei APPEND IMMUTABLE no_uid32 (ip f) ei (it_sb t) in
          let f := clear_flag (Z.lor IN_LAZYMOD IN_MODIFIED) (set_ip (fun _ => i) f) in
          let done := mkItable (<[a := <[o := ei]> blk]> (it_blocks t)) sb in
          if waitfor && negb (v_async v) then
            if it_bad a then mret (f, mkItable (it_blocks t) sb, EIO) else mret (f, done, 0)
          else mret (f, done, 0)
      end.

(** ** [ext2_indirtrunc] *)

Section Indirtrunc.
Context `{BufIO}.

(** The loop over the entries [copy] of an indirect block, from entry [last + n] down to
    [last + 1]; [nlbn] is the logical number that belongs to the entry, and [rec] frees
    what is below an indirect block.  Returns [nlbn] for entry [last] too. *)
Fixpoint free_entries (rec : option (bst -> Z -> Z -> Z -> FS (bst * Z * Z))) (copy : list Z) (last factor : Z)
    (n : nat) (b : bst) (nlbn released allerror : Z) : FS (bst * Z * Z * Z) :=
  match n with
  | O => mret (b, nlbn, released, allerror)
  | S n =>
      nb ← access (aref copy (last + 1 + Z.of_nat n));
      let nb := i32 nb in
      if nb =? 0 then free_entries rec copy last factor n b (i32 (nlbn + factor)) released allerror
      else
        s ← gets id;
        '(b, released, allerror) ←
          (match rec with
           | Some indirtrunc =>
               '(b, error, blkcount) ← indirtrunc b nlbn (-1) (fsbtodb (geo s) nb);
               mret (b, i32 (released + blkcount), if error =? 0 then allerror else error)
           | None => mret (b, released, allerror)
           end);
        ext2_blkfree nb (s_blocksize (geo s));;
        let nblocks := i32 (btodb (s_blocksize (geo s)) (s_d_blocksize (geo s))) in
        free_entries rec copy last factor n b (i32 (nlbn + factor)) (i32 (released + nblocks)) allerror
  end.

(** One level; [rec] is the level below.  Returns the error and [*countp]. *)
Definition indirtrunc_level (rec : option (bst -> Z -> Z -> Z -> FS (bst * Z * Z))) (level : nat)
    (b : bst) (lbn lastbn dbn : Z) : FS (bst * Z * Z) :=
  s ← gets id;
  let nindir := NINDIR (geo s) in
  let factor := nindir ^ Z.of_nat level in
  let last := if 0 <? lastbn then lastbn / factor else lastbn in
  let '(bp, b) := buf_getblk lbn (s_blocksize (geo s)) b in
  let '(error, bp, b) := if buf_valid bp b then (0, bp, b) else buf_strategy (buf_setblkno dbn bp) b in
  if negb (error =? 0) then mret (buf_brelse bp b, error, 0)
  else
    let copy := b_data bp in
    d ← access (zero_from (last + 1) (b_data bp));
    let bp := buf_setdata d bp in
    let b := if last =? -1 then buf_markinvalid bp b else b in
    let '(error, b) := buf_bwrite bp b in
    '(b, nlbn, released, allerror) ←
      free_entries rec copy last factor (Z.to_nat (nindir - 1 - last)) b
        (i32 (lbn + 1 - (nindir - 1) * factor)) 0 error;
    match rec with
    | Some indirtrunc =>
        if 0 <=? lastbn then
          nb ← access (aref copy last);
          let nb := i32 nb in
          if nb =? 0 then mret (b, allerror, released)
          else
            '(b, error, blkcount) ← indirtrunc b nlbn (lastbn mod factor) (fsbtodb (geo s) nb);
            mret (b, if error =? 0 then allerror else error, i32 (released + blkcount))
        else mret (b, allerror, released)
    | None => mret (b, allerror, released)
    end.

(** [level] is SINGLE (0), DOUBLE or TRIPLE. *)
Fixpoint ext2_indirtrunc (level : nat) : bst -> Z -> Z -> Z -> FS (bst * Z * Z) :=
  indirtrunc_level (match level with O => None | S level => Some (ext2_indirtrunc level) end) level.

(** ** [ext2_truncate] *)

(** The part of [ext2_truncate] that lengthens the file. *)
Definition truncate_lengthen (junk : Z * Z) (cr_uid : Z) (ump : ext2mount) (v : vnode) (f : file) (b : bst) (t : itable)
    (length flags : Z) : FS (file * bst * itable * Z) :=
  s ← gets id;
  let offset := blkoff (geo s) (length - 1) in
  let lbn := i32 (lblkno (geo s) (length - 1)) in
  let aflags := if has_flag flags IO_SYNC then Z.lor B_CLRBUF B_SYNC else B_CLRBUF in
  '(f, b, (error, bp)) ← ext2_balloc junk cr_uid aflags ump f b lbn (offset + 1);
  if negb (error =? 0) then mret (f, b, t, error)
  else
    bp ← access bp;
    let f := set_flag (Z.lor IN_CHANGE IN_UPDATE) (set_ip (set_size length) f) in
    let b := if v_ubc v then ubc_setsize length (buf_bwrite bp (buf_markinvalid bp b)).2
             else if has_flag aflags B_SYNC then (buf_bwrite bp b).2 else buf_bawrite bp b in
    '(f, t, error) ← ext2_update v f t true;
    mret (f, b, t, error).

(** The end of the last block that stays is cleared when the new size is not a multiple of
    the block size; the error is that of [ext2_balloc]. *)
Definition truncate_tail (junk : Z * Z) (cr_uid : Z) (ump : ext2mount) (v : vnode) (f : file) (b : bst) (length flags : Z)
    : FS (file * bst * Z) :=
  s ← gets id;
  let offset := blkoff (geo s) length in
  if offset =? 0 then mret (set_ip (set_size length) f, b, 0)
  else
    let lbn := i32 (lblkno (geo s) length) in
    let aflags := if has_flag flags IO_SYNC then Z.lor B_CLRBUF B_SYNC else B_CLRBUF in
    '(f, b, (error, bp)) ← ext2_balloc junk cr_uid aflags ump f b lbn offset;
    if negb (error =? 0) then mret (f, b, error)
    else
      bp ← access bp;
      let f := set_ip (set_size length) f in
      let bp := buf_setdata (zero_bytes offset (u32 (blksize (geo s) - offset)) (b_data bp)) bp in
      let b := if v_ubc v then (buf_bwrite bp (buf_markinvalid bp b)).2
               else if has_flag aflags B_SYNC then (buf_bwrite bp b).2 else buf_bawrite bp b in
      mret (f, b, 0).

(** [lastiblock] for SINGLE, DOUBLE and TRIPLE. *)
Definition lastiblock (g : geometry) (lastblock : Z) : list Z :=
  let single := i32 (lastblock - NDADDR) in
  let double := i32 (single - NINDIR g) in
  [single; double; i32 (double - NINDIR g * NINDIR g)].

(** [indir_lbn], the logical numbers of the indirect blocks in [i_ib]. *)
Definition indir_lbn (g : geometry) : list Z :=
  let single := - NDADDR in
  let double := i32 (single - NINDIR g - 1) in
  [single; double; i32 (double - NINDIR g * NINDIR g - 1)].

(** The pointers that are kept. *)
Definition kept_ib (lasti ib : list Z) : list Z := zip_with (fun last p => if last <? 0 then 0 else p) lasti ib.
Definition kept_db (lastblock : Z) (db : list Z) : list Z :=
  imap (fun i p => if lastblock <? Z.of_nat i then 0 else p) db.

(** The loop over the indirect blocks of the inode; [levels] are those that are left.
    The last result tells whether the loop ended with [goto done]. *)
Fixpoint truncate_levels (lasti lbns : list Z) (levels : list nat) (f : file) (b : bst) (released allerror : Z)
    : FS (file * bst * Z * Z * bool) :=
  match levels with
  | [] => mret (f, b, released, allerror, false)
  | level :: levels =>
      s ← gets id;
      bn ← access (i_ib (ip f) !! level);
      last ← access (lasti !! level);
      lbn ← access (lbns !! level);
      '(f, b, released, allerror) ←
        (if bn =? 0 then mret (f, b, released, allerror)
         else
           '(b, error, count) ← ext2_indirtrunc level b lbn last (fsbtodb (geo s) bn);
           let allerror := if error =? 0 then allerror else error in
           if last <? 0 then
             ext2_blkfree bn (e2fs_fsize (geo s));;
             let nblocks := btodb (s_blocksize (geo s)) (s_d_blocksize (geo s)) in
             mret (set_ip (set_ib (Z.of_nat level) 0) f, b, released + count + nblocks, allerror)
           else mret (f, b, released + count, allerror));
      if 0 <=? last then mret (f, b, released, allerror, true)
      else truncate_levels lasti lbns levels f b released allerror
  end.

(** The loop over the direct blocks [n - 1] down to [lastblock + 1]. *)
Fixpoint truncate_direct (lastblock : Z) (n : nat) (f : file) (released : Z) : FS (file * Z) :=
  match n with
  | O => mret (f, released)
  | S i =>
      if Z.of_nat i <=? lastblock then mret (f, released)
      else
        bn ← access (i_db (ip f) !! i);
        if bn =? 0 then truncate_direct lastblock i f released
        else
          s ← gets id;
          let bsize := blksize (geo s) in
          ext2_blkfree bn bsize;;
          truncate_direct lastblock i (set_ip (set_db (Z.of_nat i) 0) f) (released + btodb bsize (s_d_blocksize (geo s)))
  end.

(** The fragment of the last direct block; blocks have one fragment, so nothing is freed. *)
Definition truncate_frag (lastblock length : Z) (f : file) (released : Z) : FS (file * Z) :=
  if lastblock <? 0 then mret (f, released)
  else
    bn ← access (aref (i_db (ip f)) lastblock);
    if bn =? 0 then mret (f, released)
    else
      s ← gets id;
      let oldspace := blksize (geo s) in
      let f := set_ip (set_size length) f in
      let newspace := blksize (geo s) in
      if newspace =? 0 then panic "ext2_itrunc: newspace"
      else if 0 <? oldspace - newspace then
        ext2_blkfree (i32 (bn + numfrags (geo s) newspace)) (oldspace - newspace);;
        mret (f, released + btodb (oldspace - newspace) (s_d_blocksize (geo s)))
      else mret (f, released).

(** Freeing the blocks behind the end, from the calculation of [lastblock] on; [osize] is
    the old size. *)
Definition truncate_free (v : vnode) (f : file) (b : bst) (t : itable) (length osize : Z)
    : FS (file * bst * itable * Z) :=
  s ← gets id;
  let lastblock := i32 (lblkno (geo s) (length + s_blocksize (geo s) - 1) - 1) in
  let lasti := lastiblock (geo s) lastblock in
  let '(olddb, oldib) := (i_db (ip f), i_ib (ip f)) in
  let f := set_ip (set_blks (kept_db lastblock olddb) (kept_ib lasti oldib)) f in
  let lasti := (fun last => if last <? 0 then -1 else last) <$> lasti in
  '(f, t, _) ← ext2_update v (set_flag (Z.lor IN_CHANGE IN_UPDATE) f) t true;
  let f := set_ip (fun i => set_size osize (set_blks olddb oldib i)) f in
  let '(allerror, b) := buf_invalidateblks (0 <? length) b in
  '(f, b, released, allerror, done) ← truncate_levels lasti (indir_lbn (geo s)) [2; 1; 0]%nat f b 0 allerror;
  '(f, released) ←
    (if done : bool then mret (f, released)
     else
       '(f, released) ← truncate_direct lastblock 12 f released;
       truncate_frag lastblock length f released);
  let n := i32 (i_blocks (ip f) - released) in
  let f := set_ip (fun i => set_blocks (if n <? 0 then 0 else n) (set_size length i)) f in
  mret (set_flag IN_CHANGE f, b, t, allerror).

(** [ext2_truncate]: the inode, the buffers, the inode table and the error.  The errors of
    the first [buf_invalidateblks] and of [ext2_update] are overwritten. *)
Definition ext2_truncate (junk : Z * Z) (cr_uid : Z) (ump : ext2mount) (v : vnode) (f : file) (b : bst) (t : itable)
    (length flags : Z) : FS (file * bst * itable * Z) :=
  s ← gets id;
  if (length <? 0) || (s_maxfilesize (geo s) <? length) then mret (f, b, t, EFBIG)
  else if bool_decide (v_type v = VLNK) && (i_size (ip f) <? v_maxsymlen v) then
    let words := zero_bytes 0 (u32 (i_size (ip f))) (i_db (ip f) ++ i_ib (ip f)) in
    let f := set_ip (fun i => set_size 0 (set_blks (take 12 words) (drop 12 words) i)) f in
    '(f, t, error) ← ext2_update v (set_flag (Z.lor IN_CHANGE IN_UPDATE) f) t true;
    mret (f, b, t, error)
  else if i_size (ip f) =? length then
    '(f, t, error) ← ext2_update v (set_flag (Z.lor IN_CHANGE IN_UPDATE) f) t false;
    mret (f, b, t, error)
  else
    let osize := i_size (ip f) in
    f ← ext2_discard_prealloc f;
    if osize <? length then truncate_lengthen junk cr_uid ump v f b t length flags
    else
      let b := if v_ubc v then ubc_setsize length b else b in
      let '(_, b) := buf_invalidateblks (0 <? length) b in
      '(f, b, error) ← truncate_tail junk cr_uid ump v f b length flags;
      if negb (error =? 0) then mret (f, b, t, error)
      else truncate_free v f b t length osize.

(** ** [ext2_inactive] *)

(** Removing a file without links: its blocks and its inode are freed. *)
Definition remove_unlinked (junk : Z * Z) (ump : ext2mount) (v : vnode) (f : file) (b : bst) (t : itable)
    : FS (file * bst * itable * Z) :=
  '(f, b, t, error) ← ext2_truncate junk 0 ump v f b t 0 0;
  let f := set_ip (set_db 0 0) f in
  let mode := i_mode (ip f) in
  let f := set_flag (Z.lor IN_CHANGE IN_UPDATE) (set_ip (set_mode 0) f) in
  f ← ext2_vfree f (i_number f) mode;
  mret (f, b, t, error).

(** [ext2_inactive]: the error, and whether the vnode is recycled.  [i_rdev] is another
    name of [i_db[0]].  The credential NOCRED is never looked at, since a truncation to 0
    asks for no block. *)
Definition ext2_inactive (junk : Z * Z) (ump : ext2mount) (v : vnode) (f : file) (b : bst) (t : itable)
    : FS (file * bst * itable * Z * bool) :=
  f ← ext2_discard_prealloc f;
  if (i_mode (ip f) =? 0) && negb (v_rdonly v) then mret (f, b, t, 0, true)
  else
    '(f, b, t, error) ← (if i_nlink (ip f) <=? 0 then remove_unlinked junk ump v f b t else mret (f, b, t, 0));
    let dirty := Z.lor IN_CHANGE (Z.lor IN_UPDATE IN_MODIFIED) in
    '(f, t) ←
      (if Z.land (i_flag f) (Z.lor IN_ACCESS dirty) =? 0 then mret (f, t)
       else if (Z.land (i_flag f) dirty =? 0) && v_suspended v then mret (clear_flag IN_ACCESS f, t)
       else '(f, t, _) ← ext2_update v f t false; mret (f, t));
    mret (f, b, t, error, i_mode (ip f) =? 0).

End Indirtrunc.

End Truncate.
