(* ===== verification/Cut.v ===== *)
(** * What truncation frees

    The proof about [ext2_indirtrunc]: seen from the tree that the file had at the
    start, a run frees blocks behind the last block [L] that is kept, and if it reports
    no error, all of those below its indirect block; every other pointer stays.  Runs on
    separate parts of the tree compose ([cut_seq]). *)

From S2P Require Import Prelude Bitops Fs Balloc Inode Ialloc Alloc Bmap Blktree Bufio Fballoc Truncate.

(** ** Sets of blocks that are freed *)

Record freed_all (s : m_ext2fs) (G : gset Z) (s' : m_ext2fs) : Prop := {
  fa_wf : wf s';
  fa_lock : s_lock s' = false;
  fa_geo : geo s' = geo s;
  fa_zone : data_zone s' = data_zone s;
  fa_used : used_blocks s' = used_blocks s ∖ G;
  fa_subset : G ⊆ used_blocks s;
  fa_free : s_free_blocks_count (s_es s') = s_free_blocks_count (s_es s) + Z.of_nat (size G);
  fa_freeable : forall block count, freeable s block count -> freeable s' block count;
  fa_inodes : used_inodes s' = used_inodes s;
}.

Lemma freed_none s : wf s -> s_lock s = false -> freed_all s ∅ s.
Proof. intros W L. split; try done; [set_solver..|]. rewrite size_empty. lia. Qed.

Lemma freed_trans s G1 s1 G2 s2 : freed_all s G1 s1 -> freed_all s1 G2 s2 -> freed_all s (G1 ∪ G2) s2.
Proof.
  intros [W1 L1 Ge1 Z1 U1 S1 F1 K1 I1] [W2 L2 Ge2 Z2 U2 S2 F2 K2 I2]. rewrite U1 in S2.
  split; try done; try congruence.
  - rewrite U2, U1. set_solver.
  - set_solver.
  - rewrite size_union by set_solver. lia.
  - auto.
Qed.

Lemma freed_one s b s' : wf s -> b ∈ used_blocks s -> given_back s b s' -> freed_all s {[b]} s'.
Proof.
  intros W Hb [W' L U F [Z1 Z2] I K]. split; try done; [set_solver|]. rewrite size_singleton. lia.
Qed.

Section Cut.
Context (ump : ext2mount) `{BufIOLaws ump}.
Local Abbreviation N := (um_nindir ump).
Local Abbreviation addr := (blkptrtodb ump).

(** The state at the start, and the last block that is kept. *)
Context (s0 : m_ext2fs) (f0 : file) (b0 : bst) (S0 : file_state ump s0 f0 b0).
Context (HN : 4 <= N <= 2 ^ 10) (L : Z).

Definition P0 (q : slot) : option Z := slot_ptr ump (content b0) (ip f0) q.

(** The pointer [p] to an indirect block at [t], and the words of the block. *)
Definition block (t : list Z) (p : Z) : Prop :=
  valid N (Trail t) /\ indirect (Trail t) /\ P0 (Trail t) = Some p /\ p <> 0.

Definition gone (A : slot -> Prop) (p : Z) : Prop :=
  p <> 0 /\ exists q, valid N q /\ A q /\ L < first_block N q /\ P0 q = Some p.

(** The block at [t] holds what is kept of it. *)
Definition trimmed (b : bst) (t : list Z) (p : Z) : Prop :=
  exists d d', content b0 (addr p) = Some d /\ content b (addr p) = Some d' /\
    forall o, 0 <= o < N -> aref d' o = if decide (first_block N (Trail (t ++ [o])) <= L) then aref d o else Some 0.

(** *** Steps *)

(** A step frees blocks at slots of [A], changes indirect blocks in [B] and counts what
    it freed, in device blocks modulo 2^32; it is complete if [ok]. *)
Record cut_step (A : slot -> Prop) (B : list Z -> Prop) (s : m_ext2fs) (b : bst) (count : Z) (ok : bool)
    (s' : m_ext2fs) (b' : bst) : Prop := {
  cs_freed : exists G, freed_all s G s' /\
    i32 count = i32 (Z.of_nat (size G) * btodb (s_blocksize (geo s0)) (s_d_blocksize (geo s0))) /\
    (forall p, p ∈ G -> gone A p) /\ (ok = true -> forall p, gone A p -> p ∈ G);
  cs_frame : forall a, (forall t p, B t -> block t p -> a <> addr p) -> content b' a = content b a;
  cs_cached : forall l a, cached b' l = Some a ->
    (exists t p, B t /\ block t p /\ l = lbn_of N t /\ a = addr p) \/ cached b l = Some a;
  cs_trim : forall t p, ok = true -> B t -> block t p -> first_block N (Trail t) <= L -> trimmed b' t p;
}.

(** What a step needs: the blocks it may free are in use, and the indirect blocks it
    visits are as they were. *)
Definition usable (A : slot -> Prop) (s : m_ext2fs) : Prop :=
  forall q p, valid N q -> A q -> P0 q = Some p -> p <> 0 -> p ∈ used_blocks s /\ freeable s p 1.

Definition intact (B : list Z -> Prop) (b : bst) : Prop :=
  forall t p, B t -> block t p ->
    content b (addr p) = content b0 (addr p) /\ forall a, cached b (lbn_of N t) = Some a -> a = addr p.

(** The fixed part of the file system. *)
Definition alive (s : m_ext2fs) : Prop := wf s /\ s_lock s = false /\ geo s = geo s0.

Lemma freed_alive s G s' : alive s -> freed_all s G s' -> alive s'.
Proof. intros (W & Lk & E) F. split; [apply F|]. split; [apply F|]. by rewrite (fa_geo _ _ _ F). Qed.

Lemma HN14 : 4 <= N <= 2 ^ 14.
Proof. lia. Qed.
Local Hint Resolve HN14 : core.

Lemma P0_value q : valid N q -> exists p, P0 q = Some p /\ 0 <= p < s_blocks_count (s_es s0).
Proof.
  intros V. destruct (to_ptr _ _ _ _ (st_tree _ _ _ _ S0) q V) as (p & E & _). exists p. split; [done|].
  by apply (state_ptr ump s0 f0 b0 q).
Qed.

(** Blocks at different places have different addresses. *)
Lemma block_addr t1 p1 t2 p2 : block t1 p1 -> block t2 p2 -> addr p1 = addr p2 -> t1 = t2.
Proof.
  intros (V1 & _ & E1 & Hp1) (V2 & _ & E2 & _) E.
  assert (p1 = p2) as ->.
  { apply (st_dev ump s0 f0 b0 p1 p2 S0); [by apply (state_ptr ump s0 f0 b0 (Trail t1))
    |by apply (state_ptr ump s0 f0 b0 (Trail t2))|done]. }
  enough (Trail t1 = Trail t2) by congruence. by eapply (to_inj _ _ _ _ (st_tree _ _ _ _ S0)).
Qed.

Lemma gone_slot A q p : gone A p -> valid N q -> P0 q = Some p -> A q /\ L < first_block N q.
Proof.
  intros (Hp & q' & V' & HA & HL & E') V E.
  assert (q' = q) as -> by by eapply (to_inj _ _ _ _ (st_tree _ _ _ _ S0)). done.
Qed.

(** A step that does nothing. *)
Lemma cut_nil A B s b :
  alive s -> (forall q p, valid N q -> A q -> L < first_block N q -> P0 q = Some p -> p = 0) ->
  (forall t p, B t -> block t p -> first_block N (Trail t) <= L -> trimmed b t p) -> cut_step A B s b 0 true s b.
Proof.
  intros (W & Lk & _) HA HB. split; [|done|by right|by intros t p _; apply HB].
  exists ∅. rewrite size_empty. split; [by apply freed_none|]. split; [done|]. split; [set_solver|].
  intros _ p (Hp & q & V & HAq & HL & E). by destruct Hp; apply (HA q).
Qed.

(** Steps on separate parts of the tree. *)
Lemma cut_seq A1 B1 A2 B2 (A : slot -> Prop) (B : list Z -> Prop) s b c1 ok1 s1 b1 c2 ok2 s2 b2 c ok :
  cut_step A1 B1 s b c1 ok1 s1 b1 -> cut_step A2 B2 s1 b1 c2 ok2 s2 b2 ->
  (forall t, valid N (Trail t) -> B1 t -> B2 t -> False) ->
  (forall q, valid N q -> L < first_block N q -> A q <-> A1 q \/ A2 q) -> (forall t, valid N (Trail t) -> B t <-> B1 t \/ B2 t) ->
  i32 c = i32 (c1 + c2) -> (ok = true -> ok1 = true /\ ok2 = true) ->
  cut_step A B s b c ok s2 b2.
Proof.
  intros [F1 Fr1 Ca1 T1] [F2 Fr2 Ca2 T2] Hdisj HA HB Hc Hok. split.
  - destruct F1 as (G1 & F1 & C1 & I1 & O1), F2 as (G2 & F2 & C2 & I2 & O2). exists (G1 ∪ G2).
    split; [by eapply freed_trans|]. split.
    { pose proof (fa_subset _ _ _ F2) as Hs. rewrite (fa_used _ _ _ F1) in Hs.
      rewrite Hc, size_union by set_solver. rewrite Nat2Z.inj_add, Z.mul_add_distr_r. by apply sintw_add. }
    split.
    + intros p [Hp|Hp]%elem_of_union; [apply I1 in Hp|apply I2 in Hp];
        destruct Hp as (Hp & q & V & HAq & HL & E); (split; [done|]); exists q; (split; [done|]); (split; [apply HA; auto|done]).
    + intros E p (Hp & q & V & HAq & HL & Ep). destruct (Hok E) as [E1 E2]. rewrite elem_of_union. apply HA in HAq; [|done..].
      destruct HAq; [left; apply (O1 E1)|right; apply (O2 E2)]; (split; [done|]); by exists q.
  - intros a Ha. rewrite Fr2, Fr1; [done|..]; intros t p Hb Hbl; apply (Ha t p); [|done| |done]; apply HB; try apply Hbl; tauto.
  - intros l a E. apply Ca2 in E as [(t & p & Hb & Hbl & ?)|E].
    { left. exists t, p. split; [|done]. apply HB; [apply Hbl|by right]. }
    apply Ca1 in E as [(t & p & Hb & Hbl & ?)|E]; [|by right]. left. exists t, p. split; [|done].
    apply HB; [apply Hbl|by left].
  - intros t p E Hb Hbl Hf. destruct (Hok E) as [E1 E2]. apply HB in Hb as [Hb|Hb]; [|by apply T2|apply Hbl].
    destruct (T1 t p E1 Hb Hbl Hf) as (d & d' & D1 & D2 & D3). exists d, d'. split; [done|]. split; [|done].
    rewrite Fr2; [done|]. intros t2 p2 Hb2 Hbl2 Ea. assert (t = t2) as <- by by eapply block_addr.
    by apply (Hdisj t); [apply Hbl|..].
Qed.

Lemma cut_ext A1 B1 (A : slot -> Prop) (B : list Z -> Prop) s b c1 ok1 s1 b1 c ok :
  cut_step A1 B1 s b c1 ok1 s1 b1 -> (forall q, valid N q -> L < first_block N q -> A q <-> A1 q) -> (forall t, valid N (Trail t) -> B t <-> B1 t) ->
  i32 c = i32 c1 -> (ok = true -> ok1 = true) -> cut_step A B s b c ok s1 b1.
Proof.
  intros [(G & F & C & I & O) Fr Ca T] HA HB Hc Hok. split.
  - exists G. split; [done|]. split; [congruence|]. split.
    + intros p Hp. destruct (I p Hp) as (? & q & V & ? & ?). split; [done|]. exists q. rewrite HA; tauto.
    + intros E p (? & q & V & HAq & ?). apply (O (Hok E)). split; [done|]. exists q. rewrite <- HA; tauto.
  - intros a Ha. apply Fr. intros t p Hb Hbl. apply (Ha t p); [|done]. apply HB; [apply Hbl|done].
  - intros l a E. destruct (Ca l a E) as [(t & p & Hb & Hbl & ?)|?]; [left|by right]. exists t, p. split; [|done].
    apply HB; [apply Hbl|done].
  - intros t p E Hb Hbl. apply T; [by apply Hok| |done]. apply HB; [apply Hbl|done].
Qed.

(** What is left for the steps that follow. *)
Lemma cut_intact A1 B1 (B : list Z -> Prop) s b c ok s1 b1 :
  cut_step A1 B1 s b c ok s1 b1 -> (forall t, valid N (Trail t) -> B1 t -> B t -> False) -> intact B b -> intact B b1.
Proof.
  intros [_ Fr Ca _] Hd I t p Hb Hbl. destruct (I t p Hb Hbl) as [I1 I2]. split.
  - rewrite Fr; [done|]. intros t1 p1 Hb1 Hbl1 E. assert (t = t1) as <- by by eapply block_addr.
    by apply (Hd t); [apply Hbl|..].
  - intros a E. apply Ca in E as [(t1 & p1 & Hb1 & Hbl1 & El & _)|E]; [|by apply I2].
    apply (lbn_of_inj N HN14) in El as <-; [|apply Hbl|apply Hbl1|apply Hbl|apply Hbl1].
    destruct (Hd t); [apply Hbl|done|done].
Qed.

Lemma cut_usable A1 B1 (A : slot -> Prop) s b c ok s1 b1 :
  cut_step A1 B1 s b c ok s1 b1 -> (forall q, valid N q -> A1 q -> A q -> False) -> usable A s -> usable A s1.
Proof.
  intros [(G & F & _ & I & _) _ _ _] Hd U q p V HA E Hp. destruct (U q p V HA E Hp) as [U1 U2]. split.
  - rewrite (fa_used _ _ _ F). apply elem_of_difference. split; [done|]. intros HG.
    destruct (gone_slot A1 q p (I p HG) V E) as [H1 _]. by apply (Hd q).
  - by apply (fa_freeable _ _ _ F).
Qed.

Lemma cut_alive A B s b c ok s1 b1 : cut_step A B s b c ok s1 b1 -> alive s -> alive s1.
Proof. intros [(G & F & _) _ _ _] Al. by eapply freed_alive. Qed.

(** Freeing one block. *)
Lemma wp_cut_one (Q : unit -> m_ext2fs -> Prop) q p s b size :
  alive s -> usable (eq q) s -> valid N q -> L < first_block N q -> P0 q = Some p -> p <> 0 ->
  size = s_blocksize (geo s) ->
  (forall s', cut_step (eq q) (fun _ => False) s b (btodb (s_blocksize (geo s0)) (s_d_blocksize (geo s0))) true s' b -> Q tt s') ->
  wp (ext2_blkfree p size) Q s.
Proof.
  intros (W & Lk & Eg) U V HL E Hp -> HQ. destruct (U q p V eq_refl E Hp) as [U1 U2].
  apply wp_ext2_blkfree; [done..| |].
  { rewrite Eg. apply (mo_frag _ _ (st_mount _ _ _ _ S0)). }
  intros s' G. apply HQ. split; [|done|by right|done].
  exists {[p]}. split; [by apply freed_one|]. rewrite size_singleton. split; [f_equal; lia|]. split.
  - intros x ->%elem_of_singleton. split; [done|]. by exists q.
  - intros _ x (Hx & q' & V' & <- & _ & E'). set_solver by congruence.
Qed.

(** *** Parts of the tree *)

Definition under (t x : list Z) : Prop := exists u, x = t ++ u.
Definition strict (t x : list Z) : Prop := exists o u, x = t ++ o :: u.
(** Below the entries [lo + 1] to [hi] of the block at [t]. *)
Definition entries (t : list Z) (lo hi : Z) (x : list Z) : Prop := exists o u, lo < o <= hi /\ x = t ++ o :: u.
Definition on (R : list Z -> Prop) (q : slot) : Prop := match q with Trail x => R x | Direct _ => False end.

Lemma under_strict t x : under t x <-> x = t \/ strict t x.
Proof.
  split.
  - intros [[|o u] ->]; [left; by rewrite app_nil_r|right; by exists o, u].
  - intros [-> |(o & u & ->)]; [exists []; by rewrite app_nil_r|by exists (o :: u)].
Qed.

Lemma strict_entries t x : t <> [] -> valid N (Trail x) -> strict t x <-> entries t (-1) (N - 1) x.
Proof.
  intros Ht V. split; [|intros (o & u & _ & ->); by exists o, u]. intros (o & u & ->). exists o, u. split; [|done].
  replace (t ++ o :: u) with ((t ++ [o]) ++ u) in V by by rewrite <- app_assoc.
  apply valid_app in V; [|by destruct t]. by apply valid_prefix in V as (_ & _ & ?); [lia|].
Qed.

Lemma entries_split t lo mid hi x : lo <= mid <= hi -> entries t lo hi x <-> entries t mid hi x \/ entries t lo mid x.
Proof.
  intros Hm. split.
  - intros (o & u & Ho & ->). destruct (decide (o <= mid)); [right|left]; exists o, u; split; (lia || done).
  - intros [(o & u & Ho & ->)|(o & u & Ho & ->)]; exists o, u; split; (lia || done).
Qed.

Lemma entries_apart t lo mid hi x : entries t mid hi x -> entries t lo mid x -> False.
Proof. intros (o & u & Ho & ->) (o' & u' & Ho' & E). apply app_inv_head in E. injection E as -> _. lia. Qed.

Lemma entries_one t o x : entries t (o - 1) o x <-> under (t ++ [o]) x.
Proof.
  split.
  - intros (o' & u & Ho & ->). assert (o' = o) as -> by lia. exists u. by rewrite <- app_assoc.
  - intros [u ->]. exists o, u. rewrite <- app_assoc. split; [lia|done].
Qed.

(** The entries of a block. *)
Lemma block_entries t p : block t p -> exists d, content b0 (addr p) = Some d /\ Z.of_nat (length d) = N /\
  forall o, 0 <= o < N -> valid N (Trail (t ++ [o])) /\
    exists v, aref d o = Some v /\ i32 v = v /\ P0 (Trail (t ++ [o])) = Some v.
Proof.
  intros (V & I & E & Hp). assert (t <> []) as Ht by by destruct t.
  assert (forall o, 0 <= o < N -> valid N (Trail (t ++ [o]))) as Vs by (intros o Ho; by apply valid_snoc).
  assert (exists d, content b0 (addr p) = Some d) as [d Hd].
  { destruct (P0_value (Trail (t ++ [0]))) as (p' & Ep' & _); [apply Vs; lia|]. unfold P0 in E, Ep'.
    cbn [slot_ptr] in E, Ep'. rewrite trail_snoc, E in Ep' by done.
    pose proof (state_ptr ump s0 f0 b0 (Trail t) p S0 V E).
    rewrite (ptr_step_block ump (s_blocks_count (s_es s0))) in Ep' by (by eapply st_count || lia).
    destruct (content b0 (addr p)) as [d|]; [by eexists|done]. }
  pose proof (content_length b0 _ _ Hd) as Hl. exists d. split; [done|]. split; [done|]. intros o Ho. split; [by apply Vs|].
  by apply (entry_value ump s0 f0 b0 t o p d S0 Ht (Vs o Ho)).
Qed.

Lemma cut_no_entries t lo hi s b : alive s -> hi <= lo -> cut_step (on (entries t lo hi)) (entries t lo hi) s b 0 true s b.
Proof.
  intros Al Hle. assert (forall x, ~ entries t lo hi x) as Hno by (intros x (o & u & Ho & _); lia).
  apply cut_nil; [done|intros [i|x] p _ Hx; [done|by destruct (Hno x)]|intros x p Hx; by destruct (Hno x)].
Qed.

(** The part of the tree that stays is left alone. *)
Lemma cut_keep (A : slot -> Prop) (B : list Z -> Prop) s b :
  alive s -> intact B b -> (forall q, valid N q -> A q -> first_block N q <= L) ->
  (forall t o, valid N (Trail (t ++ [o])) -> B t -> first_block N (Trail (t ++ [o])) <= L) -> cut_step A B s b 0 true s b.
Proof.
  intros Al I HA HB. apply cut_nil; [done|intros q p V Hq HL; specialize (HA q V Hq); lia|].
  intros t p Hb Hbl _. destruct (block_entries t p Hbl) as (d & Hd & Hlen & Hent). exists d, d.
  destruct (I t p Hb Hbl) as [I1 _]. rewrite I1. split; [done|]. split; [done|]. intros o Ho.
  destruct (Hent o Ho) as [V _]. by rewrite decide_True by by apply HB.
Qed.

(** Below a hole there is nothing. *)
Lemma cut_hole t s b : alive s -> t <> [] -> P0 (Trail t) = Some 0 -> cut_step (on (under t)) (under t) s b 0 true s b.
Proof.
  intros Al Ht E. assert (forall u, P0 (Trail (t ++ u)) = Some 0) as Hz by (intros u; by apply trail_below).
  apply cut_nil; [done| |].
  - intros [i|x] p V Hq HL Ep; [done|]. destruct Hq as [u ->]. rewrite Hz in Ep. congruence.
  - intros x p [u ->] (_ & _ & Ep & Hp). rewrite Hz in Ep. congruence.
Qed.

(** ** [ext2_indirtrunc] *)

(** The last block that is kept, relative to an indirect block. *)
Definition last_rel (t : list Z) : Z :=
  if first_block N (Trail t) <=? L then L - first_block N (Trail t) else -1.

Lemma lbn_entry t o : t <> [] -> valid N (Trail (t ++ [o])) -> indirect (Trail (t ++ [o])) ->
  lbn_of N (t ++ [o]) = lbn_of N t + 1 - o * N ^ (height t - 1) /\
  lbn_of N (t ++ [o]) = i32 (lbn_of N (t ++ [o])).
Proof.
  intros Ht V I. split.
  - unfold lbn_of. rewrite (first_snoc N HN14), height_snoc by done. lia.
  - pose proof (lbn_of_neg N HN14 _ V I). unfold lbn_of in *. destruct (t ++ [o]) as [|a ap] eqn:E; [done|].
    pose proof (first_range N HN14 a ap V) as [R1 R2]. pose proof (height_valid _ _ V) as [Hh _].
    pose proof (pow_pos N HN14 (height (a :: ap)) ltac:(lia)). destruct V as (Ha & _). unfold NIADDR in Ha.
    pose proof (base_range N HN14 (a + 1) ltac:(lia)) as [B1 B2]. unfold NDADDR in B1.
    assert (base N (a + 1 + 1) <= base N 4) as B3.
    { destruct (decide (a = 2)) as [->|]; [done|].
      pose proof (base_mono N HN14 (a + 1 + 1) 4 ltac:(lia) ltac:(lia)). pose proof (pow_pos N HN14 (a + 1 + 1) ltac:(lia)). lia. }
    destruct (base_values N) as (_ & _ & _ & B4). assert (N ^ 2 <= 2 ^ 20) by (change (2 ^ 20) with ((2 ^ 10) ^ 2); apply Z.pow_le_mono_l; lia).
    assert (N ^ 3 <= 2 ^ 30) by (change (2 ^ 30) with ((2 ^ 10) ^ 3); apply Z.pow_le_mono_l; lia).
    symmetry. apply sintw_small; lia.
Qed.

(** A routine [r] frees what is behind [L] below an indirect block with [level] + 1
    levels. *)
Definition truncs (level : nat) (r : bst -> Z -> Z -> Z -> FS (bst * Z * Z)) : Prop :=
  forall t p s b, block t p -> height t = Z.of_nat level + 1 -> alive s -> usable (on (strict t)) s -> intact (under t) b ->
    last_rel t < N ^ (Z.of_nat level + 1) ->
    wp (r b (lbn_of N t) (last_rel t) (fsbtodb (geo s0) p))
       (fun '(b', error, count) s' => cut_step (on (strict t)) (under t) s b count (error =? 0) s' b') s.

Definition rec_ok (level : nat) (rec : option (bst -> Z -> Z -> Z -> FS (bst * Z * Z))) : Prop :=
  match level, rec with O, None => True | S l, Some r => truncs l r | _, _ => False end.

Section Entries.
Context (t : list Z) (p : Z) (d : list Z) (level : nat) (rec : option (bst -> Z -> Z -> Z -> FS (bst * Z * Z))) (last : Z).
Local Abbreviation factor := (N ^ Z.of_nat level).
Context (Hbl : block t p) (Hh : height t = Z.of_nat level + 1) (Hrec : rec_ok level rec).
Context (Hent : forall o, 0 <= o < N -> valid N (Trail (t ++ [o])) /\
    exists v, aref d o = Some v /\ i32 v = v /\ P0 (Trail (t ++ [o])) = Some v).
Context (Hlast : -1 <= last) (HL : L < first_block N (Trail t) + (last + 1) * factor).

(** The entry [o] and what is below it. *)
Lemma wp_entry (Q : bst * Z * Z -> m_ext2fs -> Prop) o v s b released allerror :
  last < o < N -> aref d o = Some v -> v <> 0 -> alive s -> usable (on (under (t ++ [o]))) s -> intact (under (t ++ [o])) b ->
  (forall b1 s1 c released' allerror' ok, cut_step (on (under (t ++ [o]))) (under (t ++ [o])) s b c ok s1 b1 ->
     i32 (released' + i32 (btodb (s_blocksize (geo s0)) (s_d_blocksize (geo s0)))) = i32 (released + c) ->
     (allerror' = 0 -> allerror = 0 /\ ok = true) -> Q (b1, released', allerror') s1) ->
  wp (match rec with
      | Some indirtrunc =>
          '(b, error, blkcount) ← indirtrunc b (i32 (lbn_of N t + 1 - o * factor)) (-1) (fsbtodb (geo s0) v);
          mret (b, i32 (released + blkcount), if error =? 0 then allerror else error)
      | None => mret (b, released, allerror)
      end : FS (bst * Z * Z))
     (fun r => wp (ext2_blkfree v (s_blocksize (geo s0))) (fun _ => Q r)) s.
Proof.
  intros Ho Hv Hv0 Al U I HQ. set (nb := btodb _ _) in *. assert (t <> []) as Ht by (destruct Hbl as (? & _); by destruct t).
  destruct (Hent o ltac:(lia)) as (V & v' & Hv' & Ev & EP). assert (v' = v) as -> by congruence.
  pose proof (first_snoc N HN14 t o Ht V) as Ef. rewrite Hh in Ef. replace (Z.of_nat level + 1 - 1) with (Z.of_nat level) in Ef by lia.
  pose proof (pow_pos N HN14 (Z.of_nat level) ltac:(lia)) as Hp.
  assert (L < first_block N (Trail (t ++ [o]))) as HLo by (rewrite Ef; nia).
  assert (alive s -> forall s1, alive s1 -> geo s1 = geo s0) as Hgeo by (intros _ s1 A1; apply A1).
  assert (forall s1 b1 c ok released' allerror', alive s1 -> cut_step (on (strict (t ++ [o]))) (under (t ++ [o])) s b c ok s1 b1 ->
    i32 released' = i32 (released + c) -> (allerror' = 0 -> allerror = 0 /\ ok = true) ->
    wp (ext2_blkfree v (s_blocksize (geo s0))) (fun _ => Q (b1, released', allerror')) s1) as Hfree.
  { intros s1 b1 c ok released' allerror' Al1 C1 Hr He.
    apply (wp_cut_one _ (Trail (t ++ [o])) v s1 b1); [done| |done|done|done|done|by rewrite (proj2 (proj2 Al1))|].
    - eapply cut_usable; [done| |intros q p' V' <-; apply (U _ p' V'); by exists []; rewrite app_nil_r].
      intros q _ Hs <-. destruct Hs as (o' & u & E). apply (f_equal length) in E. rewrite !length_app in E. cbn in E. lia.
    - intros s2 C2. eapply (HQ b1 s2 (c + nb)); [|rewrite Z.add_assoc; apply sintw_add; [done|apply sintw_idemp]|done].
      eapply (cut_seq _ _ _ _ _ _ s b c ok s1 b1 nb true s2 b1); [exact C1|exact C2|done| | |done|by auto].
      + intros [i|x] _ _; cbn; [naive_solver|]. rewrite under_strict. split; [intros [-> |]; auto|intros [?|[= <-]]; auto].
      + intros x _. split; [auto|tauto]. }
  destruct level as [|l], rec as [r|]; try done.
  - wp_steps. apply (Hfree s b 0 true); [done| |f_equal; lia|done].
    assert (forall u, u <> [] -> valid N (Trail ((t ++ [o]) ++ u)) -> False) as Hnone.
    { intros u Hu Vu. pose proof (height_valid _ _ V) as [_ [Hi _]]. destruct u as [|o' u]; [done|].
      replace ((t ++ [o]) ++ o' :: u) with (((t ++ [o]) ++ [o']) ++ u) in Vu by by rewrite <- app_assoc.
      apply valid_app in Vu; [|by destruct t]. destruct (valid_prefix N (t ++ [o]) o' Vu) as (_ & I' & _); [by destruct t|].
      apply Hi in I'. rewrite height_snoc, Hh in I' by done. lia. }
    apply cut_nil; [done| |].
    + intros [i|x] p' V' Hs; [done|]. destruct Hs as (o' & u & ->). by destruct (Hnone (o' :: u)).
    + intros x p' [u ->] (V' & I' & _). destruct u as [|o' u]; [|by destruct (Hnone (o' :: u))]. rewrite app_nil_r in I'.
      pose proof (height_valid _ _ V) as [_ [Hi _]]. apply Hi in I'. rewrite height_snoc, Hh in I' by done. lia.
  - assert (block (t ++ [o]) v) as Hblo.
    { split; [done|]. split; [|done]. apply (height_valid _ _ V). rewrite height_snoc, Hh by done. lia. }
    assert (height (t ++ [o]) = Z.of_nat l + 1) as Hho by (rewrite height_snoc, Hh by done; lia).
    assert (last_rel (t ++ [o]) = -1) as Elr by (unfold last_rel; by rewrite (proj2 (Z.leb_gt _ _))).
    destruct (lbn_entry t o Ht V (proj1 (proj2 Hblo))) as [E1 E2]. rewrite Hh in E1.
    replace (Z.of_nat (S l) + 1 - 1) with (Z.of_nat (S l)) in E1 by lia. rewrite <- E1, <- E2, <- Elr.
    wp_steps. eapply wp_mono; [apply (Hrec (t ++ [o]) v s b Hblo Hho Al); [|done|]|].
    + intros q p' V' Hs. apply U; [done|]. destruct q as [i|x]; [done|]. cbn in *. apply under_strict. by right.
    + rewrite Elr. pose proof (pow_pos N HN14 (Z.of_nat l + 1) ltac:(lia)). lia.
    + intros [[b1 error] count] s1 C. wp_steps. eapply (Hfree s1 b1 count (error =? 0));
        [by eapply cut_alive|exact C|apply sintw_idemp|].
      destruct (Z.eqb_spec error 0); [done|]. intros ->. done.
Qed.

Lemma wp_free_entries n : forall s b nlbn released allerror,
  last + Z.of_nat n < N -> nlbn = i32 (lbn_of N t + 1 - (last + Z.of_nat n) * factor) -> alive s ->
  usable (on (entries t last (last + Z.of_nat n))) s -> intact (entries t last (last + Z.of_nat n)) b ->
  wp (free_entries rec d last factor n b nlbn released allerror)
    (fun '(b', nlbn', released', allerror') s' =>
       nlbn' = i32 (lbn_of N t + 1 - last * factor) /\ exists c ok,
         cut_step (on (entries t last (last + Z.of_nat n))) (entries t last (last + Z.of_nat n)) s b c ok s' b' /\
         i32 released' = i32 (released + c) /\ (allerror' = 0 -> allerror = 0 /\ ok = true)) s.
Proof.
  induction n as [|n IH]; intros s b nlbn released allerror Hn Enl Al U I; cbn [free_entries].
  { wp_steps. split; [by rewrite Z.add_0_r in Enl|]. exists 0, true. split; [|split; [f_equal; lia|done]].
    apply cut_no_entries; [done|lia]. }
  set (o := last + 1 + Z.of_nat n). replace (last + Z.of_nat (S n)) with o in * by lia.
  assert (last + Z.of_nat n = o - 1) as Eo by lia. rewrite Eo in IH.
  assert (forall x, entries t last o x <-> under (t ++ [o]) x \/ entries t last (o - 1) x) as Hsplit.
  { intros x. rewrite <- entries_one. apply entries_split. lia. }
  destruct (Hent o ltac:(lia)) as (V & v & Hv & Ev & EP). rewrite Hv. wp_steps. rewrite Ev.
  assert (forall s1 b1 c1 ok1 released1 allerror1, cut_step (on (under (t ++ [o]))) (under (t ++ [o])) s b c1 ok1 s1 b1 ->
    i32 released1 = i32 (released + c1) -> (allerror1 = 0 -> allerror = 0 /\ ok1 = true) ->
    wp (free_entries rec d last factor n b1 (i32 (nlbn + factor)) released1 allerror1)
      (fun '(b', nlbn', released', allerror') s' => nlbn' = i32 (lbn_of N t + 1 - last * factor) /\ exists c ok,
         cut_step (on (entries t last o)) (entries t last o) s b c ok s' b' /\
         i32 released' = i32 (released + c) /\ (allerror' = 0 -> allerror = 0 /\ ok = true)) s1) as Hnext.
  { intros s1 b1 c1 ok1 released1 allerror1 C1 Hr1 He1. eapply wp_mono.
    - apply (IH s1 b1); [lia| |by eapply cut_alive|eapply cut_usable; [done| |]|eapply cut_intact; [done| |]].
      + rewrite Enl, sintw_add_l by done. f_equal. lia.
      + intros [i|x] _; [done|]. cbn. rewrite <- entries_one. apply entries_apart.
      + intros [i|x] p' V' Hx; [done|]. apply (U (Trail x)); [done|]. apply Hsplit. by right.
      + intros x _. rewrite <- entries_one. apply entries_apart.
      + intros x p' Hx. apply I, Hsplit. by right.
    - intros [[[b2 nlbn2] released2] allerror2] s2 (E2 & c2 & ok2 & C2 & Hr2 & He2). split; [done|].
      exists (c1 + c2), (ok1 && ok2). split; [|split].
      + eapply (cut_seq _ _ _ _ _ _ s b c1 ok1 s1 b1 c2 ok2 s2 b2); [exact C1|exact C2| | | |done|by apply andb_prop].
        * intros x _. rewrite <- entries_one. apply entries_apart.
        * intros [i|x] _ _; [cbn; tauto|apply Hsplit].
        * intros x _. apply Hsplit.
      + rewrite Hr2, Z.add_assoc. by apply sintw_add.
      + intros E. destruct (He2 E) as [E' ->]. destruct (He1 E') as [? ->]. done. }
  destruct (Z.eqb_spec v 0) as [->|Hv0].
  { apply (Hnext s b 0 true); [|f_equal; lia|done]. apply cut_hole; [done|by destruct t|done]. }
  wp_steps. unfold id. pose proof Al as (_ & _ & Eg). rewrite Eg. set (nb := btodb _ _) in *.
  eapply wp_mono.
  { rewrite Enl. apply (wp_entry (fun '(b1, r1, a1) s1 => exists c ok, cut_step (on (under (t ++ [o]))) (under (t ++ [o])) s b c ok s1 b1 /\
      i32 (r1 + i32 nb) = i32 (released + c) /\ (a1 = 0 -> allerror = 0 /\ ok = true)) o v s b released allerror);
      [lia|done|done|done| | |by eauto 10].
    - intros [i|x] p' V' Hx; [done|]. apply (U (Trail x)); [done|]. apply Hsplit. by left.
    - intros x p' Hx. apply I, Hsplit. by left. }
  intros [[b1 r1] a1] s1 W. wp_steps. eapply wp_mono; [exact W|]. intros [] s2 (c & ok & C & Hr & He).
  eapply Hnext; [exact C|by rewrite sintw_idemp|done].
Qed.
End Entries.

(** Clearing the pointers behind [last] in the block itself. *)
Lemma aref_zero_from d d' n o : zero_from n d = Some d' -> 0 <= o < Z.of_nat (length d) ->
  aref d' o = if decide (o < n) then aref d o else Some 0.
Proof.
  unfold zero_from. destruct (_ && _) eqn:E; [|done]. apply andb_true_iff in E as [H1%Z.leb_le H2%Z.leb_le]. intros [= <-] Ho.
  unfold aref. rewrite (proj2 (Z.ltb_ge o 0)) by lia. destruct (decide (o < n)).
  - rewrite lookup_app_l by (rewrite length_take; lia). apply lookup_take_lt. lia.
  - rewrite lookup_app_r by (rewrite length_take; lia). apply lookup_replicate_2. rewrite length_take. lia.
Qed.

Lemma length_zero_from d d' n : zero_from n d = Some d' -> length d' = length d.
Proof.
  unfold zero_from. destruct (_ && _) eqn:E; [|done]. apply andb_true_iff in E as [H1%Z.leb_le H2%Z.leb_le]. intros [= <-].
  rewrite length_app, length_take, length_replicate. lia.
Qed.

(** The index of the last entry that is kept. *)
Definition last_entry (t : list Z) (factor : Z) : Z := if 0 <? last_rel t then last_rel t / factor else last_rel t.

Lemma last_entry_spec t level : 0 <= level -> last_rel t < N ^ (level + 1) ->
  -1 <= last_entry t (N ^ level) < N /\
  (forall o, 0 <= o -> first_block N (Trail t) + o * N ^ level <= L <-> o <= last_entry t (N ^ level)).
Proof.
  intros Hl Hr. pose proof (pow_pos N HN14 level Hl) as Hp. unfold last_entry, last_rel in *.
  rewrite Z.pow_add_r, Z.pow_1_r in Hr by lia. set (F := first_block N (Trail t)) in *. set (k := N ^ level) in *.
  destruct (Z.leb_spec F L) as [HF|HF].
  - assert ((if 0 <? L - F then (L - F) / k else L - F) = (L - F) / k) as ->.
    { destruct (Z.ltb_spec 0 (L - F)); [done|]. replace (L - F) with 0 by lia. by rewrite Z.div_0_l by lia. }
    pose proof (Z.div_mod (L - F) k ltac:(lia)) as E. pose proof (Z.mod_pos_bound (L - F) k Hp) as M.
    split; [assert (0 <= (L - F) / k) by (apply Z.div_pos; lia); split; [lia|apply Z.div_lt_upper_bound; lia]|].
    set (q := (L - F) / k) in *. intros o Ho. split; intros Hx.
    + assert (~ q + 1 <= o); [|lia]. intros Hq. assert (k * (q + 1) <= k * o) by (apply Z.mul_le_mono_nonneg_l; lia). lia.
    + assert (k * o <= k * q) by (apply Z.mul_le_mono_nonneg_l; lia). lia.
  - change (0 <? -1) with false. cbv iota. split; [lia|]. intros o Ho. assert (0 <= o * k) by (apply Z.mul_nonneg_nonneg; lia). split; intros; lia.
Qed.

(** Writing the cleared block back. *)
Lemma cut_block t p d d' last b b1 bp :
  block t p -> content b0 (addr p) = Some d -> Z.of_nat (length d) = N -> zero_from (last + 1) d = Some d' ->
  (forall o, 0 <= o < N -> first_block N (Trail (t ++ [o])) <= L <-> o <= last) ->
  bp = mkBuf (lbn_of N t) (addr p) d' ->
  content b1 = content b -> (forall l a, cached b1 l = Some a -> l = lbn_of N t /\ a = addr p \/ cached b l = Some a) ->
  forall s, alive s -> let '(error, b2) := buf_bwrite bp b1 in
  cut_step (fun _ => False) (eq t) s b 0 (error =? 0) s b2.
Proof.
  intros Hbl Hd Hlen Hz Hf -> Ec Hca s (W & Lk & _). pose proof (bwrite_stores (mkBuf (lbn_of N t) (addr p) d') b1) as Hw.
  destruct (buf_bwrite _ b1) as [error b2]. destruct Hw as (W1 & W2 & W3). cbn in W1, W2, W3.
  pose proof (length_zero_from _ _ _ Hz) as Hl'. split.
  - exists ∅. rewrite size_empty. split; [by apply freed_none|]. split; [done|]. split; [set_solver|].
    intros _ x (_ & q & _ & [] & _).
  - intros a Ha. rewrite W1, Ec; [done|]. by apply (Ha t p).
  - intros l a E. apply W3 in E. destruct (decide (l = lbn_of N t)) as [->|]; [left; exists t, p; auto|].
    apply Hca in E as [[-> _]|E]; [done|by right].
  - intros t' p' E <- (_ & _ & E' & _) _. destruct Hbl as (_ & _ & Ep & _). assert (p' = p) as -> by congruence.
    apply Z.eqb_eq in E as ->. exists d, d'. split; [done|]. split; [apply W2; [done|congruence]|]. intros o Ho.
    rewrite (aref_zero_from d d' (last + 1) o Hz) by lia. specialize (Hf o Ho).
    destruct (decide (o < last + 1)), (decide (_ <= L)); (done || lia).
Qed.

(** Reading the block. *)
Lemma read_block t p size b :
  block t p -> intact (under t) b ->
  let '(bp, b1) := buf_getblk (lbn_of N t) size b in
  let '(error, bp, b2) := if buf_valid bp b1 then (0, bp, b1) else buf_strategy (buf_setblkno (addr p) bp) b1 in
  content b2 = content b /\
  (forall l a, cached b2 l = Some a -> l = lbn_of N t /\ a = addr p \/ cached b l = Some a) /\
  (error = 0 -> exists d, content b0 (addr p) = Some d /\ bp = mkBuf (lbn_of N t) (addr p) d).
Proof.
  intros Hbl I. destruct (I t p) as [I1 I2]; [by exists []; rewrite app_nil_r|done|].
  destruct (block_entries t p Hbl) as (d & Hd & _). rewrite Hd in I1.
  pose proof (getblk_new (lbn_of N t) size b) as G. destruct (buf_getblk _ size b) as [bp b1].
  destruct G as (G1 & G2 & G3 & _ & G4). destruct (buf_valid bp b1) eqn:Ev.
  - split; [done|]. split; [by auto|]. intros _. exists d. split; [done|]. destruct (G4 eq_refl) as (a & Ha & Eb & Hda).
    specialize (I2 a Ha). subst a. destruct bp as [l a' d']. cbn in *. subst. f_equal. by apply Hda.
  - pose proof (strategy_reads (buf_setblkno (addr p) bp) b1) as St. destruct (buf_strategy _ b1) as [[error bp'] b2].
    destruct St as (T1 & T2 & T3 & T4 & T5). cbn in T2, T3, T4, T5. split; [congruence|]. split.
    + intros l a E. apply T2 in E. destruct (decide (l = _)) as [->|]; [by left; rewrite G3|by right; apply G2].
    + intros E. exists d. split; [done|]. destruct bp' as [l a' d']. cbn in *. subst. f_equal; [done|]. apply (T5 eq_refl). by rewrite G1.
Qed.

(** The entries that are kept. *)
Lemma cut_keep_entries t level hi s b :
  t <> [] -> height t = level + 1 -> alive s -> intact (entries t (-1) hi) b ->
  first_block N (Trail t) + (hi + 1) * N ^ level <= L + 1 -> cut_step (on (entries t (-1) hi)) (entries t (-1) hi) s b 0 true s b.
Proof.
  intros Ht Hh Al I HL.
  assert (forall x, valid N (Trail x) -> entries t (-1) hi x -> first_block N (Trail x) <= L) as Hx.
  { intros x V (o & u & Ho & ->). replace (t ++ o :: u) with ((t ++ [o]) ++ u) in * by by rewrite <- app_assoc.
    assert (t ++ [o] <> []) as Hto by by destruct t. pose proof (valid_app N _ _ Hto V) as Vo.
    pose proof (first_app N HN14 (t ++ [o]) u Hto V) as [_ F]. rewrite (first_snoc N HN14), height_snoc, Hh in F by done.
    pose proof (height_valid _ _ V) as [Hhx _]. pose proof (pow_pos N HN14 _ (proj1 Hhx)).
    pose proof (height_valid _ _ Vo) as [Hho _]. rewrite height_snoc, Hh in Hho by done.
    replace (level + 1 - 1) with level in * by lia. pose proof (pow_pos N HN14 level ltac:(lia)).
    assert (o * N ^ level <= hi * N ^ level) by (apply Z.mul_le_mono_nonneg_r; lia). lia. }
  apply cut_keep; [done|done|intros [i|x] V Hq; [done|by apply Hx]|].
  intros x o V (o' & u & Ho' & ->). apply Hx; [done|]. exists o', (u ++ [o]). by rewrite <- app_assoc.
Qed.

(** A run that could not read its block. *)
Lemma cut_failed (A : slot -> Prop) (B : list Z -> Prop) t p s b b' :
  alive s -> B t -> block t p -> content b' = content b ->
  (forall l a, cached b' l = Some a -> l = lbn_of N t /\ a = addr p \/ cached b l = Some a) -> cut_step A B s b 0 false s b'.
Proof.
  intros (W & Lk & _) Hb Hbl Ec Hca. split; [|by intros; rewrite Ec| |done].
  - exists ∅. rewrite size_empty. split; [by apply freed_none|]. split; [done|]. split; [set_solver|done].
  - intros l a E. destruct (Hca l a E) as [[-> ->]|]; [left; by exists t, p|by right].
Qed.

(** The part that [free_entries] leaves: the last entry that is kept, and those before. *)
Lemma wp_last_entry level (r : bst -> Z -> Z -> Z -> FS (bst * Z * Z)) t p d s b nlbn released allerror
    (Q : bst * Z * Z -> m_ext2fs -> Prop) :
  truncs level r -> block t p -> height t = Z.of_nat level + 2 ->
  (forall o, 0 <= o < N -> valid N (Trail (t ++ [o])) /\
    exists v, aref d o = Some v /\ i32 v = v /\ P0 (Trail (t ++ [o])) = Some v) ->
  let factor := N ^ (Z.of_nat level + 1) in
  let last := last_entry t factor in
  0 <= last_rel t < N * factor -> nlbn = i32 (lbn_of N t + 1 - last * factor) -> alive s ->
  usable (on (entries t (-1) last)) s -> intact (entries t (-1) last) b ->
  (forall b' s' c ok released' allerror', cut_step (on (entries t (-1) last)) (entries t (-1) last) s b c ok s' b' ->
     i32 released' = i32 (released + c) -> (allerror' = 0 -> allerror = 0 /\ ok = true) -> Q (b', allerror', released') s') ->
  wp (nb ← access (aref d last);
      let nb := i32 nb in
      if nb =? 0 then mret (b, allerror, released)
      else
        '(b, error, blkcount) ← r b nlbn (last_rel t mod factor) (fsbtodb (geo s0) nb);
        mret (b, if error =? 0 then allerror else error, i32 (released + blkcount))) Q s.
Proof.
  intros Hr Hbl Hh Hent factor last Hrel Enl Al U I HQ. assert (t <> []) as Ht by (destruct Hbl as (? & _); by destruct t).
  destruct (last_entry_spec t (Z.of_nat level + 1) ltac:(lia)) as [Hlast Hf]; [rewrite (Z.pow_add_r N (Z.of_nat level + 1) 1), Z.pow_1_r by lia; fold factor; lia|].
  fold factor in Hlast, Hf. fold last in Hlast, Hf. pose proof (pow_pos N HN14 (Z.of_nat level + 1) ltac:(lia)) as Hp. fold factor in Hp.
  assert (first_block N (Trail t) <= L /\ last_rel t = L - first_block N (Trail t)) as [HF Erel].
  { unfold last_rel in *. destruct (Z.leb_spec (first_block N (Trail t)) L); [done|lia]. }
  assert (0 <= last) as Hl0 by (apply Hf; lia). pose proof (proj2 (Hf last Hl0) ltac:(lia)) as HfL.
  destruct (Hent last ltac:(lia)) as (V & v & Hv & Ev & EP). rewrite Hv. wp_steps. rewrite Ev. cbv zeta.
  assert (forall s1 b1 c ok released' allerror', cut_step (on (under (t ++ [last]))) (under (t ++ [last])) s b c ok s1 b1 ->
    i32 released' = i32 (released + c) -> (allerror' = 0 -> allerror = 0 /\ ok = true) -> Q (b1, allerror', released') s1) as Hdone.
  { intros s1 b1 c ok released' allerror' C Hre He. apply (HQ b1 s1 c ok); [|done|done].
    assert (forall x, entries t (-1) last x <-> entries t (last - 1) last x \/ entries t (-1) (last - 1) x) as Hsp
      by (intros x; apply entries_split; lia).
    eapply (cut_seq _ _ (on (entries t (-1) (last - 1))) (entries t (-1) (last - 1)) _ _ s b c ok s1 b1 0 true s1 b1); [exact C| | | | |f_equal; lia|auto].
    - apply (cut_keep_entries t (Z.of_nat level + 1)); [done|lia|by eapply cut_alive| |fold factor; lia].
      eapply cut_intact; [exact C|intros x _; rewrite <- entries_one; apply entries_apart|].
      intros x p' Hx. apply I, Hsp. by right.
    - intros x _. rewrite <- entries_one. apply entries_apart.
    - intros [i|x] _ _; [cbn; tauto|]. cbn. by rewrite Hsp, entries_one.
    - intros x _. by rewrite Hsp, entries_one. }
  destruct (Z.eqb_spec v 0) as [->|Hv0].
  { wp_steps. apply (Hdone s b 0 true); [|f_equal; lia|done]. apply cut_hole; [done|by destruct t|done]. }
  assert (block (t ++ [last]) v) as Hblo.
  { split; [done|]. split; [|done]. apply (height_valid _ _ V). rewrite height_snoc, Hh by done. lia. }
  destruct (lbn_entry t last Ht V (proj1 (proj2 Hblo))) as [E1 E2]. rewrite Hh in E1.
  replace (Z.of_nat level + 2 - 1) with (Z.of_nat level + 1) in E1 by lia. fold factor in E1.
  pose proof (first_snoc N HN14 t last Ht V) as Ef. rewrite Hh in Ef.
  replace (Z.of_nat level + 2 - 1) with (Z.of_nat level + 1) in Ef by lia. fold factor in Ef.
  assert (last_rel (t ++ [last]) = last_rel t mod factor) as Em.
  { unfold last_rel at 1. rewrite (proj2 (Z.leb_le _ L)) by lia. rewrite Ef, Erel.
    apply (Z.mod_unique _ _ last); [|lia]. left. split; [lia|].
    destruct (decide (last + 1 < N)) as [Hn|Hn].
    - destruct (decide (first_block N (Trail t) + (last + 1) * factor <= L)) as [Hx|Hx]; [|lia].
      apply (Hf (last + 1)) in Hx; lia.
    - assert (last = N - 1) as -> by lia. lia. }
  rewrite Enl, <- E1, <- E2, <- Em. wp_steps. eapply wp_mono; [apply (Hr (t ++ [last]) v s b Hblo); [|done| | |]|].
  - rewrite height_snoc, Hh by done. lia.
  - intros [i|x] p' V' Hs; [done|]. apply (U (Trail x)); [done|]. cbn in Hs |- *. destruct Hs as (o' & u & ->).
    exists last, (o' :: u). split; [lia|]. by rewrite <- app_assoc.
  - intros x p' [u ->]. apply I. exists last, u. split; [lia|]. by rewrite <- app_assoc.
  - rewrite Em. fold factor. apply Z.mod_pos_bound. lia.
  - intros [[b1 error] count] s1 C. wp_steps. eapply (Hdone s1 b1 count (error =? 0)); [|apply sintw_idemp|].
    + eapply cut_ext; [exact C| |done|done|done]. intros [i|x] V' HLx; [done|]. cbn. rewrite under_strict.
      split; [|auto]. intros [-> |]; [|done]. lia.
    + destruct (Z.eqb_spec error 0); [done|]. intros ->. done.
Qed.

(** One level, when the level below is right. *)
Lemma truncs_level level rec : rec_ok level rec -> truncs level (indirtrunc_level rec level).
Proof.
  intros Hrec t p s b Hbl Hh Al U I Hrel.
  pose proof Al as (_ & _ & Eg). assert (t <> []) as Ht by (destruct Hbl as (? & _); by destruct t).
  assert (NINDIR (geo s0) = N) as EN by by rewrite (mo_nindir _ _ (st_mount _ _ _ _ S0)).
  destruct (last_entry_spec t (Z.of_nat level) ltac:(lia) Hrel) as [Hlast Hf].
  set (factor := N ^ Z.of_nat level) in *. set (last := last_entry t factor) in *.
  pose proof (pow_pos N HN14 (Z.of_nat level) ltac:(lia)) as Hp. fold factor in Hp.
  destruct (block_entries t p Hbl) as (d & Hd & Hlen & Hent).
  assert (forall o, 0 <= o < N -> first_block N (Trail (t ++ [o])) <= L <-> o <= last) as Hfo.
  { intros o Ho. destruct (Hent o Ho) as [V _]. rewrite <- Hf by lia. rewrite (first_snoc N HN14), Hh by done.
    replace (Z.of_nat level + 1 - 1) with (Z.of_nat level) by lia. done. }
  assert (L < first_block N (Trail t) + (last + 1) * factor) as HL.
  { destruct (Z.leb_spec (first_block N (Trail t) + (last + 1) * factor) L) as [Hx|]; [|done]. apply Hf in Hx; lia. }
  pose proof (read_block t p (s_blocksize (geo s0)) b Hbl I) as R.
  rewrite <- (dev_fsbtodb ump s0) by apply S0. unfold indirtrunc_level. wp_steps. unfold id. rewrite Eg, EN. fold factor.
  change (if 0 <? last_rel t then last_rel t / factor else last_rel t) with last.
  destruct (buf_getblk (lbn_of N t) (s_blocksize (geo s0)) b) as [bp b1].
  destruct (if buf_valid bp b1 then (0, bp, b1) else buf_strategy (buf_setblkno (addr p) bp) b1) as [[error bp'] b2].
  destruct R as (R1 & R2 & R3).
  destruct (Z.eqb_spec error 0) as [->|He]; cbn [negb].
  2:{ wp_steps. rewrite (proj2 (Z.eqb_neq error 0)) by done. apply (cut_failed _ _ t p); [done| |done|by rewrite (proj1 (brelse_same _ _))|].
      - apply under_strict. by left.
      - intros l a E. apply R2. by apply (proj2 (brelse_same bp' b2)). }
  destruct (R3 eq_refl) as (d1 & Hd1 & ->). assert (d1 = d) as -> by congruence. cbn [b_data].
  destruct (zero_from (last + 1) d) as [d'|] eqn:Ez.
  2:{ unfold zero_from in Ez. rewrite (proj2 (Z.leb_le 0 _)), (proj2 (Z.leb_le _ (Z.of_nat (length d)))) in Ez by lia. done. }
  wp_steps. set (nbp := buf_setdata d' _). set (b3 := if last =? -1 then _ else _).
  assert (content b3 = content b /\ forall l a, cached b3 l = Some a -> l = lbn_of N t /\ a = addr p \/ cached b l = Some a) as [M1 M2].
  { unfold b3. destruct (last =? -1); [|done]. destruct (markinvalid_same nbp b2) as [M1 M2]. split; [congruence|auto]. }
  pose proof (cut_block t p d d' last b b3 nbp Hbl Hd Hlen Ez Hfo eq_refl M1 M2 s Al) as C1.
  destruct (buf_bwrite nbp b3) as [error b4]. wp_steps.
  assert (forall lo hi x, entries t lo hi x -> strict t x) as Hst by (intros lo hi x (o & u & _ & ->); by exists o, u).
  assert (forall x, strict t x -> x <> t) as Hne.
  { intros x (o & u & ->) E. apply (f_equal length) in E. rewrite length_app in E. cbn in E. lia. }
  assert (last + Z.of_nat (Z.to_nat (N - 1 - last)) = N - 1) as En by lia.
  assert (forall lo hi s1, usable (on (strict t)) s1 -> usable (on (entries t lo hi)) s1) as Hu.
  { intros lo hi s1 U1 [i|x] p' V Hx; [done|]. apply (U1 (Trail x)); [done|]. by eapply Hst. }
  assert (forall lo hi, intact (entries t lo hi) b4) as Hi.
  { intros lo hi. eapply cut_intact; [exact C1|intros x _ <- Hx; by apply (Hne t (Hst _ _ _ Hx))|].
    intros x p' Hx. apply I, under_strict. right. by eapply Hst. }
  eapply wp_mono.
  { apply (wp_free_entries t p d level rec last Hbl Hh Hrec Hent ltac:(lia) HL); rewrite ?En; [lia|done|done|by apply Hu|done]. }
  rewrite En. intros [[[b5 nlbn] released] allerror] s5 (Enl & c2 & ok2 & C2 & Hr2 & He2).
  pose proof (cut_alive _ _ _ _ _ _ _ _ C2 Al) as Al5.
  (* the result, after the rest *)
  assert (forall s' b' c ok released' allerror',
    cut_step (on (entries t (-1) last)) (entries t (-1) last) s5 b5 c ok s' b' -> i32 released' = i32 (released + c) ->
    (allerror' = 0 -> allerror = 0 /\ ok = true) ->
    cut_step (on (strict t)) (under t) s b released' (allerror' =? 0) s' b') as Hfin.
  { intros s' b' c ok released' allerror' C3 Hr3 He3.
    assert (cut_step (on (entries t last (N - 1))) (fun x => x = t \/ entries t last (N - 1) x) s b c2 ((error =? 0) && ok2) s5 b5) as C12.
    { eapply (cut_seq _ _ _ _ _ _ s b 0 _ s b4); [exact C1|exact C2| | | |done|by apply andb_prop].
      - intros x _ <- Hx. by apply (Hne t (Hst _ _ _ Hx)).
      - tauto.
      - intros x _. split; (intros [-> |?]; [by left|by right]). }
    eapply (cut_seq _ _ _ _ _ _ s b c2 _ s5 b5); [exact C12|exact C3| | | | |].
    - intros x _ [-> | Hx] Hy; [by apply (Hne t (Hst _ _ _ Hy))|]. exact (entries_apart _ _ _ _ _ Hx Hy).
    - intros [i|x] V _; [cbn; tauto|]. cbn. rewrite strict_entries by done. apply entries_split. lia.
    - intros x V. rewrite under_strict, strict_entries, (entries_split t (-1) last (N - 1)) by (done || lia). tauto.
    - rewrite Hr3. apply sintw_add; [|done]. by rewrite Hr2.
    - intros [-> ->]%Z.eqb_eq%He3. by destruct (He2 eq_refl) as [-> ->]. }
  assert (intact (entries t (-1) last) b5) as I5.
  { eapply cut_intact; [exact C2|intros x _; apply entries_apart|apply Hi]. }
  assert (last = -1 \/ level = O -> cut_step (on (entries t (-1) last)) (entries t (-1) last) s5 b5 0 true s5 b5) as Hrest.
  { intros E. destruct (decide (last = -1)) as [El|El]; [apply cut_no_entries; [done|lia]|].
    destruct E as [|E]; [done|]. apply (cut_keep_entries t (Z.of_nat level)); [done..|]. fold factor.
    pose proof (proj2 (Hf last ltac:(lia)) ltac:(lia)). unfold factor in *. rewrite E in *.
    change (N ^ Z.of_nat 0) with 1 in *. lia. }
  destruct rec as [r|].
  - destruct level as [|l]; [done|]. destruct (Z.leb_spec 0 (last_rel t)) as [Hpos|Hneg].
    + assert (factor = N ^ (Z.of_nat l + 1)) as Ef by (unfold factor; f_equal; lia).
      pose proof (wp_last_entry l r t p d s5 b5 nlbn released allerror
        (fun '(b', error, count) s' => cut_step (on (strict t)) (under t) s b count (error =? 0) s' b') Hrec Hbl) as W.
      cbv zeta in W. rewrite <- Ef in W. fold last in W. cbn beta iota.
      apply W; [lia|done| |done|done| |done|].
      * split; [done|]. rewrite Z.mul_comm. unfold factor. rewrite Z.pow_add_r, Z.pow_1_r in Hrel by lia. done.
      * eapply cut_usable; [exact C2|intros [i|x] _; [done|apply entries_apart]|by apply Hu].
      * intros b' s' c ok released' allerror' C3 Hr3 He3. by apply (Hfin s' b' c ok).
    + wp_steps. apply (Hfin s5 b5 0 true); [|f_equal; lia|done]. apply Hrest. left. unfold last, last_entry.
      unfold last_rel in *. destruct (_ <=? L) eqn:E; [apply Z.leb_le in E; lia|done].
  - destruct level as [|l]; [|done]. wp_steps. apply (Hfin s5 b5 0 true); [by apply Hrest; right|f_equal; lia|done].
Qed.

Lemma truncs_indirtrunc level : truncs level (ext2_indirtrunc level).
Proof.
  induction level as [|level IH]; [by apply (truncs_level O None)|].
  by apply (truncs_level (S level) (Some (ext2_indirtrunc level))).
Qed.
End Cut.
