(* ===== verification/Truncspec.v ===== *)
(** * Truncation is correct

    Whatever the buffers do, [ext2_truncate] returns, and it frees only blocks of the file
    behind the new end; if it reports no error, it frees all of them and keeps the other
    pointers. *)

From S2P Require Import Prelude Bitops Fs Balloc Inode Ialloc Alloc Bmap Blktree Bufio Fballoc Truncate Cut.

(** ** [ext2_update] *)

(** The inode has a place in the inode table. *)
Record inode_ok (s : m_ext2fs) (f : file) (t : itable) : Prop := {
  no_number : 1 <= i_number f <= e2fs_ipg (geo s) * s_groups_count (geo s);
  no_table a blk : it_blocks t !! a = Some blk -> 0 < e2fs_ipb (geo s) <= Z.of_nat (length blk);
}.

(** The fields that an update does not change: all but the times and the flags. *)
Record same_file (f f' : file) : Prop := {
  sf_db : i_db (ip f') = i_db (ip f);
  sf_ib : i_ib (ip f') = i_ib (ip f);
  sf_size : i_size (ip f') = i_size (ip f);
  sf_blocks : i_blocks (ip f') = i_blocks (ip f);
  sf_mode : i_mode (ip f') = i_mode (ip f);
  sf_nlink : i_nlink (ip f') = i_nlink (ip f);
  sf_number : i_number f' = i_number f;
  sf_pblock : i_prealloc_block f' = i_prealloc_block f;
  sf_pcount : i_prealloc_count f' = i_prealloc_count f;
}.

Lemma same_file_trans f1 f2 f3 : same_file f1 f2 -> same_file f2 f3 -> same_file f1 f3.
Proof. intros [] []. split; congruence. Qed.

Section Update.
Context (now APPEND IMMUTABLE : Z) (no_uid32 : bool) (it_bad : Z -> bool).

Lemma itimes_same v f : same_file f (ext2_itimes now v f).
Proof.
  unfold ext2_itimes. set (f1 := if has_flag _ _ then _ else f).
  assert (same_file f f1) as S1 by (unfold f1; destruct (has_flag _ _); by split).
  apply (same_file_trans _ f1); [done|]. clearbody f1. destruct (_ =? 0); [by split|].
  destruct (v_type v), (v_rdonly v); by split.
Qed.

(** The place of an inode in the inode table. *)
Definition table_addr (s : m_ext2fs) (gd : group_desc) (ino : Z) : Z := u64 (Z.shiftl (ino_to_fsba (geo s) gd ino) (s_fsbtodb (geo s))).
Definition table_index (s : m_ext2fs) (ino : Z) : nat := Z.to_nat (ino_to_fsbo (geo s) ino).

(** An update that writes the inode: [ei] was its entry, and [written] tells whether the
    device took the new one. *)
Definition updated (s : m_ext2fs) (f1 : file) (t : itable) (f' : file) (t' : itable) (error : Z) : Prop :=
  exists gd blk ei, gd_of s (ino_to_cg (geo s) (i_number f1)) = Some gd /\
    let a := table_addr s gd (i_number f1) in let o := table_index s (i_number f1) in
    it_blocks t !! a = Some blk /\ blk !! o = Some ei /\
    let '(ei', i, sb) := ext2_i2ei APPEND IMMUTABLE no_uid32 (ip f1) ei (it_sb t) in
    f' = clear_flag (Z.lor IN_LAZYMOD IN_MODIFIED) (set_ip (fun _ => i) f1) /\
    (error = 0 /\ t' = mkItable (<[a := <[o := ei']> blk]> (it_blocks t)) sb \/
     error = EIO /\ it_bad a = true /\ t' = mkItable (it_blocks t) sb).

Lemma wp_update_cases (Q : file * itable * Z -> m_ext2fs -> Prop) v f t waitfor s :
  wf s -> inode_ok s f t -> let f1 := ext2_itimes now v f in
  (v_rdonly v = true -> Q (f, t, 0) s) ->
  (v_rdonly v = false -> has_flag (i_flag f1) IN_MODIFIED = false -> Q (f1, t, 0) s) ->
  (v_rdonly v = false -> has_flag (i_flag f1) IN_MODIFIED = true -> Q (f1, t, EIO) s) ->
  (forall f' t' error, v_rdonly v = false -> has_flag (i_flag f1) IN_MODIFIED = true ->
     updated s f1 t f' t' error -> Q (f', t', error) s) ->
  wp (ext2_update now APPEND IMMUTABLE no_uid32 it_bad v f t waitfor) Q s.
Proof.
  intros W I f1 H1 H2 H3 H4. unfold ext2_update. destruct (v_rdonly v); [by wp_steps; apply H1|].
  pose proof (itimes_same v f) as S1. fold f1 in S1 |- *. clearbody f1.
  destruct (has_flag (i_flag f1) IN_MODIFIED) eqn:Em; cbn [negb]; [|by wp_steps; apply H2]. wp_steps. unfold id.
  destruct I as [I1 I2]. rewrite <- (sf_number _ _ S1) in I1. pose proof (wg_size _ _ (wf_geometry _ W) InodeMap) as [Hs _]. cbn [bm_size] in Hs.
  assert (e2fs_ipg (geo s) * s_groups_count (geo s) < 2 ^ 31) as Hmax.
  { pose proof (wg_inodes31 _ _ (wf_geometry _ W)) as Hi. rewrite (wg_inodes _ _ (wf_geometry _ W)) in Hi. lia. }
  assert (u32 (i_number f1 - 1) = i_number f1 - 1) as Eu by (apply uintw_small; lia).
  destruct (wf_groups _ W (ino_to_cg (geo s) (i_number f1))) as (gd & Hgd & _).
  { unfold is_group, ino_to_cg. rewrite Eu. split; [apply Z.div_pos; lia|apply Z.div_lt_upper_bound; lia]. }
  pose proof Hgd as Hgd'. unfold gd_of in Hgd. rewrite Hgd. wp_steps. fold (table_addr s gd (i_number f1)).
  set (a := table_addr _ _ _). destruct (it_blocks t !! a) as [blk|] eqn:Eb; [|by wp_steps; apply H3].
  destruct (I2 a blk Eb) as [Hpos Hlen]. assert (0 <= ino_to_fsbo (geo s) (i_number f1) < e2fs_ipb (geo s)) as Ho.
  { unfold ino_to_fsbo. rewrite Eu. by apply Z.mod_pos_bound. }
  destruct (lookup_lt_is_Some_2 blk (table_index s (i_number f1))) as [ei Hei]; [unfold table_index; lia|].
  unfold table_index in Hei. rewrite Hei. wp_steps.
  assert (forall f' t' error, updated s f1 t f' t' error -> Q (f', t', error) s) as H5 by (intros; by apply H4). clear H1 H2 H3 H4.
  destruct (ext2_i2ei _ _ _ _ _ _) as [[ei' i] sb] eqn:Ei.
  assert (forall t' error, error = 0 /\ t' = mkItable (<[a := <[table_index s (i_number f1) := ei']> blk]> (it_blocks t)) sb \/
      error = EIO /\ it_bad a = true /\ t' = mkItable (it_blocks t) sb ->
    Q (clear_flag (Z.lor IN_LAZYMOD IN_MODIFIED) (set_ip (fun _ => i) f1), t', error) s) as H6.
  { intros t' error Ht. apply H5. exists gd, blk, ei. do 3 (split; [done|]). by rewrite Ei. }
  destruct (waitfor && _), (it_bad a) eqn:Ebad; wp_steps; apply H6; auto.
Qed.

Lemma wp_ext2_update (Q : file * itable * Z -> m_ext2fs -> Prop) v f t waitfor s :
  wf s -> inode_ok s f t ->
  (forall f' t' error, same_file f f' -> inode_ok s f' t' -> Q (f', t', error) s) ->
  wp (ext2_update now APPEND IMMUTABLE no_uid32 it_bad v f t waitfor) Q s.
Proof.
  intros W I HQ. pose proof (itimes_same v f) as S1. set (f1 := ext2_itimes now v f) in *.
  assert (inode_ok s f1 t) as I1 by (destruct I; split; [by rewrite (sf_number _ _ S1)|done]).
  apply wp_update_cases; [done|done|intros _; by apply HQ|intros; by apply HQ|intros; by apply HQ|].
  fold f1. intros f' t' error _ _ (gd & blk & ei & _ & Hb & _ & U). destruct (ext2_i2ei _ _ _ _ _ _) as [[ei' i] sb] eqn:Ei.
  destruct U as [-> U]. assert (same_file f1 (clear_flag (Z.lor IN_LAZYMOD IN_MODIFIED) (set_ip (fun _ => i) f1))) as S2.
  { unfold ext2_i2ei in Ei. injection Ei as _ <- _. by split. }
  apply HQ; [by eapply same_file_trans|]. split; [rewrite (sf_number _ _ S2); apply I1|].
  destruct U as [[_ ->]|(_ & _ & ->)]; cbn; [|apply I]. intros a' blk'. rewrite lookup_insert.
  destruct (decide _); [intros [= <-]|apply I]. rewrite length_insert. by apply (no_table _ _ _ I _ _ Hb).
Qed.
End Update.

(** ** The indirect blocks of the inode *)

Section Levels.
Context (ump : ext2mount) `{BufIOLaws ump}.
Local Abbreviation N := (um_nindir ump).
Context (s0 : m_ext2fs) (f0 : file) (b0 : bst) (S0 : file_state ump s0 f0 b0).
Context (HN : 4 <= N <= 2 ^ 10) (L : Z) (HL : L < base N 4) (HL1 : -1 <= L).

Local Abbreviation P0 := (P0 ump f0 b0).
Local Abbreviation cut_step := (cut_step ump s0 f0 b0 L).
Local Abbreviation usable := (usable ump f0 b0).
Local Abbreviation intact := (intact ump f0 b0).
Local Abbreviation alive := (alive s0).
Local Abbreviation last_rel := (last_rel ump L).

Lemma root_first a : 0 <= a -> first_block N (Trail [a]) = base N (a + 1).
Proof. intros Ha. cbn. lia. Qed.

Lemma kept_root a : 0 <= a < 3 -> last_rel [a] = if base N (a + 1) <=? L then L - base N (a + 1) else -1.
Proof. intros Ha. unfold Cut.last_rel. by rewrite root_first by lia. Qed.

(** What the C code computes. *)
Lemma base_small : base N 1 = 12 /\ base N 2 = 12 + N /\ base N 3 = 12 + N + N * N /\ base N 4 < 2 ^ 31 - 2 ^ 28.
Proof.
  destruct (base_values N) as (B1 & B2 & B3 & B4). assert (N ^ 2 = N * N) as E2 by apply Z.pow_2_r.
  assert (N ^ 2 <= 2 ^ 20) by (change (2 ^ 20) with ((2 ^ 10) ^ 2); apply Z.pow_le_mono_l; lia).
  assert (N ^ 3 <= 2 ^ 30) by (change (2 ^ 30) with ((2 ^ 10) ^ 3); apply Z.pow_le_mono_l; lia). lia.
Qed.

Lemma lastiblock_spec g a : NINDIR g = N -> (a < 3)%nat ->
  lastiblock g L !! a = Some (L - base N (Z.of_nat a + 1)) /\
  ((fun last => if last <? 0 then -1 else last) <$> lastiblock g L) !! a = Some (last_rel [Z.of_nat a]) /\
  indir_lbn g !! a = Some (lbn_of N [Z.of_nat a]).
Proof.
  intros Eg Ha. destruct base_small as (B1 & B2 & B3 & B4).
  assert (base N 3 < base N 4) as B34.
  { pose proof (base_mono N ltac:(lia) 3 4 ltac:(lia) ltac:(lia)). pose proof (Z.pow_pos_nonneg N 3 ltac:(lia) ltac:(lia)). lia. }
  assert (N * N <= 2 ^ 20) by nia.
  assert (lastiblock g L = [L - base N 1; L - base N 2; L - base N 3]) as ->.
  { unfold lastiblock, NDADDR. rewrite Eg. rewrite (sintw_small 32 (L - 12)) by lia.
    rewrite (sintw_small 32 (L - 12 - N)) by lia. rewrite (sintw_small 32 (L - 12 - N - N * N)) by lia.
    rewrite B1, B2, B3. by rewrite !Z.sub_add_distr. }
  assert (indir_lbn g = [- base N 1; - (base N 2 + 1); - (base N 3 + 2)]) as ->.
  { unfold indir_lbn, NDADDR. rewrite Eg. change (Z.opp 12) with (-12).
    rewrite (sintw_small 32 (-12 - N - 1)), (sintw_small 32 (-12 - N - 1 - N * N - 1)), B1, B2, B3 by lia.
    repeat (f_equal; try lia). }
  rewrite list_lookup_fmap. unfold lbn_of. rewrite kept_root, root_first by lia.
  assert (forall B h, (if L - B <? 0 then -1 else L - B) = (if B <=? L then L - B else -1) /\ - (B + h + 1 - 1) = - (B + h)) as E.
  { intros B h. destruct (Z.ltb_spec (L - B) 0), (Z.leb_spec B L); split; lia. }
  assert (a = 0 \/ a = 1 \/ a = 2)%nat as [-> | [-> | ->]] by lia; cbn -[base Z.add Z.sub]; (split; [done|]);
    (split; apply f_equal); try apply (E _ 0).
  - change (base N (Z.of_nat 0 + 1)) with (base N 1). lia.
  - change (base N (Z.of_nat 1 + 1)) with (base N 2). lia.
  - change (base N (Z.of_nat 2 + 1)) with (base N 3). lia.
Qed.

(** The trees of the first [n] indirect blocks of the inode. *)
Definition roots (n : nat) (x : list Z) : Prop := exists a u, 0 <= a < Z.of_nat n /\ x = a :: u.

Lemma roots_split n x : roots (S n) x <-> under [Z.of_nat n] x \/ roots n x.
Proof.
  split.
  - intros (a & u & Ha & ->). destruct (decide (a = Z.of_nat n)) as [->|]; [left; by exists u|right].
    exists a, u. split; [lia|done].
  - intros [[u ->]|(a & u & Ha & ->)]; [exists (Z.of_nat n), u|exists a, u]; split; (lia || done).
Qed.

Lemma roots_apart n x : under [Z.of_nat n] x -> roots n x -> False.
Proof. intros [u ->] (a & u' & Ha & E). injection E as <- _. lia. Qed.

(** The pointers of the inode that the loop over the first [n] levels leaves. *)
Definition ib_left (n : nat) (ib : list Z) : list Z :=
  imap (fun a p => if decide (a < n)%nat then if decide (L < base N (Z.of_nat a + 1)) then 0 else p else p) ib.

Lemma set_blks_blks db ib db' ib' i : set_blks db ib (set_blks db' ib' i) = set_blks db ib i.
Proof. done. Qed.

Lemma file_eta f : f = set_ip (set_blks (i_db (ip f)) (i_ib (ip f))) f.
Proof. destruct f as [i ????]. by destruct i. Qed.

Lemma set_ib_blks a f : set_ip (set_ib (Z.of_nat a) 0) f = set_ip (set_blks (i_db (ip f)) (<[a := 0]> (i_ib (ip f)))) f.
Proof. destruct f as [i ????]. destruct i. cbn. unfold set_ip, set_ib, set_blks. cbn. by rewrite Nat2Z.id. Qed.

Lemma ib_left_S n ib p : ib !! n = Some p ->
  ib_left (S n) ib = ib_left n (if decide (L < base N (Z.of_nat n + 1)) then <[n := 0]> ib else ib).
Proof.
  intros Hp. apply list_eq. intros a. unfold ib_left. rewrite !list_lookup_imap.
  destruct (decide (L < base N (Z.of_nat n + 1))) as [Hn|Hn].
  - destruct (decide (a = n)) as [->|Ha].
    + rewrite list_lookup_insert_eq by by eapply lookup_lt_Some. rewrite Hp. cbn.
      rewrite (decide_True (P := (n < S n)%nat)), decide_True by (done || lia). destruct (decide (n < n)%nat); (done || lia).
    + rewrite list_lookup_insert_ne by done. destruct (ib !! a); [|done]. cbn.
      destruct (decide (a < S n)%nat), (decide (a < n)%nat); (done || lia).
  - destruct (decide (a = n)) as [->|Ha].
    + rewrite Hp. cbn. rewrite (decide_True (P := (n < S n)%nat)), decide_False by (done || lia). destruct (decide (n < n)%nat); (done || lia).
    + destruct (ib !! a); [|done]. cbn. destruct (decide (a < S n)%nat), (decide (a < n)%nat); (done || lia).
Qed.

Lemma ib_left_kept n ib : (n = 0)%nat \/ base N (Z.of_nat n) <= L -> (n <= 3)%nat -> ib_left n ib = ib.
Proof.
  intros Hn Hn3. apply list_eq. intros a. unfold ib_left. rewrite list_lookup_imap. destruct (ib !! a) as [p|]; [|done]. cbn.
  destruct (decide (a < n)%nat) as [Ha|]; [|done]. destruct (decide (L < _)) as [HLa|]; [|done]. exfalso. destruct Hn as [->|Hn]; [lia|].
  destruct (decide (Z.of_nat a + 1 = Z.of_nat n)) as [E|E]; [rewrite E in HLa; lia|].
  pose proof (base_mono N ltac:(lia) (Z.of_nat a + 1) (Z.of_nat n) ltac:(lia) ltac:(lia)).
  pose proof (Z.pow_pos_nonneg N (Z.of_nat a + 1) ltac:(lia) ltac:(lia)). lia.
Qed.

(** What is kept behind the first levels that reach [L]. *)
Lemma cut_keep_roots n s b :
  alive s -> intact (roots n) b -> base N (Z.of_nat n + 1) <= L + 1 -> (n <= 3)%nat -> cut_step (on (roots n)) (roots n) s b 0 true s b.
Proof.
  intros Al I Hb Hn. assert (forall x, valid N (Trail x) -> roots n x -> first_block N (Trail x) <= L) as Hx.
  { intros x V (a & u & Ha & ->). pose proof (first_range N ltac:(lia) a u V) as [_ R].
    pose proof (height_valid _ _ V) as [Hh _]. pose proof (Z.pow_pos_nonneg N (height (a :: u)) ltac:(lia) ltac:(lia)).
    destruct (base_range N ltac:(lia) (a + 1) ltac:(lia)) as [_ E].
    assert (base N (a + 1 + 1) <= base N (Z.of_nat n + 1)); [|lia].
    destruct (decide (a + 1 = Z.of_nat n)) as [->|]; [lia|].
    pose proof (base_mono N ltac:(lia) (a + 1 + 1) (Z.of_nat n + 1) ltac:(lia) ltac:(lia)).
    pose proof (Z.pow_pos_nonneg N (a + 1 + 1) ltac:(lia) ltac:(lia)). lia. }
  apply (cut_keep ump s0 f0 b0 S0 HN L); [done|done|intros [i|x] V Hq; [done|by apply Hx]|].
  intros x o V (a & u & Ha & ->). apply Hx; [done|]. by exists a, (u ++ [o]).
Qed.

Lemma wp_truncate_levels g n : forall s f b released allerror,
  NINDIR g = N -> (n <= 3)%nat -> L < base N (Z.of_nat n + 1) ->
  (forall a, (a < n)%nat -> i_ib (ip f) !! a = i_ib (ip f0) !! a) -> length (i_ib (ip f)) = 3%nat ->
  alive s -> usable (on (roots n)) s -> intact (roots n) b ->
  wp (truncate_levels ((fun last => if last <? 0 then -1 else last) <$> lastiblock g L) (indir_lbn g) (rev (seq 0 n)) f b released allerror)
    (fun '(f', b', released', allerror', done) s' =>
       f' = set_ip (set_blks (i_db (ip f)) (ib_left n (i_ib (ip f)))) f /\
       done = bool_decide ((0 < n)%nat /\ base N 1 <= L) /\ exists c ok,
       cut_step (on (roots n)) (roots n) s b c ok s' b' /\ i32 released' = i32 (released + c) /\
       (allerror' = 0 -> allerror = 0 /\ ok = true)) s.
Proof.
  induction n as [|n IH]; intros s f b released allerror Eg Hn HLn Hib Hl Al U I.
  { cbn [seq rev truncate_levels]. wp_steps. split; [rewrite ib_left_kept by auto; by apply file_eta|].
    split; [by rewrite bool_decide_false by lia|]. exists 0, true. split; [|split; [f_equal; lia|done]].
    assert (forall x, ~ roots 0 x) as Hno by (intros x (a & u & Ha & _); lia).
    apply (cut_nil ump s0 f0 b0 S0 HN L); [done|intros [i|x] p _ Hx; [done|by destruct (Hno x)]|intros x p Hx; by destruct (Hno x)]. }
  rewrite seq_S, rev_app_distr. cbn [rev app Nat.add truncate_levels]. wp_steps. unfold id.
  destruct (lookup_lt_is_Some_2 (i_ib (ip f)) n) as [p Hp]; [lia|]. rewrite Hp. wp_steps.
  destruct (lastiblock_spec g n Eg ltac:(lia)) as (_ & -> & ->). wp_steps.
  assert (P0 (Trail [Z.of_nat n]) = Some p) as EP.
  { unfold Cut.P0. cbn. unfold aref. rewrite (proj2 (Z.ltb_ge _ 0)), Nat2Z.id, <- Hib by lia. done. }
  assert (valid N (Trail [Z.of_nat n])) as V by (cbn; unfold NIADDR; split_and!; (lia || by constructor)).
  pose proof (kept_root (Z.of_nat n) ltac:(lia)) as Ek.
  assert (last_rel [Z.of_nat n] < 0 <-> L < base N (Z.of_nat n + 1)) as Hneg.
  { rewrite Ek. destruct (Z.leb_spec (base N (Z.of_nat n + 1)) L); lia. }
  (* after the block itself *)
  assert (forall s1 b1 c ok released1 allerror1 ib1 f1,
    cut_step (on (under [Z.of_nat n])) (under [Z.of_nat n]) s b c ok s1 b1 -> i32 released1 = i32 (released + c) ->
    (allerror1 = 0 -> allerror = 0 /\ ok = true) ->
    ib1 = (if decide (L < base N (Z.of_nat n + 1)) then <[n := 0]> (i_ib (ip f)) else i_ib (ip f)) ->
    f1 = set_ip (set_blks (i_db (ip f)) ib1) f ->
    wp (if 0 <=? last_rel [Z.of_nat n] then mret (f1, b1, released1, allerror1, true)
        else truncate_levels ((fun last => if last <? 0 then -1 else last) <$> lastiblock g L) (indir_lbn g) (rev (seq 0 n))
               f1 b1 released1 allerror1)
      (fun '(f', b', released', allerror', done) s' =>
         f' = set_ip (set_blks (i_db (ip f)) (ib_left (S n) (i_ib (ip f)))) f /\
         done = bool_decide ((0 < S n)%nat /\ base N 1 <= L) /\ exists c ok,
         cut_step (on (roots (S n))) (roots (S n)) s b c ok s' b' /\ i32 released' = i32 (released + c) /\
         (allerror' = 0 -> allerror = 0 /\ ok = true)) s1) as Hnext.
  { intros s1 b1 c ok released1 allerror1 ib1 f1 C Hr He -> ->. rewrite (ib_left_S n _ p) by done. set (ib1 := if decide _ then _ else _).
    assert (alive s1) as Al1 by by eapply cut_alive.
    assert (intact (roots n) b1) as I1.
    { eapply (cut_intact ump s0 f0 b0 S0 HN L); [exact C|intros x _; apply roots_apart|]. intros x p' Hx. apply I, roots_split. by right. }
    assert (forall s' b' c2 ok2 released' allerror', cut_step (on (roots n)) (roots n) s1 b1 c2 ok2 s' b' ->
      i32 released' = i32 (released1 + c2) -> (allerror' = 0 -> allerror1 = 0 /\ ok2 = true) -> exists c ok,
      cut_step (on (roots (S n))) (roots (S n)) s b c ok s' b' /\ i32 released' = i32 (released + c) /\
         (allerror' = 0 -> allerror = 0 /\ ok = true)) as Hfin.
    { intros s' b' c2 ok2 released' allerror' C2 Hr2 He2. exists (c + c2), (ok && ok2). split; [|split].
      - eapply (cut_seq ump s0 f0 b0 S0 HN L); [exact C|exact C2|intros x _; apply roots_apart|intros [i|x] _ _; [cbn; tauto|apply roots_split]
          |intros x _; apply roots_split|done|by apply andb_prop].
      - rewrite Hr2, Z.add_assoc. by apply sintw_add.
      - intros E. destruct (He2 E) as [E1 ->]. by destruct (He E1) as [-> ->]. }
    destruct (Z.leb_spec 0 (last_rel [Z.of_nat n])) as [Hpos|Hlt].
    - wp_steps. assert (base N (Z.of_nat n + 1) <= L) as HLb by lia.
      split; [rewrite (ib_left_kept n); [done| |lia]|].
      { destruct n as [|n']; [by left|right]. destruct (base_range N ltac:(lia) (Z.of_nat (S n')) ltac:(lia)) as [_ E].
        pose proof (Z.pow_pos_nonneg N (Z.of_nat (S n')) ltac:(lia) ltac:(lia)). lia. }
      split.
      { rewrite bool_decide_true; [done|]. split; [lia|]. destruct (decide (n = 0%nat)) as [->|]; [done|].
        pose proof (base_mono N ltac:(lia) 1 (Z.of_nat n + 1) ltac:(lia) ltac:(lia)). lia. }
      apply (Hfin s1 b1 0 true); [|f_equal; lia|done]. apply cut_keep_roots; [done|done|lia|lia].
    - eapply wp_mono.
      + apply (IH s1 (set_ip (set_blks (i_db (ip f)) ib1) f) b1 released1 allerror1); [done|lia|lia| | |done| |done].
        * intros a Ha. cbn. rewrite <- Hib by lia. unfold ib1. destruct (decide _); [|done]. by rewrite list_lookup_insert_ne by lia.
        * cbn. unfold ib1. destruct (decide _); [by rewrite length_insert|done].
        * eapply (cut_usable ump s0 f0 b0 S0 L); [exact C|intros [i|x] _; [done|apply roots_apart]|].
          intros [i|x] p' V' Hx; [done|]. apply (U (Trail x)); [done|]. apply roots_split. by right.
      + intros [[[[f' b'] released'] allerror'] done] s' (-> & -> & c2 & ok2 & C2 & Hr2 & He2). split; [done|]. split.
        { apply bool_decide_ext. assert (L < base N (Z.of_nat n + 1)) by lia. destruct n; [|lia]. change (Z.of_nat 0 + 1) with 1 in *. lia. }
        by apply (Hfin s' b' c2 ok2). }
  destruct (Z.eqb_spec p 0) as [->|Hp0].
  { wp_steps. eapply (Hnext s b 0 true); [by apply (cut_hole ump s0 f0 b0 S0 HN L)|f_equal; lia|done|done|].
    destruct (decide _); [|by apply file_eta]. rewrite list_insert_id by done. by apply file_eta. }
  assert (block ump f0 b0 [Z.of_nat n] p) as Hbl by (split; [done|split; [cbn; lia|done]]).
  wp_steps. pose proof Al as (W & _ & Egeo). rewrite Egeo. eapply wp_mono.
  { apply (truncs_indirtrunc ump s0 f0 b0 S0 HN L n [Z.of_nat n] p s b Hbl); [cbn; lia|done| | |].
    - intros [i|x] p' V' Hx; [done|]. apply (U (Trail x)); [done|]. apply roots_split. left. apply under_strict. by right.
    - intros x p' Hx. apply I, roots_split. by left.
    - rewrite Ek. destruct (base_range N ltac:(lia) (Z.of_nat n + 1) ltac:(lia)) as [_ E].
      pose proof (Z.pow_pos_nonneg N (Z.of_nat n + 1) ltac:(lia) ltac:(lia)).
      destruct (Z.leb_spec (base N (Z.of_nat n + 1)) L); [|lia].
      replace (Z.of_nat (S n) + 1) with (Z.of_nat n + 1 + 1) in HLn by lia. lia. }
  intros [[b1 error] count] s1 C. assert (alive s1) as Al1 by by eapply cut_alive.
  wp_steps. destruct (Z.ltb_spec (last_rel [Z.of_nat n]) 0) as [Hlt|Hge].
  - wp_steps. pose proof Al1 as (_ & _ & Eg1). apply Hneg in Hlt.
    rewrite (mo_frag _ _ (st_mount _ _ _ _ S0)).
    apply (wp_cut_one ump s0 f0 b0 S0 HN L _ (Trail [Z.of_nat n]) p s1 b1); [done| |done|by rewrite root_first by lia|done|done|by rewrite Eg1|].
    { eapply (cut_usable ump s0 f0 b0 S0 L); [exact C| |].
      - intros q _ Hs <-. destruct Hs as (o & u & E). apply (f_equal length) in E. rewrite length_app in E. cbn in E. lia.
      - intros q p' V' <-. apply (U _ p' V'). apply roots_split. left. by exists []. }
    intros s2 C2. wp_steps. rewrite set_ib_blks.
    eapply (Hnext s2 b1 (count + btodb (s_blocksize (geo s0)) (s_d_blocksize (geo s0))) (error =? 0)).
    + eapply (cut_seq ump s0 f0 b0 S0 HN L); [exact C|exact C2|done| | |done|by auto].
      * intros [i|x] _ _; cbn; [naive_solver|]. rewrite under_strict. split; [intros [-> |]; auto|intros [?|[= <-]]; auto].
      * intros x _. split; [auto|tauto].
    + rewrite <- Z.add_assoc. apply sintw_add; [done|]. by apply sintw_add.
    + destruct (Z.eqb_spec error 0); [done|]. intros ->. done.
    + done.
    + by rewrite decide_True.
  - wp_steps.
    assert (~ L < base N (Z.of_nat n + 1)) as HnL by (intros Hx; apply Hneg in Hx; lia).
    eapply (Hnext s1 b1 count (error =? 0)); [|done| |done|rewrite decide_False by done; by apply file_eta].
    + eapply (cut_ext ump s0 f0 b0 HN L); [exact C| |done|done|done]. intros [i|x] V' HLx; [done|]. cbn. rewrite under_strict.
      split; [|auto]. intros [-> |]; [|done]. rewrite root_first in HLx by lia. lia.
    + destruct (Z.eqb_spec error 0); [done|]. intros ->. done.
Qed.

(** ** The direct blocks *)

Definition direct (n : nat) (q : slot) : Prop := exists i, q = Direct i /\ 0 <= i < Z.of_nat n.

Definition db_left (n : nat) (db : list Z) : list Z :=
  imap (fun i p => if decide ((i < n)%nat /\ L < Z.of_nat i) then 0 else p) db.

Lemma db_left_none n db : Z.of_nat n <= L + 1 -> db_left n db = db.
Proof.
  intros Hn. apply list_eq. intros i. unfold db_left. rewrite list_lookup_imap. destruct (db !! i); [|done]. cbn.
  rewrite decide_False; [done|lia].
Qed.

Lemma db_left_S n db p : db !! n = Some p -> L < Z.of_nat n -> db_left (S n) db = db_left n (<[n := 0]> db).
Proof.
  intros Hp Hn. apply list_eq. intros i. unfold db_left. rewrite !list_lookup_imap. destruct (decide (i = n)) as [->|Hi].
  - rewrite list_lookup_insert_eq by by eapply lookup_lt_Some. rewrite Hp. cbn. rewrite decide_True, decide_False by lia. done.
  - rewrite list_lookup_insert_ne by done. destruct (db !! i); [|done]. cbn.
    destruct (decide (_ /\ _)), (decide (_ /\ _)); (done || lia).
Qed.

Lemma direct_S n q : direct (S n) q <-> Direct (Z.of_nat n) = q \/ direct n q.
Proof.
  split.
  - intros (i & -> & Hi). destruct (decide (i = Z.of_nat n)) as [->|]; [by left|right]. exists i. split; [done|lia].
  - intros [<-|(i & -> & Hi)]; eexists; (split; [done|lia]).
Qed.

Lemma set_db_blks i f : set_ip (set_db (Z.of_nat i) 0) f = set_ip (set_blks (<[i := 0]> (i_db (ip f))) (i_ib (ip f))) f.
Proof. destruct f as [x ????]. destruct x. cbn. unfold set_ip, set_db, set_blks. cbn. by rewrite Nat2Z.id. Qed.

Lemma wp_truncate_direct n b : forall s f released,
  (n <= 12)%nat -> (forall i, (i < n)%nat -> i_db (ip f) !! i = i_db (ip f0) !! i) -> length (i_db (ip f)) = 12%nat ->
  alive s -> usable (direct n) s ->
  wp (truncate_direct L n f released)
    (fun '(f', released') s' => f' = set_ip (set_blks (db_left n (i_db (ip f))) (i_ib (ip f))) f /\ exists c,
       cut_step (direct n) (fun _ => False) s b c true s' b /\ i32 released' = i32 (released + c)) s.
Proof.
  induction n as [|n IH]; intros s f released Hn Hdb Hl Al U; cbn [truncate_direct].
  { wp_steps. split; [rewrite db_left_none by lia; by apply file_eta|]. exists 0. split; [|f_equal; lia].
    apply (cut_nil ump s0 f0 b0 S0 HN L); [done|intros q p _ (i & _ & Hi); lia|done]. }
  destruct (Z.leb_spec (Z.of_nat n) L) as [Hle|Hlt].
  { wp_steps. split; [rewrite db_left_none by lia; by apply file_eta|]. exists 0. split; [|f_equal; lia].
    apply (cut_nil ump s0 f0 b0 S0 HN L); [done|intros q p _ (i & -> & Hi) Hf; cbn in Hf; lia|done]. }
  destruct (lookup_lt_is_Some_2 (i_db (ip f)) n) as [p Hp]; [lia|]. rewrite Hp. wp_steps. rewrite (db_left_S n _ p) by done.
  assert (P0 (Direct (Z.of_nat n)) = Some p) as EP.
  { unfold Cut.P0. cbn. unfold aref. rewrite (proj2 (Z.ltb_ge _ 0)), Nat2Z.id, <- Hdb by lia. done. }
  assert (usable (direct n) s) as Un by (intros q p' V Hq; apply (U q p' V), direct_S; by right).
  destruct (Z.eqb_spec p 0) as [->|Hp0].
  { rewrite list_insert_id by done. eapply wp_mono; [apply IH; [lia|intros i Hi; apply Hdb; lia|done|done|done]|].
    intros [f' released'] s' (-> & c & C & Hr). split; [done|]. exists c. split; [|done].
    assert (cut_step (fun q => Direct (Z.of_nat n) = q) (fun _ => False) s b 0 true s b) as C0.
    { apply (cut_nil ump s0 f0 b0 S0 HN L); [done|intros q p' _ <- _ E'; congruence|done]. }
    eapply (cut_seq ump s0 f0 b0 S0 HN L); [exact C0|exact C|done|intros q _ _; apply direct_S|tauto|done|done]. }
  wp_steps. unfold id, blksize. pose proof Al as (_ & _ & Eg). rewrite Eg, (mo_frag _ _ (st_mount _ _ _ _ S0)).
  apply (wp_cut_one ump s0 f0 b0 S0 HN L _ (Direct (Z.of_nat n)) p s b); [done| |cbn; unfold NDADDR; lia|cbn; lia|done|done|by rewrite Eg|].
  { intros q p' V' <-. apply (U _ p' V'), direct_S. by left. }
  intros s1 C1. wp_steps. rewrite set_db_blks. eapply wp_mono.
  - apply (IH s1); [lia| |cbn; by rewrite length_insert|by eapply cut_alive|].
    + intros i Hi. cbn. rewrite list_lookup_insert_ne by lia. apply Hdb. lia.
    + eapply (cut_usable ump s0 f0 b0 S0 L); [exact C1| |done]. intros q _ <- (i & [= <-] & Hi). lia.
  - intros [f' released'] s' (-> & c & C & Hr). split; [done|]. eexists. split.
    + eapply (cut_seq ump s0 f0 b0 S0 HN L); [exact C1|exact C|done|intros q _ _; apply direct_S|tauto|done|done].
    + rewrite Hr. f_equal. lia.
Qed.

(** ** The tree that is left *)

Lemma cut_ptr A s1 b1 c s' b' ip' :
  cut_step A (roots 3) s1 b1 c true s' b' -> i_db ip' = db_left 12 (i_db (ip f0)) -> i_ib ip' = ib_left 3 (i_ib (ip f0)) ->
  forall q, valid N q -> slot_ptr ump (content b') ip' q = if decide (first_block N q <= L) then P0 q else Some 0.
Proof.
  intros C Ed Ei. pose proof (st_tree _ _ _ _ S0) as T. intros [i|t] V.
  { cbn in V |- *. unfold aref. rewrite (proj2 (Z.ltb_ge i 0)), Ed by lia. unfold db_left. rewrite list_lookup_imap.
    unfold Cut.P0. cbn. unfold aref. rewrite ?(proj2 (Z.ltb_ge i 0)) by lia. unfold NDADDR in V.
    destruct (lookup_lt_is_Some_2 (i_db (ip f0)) (Z.to_nat i)) as [p ->]; [rewrite (to_db _ _ _ _ T); lia|]. cbn.
    destruct (decide (_ /\ _)), (decide (_ <= L)); (done || lia). }
  induction t as [|o t IH] using rev_ind; [done|]. destruct (decide (t = [])) as [->|Ht].
  { cbn [app] in *. destruct V as (V & _). unfold NIADDR in V. rewrite root_first by lia. unfold Cut.P0.
    cbn [slot_ptr trail_ptr foldl]. unfold aref. rewrite (proj2 (Z.ltb_ge o 0)), Ei by lia. unfold ib_left. rewrite list_lookup_imap.
    destruct (lookup_lt_is_Some_2 (i_ib (ip f0)) (Z.to_nat o)) as [p ->]; [rewrite (to_ib _ _ _ _ T); lia|]. cbn [fmap option_fmap option_map].
    rewrite (decide_True (P := (Z.to_nat o < 3)%nat)), Z2Nat.id by lia.
    destruct (decide (L < _)), (decide (base N (o + 1) <= L)); (done || lia). }
  destruct (valid_prefix N t o V Ht) as (Vt & It & Ho). specialize (IH Vt). cbn [slot_ptr] in IH |- *.
  pose proof (first_app N ltac:(lia) t [o] Ht V) as [F1 _]. rewrite trail_snoc, IH by done.
  destruct (decide (first_block N (Trail t) <= L)) as [Hf|Hf].
  2:{ by rewrite (decide_False (P := first_block N (Trail (t ++ [o])) <= L)) by lia. }
  destruct (P0_value ump s0 f0 b0 S0 (Trail t) Vt) as (p & Ep & Hpr). rewrite Ep.
  destruct (decide (p = 0)) as [->|Hp0].
  { assert (P0 (Trail (t ++ [o])) = Some 0) as -> by by apply trail_below. by destruct (decide (first_block N (Trail (t ++ [o])) <= L)). }
  assert (block ump f0 b0 t p) as Hbl by by split.
  destruct (cs_trim _ _ _ _ _ _ _ _ _ _ _ _ _ C t p eq_refl) as (d & d' & D1 & D2 & D3); [|done|done|].
  { destruct t as [|a u]; [done|]. destruct Vt as (Va & _). exists a, u. by unfold NIADDR in Va. }
  pose proof (st_count _ _ _ _ S0).
  rewrite (ptr_step_block ump (s_blocks_count (s_es s0))), D2 by lia. cbn [mbind option_bind]. rewrite D3 by done.
  destruct (decide (first_block N (Trail (t ++ [o])) <= L)); [|done]. unfold Cut.P0 in *. cbn [slot_ptr] in *. rewrite trail_snoc, Ep by done.
  by rewrite (ptr_step_block ump (s_blocks_count (s_es s0))), D1 by lia.
Qed.

(** ** Freeing the blocks behind the end *)

(** The blocks of the file behind [L]. *)
Definition behind (p : Z) : Prop := gone ump f0 b0 L (fun _ => True) p.

(** The outcome: a set [G] of blocks behind the end is freed, and counted; if there is no
    error it is all of them, and the other pointers stay. *)
Record shortened (length error : Z) (G : gset Z) (s' : m_ext2fs) (f' : file) (b' : bst) : Prop := {
  sh_freed : freed_all s0 G s';
  sh_behind p : p ∈ G -> behind p;
  sh_all : error = 0 -> forall p, behind p -> p ∈ G;
  sh_state : error = 0 -> file_state ump s' f' b';
  sh_ptr : error = 0 -> forall q, valid N q ->
    slot_ptr ump (content b') (ip f') q = if decide (first_block N q <= L) then P0 q else Some 0;
  sh_blocks : i_blocks (ip f') = Z.max 0 (i32 (i_blocks (ip f0)
    - Z.of_nat (size G) * btodb (s_blocksize (geo s0)) (s_d_blocksize (geo s0))));
  sh_size : i_size (ip f') = length;
  sh_file : i_mode (ip f') = i_mode (ip f0) /\ i_nlink (ip f') = i_nlink (ip f0) /\ i_number f' = i_number f0 /\
    i_prealloc_block f' = i_prealloc_block f0 /\ i_prealloc_count f' = i_prealloc_count f0;
}.

Lemma start_usable A : usable A s0.
Proof.
  intros q p V _ E Hp. split; [|by apply (st_freeable _ _ _ _ S0 q)].
  destruct (to_ptr _ _ _ _ (st_tree _ _ _ _ S0) q V) as (p' & E' & Hin). unfold Cut.P0 in E.
  assert (p' = p) as -> by congruence. destruct Hin as [|Hin]; [done|]. unfold data_blocks in Hin.
  by apply elem_of_difference in Hin as [? _].
Qed.

Lemma start_intact B b : content b = content b0 -> (forall l a, cached b l = Some a -> cached b0 l = Some a) -> intact B b.
Proof.
  intros Ec Hca t p _ (V & I & E & Hp). split; [by rewrite Ec|]. intros a Ha. apply Hca in Ha.
  by apply (st_coherent _ _ _ _ S0 t p a V I E Hp).
Qed.

Lemma valid_parts q : valid N q -> on (roots 3) q \/ direct 12 q.
Proof.
  destruct q as [i|[|a u]]; [|done|].
  - intros V. right. exists i. by split.
  - intros (Ha & _). left. exists a, u. by unfold NIADDR in Ha.
Qed.

Lemma clamp x : (if x <? 0 then 0 else x) = Z.max 0 x.
Proof. destruct (Z.ltb_spec x 0); lia. Qed.

(** The final state, from the step on the whole tree. *)
Lemma shortened_intro A b1 count ok s' f' b' length error :
  cut_step A (roots 3) s0 b1 count ok s' b' -> (forall q, valid N q -> A q) ->
  content b1 = content b0 -> (forall l a, cached b1 l = Some a -> cached b0 l = Some a) ->
  (error = 0 -> ok = true) ->
  i_db (ip f') = db_left 12 (i_db (ip f0)) -> i_ib (ip f') = ib_left 3 (i_ib (ip f0)) ->
  i_blocks (ip f') = Z.max 0 (i32 (i_blocks (ip f0) - count)) -> i_size (ip f') = length ->
  i_mode (ip f') = i_mode (ip f0) /\ i_nlink (ip f') = i_nlink (ip f0) /\ i_number f' = i_number f0 /\
    i_prealloc_block f' = i_prealloc_block f0 /\ i_prealloc_count f' = i_prealloc_count f0 ->
  exists G, shortened length error G s' f' b'.
Proof.
  intros C HA Ec1 Hca1 Hok Ed Ei Eb Es Hf. destruct (cs_freed _ _ _ _ _ _ _ _ _ _ _ _ _ C) as (G & F & Hc & I & O).
  assert (error = 0 -> forall q, valid N q ->
    slot_ptr ump (content b') (ip f') q = if decide (first_block N q <= L) then P0 q else Some 0) as Hptr.
  { intros ->. rewrite Hok in C by done. by apply (cut_ptr A s0 b1 count s'). }
  exists G. split; try done.
  - intros p Hp. destruct (I p Hp) as (? & q & ? & ? & ?). split; [done|]. by exists q.
  - intros E p (Hp & q & V & _ & ?). apply (O (Hok E)). split; [done|]. exists q. auto.
  - intros E. specialize (Hptr E). destruct Hf as (Em & En & Eno & Epb & Epc).
    assert (window f' = window f0) as Ew by (unfold window; by rewrite Epb, Epc).
    assert (G ⊆ data_blocks s0 f0) as HG.
    { intros p Hp. destruct (I p Hp) as (Hp0 & q & V & _ & _ & Eq).
      destruct (to_ptr _ _ _ _ (st_tree _ _ _ _ S0) q V) as (p' & E' & Hin). unfold Cut.P0 in Eq.
      assert (p' = p) as -> by congruence. by destruct Hin. }
    assert (data_blocks s' f' = data_blocks s0 f0 ∖ G) as Edata.
    { unfold data_blocks. rewrite Ew, (fa_used _ _ _ F). set_solver. }
    pose proof S0 as [W Lk M Fo T HB FR CO]. split; try apply F.
    + destruct M as [M1 M2 M3 M4]. split; by rewrite (fa_geo _ _ _ F).
    + destruct Fo as [Fo1 Fo2]. split; rewrite ?Epb, ?Epc, ?Ew; [done|]. intros Hpos. destruct (Fo2 Hpos) as [Fo3 Fo4].
      split; [by apply (fa_freeable _ _ _ F)|]. rewrite (fa_used _ _ _ F). unfold data_blocks in HG. set_solver.
    + rewrite Edata. split.
      * rewrite Ed. unfold db_left. rewrite length_imap. apply T.
      * rewrite Ei. unfold ib_left. rewrite length_imap. apply T.
      * intros q V. rewrite Hptr by done. destruct (decide (first_block N q <= L)) as [Hq|Hq]; [|exists 0; auto].
        destruct (to_ptr _ _ _ _ T q V) as (p & Ep & Hin). exists p. split; [done|].
        destruct (decide (p = 0)) as [->|Hp0]; [by left|right]. destruct Hin as [|Hin]; [done|].
        apply elem_of_difference. split; [done|]. intros HGp.
        destruct (gone_slot ump s0 f0 b0 S0 L A q p (I p HGp) V Ep) as [_ Hlt]. lia.
      * intros q1 q2 p V1 V2. rewrite !Hptr by done.
        destruct (decide (first_block N q1 <= L)), (decide (first_block N q2 <= L)); try congruence.
        by apply (to_inj _ _ _ _ T).
    + rewrite Eb. pose proof (sintw_bound 32 (i_blocks (ip f0) - count) ltac:(lia)). unfold is_sint in *. lia.
    + intros q p V Ep Hp. cbn in Ep. rewrite Hptr in Ep by done.
      destruct (decide (first_block N q <= L)); [|congruence]. by apply (fa_freeable _ _ _ F), (FR q).
    + intros t p a V It Ep Hp Ha. change (slot_ptr ump (content b') (ip f') (Trail t) = Some p) in Ep.
      rewrite Hptr in Ep by done. destruct (decide (first_block N (Trail t) <= L)); [|congruence].
      apply (cs_cached _ _ _ _ _ _ _ _ _ _ _ _ _ C) in Ha as [(t' & p' & _ & Hbl & El & ->)|Ha].
      * apply (lbn_of_inj N ltac:(lia)) in El as <-; [|done|apply Hbl|done|apply Hbl].
        destruct Hbl as (_ & _ & Ep' & _). congruence.
      * by apply (CO t p a V It Ep Hp), Hca1.
  - rewrite Eb. f_equal. by apply sintw_sub.
Qed.

Lemma frag_same lastblock length f released s :
  alive s -> (0 <= lastblock < 12 -> is_Some (aref (i_db (ip f)) lastblock)) ->
  lastblock < 12 ->
  wp (truncate_frag lastblock length f released)
    (fun '(f', released') s' => s' = s /\ released' = released /\ (f' = f \/ f' = set_ip (set_size length) f)) s.
Proof.
  intros (W & _ & Eg) Hs Hlt. unfold truncate_frag. destruct (Z.ltb_spec lastblock 0); [by wp_steps; auto|].
  destruct Hs as [p Hp]; [lia|]. rewrite Hp. wp_steps. destruct (p =? 0); [by wp_steps; auto|]. wp_steps. unfold id, blksize.
  pose proof (wg_bsize _ _ (wf_geometry _ W)) as Hbs. rewrite Eg in *. rewrite (mo_frag _ _ (st_mount _ _ _ _ S0)), Z.sub_diag.
  rewrite (proj2 (Z.eqb_neq _ 0)) by lia. cbn [Z.ltb Z.compare]. wp_steps. auto.
Qed.

Lemma wp_truncate_free now APPEND IMMUTABLE no_uid32 it_bad (Q : file * bst * itable * Z -> m_ext2fs -> Prop) v f t length osize :
  i32 (lblkno (geo s0) (length + s_blocksize (geo s0) - 1) - 1) = L ->
  ip f0 = set_size (i_size (ip f0)) (ip f) -> i_prealloc_block f = i_prealloc_block f0 ->
  i_prealloc_count f = i_prealloc_count f0 -> i_number f = i_number f0 -> inode_ok s0 f t ->
  (forall f' b' t' error s' G, shortened length error G s' f' b' -> inode_ok s' f' t' -> Q (f', b', t', error) s') ->
  wp (truncate_free now APPEND IMMUTABLE no_uid32 it_bad v f b0 t length osize) Q s0.
Proof.
  intros EL Eip Epb Epc Eno In HQ. unfold truncate_free. wp_steps. unfold id. rewrite EL.
  assert (NINDIR (geo s0) = N) as EN by by rewrite (mo_nindir _ _ (st_mount _ _ _ _ S0)).
  assert (i_db (ip f0) = i_db (ip f) /\ i_ib (ip f0) = i_ib (ip f)) as [Edb Eib] by by rewrite Eip.
  set (f1 := set_flag _ _). wp_steps.
  apply wp_ext2_update; [apply S0|destruct In; by split|]. intros f2 t2 error2 Sf It2. wp_steps.
  set (f3 := set_ip _ f2).
  pose proof (invalidateblks_same (0 <? length) b0) as [E1 E2]. destruct (buf_invalidateblks _ b0) as [allerror b1]. cbn [snd] in E1, E2.
  assert (alive s0) as Al by (split; [apply S0|split; [apply S0|done]]).
  wp_steps. change [2; 1; 0]%nat with (rev (seq 0 3)). eapply wp_mono.
  { apply (wp_truncate_levels (geo s0) 3); [done|lia|done|intros a _; cbn; by rewrite Eib|cbn; rewrite <- Eib; apply (to_ib _ _ _ _ (st_tree _ _ _ _ S0))
      |done|apply start_usable|by apply start_intact]. }
  intros [[[[f4 b4] released] allerror4] done] s4 (E4 & Ed & c & ok & C & Hr & He). wp_steps.
  cbn [i_db i_ib ip f3 set_ip set_size set_blks] in E4. rewrite <- Edb, <- Eib in E4.
  assert (alive s4) as Al4 by by eapply cut_alive.
  assert (forall f6 released6 s6 c6, f6 = set_ip (set_blks (db_left 12 (i_db (ip f0))) (ib_left 3 (i_ib (ip f0)))) f3 \/
      f6 = set_ip (set_size length) (set_ip (set_blks (db_left 12 (i_db (ip f0))) (ib_left 3 (i_ib (ip f0)))) f3) ->
    cut_step (direct 12) (fun _ => False) s4 b4 c6 true s6 b4 -> i32 released6 = i32 (released + c6) ->
    wp (let n := i32 (i_blocks (ip f6) - released6) in
        let f := set_ip (fun i => set_blocks (if n <? 0 then 0 else n) (set_size length i)) f6 in
        mret (set_flag IN_CHANGE f, b4, t2, allerror4)) Q s6) as Hend.
  { intros f6 released6 s6 c6 E6 C6 Hr6. wp_steps.
    assert (cut_step (fun q => on (roots 3) q \/ direct 12 q) (roots 3) s0 b1 (c + c6) ok s6 b4) as C7.
    { eapply (cut_seq ump s0 f0 b0 S0 HN L); [exact C|exact C6|done|tauto|tauto|done|by auto]. }
    assert (forall x, i32 (x - released6) = i32 (x - (c + c6))) as Hsub.
    { intros x. apply sintw_sub. rewrite Hr6. by apply sintw_add. }
    edestruct (shortened_intro (fun q => on (roots 3) q \/ direct 12 q) b1 (c + c6) ok s6
      (set_flag IN_CHANGE (set_ip (fun i => set_blocks (if i32 (i_blocks (ip f6) - released6) <? 0 then 0
         else i32 (i_blocks (ip f6) - released6)) (set_size length i)) f6)) b4 length allerror4) as [G Sh].
    - exact C7.
    - apply valid_parts.
    - done.
    - done.
    - intros E. by apply He.
    - by destruct E6 as [-> | ->].
    - by destruct E6 as [-> | ->].
    - rewrite clamp, Hsub. assert (i_blocks (ip f6) = i_blocks (ip f0)) as Eb; [|by rewrite <- Eb].
      rewrite Eip. transitivity (i_blocks (ip f2)); [by destruct E6 as [-> | ->]|apply (sf_blocks _ _ Sf)].
    - done.
    - rewrite <- Epb, <- Epc, <- Eno. rewrite Eip. destruct Sf as [_ _ _ _ F1 F2 F3 F4 F5]. by destruct E6 as [-> | ->].
    - eapply HQ; [exact Sh|]. destruct It2 as [I1 I2]. destruct (cs_freed _ _ _ _ _ _ _ _ _ _ _ _ _ C7) as (G7 & F7 & _).
      split; rewrite (fa_geo _ _ _ F7); [|done]. by destruct E6 as [-> | ->]. }
  clear HQ. destruct (decide (base N 1 <= L)) as [Hdone|Hdone].
  - rewrite Ed, bool_decide_true by (split; [lia|done]). wp_steps. apply (Hend f4 released s4 0); [|..|f_equal; lia].
    + left. rewrite E4. f_equal. by rewrite db_left_none by (destruct base_small; lia).
    + apply (cut_nil ump s0 f0 b0 S0 HN L); [done|intros q p _ (i & -> & Hi) Hf; destruct base_small; cbn in Hf; lia|done].
  - rewrite Ed, bool_decide_false by (intros [? ?]; done). wp_steps. eapply wp_mono.
    { apply (wp_truncate_direct 12 b4); [lia|by intros i _; rewrite E4|rewrite E4; apply (to_db _ _ _ _ (st_tree _ _ _ _ S0))|done|].
      eapply (cut_usable ump s0 f0 b0 S0 L); [exact C|intros [i|x] _; [done|by intros _ (i & ? & _)]|apply start_usable]. }
    intros [f5 released5] s5 (E5 & c5 & C5 & Hr5). wp_steps.
    assert (f5 = set_ip (set_blks (db_left 12 (i_db (ip f0))) (ib_left 3 (i_ib (ip f0)))) f3) as E5' by by rewrite E5, E4.
    eapply wp_mono.
    { apply (frag_same L length f5 released5 s5); [by eapply cut_alive| |destruct base_small; lia].
      intros HLr. rewrite E5'. cbn. unfold aref. rewrite (proj2 (Z.ltb_ge L 0)) by lia. apply lookup_lt_is_Some_2.
      unfold db_left. rewrite length_imap, (to_db _ _ _ _ (st_tree _ _ _ _ S0)). lia. }
    intros [f6 released6] s6 (-> & -> & E6). wp_steps. eapply Hend; [|exact C5|done]. rewrite <- E5'. tauto.
Qed.
End Levels.

(** ** When the buffers are reliable, nothing fails *)

(** No operation of [ext2_truncate] on the buffers fails. *)
Record buf_reliable `{BufIO} : Prop := {
  br_write bp b : (buf_bwrite bp b).1 = 0;
  br_strategy bp b : (buf_strategy bp b).1.1 = 0;
  br_invalidate w b : (buf_invalidateblks w b).1 = 0;
}.

Section Reliable.
Context `{BufIO} (R : buf_reliable).

(** The loop over the entries, when the level below does not fail. *)
Lemma free_entries_yields rec copy last factor n :
  (forall r, rec = Some r -> forall b lbn lastbn dbn, yields (fun '(_, error, _) => error = 0) (r b lbn lastbn dbn)) ->
  forall b nlbn released, yields (fun '(_, _, _, allerror) => allerror = 0) (free_entries rec copy last factor n b nlbn released 0).
Proof.
  intros Hr. induction n as [|n IH]; intros b nlbn released; cbn [free_entries]; [by apply yields_ret|].
  apply yields_skip. intros nb. cbv zeta. destruct (i32 nb =? 0); [apply IH|]. apply yields_skip. intros s.
  apply (yields_bind (fun '(_, _, allerror) => allerror = 0)).
  - destruct rec as [r|]; [|by apply yields_ret]. eapply yields_bind; [by apply Hr|].
    intros [[b1 error] c] ->. by apply yields_ret.
  - intros [[b1 released1] allerror1] ->. apply yields_skip. intros _. cbv zeta. apply IH.
Qed.

Lemma indirtrunc_yields level : forall b lbn lastbn dbn,
  yields (fun '(_, error, _) => error = 0) (ext2_indirtrunc level b lbn lastbn dbn).
Proof.
  assert (forall level rec, (forall r, rec = Some r -> forall b lbn lastbn dbn, yields (fun '(_, error, _) => error = 0) (r b lbn lastbn dbn)) ->
    forall b lbn lastbn dbn, yields (fun '(_, error, _) => error = 0) (indirtrunc_level rec level b lbn lastbn dbn)) as Hl.
  { clear level. intros level rec Hr b lbn lastbn dbn. unfold indirtrunc_level. apply yields_skip. intros s. cbv zeta.
    destruct (buf_getblk lbn _ b) as [bp b1].
    assert (exists bp' b', (if buf_valid bp b1 then (0, bp, b1) else buf_strategy (buf_setblkno dbn bp) b1) = (0, bp', b')) as (bp' & b2 & ->).
    { destruct (buf_valid bp b1); [by do 2 eexists|]. pose proof (br_strategy R (buf_setblkno dbn bp) b1).
      destruct (buf_strategy _ b1) as [[e bp'] b']. cbn in *. subst. by do 2 eexists. }
    cbn [negb Z.eqb]. apply yields_skip. intros d. set (b3 := if _ =? _ then _ else _). set (nbp := buf_setdata d bp').
    pose proof (br_write R nbp b3) as Hw. destruct (buf_bwrite nbp b3) as [e b4]. cbn in Hw. subst e.
    eapply yields_bind; [by apply free_entries_yields|]. intros [[[b5 nlbn] released] allerror] ->.
    destruct rec as [r|]; [|by apply yields_ret]. destruct (0 <=? lastbn); [|by apply yields_ret].
    apply yields_skip. intros nb. cbv zeta. destruct (i32 nb =? 0); [by apply yields_ret|].
    eapply yields_bind; [by apply Hr|]. intros [[b6 error] c] ->. by apply yields_ret. }
  induction level as [|level IH]; [by apply (Hl O None)|].
  apply (Hl (S level) (Some (ext2_indirtrunc level))). intros r [= <-]. exact IH.
Qed.

Lemma truncate_levels_yields lasti lbns levels : forall f b released,
  yields (fun '(_, _, _, allerror, _) => allerror = 0) (truncate_levels lasti lbns levels f b released 0).
Proof.
  induction levels as [|level levels IH]; intros f b released; cbn [truncate_levels]; [by apply yields_ret|].
  do 4 (apply yields_skip; intros ?). apply (yields_bind (fun '(_, _, _, allerror) => allerror = 0)).
  - destruct (_ =? 0); [by apply yields_ret|]. eapply yields_bind; [by apply indirtrunc_yields|].
    intros [[b1 error] c] ->. cbv zeta. cbn [Z.eqb]. destruct (_ <? 0); [|by apply yields_ret].
    apply yields_skip. intros _. by apply yields_ret.
  - intros [[[f1 b1] released1] allerror1] ->. destruct (_ <=? _); [by apply yields_ret|]. apply IH.
Qed.

Lemma truncate_free_yields now APPEND IMMUTABLE no_uid32 it_bad v f b t length osize :
  yields (fun '(_, _, _, error) => error = 0) (truncate_free now APPEND IMMUTABLE no_uid32 it_bad v f b t length osize).
Proof.
  unfold truncate_free. apply yields_skip. intros s. cbv zeta. apply yields_skip. intros [[f1 t1] e1].
  pose proof (br_invalidate R (0 <? length) b) as Hi. destruct (buf_invalidateblks _ b) as [e b1]. cbn in Hi. subst e.
  eapply yields_bind; [apply truncate_levels_yields|]. intros [[[[f2 b2] released] allerror] done] ->.
  apply yields_skip. intros [f3 released3]. by apply yields_ret.
Qed.

End Reliable.

(** The end of [ext2_truncate] fails only if the buffers do. *)
Lemma truncate_free_error `{BufIO} now APPEND IMMUTABLE no_uid32 it_bad v f b t length osize :
  yields (fun '(_, _, _, error) => buf_reliable -> error = 0) (truncate_free now APPEND IMMUTABLE no_uid32 it_bad v f b t length osize).
Proof. intros s [[[f' b'] t'] error] s' E R. exact (truncate_free_yields R _ _ _ _ _ _ _ _ _ _ _ s _ s' E). Qed.
