(* ===== verification/Truncprops.v ===== *)
(** * Properties of truncation and of removing a file

    The theorems about [ext2_truncate] and [ext2_inactive] as wholes, with examples on a
    device in memory. *)

From S2P Require Import Prelude Bitops Fs Balloc Inode Ialloc Alloc Bmap Blktree Bufio Fballoc Truncate Cut Truncspec.

Section Shorten.
Context (ump : ext2mount) `{BufIOLaws ump}.
Local Abbreviation N := (um_nindir ump).
Local Abbreviation ptr := (fun b f => slot_ptr ump (content b) (ip f)).

(** *** The preallocation window is given back *)
Lemma discard_state s f b f1 s1 : file_state ump s f b -> discarded s f f1 s1 ->
  file_state ump s1 f1 b /\ data_blocks s1 f1 = data_blocks s f.
Proof.
  intros [W L M F T HB FR CO] [-> W1 L1 U1 Fr1 G1 E1 I1 K1]. set (f1 := set_prealloc _ _ _) in *.
  assert (data_blocks s1 f1 = data_blocks s f) as Ed.
  { unfold data_blocks, f1. rewrite window_emptied, U1. set_solver. }
  split; [|done]. split; try done.
  - destruct M. split; by rewrite G1.
  - by rewrite Ed.
  - intros q p V E Hp. by apply K1, (FR q).
Qed.

(** *** Writing a data block *)

(** [b'] differs from [b] in the block at [a], and in buffers of file blocks. *)
Definition data_written (a : Z) (b b' : bst) : Prop :=
  (forall a', a' <> a -> content b' a' = content b a') /\ others ump (fun l => 0 <= l) b b'.

Lemma written_state s f b b' q v :
  file_state ump s f b -> valid N q -> ~ indirect q -> ptr b f q = Some v -> v <> 0 ->
  data_written (blkptrtodb ump v) b b' ->
  file_state ump s f b' /\ forall q', valid N q' -> ptr b' f q' = ptr b f q'.
Proof.
  intros S V Hq Ev Hv [Hc Ho]. destruct (st_nindir _ _ _ _ S) as [HN _]. pose proof S as [W Lk M F T HB FR CO].
  assert (forall q', valid N q' -> ptr b' f q' = ptr b f q') as Hptr.
  { intros q' V'. apply (slot_ptr_indirect ump (s_blocks_count (s_es s)) (st_count _ _ _ _ S) _ _ _ (data_blocks s f)); try done.
    - by eapply st_blocks_in.
    - intros t p Vt It Ep Hp. apply Hc. intros E. apply (st_dev ump s f b) in E as ->; [|done|..].
      + apply Hq. enough (q = Trail t) as -> by done. by apply (to_inj _ _ _ _ T q (Trail t) v).
      + by apply (state_ptr ump s f b (Trail t)).
      + by apply (state_ptr ump s f b q). }
  split; [|done]. split; try done.
  - split; [apply T|apply T| |].
    + intros q' V'. cbn in Hptr. rewrite Hptr by done. by apply T.
    + intros q1 q2 p V1 V2. cbn in Hptr. rewrite !Hptr by done. by apply T.
  - intros q' p V' E. rewrite Hptr in E by done. by apply (FR q').
  - intros t p a Vt It Ep Hp Ha. specialize (Hptr (Trail t) Vt). cbn in Hptr. rewrite Hptr in Ep.
    apply (CO t p a Vt It Ep Hp). apply Ho; [|done]. pose proof (lbn_of_neg N HN t Vt It). lia.
Qed.

Lemma written_grown s f b new leak s' f' b1 b2 q v :
  grown ump s f b new leak s' f' b1 -> valid N q -> ~ indirect q -> ptr b1 f' q = Some v -> v <> 0 ->
  data_written (blkptrtodb ump v) b1 b2 -> grown ump s f b new leak s' f' b2.
Proof.
  intros G V Hq Ev Hv Hd. destruct (written_state s' f' b1 b2 q v (gr_state _ _ _ _ _ _ _ _ _ G) V Hq Ev Hv Hd) as [S Hp].
  destruct G. split; try done. intros q' V'. rewrite Hp by done. by apply gr_ptr.
Qed.

(** The write of the buffer, in each of the ways. *)
Lemma end_written (ubc sync : bool) length bp b :
  0 <= b_lblkno bp ->
  data_written (b_blkno bp) b
    (if ubc then ubc_setsize length (buf_bwrite bp (buf_markinvalid bp b)).2
     else if sync then (buf_bwrite bp b).2 else buf_bawrite bp b) /\
  data_written (b_blkno bp) b
    (if ubc then (buf_bwrite bp (buf_markinvalid bp b)).2
     else if sync then (buf_bwrite bp b).2 else buf_bawrite bp b).
Proof.
  intros Hl. assert (forall b1, data_written (b_blkno bp) b1 (buf_bwrite bp b1).2) as Hw.
  { intros b1. pose proof (bwrite_stores bp b1) as W. destruct (buf_bwrite bp b1) as [e b2]. destruct W as (W1 & _ & W3).
    split; [done|]. intros l a Hln Ha. apply W3 in Ha. rewrite decide_False in Ha; [done|]. intros ->. done. }
  assert (data_written (b_blkno bp) b (buf_bwrite bp (buf_markinvalid bp b)).2) as Hm.
  { destruct (Hw (buf_markinvalid bp b)) as [H1 H2]. destruct (markinvalid_same bp b) as [M1 M2].
    split; [intros a Ha; by rewrite H1, M1|]. intros l a Hln Ha. by apply M2, H2. }
  assert (data_written (b_blkno bp) b (buf_bawrite bp b)) as Ha.
  { destruct (bawrite_stores bp b) as [W1 W3]. split; [done|]. intros l a Hln Ha. apply W3 in Ha.
    rewrite decide_False in Ha; [done|]. intros ->. done. }
  split; destruct ubc; try (by destruct sync).
  destruct Hm as [H1 H2]. destruct (setsize_same length (buf_bwrite bp (buf_markinvalid bp b)).2) as [M1 M2].
  split; [intros a Ha'; by rewrite M1, H1|]. intros l a Hln Ha'. by apply H2, M2.
Qed.
End Shorten.

Section Run.
Context (ump : ext2mount) `{BufIOLaws ump} (junk : Z * Z) (cr_uid : Z).
Local Abbreviation N := (um_nindir ump).
Local Abbreviation ptr := (fun b f => slot_ptr ump (content b) (ip f)).

(** The flags for [ext2_balloc], and the synchronous writes whose errors it ignores. *)
Definition aflags (flags : Z) : Z := if has_flag flags IO_SYNC then Z.lor B_CLRBUF B_SYNC else B_CLRBUF.
Definition io_sync_ok (flags : Z) : Prop := has_flag flags IO_SYNC = false \/ forall bp b, (buf_bwrite bp b).1 = 0.

Lemma aflags_ok flags : io_sync_ok flags -> sync_ok (aflags flags) /\ alloc_buf (aflags flags) = true.
Proof.
  unfold io_sync_ok, sync_ok, aflags. intros Hs. destruct (has_flag flags IO_SYNC); (split; [|done]).
  - destruct Hs as [|Hs]; [done|by right].
  - by left.
Qed.

Lemma lblkno_div s x : mount_ok ump s -> lblkno (geo s) x = x / s_blocksize (geo s).
Proof.
  intros M. destruct (mo_pow2 _ _ M) as (k & Hk & E). unfold lblkno. rewrite E, Z.log2_pow2 by done.
  by rewrite Z.shiftr_div_pow2.
Qed.

Lemma nindir_bsize s f b : file_state ump s f b -> N = s_blocksize (geo s) / 4 /\ s_blocksize (geo s) = 4 * N /\ 32 <= s_blocksize (geo s).
Proof.
  intros S. pose proof (mo_nindir _ _ (st_mount _ _ _ _ S)) as E. pose proof (wg_bsize _ _ (wf_geometry _ (st_wf _ _ _ _ S))).
  destruct (wg_bsize8 _ _ (wf_geometry _ (st_wf _ _ _ _ S))) as [q Hq]. split; [done|]. split; [|lia].
  rewrite E, Hq. replace (q * 8) with ((2 * q) * 4) by lia. rewrite Z.div_mul by lia. lia.
Qed.

Lemma maxfilesize_blocks s f b : file_state ump s f b -> s_maxfilesize (geo s) = base N 4 * s_blocksize (geo s).
Proof.
  intros S. destruct (nindir_bsize s f b S) as (E & _ & _). destruct (base_values N) as (_ & _ & _ & ->).
  unfold s_maxfilesize. rewrite <- E. change (N ^ 3) with (N ^ (2 + 1)). rewrite Z.pow_add_r, Z.pow_1_r, !Z.pow_2_r by lia. lia.
Qed.

(** Block [bn] of a file of at most the maximal size. *)
Lemma block_of_size s f b x : file_state ump s f b -> N <= 2 ^ 10 -> 0 <= x < s_maxfilesize (geo s) ->
  file_block N (x / s_blocksize (geo s)) /\ i32 (lblkno (geo s) x) = x / s_blocksize (geo s).
Proof.
  intros S HN Hx. rewrite (maxfilesize_blocks s f b S) in Hx. destruct (nindir_bsize s f b S) as (_ & _ & Hbs).
  destruct (st_nindir _ _ _ _ S) as [HN' _]. destruct (base_small ump ltac:(lia)) as (_ & _ & _ & B4).
  rewrite lblkno_div by apply S. set (q := x / s_blocksize (geo s)).
  assert (0 <= q < base N 4) as Hq by (split; [apply Z.div_pos; lia|apply Z.div_lt_upper_bound; lia]).
  split; [split; lia|]. apply sintw_small; lia.
Qed.

(** A request for a block with its buffer. *)
Lemma wp_balloc_buf (Q : file * bst * (Z * option buf) -> m_ext2fs -> Prop) s f b bn size flags :
  io_sync_ok flags -> file_state ump s f b -> file_block N bn -> 0 < size <= s_blocksize (geo s) -> no_stray s f bn ->
  (forall new s1 f1 b1 bp v, grown ump s f b new 0 s1 f1 b1 -> slots_for (slot_of N bn) new ->
     ptr b1 f1 (slot_of N bn) = Some v -> v <> 0 -> b_lblkno bp = bn -> b_blkno bp = blkptrtodb ump v ->
     Q (f1, b1, (0, Some bp)) s1) ->
  (forall new leak s1 f1 b1 error, grown ump s f b new leak s1 f1 b1 -> only_indirect new ->
     fail_reason cr_uid s1 error -> Q (f1, b1, (error, None)) s1) ->
  wp (ext2_balloc junk cr_uid (aflags flags) ump f b bn size) Q s.
Proof.
  intros Hsy S Hbn Hsize Hns Hok Herr. destruct (aflags_ok flags Hsy) as [Hsync Hab]. unfold ext2_balloc. wp_steps.
  eapply wp_mono; [by apply (wp_balloc2 ump junk cr_uid (aflags flags) Hsync s f b bn size)|].
  intros [[f1 b1] r] s1 (new & leak & G & D). cbn [fst snd] in *. wp_steps.
  destruct D as [(-> & Sl & [V1 (v & Ev & Hv & Hb) _])|(On & Fr & Er)].
  - rewrite Hab in Hb. destruct Hb as (bp & -> & Hl & Hblk & _). rewrite V1. by apply (Hok new s1 f1 b1 bp v).
  - rewrite Er. by apply (Herr new leak).
Qed.

(** The size of the file does not matter for its state. *)
Lemma same_tree_state s f f' b :
  i_db (ip f') = i_db (ip f) -> i_ib (ip f') = i_ib (ip f) -> i_blocks (ip f') = i_blocks (ip f) ->
  i_prealloc_block f' = i_prealloc_block f -> i_prealloc_count f' = i_prealloc_count f ->
  file_state ump s f b -> file_state ump s f' b.
Proof.
  intros Ed Ei Eb Ep En [W L M F T HB FR CO].
  assert (forall q, ptr b f' q = ptr b f q) as Hp.
  { intros [i|[|a u]]; cbn; by rewrite ?Ed, ?Ei. }
  assert (window f' = window f) as Ew by (unfold window; by rewrite Ep, En).
  split; try done.
  - destruct F as [F1 F2]. split; by rewrite ?Ep, ?En, ?Ew.
  - assert (data_blocks s f' = data_blocks s f) as -> by (unfold data_blocks; by rewrite Ew). cbn in Hp.
    split; [rewrite Ed; apply T|rewrite Ei; apply T|intros q V; rewrite Hp; by apply T|].
    intros q1 q2 p V1 V2. rewrite !Hp. by apply T.
  - by rewrite Eb.
  - intros q p V E. rewrite Hp in E. by apply (FR q).
  - intros t p a V I E. specialize (Hp (Trail t)). cbn in Hp. rewrite Hp in E. by apply (CO t p a V I E).
Qed.

(** *** Shortening *)

Context (now APPEND IMMUTABLE : Z) (no_uid32 : bool) (it_bad : Z -> bool) (v : vnode).
Local Abbreviation truncate := (ext2_truncate now APPEND IMMUTABLE no_uid32 it_bad junk cr_uid ump v).

(** The pointers of the inode are block pointers, not the text of a symbolic link. *)
Definition has_blocks (f : file) : Prop := v_type v <> VLNK \/ v_maxsymlen v <= i_size (ip f).

Lemma has_blocks_false f : has_blocks f -> bool_decide (v_type v = VLNK) && (i_size (ip f) <? v_maxsymlen v) = false.
Proof.
  intros [Hv|Hs]; [by rewrite bool_decide_false|]. apply andb_false_iff. right. by apply Z.ltb_ge.
Qed.

(** The last block that is kept. *)
Definition last_block (s : m_ext2fs) (length : Z) : Z := (length + s_blocksize (geo s) - 1) / s_blocksize (geo s) - 1.

Lemma last_block_spec s length bn : 0 < s_blocksize (geo s) -> bn <= last_block s length <-> bn * s_blocksize (geo s) < length.
Proof.
  intros Hbs. unfold last_block. set (bs := s_blocksize (geo s)) in *.
  pose proof (Z.div_mod (length + bs - 1) bs ltac:(lia)) as E. pose proof (Z.mod_pos_bound (length + bs - 1) bs ltac:(lia)) as M.
  set (q := (length + bs - 1) / bs) in *. split; intros Hle.
  - assert (bn * bs <= (q - 1) * bs) by (apply Z.mul_le_mono_nonneg_r; lia). lia.
  - assert (~ q <= bn); [|lia]. intros Hq. assert (q * bs <= bn * bs) by (apply Z.mul_le_mono_nonneg_r; lia). lia.
Qed.

(** The end of the last block: it has storage, unless nothing needs to be cleared. *)
Definition ends_at (s : m_ext2fs) (f : file) (length : Z) (new : gmap slot Z) (s1 : m_ext2fs) (f1 : file) (b1 : bst) : Prop :=
  if length mod s_blocksize (geo s) =? 0 then new = ∅ /\ s1 = s /\ f1 = f
  else exists x, ptr b1 f1 (slot_of N (length / s_blocksize (geo s))) = Some x /\ x <> 0.

(** The call for the end of the last block. *)
Lemma wp_tail (Q : file * bst * Z -> m_ext2fs -> Prop) s f b length flags :
  io_sync_ok flags -> file_state ump s f b -> N <= 2 ^ 10 -> 0 <= length < i_size (ip f) -> i_size (ip f) <= s_maxfilesize (geo s) ->
  (forall new s1 f1 b1, grown ump s f b new 0 s1 f1 b1 -> slots_for (slot_of N (length / s_blocksize (geo s))) new ->
     ends_at s f length new s1 f1 b1 -> Q (set_ip (set_size length) f1, b1, 0) s1) ->
  (forall new leak s1 f1 b1 error, grown ump s f b new leak s1 f1 b1 -> only_indirect new ->
     length mod s_blocksize (geo s) <> 0 -> fail_reason cr_uid s1 error -> Q (f1, b1, error) s1) ->
  wp (truncate_tail junk cr_uid ump v f b length flags) Q s.
Proof.
  intros Hsy S HN Hlen Hmax Hok Herr. destruct (nindir_bsize s f b S) as (_ & _ & Hbs).
  pose proof (Z.mod_pos_bound length (s_blocksize (geo s)) ltac:(lia)) as Hmod.
  unfold truncate_tail. wp_steps. unfold id. rewrite (blkoff_mod ump s f b) by done.
  destruct (Z.eqb_spec (length mod s_blocksize (geo s)) 0) as [E0|Hne].
  { wp_steps. apply (Hok ∅ s f b); [by apply grown_refl; [|apply quiet_refl|..]|apply map_Forall_empty|].
    unfold ends_at. by rewrite E0. }
  destruct (block_of_size s f b length S HN ltac:(lia)) as [Hbn ->]. set (bs := s_blocksize (geo s)) in *. set (bn := length / bs) in *.
  pose proof (Z.div_mod length bs ltac:(lia)) as Ediv. fold bn in Ediv.
  wp_steps. apply (wp_balloc_buf _ s f b bn (length mod bs) flags Hsy S Hbn); [fold bs; lia| | |].
  - intros p _ _ _. fold bs. destruct (Z.leb_spec ((bn + 1) * bs) (i_size (ip f))); [by left|right].
    intros Em. pose proof (Z.div_mod (i_size (ip f)) bs ltac:(lia)) as E'. rewrite Em in E'.
    set (q := i_size (ip f) / bs) in *. assert (bn < q < bn + 1); [|lia].
    split; apply (Z.mul_lt_mono_pos_r bs); lia.
  - intros new s1 f1 b1 bp x G Sl Ex Hx Hl Hblk. cbn [negb Z.eqb]. wp_steps.
    destruct (st_nindir _ _ _ _ S) as [HN' _]. destruct (slot_of_valid N HN' bn Hbn) as [V Hleaf].
    set (zbp := buf_setdata _ bp). destruct (end_written ump (v_ubc v) (has_flag (aflags flags) B_SYNC) length zbp b1) as [_ Hd].
    { cbn. rewrite Hl. apply Hbn. }
    cbn in Hd. rewrite Hblk in Hd. destruct (written_state ump s1 f1 b1 _ _ x (gr_state _ _ _ _ _ _ _ _ _ G) V Hleaf Ex Hx Hd) as [_ Hp].
    eapply Hok; [|exact Sl|].
    + by eapply (written_grown ump s f b new 0 s1 f1 b1 _ (slot_of N bn) x).
    + unfold ends_at. fold bs. rewrite (proj2 (Z.eqb_neq _ 0)) by done. exists x. split; [|done]. by rewrite Hp.
  - intros new leak s1 f1 b1 error G On Fr. rewrite (proj2 (Z.eqb_neq error 0)) by apply Fr. cbn [negb]. wp_steps.
    by apply (Herr new leak).
Qed.

Lemma wp_truncate_shorten (Q : file * bst * itable * Z -> m_ext2fs -> Prop) s f b t length flags :
  io_sync_ok flags -> file_state ump s f b -> N <= 2 ^ 10 -> inode_ok s f t -> has_blocks f ->
  0 <= length < i_size (ip f) -> i_size (ip f) <= s_maxfilesize (geo s) ->
  (forall fd sd, discarded s f fd sd -> file_state ump sd fd b -> data_blocks sd fd = data_blocks s f ->
     forall new leak s1 f1 b1, grown ump sd fd b new leak s1 f1 b1 ->
     ((forall error, only_indirect new -> length mod s_blocksize (geo s) <> 0 -> fail_reason cr_uid s1 error ->
         Q (f1, b1, t, error) s1) /\
      (leak = 0 -> slots_for (slot_of N (length / s_blocksize (geo s))) new ->
       ends_at sd fd length new s1 f1 b1 -> forall f' b' t' error s' G, (buf_reliable -> error = 0) ->
         shortened ump s1 f1 b1 (last_block s length) length error G s' f' b' -> inode_ok s' f' t' -> Q (f', b', t', error) s'))) ->
  wp (truncate f b t length flags) Q s.
Proof.
  intros Hsy S HN In Hhas Hlen Hmax HQ. unfold ext2_truncate. wp_steps. unfold id.
  rewrite (proj2 (Z.ltb_ge length 0)), (proj2 (Z.ltb_ge (s_maxfilesize _) length)) by lia. cbn [orb].
  rewrite has_blocks_false by done. rewrite (proj2 (Z.eqb_neq _ length)) by lia.
  wp_steps. apply wp_discard; [apply S|apply S|apply S|]. intros fd sd D.
  destruct (discard_state ump s f b fd sd S D) as [Sd Ed]. specialize (HQ fd sd D Sd Ed).
  assert (ip fd = ip f) as Eip by by rewrite (di_file _ _ _ _ D).
  assert (geo sd = geo s) as Eg by apply D. rewrite (proj2 (Z.ltb_ge (i_size (ip f)) length)) by lia.
  set (b1 := if v_ubc v then _ else _).
  assert (quiet ump (ip fd) b b1) as Q1.
  { unfold b1. destruct (v_ubc v); [|apply quiet_refl]. destruct (setsize_same length b). by apply quiet_none. }
  destruct (invalidateblks_same (0 <? length) b1) as [I1 I2]. destruct (buf_invalidateblks _ b1) as [e1 b2]. cbn [snd] in I1, I2.
  pose proof (quiet_trans ump _ _ _ _ Q1 (quiet_none ump (ip fd) _ _ I1 I2)) as Q2. clear Q1 I1 I2. clearbody b1.
  wp_steps. apply (wp_tail _ sd fd b2); [done|by apply (state_quiet ump _ _ b)|done|by rewrite Eip|by rewrite Eip, Eg| |].
  - intros new s3 f3 b3 G Sl Hnew. rewrite Eg in Sl. cbn [negb Z.eqb]. wp_steps.
    apply (grown_content_l ump _ _ b) in G; [|apply Q2]. destruct (HQ new 0 s3 f3 b3 G) as [_ Hdone].
    pose proof (gr_zone _ _ _ _ _ _ _ _ _ G) as [_ Eg3]. destruct (nindir_bsize s f b S) as (_ & E4 & Hbs).
    assert (0 <= last_block s length + 1 <= base N 4) as HL.
    { unfold last_block. rewrite (maxfilesize_blocks s f b S) in Hmax. split; [pose proof (Z.div_pos (length + s_blocksize (geo s) - 1) (s_blocksize (geo s))); lia|].
      assert ((length + s_blocksize (geo s) - 1) / s_blocksize (geo s) < base N 4 + 1); [|lia]. apply Z.div_lt_upper_bound; lia. }
    destruct (st_nindir _ _ _ _ S) as [HN' _]. destruct (base_small ump ltac:(lia)) as (_ & _ & _ & B4).
    eapply wp_yields; [apply truncate_free_error|].
    apply (wp_truncate_free ump s3 f3 b3 (gr_state _ _ _ _ _ _ _ _ _ G) ltac:(lia) (last_block s length)); try done.
    + lia.
    + lia.
    + rewrite (lblkno_div s3) by apply (gr_state _ _ _ _ _ _ _ _ _ G). rewrite Eg3, Eg. fold (last_block s length). apply sintw_small; lia.
    + by destruct f3 as [x ????]; destruct x.
    + destruct In as [In1 In2]. split; rewrite Eg3, Eg; [|done]. cbn.
      rewrite (proj1 (gr_attr _ _ _ _ _ _ _ _ _ G)), (di_file _ _ _ _ D). done.
    + intros f' b' t' error s' Gs Sh It' He. by apply (Hdone eq_refl Sl Hnew f' b' t' error s' Gs).
  - intros new leak s3 f3 b3 error G On Hmod Fr. rewrite Eg in Hmod. rewrite (proj2 (Z.eqb_neq error 0)) by apply Fr. cbn [negb]. wp_steps.
    apply (grown_content_l ump _ _ b) in G; [|apply Q2]. by apply (proj1 (HQ new leak s3 f3 b3 G)).
Qed.

(** *** The outcome of shortening *)

(** The blocks behind the new end. *)
Definition behind_end (s : m_ext2fs) (f : file) (b : bst) (length p : Z) : Prop :=
  p <> 0 /\ exists q, valid N q /\ length <= first_block N q * s_blocksize (geo s) /\ ptr b f q = Some p.

(** The blocks [new] were added for the end of the last block, and the blocks [G] were
    freed. *)
Record truncated (s : m_ext2fs) (f : file) (b : bst) (length error : Z) (new G : gset Z)
    (s' : m_ext2fs) (f' : file) (b' : bst) (t' : itable) : Prop := {
  tr_data : data_blocks s' f' = (data_blocks s f ∪ new) ∖ G;
  tr_new : new ## data_blocks s f /\ (length mod s_blocksize (geo s) = 0 -> new = ∅);
  tr_gone p : p ∈ G -> behind_end s f b length p \/ p ∈ new;
  tr_free : s_free_blocks_count (s_es s') + i_prealloc_count f'
    = s_free_blocks_count (s_es s) + i_prealloc_count f - Z.of_nat (size new) + Z.of_nat (size G);
  tr_inodes : length = 0 -> used_inodes s' = used_inodes s /\ wf s' /\ s_lock s' = false;
  tr_geo : geo s' = geo s;
  tr_attr : same_attr f f' /\ (length = 0 -> i_prealloc_count f' = 0);
  tr_all : error = 0 -> forall p, behind_end s f b length p -> p ∈ G;
  tr_blocks : error = 0 -> i_blocks (ip f') = Z.max 0 (i32 (i_blocks (ip f)
    + (Z.of_nat (size new) - Z.of_nat (size G)) * btodb (s_blocksize (geo s)) (s_d_blocksize (geo s))));
  tr_error : (buf_reliable -> error = 0) \/ length mod s_blocksize (geo s) <> 0 /\ fail_reason cr_uid s' error;
  tr_inode : inode_ok s' f' t';
  tr_state : error = 0 -> file_state ump s' f' b' /\ i_size (ip f') = length;
  tr_ptr : error = 0 -> forall bn, file_block N bn -> let bs := s_blocksize (geo s) in
    let old := file_ptr ump (content b) (ip f) bn in let cur := file_ptr ump (content b') (ip f') bn in
    (length <= bn * bs -> cur = Some 0) /\ ((bn + 1) * bs <= length -> cur = old) /\
    (bn * bs < length < (bn + 1) * bs -> exists x, cur = Some x /\ x <> 0 /\ (old = Some x \/ old = Some 0 /\ x ∈ new));
}.

(** What both outcomes have from the call for the last block. *)
Section Outcome.
Context (s : m_ext2fs) (f : file) (b : bst) (length : Z) (S : file_state ump s f b) (HN10 : N <= 2 ^ 10).
Context (Hlen : 0 <= length < i_size (ip f)) (Hmax : i_size (ip f) <= s_maxfilesize (geo s)).
Context (fd : file) (sd : m_ext2fs) (D : discarded s f fd sd) (Sd : file_state ump sd fd b).
Context (Ed : data_blocks sd fd = data_blocks s f).
Context (new : gmap slot Z) (leak : Z) (s1 : m_ext2fs) (f1 : file) (b1 : bst) (G1 : grown ump sd fd b new leak s1 f1 b1).

Lemma discarded_ip : ip fd = ip f.
Proof. by rewrite (di_file _ _ _ _ D). Qed.

Lemma grown_data : data_blocks s1 f1 = data_blocks s f ∪ map_img new /\ (map_img new : gset Z) ## data_blocks s f /\
  size (map_img new : gset Z) = size new.
Proof.
  destruct (grown_set ump sd fd b new leak s1 f1 b1 Sd G1) as (E1 & E2 & _). rewrite <- Ed. split; [apply G1|done].
Qed.

Lemma grown_free : s_free_blocks_count (s_es s1) + i_prealloc_count f1
  = s_free_blocks_count (s_es s) + i_prealloc_count f - Z.of_nat (size (map_img new : gset Z)).
Proof.
  destruct grown_data as (_ & _ & ->). rewrite (gr_free _ _ _ _ _ _ _ _ _ G1), (di_free _ _ _ _ D), (di_file _ _ _ _ D). cbn. lia.
Qed.

Lemma grown_old_attr : same_attr f f1.
Proof. pose proof (gr_attr _ _ _ _ _ _ _ _ _ G1) as A. by rewrite (di_file _ _ _ _ D) in A. Qed.

Lemma geo_same : geo sd = geo s /\ geo s1 = geo s.
Proof. destruct (gr_zone _ _ _ _ _ _ _ _ _ G1) as [_ ->]. by rewrite (di_geo _ _ _ _ D). Qed.

Lemma truncated_failed error t : inode_ok s f t -> length mod s_blocksize (geo s) <> 0 -> fail_reason cr_uid s1 error ->
  truncated s f b length error (map_img new) ∅ s1 f1 b1 t.
Proof.
  intros [I1 I2] Hmod Hf. pose proof (proj1 Hf) as He. destruct grown_data as (E1 & E2 & E3).
  assert (length <> 0) as Hl by (intros ->; by rewrite Z.mod_0_l in Hmod by (intros E; rewrite E in Hmod; by destruct Hmod)).
  split; try done.
  - rewrite E1. set_solver.
  - rewrite grown_free, size_empty. lia.
  - apply geo_same.
  - split; [apply grown_old_attr|done].
  - by right.
  - destruct geo_same as [_ Eg]. split; rewrite Eg; [|done]. by rewrite (proj1 grown_old_attr).
Qed.

Lemma behind_cases p : behind ump f1 b1 (last_block s length) p ->
  behind_end s f b length p \/ p ∈ (map_img new : gset Z).
Proof.
  destruct (nindir_bsize s f b S) as (_ & _ & Hbs). intros (Hp & q & V & _ & HL & E). change (slot_ptr ump (content b1) (ip f1) q = Some p) in E.
  rewrite (gr_ptr _ _ _ _ _ _ _ _ _ G1 q V) in E. destruct (new !! q) as [x|] eqn:Ex.
  - right. apply elem_of_map_img. exists q. congruence.
  - left. split; [done|]. exists q. split; [done|]. rewrite discarded_ip in E. split; [|done].
    assert (~ first_block N q <= last_block s length) as Hn by lia. rewrite last_block_spec in Hn by lia. lia.
Qed.

Lemma behind_old p : behind_end s f b length p -> behind ump f1 b1 (last_block s length) p.
Proof.
  destruct (nindir_bsize s f b S) as (_ & _ & Hbs). intros (Hp & q & V & HL & E). split; [done|].
  exists q. split; [done|]. split; [done|]. split.
  - assert (~ first_block N q <= last_block s length) as Hn; [|lia]. rewrite last_block_spec by lia. lia.
  - change (slot_ptr ump (content b1) (ip f1) q = Some p). rewrite (gr_ptr _ _ _ _ _ _ _ _ _ G1 q V), discarded_ip. destruct (new !! q) as [x|] eqn:Ex; [|done].
    destruct (gr_new _ _ _ _ _ _ _ _ _ G1 q x Ex) as (_ & E0 & _). cbn in E0. rewrite discarded_ip in E0. congruence.
Qed.

Context (El : leak = 0) (Sl : slots_for (slot_of N (length / s_blocksize (geo s))) new) (En : ends_at sd fd length new s1 f1 b1).
Context (error : Z) (G : gset Z) (s' : m_ext2fs) (f' : file) (b' : bst) (t' : itable).
Context (Sh : shortened ump s1 f1 b1 (last_block s length) length error G s' f' b') (It : inode_ok s' f' t').
Context (He : buf_reliable -> error = 0).

Lemma shortened_data : data_blocks s' f' = data_blocks s1 f1 ∖ G.
Proof.
  destruct (sh_file _ _ _ _ _ _ _ _ _ _ _ Sh) as (_ & _ & _ & E1 & E2). unfold data_blocks, window.
  rewrite E1, E2, (fa_used _ _ _ (sh_freed _ _ _ _ _ _ _ _ _ _ _ Sh)). set_solver.
Qed.

Lemma truncated_ptr bn : error = 0 -> file_block N bn -> let bs := s_blocksize (geo s) in
  let old := file_ptr ump (content b) (ip f) bn in let cur := file_ptr ump (content b') (ip f') bn in
  (length <= bn * bs -> cur = Some 0) /\ ((bn + 1) * bs <= length -> cur = old) /\
  (bn * bs < length < (bn + 1) * bs -> exists x, cur = Some x /\ x <> 0 /\ (old = Some x \/ old = Some 0 /\ x ∈ (map_img new : gset Z))).
Proof.
  intros E Hbn bs old cur. destruct (st_nindir _ _ _ _ S) as [HN' _]. destruct (nindir_bsize s f b S) as (_ & _ & Hbs). fold bs in Hbs.
  destruct (block_of_size s f b length S HN10 ltac:(lia)) as [Hend _]. fold bs in Hend.
  destruct (slot_of_valid N HN' bn Hbn) as [V Hleaf]. destruct geo_same as [Egd _].
  assert (slot_ptr ump (content b1) (ip f1) (slot_of N bn) = match new !! slot_of N bn with Some x => Some x | None => old end) as E1.
  { rewrite (gr_ptr _ _ _ _ _ _ _ _ _ G1 _ V), discarded_ip. unfold old. by rewrite (file_ptr_slot N HN'). }
  assert (cur = if decide (bn * bs < length) then slot_ptr ump (content b1) (ip f1) (slot_of N bn) else Some 0) as E2.
  { unfold cur. rewrite (file_ptr_slot N HN') by done. rewrite (sh_ptr _ _ _ _ _ _ _ _ _ _ _ Sh E _ V), (first_slot_of N HN') by done.
    pose proof (last_block_spec s length bn ltac:(fold bs; lia)) as Hl. fold bs in Hl.
    by destruct (decide (bn <= last_block s length)), (decide (bn * bs < length)); try tauto. }
  split; [|split].
  - intros Hx. rewrite E2, decide_False by lia. done.
  - intros Hx. rewrite E2, decide_True by lia. rewrite E1.
    rewrite (slots_other ump sd fd b new leak s1 f1 b1 (length / bs) bn); try done.
    assert (bn + 1 <= length / bs) by (apply Z.div_le_lower_bound; lia). lia.
  - intros Hx. rewrite E2, decide_True by lia. unfold ends_at in En. rewrite Egd in En. fold bs in En.
    assert (bn = length / bs) as Eb by (apply (Z.div_unique_pos _ _ _ (length - bn * bs)); lia). rewrite <- Eb in En.
    destruct (Z.eqb_spec (length mod bs) 0) as [Em|Em].
    { pose proof (Z.div_mod length bs ltac:(lia)). rewrite <- Eb in *. lia. }
    destruct En as (x & Ex & Hx0). exists x. split; [done|]. split; [done|]. rewrite E1 in Ex.
    destruct (new !! slot_of N bn) as [y|] eqn:Ey; [right|by left]. injection Ex as ->.
    destruct (gr_new _ _ _ _ _ _ _ _ _ G1 _ _ Ey) as (_ & E0 & _). rewrite discarded_ip in E0. unfold old.
    rewrite (file_ptr_slot N HN') by done. split; [done|]. apply elem_of_map_img. by exists (slot_of N bn).
Qed.

Lemma truncated_done : truncated s f b length error (map_img new) G s' f' b' t'.
Proof.
  destruct grown_data as (E1 & E2 & E3), geo_same as [Egd Eg1]. pose proof (sh_file _ _ _ _ _ _ _ _ _ _ _ Sh) as (F1 & F2 & F3 & F4 & F5).
  pose proof (sh_freed _ _ _ _ _ _ _ _ _ _ _ Sh) as Fr. destruct grown_old_attr as (A1 & A2 & A3).
  assert (length mod s_blocksize (geo s) = 0 -> new = ∅ /\ s1 = sd /\ f1 = fd) as Hends.
  { intros Em. unfold ends_at in En. by rewrite Egd, Em in En. }
  assert (length = 0 -> length mod s_blocksize (geo s) = 0) as Hl0.
  { intros ->. apply Z.mod_0_l. destruct (nindir_bsize s f b S). lia. }
  split.
  - by rewrite shortened_data, E1.
  - split; [done|]. intros Em. destruct (Hends Em) as [-> _]. by rewrite map_img_empty_L.
  - intros p Hp. by apply behind_cases, (sh_behind _ _ _ _ _ _ _ _ _ _ _ Sh).
  - rewrite F5, (fa_free _ _ _ Fr). pose proof grown_free. lia.
  - intros Hz. destruct (Hends (Hl0 Hz)) as (_ & -> & _). rewrite (fa_inodes _ _ _ Fr), (di_inodes _ _ _ _ D).
    split; [done|]. split; apply Fr.
  - by rewrite (fa_geo _ _ _ Fr).
  - split; [unfold same_attr; split_and!; congruence|]. intros Hz. destruct (Hends (Hl0 Hz)) as (_ & _ & ->).
    by rewrite F5, (di_file _ _ _ _ D).
  - intros E p Hp. by apply (sh_all _ _ _ _ _ _ _ _ _ _ _ Sh E), behind_old.
  - intros _. rewrite (sh_blocks _ _ _ _ _ _ _ _ _ _ _ Sh), (gr_blocks _ _ _ _ _ _ _ _ _ G1), E3, El, discarded_ip, Eg1, Egd.
    f_equal. rewrite <- (Z.add_opp_r (sintw _ _)), sintw_add_l by done. f_equal. lia.
  - by left.
  - done.
  - intros E. split; [by apply (sh_state _ _ _ _ _ _ _ _ _ _ _ Sh)|apply Sh].
  - intros E bn Hbn. by apply truncated_ptr.
Qed.
End Outcome.

Lemma truncate_outcome s f b t length flags :
  io_sync_ok flags -> file_state ump s f b -> N <= 2 ^ 10 -> inode_ok s f t -> has_blocks f ->
  0 <= length < i_size (ip f) -> i_size (ip f) <= s_maxfilesize (geo s) ->
  wp (truncate f b t length flags)
    (fun '(f', b', t', error) s' => exists new G, truncated s f b length error new G s' f' b' t') s.
Proof.
  intros Hsy S HN In Hhas Hlen Hmax. apply wp_truncate_shorten; try done.
  intros fd sd D Sd Ed new leak s1 f1 b1 G1. split.
  - intros error _ Hmod He. exists (map_img new), ∅. by eapply truncated_failed.
  - intros El Sl En f' b' t' error s' G He Sh It. exists (map_img new), G.
    by eapply (truncated_done s f b length S HN Hlen Hmax fd sd D Sd Ed new leak s1 f1 b1 G1 El Sl En error G s' f' b' t' Sh It He).
Qed.
End Run.

(** No direct block lies behind the end of the file. *)
Definition tight (s : m_ext2fs) (f : file) : Prop :=
  forall i p, aref (i_db (ip f)) i = Some p -> p <> 0 -> i * s_blocksize (geo s) < i_size (ip f).

Section Truncation.
Context (ump : ext2mount) `{BufIOLaws ump} (junk : Z * Z) (cr_uid : Z).
Context (now APPEND IMMUTABLE : Z) (no_uid32 : bool) (it_bad : Z -> bool) (v : vnode).
Local Abbreviation N := (um_nindir ump).
Local Abbreviation truncate := (ext2_truncate now APPEND IMMUTABLE no_uid32 it_bad junk cr_uid ump v).

Context (s : m_ext2fs) (f : file) (b : bst) (t : itable) (length flags : Z).
Context (Hsync : io_sync_ok flags) (S : file_state ump s f b) (HN : N <= 2 ^ 10) (In : inode_ok s f t).
Local Abbreviation bs := (s_blocksize (geo s)).

Lemma direct_ptr s' f' b' i p : file_state ump s' f' b' -> aref (i_db (ip f')) i = Some p ->
  file_block N i /\ slot_of N i = Direct i /\ file_ptr ump (content b') (ip f') i = Some p.
Proof.
  intros S' E. destruct (st_nindir _ _ _ _ S') as [HN' _]. assert (0 <= i < NDADDR) as Hi.
  { unfold aref in E. destruct (Z.ltb_spec i 0); [done|]. apply lookup_lt_Some in E.
    rewrite (to_db _ _ _ _ (st_tree _ _ _ _ S')) in E. unfold NDADDR. lia. }
  assert (file_block N i) as Hb.
  { destruct (base_values N) as (_ & _ & _ & B4). unfold NDADDR in Hi. split; [split; [lia|]|lia]. rewrite B4. nia. }
  assert (slot_of N i = Direct i) as Es by (unfold slot_of; by rewrite (proj2 (Z.ltb_lt i NDADDR)) by lia).
  split; [done|]. split; [done|]. by rewrite (file_ptr_slot N HN'), Es.
Qed.

Lemma tight_holes s' f' b' : file_state ump s' f' b' ->
  (forall bn, file_block N bn -> i_size (ip f') <= bn * s_blocksize (geo s') -> file_ptr ump (content b') (ip f') bn = Some 0) -> tight s' f'.
Proof.
  intros S' Hh i p E Hp. destruct (direct_ptr s' f' b' i p S' E) as (Hb & _ & Ep).
  destruct (Z.ltb_spec (i * s_blocksize (geo s')) (i_size (ip f'))); [done|]. rewrite (Hh i Hb) in Ep by done. congruence.
Qed.

Section Shortening.
Context (Hhas : has_blocks v f) (Hlen : 0 <= length < i_size (ip f)) (Hmax : i_size (ip f) <= s_maxfilesize (geo s)).

(** C13: Shortening a file that has block pointers (no device, no fast symbolic link) always
    returns, whatever the reads and the delayed writes of the buffers do; blocks hold at
    most 1024 pointers, and with IO_SYNC the synchronous writes, whose errors the code
    drops, do not fail ([io_sync_ok]; without it, see [balloc_sync_error_lost]).  When no
    operation of the buffers fails, it fails only with ENOSPC, if the block that the new
    end cuts has no storage and no block is left for the caller.  If it reports no error,
    the file has the new size, its blocks behind the end are holes, every block before the
    end stays mapped where it was, and the block that the new end cuts is mapped, where it
    was or, if it was a hole, at a new block; the file system, the tree of the file and its
    inode stay well-formed. *)
Theorem truncate_shortens :
  exists f' b' t' error s', truncate f b t length flags s = Ret (f', b', t', error) s' /\
    (buf_reliable -> io_reliable -> error = 0 \/ error = ENOSPC /\ length mod bs <> 0 /\ no_space s' cr_uid = true) /\
    (error = 0 -> file_state ump s' f' b' /\ inode_ok s' f' t' /\ tight s' f' /\ i_size (ip f') = length /\
     forall bn, file_block N bn ->
       let old := file_ptr ump (content b) (ip f) bn in let cur := file_ptr ump (content b') (ip f') bn in
       (length <= bn * bs -> cur = Some 0) /\ ((bn + 1) * bs <= length -> cur = old) /\
       (bn * bs < length < (bn + 1) * bs ->
        exists x, cur = Some x /\ x <> 0 /\ (old = Some x \/ old = Some 0 /\ x ∉ data_blocks s f))).
Proof.
  destruct (proj1 (wp_run _ _ _) (truncate_outcome ump junk cr_uid now APPEND IMMUTABLE no_uid32 it_bad v s f b t length flags
    Hsync S HN In Hhas Hlen Hmax)) as ([[[f' b'] t'] error] & s' & E & new & G & []).
  exists f', b', t', error, s'. split; [done|]. split.
  { intros R1 R2. destruct tr_error0 as [He|[Hm [_ Hf]]]; [left; auto|right]. destruct (Hf R2). auto. }
  intros E0. destruct (tr_state0 E0) as (S' & Es).
  do 2 (split; [done|]). split; [|split; [done|]].
  { apply (tight_holes s' f' b' S'). rewrite Es, tr_geo0. intros bn Hbn. by apply (tr_ptr0 E0). } intros bn Hbn. destruct (tr_ptr0 E0 bn Hbn) as (P1 & P2 & P3). do 2 (split; [done|]).
  intros Hx. destruct (P3 Hx) as (x & Ex & Hx0 & [|[]]); exists x; do 2 (split; [done|]); [by left|right; set_solver].
Qed.

(** C17: The accounting of a truncation, whether it fails or not (under the conditions of
    the theorem before: block pointers, at most 1024 in a block, and no synchronous write
    that fails when IO_SYNC is given).  It may add the storage [new] of the block that the
    end cuts, and it frees a set [G] of blocks, all of them blocks of the file behind the
    new end (or of [new]): exactly these leave the used blocks, and the free blocks,
    counting the window, change by their numbers.  If there is no error, [G] has all of the
    file's blocks behind the end, data and indirect blocks, and [i_blocks] changes by the
    numbers too.  Nothing is added when the new size is a multiple of the block size. *)
Theorem truncate_accounts f' b' t' error s' :
  truncate f b t length flags s = Ret (f', b', t', error) s' ->
  exists new G : gset Z,
    data_blocks s' f' = (data_blocks s f ∪ new) ∖ G /\ new ## data_blocks s f /\
    (length mod bs = 0 -> new = ∅) /\
    (forall p, p ∈ G -> behind_end ump s f b length p \/ p ∈ new) /\
    (error = 0 -> forall p, behind_end ump s f b length p -> p ∈ G) /\
    s_free_blocks_count (s_es s') + i_prealloc_count f'
      = s_free_blocks_count (s_es s) + i_prealloc_count f - Z.of_nat (size new) + Z.of_nat (size G) /\
    (error = 0 -> i_blocks (ip f') = Z.max 0 (i32 (i_blocks (ip f)
       + (Z.of_nat (size new) - Z.of_nat (size G)) * btodb bs (s_d_blocksize (geo s))))).
Proof.
  intros E. pose proof (truncate_outcome ump junk cr_uid now APPEND IMMUTABLE no_uid32 it_bad v s f b t length flags
    Hsync S HN In Hhas Hlen Hmax) as W. unfold wp in W. rewrite E in W. destruct W as (new & G & []).
  destruct tr_new0. exists new, G. auto 10.
Qed.
End Shortening.

(** *** Lengthening *)

Lemma tight_no_stray bn : tight s f -> no_stray s f bn.
Proof.
  intros T p _ Ep Hp. specialize (T bn p Ep Hp). destruct (nindir_bsize ump s f b S) as (_ & _ & Hbs).
  destruct (Z.leb_spec ((bn + 1) * bs) (i_size (ip f))); [by left|right]. intros Em.
  pose proof (Z.div_mod (i_size (ip f)) bs ltac:(lia)) as E. rewrite Em in E. set (q := i_size (ip f) / bs) in *.
  assert (bn < q < bn + 1); [|lia]. split; apply (Z.mul_lt_mono_pos_r bs); lia.
Qed.

Section Lengthening.
Context (Hhas : has_blocks v f) (Hlen : 0 <= i_size (ip f) < length) (Hmax : length <= s_maxfilesize (geo s)) (T : tight s f).
Local Abbreviation last := ((length - 1) / bs).

(** What both outcomes have: [new] blocks were added, at most for the last one. *)
Lemma grown_tight fd sd new leak s1 f1 b1 : discarded s f fd sd -> file_state ump sd fd b ->
  grown ump sd fd b new leak s1 f1 b1 -> slots_for (slot_of N last) new ->
  (forall n, i_size (ip f) <= n -> (length <= n \/ only_indirect new) -> tight s1 (set_ip (set_size n) f1)).
Proof.
  intros D Sd G Sl n Hn Hor i p E Hp. destruct (gr_zone _ _ _ _ _ _ _ _ _ G) as [_ Eg]. rewrite Eg, (di_geo _ _ _ _ D). cbn in E |- *.
  destruct (direct_ptr s1 f1 b1 i p (gr_state _ _ _ _ _ _ _ _ _ G) E) as (Hb & Es & Ep).
  destruct (nindir_bsize ump s f b S) as (_ & _ & Hbs). destruct (new !! Direct i) as [x|] eqn:Ex.
  - destruct Hor as [Hl|On]; [|by destruct (On _ _ Ex)]. destruct (Sl _ _ Ex) as [Eq|[]]. rewrite <- Es in Eq.
    destruct (block_of_size ump s f b (length - 1) S HN ltac:(lia)) as [Hlast _].
    destruct (st_nindir _ _ _ _ S) as [HN' _]. apply (slot_of_inj N HN') in Eq as ->; [|done..].
    pose proof (Z.mul_div_le (length - 1) bs ltac:(lia)). lia.
  - rewrite <- Es in Ex. rewrite (grown_file_ptr ump sd fd b new leak s1 f1 b1 i G Hb Ex) in Ep.
    assert (aref (i_db (ip fd)) i = Some p) as E0.
    { destruct (st_nindir _ _ _ _ S) as [HN' _]. by rewrite (file_ptr_slot N HN'), Es in Ep. }
    rewrite (di_file _ _ _ _ D) in E0. specialize (T i p E0 Hp). lia.
Qed.

(** The outcome of lengthening: the file has the new size and storage for its last byte,
    or the size it had. *)
Record lengthened (error : Z) (s' : m_ext2fs) (f' : file) (b' : bst) (t' : itable) : Prop := {
  le_state : file_state ump s' f' b';
  le_inode : inode_ok s' f' t';
  le_tight : tight s' f';
  le_size : i_size (ip f') = length /\ (exists x, file_ptr ump (content b') (ip f') last = Some x /\ x <> 0) \/
    i_size (ip f') = i_size (ip f) /\ fail_reason cr_uid s' error;
  le_ptr bn : file_block N bn -> bn <> last \/ i_size (ip f') = i_size (ip f) ->
    file_ptr ump (content b') (ip f') bn = file_ptr ump (content b) (ip f) bn;
}.

Lemma same_file_lengthened error error' s' f1 f2 b' t1 t2 :
  same_file f1 f2 -> inode_ok s' f2 t2 -> i_size (ip f1) = length ->
  lengthened error s' f1 b' t1 -> lengthened error' s' f2 b' t2.
Proof.
  intros [D I Z B _ _ _ P1 P2] It2 Ez [S1 _ T1 [[_ Hx]|[Hz _]] P]; [|lia].
  assert (forall bn, file_ptr ump (content b') (ip f2) bn = file_ptr ump (content b') (ip f1) bn) as Ef.
  { intros bn. unfold file_ptr, path_ptr. by rewrite D, I. }
  split; [by apply (same_tree_state ump s' f1)|done| |left; rewrite Ef; split; [congruence|done]|].
  - intros i p. rewrite D, Z. apply T1.
  - intros bn Hbn Hor. rewrite Ef. apply P; [done|]. by rewrite <- Z.
Qed.

Lemma wp_truncate_lengthen :
  wp (truncate f b t length flags) (fun '(f', b', t', error) s' => lengthened error s' f' b' t') s.
Proof.
  destruct (nindir_bsize ump s f b S) as (_ & _ & Hbs). destruct (st_nindir _ _ _ _ S) as [HN' _].
  destruct (block_of_size ump s f b (length - 1) S HN ltac:(lia)) as [Hlast Elbn]. destruct (slot_of_valid N HN' _ Hlast) as [V Hleaf].
  unfold ext2_truncate. wp_steps. unfold id. rewrite (proj2 (Z.ltb_ge length 0)), (proj2 (Z.ltb_ge (s_maxfilesize _) length)) by lia. cbn [orb].
  rewrite has_blocks_false by done. rewrite (proj2 (Z.eqb_neq _ length)) by lia.
  wp_steps. apply wp_discard; [apply S|apply S|apply S|]. intros fd sd D.
  destruct (discard_state ump s f b fd sd S D) as [Sd Ed]. pose proof (discarded_ip s f fd sd D) as Eip.
  assert (geo sd = geo s) as Eg by apply D. rewrite (proj2 (Z.ltb_lt (i_size (ip f)) length)) by lia.
  unfold truncate_lengthen. wp_steps. unfold id. rewrite Eg, Elbn. cbv zeta.
  pose proof (Z.mod_pos_bound (length - 1) bs ltac:(lia)) as Hmod.
  assert (blkoff (geo s) (length - 1) = (length - 1) mod bs) as -> by by apply (blkoff_mod ump s f b).
  assert (forall bn, file_block N bn -> file_ptr ump (content b) (ip fd) bn = file_ptr ump (content b) (ip f) bn) as Efd by by rewrite Eip.
  apply (wp_balloc_buf ump junk cr_uid _ sd fd b last _ flags); [done|done|done|rewrite Eg; lia| | |].
  { intros p. rewrite Eip, Eg. by apply tight_no_stray. }
  - intros new s1 f1 b1 bp x G Sl Ex Hx Hl Hblk. cbn [negb Z.eqb]. wp_steps.
    set (b2 := if v_ubc v then _ else _). set (f2 := set_flag _ _).
    destruct (end_written ump (v_ubc v) (has_flag (aflags flags) B_SYNC) length bp b1 ltac:(rewrite Hl; apply Hlast)) as [Hd _].
    rewrite Hblk in Hd. change (data_written ump (blkptrtodb ump x) b1 b2) in Hd.
    destruct (written_state ump s1 f1 b1 b2 _ x (gr_state _ _ _ _ _ _ _ _ _ G) V Hleaf Ex Hx Hd) as [S2 Hp].
    pose proof (written_grown ump sd fd b new 0 s1 f1 b1 b2 _ x G V Hleaf Ex Hx Hd) as G2.
    destruct (gr_zone _ _ _ _ _ _ _ _ _ G) as [_ Eg1].
    assert (inode_ok s1 f2 t) as It.
    { destruct In as [I1 I2]. split; rewrite Eg1, Eg; [|done]. cbn.
      by rewrite (proj1 (gr_attr _ _ _ _ _ _ _ _ _ G)), (di_file _ _ _ _ D). }
    assert (lengthened 0 s1 f2 b2 t) as L.
    { split; [by apply (same_tree_state ump s1 f1)|done|..].
      - change (tight s1 (set_ip (set_size length) f1)). eapply grown_tight; [done..|lia|by left].
      - left. split; [done|]. exists x. split; [|done]. change (file_ptr ump (content b2) (ip f1) last = Some x).
        rewrite (file_ptr_slot N HN') by done. change (slot_ptr ump (content b2) (ip f1) (slot_of N last) = Some x).
        etrans; [by apply Hp|done].
      - cbn. intros bn Hbn [Hne|]; [|lia]. change (file_ptr ump (content b2) (ip f1) bn = file_ptr ump (content b) (ip f) bn).
        rewrite <- Efd by done. apply (grown_file_ptr ump sd fd b new 0 s1 f1 b2 bn G2 Hbn).
        by apply (slots_other ump sd fd b new 0 s1 f1 b2 last bn G2). }
    apply wp_ext2_update; [apply S2|done|]. intros f3 t3 error3 Sf It3. wp_steps.
    by apply (same_file_lengthened 0 error3 s1 f2 f3 b2 t t3 Sf It3).
  - intros new leak s1 f1 b1 error G On Fr. rewrite (proj2 (Z.eqb_neq error 0)) by apply Fr. cbn [negb]. wp_steps.
    pose proof (gr_size _ _ _ _ _ _ _ _ _ G) as Ez. rewrite Eip in Ez. destruct (gr_zone _ _ _ _ _ _ _ _ _ G) as [_ Eg1]. split.
    + apply G.
    + destruct In as [I1 I2]. split; rewrite Eg1, Eg; [|done].
      by rewrite (proj1 (gr_attr _ _ _ _ _ _ _ _ _ G)), (di_file _ _ _ _ D).
    + assert (slots_for (slot_of N last) new) as Sl by (intros q y Hq; right; by apply (On q y)).
      pose proof (grown_tight fd sd new leak s1 f1 b1 D Sd G Sl (i_size (ip f)) ltac:(lia) (or_intror On)) as Ht.
      intros i p Ei. rewrite Ez. exact (Ht i p Ei).
    + by right.
    + intros bn Hbn _. rewrite <- Efd by done. apply (grown_file_ptr ump sd fd b new leak s1 f1 b1 bn G Hbn). by apply indirect_slots.
Qed.

(** Lengthening a file always returns, and keeps the file system, the tree of the file
    and its inode well-formed.  Either the file has the new size, its last byte has
    storage, and every other block is mapped where it was, holes included; or the request
    for the block failed, with ENOSPC unless the buffers failed, and the size and the
    whole mapping are as before. *)
Theorem truncate_lengthens :
  exists f' b' t' error s', truncate f b t length flags s = Ret (f', b', t', error) s' /\
    file_state ump s' f' b' /\ inode_ok s' f' t' /\ tight s' f' /\
    (i_size (ip f') = length /\ (exists x, file_ptr ump (content b') (ip f') last = Some x /\ x <> 0) \/
     i_size (ip f') = i_size (ip f) /\ error <> 0 /\ (io_reliable -> error = ENOSPC /\ no_space s' cr_uid = true)) /\
    (forall bn, file_block N bn -> bn <> last \/ i_size (ip f') = i_size (ip f) ->
       file_ptr ump (content b') (ip f') bn = file_ptr ump (content b) (ip f) bn).
Proof.
  destruct (proj1 (wp_run _ _ _) wp_truncate_lengthen) as ([[[f' b'] t'] error] & s' & E & []).
  exists f', b', t', error, s'. auto 10.
Qed.
End Lengthening.
End Truncation.

(** ** Examples *)

(** A file that got its block 12 and the indirect block for it, with 13 blocks in size. *)
Definition long_run : m_ext2fs * file * memst :=
  match example_balloc 0 with Ret (f', b', _) s' => (s', set_ip (set_size 416) f', b') | _ => (example_fs, example_file, empty_mem) end.
Definition long_fs : m_ext2fs := long_run.1.1.
Definition long_file : file := long_run.1.2.
Definition long_mem : memst := long_run.2.
Definition no_table : itable := mkItable ∅ (mkSb 0 0 0 0 false).
Definition regular : vnode := mkVnode VREG false false true 60 false.

Lemma long_state :
  @file_state small_mount (mem_io small_mount no_bad no_bad) (mem_io_laws small_mount no_bad no_bad) long_fs long_file long_mem.
Proof.
  unfold long_fs, long_file, long_mem, long_run. destruct (example_balloc 0) as [[[f' b'] r] s'| | |] eqn:E; [|exact example_file_state..].
  destruct (@balloc_outcome small_mount (mem_io small_mount no_bad no_bad) (mem_io_laws small_mount no_bad no_bad) (0, 0) 0 0
    example_fs example_file empty_mem 12 32 f' b' r s' (or_introl eq_refl) example_file_state example_block_12
    ltac:(vm_compute; split; congruence) (example_no_stray 12) E) as (new & leak & G & _).
  exact (@same_tree_state small_mount (mem_io small_mount no_bad no_bad) (mem_io_laws small_mount no_bad no_bad) s' f'
    (set_ip (set_size 416) f') b' eq_refl eq_refl eq_refl eq_refl eq_refl (gr_state _ _ _ _ _ _ _ _ _ G)).
Qed.

Lemma long_inode : inode_ok long_fs long_file no_table.
Proof. split; [vm_compute; split; congruence|]. intros a blk E. cbn in E; by rewrite lookup_empty in E. Qed.

Lemma long_tight : tight long_fs long_file.
Proof.
  intros i p E Hp. change (i_db (ip long_file)) with (replicate 12 0) in E. unfold aref in E. destruct (i <? 0); [done|].
  by apply lookup_replicate in E as [-> _].
Qed.

Lemma small_nindir : um_nindir small_mount <= 2 ^ 10.
Proof. vm_compute. congruence. Qed.

Lemma long_blocks : has_blocks regular long_file /\ i_size (ip long_file) = 416 /\ s_maxfilesize (geo long_fs) = 19072.
Proof. split; [left; discriminate|split; vm_compute; reflexivity]. Qed.

(** [ext2_truncate] on the example. *)
Definition example_truncate (length : Z) :=
  @ext2_truncate 100 4 2 false no_bad (mem_io small_mount no_bad no_bad) (0, 0) 0 small_mount regular long_file long_mem no_table length 0 long_fs.

Lemma truncate_shortens_witness :
  exists f' b' t' s', example_truncate 33 = Ret (f', b', t', 0) s' /\ i_size (ip f') = 33 /\
    file_ptr small_mount (mem_content small_mount b') (ip f') 12 = Some 0 /\
    exists x, file_ptr small_mount (mem_content small_mount b') (ip f') 1 = Some x /\ x <> 0.
Proof.
  destruct long_blocks as (_ & Es0 & Em0).
  assert (0 <= 33 < i_size (ip long_file)) as H1 by (rewrite Es0; lia).
  assert (i_size (ip long_file) <= s_maxfilesize (geo long_fs)) as H2 by (rewrite Es0, Em0; lia).
  destruct (@truncate_shortens small_mount (mem_io small_mount no_bad no_bad) (mem_io_laws small_mount no_bad no_bad) (0, 0) 0
    100 4 2 false no_bad regular long_fs long_file long_mem no_table 33 0 (or_introl eq_refl) long_state small_nindir
    long_inode (proj1 long_blocks) H1 H2)
    as (f' & b' & t' & error & s' & E & _ & H).
  assert (error = 0) as ->.
  { change (example_truncate 33 = Ret (f', b', t', error) s') in E. vm_compute in E. injection E as _ _ _ <- _. reflexivity. }
  destruct (H eq_refl) as (_ & _ & _ & Es & Hp). exists f', b', t', s'. split; [exact E|]. split; [exact Es|]. split.
  - apply (Hp 12); [vm_compute; split; [split; congruence|reflexivity]|vm_compute; congruence].
  - destruct (Hp 1) as (_ & _ & H3); [vm_compute; split; [split; congruence|reflexivity]|].
    destruct H3 as (x & Ex & Hx & _); [vm_compute; split; congruence|]. exists x. split; [exact Ex|exact Hx].
Defined.

Lemma truncate_accounts_witness :
  exists f' b' t' error s' (new G : gset Z), example_truncate 0 = Ret (f', b', t', error) s' /\
    data_blocks s' f' = (data_blocks long_fs long_file ∪ new) ∖ G /\ new = ∅.
Proof.
  destruct (example_truncate 0) as [[[[f' b'] t'] error] s'| | |] eqn:E; [|vm_compute in E; discriminate E..].
  destruct long_blocks as (_ & Es0 & Em0).
  assert (0 <= 0 < i_size (ip long_file)) as H1 by (rewrite Es0; lia).
  assert (i_size (ip long_file) <= s_maxfilesize (geo long_fs)) as H2 by (rewrite Es0, Em0; lia).
  destruct (@truncate_accounts small_mount (mem_io small_mount no_bad no_bad) (mem_io_laws small_mount no_bad no_bad) (0, 0) 0
    100 4 2 false no_bad regular long_fs long_file long_mem no_table 0 0 (or_introl eq_refl) long_state small_nindir
    long_inode (proj1 long_blocks) H1 H2
    f' b' t' error s' E) as (new & G & Hd & _ & Hnew & _).
  exists f', b', t', error, s', new, G. split; [reflexivity|]. split; [exact Hd|]. apply Hnew. vm_compute. reflexivity.
Defined.

Lemma truncate_lengthens_witness :
  exists f' b' t' error s', example_truncate 1000 = Ret (f', b', t', error) s' /\ i_size (ip f') = 1000 /\
    exists x, file_ptr small_mount (mem_content small_mount b') (ip f') 31 = Some x /\ x <> 0.
Proof.
  destruct long_blocks as (_ & Es0 & Em0).
  assert (0 <= i_size (ip long_file) < 1000) as H1 by (rewrite Es0; lia).
  assert (1000 <= s_maxfilesize (geo long_fs)) as H2 by (rewrite Em0; lia).
  destruct (@truncate_lengthens small_mount (mem_io small_mount no_bad no_bad) (mem_io_laws small_mount no_bad no_bad) (0, 0) 0
    100 4 2 false no_bad regular long_fs long_file long_mem no_table 1000 0 (or_introl eq_refl) long_state small_nindir
    long_inode (proj1 long_blocks) H1 H2 long_tight)
    as (f' & b' & t' & error & s' & E & _ & _ & _ & H & _).
  exists f', b', t', error, s'. split; [exact E|].
  assert (i_size (ip f') = 1000) as Es.
  { change (example_truncate 1000 = Ret (f', b', t', error) s') in E. vm_compute in E. injection E as <- _ _ _ _. reflexivity. }
  split; [exact Es|]. destruct H as [[_ H]|[Es' _]]; [exact H|]. rewrite Es in Es'. vm_compute in Es'. discriminate Es'.
Defined.
