(* ===== verification/Inactive.v ===== *)
(** * Writing inodes back and removing files

    [ext2_update] stores the in-core inode in the inode table; [ext2_inactive] gives the
    blocks and the inode of a file without links back.  At the end, errors that these
    routines and [ext2_truncate] mishandle, on a device in memory. *)

From S2P Require Import Prelude Bitops Fs Balloc Inode Ialloc Alloc Bmap Blktree Bufio Fballoc Truncate Cut Truncspec Truncprops.

(** ** The inode table *)

(** The entry at index [o] of the block at [a], and the place of an inode. *)
Definition entry (t : itable) (a : Z) (o : nat) : option ext2_inode := it_blocks t !! a ≫= (.!! o).
Definition inode_place (s : m_ext2fs) (ino : Z) : option (Z * nat) :=
  gd ← gd_of s (ino_to_cg (geo s) ino); Some (table_addr s gd ino, table_index s ino).

Lemma entry_insert t a o ei blk sb a' o' :
  it_blocks t !! a = Some blk -> (o < length blk)%nat ->
  entry (mkItable (<[a := <[o := ei]> blk]> (it_blocks t)) sb) a' o' = if decide ((a, o) = (a', o')) then Some ei else entry t a' o'.
Proof.
  intros Hb Ho. unfold entry. cbn. rewrite lookup_insert. destruct (decide (a = a')) as [<-|Ha]; cbn.
  - rewrite Hb. cbn. rewrite list_lookup_insert. destruct (decide ((a, o) = (a, o'))) as [[= <-]|Hn].
    + by rewrite decide_True.
    + rewrite decide_False; [done|]. intros [-> _]. done.
  - rewrite decide_False; [done|]. by intros [= -> _].
Qed.

Lemma itimes_valid APPEND IMMUTABLE now v f :
  is_sint 32 now -> valid_inode APPEND IMMUTABLE (ip f) -> valid_inode APPEND IMMUTABLE (ip (ext2_itimes now v f)).
Proof.
  intros Hn V. unfold ext2_itimes. set (f1 := if has_flag _ EXT2_NOATIME_FL then _ else f).
  assert (ip f1 = ip f) as E by (unfold f1; by destruct (has_flag _ _)).
  clearbody f1. destruct (_ =? 0); [by rewrite E|]. set (f2 := match v_type v with VBLK | VCHR => _ | _ => _ end).
  assert (ip f2 = ip f) as E2 by (unfold f2; by destruct (v_type v)). clearbody f2. destruct (v_rdonly v); cbn; [by rewrite E2|].
  rewrite E2. destruct V as [V1 V2 V3 (V4 & V5 & V6) V7 V8 V9 V10 V11 V12 V13].
  split; try done. cbn. by destruct (has_flag _ _), (has_flag _ _), (has_flag _ _).
Qed.

Lemma flag_cleared m m' f : Z.land (u32 (Z.lnot m)) m' = 0 -> has_flag (i_flag (clear_flag m f)) m' = false.
Proof. intros E. unfold has_flag, clear_flag. cbn. by rewrite <- Z.land_assoc, E, Z.land_0_r. Qed.

(** C25: An update of an inode that has changes returns, for an inode with links on a file
    system with 32-bit owner ids that is not read-only, when the file is a regular one or
    its size fits 32 bits.  When it reports no error, the inode's entry of the inode table
    reads back as the in-core inode, which is no longer marked as modified; of the in-core
    inode only times and flags have changed.  Every other entry of the table is kept, and
    all of them when there is an error. *)
Theorem update_persists now APPEND IMMUTABLE it_bad v f t waitfor s :
  0 < APPEND -> 0 < IMMUTABLE -> Z.land APPEND IMMUTABLE = 0 -> is_sint 32 now ->
  wf s -> inode_ok s f t -> valid_inode APPEND IMMUTABLE (ip f) -> i_nlink (ip f) <> 0 ->
  (S_ISREG (i_mode (ip f)) = true \/ i_size (ip f) < 2 ^ 32) ->
  v_rdonly v = false -> has_flag (i_flag (ext2_itimes now v f)) IN_MODIFIED = true ->
  exists f' t' error, ext2_update now APPEND IMMUTABLE false it_bad v f t waitfor s = Ret (f', t', error) s /\
    same_file f f' /\
    (error = 0 -> exists a o, inode_place s (i_number f) = Some (a, o) /\
       ext2_ei2i APPEND IMMUTABLE false <$> entry t' a o = Some (ip f') /\ has_flag (i_flag f') IN_MODIFIED = false) /\
    (forall a o, error <> 0 \/ inode_place s (i_number f) <> Some (a, o) -> entry t' a o = entry t a o).
Proof.
  intros HA HI HAI Hnow W In V Hn Hs Hro Hm. set (f1 := ext2_itimes now v f) in *.
  pose proof (itimes_same now v f) as S1. fold f1 in S1. pose proof (itimes_valid APPEND IMMUTABLE now v f Hnow V) as V1. fold f1 in V1.
  match goal with |- exists f' t' error, _ = Ret _ s /\ ?P =>
    assert (wp (ext2_update now APPEND IMMUTABLE false it_bad v f t waitfor) (fun '(f', t', error) s' => s' = s /\ P) s) as Wp end.
  2:{ apply wp_run in Wp as ([[f' t'] error] & s' & E & -> & HP). by exists f', t', error. }
  apply wp_update_cases; [done|done|congruence|fold f1; congruence| |]; fold f1.
  - intros _ _. split; [done|]. split; [done|]. by split.
  - intros f' t' error _ _ (gd & blk & ei & Hgd & Hb & Hei & U). split; [done|].
    pose proof (write_read APPEND IMMUTABLE (ip f1) ei (it_sb t) HA HI HAI V1) as WR.
    rewrite (sf_nlink _ _ S1), (sf_mode _ _ S1), (sf_size _ _ S1) in WR. specialize (WR Hn Hs).
    rewrite (sf_number _ _ S1) in *. destruct (ext2_i2ei _ _ _ _ _ _) as [[ei' i] sb] eqn:Ei. destruct U as [-> U].
    assert (inode_place s (i_number f) = Some (table_addr s gd (i_number f), table_index s (i_number f))) as Epl
      by (unfold inode_place; by rewrite Hgd).
    assert (table_index s (i_number f) < length blk)%nat as Hlen by by eapply lookup_lt_Some.
    split.
    { apply (same_file_trans _ f1); [done|]. unfold ext2_i2ei in Ei. injection Ei as _ <- _. by split. }
    destruct U as [[-> ->]|(-> & _ & ->)].
    + split.
      * intros _. exists (table_addr s gd (i_number f)), (table_index s (i_number f)). split; [done|].
        rewrite (entry_insert _ _ _ _ blk), decide_True by done. cbn. rewrite WR. split; [done|]. by apply flag_cleared.
      * intros a o [|Hne]; [done|]. rewrite (entry_insert _ _ _ _ blk), decide_False by (done || congruence). done.
    + by split.
Qed.

(** ** [ext2_inactive] *)

Section Inactive.
Context (ump : ext2mount) `{BufIOLaws ump} (junk : Z * Z).
Context (now APPEND IMMUTABLE : Z) (no_uid32 : bool) (it_bad : Z -> bool) (v : vnode).
Local Abbreviation N := (um_nindir ump).

(** What is left after the removal: the blocks [G] of the file are free, the window too,
    and the inode. *)
Record removed (s : m_ext2fs) (f : file) (b : bst) (error : Z) (G : gset Z) (s' : m_ext2fs) (f' : file) : Prop := {
  rm_wf : wf s' /\ s_lock s' = false /\ geo s' = geo s;
  rm_used : used_blocks s' = data_blocks s f ∖ G;
  rm_owned p : p ∈ G -> owns ump (content b) (ip f) p;
  rm_all : error = 0 -> forall p, owns ump (content b) (ip f) p -> p ∈ G;
  rm_free : s_free_blocks_count (s_es s') = s_free_blocks_count (s_es s) + i_prealloc_count f + Z.of_nat (size G);
  rm_inode : used_inodes s' = used_inodes s ∖ {[i_number f]};
  rm_mode : i_mode (ip f') = 0;
  rm_error : buf_reliable -> error = 0;
}.

Section Unlinked.
Context (s : m_ext2fs) (f : file) (b : bst) (t : itable) (S : file_state ump s f b) (HN : N <= 2 ^ 10) (In : inode_ok s f t).
Context (Hhas : has_blocks v f) (Hsize : 0 < i_size (ip f) <= s_maxfilesize (geo s)).
Context (Hnlink : i_nlink (ip f) = 0) (Hmode : i_mode (ip f) <> 0).
Context (Hino : EXT2_FIRST_INO <= i_number f <= s_inodes_count (s_es s)).

Lemma wp_remove_unlinked fd sd : discarded s f fd sd -> file_state ump sd fd b -> data_blocks sd fd = data_blocks s f ->
  wp (remove_unlinked now APPEND IMMUTABLE no_uid32 it_bad junk ump v fd b t)
    (fun '(f', b', t', error) s' => inode_ok s' f' t' /\ exists G, removed s f b error G s' f') sd.
Proof.
  intros D Sd Ed. pose proof (discarded_ip s f fd sd D) as Eip. pose proof (di_geo _ _ _ _ D) as Eg.
  destruct (st_nindir _ _ _ _ S) as [HN' _]. destruct (nindir_bsize ump s f b S) as (_ & _ & Hbs).
  assert (i_number fd = i_number f) as Eno by by rewrite (di_file _ _ _ _ D).
  unfold remove_unlinked. wp_steps. eapply wp_mono.
  { apply (truncate_outcome ump junk 0 now APPEND IMMUTABLE no_uid32 it_bad v sd fd b t 0 0); rewrite ?Eip, ?Eg; try done; try lia.
    - by left.
    - destruct In as [I1 I2]. split; by rewrite Eg, ?Eno.
    - unfold has_blocks. by rewrite Eip. }
  intros [[[f1 b1] t1] error] s1 (new & G & []). wp_steps. destruct (tr_inodes eq_refl) as (U1 & W1 & L1).
  destruct tr_attr as [(A1 & A2 & A3) Hpc]. specialize (Hpc eq_refl). destruct tr_new as [_ Hnew].
  rewrite Eg in Hnew. specialize (Hnew (Z.mod_0_l (s_blocksize (geo s)) ltac:(lia))). subst new. rewrite Eip in A2, A3.
  set (f2 := set_flag _ _). assert (i_number f1 = i_number f2) as En by done. rewrite A1, Eno in En.
  assert (s_inodes_count (s_es s1) = s_inodes_count (s_es s)) as Eic.
  { rewrite (wg_inodes _ _ (wf_geometry _ W1)), (wg_inodes _ _ (wf_geometry _ (st_wf _ _ _ _ S))). by rewrite tr_geo, Eg. }
  apply wp_vfree; [done|done|done|cbn; congruence|rewrite Eic, <- En; lia|].
  intros s' W' L' Eg' EB EI EF. wp_steps. rewrite <- En in EI. split.
  { destruct tr_inode as [I1 I2]. split; by rewrite Eg'. }
  exists G. split; try done.
  - split; [done|]. split; [done|]. by rewrite Eg', tr_geo.
  - rewrite EB. unfold data_blocks at 1 in tr_data. rewrite (window_empty f1 Hpc), difference_empty_L, union_empty_r_L, Ed in tr_data. done.
  - intros p Hp. destruct (tr_gone p Hp) as [(Hp0 & q & V & _ & E)|Hp']; [|by apply elem_of_empty in Hp']. rewrite Eip in E. split; [done|]. by exists q.
  - intros E p (Hp0 & q & V & Ep). apply (tr_all E). split; [done|]. exists q. rewrite Eip. split; [done|]. split; [|done].
    rewrite Eg. pose proof (first_nonneg N HN' q V). apply Z.mul_nonneg_nonneg; lia.
  - rewrite EF. rewrite Hpc, (di_file _ _ _ _ D), (di_free _ _ _ _ D), size_empty in tr_free. cbn in tr_free. lia.
  - by rewrite EI, U1, (di_inodes _ _ _ _ D).
  - intros R. destruct tr_error as [He|[Hm _]]; [by apply He|]. rewrite Eg in Hm. by rewrite Z.mod_0_l in Hm by lia.
Qed.

(** C16: When the last reference is dropped to a file without links that has block pointers
    and a size above 0, [ext2_inactive] returns and removes the file: its inode is free and
    its vnode is to be recycled, the preallocation window is returned, and only blocks of
    the file are freed; all of them, data and indirect blocks, when there is no error,
    which is so when the buffers do not fail.  The file system stays well-formed, and the
    free count is exact.  (Blocks hold at most 1024 pointers; for a file of size 0 that has
    blocks see [inactive_leaks].) *)
Theorem inactive_removes :
  exists f' b' t' error recycle s',
    ext2_inactive now APPEND IMMUTABLE no_uid32 it_bad junk ump v f b t s = Ret (f', b', t', error, recycle) s' /\
    wf s' /\ s_lock s' = false /\ recycle = true /\ used_inodes s' = used_inodes s ∖ {[i_number f]} /\
    (exists G : gset Z, used_blocks s' = (used_blocks s ∖ window f) ∖ G /\
       s_free_blocks_count (s_es s') = s_free_blocks_count (s_es s) + i_prealloc_count f + Z.of_nat (size G) /\
       (forall p, p ∈ G -> owns ump (content b) (ip f) p) /\
       (error = 0 -> forall p, owns ump (content b) (ip f) p -> p ∈ G)) /\
    (buf_reliable -> error = 0).
Proof.
  match goal with |- exists f' b' t' error recycle s', _ /\ ?P =>
    assert (wp (ext2_inactive now APPEND IMMUTABLE no_uid32 it_bad junk ump v f b t) (fun '(f', b', t', error, recycle) s' => P) s) as Wp end.
  2:{ apply wp_run in Wp as ([[[[f' b'] t'] error] recycle] & s' & E & HP). by exists f', b', t', error, recycle, s'. }
  unfold ext2_inactive. wp_steps. apply wp_discard; [apply S|apply S|apply S|]. intros fd sd D.
  destruct (discard_state ump s f b fd sd S D) as [Sd Ed]. pose proof (discarded_ip s f fd sd D) as Eip.
  rewrite Eip, (proj2 (Z.eqb_neq _ 0)), Hnlink by done. cbn [andb Z.leb Z.compare]. wp_steps.
  eapply wp_mono; [by apply (wp_remove_unlinked fd sd D Sd Ed)|]. intros [[[f1 b1] t1] error] s1 (It & G & R). wp_steps.
  assert (forall f2 (t2 : itable), i_mode (ip f2) = i_mode (ip f1) ->
    wp (mret (f2, b1, t2, error, i_mode (ip f2) =? 0) : FS _) (fun '(f', b', t', error, recycle) s' =>
      wf s' /\ s_lock s' = false /\ recycle = true /\ used_inodes s' = used_inodes s ∖ {[i_number f]} /\
      (exists G : gset Z, used_blocks s' = (used_blocks s ∖ window f) ∖ G /\
         s_free_blocks_count (s_es s') = s_free_blocks_count (s_es s) + i_prealloc_count f + Z.of_nat (size G) /\
         (forall p, p ∈ G -> owns ump (content b) (ip f) p) /\
         (error = 0 -> forall p, owns ump (content b) (ip f) p -> p ∈ G)) /\
      (buf_reliable -> error = 0)) s1) as Hend.
  { intros f2 t2 Em. wp_steps. destruct R as [(R1 & R2 & _) R3 R4 R5 R6 R7 R8 R9]. rewrite Em, R8.
    do 4 (split; [done|]). split; [|done]. by exists G. }
  destruct (_ =? 0); wp_steps; [by apply (Hend _ t1)|]. destruct (_ && _); wp_steps; [by apply (Hend _ t1)|].
  apply wp_ext2_update; [apply R|done|]. intros f2 t2 error2 Sf _. wp_steps. by apply (Hend f2 t2), Sf.
Qed.
End Unlinked.
End Inactive.

(** ** Examples *)

(** [example_fs] with blocks of 128 bytes, of which each holds one inode. *)
Definition table_fs : m_ext2fs :=
  mkFs (mkGeo 128 64 16 16 2 128 512 0)
    (mkEs 32 100 5 59 22 1 0)
    [[mkGd 3 4 5 44 6 2; mkGd 67 68 69 15 16 0]] ∅
    (mkCache 0 (replicate 8 0) (replicate 8 None)) (mkCache 0 (replicate 8 0) (replicate 8 None))
    false 2 false
    (list_to_map
      [(3, [255; 255; 15; 0; 0; 0; 0; 0] ++ replicate 120 255);
       (4, [255; 3] ++ replicate 126 255);
       (67, [255; 255; 15; 0; 248; 255; 255; 255] ++ replicate 120 255);
       (68, [0; 0] ++ replicate 126 255)]) ∅.

Lemma table_fs_wf : wf table_fs.
Proof. apply wf_check_ok. vm_compute. reflexivity. Qed.

(** Inode 12 has its entry in block 16. *)
Definition empty_entry : ext2_inode := mkEi 0 0 0 0 0 0 0 0 1 0 0 (replicate 15 0) 0 0 0 0.
Definition example_table : itable := mkItable {[16 := [empty_entry]]} (mkSb 0 0 0 0 false).
Definition changed_file : file := set_flag IN_CHANGE example_file.

Lemma update_persists_witness :
  exists f' t', ext2_update 100 4 2 false no_bad regular changed_file example_table true table_fs = Ret (f', t', 0) table_fs /\
    ext2_ei2i 4 2 false <$> entry t' 16 0 = Some (ip f').
Proof.
  assert (inode_ok table_fs changed_file example_table) as In.
  { split; [vm_compute; split; congruence|]. intros a blk E. cbn in E. apply lookup_singleton_Some in E as [_ <-]. vm_compute. split; congruence. }
  assert (valid_inode 4 2 (ip changed_file)) as V.
  { split; try (unfold is_uint, is_sint; cbn; lia); cbn.
    - split; [reflexivity|]. repeat constructor; unfold is_sint; lia.
    - split; [reflexivity|]. repeat constructor; unfold is_sint; lia.
    - exists false, false. reflexivity. }
  destruct (update_persists 100 4 2 no_bad regular changed_file example_table true table_fs ltac:(lia) ltac:(lia) eq_refl
    ltac:(unfold is_sint; lia) table_fs_wf In V ltac:(discriminate) (or_introl eq_refl) eq_refl eq_refl)
    as (f' & t' & error & E & _ & H & _).
  assert (error = 0) as -> by (vm_compute in E; injection E as _ _ <-; reflexivity).
  exists f', t'. split; [exact E|]. destruct (H eq_refl) as (a & o & Hpl & He & _).
  assert (inode_place table_fs (i_number changed_file) = Some (16, 0%nat)) as Hpl' by (vm_compute; reflexivity).
  rewrite Hpl' in Hpl. injection Hpl as <- <-. exact He.
Defined.

Definition set_nlink (n : Z) (i : inode) : inode :=
  mkInode (i_mode i) n (i_size i) (i_atime i) (i_mtime i) (i_ctime i) (i_db i) (i_ib i)
    (i_flags i) (i_blocks i) (i_gen i) (i_uid i) (i_gid i) (i_e2flags i).

(** The file of 13 blocks, without links. *)
Definition dead_file : file := set_ip (set_nlink 0) long_file.

Lemma nlink_state ump `{BufIOLaws ump} s f b n : file_state ump s f b -> file_state ump s (set_ip (set_nlink n) f) b.
Proof. by apply same_tree_state. Qed.

Lemma nlink_inode s f t n : inode_ok s f t -> inode_ok s (set_ip (set_nlink n) f) t.
Proof. intros [I1 I2]. by split. Qed.

Lemma dead_blocks : has_blocks regular dead_file /\ 0 < i_size (ip dead_file) <= s_maxfilesize (geo long_fs) /\
  EXT2_FIRST_INO <= i_number dead_file <= s_inodes_count (s_es long_fs) /\ i_mode (ip dead_file) <> 0.
Proof.
  split; [left; discriminate|]. vm_compute. split; [split; congruence|]. split; [split; congruence|discriminate].
Qed.

Lemma mem_reliable : @buf_reliable (mem_io small_mount no_bad no_bad).
Proof.
  split; [done| |done]. intros bp b. cbn. unfold mem_strategy. by destruct (mem_content _ _ _).
Qed.

Lemma inactive_removes_witness :
  exists f' b' t' s', @ext2_inactive 100 4 2 false no_bad (mem_io small_mount no_bad no_bad) (0, 0) small_mount regular
      dead_file long_mem no_table long_fs = Ret (f', b', t', 0, true) s' /\
    used_inodes s' = used_inodes long_fs ∖ {[12]} /\
    forall p, owns small_mount (mem_content small_mount long_mem) (ip dead_file) p -> p ∉ used_blocks s'.
Proof.
  destruct dead_blocks as (B1 & B2 & B3 & B4).
  destruct (@inactive_removes small_mount (mem_io small_mount no_bad no_bad) (mem_io_laws small_mount no_bad no_bad) (0, 0)
    100 4 2 false no_bad regular long_fs dead_file long_mem no_table
    (@nlink_state small_mount (mem_io small_mount no_bad no_bad) (mem_io_laws small_mount no_bad no_bad) _ _ _ 0 long_state)
    small_nindir (nlink_inode _ _ _ 0 long_inode) B1 B2 eq_refl B4 B3)
    as (f' & b' & t' & error & recycle & s' & E & _ & _ & -> & EI & (G & EB & _ & _ & HG) & He).
  specialize (He mem_reliable). subst error.
  exists f', b', t', s'. split; [exact E|]. split; [exact EI|]. intros p Hp. rewrite EB. apply (HG eq_refl) in Hp.
  intros [_ Hn]%elem_of_difference. exact (Hn Hp).
Defined.

(** ** Errors that are mishandled *)

(** The file gets its block 13 and is cut back to 13 blocks, on a device that cannot write
    the indirect block. *)
Definition dangling_run : FS (file * memst * Z) :=
  let io := mem_io small_mount no_bad no_bad in
  '(f, b, _) ← @ext2_balloc2 io (0, 0) 0 0 small_mount long_file long_mem 13 32;
  ib ← access (aref (i_ib (ip f)) 0);
  '(f, b, t, error) ← @ext2_truncate 100 4 2 false no_bad (mem_io small_mount no_bad (bad_block ib)) (0, 0) 0 small_mount
     regular (set_ip (set_size 448) f) b no_table 416 0;
  mret (f, b, error).

(** When an indirect block cannot be written, its blocks are freed nevertheless: the
    truncation reports the error, but the block behind the new end is free while the
    indirect block still points to it. *)
Theorem truncate_write_error_dangles :
  exists f' b' s' p, dangling_run long_fs = Ret (f', b', EIO) s' /\ i_size (ip f') = 416 /\
    file_ptr small_mount (mem_content small_mount b') (ip f') 13 = Some p /\ p <> 0 /\ p ∉ used_blocks s'.
Proof.
  destruct (dangling_run long_fs) as [[[f' b'] error] s'| | |] eqn:E; [|vm_compute in E; discriminate E..].
  vm_compute in E. injection E as <- <- <- <-. do 3 eexists. exists 9. split; [reflexivity|]. split; [reflexivity|].
  split; [vm_compute; reflexivity|]. split; [discriminate|]. intros [Hu _]%elem_of_filter. vm_compute in Hu. discriminate Hu.
Qed.

(** A mount of the device of [table_fs], and a file with a size but no blocks. *)
Definition table_mount : ext2mount := mkMount 32 0 1.
Definition sparse_file : file := set_ip (set_size 416) example_file.

(** The error of the write of the inode is lost in a truncation, even of a synchronous
    one: it reports success, but the inode table has not changed. *)
Theorem truncate_update_error_lost :
  exists f' b' t' s',
    @ext2_truncate 100 4 2 false (fun _ => true) (mem_io table_mount no_bad no_bad) (0, 0) 0 table_mount regular
      sparse_file empty_mem example_table 128 IO_SYNC table_fs = Ret (f', b', t', 0) s' /\
    i_size (ip f') = 128 /\ it_blocks t' = it_blocks example_table.
Proof.
  match goal with |- exists f' b' t' s', ?m = _ /\ _ =>
    destruct m as [[[[f' b'] t'] error] s'| | |] eqn:E; [|vm_compute in E; discriminate E..] end.
  vm_compute in E. injection E as <- <- <- <- <-. do 4 eexists. split; [reflexivity|]. split; reflexivity.
Qed.

(** A file system with one free block; inodes 11 and 12 are in use. *)
Definition last_fs : m_ext2fs :=
  mkFs (mkGeo 128 64 16 16 2 128 512 0)
    (mkEs 32 100 0 1 20 1 0)
    [[mkGd 3 4 5 1 4 2; mkGd 67 68 69 0 16 0]] ∅
    (mkCache 0 (replicate 8 0) (replicate 8 None)) (mkCache 0 (replicate 8 0) (replicate 8 None))
    false 2 false
    (list_to_map
      [(3, [255; 255; 255; 255; 255; 255; 255; 127] ++ replicate 120 255);
       (4, [255; 15] ++ replicate 126 255);
       (67, replicate 128 255);
       (68, [0; 0] ++ replicate 126 255)]) ∅.

(** A request for block 12 of an empty file, which is then removed. *)
Definition leak_run : FS (file * Z * Z) :=
  let io := mem_io table_mount no_bad no_bad in
  '(f, b, r) ← @ext2_balloc2 io (0, 0) 0 0 table_mount example_file empty_mem 12 128;
  '(f, b, t, error, _) ← @ext2_inactive 100 4 2 false no_bad io (0, 0) table_mount regular (set_ip (set_nlink 0) f) b example_table;
  mret (f, r_error r, error).

(** An indirect block can outlive its file.  When the last free block becomes the
    indirect block and the request then fails with ENOSPC, the file still has size 0, and
    its removal, without an error, frees the inode but not that block: a truncation to
    the size the file has frees nothing. *)
Theorem inactive_leaks :
  wf last_fs /\ exists f' s' p, leak_run last_fs = Ret (f', ENOSPC, 0) s' /\
    p ∈ used_blocks s' /\ p ∉ used_blocks last_fs /\ s_free_blocks_count (s_es s') = 0 /\
    used_inodes s' = used_inodes last_fs ∖ {[12]}.
Proof.
  split; [apply wf_check_ok; vm_compute; reflexivity|].
  destruct (leak_run last_fs) as [[[f' e1] e2] s'| | |] eqn:E; [|vm_compute in E; discriminate E..].
  vm_compute in E. injection E as <- <- <- <-. do 2 eexists. exists 64. split; [reflexivity|].
  split; [apply elem_of_filter; split; vm_compute; reflexivity|].
  split; [intros [Hu _]%elem_of_filter; vm_compute in Hu; discriminate Hu|]. split; [reflexivity|].
  apply (bool_decide_unpack _). vm_compute. reflexivity.
Qed.
