(* ===== verification/Hash.v ===== *)
(** * Directory hashing (src/src/gnu/ext2fs/ext2_hash.c, linux/fs/ext3/hash.c)

    The kext carries two implementations of the directory index hash: the BSD one
    ([ext2fs_htree_hash]) and the original Linux one ([ext3fs_dirhash]).  Both are
    modelled, and shown to agree.  32-bit unsigned arithmetic is arithmetic on [Z]
    followed by [u32]; a name is the list of its bytes, read through [name_byte], which
    is [None] past the end. *)

From S2P Require Import Prelude.

(** [uname[i]] and [sname[i]]: the byte as [unsigned char] or as [signed char]. *)
Definition name_byte (name : list Z) (unsigned_char : bool) (i : Z) : option Z :=
  b ← name !! Z.to_nat i; Some (if unsigned_char then b else i8 b).

(** ** The BSD implementation *)

Module Bsd.

Definition F (x y z : Z) : Z := Z.lor (Z.land x y) (Z.land (u32 (Z.lnot x)) z).
Definition G (x y z : Z) : Z := Z.lor (Z.lor (Z.land x y) (Z.land x z)) (Z.land y z).
Definition H (x y z : Z) : Z := Z.lxor (Z.lxor x y) z.
Definition ROTATE_LEFT (x n : Z) : Z := Z.lor (u32 (Z.shiftl x n)) (Z.shiftr x (32 - n)).

(** The new value of [a]. *)
Definition FF (a b c d x s : Z) : Z := ROTATE_LEFT (u32 (a + (F b c d + x))) s.
Definition GG (a b c d x s : Z) : Z := ROTATE_LEFT (u32 (a + (G b c d + x + 0x5A827999))) s.
Definition HH (a b c d x s : Z) : Z := ROTATE_LEFT (u32 (a + (H b c d + x + 0x6ED9EBA1))) s.

(** The loop of [ext2fs_prep_hashbuf]: [n] bytes are left, [dst] holds the words
    written so far. *)
Fixpoint prep_loop (n : nat) (i : Z) (src : list Z) (unsigned_char : bool)
    (padding buf_val dlen : Z) (dst : list Z) : option (Z * Z * list Z) :=
  match n with
  | O => Some (buf_val, dlen, dst)
  | S n =>
      buf_byte ← name_byte src unsigned_char i;
      let buf_val := if i mod 4 =? 0 then padding else buf_val in
      let buf_val := u32 (u32 (Z.shiftl buf_val 8) + buf_byte) in
      if i mod 4 =? 3
      then prep_loop n (i + 1) src unsigned_char padding padding (dlen - 4) (dst ++ [buf_val])
      else prep_loop n (i + 1) src unsigned_char padding buf_val dlen dst
  end.

(** [while (dlen >= 0) { *dst++ = padding; dlen -= 4; }] *)
Fixpoint prep_pad (fuel : nat) (padding dlen : Z) (dst : list Z) : option (list Z) :=
  match fuel with
  | O => None
  | S fuel =>
      if 0 <=? dlen then prep_pad fuel padding (dlen - 4) (dst ++ [padding]) else Some dst
  end.

(** The words stored in [dst]. *)
Definition ext2fs_prep_hashbuf (src : list Z) (slen dlen : Z) (unsigned_char : bool)
    : option (list Z) :=
  let padding := u32 (Z.lor (Z.lor (Z.lor slen (i32 (Z.shiftl slen 8))) (i32 (Z.shiftl slen 16)))
                        (i32 (Z.shiftl slen 24))) in
  let len := if dlen <? slen then dlen else slen in
  '(buf_val, dlen, dst) ← prep_loop (Z.to_nat len) 0 src unsigned_char padding padding dlen [];
  let dlen := dlen - 4 in
  let dst := if 0 <=? dlen then dst ++ [buf_val] else dst in
  prep_pad 10 padding (dlen - 4) dst.

(** The loop of [ext2fs_legacy_hash]. *)
Fixpoint legacy_loop (n : nat) (i : Z) (name : list Z) (unsigned_char : bool) (h1 h2 : Z) : option Z :=
  match n with
  | O => Some (u32 (Z.shiftl h1 1))
  | S n =>
      val ← name_byte name unsigned_char i;
      let h0 := u32 (h2 + Z.lxor h1 (u32 (val * 0x6D22F5))) in
      let h0 := if Z.testbit h0 31 then u32 (h0 - 0x7FFFFFFF) else h0 in
      legacy_loop n (i + 1) name unsigned_char h0 h1
  end.

Definition ext2fs_legacy_hash (name : list Z) (len : Z) (unsigned_char : bool) : option Z :=
  legacy_loop (Z.to_nat len) 0 name unsigned_char 0x12A3FE2D 0x37ABE8F9.

Definition ext2fs_half_md4 (hash : Z * Z * Z * Z) (data : Z -> Z) : Z * Z * Z * Z :=
  let '(a0, b0, c0, d0) := hash in
  var a := FF a0 b0 c0 d0 (data 0)  3 in
  var d := FF d0 a b0 c0 (data 1)  7 in
  var c := FF c0 d a b0 (data 2) 11 in
  var b := FF b0 c d a (data 3) 19 in
  var a := FF a b c d (data 4)  3 in
  var d := FF d a b c (data 5)  7 in
  var c := FF c d a b (data 6) 11 in
  var b := FF b c d a (data 7) 19 in
  var a := GG a b c d (data 1)  3 in
  var d := GG d a b c (data 3)  5 in
  var c := GG c d a b (data 5)  9 in
  var b := GG b c d a (data 7) 13 in
  var a := GG a b c d (data 0)  3 in
  var d := GG d a b c (data 2)  5 in
  var c := GG c d a b (data 4)  9 in
  var b := GG b c d a (data 6) 13 in
  var a := HH a b c d (data 3)  3 in
  var d := HH d a b c (data 7)  9 in
  var c := HH c d a b (data 2) 11 in
  var b := HH b c d a (data 6) 15 in
  var a := HH a b c d (data 1)  3 in
  var d := HH d a b c (data 5)  9 in
  var c := HH c d a b (data 0) 11 in
  var b := HH b c d a (data 4) 15 in
  (u32 (a0 + a), u32 (b0 + b), u32 (c0 + c), u32 (d0 + d)).

(** The loop of [ext2fs_tea]: round [i], [n] rounds left. *)
Fixpoint tea_loop (n : nat) (i x y : Z) (data : Z -> Z) : Z * Z :=
  match n with
  | O => (x, y)
  | S n =>
      let sum := u32 (i * 0x9E3779B9) in
      let x := u32 (x + Z.lxor (Z.lxor (u32 (u32 (Z.shiftl y 4) + data 0)) (u32 (y + sum)))
                          (u32 (Z.shiftr y 5 + data 1))) in
      let y := u32 (y + Z.lxor (Z.lxor (u32 (u32 (Z.shiftl x 4) + data 2)) (u32 (x + sum)))
                          (u32 (Z.shiftr x 5 + data 3))) in
      tea_loop n (i + 1) x y data
  end.

Definition ext2fs_tea (hash : Z * Z * Z * Z) (data : Z -> Z) : Z * Z * Z * Z :=
  let '(h0, h1, h2, h3) := hash in
  let '(x, y) := tea_loop 16 1 h0 h1 data in
  (u32 (h0 + x), u32 (h1 + y), h2, h3).

End Bsd.

(** A buffer of words as an array. *)
Definition word (data : list Z) (i : Z) : Z := nth (Z.to_nat i) data 0.

(** [while (len > 0) { prep; transform; len -= step; name += step; }] with the buffer
    filled by [prep]. *)
Fixpoint hash_blocks (fuel : nat) (prep : list Z -> Z -> option (list Z))
    (transform : Z * Z * Z * Z -> (Z -> Z) -> Z * Z * Z * Z) (step : Z)
    (name : list Z) (len : Z) (hash : Z * Z * Z * Z) : option (Z * Z * Z * Z) :=
  if 0 <? len then
    match fuel with
    | O => None
    | S fuel =>
        data ← prep name len;
        hash_blocks fuel prep transform step (drop (Z.to_nat step) name) (len - step)
          (transform hash (word data))
    end
  else Some hash.

Definition EXT2_HTREE_LEGACY : Z := 0.
Definition EXT2_HTREE_HALF_MD4 : Z := 1.
Definition EXT2_HTREE_TEA : Z := 2.
Definition EXT2_HTREE_LEGACY_UNSIGNED : Z := 3.
Definition EXT2_HTREE_HALF_MD4_UNSIGNED : Z := 4.
Definition EXT2_HTREE_TEA_UNSIGNED : Z := 5.
Definition EXT2_HTREE_EOF : Z := 0x7FFFFFFF.

Definition default_seed : Z * Z * Z * Z := (0x67452301, 0xEFCDAB89, 0x98BADCFE, 0x10325476).

(** [major &= ~1; if (major == (EOF << 1)) major = (EOF - 1) << 1;] *)
Definition fix_major (major : Z) : Z :=
  let major := Z.land major (u32 (Z.lnot 1)) in
  if major =? u32 (Z.shiftl EXT2_HTREE_EOF 1) then Z.shiftl (EXT2_HTREE_EOF - 1) 1 else major.

(** The switch of [ext2fs_htree_hash]: [(major, minor)], or [inr tt] for [goto error]. *)
Definition htree_switch (name : list Z) (len : Z) (hash : Z * Z * Z * Z) (hash_version : Z)
    : option (Z * Z + unit) :=
  let tea unsigned_char :=
    h ← hash_blocks 16 (fun n l => Bsd.ext2fs_prep_hashbuf n l 16 unsigned_char)
          Bsd.ext2fs_tea 16 name len hash;
    let '(h0, h1, _, _) := h in Some (inl (h0, h1)) in
  let legacy unsigned_char :=
    major ← Bsd.ext2fs_legacy_hash name len unsigned_char; Some (inl (major, 0)) in
  let half_md4 unsigned_char :=
    h ← hash_blocks 16 (fun n l => Bsd.ext2fs_prep_hashbuf n l 32 unsigned_char)
          Bsd.ext2fs_half_md4 32 name len hash;
    let '(_, h1, h2, _) := h in Some (inl (h1, h2)) in
  if hash_version =? EXT2_HTREE_TEA_UNSIGNED then tea true
  else if hash_version =? EXT2_HTREE_TEA then tea false
  else if hash_version =? EXT2_HTREE_LEGACY_UNSIGNED then legacy true
  else if hash_version =? EXT2_HTREE_LEGACY then legacy false
  else if hash_version =? EXT2_HTREE_HALF_MD4_UNSIGNED then half_md4 true
  else if hash_version =? EXT2_HTREE_HALF_MD4 then half_md4 false
  else Some (inr tt).

(** Return value, [*hash_major] and [*hash_minor], for non-null [name], [hash_major]
    and [hash_minor].  [None] is a read outside the name. *)
Definition ext2fs_htree_hash (name : list Z) (len : Z) (hash_seed : option (Z * Z * Z * Z))
    (hash_version : Z) : option (Z * Z * Z) :=
  if (len <? 1) || (255 <? len) then Some (-1, 0, 0)
  else
    let hash := match hash_seed with Some seed => seed | None => default_seed end in
    r ← htree_switch name len hash hash_version;
    match r with
    | inl (major, minor) => Some (0, fix_major major, minor)
    | inr _ => Some (-1, 0, 0)
    end.

(** ** The Linux implementation *)

Module Linux.

Definition F (x y z : Z) : Z := Z.lxor z (Z.land x (Z.lxor y z)).
Definition G (x y z : Z) : Z := u32 (Z.land x y + Z.land (Z.lxor x y) z).
Definition H (x y z : Z) : Z := Z.lxor (Z.lxor x y) z.

(** [a += f(b, c, d) + x, a = (a << s) | (a >> (32-s))]; [x] is an [unsigned long]. *)
Definition ROUND (f : Z -> Z -> Z -> Z) (a b c d x s : Z) : Z :=
  let a := u32 (a + u64 (f b c d + x)) in
  Z.lor (u32 (Z.shiftl a s)) (Z.shiftr a (32 - s)).

Definition K1 : Z := 0.
(** 013240474631UL and 015666365641UL *)
Definition K2 : Z := 0x5A827999.
Definition K3 : Z := 0x6ED9EBA1.

Fixpoint TEA_loop (n : nat) (sum b0 b1 : Z) (inp : Z -> Z) : Z * Z :=
  match n with
  | O => (b0, b1)
  | S n =>
      let sum := u32 (sum + 0x9E3779B9) in
      let b0 := u32 (b0 + Z.lxor (Z.lxor (u32 (u32 (Z.shiftl b1 4) + inp 0)) (u32 (b1 + sum)))
                           (u32 (Z.shiftr b1 5 + inp 1))) in
      let b1 := u32 (b1 + Z.lxor (Z.lxor (u32 (u32 (Z.shiftl b0 4) + inp 2)) (u32 (b0 + sum)))
                           (u32 (Z.shiftr b0 5 + inp 3))) in
      TEA_loop n sum b0 b1 inp
  end.

Definition TEA_transform (buf : Z * Z * Z * Z) (inp : Z -> Z) : Z * Z * Z * Z :=
  let '(b0, b1, b2, b3) := buf in
  let '(x, y) := TEA_loop 16 0 b0 b1 inp in
  (u32 (b0 + x), u32 (b1 + y), b2, b3).

Definition halfMD4Transform (buf : Z * Z * Z * Z) (inp : Z -> Z) : Z * Z * Z * Z :=
  let '(a0, b0, c0, d0) := buf in
  var a := ROUND F a0 b0 c0 d0 (inp 0 + K1)  3 in
  var d := ROUND F d0 a b0 c0 (inp 1 + K1)  7 in
  var c := ROUND F c0 d a b0 (inp 2 + K1) 11 in
  var b := ROUND F b0 c d a (inp 3 + K1) 19 in
  var a := ROUND F a b c d (inp 4 + K1)  3 in
  var d := ROUND F d a b c (inp 5 + K1)  7 in
  var c := ROUND F c d a b (inp 6 + K1) 11 in
  var b := ROUND F b c d a (inp 7 + K1) 19 in
  var a := ROUND G a b c d (inp 1 + K2)  3 in
  var d := ROUND G d a b c (inp 3 + K2)  5 in
  var c := ROUND G c d a b (inp 5 + K2)  9 in
  var b := ROUND G b c d a (inp 7 + K2) 13 in
  var a := ROUND G a b c d (inp 0 + K2)  3 in
  var d := ROUND G d a b c (inp 2 + K2)  5 in
  var c := ROUND G c d a b (inp 4 + K2)  9 in
  var b := ROUND G b c d a (inp 6 + K2) 13 in
  var a := ROUND H a b c d (inp 3 + K3)  3 in
  var d := ROUND H d a b c (inp 7 + K3)  9 in
  var c := ROUND H c d a b (inp 2 + K3) 11 in
  var b := ROUND H b c d a (inp 6 + K3) 15 in
  var a := ROUND H a b c d (inp 1 + K3)  3 in
  var d := ROUND H d a b c (inp 5 + K3)  9 in
  var c := ROUND H c d a b (inp 0 + K3) 11 in
  var b := ROUND H b c d a (inp 4 + K3) 15 in
  (u32 (a0 + a), u32 (b0 + b), u32 (c0 + c), u32 (d0 + d)).

(** [while (len--)] of [dx_hack_hash]. *)
Fixpoint dx_hack_loop (n : nat) (i : Z) (name : list Z) (hash0 hash1 : Z) : option Z :=
  match n with
  | O => Some (u32 (Z.shiftl hash0 1))
  | S n =>
      c ← name_byte name false i;
      let hash := u32 (hash1 + Z.lxor hash0 (u32 (i32 (c * 7152373)))) in
      let hash := if Z.testbit hash 31 then u32 (hash - 0x7fffffff) else hash in
      dx_hack_loop n (i + 1) name hash hash0
  end.

Definition dx_hack_hash (name : list Z) (len : Z) : option Z :=
  dx_hack_loop (Z.to_nat len) 0 name 0x12a3fe2d 0x37abe8f9.

Fixpoint str2_loop (n : nat) (i : Z) (msg : list Z) (pad val num : Z) (buf : list Z)
    : option (Z * Z * list Z) :=
  match n with
  | O => Some (val, num, buf)
  | S n =>
      c ← name_byte msg false i;
      let val := if i mod 4 =? 0 then pad else val in
      let val := u32 (c + u32 (Z.shiftl val 8)) in
      if i mod 4 =? 3
      then str2_loop n (i + 1) msg pad pad (num - 1) (buf ++ [val])
      else str2_loop n (i + 1) msg pad val num buf
  end.

(** [while (--num >= 0) *buf++ = pad;] *)
Fixpoint str2_pad (fuel : nat) (pad num : Z) (buf : list Z) : option (list Z) :=
  match fuel with
  | O => None
  | S fuel => if 0 <=? num - 1 then str2_pad fuel pad (num - 1) (buf ++ [pad]) else Some buf
  end.

Definition str2hashbuf (msg : list Z) (len num : Z) : option (list Z) :=
  let pad := Z.lor (u32 len) (u32 (Z.shiftl (u32 len) 8)) in
  let pad := Z.lor pad (u32 (Z.shiftl pad 16)) in
  let len := if num * 4 <? len then num * 4 else len in
  '(val, num, buf) ← str2_loop (Z.to_nat len) 0 msg pad pad num [];
  let num := num - 1 in
  let buf := if 0 <=? num then buf ++ [val] else buf in
  str2_pad 10 pad num buf.

End Linux.

Definition zero_seed : Z * Z * Z * Z := (0, 0, 0, 0).

(** Return value, [hinfo->hash] and [hinfo->minor_hash] ([minor] is what the latter
    held before the call). *)
Definition ext3fs_dirhash (name : list Z) (len : Z) (seed : option (Z * Z * Z * Z))
    (hash_version minor : Z) : option (Z * Z * Z) :=
  let buf := match seed with
             | Some s => if decide (s = zero_seed) then default_seed else s
             | None => default_seed
             end in
  if hash_version =? EXT2_HTREE_LEGACY then
    hash ← Linux.dx_hack_hash name len; Some (0, fix_major hash, 0)
  else if hash_version =? EXT2_HTREE_HALF_MD4 then
    h ← hash_blocks 16 (fun p l => Linux.str2hashbuf p l 8) Linux.halfMD4Transform 32 name len buf;
    let '(_, b1, b2, _) := h in Some (0, fix_major b1, b2)
  else if hash_version =? EXT2_HTREE_TEA then
    h ← hash_blocks 16 (fun p l => Linux.str2hashbuf p l 4) Linux.TEA_transform 16 name len buf;
    let '(b0, b1, _, _) := h in Some (0, fix_major b0, b1)
  else Some (-1, 0, minor).

(** ** Ranges and successful reads *)

Lemma name_byte_ok name uc i : 0 <= i < Z.of_nat (length name) -> exists b, name_byte name uc i = Some b.
Proof.
  intros Hi. unfold name_byte. destruct (lookup_lt_is_Some_2 name (Z.to_nat i)) as [b ->]; [lia|]. by eexists.
Qed.

(** The loop writes a word per four bytes. *)
Lemma prep_loop_ok n i src uc padding v dlen dst :
  is_uint 32 padding -> is_uint 32 v -> Forall (is_uint 32) dst ->
  0 <= i -> i + Z.of_nat n <= Z.of_nat (length src) ->
  exists v' dst', let k := (i + Z.of_nat n) / 4 - i / 4 in
    Bsd.prep_loop n i src uc padding v dlen dst = Some (v', dlen - 4 * k, dst') /\
    is_uint 32 v' /\ Forall (is_uint 32) dst' /\ Z.of_nat (length dst') = Z.of_nat (length dst) + k.
Proof.
  intros Hp. revert i v dlen dst. induction n as [|n IH]; intros i v dlen dst Hv Hd Hi Hn; cbn [Bsd.prep_loop].
  - exists v, dst. cbn zeta. rewrite Z.add_0_r, Z.sub_diag, Z.mul_0_r, Z.sub_0_r, Z.add_0_r. done.
  - destruct (name_byte_ok src uc i) as [b ->]; [lia|]. cbn [mbind option_bind].
    set (w := u32 (_ + b)). assert (is_uint 32 w) as Hw by (apply uint_uintw; lia).
    pose proof (Z.div_mod i 4 ltac:(lia)) as D1. pose proof (Z.mod_pos_bound i 4 ltac:(lia)).
    pose proof (Z.div_mod (i + 1) 4 ltac:(lia)) as D2. pose proof (Z.mod_pos_bound (i + 1) 4 ltac:(lia)).
    replace (i + Z.of_nat (S n)) with (i + 1 + Z.of_nat n) by lia.
    destruct (Z.eqb_spec (i mod 4) 3) as [E|E].
    + destruct (IH (i + 1) padding (dlen - 4) (dst ++ [w])) as (v' & dst' & -> & H1 & H2 & H3);
        [done|by apply Forall_app; split; [|constructor]|lia|lia|].
      exists v', dst'. cbn zeta. rewrite length_app in H3. cbn [length] in H3.
      split; [do 2 f_equal; f_equal; lia|]. split; [done|]. split; [done|lia].
    + destruct (IH (i + 1) w dlen dst) as (v' & dst' & -> & H1 & H2 & H3); [done|done|lia|lia|].
      exists v', dst'. cbn zeta. split; [do 2 f_equal; f_equal; lia|]. split; [done|]. split; [done|lia].
Qed.

Lemma prep_pad_ok fuel padding k dst :
  -1 <= k -> k + 1 < Z.of_nat fuel -> is_uint 32 padding -> Forall (is_uint 32) dst ->
  exists dst', Bsd.prep_pad fuel padding (4 * k) dst = Some dst' /\ Forall (is_uint 32) dst' /\
    Z.of_nat (length dst') = Z.of_nat (length dst) + (k + 1).
Proof.
  intros Hk Hf Hp. revert k dst Hk Hf. induction fuel as [|fuel IH]; intros k dst Hk Hf Hd; [lia|].
  cbn [Bsd.prep_pad]. destruct (Z.leb_spec 0 (4 * k)).
  - replace (4 * k - 4) with (4 * (k - 1)) by lia.
    destruct (IH (k - 1) (dst ++ [padding])) as (dst' & -> & H1 & H2);
      [lia|lia|by apply Forall_app; split; [|constructor]|].
    exists dst'. split; [done|]. split; [done|]. rewrite length_app in H2. cbn [length] in H2. lia.
  - exists dst. split; [done|]. split; [done|lia].
Qed.

(** [ext2fs_prep_hashbuf] fills its buffer exactly. *)
Lemma prep_hashbuf_ok src slen k uc :
  0 < slen <= Z.of_nat (length src) -> 0 < k <= 8 ->
  exists data, Bsd.ext2fs_prep_hashbuf src slen (4 * k) uc = Some data /\
    Forall (is_uint 32) data /\ Z.of_nat (length data) = k.
Proof.
  intros Hs Hk. unfold Bsd.ext2fs_prep_hashbuf. set (padding := u32 _).
  assert (is_uint 32 padding) as Hp by (apply uint_uintw; lia).
  set (len := if 4 * k <? slen then 4 * k else slen).
  assert (0 <= len <= 4 * k /\ len <= slen) as Hlen by (unfold len; destruct (Z.ltb_spec (4 * k) slen); lia).
  destruct (prep_loop_ok (Z.to_nat len) 0 src uc padding padding (4 * k) [])
    as (v & dst & -> & Hv & Hd & Hl); [done|done|done|lia|lia|].
  cbn [length Z.of_nat] in Hl. rewrite Z2Nat.id, Z.div_0_l in Hl |- * by lia.
  rewrite !Z.add_0_l, !Z.sub_0_r in Hl. rewrite !Z.add_0_l, !Z.sub_0_r.
  cbn [mbind option_bind].
  set (q := len / 4) in *. assert (0 <= q <= k) as Hq.
  { unfold q. split; [apply Z.div_pos; lia|]. apply Z.div_le_upper_bound; lia. }
  replace (4 * k - 4 * q - 4) with (4 * (k - q - 1)) by lia.
  destruct (Z.leb_spec 0 (4 * (k - q - 1))).
  - replace (4 * (k - q - 1) - 4) with (4 * (k - q - 2)) by lia.
    destruct (prep_pad_ok 10 padding (k - q - 2) (dst ++ [v])) as (d & -> & H1 & H2);
      [lia|lia|done|by apply Forall_app; split; [|constructor]|].
    exists d. split; [done|]. split; [done|]. rewrite length_app in H2. cbn [length] in H2. lia.
  - cbn [Bsd.prep_pad]. rewrite (proj2 (Z.leb_gt _ _)) by lia. exists dst. split; [done|]. split; [done|lia].
Qed.

Definition is_hash (h : Z * Z * Z * Z) : Prop :=
  let '(a, b, c, d) := h in is_uint 32 a /\ is_uint 32 b /\ is_uint 32 c /\ is_uint 32 d.

Lemma half_md4_range h d : is_hash (Bsd.ext2fs_half_md4 h d).
Proof.
  destruct h as [[[a b] c] e]. unfold Bsd.ext2fs_half_md4.
  repeat lazymatch goal with |- is_hash (assign ?x ?k) => apply (assign_all is_hash x k); intros ? end.
  cbn [is_hash]. split_and!; apply uint_uintw; lia.
Qed.

Lemma tea_range h d : is_hash h -> is_hash (Bsd.ext2fs_tea h d).
Proof.
  destruct h as [[[a b] c] e]. intros (_ & _ & Hc & Hd). unfold Bsd.ext2fs_tea.
  destruct (Bsd.tea_loop _ _ _ _ _) as [x y]. split_and!; [apply uint_uintw; lia..|done|done].
Qed.

(** The block loop consumes the whole name. *)
Lemma hash_blocks_ok fuel prep transform step name len h :
  0 < step -> len <= step * Z.of_nat fuel -> len <= Z.of_nat (length name) ->
  (forall n l, 0 < l <= Z.of_nat (length n) -> exists d, prep n l = Some d) ->
  (forall h d, is_hash h -> is_hash (transform h d)) -> is_hash h ->
  exists h', hash_blocks fuel prep transform step name len h = Some h' /\ is_hash h'.
Proof.
  intros Hs. revert name len h. induction fuel as [|fuel IH]; intros name len h Hf Hn Hprep Ht Hh;
    cbn [hash_blocks].
  - rewrite (proj2 (Z.ltb_ge _ _)) by lia. by exists h.
  - destruct (Z.ltb_spec 0 len); [|by exists h].
    destruct (Hprep name len) as [d ->]; [lia|]. cbn [mbind option_bind].
    apply IH; [lia| |done|done|by apply Ht]. rewrite length_drop. lia.
Qed.

Lemma hash_blocks_ext fuel prep1 prep2 t1 t2 step name len h :
  0 < step -> len <= 255 -> is_hash h ->
  (forall n l, 0 < l <= 255 -> prep1 n l = prep2 n l) ->
  (forall h d, is_hash h -> t1 h d = t2 h d) -> (forall h d, is_hash h -> is_hash (t1 h d)) ->
  hash_blocks fuel prep1 t1 step name len h = hash_blocks fuel prep2 t2 step name len h.
Proof.
  intros Hs Hl Hh Hp Ht Hr. revert name len h Hl Hh.
  induction fuel as [|fuel IH]; intros name len h Hl Hh; cbn [hash_blocks]; [done|].
  destruct (Z.ltb_spec 0 len); [|done]. rewrite Hp by lia.
  destruct (prep2 name len) as [d|]; cbn [mbind option_bind]; [|done].
  rewrite <- Ht by done. apply IH; [lia|by apply Hr].
Qed.

(** ** The two implementations agree *)

Lemma str2_loop_eq n i src padding v num dst :
  Bsd.prep_loop n i src false padding v (4 * num) dst
  = (fun '(v', m, b) => (v', 4 * m, b)) <$> Linux.str2_loop n i src padding v num dst.
Proof.
  revert i v num dst. induction n as [|n IH]; intros i v num dst; cbn [Bsd.prep_loop Linux.str2_loop]; [done|].
  destruct (name_byte src false i) as [b|]; [|done]. cbn [mbind option_bind].
  rewrite (Z.add_comm b). replace (4 * num - 4) with (4 * (num - 1)) by lia.
  destruct (i mod 4 =? 3); apply IH.
Qed.

Lemma str2_pad_eq fuel padding num dst :
  Bsd.prep_pad fuel padding (4 * (num - 1)) dst = Linux.str2_pad fuel padding num dst.
Proof.
  revert num dst. induction fuel as [|fuel IH]; intros num dst; cbn [Bsd.prep_pad Linux.str2_pad]; [done|].
  replace (0 <=? 4 * (num - 1)) with (0 <=? num - 1) by lia.
  replace (4 * (num - 1) - 4) with (4 * (num - 1 - 1)) by lia. by rewrite IH.
Qed.

(** The padding words are equal for a length of one byte. *)
Lemma padding_eq len :
  0 < len <= 255 ->
  u32 (Z.lor (Z.lor (Z.lor len (i32 (Z.shiftl len 8))) (i32 (Z.shiftl len 16))) (i32 (Z.shiftl len 24)))
  = (let pad := Z.lor (u32 len) (u32 (Z.shiftl (u32 len) 8)) in Z.lor pad (u32 (Z.shiftl pad 16))).
Proof.
  intros Hl. assert (In len (seqZ 1 255)) as Hin by (apply list_elem_of_In, elem_of_seqZ; lia).
  match goal with |- ?l = ?r =>
    let f := eval pattern len in l in let g := eval pattern len in r in
    change (f = g); lazymatch f with ?lhs _ => lazymatch g with ?rhs _ =>
    enough (forallb (fun x => lhs x =? rhs x) (seqZ 1 255) = true) as H end end
  end.
  - rewrite forallb_forall in H. by apply Z.eqb_eq, H.
  - vm_compute. reflexivity.
Qed.

Lemma prep_str2_eq src len num :
  0 < len <= 255 -> Bsd.ext2fs_prep_hashbuf src len (4 * num) false = Linux.str2hashbuf src len num.
Proof.
  intros Hl. unfold Bsd.ext2fs_prep_hashbuf, Linux.str2hashbuf. rewrite padding_eq by done. cbv zeta.
  rewrite (Z.mul_comm num 4). rewrite str2_loop_eq.
  destruct (Linux.str2_loop _ _ _ _ _ _ _) as [[[v m] b]|]; [|done]. cbn [fmap option_fmap option_map mbind option_bind].
  replace (4 * m - 4) with (4 * (m - 1)) by lia. replace (4 * (m - 1) - 4) with (4 * (m - 1 - 1)) by lia.
  replace (0 <=? 4 * (m - 1)) with (0 <=? m - 1) by lia. apply str2_pad_eq.
Qed.

Lemma tea_eq h d : Bsd.ext2fs_tea h d = Linux.TEA_transform h d.
Proof.
  destruct h as [[[a b] c] e]. unfold Bsd.ext2fs_tea, Linux.TEA_transform.
  assert (forall n i x y, Bsd.tea_loop n i x y d
            = Linux.TEA_loop n (u32 ((i - 1) * 0x9E3779B9)) x y d) as H.
  { induction n as [|n IH]; intros i x y; [done|]. cbn [Bsd.tea_loop Linux.TEA_loop].
    assert (u32 (u32 ((i - 1) * 0x9E3779B9) + 0x9E3779B9) = u32 (i * 0x9E3779B9)) as ->
      by (rewrite uintw_add_l; f_equal; lia).
    cbv zeta. rewrite IH. replace (i + 1 - 1) with i by lia. reflexivity. }
  by rewrite H.
Qed.

Lemma u32_u64 a x : u32 (a + u64 x) = u32 (a + x).
Proof.
  unfold uintw. rewrite <- (Zplus_mod_idemp_r (x mod 2 ^ 64)), <- (Zplus_mod_idemp_r x (a)).
  f_equal. f_equal. symmetry. rewrite Z.mod_mod_divide; [done|]. by exists (2 ^ 32).
Qed.

(** The round functions are the same functions of 32-bit words. *)
Lemma F_eq x y z : is_uint 32 y -> is_uint 32 z -> Bsd.F x y z = Linux.F x y z.
Proof.
  intros Hy Hz. unfold Bsd.F, Linux.F. apply Z.bits_inj'. intros i Hi.
  rewrite Z.lor_spec, Z.lxor_spec, !Z.land_spec, Z.lxor_spec.
  destruct (decide (i < 32)).
  - unfold uintw. rewrite Z.mod_pow2_bits_low, Z.lnot_spec by lia.
    by destruct (Z.testbit x i), (Z.testbit y i), (Z.testbit z i).
  - rewrite !(testbit_high y 32), !(testbit_high z 32) by (done || lia). by rewrite !andb_false_r.
Qed.

Lemma G_eq x y z : is_uint 32 x -> is_uint 32 y -> is_uint 32 z -> Bsd.G x y z = Linux.G x y z.
Proof.
  intros Hx Hy Hz. unfold Bsd.G, Linux.G.
  assert (Z.land (Z.land x y) (Z.land (Z.lxor x y) z) = 0) as D.
  { apply Z.bits_inj'. intros i Hi. rewrite Z.bits_0, !Z.land_spec, Z.lxor_spec.
    by destruct (Z.testbit x i), (Z.testbit y i), (Z.testbit z i). }
  rewrite Z.add_nocarry_lor by done. rewrite uintw_small.
  - apply Z.bits_inj'. intros i Hi. rewrite !Z.lor_spec, !Z.land_spec, Z.lxor_spec.
    by destruct (Z.testbit x i), (Z.testbit y i), (Z.testbit z i).
  - apply uint_lor; [done|apply uint_land; [done|done|apply Hy]|].
    apply uint_land; [done|by apply uint_lxor|apply Hz].
Qed.

Lemma rotate_range x s : is_uint 32 x -> 0 <= s <= 32 -> is_uint 32 (Bsd.ROTATE_LEFT x s).
Proof.
  intros Hx Hs. unfold Bsd.ROTATE_LEFT. apply uint_lor; [done|apply uint_uintw; done|].
  apply uint_shiftr; [done|lia|done].
Qed.

(** Each macro of the BSD code is a [ROUND] of the Linux code, and its value a word. *)
Lemma FF_eq a b c d x s :
  is_uint 32 c -> is_uint 32 d -> Bsd.FF a b c d x s = Linux.ROUND Linux.F a b c d (x + Linux.K1) s.
Proof.
  intros. unfold Bsd.FF, Linux.ROUND, Linux.K1. by rewrite u32_u64, F_eq, Z.add_0_r by done.
Qed.

Lemma GG_eq a b c d x s :
  is_uint 32 b -> is_uint 32 c -> is_uint 32 d ->
  Bsd.GG a b c d x s = Linux.ROUND Linux.G a b c d (x + Linux.K2) s.
Proof. intros. unfold Bsd.GG, Linux.ROUND, Linux.K2. by rewrite u32_u64, G_eq, <- (Z.add_assoc _ x) by done. Qed.

Lemma HH_eq a b c d x s : Bsd.HH a b c d x s = Linux.ROUND Linux.H a b c d (x + Linux.K3) s.
Proof. unfold Bsd.HH, Linux.ROUND, Linux.K3. by rewrite u32_u64, <- (Z.add_assoc _ x). Qed.

Lemma ROUND_range f a b c d x s : 0 <= s <= 32 -> is_uint 32 (Linux.ROUND f a b c d x s).
Proof. intros. apply rotate_range; [by apply uint_uintw|done]. Qed.

Lemma half_md4_eq h d : is_hash h -> Bsd.ext2fs_half_md4 h d = Linux.halfMD4Transform h d.
Proof.
  destruct h as [[[a b] c] e]. intros (Ha & Hb & Hc & He).
  unfold Bsd.ext2fs_half_md4, Linux.halfMD4Transform.
  repeat lazymatch goal with
  | |- assign ?x ?k = assign ?y ?l =>
      apply (assign_ext (is_uint 32) x y k l);
      [first [by apply FF_eq|by apply GG_eq|apply HH_eq]|apply ROUND_range; lia|intros ??]
  end.
  reflexivity.
Qed.

(** ** Properties *)

Lemma hash_seed_range seed :
  match seed with Some s => is_hash s | None => True end ->
  is_hash (match seed with Some s => s | None => default_seed end).
Proof. destruct seed; [done|]. intros _. vm_compute. split_and!; congruence. Qed.

Lemma legacy_eq name len : Bsd.ext2fs_legacy_hash name len false = Linux.dx_hack_hash name len.
Proof.
  unfold Bsd.ext2fs_legacy_hash, Linux.dx_hack_hash.
  generalize (Z.to_nat len) 0 0x12A3FE2D 0x37ABE8F9. intros n. induction n as [|n IH]; intros i h1 h2; [done|].
  cbn [Bsd.legacy_loop Linux.dx_hack_loop].
  destruct (name_byte name false i) as [b|]; cbn [mbind option_bind]; [|done].
  replace (u32 (i32 (b * 7152373))) with (u32 (b * 0x6D22F5)); [apply IH|].
  unfold uintw, sintw. rewrite Zminus_mod, Zmod_mod, <- Zminus_mod. f_equal. lia.
Qed.

(** C27: On a name of 1 to 255 bytes, with no seed or a seed that is not all zero, the
    BSD hash computes the same major and minor hash as the Linux hash, for each of
    the hash versions both support, and reports success. *)
Theorem ext2fs_htree_hash_linux name len seed version minor :
  1 <= len <= 255 -> len <= Z.of_nat (length name) ->
  match seed with Some s => is_hash s /\ s <> zero_seed | None => True end ->
  version = EXT2_HTREE_LEGACY \/ version = EXT2_HTREE_HALF_MD4 \/ version = EXT2_HTREE_TEA ->
  ext2fs_htree_hash name len seed version = ext3fs_dirhash name len seed version minor.
Proof.
  intros Hl Hn Hseed Hv. unfold ext2fs_htree_hash, ext3fs_dirhash.
  replace ((len <? 1) || (255 <? len)) with false by (symmetry; apply orb_false_iff; rewrite !Z.ltb_ge; lia).
  set (buf := match seed with Some s => s | None => default_seed end).
  assert (is_hash buf) as Hb by (apply hash_seed_range; by destruct seed as [s|]; [apply Hseed|]).
  replace (match seed with Some s => if decide (s = zero_seed) then default_seed else s
           | None => default_seed end) with buf
    by (destruct seed as [s|]; [rewrite decide_False by apply Hseed|]; done).
  unfold htree_switch. destruct Hv as [-> | [-> | ->]]; cbn [Z.eqb EXT2_HTREE_LEGACY EXT2_HTREE_HALF_MD4
    EXT2_HTREE_TEA EXT2_HTREE_TEA_UNSIGNED EXT2_HTREE_LEGACY_UNSIGNED EXT2_HTREE_HALF_MD4_UNSIGNED Pos.eqb].
  - rewrite legacy_eq. by destruct (Linux.dx_hack_hash name len).
  - rewrite (hash_blocks_ext 16 _ (fun p l => Linux.str2hashbuf p l 8) _ Linux.halfMD4Transform);
      [|lia|lia|done|intros; by apply (prep_str2_eq _ _ 8)|by apply half_md4_eq|intros; apply half_md4_range].
    by destruct (hash_blocks _ _ _ _ _ _ _) as [[[[? ?] ?] ?]|].
  - rewrite (hash_blocks_ext 16 _ (fun p l => Linux.str2hashbuf p l 4) _ Linux.TEA_transform);
      [|lia|lia|done|intros; by apply (prep_str2_eq _ _ 4)|intros; apply tea_eq|by apply tea_range].
    by destruct (hash_blocks _ _ _ _ _ _ _) as [[[[? ?] ?] ?]|].
Qed.

Lemma ext2fs_htree_hash_linux_witness :
  ext2fs_htree_hash [108; 111; 115; 116; 43; 102; 111; 117; 110; 200] 10 (Some (1, 2, 3, 4)) EXT2_HTREE_HALF_MD4
  = ext3fs_dirhash [108; 111; 115; 116; 43; 102; 111; 117; 110; 200] 10 (Some (1, 2, 3, 4))
      EXT2_HTREE_HALF_MD4 0.
Proof.
  apply (ext2fs_htree_hash_linux [108; 111; 115; 116; 43; 102; 111; 117; 110; 200] 10 (Some (1, 2, 3, 4))
    EXT2_HTREE_HALF_MD4 0); [lia|cbn; lia| |right; left; reflexivity].
  unfold is_hash, is_uint, zero_seed. split; [lia|congruence].
Defined.

Lemma fix_major_ok m :
  is_uint 32 m -> is_uint 32 (fix_major m) /\ Z.even (fix_major m) = true /\
    fix_major m < 2 * EXT2_HTREE_EOF.
Proof.
  intros Hm. unfold fix_major, EXT2_HTREE_EOF.
  change (u32 (Z.lnot 1)) with 0xFFFFFFFE. change (u32 (Z.shiftl 0x7FFFFFFF 1)) with 0xFFFFFFFE.
  change (Z.shiftl (0x7FFFFFFF - 1) 1) with 0xFFFFFFFC.
  set (x := Z.land m 0xFFFFFFFE).
  assert (is_uint 32 x) as Hx by (by apply uint_land).
  assert (Z.even x = true) as He.
  { rewrite <- Z.negb_odd, <- Z.bit0_odd. unfold x. rewrite Z.land_spec. cbn [Z.testbit].
    by rewrite andb_false_r. }
  assert (x <= 0xFFFFFFFE) as Hle.
  { destruct (decide (x = 0xFFFFFFFF)) as [E|]; [by rewrite E in He|]. unfold is_uint in Hx. lia. }
  destruct (Z.eqb_spec x 0xFFFFFFFE) as [E|E]; [by vm_compute|]. split; [done|]. split; [done|]. lia.
Qed.

Lemma legacy_range name len uc :
  0 <= len <= Z.of_nat (length name) ->
  exists m, Bsd.ext2fs_legacy_hash name len uc = Some m /\ is_uint 32 m.
Proof.
  intros Hl. unfold Bsd.ext2fs_legacy_hash.
  assert (forall n i h1 h2, 0 <= i -> i + Z.of_nat n <= Z.of_nat (length name) ->
    exists m, Bsd.legacy_loop n i name uc h1 h2 = Some m /\ is_uint 32 m) as H; [|apply H; lia].
  induction n as [|n IH]; intros i h1 h2 Hi Hn; cbn [Bsd.legacy_loop].
  - eexists. split; [done|]. by apply uint_uintw.
  - destruct (name_byte_ok name uc i) as [b ->]; [lia|]. apply IH; lia.
Qed.

(** The switch succeeds exactly on the six hash versions. *)
Lemma htree_switch_ok name len hash version :
  1 <= len <= 255 -> len <= Z.of_nat (length name) -> is_hash hash ->
  if (0 <=? version) && (version <=? 5)
  then exists major minor, htree_switch name len hash version = Some (inl (major, minor)) /\
         is_uint 32 major /\ is_uint 32 minor
  else htree_switch name len hash version = Some (inr tt).
Proof.
  intros Hl Hn Hh. unfold htree_switch.
  assert (forall k uc n l, 0 < k <= 8 -> 0 < l <= Z.of_nat (length n) ->
    exists d, Bsd.ext2fs_prep_hashbuf n l (4 * k) uc = Some d) as Hprep.
  { intros k uc n l Hk Hl'. destruct (prep_hashbuf_ok n l k uc) as (d & ? & _); [done..|]. by exists d. }
  assert (forall uc, exists major minor,
    (h ← hash_blocks 16 (fun n l => Bsd.ext2fs_prep_hashbuf n l 16 uc) Bsd.ext2fs_tea 16 name len hash;
     let '(h0, h1, _, _) := h in Some (inl (h0, h1))) = Some (inl (major, minor) : Z * Z + unit) /\
    is_uint 32 major /\ is_uint 32 minor) as Htea.
  { intros uc. destruct (hash_blocks_ok 16 (fun n l => Bsd.ext2fs_prep_hashbuf n l 16 uc) Bsd.ext2fs_tea
      16 name len hash) as ([[[h0 h1] h2] h3] & -> & Hh'); [lia|lia|lia| |by apply tea_range|done|].
    - intros n l. by apply (Hprep 4).
    - exists h0, h1. split; [done|]. destruct Hh'. tauto. }
  assert (forall uc, exists major minor,
    (h ← hash_blocks 16 (fun n l => Bsd.ext2fs_prep_hashbuf n l 32 uc) Bsd.ext2fs_half_md4 32 name len hash;
     let '(_, h1, h2, _) := h in Some (inl (h1, h2))) = Some (inl (major, minor) : Z * Z + unit) /\
    is_uint 32 major /\ is_uint 32 minor) as Hmd4.
  { intros uc. destruct (hash_blocks_ok 16 (fun n l => Bsd.ext2fs_prep_hashbuf n l 32 uc) Bsd.ext2fs_half_md4
      32 name len hash) as ([[[h0 h1] h2] h3] & -> & Hh');
      [lia|lia|lia| |intros; apply half_md4_range|done|].
    - intros n l. by apply (Hprep 8).
    - exists h1, h2. split; [done|]. destruct Hh'. tauto. }
  assert (forall uc, exists major minor,
    (major ← Bsd.ext2fs_legacy_hash name len uc; Some (inl (major, 0)))
      = Some (inl (major, minor) : Z * Z + unit) /\
    is_uint 32 major /\ is_uint 32 minor) as Hleg.
  { intros uc. destruct (legacy_range name len uc) as (m & -> & Hm); [lia|]. by exists m, 0. }
  destruct ((0 <=? version) && (version <=? 5)) eqn:E.
  - assert (version = 0 \/ version = 1 \/ version = 2 \/ version = 3 \/ version = 4 \/ version = 5) as Hv by lia.
    destruct Hv as [-> | [-> | [-> | [-> | [-> | ->]]]]].
    + apply (Hleg false).
    + apply (Hmd4 false).
    + apply (Htea false).
    + apply (Hleg true).
    + apply (Hmd4 true).
    + apply (Htea true).
  - unfold EXT2_HTREE_TEA_UNSIGNED, EXT2_HTREE_TEA, EXT2_HTREE_LEGACY_UNSIGNED, EXT2_HTREE_LEGACY,
      EXT2_HTREE_HALF_MD4_UNSIGNED, EXT2_HTREE_HALF_MD4.
    rewrite !(proj2 (Z.eqb_neq version _)) by lia. done.
Qed.

(** Whatever the name, seed and version, [ext2fs_htree_hash] reads only the name
    and returns: -1 with both hashes 0 when the length is not 1 to 255 or the version
    is unknown, and otherwise 0 with 32-bit hashes, of which the major is even and
    below the end-of-directory mark [EXT2_HTREE_EOF << 1]. *)
Theorem ext2fs_htree_hash_range name len seed version :
  len <= Z.of_nat (length name) -> match seed with Some s => is_hash s | None => True end ->
  if (1 <=? len) && (len <=? 255) && (0 <=? version) && (version <=? 5)
  then exists major minor, ext2fs_htree_hash name len seed version = Some (0, major, minor) /\
    is_uint 32 major /\ is_uint 32 minor /\ Z.even major = true /\ major < 2 * EXT2_HTREE_EOF
  else ext2fs_htree_hash name len seed version = Some (-1, 0, 0).
Proof.
  intros Hn Hseed. apply hash_seed_range in Hseed. unfold ext2fs_htree_hash.
  destruct (Z.leb_spec 1 len); cbn [andb]; [|by rewrite (proj2 (Z.ltb_lt len 1)) by lia].
  rewrite (proj2 (Z.ltb_ge len 1)) by lia. cbn [orb].
  destruct (Z.leb_spec len 255); cbn [andb]; [|by rewrite (proj2 (Z.ltb_lt 255 len)) by lia].
  rewrite (proj2 (Z.ltb_ge 255 len)) by lia.
  pose proof (htree_switch_ok name len _ version ltac:(lia) Hn Hseed) as Hs.
  destruct ((0 <=? version) && (version <=? 5)) eqn:E.
  - destruct Hs as (major & minor & -> & Hma & Hmi). cbn [mbind option_bind].
    exists (fix_major major), minor. destruct (fix_major_ok major Hma) as (? & ? & ?). done.
  - by rewrite Hs.
Qed.

Lemma ext2fs_htree_hash_range_witness :
  exists major minor, ext2fs_htree_hash [97; 98] 2 None EXT2_HTREE_TEA_UNSIGNED = Some (0, major, minor) /\
    is_uint 32 major /\ is_uint 32 minor /\ Z.even major = true /\ major < 2 * EXT2_HTREE_EOF.
Proof. apply (ext2fs_htree_hash_range [97; 98] 2 None EXT2_HTREE_TEA_UNSIGNED); [cbn; lia|exact I]. Defined.

(** With an all-zero seed the two implementations part: the Linux code falls back
    to the default seed, the BSD code hashes with the zero seed (the mount code passes
    the superblock's seed unconditionally).  The same name then gets different
    hashes, for every version that uses the seed. *)
Theorem ext2fs_htree_hash_zero_seed version :
  version = EXT2_HTREE_HALF_MD4 \/ version = EXT2_HTREE_TEA ->
  exists name len h1 m1 h2 m2,
    ext2fs_htree_hash name len (Some zero_seed) version = Some (0, h1, m1) /\
    ext3fs_dirhash name len (Some zero_seed) version 0 = Some (0, h2, m2) /\ h1 <> h2.
Proof.
  intros [-> | ->].
  - exists [97], 1, 2984513032, 3367076468, 3589963130, 2897510791.
    split; [vm_compute; reflexivity|]. split; [vm_compute; reflexivity|lia].
  - exists [97], 1, 3392383124, 4029550296, 1829676224, 3246990047.
    split; [vm_compute; reflexivity|]. split; [vm_compute; reflexivity|lia].
Qed.

Lemma ext2fs_htree_hash_zero_seed_witness :
  exists name len h1 m1 h2 m2,
    ext2fs_htree_hash name len (Some zero_seed) EXT2_HTREE_TEA = Some (0, h1, m1) /\
    ext3fs_dirhash name len (Some zero_seed) EXT2_HTREE_TEA 0 = Some (0, h2, m2) /\ h1 <> h2.
Proof. apply (ext2fs_htree_hash_zero_seed EXT2_HTREE_TEA). right. reflexivity. Defined.
