(* ===== verification/Lockf.v ===== *)
(** * Advisory byte-range locks (src/src/kern/ext2_lockf.c)

    The locks of one inode are a linked list in a store of [struct ext2lockf]s; a
    pointer is a positive integer, 0 is NOLOCKF.  The code is modelled on the store,
    pointer assignment by pointer assignment, in the monad [kern]; a load through a
    null, dangling or freed pointer is a [Fault].  A sleep ends an attempt to set a
    lock; what happens when the process is woken is a second operation, so that
    interleavings are sequences of operations. *)

From S2P Require Import Prelude.

(** ** Data *)

Record ext2lockf := mkLock {
  lf_flags : Z;
  lf_type : Z;
  lf_start : Z;
  lf_end : Z;            (* -1 is the end of the file *)
  lf_id : Z;             (* process or open file *)
  lf_next : Z;
  lf_blkhd : list Z;     (* requests blocked on this lock *)
}.

Definition F_RDLCK : Z := 1.
Definition F_UNLCK : Z := 2.
Definition F_WRLCK : Z := 3.
Definition F_WAIT : Z := 0x10.
Definition F_FLOCK : Z := 0x20.
Definition F_POSIX : Z := 0x40.
Definition EDEADLK : Z := 11.
Definition EAGAIN : Z := 35.
Definition NOLOCKF : Z := 0.
Definition maxlockdepth : nat := 50.

Definition set_type (t : Z) (l : ext2lockf) : ext2lockf :=
  mkLock (lf_flags l) t (lf_start l) (lf_end l) (lf_id l) (lf_next l) (lf_blkhd l).
Definition set_start (x : Z) (l : ext2lockf) : ext2lockf :=
  mkLock (lf_flags l) (lf_type l) x (lf_end l) (lf_id l) (lf_next l) (lf_blkhd l).
Definition set_end (x : Z) (l : ext2lockf) : ext2lockf :=
  mkLock (lf_flags l) (lf_type l) (lf_start l) x (lf_id l) (lf_next l) (lf_blkhd l).
Definition set_next (p : Z) (l : ext2lockf) : ext2lockf :=
  mkLock (lf_flags l) (lf_type l) (lf_start l) (lf_end l) (lf_id l) p (lf_blkhd l).
Definition set_blkhd (q : list Z) (l : ext2lockf) : ext2lockf :=
  mkLock (lf_flags l) (lf_type l) (lf_start l) (lf_end l) (lf_id l) (lf_next l) q.

(** The store, the inode's list head, the next address [MALLOC] returns, the sleeping
    processes ([p_wchan] of those that sleep with [lockstr]) and the requests that were
    woken, latest first. *)
Record lkstate := mkLk {
  heap : gmap Z ext2lockf;
  i_lockf : Z;
  next_addr : Z;
  p_wchan : gmap Z Z;
  woken : list Z;
}.

Abbreviation LK := (kern lkstate).

Definition with_heap (f : gmap Z ext2lockf -> gmap Z ext2lockf) (s : lkstate) : lkstate :=
  mkLk (f (heap s)) (i_lockf s) (next_addr s) (p_wchan s) (woken s).

Definition load (p : Z) : LK ext2lockf := h ← gets heap; access (h !! p).
Definition update (p : Z) (f : ext2lockf -> ext2lockf) : LK unit :=
  l ← load p; modify (with_heap (<[p := f l]>)).
Definition FREE (p : Z) : LK unit := load p;; modify (with_heap (delete p)).
Definition MALLOC (l : ext2lockf) : LK Z :=
  s ← gets id;
  modify (fun s => mkLk (<[next_addr s := l]> (heap s)) (i_lockf s) (next_addr s + 1) (p_wchan s) (woken s));;
  mret (next_addr s).

(** A [struct ext2lockf **]: the inode's head or the [lf_next] field of a lock. *)
Inductive link := Head | Next (p : Z).

Definition write_link (k : link) (v : Z) : LK unit :=
  match k with
  | Head => modify (fun s => mkLk (heap s) v (next_addr s) (p_wchan s) (woken s))
  | Next p => update p (set_next v)
  end.

(** ** Finding overlaps *)

Inductive who := SELF | OTHERS.

(** The six cases, in the order the code tests them, for the range [start, end_] and
    a lock on [ls, le]; [None] is the panic. *)
Definition overlap_case (start end_ ls le : Z) : option Z :=
  if (negb (le =? -1) && (le <? start)) || (negb (end_ =? -1) && (end_ <? ls)) then Some 0
  else if (ls =? start) && (le =? end_) then Some 1
  else if (ls <=? start) && negb (end_ =? -1) && ((end_ <=? le) || (le =? -1)) then Some 2
  else if (start <=? ls) && ((end_ =? -1) || (negb (le =? -1) && (le <=? end_))) then Some 3
  else if (ls <? start) && ((start <=? le) || (le =? -1)) then Some 4
  else if (start <? ls) && negb (end_ =? -1) && ((end_ <? le) || (le =? -1)) then Some 5
  else None.

Definition skipped (type : who) (id1 id2 : Z) : bool :=
  match type with SELF => negb (id1 =? id2) | OTHERS => id1 =? id2 end.

(** The case, [*prev] and [*overlap]. *)
Fixpoint findoverlap (fuel : nat) (lf : Z) (lock : ext2lockf) (type : who) (prev : link)
    : LK (Z * link * Z) :=
  if lf =? NOLOCKF then mret (0, prev, lf)
  else
    match fuel with
    | O => out_of_fuel
    | S fuel =>
        l ← load lf;
        if skipped type (lf_id l) (lf_id lock) then findoverlap fuel (lf_next l) lock type (Next lf)
        else
          match overlap_case (lf_start lock) (lf_end lock) (lf_start l) (lf_end l) with
          | None => panic "ext2_lf_findoverlap: default"
          | Some 0 =>
              if match type with SELF => true | OTHERS => false end
                 && negb (lf_end lock =? -1) && (lf_end lock <? lf_start l)
              then mret (0, prev, lf)
              else findoverlap fuel (lf_next l) lock type (Next lf)
          | Some c => mret (c, prev, lf)
          end
    end.

(** No list of locks is longer than the store. *)
Definition list_fuel (s : lkstate) : nat := S (size (heap s)).

Definition ext2_lf_findoverlap (lf lock : Z) (type : who) (prev : link) : LK (Z * link * Z) :=
  l ← load lock; s ← gets id; findoverlap (list_fuel s) lf l type prev.

(** [while (ovcase = findoverlap (...)) { ...; lf = overlap->lf_next; }] *)
Fixpoint getblock_loop (fuel : nat) (lf lock : Z) : LK Z :=
  match fuel with
  | O => out_of_fuel
  | S fuel =>
      '(ovcase, _, overlap) ← ext2_lf_findoverlap lf lock OTHERS Head;
      if ovcase =? 0 then mret NOLOCKF
      else
        l ← load lock; o ← load overlap;
        if (lf_type l =? F_WRLCK) || (lf_type o =? F_WRLCK) then mret overlap
        else getblock_loop fuel (lf_next o) lock
  end.

Definition ext2_lf_getblock (lock : Z) : LK Z :=
  s ← gets id; getblock_loop (list_fuel s) (i_lockf s) lock.

(** [ext2_lf_getlock] for the request [lock]: [l_type], [l_start], [l_len] and the
    owner ([None] for -1) of the blocking lock, or [None] for F_UNLCK. *)
Definition ext2_lf_getlock (lock : Z) : LK (option (Z * Z * Z * option Z)) :=
  block ← ext2_lf_getblock lock;
  if block =? NOLOCKF then mret None
  else
    b ← load block;
    mret (Some (lf_type b, lf_start b,
                (if lf_end b =? -1 then 0 else i64 (lf_end b - lf_start b + 1)),
                (if Z.land (lf_flags b) F_POSIX =? 0 then None else Some (lf_id b)))).

(** ** Wakeups and splits *)

(** [wakeup]: every process that sleeps on the address runs again. *)
Definition wakeup (w : Z) (s : lkstate) : lkstate :=
  mkLk (heap s) (i_lockf s) (next_addr s) (filter (fun kv => kv.2 <> w) (p_wchan s)) (w :: woken s).

Fixpoint wake_loop (q : list Z) (listhead : Z) : LK unit :=
  match q with
  | [] => mret tt
  | w :: q =>
      update listhead (set_blkhd q);;
      update w (set_next NOLOCKF);;
      modify (wakeup w);;
      wake_loop q listhead
  end.

Definition ext2_lf_wakelock (listhead : Z) : LK unit :=
  l ← load listhead; wake_loop (lf_blkhd l) listhead.

Definition ext2_lf_split (lock1 lock2 : Z) : LK unit :=
  l1 ← load lock1; l2 ← load lock2;
  if lf_start l1 =? lf_start l2 then
    update lock1 (set_start (i64 (lf_end l2 + 1)));; update lock2 (set_next lock1)
  else if lf_end l1 =? lf_end l2 then
    update lock1 (set_end (i64 (lf_start l2 - 1)));;
    update lock2 (set_next (lf_next l1));;
    update lock1 (set_next lock2)
  else
    splitlock ← MALLOC l1;
    update splitlock (set_start (i64 (lf_end l2 + 1)));;
    update splitlock (set_blkhd []);;
    update lock1 (set_end (i64 (lf_start l2 - 1)));;
    update splitlock (set_next (lf_next l1));;
    update lock2 (set_next splitlock);;
    update lock1 (set_next lock2).

(** ** Clearing a range *)

Fixpoint clear_loop (fuel : nat) (lf unlock : Z) (prev : link) : LK unit :=
  match fuel with
  | O => out_of_fuel
  | S fuel =>
      '(ovcase, prev, overlap) ← ext2_lf_findoverlap lf unlock SELF prev;
      if ovcase =? 0 then mret tt
      else
        ext2_lf_wakelock overlap;;
        o ← load overlap; u ← load unlock;
        match ovcase with
        | 1 => write_link prev (lf_next o);; FREE overlap
        | 2 =>
            if lf_start o =? lf_start u then update overlap (set_start (i64 (lf_end u + 1)))
            else
              ext2_lf_split overlap unlock;;
              u ← load unlock; update overlap (set_next (lf_next u))
        | 3 => write_link prev (lf_next o);; FREE overlap;; clear_loop fuel (lf_next o) unlock prev
        | 4 =>
            update overlap (set_end (i64 (lf_start u - 1)));;
            clear_loop fuel (lf_next o) unlock (Next overlap)
        | _ => update overlap (set_start (i64 (lf_end u + 1)))
        end
  end.

Definition ext2_lf_clearlock (unlock : Z) : LK unit :=
  s ← gets id;
  if i_lockf s =? NOLOCKF then mret tt
  else clear_loop (list_fuel s) (i_lockf s) unlock Head.

(** ** Setting a range *)

(** Moving the blocked requests of [overlap] to [lock] (their [lf_next] stays). *)
Definition take_waiters (overlap lock : Z) : LK unit :=
  o ← load overlap;
  update overlap (set_blkhd []);;
  l ← load lock;
  update lock (set_blkhd (lf_blkhd l ++ lf_blkhd o)).

(** The [for (;;)] loop that adds the lock, [lock] being granted. *)
Fixpoint grant_loop (fuel : nat) (block lock : Z) (prev : link) (needtolink : bool) : LK unit :=
  match fuel with
  | O => out_of_fuel
  | S fuel =>
      '(ovcase, prev, overlap) ← ext2_lf_findoverlap block lock SELF prev;
      if ovcase =? 0 then
        if needtolink then write_link prev lock;; update lock (set_next overlap) else mret tt
      else
        o ← load overlap; l ← load lock;
        let block := lf_next o in
        match ovcase with
        | 1 =>
            (if (lf_type l =? F_RDLCK) && (lf_type o =? F_WRLCK) then ext2_lf_wakelock overlap else mret tt);;
            update overlap (set_type (lf_type l));;
            FREE lock
        | 2 =>
            if lf_type o =? lf_type l then FREE lock
            else
              (if lf_start o =? lf_start l then
                 write_link prev lock;;
                 update lock (set_next overlap);;
                 update overlap (set_start (i64 (lf_end l + 1)))
               else ext2_lf_split overlap lock);;
              ext2_lf_wakelock overlap
        | 3 =>
            (if (lf_type l =? F_RDLCK) && (lf_type o =? F_WRLCK) then ext2_lf_wakelock overlap
             else take_waiters overlap lock);;
            (if needtolink then
               write_link prev lock;; update lock (set_next (lf_next o))
             else write_link prev (lf_next o));;
            FREE overlap;;
            grant_loop fuel block lock (if needtolink then Next lock else prev) false
        | 4 =>
            update lock (set_next (lf_next o));;
            update overlap (set_next lock);;
            update overlap (set_end (i64 (lf_start l - 1)));;
            ext2_lf_wakelock overlap;;
            grant_loop fuel block lock (Next lock) false
        | _ =>
            (if needtolink then write_link prev lock;; update lock (set_next overlap) else mret tt);;
            update overlap (set_start (i64 (lf_end l + 1)));;
            ext2_lf_wakelock overlap
        end
  end.

(** Deadlock detection: does the chain of processes, each waiting for a lock of the
    next, lead from [wproc] back to the requester within [maxlockdepth] steps? *)
Fixpoint deadlock_loop (n : nat) (wproc id : Z) : LK bool :=
  match n with
  | O => mret false
  | S n =>
      s ← gets (fun s => s);
      match p_wchan s !! wproc with
      | None => mret false
      | Some w =>
          waiting ← load w;
          waitblock ← load (lf_next waiting);
          if Z.land (lf_flags waitblock) F_POSIX =? 0 then mret false
          else if lf_id waitblock =? id then mret true
          else deadlock_loop n (lf_id waitblock) id
      end
  end.

(** How an attempt ends: [ext2_lf_setlock] returns, or the process sleeps on the lock. *)
Inductive attempt := Returned (error : Z) | Sleeping.

(** From the top of the [while (block = ext2_lf_getblock(lock))] loop to a return or
    the [msleep]; [curproc] is the running process. *)
Definition setlock_try (lock curproc : Z) : LK attempt :=
  block ← ext2_lf_getblock lock;
  if block =? NOLOCKF then
    s ← gets id;
    grant_loop (list_fuel s) (i_lockf s) lock Head true;;
    mret (Returned 0)
  else
    l ← load lock; b ← load block;
    if Z.land (lf_flags l) F_WAIT =? 0 then FREE lock;; mret (Returned EAGAIN)
    else
      deadlock ←
        (if negb (Z.land (lf_flags l) F_POSIX =? 0) && negb (Z.land (lf_flags b) F_POSIX =? 0)
         then deadlock_loop maxlockdepth (lf_id b) (lf_id l) else mret false);
      if deadlock : bool then FREE lock;; mret (Returned EDEADLK)
      else
        (if negb (Z.land (lf_flags l) F_FLOCK =? 0) && (lf_type l =? F_WRLCK) then
           update lock (set_type F_UNLCK);;
           ext2_lf_clearlock lock;;
           update lock (set_type F_WRLCK)
         else mret tt);;
        update lock (set_next block);;
        b ← load block;
        update block (set_blkhd (lf_blkhd b ++ [lock]));;
        modify (fun s => mkLk (heap s) (i_lockf s) (next_addr s) (<[curproc := lock]> (p_wchan s)) (woken s));;
        mret Sleeping.

(** [msleep] returns [error] to the process that slept on [lock]; it sleeps no more. *)
Definition setlock_woken (lock curproc error : Z) : LK attempt :=
  modify (fun s => mkLk (heap s) (i_lockf s) (next_addr s) (delete curproc (p_wchan s)) (woken s));;
  if error =? 0 then setlock_try lock curproc
  else
    l ← load lock;
    (if lf_next l =? NOLOCKF then mret tt
     else
       b ← load (lf_next l);
       update (lf_next l) (set_blkhd (filter (fun w => w <> lock) (lf_blkhd b))));;
    FREE lock;;
    mret (Returned error).
