(* ===== verification/LockRanges.v ===== *)
(** * Byte ranges and lists of locks

    What the lock list of [Lockf] means: a map from an owner and a byte to the type of
    the lock held.  The section defines the byte map, the three invariants of the list
    (valid ranges, sorted and disjoint ranges per owner, compatible owners), and the
    list transformers [grant] and [clear] that the loops of [ext2_lf_setlock] and
    [ext2_lf_clearlock] compute; it proves that they update the byte map as POSIX
    demands.  Nothing here mentions pointers. *)

From stdpp Require Import sorting.
From S2P Require Import Prelude Lockf.

(** ** Ranges *)

(** The largest [off_t], which stands for the end of the file. *)
Definition INF : Z := 2 ^ 63 - 1.
Definition hi (e : Z) : Z := if e =? -1 then INF else e.

Definition in_range (l : ext2lockf) (b : Z) : Prop := lf_start l <= b <= hi (lf_end l).
#[export] Instance in_range_dec l b : Decision (in_range l b).
Proof. unfold in_range. apply _. Defined.

Definition lock_type_ok (t : Z) : Prop := t = F_RDLCK \/ t = F_WRLCK.

(** The ranges that the callers make of a [struct flock]: 0 <= start, and either up to
    the end of the file or to a last byte that is not before the start. *)
Definition valid_range (l : ext2lockf) : Prop :=
  0 <= lf_start l <= hi (lf_end l) /\ (lf_end l = -1 \/ 0 <= lf_end l < INF).

Definition overlapping (a b : ext2lockf) : Prop :=
  lf_start a <= hi (lf_end b) /\ lf_start b <= hi (lf_end a).

(** What each case of [ext2_lf_findoverlap] means. *)
Inductive overlap_spec (lock o : ext2lockf) : option Z -> Prop :=
| ov_before : hi (lf_end o) < lf_start lock -> overlap_spec lock o (Some 0)
| ov_beyond : hi (lf_end lock) < lf_start o -> overlap_spec lock o (Some 0)
| ov_equal : lf_start o = lf_start lock -> lf_end o = lf_end lock -> overlap_spec lock o (Some 1)
| ov_inside : lf_start o <= lf_start lock -> hi (lf_end lock) <= hi (lf_end o) ->
    lf_end lock <> -1 -> (lf_start o < lf_start lock \/ hi (lf_end lock) < hi (lf_end o)) ->
    overlap_spec lock o (Some 2)
| ov_contains : lf_start lock <= lf_start o -> hi (lf_end o) <= hi (lf_end lock) ->
    (lf_start lock < lf_start o \/ hi (lf_end o) < hi (lf_end lock)) ->
    overlap_spec lock o (Some 3)
| ov_left : lf_start o < lf_start lock -> lf_start lock <= hi (lf_end o) ->
    hi (lf_end o) <= hi (lf_end lock) -> overlap_spec lock o (Some 4)
| ov_right : lf_start lock < lf_start o -> lf_start o <= hi (lf_end lock) ->
    hi (lf_end lock) < hi (lf_end o) -> lf_end lock <> -1 -> overlap_spec lock o (Some 5).

Ltac ranges :=
  unfold overlapping, in_range, valid_range, hi, INF in *;
  repeat match goal with
    | |- context [?x =? -1] => destruct (Z.eqb_spec x (-1))
    | H : context [?x =? -1] |- _ => destruct (Z.eqb_spec x (-1))
    end; try lia.

Definition lock_case (lock o : ext2lockf) : option Z :=
  overlap_case (lf_start lock) (lf_end lock) (lf_start o) (lf_end o).

Lemma lock_caseP lock o :
  valid_range lock -> valid_range o -> overlap_spec lock o (lock_case lock o).
Proof.
  intros Hl Ho. unfold lock_case, overlap_case.
  destruct (_ || _) eqn:E0.
  { assert (hi (lf_end o) < lf_start lock \/ hi (lf_end lock) < lf_start o) as [?|?].
    { ranges. } - by apply ov_before. - by apply ov_beyond. }
  destruct ((lf_start o =? _) && _) eqn:E1; [apply ov_equal; lia|].
  destruct ((lf_start o <=? _) && _ && _) eqn:E2; [apply ov_inside; ranges|].
  destruct ((_ <=? lf_start o) && _) eqn:E3; [apply ov_contains; ranges|].
  destruct ((lf_start o <? _) && _) eqn:E4; [apply ov_left; ranges|].
  destruct ((_ <? lf_start o) && _ && _) eqn:E5; [apply ov_right; ranges|].
  exfalso. ranges.
Qed.

(** ** The byte map *)

Fixpoint cover (L : list ext2lockf) (id b : Z) : option Z :=
  match L with
  | [] => None
  | o :: L => if decide (lf_id o = id /\ in_range o b) then Some (lf_type o) else cover L id b
  end.

(** Two locks of one owner, in list order, do not touch the same byte and the first
    lies before the second. *)
Definition before (a b : ext2lockf) : Prop :=
  lf_id a = lf_id b -> hi (lf_end a) < lf_start b.

Definition owner_sorted (L : list ext2lockf) : Prop := StronglySorted before L.
Definition valid_locks (L : list ext2lockf) : Prop :=
  Forall (fun l => valid_range l /\ lock_type_ok (lf_type l)) L.

(** No byte that one owner has write-locked is locked by another. *)
Definition exclusive (L : list ext2lockf) : Prop :=
  forall id1 id2 b, id1 <> id2 -> cover L id1 b = Some F_WRLCK -> cover L id2 b = None.

(** ** The list transformers *)

Definition beyond (lock o : ext2lockf) : bool :=
  negb (lf_end lock =? -1) && (lf_end lock <? lf_start o).

Definition tail_of (lock o : ext2lockf) : ext2lockf := set_start (i64 (lf_end lock + 1)) o.
Definition front_of (lock o : ext2lockf) : ext2lockf := set_end (i64 (lf_start lock - 1)) o.

(** The pieces of [o] that [clear] leaves when [o] contains the range. *)
Definition pieces (lock o : ext2lockf) : list ext2lockf :=
  if lf_start o =? lf_start lock then [tail_of lock o]
  else if lf_end o =? lf_end lock then [front_of lock o]
  else [front_of lock o; tail_of lock o].

Fixpoint clear (lock : ext2lockf) (L : list ext2lockf) : list ext2lockf :=
  match L with
  | [] => []
  | o :: L' =>
      if negb (lf_id o =? lf_id lock) then o :: clear lock L'
      else
        match lock_case lock o with
        | Some 0 => if beyond lock o then L else o :: clear lock L'
        | Some 1 => L'
        | Some 2 => pieces lock o ++ L'
        | Some 3 => clear lock L'
        | Some 4 => front_of lock o :: clear lock L'
        | _ => tail_of lock o :: L'
        end
  end.

(** The pieces of [o] with the lock between them. *)
Definition inserted (lock o : ext2lockf) : list ext2lockf :=
  if lf_start o =? lf_start lock then [lock; tail_of lock o]
  else if lf_end o =? lf_end lock then [front_of lock o; lock]
  else [front_of lock o; lock; tail_of lock o].

Fixpoint grant (lock : ext2lockf) (L : list ext2lockf) : list ext2lockf :=
  match L with
  | [] => [lock]
  | o :: L' =>
      if negb (lf_id o =? lf_id lock) then o :: grant lock L'
      else
        match lock_case lock o with
        | Some 0 => if beyond lock o then lock :: L else o :: grant lock L'
        | Some 1 => set_type (lf_type lock) o :: L'
        | Some 2 => if lf_type o =? lf_type lock then L else inserted lock o ++ L'
        | Some 3 => lock :: clear lock L'
        | Some 4 => front_of lock o :: lock :: clear lock L'
        | _ => lock :: tail_of lock o :: L'
        end
  end.

(** The first lock that conflicts with the request. *)
Definition conflicts (lock o : ext2lockf) : bool :=
  negb (lf_id o =? lf_id lock) && negb (bool_decide (lock_case lock o = Some 0))
  && ((lf_type lock =? F_WRLCK) || (lf_type o =? F_WRLCK)).

(** ** The byte map of a list *)

Lemma cover_app A B id b :
  cover (A ++ B) id b = match cover A id b with Some t => Some t | None => cover B id b end.
Proof. induction A as [|o A IH]; cbn; [done|]. by case_decide. Qed.

Lemma cover_Some L id b t :
  cover L id b = Some t -> exists o, o ∈ L /\ lf_id o = id /\ in_range o b /\ lf_type o = t.
Proof.
  induction L as [|o L IH]; cbn; [done|]. case_decide as E.
  - intros [= <-]. exists o. split; [by left|]. naive_solver.
  - intros H. destruct (IH H) as (x & ? & ?). exists x. split; [by right|done].
Qed.

Lemma cover_elem L o b : o ∈ L -> in_range o b -> exists t, cover L (lf_id o) b = Some t.
Proof.
  induction 1 as [|o x L Hx IH]; intros Hb; cbn.
  - rewrite decide_True by done. eauto.
  - case_decide; eauto.
Qed.

Lemma cover_beyond L o b :
  Forall (before o) L -> b <= hi (lf_end o) -> cover L (lf_id o) b = None.
Proof.
  intros HL Hb. destruct (cover L (lf_id o) b) eqn:E; [|done].
  destruct (cover_Some _ _ _ _ E) as (x & Hx & Hid & Hr & _).
  rewrite Forall_forall in HL. specialize (HL x Hx (eq_sym Hid)). unfold in_range in Hr. lia.
Qed.

(** On a sorted list every lock counts: the map gives a lock's bytes its type. *)
Lemma cover_exact L o b :
  owner_sorted L -> o ∈ L -> in_range o b -> cover L (lf_id o) b = Some (lf_type o).
Proof.
  induction 1 as [|x L HL IH Hx]; intros Ho Hb; [by inversion Ho|].
  apply elem_of_cons in Ho as [->|Ho]; cbn; [by rewrite decide_True|].
  rewrite decide_False; [by apply IH|]. intros [E Hb']. unfold in_range in *.
  rewrite Forall_forall in Hx. specialize (Hx o Ho E). lia.
Qed.

(** ** The pieces *)

Lemma hi_bound l : valid_range l -> 0 <= lf_start l /\ lf_start l <= hi (lf_end l) <= INF.
Proof. ranges. Qed.

Lemma tail_start lock o :
  valid_range lock -> lf_end lock <> -1 -> lf_start (tail_of lock o) = hi (lf_end lock) + 1.
Proof.
  intros H Hne. cbn -[Z.pow]. assert (0 <= lf_end lock < 2 ^ 63 - 1) as Hb by ranges.
  mach. unfold hi. rewrite (proj2 (Z.eqb_neq _ _)); done.
Qed.

Lemma front_end lock o :
  valid_range lock -> 0 < lf_start lock -> hi (lf_end (front_of lock o)) = lf_start lock - 1.
Proof.
  intros H Hne. cbn -[Z.pow]. assert (0 < lf_start lock < 2 ^ 63) as Hb by ranges.
  mach. unfold hi. rewrite (proj2 (Z.eqb_neq _ _)); lia.
Qed.

Lemma in_tail lock o b :
  valid_range lock -> lf_end lock <> -1 ->
  in_range (tail_of lock o) b <-> hi (lf_end lock) < b <= hi (lf_end o).
Proof. intros. unfold in_range. rewrite tail_start by done. cbn [lf_end tail_of set_start]. lia. Qed.

Lemma in_front lock o b :
  valid_range lock -> 0 < lf_start lock ->
  in_range (front_of lock o) b <-> lf_start o <= b < lf_start lock.
Proof. intros. unfold in_range. rewrite front_end by done. cbn [lf_start front_of set_end]. lia. Qed.

Lemma tail_valid lock o :
  valid_range lock -> valid_range o -> lf_end lock <> -1 -> hi (lf_end lock) < hi (lf_end o) ->
  valid_range (tail_of lock o).
Proof.
  intros Hl Ho Hne Hlt. unfold valid_range. rewrite tail_start by done.
  cbn [lf_end tail_of set_start]. ranges.
Qed.

Lemma front_valid lock o :
  valid_range lock -> valid_range o -> lf_start o < lf_start lock -> valid_range (front_of lock o).
Proof.
  intros Hl Ho Hlt. assert (0 <= lf_start o) by ranges.
  assert (lf_end (front_of lock o) = lf_start lock - 1) as E.
  { cbn -[Z.pow]. assert (0 < lf_start lock < 2 ^ 63) by ranges. by mach. }
  unfold valid_range. rewrite front_end, E by (done || lia). cbn [lf_start front_of set_end]. ranges.
Qed.

(** What one transformer does to one lock: [x] is a part of [y]. *)
Definition part_of (x y : ext2lockf) : Prop :=
  lf_id x = lf_id y /\ lf_type x = lf_type y /\
  lf_start y <= lf_start x /\ hi (lf_end x) <= hi (lf_end y).

Lemma part_refl x : part_of x x.
Proof. unfold part_of. lia. Qed.

Lemma tail_part lock o :
  valid_range lock -> lf_end lock <> -1 -> lf_start o <= hi (lf_end lock) -> part_of (tail_of lock o) o.
Proof. intros. unfold part_of. rewrite tail_start by done. cbn [lf_id lf_type lf_end tail_of set_start]. lia. Qed.

Lemma front_part lock o :
  valid_range lock -> 0 < lf_start lock -> lf_start lock <= hi (lf_end o) -> part_of (front_of lock o) o.
Proof. intros. unfold part_of. rewrite front_end by done. cbn [lf_id lf_type lf_start front_of set_end]. lia. Qed.

Lemma before_part a x y : before a y -> part_of x y -> before a x.
Proof. unfold before, part_of. intros H (E & _ & ? & _) ?. rewrite E in *. specialize (H ltac:(done)). lia. Qed.

Lemma part_before x y b : before y b -> part_of x y -> before x b.
Proof. unfold before, part_of. intros H (E & _ & _ & ?) ?. rewrite E in *. specialize (H ltac:(done)). lia. Qed.

(** What is left of [o] before and after the range of [lock]. *)
Definition fronts (lock o : ext2lockf) : list ext2lockf :=
  if lf_start o <? lf_start lock then [front_of lock o] else [].
Definition tails (lock o : ext2lockf) : list ext2lockf :=
  if hi (lf_end lock) <? hi (lf_end o) then [tail_of lock o] else [].

(** One step of [clear]. *)
Inductive clear_view (lock o : ext2lockf) (L : list ext2lockf) : list ext2lockf -> Prop :=
| cv_other : lf_id o <> lf_id lock \/ hi (lf_end o) < lf_start lock ->
    clear_view lock o L (o :: clear lock L)
| cv_beyond : lf_id o = lf_id lock -> hi (lf_end lock) < lf_start o -> clear_view lock o L (o :: L)
| cv_last : lf_id o = lf_id lock -> overlapping lock o -> hi (lf_end lock) <= hi (lf_end o) ->
    clear_view lock o L (fronts lock o ++ tails lock o ++ L)
| cv_more : lf_id o = lf_id lock -> overlapping lock o -> hi (lf_end o) <= hi (lf_end lock) ->
    clear_view lock o L (fronts lock o ++ tails lock o ++ clear lock L).

(** One step of [grant]. *)
Inductive grant_view (lock o : ext2lockf) (L : list ext2lockf) : list ext2lockf -> Prop :=
| gv_other : lf_id o <> lf_id lock \/ hi (lf_end o) < lf_start lock ->
    grant_view lock o L (o :: grant lock L)
| gv_beyond : lf_id o = lf_id lock -> hi (lf_end lock) < lf_start o ->
    grant_view lock o L (lock :: o :: L)
| gv_retype : lf_id o = lf_id lock -> lf_start o = lf_start lock -> lf_end o = lf_end lock ->
    grant_view lock o L (set_type (lf_type lock) o :: L)
| gv_same : lf_id o = lf_id lock -> lf_type o = lf_type lock ->
    lf_start o <= lf_start lock -> hi (lf_end lock) <= hi (lf_end o) -> grant_view lock o L (o :: L)
| gv_last : lf_id o = lf_id lock -> overlapping lock o -> hi (lf_end lock) <= hi (lf_end o) ->
    grant_view lock o L (fronts lock o ++ lock :: tails lock o ++ L)
| gv_more : lf_id o = lf_id lock -> overlapping lock o -> hi (lf_end o) <= hi (lf_end lock) ->
    grant_view lock o L (fronts lock o ++ lock :: tails lock o ++ clear lock L).

Lemma beyond_spec lock o : valid_range o -> beyond lock o = (hi (lf_end lock) <? lf_start o).
Proof.
  intros Ho. unfold beyond. destruct (Z.ltb_spec (hi (lf_end lock)) (lf_start o)); ranges.
Qed.

(** Rewrite the boolean order tests that the context decides. *)
Ltac ltb_simpl :=
  repeat match goal with
    | |- context [?x <? ?y] =>
        first [ rewrite (proj2 (Z.ltb_lt x y)) by lia | rewrite (proj2 (Z.ltb_ge x y)) by lia ]
    | |- context [?x =? ?y] =>
        first [ rewrite (proj2 (Z.eqb_eq x y)) by lia | rewrite (proj2 (Z.eqb_neq x y)) by lia ]
    end.

Lemma pieces_remain lock o :
  valid_range lock -> valid_range o -> lf_start o <= lf_start lock ->
  hi (lf_end lock) <= hi (lf_end o) -> lf_end lock <> -1 ->
  (lf_start o < lf_start lock \/ hi (lf_end lock) < hi (lf_end o)) ->
  pieces lock o = fronts lock o ++ tails lock o /\
  inserted lock o = fronts lock o ++ lock :: tails lock o.
Proof.
  intros Hl Ho H1 H2 Hne H3. unfold pieces, inserted, fronts, tails.
  assert (lf_end o = lf_end lock <-> hi (lf_end o) = hi (lf_end lock)) as E by ranges.
  destruct (Z.eqb_spec (lf_start o) (lf_start lock)); [by ltb_simpl|].
  destruct (Z.eqb_spec (lf_end o) (lf_end lock)); by ltb_simpl.
Qed.

Lemma clear_cons lock o L :
  valid_range lock -> valid_range o -> clear_view lock o L (clear lock (o :: L)).
Proof.
  intros Hl Ho. cbn. destruct (Z.eqb_spec (lf_id o) (lf_id lock)) as [Hid|]; [|by apply cv_other; left].
  pose proof (hi_bound _ Hl). pose proof (hi_bound _ Ho). cbn [negb]. rewrite beyond_spec by done.
  destruct (lock_caseP lock o Hl Ho) as [H1|H1|H1 H2|H1 H2 H3 H4|H1 H2 H3|H1 H2 H3|H1 H2 H3 H4].
  - ltb_simpl. apply cv_other. by right.
  - ltb_simpl. by apply cv_beyond.
  - replace L with (fronts lock o ++ tails lock o ++ L) at 2.
    { apply cv_last; [done|unfold overlapping; rewrite H2; lia|by rewrite H2]. }
    unfold fronts, tails. rewrite H1, H2. by ltb_simpl.
  - destruct (pieces_remain lock o) as [-> _]; [done..|]. rewrite <- app_assoc.
    apply cv_last; [done|unfold overlapping; lia|done].
  - replace (clear lock L) with (fronts lock o ++ tails lock o ++ clear lock L).
    { apply cv_more; [done|unfold overlapping; lia|done]. }
    unfold fronts, tails. by ltb_simpl.
  - replace (front_of lock o :: clear lock L) with (fronts lock o ++ tails lock o ++ clear lock L).
    { apply cv_more; [done|unfold overlapping; lia|done]. }
    unfold fronts, tails. by ltb_simpl.
  - replace (tail_of lock o :: L) with (fronts lock o ++ tails lock o ++ L).
    { apply cv_last; [done|unfold overlapping; lia|lia]. }
    unfold fronts, tails. by ltb_simpl.
Qed.

Lemma grant_cons lock o L :
  valid_range lock -> valid_range o -> grant_view lock o L (grant lock (o :: L)).
Proof.
  intros Hl Ho. cbn. destruct (Z.eqb_spec (lf_id o) (lf_id lock)) as [Hid|]; [|by apply gv_other; left].
  pose proof (hi_bound _ Hl). pose proof (hi_bound _ Ho). cbn [negb]. rewrite beyond_spec by done.
  destruct (lock_caseP lock o Hl Ho) as [H1|H1|H1 H2|H1 H2 H3 H4|H1 H2 H3|H1 H2 H3|H1 H2 H3 H4].
  - ltb_simpl. apply gv_other. by right.
  - ltb_simpl. by apply gv_beyond.
  - by apply gv_retype.
  - destruct (Z.eqb_spec (lf_type o) (lf_type lock)); [by apply gv_same|].
    destruct (pieces_remain lock o) as [_ ->]; [done..|]. rewrite <- app_assoc.
    apply gv_last; [done|unfold overlapping; lia|done].
  - replace (lock :: clear lock L) with (fronts lock o ++ lock :: tails lock o ++ clear lock L).
    { apply gv_more; [done|unfold overlapping; lia|done]. }
    unfold fronts, tails. by ltb_simpl.
  - replace (front_of lock o :: lock :: clear lock L) with (fronts lock o ++ lock :: tails lock o ++ clear lock L).
    { apply gv_more; [done|unfold overlapping; lia|done]. }
    unfold fronts, tails. by ltb_simpl.
  - replace (lock :: tail_of lock o :: L) with (fronts lock o ++ lock :: tails lock o ++ L).
    { apply gv_last; [done|unfold overlapping; lia|lia]. }
    unfold fronts, tails. by ltb_simpl.
Qed.

(** The remains of [o] cover what [o] covers outside the range. *)
Lemma cover_fronts lock o id b :
  valid_range lock -> valid_range o ->
  cover (fronts lock o) id b =
    if decide (lf_id o = id /\ lf_start o <= b < lf_start lock) then Some (lf_type o) else None.
Proof.
  intros Hl Ho. pose proof (hi_bound _ Ho). unfold fronts. destruct (Z.ltb_spec (lf_start o) (lf_start lock)).
  - cbn [cover lf_id lf_type front_of set_end]. apply decide_ext.
    unfold front_of. rewrite <- (in_front lock o b) by (done || lia). done.
  - cbn. rewrite decide_False by lia. done.
Qed.

Lemma cover_tails lock o id b :
  valid_range lock -> valid_range o ->
  cover (tails lock o) id b =
    if decide (lf_id o = id /\ hi (lf_end lock) < b <= hi (lf_end o)) then Some (lf_type o) else None.
Proof.
  intros Hl Ho. pose proof (hi_bound _ Ho). unfold tails. destruct (Z.ltb_spec (hi (lf_end lock)) (hi (lf_end o))).
  - cbn [cover lf_id lf_type tail_of set_start]. apply decide_ext.
    rewrite <- (in_tail lock o b) by (done || ranges). done.
  - cbn. rewrite decide_False by lia. done.
Qed.

(** ** What [clear] computes *)

Section transformers.
Context (lock : ext2lockf) (Hlock : valid_range lock).

Lemma remains_part o x :
  valid_range o -> overlapping lock o -> x ∈ fronts lock o ++ tails lock o ->
  part_of x o /\ valid_range x.
Proof using Hlock.
  intros Ho Hov Hx. pose proof (hi_bound _ Ho). unfold overlapping in Hov.
  apply elem_of_app in Hx as [Hx|Hx]; revert Hx; unfold fronts, tails.
  - destruct (Z.ltb_spec (lf_start o) (lf_start lock)); [|by intros ?%elem_of_nil].
    intros ->%list_elem_of_singleton. split; [apply front_part|apply front_valid]; done || lia.
  - destruct (Z.ltb_spec (hi (lf_end lock)) (hi (lf_end o))); [|by intros ?%elem_of_nil].
    assert (lf_end lock <> -1) by ranges.
    intros ->%list_elem_of_singleton. split; [apply tail_part|apply tail_valid]; done || lia.
Qed.

Lemma valid_cons o L : valid_locks (o :: L) -> valid_range o /\ lock_type_ok (lf_type o) /\ valid_locks L.
Proof. intros [[??] ?]%Forall_cons. done. Qed.

Lemma clear_parts L x :
  valid_locks L -> x ∈ clear lock L -> valid_range x /\ exists y, y ∈ L /\ part_of x y.
Proof using Hlock.
  induction L as [|o L IH]; intros HL Hx; [by inversion Hx|].
  destruct (valid_cons _ _ HL) as (Ho & _ & HL'). specialize (IH HL').
  assert (valid_range o /\ exists y, y ∈ o :: L /\ part_of o y) as Hself.
  { split; [done|]. exists o. split; [by left|apply part_refl]. }
  assert (forall y, y ∈ L -> valid_range y /\ exists z, z ∈ o :: L /\ part_of y z) as Hrest.
  { intros y Hy. split; [by apply (proj1 (Forall_forall _ _) HL' y)|]. exists y. split; [by right|apply part_refl]. }
  assert (x ∈ clear lock L -> valid_range x /\ exists y, y ∈ o :: L /\ part_of x y) as Hrec.
  { intros Hx'. destruct (IH Hx') as (? & y & ? & ?). split; [done|]. exists y. split; [by right|done]. }
  assert (overlapping lock o -> x ∈ fronts lock o ++ tails lock o ->
          valid_range x /\ exists y, y ∈ o :: L /\ part_of x y) as Hrem.
  { intros Hov Hp. destruct (remains_part o x) as [??]; [done..|]. split; [done|]. exists o. by split; [left|]. }
  destruct (clear_cons lock o L Hlock Ho) as [?|? ?|? Hov ?|? Hov ?].
  - apply elem_of_cons in Hx as [->|?]; auto.
  - apply elem_of_cons in Hx as [->|?]; auto.
  - rewrite app_assoc in Hx. apply elem_of_app in Hx as [?|?]; auto.
  - rewrite app_assoc in Hx. apply elem_of_app in Hx as [?|?]; auto.
Qed.

Lemma clear_valid L : valid_locks L -> valid_locks (clear lock L).
Proof using Hlock.
  intros HL. apply Forall_forall. intros x Hx. destruct (clear_parts L x HL Hx) as (? & y & Hy & _ & E & _).
  split; [done|]. rewrite E. by apply (proj1 (Forall_forall _ _) HL y).
Qed.

Lemma before_clear o L : valid_locks L -> Forall (before o) L -> Forall (before o) (clear lock L).
Proof using Hlock.
  intros HL Ho. apply Forall_forall. intros x Hx. destruct (clear_parts L x HL Hx) as (_ & y & Hy & Hp).
  apply (before_part _ _ y); [|done]. by apply (proj1 (Forall_forall _ _) Ho y).
Qed.

(** Put the remains of [o] in front of a sorted list that lies behind [o]. *)
Lemma remains_sorted o L :
  valid_range o -> overlapping lock o -> owner_sorted L -> Forall (before o) L ->
  owner_sorted (fronts lock o ++ tails lock o ++ L).
Proof using Hlock.
  intros Ho Hov HL Hb. pose proof (hi_bound _ Ho).
  assert (forall x, x ∈ fronts lock o ++ tails lock o -> Forall (before x) L) as Hx.
  { intros x Hx. destruct (remains_part o x) as [? _]; [done..|]. eapply Forall_impl; [done|].
    intros y ?. by apply (part_before x o). }
  assert (owner_sorted (tails lock o ++ L)) as Ht.
  { unfold tails in *. destruct (Z.ltb_spec (hi (lf_end lock)) (hi (lf_end o))); [|done].
    apply SSorted_cons; [done|]. apply Hx, elem_of_app. right. by left. }
  unfold fronts in *. destruct (Z.ltb_spec (lf_start o) (lf_start lock)); [|done].
  apply SSorted_cons; [done|]. apply Forall_app. split.
  - unfold tails. destruct (Z.ltb_spec (hi (lf_end lock)) (hi (lf_end o))); [|done].
    apply Forall_singleton. intros _. rewrite front_end, tail_start by (done || ranges).
    pose proof (hi_bound _ Hlock). lia.
  - apply Hx. by left.
Qed.

Lemma clear_sorted L : valid_locks L -> owner_sorted L -> owner_sorted (clear lock L).
Proof using Hlock.
  induction L as [|o L IH]; intros HL Hs; [done|].
  destruct (valid_cons _ _ HL) as (Ho & _ & HL').
  inversion Hs as [|? ? Hs' Hb]; subst. specialize (IH HL' Hs').
  destruct (clear_cons lock o L Hlock Ho).
  - apply SSorted_cons; [done|]. by apply before_clear.
  - done.
  - by apply remains_sorted.
  - apply remains_sorted; [done..|]. by apply before_clear.
Qed.

(** [clear] removes the owner's locks from the range and changes nothing else. *)
Lemma clear_cover L id b :
  valid_locks L -> owner_sorted L ->
  cover (clear lock L) id b = if decide (id = lf_id lock /\ in_range lock b) then None else cover L id b.
Proof using Hlock.
  induction L as [|o L IH]; intros HL Hs; [by case_decide|].
  destruct (valid_cons _ _ HL) as (Ho & _ & HL'). pose proof (hi_bound _ Ho).
  inversion Hs as [|? ? Hs' Hb]; subst. specialize (IH HL' Hs').
  assert (lf_id o = id -> b <= hi (lf_end o) -> cover L id b = None) as Hnone.
  { intros <-. by apply cover_beyond. }
  destruct (clear_cons lock o L Hlock Ho) as [Hd|Hid Hlt|Hid Hov Hle|Hid Hov Hle].
  - cbn [cover]. rewrite IH. unfold in_range in *. repeat case_decide; done || lia.
  - cbn [cover]. unfold in_range in *. repeat case_decide; try done || lia. apply Hnone; lia.
  - rewrite !cover_app, cover_fronts, cover_tails by done. cbn [cover]. unfold in_range, overlapping in *.
    repeat case_decide; try done || lia. apply Hnone; lia.
  - rewrite !cover_app, cover_fronts, cover_tails, IH by done. cbn [cover]. unfold in_range, overlapping in *.
    repeat case_decide; done || lia.
Qed.

(** ** What [grant] computes *)

Context (Htype : lock_type_ok (lf_type lock)).

(** The granted lock, or (a part of) an old lock, perhaps with a new type. *)
Definition origin (L : list ext2lockf) (x : ext2lockf) : Prop :=
  x = lock \/
  (valid_range x /\ lock_type_ok (lf_type x)) /\
  exists y, y ∈ L /\ lf_id x = lf_id y /\ lf_start y <= lf_start x /\ hi (lf_end x) <= hi (lf_end y).

Lemma origin_part L x y :
  valid_locks L -> y ∈ L -> valid_range x -> part_of x y -> origin L x.
Proof using.
  intros HL Hy Hx (E1 & E2 & E3 & E4). right. split; [|by exists y]. split; [done|].
  rewrite E2. by apply (proj1 (Forall_forall _ _) HL y).
Qed.

Lemma origin_elem L x : valid_locks L -> x ∈ L -> origin L x.
Proof using.
  intros HL Hx. apply (origin_part _ _ x); [done..| |apply part_refl].
  by apply (proj1 (Forall_forall _ _) HL x).
Qed.

Lemma origin_cons L o x : origin L x -> origin (o :: L) x.
Proof using. intros [->|(? & y & ? & ?)]; [by left|]. right. split; [done|]. exists y. split; [by right|done]. Qed.

Lemma grant_parts L x : valid_locks L -> x ∈ grant lock L -> origin L x.
Proof using Hlock Htype.
  induction L as [|o L IH]; intros HL Hx; [left; by apply list_elem_of_singleton in Hx|].
  destruct (valid_cons _ _ HL) as (Ho & _ & HL'). specialize (IH HL').
  assert (x ∈ o :: L -> origin (o :: L) x) as Hold by by apply origin_elem.
  assert (overlapping lock o -> x ∈ fronts lock o ++ tails lock o -> origin (o :: L) x) as Hrem.
  { intros Hov Hp. destruct (remains_part o x) as [??]; [done..|]. apply (origin_part _ _ o); [done|by left|done..]. }
  assert (forall M, x ∈ fronts lock o ++ lock :: tails lock o ++ M ->
     x = lock \/ x ∈ fronts lock o ++ tails lock o \/ x ∈ M) as Hsplit.
  { intros M. rewrite !elem_of_app, elem_of_cons, elem_of_app. tauto. }
  destruct (grant_cons lock o L Hlock Ho) as [?|? ?|? ? ?|? ? ? ?|? Hov ?|? Hov ?].
  - apply elem_of_cons in Hx as [->|Hx]; [apply Hold; by left|by apply origin_cons, IH].
  - apply elem_of_cons in Hx as [->|Hx]; [by left|auto].
  - apply elem_of_cons in Hx as [->|Hx]; [|apply Hold; by right].
    right. split; [done|]. exists o. cbn. split; [by left|lia].
  - auto.
  - destruct (Hsplit _ Hx) as [?|[?|?]]; [by left|auto|]. apply Hold. by right.
  - destruct (Hsplit _ Hx) as [?|[?|Hx']]; [by left|auto|].
    destruct (clear_parts L x HL' Hx') as (? & y & ? & ?). apply (origin_part _ _ y); [done|by right|done..].
Qed.

Lemma grant_valid L : valid_locks L -> valid_locks (grant lock L).
Proof using Hlock Htype.
  intros HL. apply Forall_forall. intros x Hx. by destruct (grant_parts L x HL Hx) as [->|[? _]].
Qed.

(** Put the granted lock between the remains of [o]. *)
Lemma inserted_sorted o L :
  valid_range o -> lf_id o = lf_id lock -> overlapping lock o ->
  owner_sorted L -> Forall (before o) L -> Forall (before lock) L ->
  owner_sorted (fronts lock o ++ lock :: tails lock o ++ L).
Proof using Hlock.
  intros Ho Hid Hov HL Hb Hbl. pose proof (remains_sorted o L Ho Hov HL Hb) as Hs.
  assert (owner_sorted (lock :: tails lock o ++ L)) as Hlt.
  { apply SSorted_cons.
    - unfold fronts in Hs. destruct (lf_start o <? _); [by inversion Hs|done].
    - apply Forall_app. split; [|done]. unfold tails.
      destruct (Z.ltb_spec (hi (lf_end lock)) (hi (lf_end o))); [|done].
      apply Forall_singleton. intros _. rewrite tail_start by (done || ranges). lia. }
  unfold fronts in *. destruct (Z.ltb_spec (lf_start o) (lf_start lock)); [|done].
  pose proof (hi_bound _ Ho). apply SSorted_cons; [done|]. apply Forall_cons. split.
  - intros _. rewrite front_end by (done || lia). lia.
  - by inversion Hs.
Qed.

(** A lock that survives a [clear] lies outside the range; behind [o], it lies after it. *)
Lemma clear_behind o L :
  valid_locks L -> owner_sorted L -> Forall (before o) L ->
  lf_id o = lf_id lock -> lf_start lock <= hi (lf_end o) + 1 -> Forall (before lock) (clear lock L).
Proof using Hlock.
  intros HL Hs Hb Hid Hle. apply Forall_forall. intros x Hx E.
  destruct (clear_parts L x HL Hx) as (Hv & y & Hy & Hp). pose proof (hi_bound _ Hv).
  assert (in_range x (lf_start x)) as Hin by (unfold in_range; lia).
  destruct (cover_elem _ _ _ Hx Hin) as (t & Ht). rewrite clear_cover in Ht by done.
  assert (hi (lf_end o) < lf_start y) as Hoy.
  { apply (proj1 (Forall_forall _ _) Hb y Hy). destruct Hp. congruence. }
  case_decide as Hd; [done|]. destruct Hp as (_ & _ & ? & _). unfold in_range in Hd.
  destruct (Z.le_gt_cases (lf_start x) (hi (lf_end lock))); [|lia]. destruct Hd. lia.
Qed.

Lemma before_grant o L :
  valid_locks L -> Forall (before o) L -> before o lock -> Forall (before o) (grant lock L).
Proof using Hlock Htype.
  intros HL Hb Hl. apply Forall_forall. intros x Hx.
  destruct (grant_parts L x HL Hx) as [->|(_ & y & Hy & E & ? & ?)]; [done|].
  intros Hid. specialize (proj1 (Forall_forall _ _) Hb y Hy). unfold before. rewrite <- E. lia.
Qed.

Lemma grant_sorted L : valid_locks L -> owner_sorted L -> owner_sorted (grant lock L).
Proof using Hlock Htype.
  induction L as [|o L IH]; intros HL Hs; [by repeat constructor|].
  destruct (valid_cons _ _ HL) as (Ho & _ & HL'). pose proof (hi_bound _ Ho).
  inversion Hs as [|? ? Hs' Hb]; subst. specialize (IH HL' Hs').
  assert (lf_id o = lf_id lock -> hi (lf_end lock) <= hi (lf_end o) -> Forall (before lock) L) as Hbl.
  { intros Hid Hle. eapply Forall_impl; [exact Hb|]. unfold before. intros x Hx E. rewrite Hid in Hx.
    specialize (Hx E). lia. }
  destruct (grant_cons lock o L Hlock Ho) as [Hd|Hid Hlt|Hid Hst He|? ? ? ?|Hid Hov Hle|Hid Hov Hle].
  - apply SSorted_cons; [done|]. apply before_grant; [done..|]. unfold before. destruct Hd; [by intros|lia].
  - apply SSorted_cons; [done|]. apply Forall_cons. split; [by intros _|].
    eapply Forall_impl; [exact Hb|]. unfold before. intros x Hx E. rewrite Hid in Hx. specialize (Hx E). lia.
  - by apply SSorted_cons.
  - done.
  - apply inserted_sorted; auto.
  - unfold overlapping in *. apply inserted_sorted; try done.
    + by apply clear_sorted.
    + by apply before_clear.
    + apply (clear_behind o); [done..|lia].
Qed.

(** [grant] gives the owner's bytes in the range the lock's type and changes nothing else. *)
Lemma grant_cover L id b :
  valid_locks L -> owner_sorted L ->
  cover (grant lock L) id b =
    if decide (id = lf_id lock /\ in_range lock b) then Some (lf_type lock) else cover L id b.
Proof using Hlock Htype.
  induction L as [|o L IH]; intros HL Hs.
  { cbn. by repeat case_decide; try done; naive_solver. }
  destruct (valid_cons _ _ HL) as (Ho & _ & HL'). pose proof (hi_bound _ Ho).
  inversion Hs as [|? ? Hs' Hb]; subst. specialize (IH HL' Hs').
  assert (lf_id o = id -> b <= hi (lf_end o) -> cover L id b = None) as Hnone.
  { intros <-. by apply cover_beyond. }
  destruct (grant_cons lock o L Hlock Ho) as [Hd|Hid Hlt|Hid Hst He|Hid Ht ? ?|Hid Hov Hle|Hid Hov Hle].
  - cbn [cover]. rewrite IH. unfold in_range in *. repeat case_decide; done || lia.
  - cbn [cover]. unfold in_range in *. repeat case_decide; done || lia.
  - cbn [cover lf_type set_type].
    repeat case_decide; first [done|unfold in_range in *; cbn in *; rewrite Hst, He in *; lia].
  - cbn [cover]. rewrite Ht. unfold in_range in *. repeat case_decide; done || lia.
  - rewrite cover_app, cover_fronts by done. cbn [cover]. rewrite cover_app, cover_tails by done.
    unfold in_range, overlapping in *. repeat case_decide; try (done || lia).
  - rewrite cover_app, cover_fronts by done. cbn [cover]. rewrite cover_app, cover_tails, clear_cover by done.
    unfold in_range, overlapping in *. repeat case_decide; done || lia.
Qed.
End transformers.

(** ** Conflicts between owners *)

(** Another owner holds a byte of the range in a way that excludes the request. *)
Definition blocked (C : Z -> Z -> option Z) (lock : ext2lockf) : Prop :=
  exists id b t, id <> lf_id lock /\ in_range lock b /\ C id b = Some t /\
    (lf_type lock = F_WRLCK \/ t = F_WRLCK).

Lemma lock_case_0 lock o :
  valid_range lock -> valid_range o -> lock_case lock o = Some 0 <-> ~ overlapping lock o.
Proof.
  intros Hl Ho. pose proof (hi_bound _ Ho). pose proof (hi_bound _ Hl). unfold overlapping.
  destruct (lock_caseP lock o Hl Ho) as [H1|H1|H1 H2|H1 H2 H3 H4|H1 H2 H3|H1 H2 H3|H1 H2 H3 H4];
    split; intros E; try done; lia.
Qed.

Lemma conflicts_spec lock o :
  valid_range lock -> valid_range o ->
  conflicts lock o = true <->
    lf_id o <> lf_id lock /\ overlapping lock o /\ (lf_type lock = F_WRLCK \/ lf_type o = F_WRLCK).
Proof.
  intros Hl Ho. unfold conflicts. rewrite !andb_true_iff, orb_true_iff, !negb_true_iff.
  rewrite bool_decide_eq_false, lock_case_0, Z.eqb_neq, !Z.eqb_eq by done.
  unfold overlapping. split; [intros [[? ?] ?]|intros (? & ? & ?)]; lia.
Qed.

(** On a well-formed list, a conflicting lock exists exactly when the byte map blocks
    the request. *)
Lemma conflicts_blocked lock L :
  valid_range lock -> valid_locks L -> owner_sorted L ->
  blocked (cover L) lock <-> exists o, o ∈ L /\ conflicts lock o = true.
Proof.
  intros Hl HL Hs. pose proof (hi_bound _ Hl). split.
  - intros (id & b & t & Hid & Hb & Hc & Ht).
    destruct (cover_Some _ _ _ _ Hc) as (o & Ho & <- & Hob & <-). exists o. split; [done|].
    apply conflicts_spec; [done|by apply (proj1 (Forall_forall _ _) HL o)|].
    unfold overlapping, in_range in *. split; [done|split; [lia|done]].
  - intros (o & Ho & Hc). assert (valid_range o) as Hvo by by apply (proj1 (Forall_forall _ _) HL o).
    apply conflicts_spec in Hc as (Hid & Hov & Ht); [|done..]. pose proof (hi_bound _ Hvo).
    exists (lf_id o), (Z.max (lf_start lock) (lf_start o)), (lf_type o).
    unfold overlapping in Hov. assert (in_range o (Z.max (lf_start lock) (lf_start o))) by (unfold in_range; lia).
    split; [done|split; [unfold in_range; lia|split; [|done]]]. by apply cover_exact.
Qed.

(** A request that is not blocked leaves the owners compatible. *)
Lemma grant_exclusive lock L :
  valid_range lock -> lock_type_ok (lf_type lock) -> valid_locks L -> owner_sorted L ->
  exclusive L -> ~ blocked (cover L) lock -> exclusive (grant lock L).
Proof.
  intros Hl Ht HL Hs Hx Hnb id1 id2 b Hne. rewrite !grant_cover by done.
  case_decide as H1; case_decide as H2.
  - destruct H1, H2. congruence.
  - intros [= E]. destruct (cover L id2 b) as [t|] eqn:Ec; [|done].
    destruct Hnb. exists id2, b, t. destruct H1 as [-> ?]. split; [congruence|]. by split; [|split; [|left]].
  - intros Hw. destruct Hnb. exists id1, b, F_WRLCK. destruct H2 as [-> ?]. split; [done|]. by split; [|split; [|right]].
  - by apply Hx.
Qed.

Lemma clear_exclusive lock L :
  valid_range lock -> valid_locks L -> owner_sorted L -> exclusive L -> exclusive (clear lock L).
Proof.
  intros Hl HL Hs Hx id1 id2 b Hne. rewrite !clear_cover by done. repeat case_decide; try done. by apply Hx.
Qed.

(** ** Locks that a scan passes over *)

Definition passed (type : who) (lock o : ext2lockf) : Prop :=
  skipped type (lf_id o) (lf_id lock) = true \/
  lock_case lock o = Some 0 /\ (type = SELF -> beyond lock o = false).

Lemma clear_passed lock A L :
  Forall (passed SELF lock) A -> clear lock (A ++ L) = A ++ clear lock L.
Proof.
  induction 1 as [|o A Ho HA IH]; [done|]. cbn. rewrite IH.
  destruct Ho as [E|[E1 E2]]; [cbn in E; by rewrite E|].
  destruct (negb _); [done|]. by rewrite E1, E2.
Qed.

Lemma grant_passed lock A L :
  Forall (passed SELF lock) A -> grant lock (A ++ L) = A ++ grant lock L.
Proof.
  induction 1 as [|o A Ho HA IH]; [done|]. cbn. rewrite IH.
  destruct Ho as [E|[E1 E2]]; [cbn in E; by rewrite E|].
  destruct (negb _); [done|]. by rewrite E1, E2.
Qed.

(** ** A decision procedure for the invariants of a list *)

Definition compatible (a b : ext2lockf) : bool :=
  (lf_id a =? lf_id b) || negb (bool_decide (overlapping a b))
  || negb ((lf_type a =? F_WRLCK) || (lf_type b =? F_WRLCK)).

Fixpoint locks_check (L : list ext2lockf) : bool :=
  match L with
  | [] => true
  | o :: L =>
      bool_decide (valid_range o) && ((lf_type o =? F_RDLCK) || (lf_type o =? F_WRLCK))
      && forallb (fun x => compatible o x && (negb (lf_id o =? lf_id x) || (hi (lf_end o) <? lf_start x))) L
      && locks_check L
  end.

Lemma compatible_exclusive L :
  (forall a b, a ∈ L -> b ∈ L -> compatible a b = true) -> exclusive L.
Proof.
  intros H id1 id2 b Hne Hw. destruct (cover L id2 b) eqn:E; [|done].
  destruct (cover_Some _ _ _ _ Hw) as (x & Hx & Hx1 & Hx2 & Hx3).
  destruct (cover_Some _ _ _ _ E) as (y & Hy & Hy1 & Hy2 & _).
  specialize (H x y Hx Hy). unfold compatible in H.
  rewrite Hx1, Hy1, (proj2 (Z.eqb_neq _ _)), Hx3, bool_decide_true in H by
    (done || (unfold overlapping, in_range in *; lia)). done.
Qed.

Lemma compatible_sym a b : compatible a b = compatible b a.
Proof.
  unfold compatible. f_equal; [f_equal|].
  - apply Z.eqb_sym.
  - f_equal. apply bool_decide_ext. unfold overlapping. tauto.
  - f_equal. apply orb_comm.
Qed.

Lemma locks_check_ok L :
  locks_check L = true -> valid_locks L /\ owner_sorted L /\ exclusive L.
Proof.
  intros H. enough (valid_locks L /\ owner_sorted L /\ forall a b, a ∈ L -> b ∈ L -> compatible a b = true) as (? & ? & Hc).
  { split_and!; try done. by apply compatible_exclusive. }
  induction L as [|o L IH]; [split_and!; [constructor|constructor|by intros ? ? ?%elem_of_nil]|].
  cbn in H. rewrite !andb_true_iff, bool_decide_eq_true, orb_true_iff, !Z.eqb_eq, forallb_forall in H.
  destruct H as (((Ho & Ht) & Hall) & HL). destruct (IH HL) as (Hv & Hs & Hc). split_and!.
  - by constructor.
  - apply SSorted_cons; [done|]. apply Forall_forall. intros x Hx%list_elem_of_In Hid.
    specialize (Hall x Hx). rewrite Hid, Z.eqb_refl in Hall. lia.
  - assert (forall x, x ∈ L -> compatible o x = true) as Ho'.
    { intros x Hx%list_elem_of_In. specialize (Hall x Hx). by apply andb_true_iff in Hall as [? _]. }
    intros a b [->|Ha]%elem_of_cons [->|Hb]%elem_of_cons; [|by apply Ho'|rewrite compatible_sym; by apply Ho'|by apply Hc].
    unfold compatible. by rewrite Z.eqb_refl.
Qed.
