(* ===== verification/LockCorrect.v ===== *)
(** * Correctness of the advisory locks

    The store of [Lockf] represents a list of locks; the loops of the code compute the
    transformers of [LockRanges].  [owns] describes the store by a finite map of the
    nodes an operation may touch, [parts] by the processed part of the lock list, the
    part still to scan and the request that is not linked yet; the lemmas on [parts] are
    the pointer manipulations of the code. *)

From stdpp Require Import sorting.
From S2P Require Import Prelude Lockf LockRanges.

(** ** Execution lemmas *)

Lemma wp_bind_ret {S A B} (m : kern S A) (k : A -> kern S B) s s' a Q :
  m s = Ret a s' -> wp (k a) Q s' -> wp (m ≫= k) Q s.
Proof. intros H. unfold wp, mbind, kern_bind. by rewrite H. Qed.

Lemma bind_ret {S A B} (m : kern S A) (k : A -> kern S B) s s' a :
  m s = Ret a s' -> (m ≫= k) s = k a s'.
Proof. intros H. unfold mbind, kern_bind. by rewrite H. Qed.

Lemma load_run p l s : heap s !! p = Some l -> load p s = Ret l s.
Proof. intros H. unfold load, gets, access, mbind, kern_bind. by rewrite H. Qed.

Lemma update_run p f l s :
  heap s !! p = Some l -> update p f s = Ret tt (with_heap (<[p := f l]>) s).
Proof. intros H. unfold update. by rewrite (bind_ret _ _ _ _ _ (load_run _ _ _ H)). Qed.

Lemma FREE_run p l s : heap s !! p = Some l -> FREE p s = Ret tt (with_heap (delete p) s).
Proof. intros H. unfold FREE. by rewrite (bind_ret _ _ _ _ _ (load_run _ _ _ H)). Qed.

(** ** Lists in the store *)

Notation node := (Z * ext2lockf)%type.

Definition hdp (L : list node) (q : Z) : Z := match L with [] => q | (p, _) :: _ => p end.
Definition ptrs (L : list node) : list Z := L.*1.

Fixpoint lays (M : gmap Z ext2lockf) (L : list node) (q : Z) : Prop :=
  match L with
  | [] => True
  | (p, l) :: L => M !! p = Some (set_next (hdp L q) l) /\ lays M L q
  end.

(** The link that leads past a list that starts at the link [k]. *)
Definition link_after (k : link) (L : list node) : link :=
  match last L with None => k | Some (p, _) => Next p end.

Lemma hdp_app A B q : hdp (A ++ B) q = hdp A (hdp B q).
Proof. by destruct A as [|[??]]. Qed.

Lemma ptrs_app A B : ptrs (A ++ B) = ptrs A ++ ptrs B.
Proof. apply fmap_app. Qed.

Lemma lays_app M A B q : lays M (A ++ B) q <-> lays M A (hdp B q) /\ lays M B q.
Proof.
  induction A as [|[p l] A IH]; cbn; [tauto|]. rewrite IH, hdp_app. tauto.
Qed.

Lemma lays_ext M M' L q :
  (forall p, p ∈ ptrs L -> M' !! p = M !! p) -> lays M L q -> lays M' L q.
Proof.
  induction L as [|[p l] L IH]; cbn; [done|]. intros H [H1 H2].
  rewrite H by by left. split; [done|]. apply IH; [|done]. intros x ?. apply H. by right.
Qed.

Lemma lays_insert M L q p x : p ∉ ptrs L -> lays M L q -> lays (<[p := x]> M) L q.
Proof. intros Hp. apply lays_ext. intros y ?. apply lookup_insert_ne. by intros ->. Qed.

Lemma lays_delete M L q p : p ∉ ptrs L -> lays M L q -> lays (delete p M) L q.
Proof. intros Hp. apply lays_ext. intros y ?. apply lookup_delete_ne. by intros ->. Qed.

Lemma lays_lookup M L q p : lays M L q -> p ∈ ptrs L -> is_Some (M !! p).
Proof.
  induction L as [|[x l] L IH]; cbn; [intros _ ?%elem_of_nil; done|].
  intros [H1 H2] [->|?]%elem_of_cons; [eauto|auto].
Qed.

Lemma link_after_app k A B : link_after (link_after k A) B = link_after k (A ++ B).
Proof. unfold link_after. rewrite last_app. by destruct (last B) as [[??]|]. Qed.

Lemma link_after_snoc k A p l : link_after k (A ++ [(p, l)]) = Next p.
Proof. unfold link_after. by rewrite last_snoc. Qed.

(** No list is longer than the store. *)
Lemma lays_length M L q : lays M L q -> NoDup (ptrs L) -> (length L <= size M)%nat.
Proof.
  intros H Hnd. replace (length L) with (length (ptrs L)) by apply length_fmap. rewrite <- size_dom.
  rewrite <- (size_list_to_set (C := gset Z) (ptrs L)) by done.
  apply subseteq_size. intros p Hp%elem_of_list_to_set. apply elem_of_dom. by eapply lays_lookup.
Qed.

(** A lock without its links: what [LockRanges] speaks of. *)
Definition strip (l : ext2lockf) : ext2lockf := set_next 0 (set_blkhd [] l).
Definition infos (L : list node) : list ext2lockf := strip <$> L.*2.

Lemma infos_app A B : infos (A ++ B) = infos A ++ infos B.
Proof. unfold infos. by rewrite !fmap_app. Qed.

(** ** The scan for an overlap *)

Definition stops (type : who) (lock : ext2lockf) (c : Z) (rest : list node) : Prop :=
  c = 0 /\ (rest = [] \/ exists p o r, rest = (p, o) :: r /\ type = SELF /\ lf_id o = lf_id lock /\
              lock_case lock o = Some 0 /\ beyond lock o = true)
  \/ c <> 0 /\ exists p o r, rest = (p, o) :: r /\ skipped type (lf_id o) (lf_id lock) = false /\
              lock_case lock o = Some c.

Definition valid_nodes (L : list node) : Prop := Forall valid_range L.*2.

Lemma findoverlap_run fuel L lock type prev s :
  valid_range lock -> valid_nodes L -> lays (heap s) L 0 -> Forall (fun p => 0 < p) (ptrs L) ->
  (length L < fuel)%nat ->
  exists c skip rest, L = skip ++ rest /\
    findoverlap fuel (hdp L 0) lock type prev s = Ret (c, link_after prev skip, hdp rest 0) s /\
    Forall (passed type lock) skip.*2 /\ stops type lock c rest.
Proof.
  intros Hl HL Hlay Hpos Hf. revert fuel prev Hf.
  induction L as [|[p o] L IH]; intros fuel prev Hf.
  { exists 0, [], []. split; [done|]. split; [by destruct fuel|]. split; [by constructor|]. left; auto. }
  destruct fuel as [|fuel]; [cbn in Hf; lia|].
  destruct Hlay as [Hp Hlay]. apply Forall_cons in HL as [Ho HL]. apply Forall_cons in Hpos as [Hp0 Hpos]; cbn in Hp0.
  assert (findoverlap (S fuel) p lock type prev s =
      (if skipped type (lf_id o) (lf_id lock) then findoverlap fuel (hdp L 0) lock type (Next p)
       else match lock_case lock o with
            | None => panic "ext2_lf_findoverlap: default"
            | Some 0 =>
                if match type with SELF => true | OTHERS => false end && beyond lock o
                then mret (0, prev, p) else findoverlap fuel (hdp L 0) lock type (Next p)
            | Some c => mret (c, prev, p)
            end) s) as Estep.
  { cbn [findoverlap]. unfold NOLOCKF. rewrite (proj2 (Z.eqb_neq p 0)) by lia.
    rewrite (bind_ret _ _ _ _ _ (load_run _ _ _ Hp)). cbn [lf_id lf_next lf_start lf_end set_next].
    unfold beyond, lock_case. destruct type; by rewrite ?andb_true_l. }
  assert (passed type lock o ->
    findoverlap (S fuel) p lock type prev s = findoverlap fuel (hdp L 0) lock type (Next p) s ->
    exists c skip rest, (p, o) :: L = skip ++ rest /\
      findoverlap (S fuel) p lock type prev s = Ret (c, link_after prev skip, hdp rest 0) s /\
      Forall (passed type lock) skip.*2 /\ stops type lock c rest) as Hpass.
  { intros Hps E. assert (length L < fuel)%nat as Hf' by (cbn in Hf; lia).
    destruct (IH HL Hlay Hpos fuel (Next p) Hf') as (c & skip & rest & -> & E' & Hs & Hst).
    exists c, ((p, o) :: skip), rest. split; [done|]. split; [|split; [by constructor|done]].
    rewrite E, E'. by rewrite <- (link_after_app prev [(p, o)] skip : _ = link_after prev ((p, o) :: skip)). }
  cbn [hdp]. destruct (skipped type (lf_id o) (lf_id lock)) eqn:Esk.
  { apply Hpass; [by left|done]. }
  assert (forall c, c <> 0 -> lock_case lock o = Some c -> stops type lock c ((p, o) :: L)) as Hstop.
  { intros c ? ?. right. split; [done|]. by exists p, o, L. }
  destruct (lock_case lock o) as [c|] eqn:Ec; [|by destruct (lock_caseP lock o Hl Ho)].
  destruct (decide (c = 0)) as [->|Hc].
  - destruct type; cbn [andb] in Estep.
    + destruct (beyond lock o) eqn:Eb.
      * exists 0, [], ((p, o) :: L). split; [done|]. split; [done|]. split; [by constructor|].
        left. split; [done|]. right. exists p, o, L. cbn in Esk. apply negb_false_iff, Z.eqb_eq in Esk. done.
      * apply Hpass; [right|]; done.
    + apply Hpass; [right|]; done.
  - exists c, [], ((p, o) :: L). split; [done|]. split; [|split; [by constructor|by apply Hstop]].
    rewrite Estep. by destruct c.
Qed.

(** ** Ownership of nodes

    [owns W s hd wk M]: the store of [s] holds the nodes of [M]; the requests [W] that
    sleep are allocated and no nodes of [M]; the list starts at [hd]; the requests [wk]
    have been woken. *)
Record owns (W : gset Z) (s : lkstate) (hd : Z) (wk : list Z) (M : gmap Z ext2lockf) : Prop := {
  own_heap : M ⊆ heap s;
  own_head : i_lockf s = hd;
  own_woken : woken s = wk;
  own_wait : forall w, w ∈ W -> is_Some (heap s !! w) /\ M !! w = None;
  own_fresh : forall p, next_addr s <= p -> heap s !! p = None;
  own_next : 0 < next_addr s;
  own_pos : forall p, is_Some (heap s !! p) -> 0 < p;
}.

Section verbs.
Context (W : gset Z).
Implicit Types (s : lkstate) (Q : unit -> lkstate -> Prop) (M : gmap Z ext2lockf).

Lemma own_lookup s hd wk M p l : owns W s hd wk M -> M !! p = Some l -> heap s !! p = Some l.
Proof using. intros H Hp. eapply lookup_weaken; [done|]. apply H. Qed.

Lemma own_load s hd wk M p l : owns W s hd wk M -> M !! p = Some l -> load p s = Ret l s.
Proof using. intros H Hp. eapply load_run, own_lookup; done. Qed.

Lemma own_below s hd wk M p l : owns W s hd wk M -> M !! p = Some l -> p < next_addr s.
Proof using.
  intros H Hp. destruct (Z.lt_ge_cases p (next_addr s)) as [|Hge]; [done|].
  apply (own_fresh _ _ _ _ _ H) in Hge. by rewrite (own_lookup _ _ _ _ _ _ H Hp) in Hge.
Qed.

Lemma own_insert s hd wk M p l x :
  owns W s hd wk M -> M !! p = Some l -> owns W (with_heap (<[p := x]>) s) hd wk (<[p := x]> M).
Proof using.
  intros H Hp. pose proof (own_below _ _ _ _ _ _ H Hp) as Hlt. destruct H as [H1 H2 H3 H4 H5 H6 H7].
  split; cbn; try done.
  - by apply insert_mono.
  - intros w Hw. destruct (H4 w Hw) as [? Hn]. assert (w <> p) by congruence.
    by rewrite !lookup_insert_ne by done.
  - intros q Hq. rewrite lookup_insert_ne by lia. auto.
  - intros q [Hq|[_ Hq]]%lookup_insert_is_Some; [subst|by apply H7].
    apply H7. exists l. eapply lookup_weaken; done.
Qed.

Lemma wp_update s hd wk M p l f Q :
  owns W s hd wk M -> M !! p = Some l ->
  (forall s', owns W s' hd wk (<[p := f l]> M) -> Q tt s') -> wp (update p f) Q s.
Proof using.
  intros H Hp HQ. unfold wp. rewrite (update_run p f l) by by eapply own_lookup.
  apply HQ. by eapply own_insert.
Qed.

Lemma wp_FREE s hd wk M p l Q :
  owns W s hd wk M -> M !! p = Some l ->
  (forall s', owns W s' hd wk (delete p M) -> Q tt s') -> wp (FREE p) Q s.
Proof using.
  intros H Hp HQ. unfold wp. rewrite (FREE_run p l) by by eapply own_lookup.
  apply HQ. destruct H as [H1 H2 H3 H4 H5 H6 H7]. split; cbn; try done.
  - by apply delete_mono.
  - intros w Hw. destruct (H4 w Hw) as [? Hn]. assert (w <> p) by congruence.
    by rewrite !lookup_delete_ne by done.
  - intros q Hq. destruct (decide (q = p)) as [->|]; [apply lookup_delete_eq|].
    rewrite lookup_delete_ne by done. auto.
  - intros q [_ Hq]%lookup_delete_is_Some. auto.
Qed.

Lemma wp_MALLOC s hd wk M l (Q : Z -> lkstate -> Prop) :
  owns W s hd wk M ->
  (forall p s', owns W s' hd wk (<[p := l]> M) -> 0 < p -> M !! p = None -> Q p s') -> wp (MALLOC l) Q s.
Proof using.
  intros [H1 H2 H3 H4 H5 H6 H7] HQ. unfold wp, MALLOC, gets, modify, mbind, kern_bind, mret, kern_ret.
  assert (heap s !! next_addr s = None) as Hn by (apply H5; lia).
  apply HQ; [|done|eapply lookup_weaken_None; done]. split; cbn; try done; try lia.
  - by apply insert_mono.
  - intros w Hw. destruct (H4 w Hw) as [Hs ?]. assert (w <> next_addr s) by (intros ->; rewrite Hn in Hs; by destruct Hs).
    by rewrite !lookup_insert_ne by done.
  - intros q Hq. rewrite lookup_insert_ne by lia. apply H5. lia.
  - intros q [Hq|[_ Hq]]%lookup_insert_is_Some; [by subst|by apply H7].
Qed.

(** [ext2_lf_wakelock] wakes exactly the requests that are queued on the lock. *)
Lemma wp_wake_loop q s hd wk M p l Q :
  owns W s hd wk M -> M !! p = Some l -> (forall w, w ∈ q -> w ∈ W) -> lf_blkhd l = q ->
  (forall s', owns W s' hd (reverse q ++ wk) (<[p := set_blkhd [] l]> M) -> Q tt s') ->
  wp (wake_loop q p) Q s.
Proof using.
  revert s wk M l. induction q as [|w q IH]; intros s wk M l H Hp Hq Hl HQ; cbn [wake_loop].
  { apply wp_ret, HQ. replace (set_blkhd [] l) with l by (by destruct l; cbn in *; subst).
    by rewrite insert_id. }
  apply wp_bind. eapply wp_update; [done..|]. intros s1 H1.
  destruct (own_wait _ _ _ _ _ H1 w) as [[lw Hlw] Hnw]; [apply Hq; by left|].
  apply wp_bind. unfold wp. rewrite (update_run w _ lw) by done. apply wp_bind, wp_modify.
  eapply (IH _ (w :: wk) (<[p := set_blkhd q l]> M)).
  - destruct H1 as [H11 H12 H13 H14 H15 H16 H17]. split; cbn; try done.
    + apply insert_subseteq_r; done.
    + by rewrite H13.
    + intros x Hx. destruct (H14 x Hx). split; [|done]. destruct (decide (x = w)) as [->|].
      * rewrite lookup_insert_eq. eauto.
      * by rewrite lookup_insert_ne.
    + intros x Hx. rewrite lookup_insert_ne; [auto|]. intros ->. apply H15 in Hx. by rewrite Hx in Hlw.
    + intros x [Hx|[_ Hx]]%lookup_insert_is_Some; [subst; eauto|by apply H17].
  - by rewrite lookup_insert_eq.
  - intros x Hx. apply Hq. by right.
  - done.
  - intros s2 H2. apply HQ. rewrite reverse_cons, <- app_assoc. by rewrite insert_insert_eq in H2.
Qed.

Lemma wp_wakelock s hd wk M p l Q :
  owns W s hd wk M -> M !! p = Some l -> (forall w, w ∈ lf_blkhd l -> w ∈ W) ->
  (forall s', owns W s' hd (reverse (lf_blkhd l) ++ wk) (<[p := set_blkhd [] l]> M) -> Q tt s') ->
  wp (ext2_lf_wakelock p) Q s.
Proof using.
  intros H Hp Hq HQ. unfold ext2_lf_wakelock. eapply wp_bind_ret; [by eapply own_load|].
  by eapply wp_wake_loop.
Qed.

Lemma wp_take_waiters s hd wk M o lock lo ll Q :
  owns W s hd wk M -> M !! o = Some lo -> M !! lock = Some ll -> o <> lock ->
  (forall s', owns W s' hd wk (<[lock := set_blkhd (lf_blkhd ll ++ lf_blkhd lo) ll]> (<[o := set_blkhd [] lo]> M)) ->
     Q tt s') -> wp (take_waiters o lock) Q s.
Proof using.
  intros H Ho Hl Hne HQ. unfold take_waiters. eapply wp_bind_ret; [by eapply own_load|].
  apply wp_bind. eapply wp_update; [done..|]. intros s1 H1.
  assert (<[o := set_blkhd [] lo]> M !! lock = Some ll) by by rewrite lookup_insert_ne.
  eapply wp_bind_ret; [by eapply own_load|]. by eapply wp_update.
Qed.

(** Writing the link that leads past [pre]. *)
Lemma wp_write_link s wk M pre q v Q :
  owns W s (hdp pre q) wk M -> lays M pre q -> NoDup (ptrs pre) ->
  (forall s' M', owns W s' (hdp pre v) wk M' -> lays M' pre v ->
     (forall p, p ∉ ptrs pre -> M' !! p = M !! p) -> Q tt s') ->
  wp (write_link (link_after Head pre) v) Q s.
Proof using.
  intros H Hlay Hnd HQ. destruct pre as [|[p l] pre _] using rev_ind.
  { unfold link_after. cbn [last write_link]. apply wp_modify, (HQ _ M); [|done..].
    destruct H as [H1 H2 H3 H4 H5 H6 H7]. by constructor. }
  rewrite link_after_snoc. cbn [write_link]. apply lays_app in Hlay as [Hpre [Hp _]]. cbn in Hp.
  rewrite ptrs_app in Hnd. apply NoDup_app in Hnd as (Hnd & Hni & _).
  eapply wp_update; [done..|]. intros s' H'. apply (HQ _ (<[p := set_next v (set_next q l)]> M)); [|rewrite lays_app; cbn|].
  - rewrite hdp_app in *. exact H'.
  - rewrite lookup_insert_eq. split; [|done]. apply lays_insert; [|done]. intros Hin. apply (Hni p Hin). by left.
  - intros x Hx. rewrite lookup_insert_ne; [done|]. intros ->. apply Hx. rewrite ptrs_app. set_solver.
Qed.

(** ** Bookkeeping of the nodes

    No node occurs twice, and every sleeping request is queued on a node or has been
    woken. *)
Record nodes_ok (wk : list Z) (N : list node) : Prop := {
  nk_nodup : NoDup (ptrs N);
  nk_waits : forall n w, n ∈ N -> w ∈ lf_blkhd n.2 -> w ∈ W;
  nk_queued : forall w, w ∈ W -> w ∈ wk \/ exists n, n ∈ N /\ w ∈ lf_blkhd n.2;
}.

Lemma nodes_ok_perm wk N N' : nodes_ok wk N -> N ≡ₚ N' -> nodes_ok wk N'.
Proof using.
  intros [H1 H2 H3] E. split.
  - unfold ptrs in *. by rewrite <- E.
  - intros n w Hn. apply H2. by rewrite E.
  - intros w Hw. destruct (H3 w Hw) as [?|(n & Hn & ?)]; [by left|]. right. exists n. by rewrite <- E.
Qed.

Lemma nodes_ok_edit wk N p l l' :
  nodes_ok wk ((p, l) :: N) -> lf_blkhd l' = lf_blkhd l -> nodes_ok wk ((p, l') :: N).
Proof using.
  intros [H1 H2 H3] E. split; [done| |].
  - intros n w [->|Hn]%elem_of_cons; cbn; [rewrite E; apply (H2 (p, l)); by left|].
    apply H2. by right.
  - intros w Hw. destruct (H3 w Hw) as [?|(n & [->|Hn]%elem_of_cons & ?)]; [by left| |]; right.
    + exists (p, l'). cbn. rewrite E. split; [by left|done].
    + exists n. split; [by right|done].
Qed.

Lemma nodes_ok_drop wk N p l : nodes_ok wk ((p, l) :: N) -> lf_blkhd l = [] -> nodes_ok wk N.
Proof using.
  intros [H1 H2 H3] E. split; [by inversion H1| |].
  - intros n w Hn. apply H2. by right.
  - intros w Hw. destruct (H3 w Hw) as [?|(n & [->|Hn]%elem_of_cons & Hin)]; [by left| |right; eauto].
    cbn in Hin. rewrite E in Hin. by inversion Hin.
Qed.

Lemma nodes_ok_add wk N p l : nodes_ok wk N -> p ∉ ptrs N -> lf_blkhd l = [] -> nodes_ok wk ((p, l) :: N).
Proof using.
  intros [H1 H2 H3] Hp E. split; [by constructor| |].
  - intros n w [->|Hn]%elem_of_cons; cbn; [|by apply H2]. rewrite E. by intros ?%elem_of_nil.
  - intros w Hw. destruct (H3 w Hw) as [?|(n & Hn & ?)]; [by left|]. right. exists n. split; [by right|done].
Qed.

Lemma nodes_ok_wake wk N p l :
  nodes_ok wk ((p, l) :: N) -> nodes_ok (reverse (lf_blkhd l) ++ wk) ((p, set_blkhd [] l) :: N).
Proof using.
  intros [H1 H2 H3]. split; [done| |].
  - intros n w [->|Hn]%elem_of_cons; [by intros ?%elem_of_nil|]. apply H2. by right.
  - intros w Hw. rewrite elem_of_app, elem_of_reverse.
    destruct (H3 w Hw) as [?|(n & [->|Hn]%elem_of_cons & ?)]; [by left; right|by left; left|].
    right. exists n. split; [by right|done].
Qed.

Lemma nodes_ok_take wk N p l q m :
  nodes_ok wk ((p, l) :: (q, m) :: N) ->
  nodes_ok wk ((p, set_blkhd [] l) :: (q, set_blkhd (lf_blkhd m ++ lf_blkhd l) m) :: N).
Proof using.
  intros [H1 H2 H3]. split; [done| |].
  - intros n w [->|[->|Hn]%elem_of_cons]%elem_of_cons; [by intros ?%elem_of_nil| |apply H2; by do 2 right].
    cbn. intros [?|?]%elem_of_app; [apply (H2 (q, m)); [right; by left|done]|apply (H2 (p, l)); [by left|done]].
  - intros w Hw. destruct (H3 w Hw) as [?|(n & [->|[->|Hn]%elem_of_cons]%elem_of_cons & Hin)]; [by left|right..].
    + exists (q, set_blkhd (lf_blkhd m ++ lf_blkhd l) m). cbn. split; [right; by left|].
      apply elem_of_app. by right.
    + exists (q, set_blkhd (lf_blkhd m ++ lf_blkhd l) m). cbn. split; [right; by left|].
      apply elem_of_app. by left.
    + exists n. split; [by do 2 right|done].
Qed.

(** ** A list in the middle of an operation *)

(** The lock list is [pre] followed by [rest]; the nodes [X] are not linked. *)
Definition parts s (pre rest X : list node) : Prop := exists M,
  owns W s (hdp pre (hdp rest 0)) (woken s) M /\ lays M pre (hdp rest 0) /\ lays M rest 0 /\
  Forall (fun n => M !! n.1 = Some n.2) X /\ nodes_ok (woken s) (pre ++ rest ++ X).

Lemma nodes_distinct wk A p l B :
  nodes_ok wk (A ++ (p, l) :: B) -> p ∉ ptrs A /\ p ∉ ptrs B /\ NoDup (ptrs A) /\ NoDup (ptrs B).
Proof using.
  intros [H _ _]. rewrite ptrs_app in H. apply NoDup_app in H as (? & H1 & H2).
  inversion H2; subst. repeat split; try done. intros Hp. apply (H1 p Hp). by left.
Qed.

Lemma lays_edit M A p l l' B q :
  lays M (A ++ (p, l) :: B) q -> p ∉ ptrs A -> p ∉ ptrs B ->
  lays (<[p := set_next (hdp B q) l']> M) (A ++ (p, l') :: B) q.
Proof using.
  rewrite !lays_app. intros (HA & _ & HB) ? ?. cbn. rewrite lookup_insert_eq.
  split; [by apply lays_insert|]. split; [done|]. by apply lays_insert.
Qed.

Lemma parts_advance s pre skip rest X : parts s pre (skip ++ rest) X <-> parts s (pre ++ skip) rest X.
Proof using.
  split; intros (M & H1 & H2 & H3 & H4 & H5); exists M; revert H1 H2 H3 H4 H5;
    rewrite ?lays_app, ?hdp_app, <- ?app_assoc; tauto.
Qed.

Lemma parts_nil_r s L X : parts s [] L X <-> parts s L [] X.
Proof using. rewrite <- (app_nil_r L) at 1. by rewrite parts_advance. Qed.

(** Loads. *)
Lemma parts_head s pre p o rest X :
  parts s pre ((p, o) :: rest) X -> load p s = Ret (set_next (hdp rest 0) o) s.
Proof using. intros (M & Ho & _ & [Hp _] & _). by eapply own_load. Qed.

Lemma parts_request s pre rest lk l : parts s pre rest [(lk, l)] -> load lk s = Ret l s.
Proof using. intros (M & Ho & _ & _ & HX & _). apply Forall_cons in HX as [HX _]. exact (own_load _ _ _ _ _ _ Ho HX). Qed.

Lemma parts_linked s A p l B rest X :
  parts s (A ++ (p, l) :: B) rest X -> exists n, load p s = Ret (set_next n l) s.
Proof using.
  intros (M & Ho & Hpre & _). apply lays_app in Hpre as (_ & Hp & _). eexists. by eapply own_load.
Qed.

Lemma parts_load s pre rest X p l :
  parts s pre rest X -> (p, l) ∈ pre ++ X -> exists n, load p s = Ret (set_next n l) s.
Proof using.
  intros Hs [Hin|Hin]%elem_of_app.
  - apply list_elem_of_split in Hin as (A & B & ->). by eapply parts_linked.
  - destruct Hs as (M & Ho & _ & _ & HX & _). rewrite Forall_forall in HX. specialize (HX _ Hin). cbn in HX.
    exists (lf_next l). replace (set_next (lf_next l) l) with l by by destruct l. by eapply own_load.
Qed.

(** What a [Forall] over the unlinked nodes keeps. *)
Lemma extra_insert M X p x :
  p ∉ ptrs X -> Forall (fun n : node => M !! n.1 = Some n.2) X ->
  Forall (fun n : node => <[p := x]> M !! n.1 = Some n.2) X.
Proof using.
  intros Hp HX. induction HX as [|n X Hn HX IH]; constructor.
  - rewrite lookup_insert_ne; [done|]. intros ->. apply Hp. by left.
  - apply IH. intros ?. apply Hp. by right.
Qed.

Lemma extra_ext M M' X :
  (forall p, p ∈ ptrs X -> M' !! p = M !! p) -> Forall (fun n : node => M !! n.1 = Some n.2) X ->
  Forall (fun n : node => M' !! n.1 = Some n.2) X.
Proof using.
  intros Hp HX. induction HX as [|n X Hn HX IH]; constructor.
  - rewrite Hp; [done|by left].
  - apply IH. intros ??. apply Hp. by right.
Qed.

Lemma ptrs_elem_app p A B : p ∈ ptrs (A ++ B) <-> p ∈ ptrs A \/ p ∈ ptrs B.
Proof using. rewrite ptrs_app. apply elem_of_app. Qed.

Lemma nodes_apart wk n A B x : nodes_ok wk (n :: A ++ B) -> x ∈ ptrs B -> x ∉ ptrs A.
Proof using.
  intros [Hn _ _] Hx Hx'. cbn in Hn. inversion Hn as [|? ? _ Hn']; subst. rewrite ptrs_app in Hn'.
  apply NoDup_app in Hn' as (_ & Hn' & _). by apply (Hn' x).
Qed.

(** Regroup the nodes: the goal's list is a permutation of the hypothesis'. *)
Ltac regroup H := eapply nodes_ok_perm; [exact H|solve_Permutation].

(** The facts about the node [p] of [parts]. *)
Lemma parts_head_facts s pre p o rest X :
  parts s pre ((p, o) :: rest) X -> exists M,
  owns W s (hdp pre p) (woken s) M /\ lays M pre p /\ M !! p = Some (set_next (hdp rest 0) o) /\
  lays M rest 0 /\ Forall (fun n => M !! n.1 = Some n.2) X /\
  nodes_ok (woken s) ((p, o) :: pre ++ rest ++ X) /\
  NoDup (ptrs pre) /\ p ∉ ptrs pre /\ p ∉ ptrs rest /\ p ∉ ptrs X.
Proof using.
  intros (M & Ho & Hpre & [Hp Hrest] & HX & Hn). exists M. cbn [hdp] in *.
  destruct (nodes_distinct (woken s) pre p o (rest ++ X) Hn) as (? & Hr & ? & _).
  rewrite ptrs_elem_app in Hr. split_and!; try done; try tauto. regroup Hn.
Qed.

Lemma parts_request_facts s pre rest lk l :
  parts s pre rest [(lk, l)] -> exists M,
  owns W s (hdp pre (hdp rest 0)) (woken s) M /\ lays M pre (hdp rest 0) /\ lays M rest 0 /\ M !! lk = Some l /\
  nodes_ok (woken s) ((lk, l) :: pre ++ rest) /\ NoDup (ptrs pre) /\ lk ∉ ptrs pre /\ lk ∉ ptrs rest.
Proof using.
  intros (M & Ho & Hpre & Hrest & HX & Hn). exists M. apply Forall_cons in HX as [HX _]. cbn in HX.
  assert (nodes_ok (woken s) (pre ++ (lk, l) :: rest)) as Hn' by regroup Hn.
  destruct (nodes_distinct _ _ _ _ _ Hn') as (? & ? & ? & _). split_and!; try done. regroup Hn.
Qed.

Lemma parts_update_head s pre p o rest X f Q :
  parts s pre ((p, o) :: rest) X ->
  (forall n l, f (set_next n l) = set_next n (f l)) -> lf_blkhd (f o) = lf_blkhd o ->
  (forall s', parts s' pre ((p, f o) :: rest) X -> Q tt s') -> wp (update p f) Q s.
Proof using.
  intros Hs Hf Hb HQ. destruct (parts_head_facts _ _ _ _ _ _ Hs) as (M & Ho & ? & Hp & ? & HX & Hn & ? & ? & ? & ?).
  eapply wp_update; [done..|]. intros s' H'. apply HQ. eexists.
  rewrite (own_woken _ _ _ _ _ H'). split; [exact H'|]. rewrite Hf. cbn. rewrite lookup_insert_eq.
  split_and!; try done; try by apply lays_insert.
  - by apply extra_insert.
  - pose proof (nodes_ok_edit _ _ _ _ (f o) Hn Hb) as Hn'. regroup Hn'.
Qed.

Lemma parts_wake_head s pre p o rest X Q :
  parts s pre ((p, o) :: rest) X ->
  (forall s', parts s' pre ((p, set_blkhd [] o) :: rest) X -> Q tt s') -> wp (ext2_lf_wakelock p) Q s.
Proof using.
  intros Hs HQ. destruct (parts_head_facts _ _ _ _ _ _ Hs) as (M & Ho & ? & Hp & ? & HX & Hn & ? & ? & ? & ?).
  eapply wp_wakelock; [done..| |].
  { intros w Hw. apply (nk_waits _ _ Hn (p, o)); [by left|done]. }
  intros s' H'. apply HQ. eexists. rewrite (own_woken _ _ _ _ _ H').
  split; [exact H'|]. cbn. rewrite lookup_insert_eq.
  split_and!; try done; try by apply lays_insert.
  - by apply extra_insert.
  - pose proof (nodes_ok_wake _ _ _ _ Hn) as Hn'. regroup Hn'.
Qed.

Lemma parts_free_request s pre rest lk l Q :
  parts s pre rest [(lk, l)] -> lf_blkhd l = [] ->
  (forall s', parts s' pre rest [] -> Q tt s') -> wp (FREE lk) Q s.
Proof using.
  intros Hs Hb HQ. destruct (parts_request_facts _ _ _ _ _ Hs) as (M & Ho & ? & ? & Hp & Hn & ? & ? & ?).
  eapply wp_FREE; [done..|]. intros s' H'. apply HQ. eexists. rewrite (own_woken _ _ _ _ _ H').
  split; [exact H'|]. split_and!; [by apply lays_delete..|constructor|].
  pose proof (nodes_ok_drop _ _ _ _ Hn Hb) as Hn'. regroup Hn'.
Qed.

(** [*prev = overlap->lf_next; FREE(overlap)] *)
Lemma parts_unlink s pre p o rest X Q :
  parts s pre ((p, o) :: rest) X -> lf_blkhd o = [] ->
  (forall s', parts s' pre rest X -> Q tt s') ->
  wp (write_link (link_after Head pre) (hdp rest 0)) (fun _ => wp (FREE p) Q) s.
Proof using.
  intros Hs Hb HQ. destruct (parts_head_facts _ _ _ _ _ _ Hs) as (M & Ho & ? & Hp & ? & HX & Hn & ? & ? & Hr & HpX).
  eapply wp_write_link; [done..|]. intros s1 M1 Hs1 Hl1 E1.
  pose proof (fun x => nodes_apart _ _ _ _ x Hn) as Hd. setoid_rewrite ptrs_elem_app in Hd.
  eapply wp_FREE; [done|by rewrite E1|]. intros s2 Hs2. apply HQ. exists (delete p M1).
  rewrite (own_woken _ _ _ _ _ Hs2). split; [done|]. split_and!.
  - by apply lays_delete.
  - apply lays_delete; [done|]. eapply lays_ext; [|done]. intros x ?. apply E1. auto.
  - eapply extra_ext; [|exact HX]. intros x Hx. rewrite lookup_delete_ne by (by intros ->). apply E1. auto.
  - pose proof (nodes_ok_drop _ _ _ _ Hn Hb) as Hn'. regroup Hn'.
Qed.

(** [*prev = lock; lock->lf_next = overlap;] *)
Lemma parts_link s pre rest lk l Q :
  parts s pre rest [(lk, l)] -> (forall s', parts s' (pre ++ [(lk, l)]) rest [] -> Q tt s') ->
  wp (write_link (link_after Head pre) lk) (fun _ => wp (update lk (set_next (hdp rest 0))) Q) s.
Proof using.
  intros Hs HQ. destruct (parts_request_facts _ _ _ _ _ Hs) as (M & Ho & ? & Hrest & Hp & Hn & ? & Hpre & Hr).
  eapply wp_write_link; [done..|]. intros s1 M1 Hs1 Hl1 E1.
  eapply wp_update; [done|by rewrite E1|]. intros s2 Hs2. apply HQ. apply parts_advance.
  pose proof (fun x => nodes_apart _ _ _ _ x Hn) as Hd.
  eexists. rewrite (own_woken _ _ _ _ _ Hs2). split; [exact Hs2|]. cbn. rewrite lookup_insert_eq. split_and!.
  - by apply lays_insert.
  - done.
  - apply lays_insert; [done|]. eapply lays_ext; [|done]. auto.
  - constructor.
  - regroup Hn.
Qed.

(** [*prev = lock; lock->lf_next = overlap->lf_next; FREE(overlap)] *)
Lemma parts_replace s pre p o rest lk l Q :
  parts s pre ((p, o) :: rest) [(lk, l)] -> lf_blkhd o = [] ->
  (forall s', parts s' (pre ++ [(lk, l)]) rest [] -> Q tt s') ->
  wp (write_link (link_after Head pre) lk)
     (fun _ => wp (update lk (set_next (hdp rest 0))) (fun _ => wp (FREE p) Q)) s.
Proof using.
  intros Hs Hb HQ.
  destruct (parts_head_facts _ _ _ _ _ _ Hs) as (M & Ho & Hl & Hp & Hr & HX & Hn & ? & Hpp & Hpr & Hpk).
  destruct (parts_request_facts _ _ _ _ _ Hs) as (_ & _ & _ & _ & _ & _ & _ & Hkp & Hkr).
  apply Forall_cons in HX as [Hk _]. cbn in Hk, Hkr, Hpk.
  assert (lk <> p) as Hne by (intros ->; apply Hkr; by left).
  eapply wp_write_link; [done..|]. intros s1 M1 Hs1 Hl1 E1.
  pose proof (fun x => nodes_apart _ _ _ _ x Hn) as Hd. setoid_rewrite ptrs_elem_app in Hd.
  eapply wp_update; [done|by rewrite E1|]. intros s2 Hs2.
  eapply wp_FREE; [done|by rewrite lookup_insert_ne, E1 by done|]. intros s3 Hs3. apply HQ, parts_advance.
  eexists. rewrite (own_woken _ _ _ _ _ Hs3). split; [exact Hs3|].
  assert (lk ∉ ptrs rest) as Hkr' by (intros ?; apply Hkr; by right).
  cbn. rewrite lookup_delete_ne, lookup_insert_eq by done. split_and!.
  - apply lays_delete; [done|]. by apply lays_insert.
  - done.
  - apply lays_delete, lays_insert; [done..|]. eapply lays_ext; [|done]. auto.
  - constructor.
  - pose proof (nodes_ok_drop _ _ _ _ Hn Hb) as Hn'. regroup Hn'.
Qed.

(** [lock->lf_next = overlap->lf_next; overlap->lf_next = lock;] *)
Lemma parts_insert_after s pre p o rest lk l Q :
  parts s pre ((p, o) :: rest) [(lk, l)] ->
  (forall s', parts s' pre ((p, o) :: (lk, l) :: rest) [] -> Q tt s') ->
  wp (update lk (set_next (hdp rest 0))) (fun _ => wp (update p (set_next lk)) Q) s.
Proof using.
  intros Hs HQ.
  destruct (parts_head_facts _ _ _ _ _ _ Hs) as (M & Ho & Hl & Hp & Hr & HX & Hn & ? & Hpp & Hpr & Hpk).
  destruct (parts_request_facts _ _ _ _ _ Hs) as (_ & _ & _ & _ & _ & _ & _ & Hkp & Hkr).
  apply Forall_cons in HX as [Hk _]. cbn in Hk, Hkr.
  assert (lk <> p) as Hne by (intros ->; apply Hkr; by left).
  assert (lk ∉ ptrs rest) as Hkr' by (intros ?; apply Hkr; by right).
  eapply wp_update; [done..|]. intros s1 Hs1.
  eapply wp_update; [done|by rewrite lookup_insert_ne|]. intros s2 Hs2. apply HQ.
  eexists. rewrite (own_woken _ _ _ _ _ Hs2). split; [exact Hs2|].
  cbn. rewrite lookup_insert_eq, lookup_insert_ne, lookup_insert_eq by done. split_and!; try done.
  - by do 2 (apply lays_insert; [done|]).
  - by do 2 (apply lays_insert; [done|]).
  - regroup Hn.
Qed.

(** The waiters of [overlap] move to a request that is not linked yet ... *)
Lemma parts_take_request s pre p o rest lk l Q :
  parts s pre ((p, o) :: rest) [(lk, l)] ->
  (forall s' q, parts s' pre ((p, set_blkhd [] o) :: rest) [(lk, set_blkhd q l)] -> Q tt s') ->
  wp (take_waiters p lk) Q s.
Proof using.
  intros Hs HQ.
  destruct (parts_head_facts _ _ _ _ _ _ Hs) as (M & Ho & Hl & Hp & Hr & HX & Hn & ? & Hpp & Hpr & Hpk).
  destruct (parts_request_facts _ _ _ _ _ Hs) as (_ & _ & _ & _ & _ & _ & _ & Hkp & Hkr).
  apply Forall_cons in HX as [Hk _]. cbn in Hk, Hkr.
  assert (lk <> p) as Hne by (intros ->; apply Hkr; by left).
  assert (lk ∉ ptrs rest) as Hkr' by (intros ?; apply Hkr; by right).
  eapply wp_take_waiters; [done..|]. intros s' Hs'. eapply HQ.
  eexists. rewrite (own_woken _ _ _ _ _ Hs'). split; [exact Hs'|].
  cbn. rewrite lookup_insert_ne, lookup_insert_eq by done. split_and!; try done.
  - by do 2 (apply lays_insert; [done|]).
  - by do 2 (apply lays_insert; [done|]).
  - constructor; [|constructor]. cbn. by rewrite lookup_insert_eq.
  - assert (nodes_ok (woken s) ((p, o) :: (lk, l) :: pre ++ rest)) as Hn' by regroup Hn.
    apply nodes_ok_take in Hn'. regroup Hn'.
Qed.

(** ... or to the lock that was linked before. *)
Lemma parts_take_linked s A lk l B p o rest Q :
  parts s (A ++ (lk, l) :: B) ((p, o) :: rest) [] ->
  (forall s' q, parts s' (A ++ (lk, set_blkhd q l) :: B) ((p, set_blkhd [] o) :: rest) [] -> Q tt s') ->
  wp (take_waiters p lk) Q s.
Proof using.
  intros Hs HQ.
  destruct (parts_head_facts _ _ _ _ _ _ Hs) as (M & Ho & Hl & Hp & Hr & _ & Hn & ? & Hpp & Hpr & _).
  pose proof Hl as Hl'. apply lays_app in Hl' as (_ & Hk & _).
  assert (nodes_ok (woken s) (A ++ (lk, l) :: (B ++ (p, o) :: rest))) as Hd by regroup Hn.
  apply nodes_distinct in Hd as (HkA & HkB & _). rewrite ptrs_elem_app in HkB.
  assert (p <> lk) as Hne by (intros ->; apply HkB; right; by left).
  eapply wp_take_waiters; [done..|]. intros s' Hs'. apply (HQ s' (lf_blkhd l ++ lf_blkhd o)).
  eexists. rewrite (own_woken _ _ _ _ _ Hs'). split; [|cbn; rewrite lookup_insert_ne, lookup_insert_eq by done; split_and!; try done].
  - rewrite !hdp_app in *. exact Hs'.
  - refine (lays_edit _ A lk l (set_blkhd (lf_blkhd l ++ lf_blkhd o) l) B p _ HkA _); [by apply lays_insert|tauto].
  - apply lays_insert; [|by apply lays_insert]. intros ?. apply HkB. right. by right.
  - assert (nodes_ok (woken s) ((p, o) :: (lk, l) :: A ++ B ++ rest)) as Hn' by regroup Hn.
    apply nodes_ok_take in Hn'. regroup Hn'.
Qed.

(** [ext2_lf_split(overlap, lock)] when the starts differ. *)
Lemma parts_split s pre p o rest lk l Q :
  parts s pre ((p, o) :: rest) [(lk, l)] -> lf_start o <> lf_start l ->
  (forall s' mid, infos mid = (if lf_end o =? lf_end l then [] else [strip (tail_of l o)]) ->
     Forall (fun n => lf_blkhd n.2 = []) mid ->
     parts s' pre ((p, front_of l o) :: (lk, l) :: mid ++ rest) [] -> Q tt s') ->
  wp (ext2_lf_split p lk) Q s.
Proof using.
  intros Hs Hst HQ. unfold ext2_lf_split.
  eapply wp_bind_ret; [by eapply parts_head|]. eapply wp_bind_ret; [by eapply parts_request|].
  cbn [lf_start lf_end lf_next set_next]. rewrite (proj2 (Z.eqb_neq _ _)) by done.
  destruct (Z.eqb_spec (lf_end o) (lf_end l)) as [_|Hend].
  { apply wp_bind. eapply parts_update_head; [exact Hs|done..|]. intros s1 Hs1.
    apply wp_bind. eapply parts_insert_after; [exact Hs1|]. intros s2 Hs2. by apply (HQ s2 []). }
  destruct (parts_head_facts _ _ _ _ _ _ Hs) as (M & Ho & Hl & Hp & Hr & HX & Hn & ? & Hpp & Hpr & Hpk).
  destruct (parts_request_facts _ _ _ _ _ Hs) as (_ & _ & _ & _ & _ & _ & _ & Hkp & Hkr).
  apply Forall_cons in HX as [Hk _]. cbn in Hk, Hkr.
  assert (lk <> p) as Hne by (intros ->; apply Hkr; by left).
  assert (lk ∉ ptrs rest) as Hkr' by (intros ?; apply Hkr; by right).
  apply wp_bind. eapply wp_MALLOC; [done|]. intros sp s1 Hs1 Hsp HM.
  assert (sp <> p /\ sp <> lk) as [Hsp1 Hsp2] by (split; congruence).
  assert (sp ∉ ptrs pre /\ sp ∉ ptrs rest) as [Hsp3 Hsp4].
  { split; intros Hin; eapply lays_lookup in Hin as [? ?]; try done; congruence. }
  apply wp_bind. eapply wp_update; [done|by simplify_map_eq|]. intros s2 Hs2.
  apply wp_bind. eapply wp_update; [done|by simplify_map_eq|]. intros s3 Hs3.
  apply wp_bind. eapply wp_update; [done|by simplify_map_eq|]. intros s4 Hs4.
  apply wp_bind. eapply wp_update; [done|by simplify_map_eq|]. intros s5 Hs5.
  apply wp_bind. eapply wp_update; [done|by simplify_map_eq|]. intros s6 Hs6.
  eapply wp_update; [done|by simplify_map_eq|]. intros s7 Hs7.
  apply (HQ s7 [(sp, set_blkhd [] (tail_of l o))]); [done|by repeat constructor|].
  eexists. rewrite (own_woken _ _ _ _ _ Hs7). split; [exact Hs7|]. cbn. split_and!.
  - by repeat (apply lays_insert; [done|]).
  - by simplify_map_eq.
  - by simplify_map_eq.
  - by simplify_map_eq.
  - by repeat (apply lays_insert; [done|]).
  - constructor.
  - assert (nodes_ok (woken s) ((sp, set_blkhd [] (tail_of l o)) :: (p, o) :: pre ++ rest ++ [(lk, l)])) as Hn1.
    { apply nodes_ok_add; [done| |done]. cbn. rewrite !elem_of_cons, !ptrs_elem_app. cbn.
      rewrite elem_of_cons, elem_of_nil. tauto. }
    assert (nodes_ok (woken s) ((p, o) :: (sp, set_blkhd [] (tail_of l o)) :: pre ++ rest ++ [(lk, l)])) as Hn2 by regroup Hn1.
    pose proof (nodes_ok_edit _ _ _ _ (front_of l o) Hn2 eq_refl) as Hn3. regroup Hn3.
Qed.

(** [overlap->lf_next = unlock->lf_next] after a split. *)
Lemma parts_unlink_second s pre p o lk l rest Q :
  parts s pre ((p, o) :: (lk, l) :: rest) [] ->
  (forall s' n, parts s' pre ((p, o) :: rest) [(lk, set_next n l)] -> Q tt s') ->
  wp (update p (set_next (hdp rest 0))) Q s.
Proof using.
  intros Hs HQ.
  destruct (parts_head_facts _ _ _ _ _ _ Hs) as (M & Ho & Hl & Hp & [Hk Hr] & _ & Hn & ? & Hpp & Hpr & _).
  cbn in Hpr. apply not_elem_of_cons in Hpr as [Hne Hpr].
  eapply wp_update; [done..|]. intros s' Hs'. apply (HQ s' (hdp rest 0)).
  eexists. rewrite (own_woken _ _ _ _ _ Hs'). split; [exact Hs'|]. cbn. rewrite lookup_insert_eq. split_and!; try done.
  - by apply lays_insert.
  - by apply lays_insert.
  - constructor; [|constructor]. cbn. by rewrite lookup_insert_ne.
  - assert (nodes_ok (woken s) ((lk, l) :: (p, o) :: pre ++ rest)) as Hn' by regroup Hn.
    pose proof (nodes_ok_edit _ _ _ _ (set_next (hdp rest 0) l) Hn' eq_refl) as Hn2. regroup Hn2.
Qed.
End verbs.

(** ** The loops compute the transformers *)

Section loops.
Context (W : gset Z).
Implicit Types (s : lkstate) (Q : unit -> lkstate -> Prop).

Lemma wp_seq {A B} (m : LK A) (k : A -> LK B) (Q : B -> lkstate -> Prop) s :
  wp (m ≫= k) Q s <-> wp m (fun a => wp (k a) Q) s.
Proof using. unfold wp, mbind, kern_bind. by destruct (m s). Qed.

Lemma wp_seq2 {A B C} (m1 : LK A) (m2 : A -> LK B) (k : A -> B -> LK C) (Q : C -> lkstate -> Prop) s :
  wp (m1 ≫= fun a => m2 a ≫= k a) Q s <-> wp m1 (fun a => wp (m2 a) (fun b => wp (k a b) Q)) s.
Proof using.
  rewrite wp_seq. unfold wp at 1 3. destruct (m1 s); [|done..]. apply wp_seq.
Qed.

Lemma wp_seq3 (m1 m2 m3 k : LK unit) Q s :
  wp ((m1;; m2);; m3;; k) Q s <-> wp m1 (fun _ => wp m2 (fun _ => wp m3 (fun _ => wp k Q))) s.
Proof using.
  unfold wp, mbind, kern_bind. destruct (m1 s) as [? s1| | |]; [|done..].
  destruct (m2 s1) as [? s2| | |]; [|done..]. by destruct (m3 s2).
Qed.

Lemma lays_weaken M M' L q : M ⊆ M' -> lays M L q -> lays M' L q.
Proof using.
  intros HM. induction L as [|[p l] L IH]; cbn; [done|]. intros [H1 H2]. split; [|auto].
  by eapply lookup_weaken.
Qed.

Lemma passed_infos type l L : Forall (passed type l) L.*2 -> Forall (passed type l) (infos L).
Proof using. intros H. apply Forall_fmap. eapply Forall_impl; [exact H|]. done. Qed.

Lemma valid_infos L : Forall valid_range (infos L) <-> valid_nodes L.
Proof using. unfold valid_nodes, infos. rewrite Forall_fmap. done. Qed.

Lemma same_strip l l' : strip l' = strip l -> l' = set_next (lf_next l') (set_blkhd (lf_blkhd l') l).
Proof using. destruct l, l'. cbn. by intros [= -> -> -> -> ->]. Qed.

Lemma ext2_lf_findoverlap_run s pre rest X lk l l' type prev :
  parts W s pre rest X -> (lk, l') ∈ pre ++ X -> strip l' = strip l -> valid_range l -> valid_nodes rest ->
  exists c skip rest', rest = skip ++ rest' /\
    ext2_lf_findoverlap (hdp rest 0) lk type prev s = Ret (c, link_after prev skip, hdp rest' 0) s /\
    Forall (passed type l) (infos skip) /\ stops type l c rest'.
Proof using.
  intros Hs Hlk Hst0 Hl Hv. destruct (parts_load _ _ _ _ _ _ _ Hs Hlk) as (n & Eload).
  rewrite (same_strip l l' Hst0) in Eload.
  destruct Hs as (M & Ho & _ & Hrest & _ & Hn).
  assert (lays (heap s) rest 0) as Hlay by (eapply lays_weaken; [apply Ho|done]).
  assert (NoDup (ptrs rest)) as Hnd.
  { destruct Hn as [Hn _ _]. rewrite !ptrs_app, !NoDup_app in Hn. tauto. }
  destruct (findoverlap_run (list_fuel s) rest (set_next n (set_next (lf_next l') (set_blkhd (lf_blkhd l') l))) type prev s) as (c & skip & rest' & E & Erun & Hp & Hst).
  - exact Hl.
  - done.
  - done.
  - apply Forall_forall. intros p Hp. eapply own_pos; [done|]. by eapply lays_lookup.
  - unfold list_fuel. pose proof (lays_length _ _ _ Hlay Hnd). lia.
  - exists c, skip, rest'. split; [done|]. split; [|split; [by apply passed_infos|exact Hst]].
    unfold ext2_lf_findoverlap. rewrite (bind_ret _ _ _ _ _ Eload). exact Erun.
Qed.

(** The scan from a link that leads past [pre]; the nodes it passes join [pre]. *)
Lemma scan_run s pre rest X lk l l' :
  parts W s pre rest X -> (lk, l') ∈ pre ++ X -> strip l' = strip l -> valid_range l -> valid_nodes rest ->
  exists c skip rest', rest = skip ++ rest' /\ parts W s (pre ++ skip) rest' X /\
    ext2_lf_findoverlap (hdp rest 0) lk SELF (link_after Head pre) s =
      Ret (c, link_after Head (pre ++ skip), hdp rest' 0) s /\
    stops SELF l c rest' /\ valid_nodes rest' /\ (length rest' <= length rest)%nat /\
    infos pre ++ clear l (infos rest) = infos (pre ++ skip) ++ clear l (infos rest') /\
    infos pre ++ grant l (infos rest) = infos (pre ++ skip) ++ grant l (infos rest').
Proof using.
  intros Hs Hlk Hst0 Hl Hv.
  destruct (ext2_lf_findoverlap_run _ _ _ _ _ _ _ SELF (link_after Head pre) Hs Hlk Hst0 Hl Hv)
    as (c & skip & rest' & -> & Erun & Hp & Hst).
  exists c, skip, rest'. split; [done|]. split; [by apply parts_advance|]. split; [by rewrite <- link_after_app|].
  split; [done|]. unfold valid_nodes in *. rewrite fmap_app, Forall_app in Hv. split; [apply Hv|].
  rewrite length_app. split; [lia|].
  rewrite !infos_app, clear_passed, grant_passed, <- !app_assoc by done. done.
Qed.

(** What a stop of the scan means for the transformers. *)
Lemma stops_0 l rest : stops SELF l 0 rest -> clear l (infos rest) = infos rest.
Proof using.
  intros [[_ [->|(p & o & r & -> & _ & Hid & Hc & Hb)]]|[? _]]; [done| |done].
  cbn [infos fmap list_fmap snd clear]. change (lf_id (strip o)) with (lf_id o).
  change (lock_case l (strip o)) with (lock_case l o). change (beyond l (strip o)) with (beyond l o).
  rewrite Hid, Z.eqb_refl, Hc, Hb. done.
Qed.

Lemma stops_grant_0 l rest : stops SELF l 0 rest -> grant l (infos rest) = l :: infos rest.
Proof using.
  intros [[_ [->|(p & o & r & -> & _ & Hid & Hc & Hb)]]|[? _]]; [done| |done].
  cbn [infos fmap list_fmap snd grant]. change (lf_id (strip o)) with (lf_id o).
  change (lock_case l (strip o)) with (lock_case l o). change (beyond l (strip o)) with (beyond l o).
  rewrite Hid, Z.eqb_refl, Hc, Hb. done.
Qed.

Lemma clear_at l p o r c :
  lf_id o = lf_id l -> lock_case l o = Some c -> c <> 0 ->
  clear l (infos ((p, o) :: r)) =
    match c with
    | 1 => infos r
    | 2 => pieces l (strip o) ++ infos r
    | 3 => clear l (infos r)
    | 4 => front_of l (strip o) :: clear l (infos r)
    | _ => tail_of l (strip o) :: infos r
    end.
Proof using.
  intros Hid Hc H0. cbn [infos fmap list_fmap snd clear]. change (lf_id (strip o)) with (lf_id o).
  change (lock_case l (strip o)) with (lock_case l o). rewrite Hid, Z.eqb_refl, Hc. by destruct c.
Qed.

Lemma grant_at l p o r c :
  lf_id o = lf_id l -> lock_case l o = Some c -> c <> 0 ->
  grant l (infos ((p, o) :: r)) =
    match c with
    | 1 => set_type (lf_type l) (strip o) :: infos r
    | 2 => if lf_type o =? lf_type l then infos ((p, o) :: r) else inserted l (strip o) ++ infos r
    | 3 => l :: clear l (infos r)
    | 4 => front_of l (strip o) :: l :: clear l (infos r)
    | _ => l :: tail_of l (strip o) :: infos r
    end.
Proof using.
  intros Hid Hc H0. cbn [infos fmap list_fmap snd grant]. change (lf_id (strip o)) with (lf_id o).
  change (lock_case l (strip o)) with (lock_case l o). rewrite Hid, Z.eqb_refl, Hc. by destruct c.
Qed.

Lemma stops_overlap type l c rest :
  stops type l c rest -> c <> 0 ->
  exists p o r, rest = (p, o) :: r /\ skipped type (lf_id o) (lf_id l) = false /\ lock_case l o = Some c.
Proof using. intros [[? _]|[_ H]]; done. Qed.

Lemma self_id id1 id2 : skipped SELF id1 id2 = false -> id1 = id2.
Proof using. cbn. rewrite negb_false_iff, Z.eqb_eq. done. Qed.

(** The numbers of the cases. *)
Lemma case_number l o c :
  valid_range l -> valid_range o -> lock_case l o = Some c -> c <> 0 ->
  c = 1 \/ c = 2 \/ c = 3 \/ c = 4 \/ c = 5.
Proof using.
  intros Hl Ho Hc H0. pose proof (lock_caseP l o Hl Ho) as H. rewrite Hc in H. inversion H; lia.
Qed.

Lemma parts_all s pre rest X : parts W s pre rest X -> parts W s (pre ++ rest) [] X.
Proof using. rewrite <- (app_nil_r rest) at 1. apply parts_advance. Qed.

Lemma set_next_id l : set_next (lf_next l) l = l.
Proof using. by destruct l. Qed.

(** A node of [L] has no waiters, or it is one of [N]. *)
Definition kept (N L : list node) : Prop := Forall (fun n => lf_blkhd n.2 = [] \/ n ∈ N) L.

Lemma kept_sub N L : L ⊆ N -> kept N L.
Proof using. intros H. apply Forall_forall. intros n Hn. right. by apply H. Qed.

Lemma kept_trans N N' L : kept N N' -> kept N' L -> kept N L.
Proof using.
  unfold kept. rewrite !Forall_forall. intros H1 H2 n Hn. destruct (H2 n Hn) as [?|Hn']; [by left|by apply H1].
Qed.

Lemma kept_app N A B : kept N A -> kept N B -> kept N (A ++ B).
Proof using. intros. by apply Forall_app. Qed.

Lemma clear_loop_refines fuel s pre rest lk l Q :
  valid_range l -> valid_nodes rest -> (length rest < fuel)%nat -> parts W s pre rest [(lk, l)] ->
  (forall s' L' n, parts W s' L' [] [(lk, set_next n l)] -> infos L' = infos pre ++ clear l (infos rest) ->
     kept (pre ++ rest) L' -> Q tt s') ->
  wp (clear_loop fuel (hdp rest 0) lk (link_after Head pre)) Q s.
Proof using.
  intros Hl. revert s pre rest. induction fuel as [|fuel IH]; intros s pre rest Hv Hf Hs HQ; [lia|].
  destruct (scan_run _ _ _ _ lk l l Hs) as (c & skip & rest' & Erest & Hs' & Erun & Hst & Hv' & Hlen & E & _); [|done..|].
  { apply elem_of_app. right. by left. }
  rewrite Erest, app_assoc in HQ. rewrite Erest in E. cbn [clear_loop]. eapply wp_bind_ret; [exact Erun|]. cbn beta match.
  rewrite E in HQ. assert (length rest' < S fuel)%nat as Hf' by lia.
  assert (forall s' L', parts W s' L' [] [(lk, l)] ->
    infos L' = infos (pre ++ skip) ++ clear l (infos rest') -> kept ((pre ++ skip) ++ rest') L' -> Q tt s') as HQ'.
  { intros s' L' H EL K. apply (HQ s' L' (lf_next l)); [by rewrite set_next_id|done|done]. }
  clear E Erest Erun Hs Hv Hf Hlen rest. revert Hs' HQ HQ'. generalize (pre ++ skip). clear pre skip. intros pre Hs HQ HQ'.
  destruct (Z.eqb_spec c 0) as [->|Hc].
  { apply (HQ' s (pre ++ rest')); [by apply parts_all| |by apply kept_sub]. by rewrite infos_app, stops_0. }
  destruct (stops_overlap _ _ _ _ Hst Hc) as (p & o & r & -> & Hid%self_id & Eo).
  apply Forall_cons in Hv' as [Ho Hv]. cbn in Ho, Hf'.
  rewrite (clear_at _ _ _ _ _ Hid Eo Hc) in HQ, HQ'.
  cbn [hdp]. apply wp_seq. eapply parts_wake_head; [exact Hs|]. clear s Hs Hst. intros s Hs.
  eapply wp_bind_ret; [by eapply parts_head|]. eapply wp_bind_ret; [by eapply parts_request|].
  cbn [lf_start lf_end lf_next set_next set_blkhd].
  assert (length r < fuel)%nat as Hf by lia.
  pose proof (lock_caseP l o Hl Ho) as Hcase. rewrite Eo in Hcase.
  assert (forall x, lf_blkhd x = [] -> kept (pre ++ (p, o) :: r) (pre ++ (p, x) :: r)) as Hkept.
  { intros x Hx. apply kept_app; [apply kept_sub; set_solver|]. constructor; [by left|]. apply kept_sub. set_solver. }
  destruct (case_number l o c Hl Ho Eo Hc) as [-> | [-> | [-> | [-> | ->]]]].
  - apply wp_seq. eapply parts_unlink; [exact Hs|done|]. intros s1 Hs1.
    apply (HQ' s1 (pre ++ r)); [by apply parts_all|by rewrite infos_app|]. apply kept_sub. set_solver.
  - unfold pieces in HQ, HQ'. cbn [lf_start lf_end strip set_next set_blkhd] in HQ, HQ'.
    destruct (Z.eqb_spec (lf_start o) (lf_start l)) as [_|Hne].
    + eapply parts_update_head; [exact Hs|done..|]. intros s1 Hs1.
      apply (HQ' s1 (pre ++ (p, set_start (i64 (lf_end l + 1)) (set_blkhd [] o)) :: r)); [by apply parts_all|by rewrite infos_app|]. by apply Hkept.
    + apply wp_seq. eapply parts_split; [exact Hs|done|]. intros s1 mid Emid Emid' Hs1.
      apply wp_seq. assert (exists n, load lk s1 = Ret (set_next n l) s1 /\ n = hdp (mid ++ r) 0) as (n & Eload & ->).
      { apply (parts_advance _ _ _ [(p, _)]) in Hs1. eexists. split; [by eapply parts_head|done]. }
      unfold wp at 1. rewrite Eload. cbn [lf_next set_next].
      eapply parts_unlink_second; [exact Hs1|]. intros s2 n Hs2.
      eapply (HQ s2 _ n); [by apply parts_all| |].
      2: { apply kept_app; [apply kept_sub; set_solver|]. constructor; [by left|].
        apply kept_app; [eapply Forall_impl; [exact Emid'|by left]|apply kept_sub; set_solver]. }
      rewrite infos_app. f_equal.
      cbn [infos fmap list_fmap snd]. change (infos (mid ++ r)) with (strip <$> (mid ++ r).*2).
      fold (infos (mid ++ r)). rewrite infos_app, Emid. cbn [lf_end strip set_blkhd].
      by destruct (lf_end o =? lf_end l).
  - apply wp_seq2. eapply parts_unlink; [exact Hs|done|]. intros s1 Hs1. apply (IH s1 pre r); [done..|].
    intros s2 L' n Hs2 EL K. apply (HQ s2 L' n); [done..|]. eapply kept_trans; [|exact K]. apply kept_sub. set_solver.
  - apply wp_seq. eapply parts_update_head; [exact Hs|done..|]. intros s1 Hs1.
    apply (parts_advance _ _ _ [_]) in Hs1.
    rewrite <- (link_after_snoc Head pre p (set_end (i64 (lf_start l - 1)) (set_blkhd [] o))).
    apply (IH s1 _ r); [done..|]. intros s2 L' n Hs2 EL K. apply (HQ s2 L' n); [done| |].
    { rewrite EL, infos_app, <- app_assoc. done. }
    eapply kept_trans; [|exact K]. rewrite <- app_assoc. by apply Hkept.
  - eapply parts_update_head; [exact Hs|done..|]. intros s1 Hs1.
    apply (HQ' s1 (pre ++ (p, set_start (i64 (lf_end l + 1)) (set_blkhd [] o)) :: r)); [by apply parts_all|by rewrite infos_app|]. by apply Hkept.
Qed.

Lemma link_after_ptrs k A B : ptrs A = ptrs B -> link_after k A = link_after k B.
Proof using.
  intros E. assert (fst <$> last A = fst <$> last B) as E'.
  { unfold ptrs in E. by rewrite <- !fmap_last, E. }
  unfold link_after. destruct (last A) as [[??]|], (last B) as [[??]|]; cbn in *; congruence.
Qed.

Lemma set_blkhd_id l : set_blkhd (lf_blkhd l) l = l.
Proof using. by destruct l. Qed.

(** The loop of [ext2_lf_setlock] once the lock is linked: it removes what the lock
    covers. *)
Lemma grant_linked_refines fuel s A n q B rest lk l Q :
  valid_range l -> valid_nodes rest -> Forall (fun o => lf_id o = lf_id l -> lf_start l < lf_start o) rest.*2 ->
  (length rest < fuel)%nat -> parts W s (A ++ (lk, set_next n (set_blkhd q l)) :: B) rest [] ->
  (forall s' L', parts W s' L' [] [] ->
     infos L' = infos (A ++ (lk, l) :: B) ++ clear l (infos rest) -> Q tt s') ->
  wp (grant_loop fuel (hdp rest 0) lk (link_after Head (A ++ (lk, set_next n (set_blkhd q l)) :: B)) false) Q s.
Proof using.
  intros Hl. revert s q B rest. induction fuel as [|fuel IH]; intros s q B rest Hv Hstart Hf Hs HQ; [lia|].
  destruct (scan_run _ _ _ _ lk l (set_next n (set_blkhd q l)) Hs) as (c & skip & rest' & -> & Hs' & Erun & Hst & Hv' & Hlen & E & _); [|done..|].
  { rewrite app_nil_r. apply elem_of_app. right. by left. }
  cbn [grant_loop]. eapply wp_bind_ret; [exact Erun|]. cbn beta match.
  assert (infos (A ++ (lk, l) :: B) = infos (A ++ (lk, set_next n (set_blkhd q l)) :: B)) as E0 by by rewrite !infos_app.
  rewrite E0, E in HQ. rewrite fmap_app, Forall_app in Hstart. destruct Hstart as [_ Hstart].
  assert (length rest' < S fuel)%nat as Hf' by lia.
  clear E E0 Erun Hs Hv Hf Hlen. revert Hs' HQ. rewrite <- app_assoc, <- app_comm_cons.
  generalize (B ++ skip). clear B skip. intros B Hs HQ.
  destruct (Z.eqb_spec c 0) as [->|Hc].
  { apply wp_ret, (HQ s ((A ++ (lk, set_next n (set_blkhd q l)) :: B) ++ rest')); [by apply parts_all|].
    by rewrite infos_app, stops_0. }
  destruct (stops_overlap _ _ _ _ Hst Hc) as (p & o & r & -> & Hid%self_id & Eo).
  apply Forall_cons in Hv' as [Ho Hv]. apply Forall_cons in Hstart as [Hso Hstart]. cbn in Ho, Hf', Hso.
  specialize (Hso Hid). rewrite (clear_at _ _ _ _ _ Hid Eo Hc) in HQ.
  destruct (parts_linked _ _ _ _ _ _ _ _ Hs) as (m & Eload).
  cbn [hdp]. eapply wp_bind_ret; [by eapply parts_head|]. eapply wp_bind_ret; [exact Eload|].
  cbn [lf_start lf_end lf_next lf_type set_next set_blkhd].
  pose proof (lock_caseP l o Hl Ho) as Hcase. rewrite Eo in Hcase.
  assert (c = 3 \/ c = 5) as [-> | ->] by (inversion Hcase; lia).
  - assert (forall s1 q1, parts W s1 (A ++ (lk, set_next n (set_blkhd q1 l)) :: B) ((p, set_blkhd [] o) :: r) [] ->
      wp (write_link (link_after Head (A ++ (lk, set_next n (set_blkhd q l)) :: B)) (hdp r 0);; FREE p;;
          grant_loop fuel (hdp r 0) lk (link_after Head (A ++ (lk, set_next n (set_blkhd q l)) :: B)) false) Q s1) as Hrest.
    { intros s1 q1 Hs1. rewrite (link_after_ptrs Head _ (A ++ (lk, set_next n (set_blkhd q1 l)) :: B)) by by rewrite !ptrs_app.
      apply wp_seq2. eapply parts_unlink; [exact Hs1|done|]. intros s2 Hs2.
      apply (IH s2 q1 B r); [done|done|lia|done|]. intros s3 L' Hs3 E. apply (HQ s3 L' Hs3).
      rewrite E. by rewrite !infos_app. }
    apply wp_seq. destruct ((lf_type l =? F_RDLCK) && (lf_type o =? F_WRLCK)).
    + eapply parts_wake_head; [exact Hs|]. intros s1 Hs1. by apply (Hrest s1 q).
    + eapply parts_take_linked; [exact Hs|]. intros s1 q1 Hs1. by apply (Hrest s1 q1).
  - apply wp_seq, wp_ret. apply wp_seq. eapply parts_update_head; [exact Hs|done..|]. intros s1 Hs1.
    eapply parts_wake_head; [exact Hs1|]. intros s2 Hs2.
    eapply HQ; [by apply parts_all|]. by rewrite !infos_app.
Qed.

(** The cases of the loop for a request that is not linked, [overlap] being [p]. *)
Section cases.
Context (fuel : nat) (s : lkstate) (pre : list node) (p : Z) (o : ext2lockf) (r : list node) (lk : Z) (l : ext2lockf) (n : Z).
Context (Hl : valid_range l) (Hb : lf_blkhd l = []) (Hstrip : strip l = l).
Context (Hs : parts W s pre ((p, o) :: r) [(lk, set_next n l)]).
Context (Q : unit -> lkstate -> Prop).

Definition ends_in (I : list ext2lockf) : Prop :=
  forall s' L', parts W s' L' [] [] -> infos L' = infos pre ++ I -> Q tt s'.

Lemma info_one x : strip x = strip l -> infos [(lk, x)] = [l].
Proof using Hstrip. intros E. cbn. by rewrite E, Hstrip. Qed.

Lemma grant_case1 :
  ends_in (set_type (lf_type l) (strip o) :: infos r) ->
  wp ((if (lf_type l =? F_RDLCK) && (lf_type o =? F_WRLCK) then ext2_lf_wakelock p else mret tt);;
      update p (set_type (lf_type l));; FREE lk) Q s.
Proof using Hs Hb.
  intros HQ.
  assert (forall s1 o1, parts W s1 pre ((p, o1) :: r) [(lk, set_next n l)] -> strip o1 = strip o ->
    wp (update p (set_type (lf_type l));; FREE lk) Q s1) as Hretype.
  { intros s1 o1 Hs1 Ho1. apply wp_seq. eapply parts_update_head; [exact Hs1|done..|]. intros s2 Hs2.
    eapply parts_free_request; [exact Hs2|done|]. intros s3 Hs3.
    eapply HQ; [by apply parts_all|]. rewrite infos_app. f_equal. rewrite <- Ho1. done. }
  apply wp_seq. destruct ((lf_type l =? F_RDLCK) && (lf_type o =? F_WRLCK)).
  - eapply parts_wake_head; [exact Hs|]. intros s1 Hs1. by eapply Hretype.
  - apply wp_ret. by eapply Hretype.
Qed.

Lemma grant_case2 :
  ends_in (if lf_type o =? lf_type l then strip o :: infos r else inserted l (strip o) ++ infos r) ->
  wp (if lf_type o =? lf_type l then FREE lk
      else (if lf_start o =? lf_start l then
              write_link (link_after Head pre) lk;; update lk (set_next p);;
              update p (set_start (i64 (lf_end l + 1)))
            else ext2_lf_split p lk);; ext2_lf_wakelock p) Q s.
Proof using Hs Hb Hstrip.
  intros HQ. destruct (Z.eqb_spec (lf_type o) (lf_type l)).
  { eapply parts_free_request; [exact Hs|done|]. intros s1 Hs1.
    eapply HQ; [by apply parts_all|]. by rewrite infos_app. }
  unfold inserted in HQ. cbn [lf_start lf_end strip set_next set_blkhd] in HQ. apply wp_seq.
  destruct (Z.eqb_spec (lf_start o) (lf_start l)) as [_|Hne].
  - apply wp_seq2. eapply (parts_link _ _ _ ((p, o) :: r)); [exact Hs|]. intros s1 Hs1.
    eapply parts_update_head; [exact Hs1|done..|]. intros s2 Hs2.
    eapply parts_wake_head; [exact Hs2|]. intros s3 Hs3.
    eapply HQ; [by apply parts_all|]. rewrite !infos_app, info_one, <- app_assoc by done. done.
  - eapply parts_split; [exact Hs|done|]. intros s1 mid Emid _ Hs1.
    eapply parts_wake_head; [exact Hs1|]. intros s2 Hs2.
    eapply HQ; [by apply parts_all|]. rewrite infos_app. f_equal.
    change (infos ((p, set_blkhd [] (front_of (set_next n l) o)) :: (lk, set_next n l) :: mid ++ r))
      with (front_of l (strip o) :: infos [(lk, set_next n l)] ++ infos (mid ++ r)).
    rewrite info_one, infos_app, Emid by done. change (lf_end (set_next n l)) with (lf_end l).
    by destruct (lf_end o =? lf_end l).
Qed.

Context (Hv : valid_nodes r) (Hf : (length r < fuel)%nat).
Context (Hlater : Forall (fun o => lf_id o = lf_id l -> lf_start l < lf_start o) r.*2).

Lemma grant_case3 :
  ends_in (l :: clear l (infos r)) ->
  wp ((if (lf_type l =? F_RDLCK) && (lf_type o =? F_WRLCK) then ext2_lf_wakelock p else take_waiters p lk);;
      (write_link (link_after Head pre) lk;; update lk (set_next (hdp r 0)));;
      FREE p;; grant_loop fuel (hdp r 0) lk (Next lk) false) Q s.
Proof using All.
  intros HQ.
  assert (forall s1 q, parts W s1 pre ((p, set_blkhd [] o) :: r) [(lk, set_next n (set_blkhd q l))] ->
    wp ((write_link (link_after Head pre) lk;; update lk (set_next (hdp r 0)));;
        FREE p;; grant_loop fuel (hdp r 0) lk (Next lk) false) Q s1) as Hrest.
  { intros s1 q Hs1. apply wp_seq3.
    eapply parts_replace; [exact Hs1|done|]. intros s2 Hs2.
    rewrite <- (link_after_snoc Head pre lk (set_next n (set_blkhd q l))).
    apply grant_linked_refines; [done..|]. intros s3 L' Hs3 E. eapply HQ; [done|].
    rewrite E, infos_app, info_one, <- app_assoc by done. done. }
  apply wp_seq. destruct ((lf_type l =? F_RDLCK) && (lf_type o =? F_WRLCK)).
  - eapply parts_wake_head; [exact Hs|]. intros s1 Hs1. apply (Hrest s1 (lf_blkhd l)).
    by rewrite set_blkhd_id.
  - eapply parts_take_request; [exact Hs|]. intros s1 q Hs1. by apply (Hrest s1 q).
Qed.

Lemma grant_case4 :
  ends_in (front_of l (strip o) :: l :: clear l (infos r)) ->
  wp (update lk (set_next (hdp r 0));; update p (set_next lk);;
      update p (set_end (i64 (lf_start l - 1)));; ext2_lf_wakelock p;;
      grant_loop fuel (hdp r 0) lk (Next lk) false) Q s.
Proof using All.
  intros HQ. apply wp_seq2. eapply parts_insert_after; [exact Hs|]. intros s1 Hs1.
  apply wp_seq2. eapply parts_update_head; [exact Hs1|done..|]. intros s2 Hs2.
  eapply parts_wake_head; [exact Hs2|]. intros s3 Hs3.
  set (o' := set_blkhd [] (front_of l o)) in Hs3.
  assert (parts W s3 ((pre ++ [(p, o')]) ++ [(lk, set_next n (set_blkhd (lf_blkhd l) l))]) r []) as Hs3'.
  { rewrite set_blkhd_id, <- app_assoc. by apply parts_advance. }
  rewrite <- (link_after_snoc Head (pre ++ [(p, o')]) lk (set_next n (set_blkhd (lf_blkhd l) l))).
  apply grant_linked_refines; [done..|]. intros s4 L' Hs4 E. eapply HQ; [done|].
  rewrite E, !infos_app, info_one, <- !app_assoc by done. done.
Qed.

Lemma grant_case5 :
  ends_in (l :: tail_of l (strip o) :: infos r) ->
  wp ((write_link (link_after Head pre) lk;; update lk (set_next p));;
      update p (set_start (i64 (lf_end l + 1)));; ext2_lf_wakelock p) Q s.
Proof using Hs Hb Hstrip.
  intros HQ. apply wp_seq, wp_seq. eapply (parts_link _ _ _ ((p, o) :: r)); [exact Hs|]. intros s1 Hs1.
  apply wp_seq. eapply parts_update_head; [exact Hs1|done..|]. intros s2 Hs2.
  eapply parts_wake_head; [exact Hs2|]. intros s3 Hs3.
  eapply HQ; [by apply parts_all|]. rewrite !infos_app, info_one, <- app_assoc by done. done.
Qed.
End cases.

(** The whole loop, for a request without waiters. *)
Lemma grant_loop_refines fuel s pre rest lk l n Q :
  valid_range l -> strip l = l -> valid_nodes rest -> owner_sorted (infos rest) ->
  (length rest < fuel)%nat -> parts W s pre rest [(lk, set_next n l)] ->
  (forall s' L', parts W s' L' [] [] -> infos L' = infos pre ++ grant l (infos rest) -> Q tt s') ->
  wp (grant_loop fuel (hdp rest 0) lk (link_after Head pre) true) Q s.
Proof using.
  intros Hl Hstrip Hv Hsort Hf Hs HQ. destruct fuel as [|fuel]; [lia|].
  assert (lf_blkhd l = []) as Hb by by rewrite <- Hstrip.
  destruct (scan_run _ _ _ _ lk l (set_next n l) Hs) as (c & skip & rest' & -> & Hs' & Erun & Hst & Hv' & Hlen & _ & E); [|done..|].
  { apply elem_of_app. right. by left. }
  cbn [grant_loop]. eapply wp_bind_ret; [exact Erun|]. cbn beta match. rewrite E in HQ.
  assert (length rest' < S fuel)%nat as Hf' by lia.
  assert (owner_sorted (infos rest')) as Hsort'.
  { rewrite infos_app in Hsort. by apply StronglySorted_app_1_r in Hsort. }
  clear E Erun Hs Hv Hsort Hf Hlen. revert Hs' HQ. generalize (pre ++ skip). clear pre skip. intros pre Hs HQ.
  destruct (Z.eqb_spec c 0) as [->|Hc].
  { apply wp_seq. eapply parts_link; [exact Hs|]. intros s1 Hs1.
    eapply HQ; [by apply parts_all|]. rewrite !infos_app, (info_one lk l), stops_grant_0 by done. by rewrite <- app_assoc. }
  destruct (stops_overlap _ _ _ _ Hst Hc) as (p & o & r & -> & Hid%self_id & Eo).
  apply Forall_cons in Hv' as [Ho Hv]. cbn in Ho, Hf'.
  assert (Forall (before (strip o)) (infos r)) as Hbefore by by inversion Hsort'.
  rewrite (grant_at _ _ _ _ _ Hid Eo Hc) in HQ.
  cbn [hdp]. eapply wp_bind_ret; [by eapply parts_head|]. eapply wp_bind_ret; [by eapply parts_request|].
  cbn [lf_start lf_end lf_next lf_type set_next set_blkhd].
  pose proof (lock_caseP l o Hl Ho) as Hcase. rewrite Eo in Hcase.
  assert (lf_start l <= hi (lf_end o) -> Forall (fun o => lf_id o = lf_id l -> lf_start l < lf_start o) r.*2) as Hlater.
  { intros Hle. unfold infos in Hbefore. rewrite Forall_fmap in Hbefore. eapply Forall_impl; [exact Hbefore|].
    cbn. unfold before. cbn. intros x Hx ?. specialize (Hx ltac:(congruence)). lia. }
  assert (length r < fuel)%nat as Hf by lia.
  pose proof (hi_bound _ Ho).
  destruct (case_number l o c Hl Ho Eo Hc) as [-> | [-> | [-> | [-> | ->]]]].
  - by eapply grant_case1.
  - by eapply grant_case2.
  - eapply grant_case3; try done. apply Hlater. inversion Hcase; lia.
  - eapply grant_case4; try done. apply Hlater. by inversion Hcase.
  - by eapply grant_case5.
Qed.
End loops.

(** ** The operations *)

Section operations.
Context (W : gset Z).

(** The state keeps the list [L] of granted locks; every request of [W] sleeps in the
    queue of one of them or has been woken. *)
Definition represents (s : lkstate) (L : list node) : Prop := parts W s L [] [].

(** The same, and the request [l] at address [lk] that is not linked. *)
Definition requested (s : lkstate) (L : list node) (lk : Z) (l : ext2lockf) : Prop :=
  parts W s L [] [(lk, l)].

Definition locks_ok (L : list node) : Prop :=
  valid_locks (infos L) /\ owner_sorted (infos L) /\ exclusive (infos L).

Definition request_ok (l : ext2lockf) : Prop :=
  valid_range l /\ lock_type_ok (lf_type l) /\ lf_blkhd l = [].

(** The byte map of the list. *)
Definition held (L : list node) (id b : Z) : option Z := cover (infos L) id b.

Lemma valid_locks_nodes L : valid_locks (infos L) -> valid_nodes L.
Proof using.
  intros H. apply valid_infos. eapply Forall_impl; [exact H|]. by intros ? [? _].
Qed.

Lemma parts_fuel s pre rest X : parts W s pre rest X -> (length rest < list_fuel s)%nat.
Proof using.
  intros (M & Ho & _ & Hrest & _ & Hn). unfold list_fuel.
  assert (NoDup (ptrs rest)) as Hnd.
  { destruct Hn as [Hn _ _]. rewrite !ptrs_app, !NoDup_app in Hn. tauto. }
  pose proof (lays_length (heap s) rest 0) as H. specialize (H ltac:(eapply lays_weaken; [apply Ho|done]) Hnd). lia.
Qed.

Lemma parts_head_ptr s rest X : parts W s [] rest X -> i_lockf s = hdp rest 0.
Proof using. intros (M & Ho & _). apply Ho. Qed.

Lemma getblock_loop_run fuel s pre rest lk l :
  valid_range l -> valid_nodes rest -> (length rest < fuel)%nat -> parts W s pre rest [(lk, l)] ->
  exists b, getblock_loop fuel (hdp rest 0) lk s = Ret b s /\
    (b = 0 /\ Forall (fun o => conflicts l o = false) rest.*2 \/
     exists A o B, rest = A ++ (b, o) :: B /\ conflicts l o = true /\ Forall (fun o => conflicts l o = false) A.*2).
Proof using.
  intros Hl. revert pre rest. induction fuel as [|fuel IH]; intros pre rest Hv Hf Hs; [lia|].
  destruct (ext2_lf_findoverlap_run _ _ _ _ _ lk l l OTHERS Head Hs) as (c & skip & rest' & -> & Erun & Hp & Hst);
    [apply elem_of_app; right; by left|done..|].
  cbn [getblock_loop]. rewrite (bind_ret _ _ _ _ _ Erun). cbn beta match.
  assert (Forall (fun o => conflicts l o = false) skip.*2) as Hskip.
  { unfold infos in Hp. rewrite Forall_fmap in Hp. eapply Forall_impl; [exact Hp|]. cbn. unfold conflicts.
    intros o [E|[E _]]; cbn in E.
    - by rewrite E.
    - change (lock_case l (strip o)) with (lock_case l o) in E. rewrite bool_decide_true by done. by rewrite andb_false_r. }
  destruct (Z.eqb_spec c 0) as [->|Hc].
  { exists 0. split; [done|]. left. split; [done|]. rewrite fmap_app, Forall_app. split; [done|].
    destruct Hst as [[_ [->|(p & o & r & _ & ? & _)]]|[? _]]; done. }
  destruct (stops_overlap _ _ _ _ Hst Hc) as (p & o & r & -> & Hid & Eo).
  cbn in Hid. apply Z.eqb_neq in Hid.
  apply parts_advance in Hs.
  rewrite (bind_ret _ _ _ _ _ (parts_request _ _ _ _ _ _ Hs)).
  rewrite (bind_ret _ _ _ _ _ (parts_head _ _ _ _ _ _ _ Hs)). cbn [lf_type lf_next set_next].
  assert (conflicts l o = (lf_type l =? F_WRLCK) || (lf_type o =? F_WRLCK)) as Ec.
  { unfold conflicts. rewrite (proj2 (Z.eqb_neq _ _) Hid), bool_decide_false by (rewrite Eo; congruence). done. }
  rewrite <- Ec. destruct (conflicts l o) eqn:Econf.
  - exists p. split; [done|]. right. by exists skip, o, r.
  - unfold valid_nodes in Hv. rewrite fmap_app, Forall_app in Hv. destruct Hv as [_ Hv]. apply Forall_cons in Hv as [Ho Hv].
    rewrite length_app in Hf. cbn in Hf.
    destruct (IH ((pre ++ skip) ++ [(p, o)]) r) as (b & -> & Hb); [done|lia|by apply (parts_advance _ _ _ [(p, o)])|].
    exists b. split; [done|]. destruct Hb as [[-> Hb]|(A & o' & B & -> & ? & HA)].
    + left. split; [done|]. rewrite fmap_app, Forall_app. split; [done|]. by constructor.
    + right. exists (skip ++ (p, o) :: A), o', B. split; [by rewrite <- app_assoc|]. split; [done|].
      rewrite fmap_app, Forall_app. split; [done|]. by constructor.
Qed.

(** [ext2_lf_getblock] finds the first lock that conflicts with the request, or none if
    the byte map does not block it. *)
Lemma ext2_lf_getblock_run s L lk l :
  requested s L lk l -> valid_range l -> locks_ok L ->
  exists b, ext2_lf_getblock lk s = Ret b s /\
    (b = NOLOCKF /\ ~ blocked (held L) l \/
     exists A o B, b <> NOLOCKF /\ L = A ++ (b, o) :: B /\ conflicts l o = true /\ blocked (held L) l).
Proof using.
  intros Hs Hl (Hv & Hsort & _). apply parts_nil_r in Hs.
  destruct (getblock_loop_run (list_fuel s) s [] L lk l) as (b & Erun & Hb); [done|by apply valid_locks_nodes|by eapply parts_fuel|done|].
  exists b. split.
  { unfold ext2_lf_getblock. rewrite (bind_ret (gets id) _ s s s) by done. rewrite (parts_head_ptr _ _ _ Hs). exact Erun. }
  assert (forall o, o ∈ L.*2 -> strip o ∈ infos L) as Hin by (intros o ?; by apply list_elem_of_fmap_2).
  destruct Hb as [[-> Hb]|(A & o & B & -> & Hc & _)]; [left|right].
  - split; [done|]. intros Hbl. apply conflicts_blocked in Hbl as (o & Ho & Hc); [|done..].
    unfold infos in Ho. apply list_elem_of_fmap in Ho as (o' & -> & Ho').
    rewrite Forall_forall in Hb. specialize (Hb _ Ho'). change (conflicts l (strip o')) with (conflicts l o') in Hc. congruence.
  - exists A, o, B. split; [|split; [done|split; [done|]]].
    + destruct Hs as (M & Ho & _ & Hlay & _). apply lays_app in Hlay as (_ & Hp & _).
      assert (0 < b) by (eapply own_pos; [done|]; eexists; by eapply own_lookup). unfold NOLOCKF. lia.
    + apply conflicts_blocked; [done..|]. exists (strip o). split; [|done].
      apply Hin. rewrite fmap_app, elem_of_app. right. by left.
Qed.

Lemma request_strip l : lf_blkhd l = [] -> l = set_next (lf_next l) (strip l).
Proof using. intros E. destruct l. cbn in *. by subst. Qed.

Lemma grant_ok s L lk l :
  requested s L lk l -> request_ok l -> locks_ok L -> ~ blocked (held L) l ->
  wp (grant_loop (list_fuel s) (i_lockf s) lk Head true) (fun _ s' => exists L',
    represents s' L' /\ locks_ok L' /\ forall id b,
      held L' id b = if decide (id = lf_id l /\ in_range l b) then Some (lf_type l) else held L id b) s.
Proof using.
  intros Hs (Hr & Ht & Hb) (Hv & Hsort & Hx) Hnb. apply parts_nil_r in Hs.
  rewrite (parts_head_ptr _ _ _ Hs). pose proof (parts_fuel _ _ _ _ Hs) as Hf.
  rewrite (request_strip l Hb) in Hs.
  eapply (grant_loop_refines W _ s [] L lk (strip l)); try done; [by apply valid_locks_nodes|].
  intros s' L' Hs' E. change (infos L' = grant (strip l) (infos L)) in E.
  exists L'. unfold locks_ok, held. rewrite E.
  split; [done|]. split; [|intros id b; by rewrite grant_cover].
  split; [by apply grant_valid|]. split; [by apply grant_sorted|]. by apply grant_exclusive.
Qed.

Lemma clear_ok s L lk l :
  requested s L lk l -> valid_range l -> locks_ok L ->
  wp (ext2_lf_clearlock lk) (fun _ s' => exists L' n,
    requested s' L' lk (set_next n l) /\ locks_ok L' /\ kept L L' /\ forall id b,
      held L' id b = if decide (id = lf_id l /\ in_range l b) then None else held L id b) s.
Proof using.
  intros Hs Hr (Hv & Hsort & Hx). apply parts_nil_r in Hs. unfold ext2_lf_clearlock.
  apply wp_seq, wp_gets. unfold id. cbn beta. rewrite (parts_head_ptr _ _ _ Hs). pose proof (parts_fuel _ _ _ _ Hs) as Hf.
  assert (forall s' L' n, parts W s' L' [] [(lk, set_next n l)] -> infos L' = clear l (infos L) -> kept L L' -> exists L' n,
    requested s' L' lk (set_next n l) /\ locks_ok L' /\ kept L L' /\ forall id b,
      held L' id b = if decide (id = lf_id l /\ in_range l b) then None else held L id b) as Hend.
  { intros s' L' n Hs' E K. exists L', n. unfold locks_ok, held. rewrite E.
    split; [done|]. split; [|split; [done|intros id b; by rewrite clear_cover]].
    split; [by apply clear_valid|]. split; [by apply clear_sorted|]. by apply clear_exclusive. }
  destruct (Z.eqb_spec (hdp L 0) NOLOCKF) as [E|_].
  - apply wp_ret. destruct L as [|[p o] L].
    + apply (Hend s [] (lf_next l)); [rewrite set_next_id; by apply parts_nil_r|done|constructor].
    + destruct Hs as (M & Ho & _ & [Hp _] & _). assert (0 < p) by (eapply own_pos; [done|]; eexists; by eapply own_lookup).
      cbn in E. unfold NOLOCKF in E. lia.
  - eapply (clear_loop_refines W _ s [] L lk l); try done; by apply valid_locks_nodes.
Qed.
End operations.

(** ** Concrete states

    The state that keeps the list [L] and the unlinked nodes [X], without waiters. *)
Fixpoint linked (L : list node) : list node :=
  match L with [] => [] | (p, l) :: L => (p, set_next (hdp L 0) l) :: linked L end.

Definition lock_state (L X : list node) (next : Z) : lkstate :=
  mkLk (list_to_map (linked L ++ X)) (hdp L 0) next ∅ [].

Definition no_waiters (N : list node) : Prop := Forall (fun n => lf_blkhd n.2 = []) N.

Lemma linked_ptrs L : ptrs (linked L) = ptrs L.
Proof. induction L as [|[p l] L IH]; cbn; [done|]. by f_equal. Qed.

Lemma linked_lays M L : (forall p l, (p, l) ∈ linked L -> M !! p = Some l) -> lays M L 0.
Proof.
  induction L as [|[p l] L IH]; cbn; [done|]. intros H. split; [apply H; by left|].
  apply IH. intros q m ?. apply H. by right.
Qed.

Lemma lock_state_parts L X next :
  NoDup (ptrs (L ++ X)) -> Forall (fun p => 0 < p < next) (ptrs (L ++ X)) -> no_waiters (L ++ X) -> 0 < next ->
  parts ∅ (lock_state L X next) L [] X.
Proof.
  intros Hnd Hpos Hw Hnext.
  assert (ptrs (linked L ++ X) = ptrs (L ++ X)) as Ep by by rewrite !ptrs_app, linked_ptrs.
  assert (forall p l, (p, l) ∈ linked L ++ X -> (list_to_map (linked L ++ X) : gmap Z ext2lockf) !! p = Some l) as Hin.
  { intros p l ?. apply elem_of_list_to_map; [|done]. fold (ptrs (linked L ++ X)). by rewrite Ep. }
  assert (forall p, is_Some ((list_to_map (linked L ++ X) : gmap Z ext2lockf) !! p) -> 0 < p < next) as Hdom.
  { intros p [l Hl%elem_of_list_to_map_2]. rewrite Forall_forall in Hpos. apply Hpos. rewrite <- Ep.
    unfold ptrs. by apply (list_elem_of_fmap_2 fst _ (p, l)). }
  exists (heap (lock_state L X next)). cbn [lock_state heap woken hdp]. split_and!.
  - split; cbn; try done.
    + intros p Hp. destruct (_ !! p) eqn:E; [|done]. specialize (Hdom p ltac:(eauto)). lia.
    + intros p Hp. by apply Hdom.
  - apply linked_lays. intros p l ?. apply Hin, elem_of_app. by left.
  - done.
  - apply Forall_forall. intros [p l] ?. apply Hin, elem_of_app. by right.
  - rewrite app_nil_l. split; [done| |done].
    intros n w Hn. unfold no_waiters in Hw. rewrite Forall_forall in Hw. rewrite (Hw n Hn). by intros ?%elem_of_nil.
Qed.

Lemma locks_ok_check L : locks_check (infos L) = true -> locks_ok L.
Proof. apply locks_check_ok. Qed.

Lemma not_blocked_check L l :
  valid_range l -> locks_ok L -> forallb (fun o => negb (conflicts l o)) (infos L) = true -> ~ blocked (held L) l.
Proof.
  intros Hl (Hv & Hs & _) H Hb. apply conflicts_blocked in Hb as (o & Ho & Hc); [|done..].
  rewrite forallb_forall in H. specialize (H o). rewrite list_elem_of_In in Ho. rewrite Hc in H. by specialize (H Ho).
Qed.

Lemma blocked_check L l :
  valid_range l -> locks_ok L -> existsb (conflicts l) (infos L) = true -> blocked (held L) l.
Proof.
  intros Hl (Hv & Hs & _) H. apply existsb_exists in H as (o & Ho & Hc).
  apply conflicts_blocked; [done..|]. exists o. by rewrite list_elem_of_In.
Qed.

(** ** Properties *)

(** C4: ext2_lf_setlock grants a request that no other owner blocks.  It returns 0 (no
    fault, no panic, no endless loop); the list it leaves is valid, sorted and disjoint
    per owner, with no byte write-locked by one owner and locked by another; the owner
    holds exactly the range with the requested type, every other byte of every owner is
    as before; and no sleeping request is lost. *)
Theorem ext2_lf_setlock_grants W s L lk l curproc :
  requested W s L lk l -> request_ok l -> locks_ok L -> ~ blocked (held L) l ->
  exists s' L', setlock_try lk curproc s = Ret (Returned 0) s' /\
    represents W s' L' /\ locks_ok L' /\
    (forall id b, held L' id b =
       if decide (id = lf_id l /\ in_range l b) then Some (lf_type l) else held L id b) /\
    (forall w, w ∈ W -> w ∈ woken s' \/ exists p o, (p, o) ∈ L' /\ w ∈ lf_blkhd o).
Proof.
  intros Hs Hreq HL Hnb.
  destruct (ext2_lf_getblock_run W s L lk l) as (b & Eb & [[-> _]|(? & ? & ? & _ & _ & _ & ?)]); [done|apply Hreq|done| |done].
  pose proof (grant_ok W s L lk l Hs Hreq HL Hnb) as Hg. apply wp_run in Hg as ([] & s' & Eg & L' & Hs' & HL' & Hheld).
  exists s', L'. split; [|split_and!; try done].
  - unfold setlock_try. rewrite (bind_ret _ _ _ _ _ Eb). cbn [Z.eqb NOLOCKF].
    rewrite (bind_ret (gets id) _ s s s) by done. by rewrite (bind_ret _ _ _ _ _ Eg).
  - intros w Hw. destruct Hs' as (_ & _ & _ & _ & _ & Hn). rewrite !app_nil_r in Hn.
    destruct (nk_queued _ _ _ Hn w Hw) as [?|([p o] & ? & ?)]; [by left|right; by exists p, o].
Qed.

(** Owner 7 reads bytes 0..99 and from 200 to the end, owner 8 reads 50..60; owner 7
    asks to write 70..79. *)
Definition example_locks : list node :=
  [(1, mkLock F_POSIX F_RDLCK 0 99 7 0 []); (2, mkLock F_POSIX F_RDLCK 50 60 8 0 []);
   (3, mkLock F_POSIX F_RDLCK 200 (-1) 7 0 [])].
Definition example_request : ext2lockf := mkLock F_POSIX F_WRLCK 70 79 7 0 [].
Definition example_state : lkstate := lock_state example_locks [(4, example_request)] 5.

Lemma example_requested : requested ∅ example_state example_locks 4 example_request.
Proof. apply lock_state_parts; [|repeat constructor; done|repeat constructor|done]. by apply (bool_decide_unpack _). Qed.

Lemma example_locks_ok : locks_ok example_locks.
Proof. apply locks_ok_check. vm_compute. reflexivity. Qed.

Lemma example_request_ok : request_ok example_request.
Proof. split_and!; [unfold valid_range, hi, INF; cbn; lia|by right|done]. Qed.

Lemma ext2_lf_setlock_grants_witness :
  exists s' L', setlock_try 4 7 example_state = Ret (Returned 0) s' /\
    represents ∅ s' L' /\ locks_ok L' /\
    (forall id b, held L' id b =
       if decide (id = 7 /\ in_range example_request b) then Some F_WRLCK else held example_locks id b) /\
    (forall w, w ∈ (∅ : gset Z) -> w ∈ woken s' \/ exists p o, (p, o) ∈ L' /\ w ∈ lf_blkhd o).
Proof.
  apply (ext2_lf_setlock_grants ∅ example_state example_locks 4 example_request 7).
  - apply example_requested.
  - apply example_request_ok.
  - apply example_locks_ok.
  - apply not_blocked_check; [apply example_request_ok|apply example_locks_ok|vm_compute; reflexivity].
Defined.

(** C18: ext2_lf_clearlock releases a range.  It returns; afterwards the owner holds no
    byte of the range, every other byte of every owner is as before, the list keeps its
    invariants (a lock that surrounds the range is split in two) and no sleeping request
    is lost. *)
Theorem ext2_lf_clearlock_releases W s L lk l :
  requested W s L lk l -> valid_range l -> locks_ok L ->
  exists s' L' n, ext2_lf_clearlock lk s = Ret tt s' /\
    requested W s' L' lk (set_next n l) /\ locks_ok L' /\
    (forall id b, held L' id b = if decide (id = lf_id l /\ in_range l b) then None else held L id b) /\
    (forall w, w ∈ W -> w ∈ woken s' \/ exists p o, (p, o) ∈ L' ++ [(lk, l)] /\ w ∈ lf_blkhd o).
Proof.
  intros Hs Hr HL. pose proof (clear_ok W s L lk l Hs Hr HL) as H.
  apply wp_run in H as ([] & s' & E & L' & n & Hs' & HL' & _ & Hheld).
  exists s', L', n. split_and!; try done. intros w Hw.
  destruct Hs' as (_ & _ & _ & _ & _ & Hn). rewrite app_nil_l in Hn.
  destruct (nk_queued _ _ _ Hn w Hw) as [?|([p o] & Hin & ?)]; [by left|right].
  apply elem_of_app in Hin as [?|Hin%list_elem_of_singleton]; [exists p, o|exists lk, l; simplify_eq].
  - split; [apply elem_of_app; by left|done].
  - split; [apply elem_of_app; right; by left|done].
Qed.

Lemma ext2_lf_clearlock_releases_witness :
  exists s' L' n, ext2_lf_clearlock 4 example_state = Ret tt s' /\
    requested ∅ s' L' 4 (set_next n example_request) /\ locks_ok L' /\
    (forall id b, held L' id b =
       if decide (id = 7 /\ in_range example_request b) then None else held example_locks id b) /\
    (forall w, w ∈ (∅ : gset Z) -> w ∈ woken s' \/ exists p o, (p, o) ∈ L' ++ [(4, example_request)] /\ w ∈ lf_blkhd o).
Proof.
  apply (ext2_lf_clearlock_releases ∅ example_state example_locks 4 example_request).
  - apply example_requested.
  - apply example_request_ok.
  - apply example_locks_ok.
Defined.

(** C21: No wakeup is lost: a process that sleeps on a lock is woken as soon as the owner
    of that lock releases any byte of it, whatever else the request releases or splits;
    the byte is then free, so that the process finds it when it tries again. *)
Theorem ext2_lf_clearlock_wakes W s L lk l p o w b :
  requested W s L lk l -> valid_range l -> locks_ok L -> lf_blkhd l = [] ->
  (p, o) ∈ L -> lf_id o = lf_id l -> in_range o b -> in_range l b ->
  w ∈ W -> (forall n, n ∈ L -> w ∈ lf_blkhd n.2 -> n = (p, o)) ->
  exists s' L' n, ext2_lf_clearlock lk s = Ret tt s' /\ requested W s' L' lk (set_next n l) /\
    held L' (lf_id o) b = None /\ w ∈ woken s'.
Proof.
  intros Hs Hr HL Hbl Hp Hid Hob Hlb Hw Hon. pose proof (clear_ok W s L lk l Hs Hr HL) as H.
  apply wp_run in H as ([] & s' & E & L' & n & Hs' & HL' & K & Hheld).
  assert (held L' (lf_id o) b = None) as Hfree by (by rewrite Hheld, decide_True).
  exists s', L', n. split_and!; try done.
  destruct Hs' as (M & _ & _ & _ & _ & Hn). rewrite app_nil_l in Hn.
  destruct (nk_queued _ _ _ Hn w Hw) as [?|(x & Hin & Hq)]; [done|]. exfalso.
  apply elem_of_app in Hin as [Hin|Hin]; [|apply list_elem_of_singleton in Hin as ->].
  - unfold kept in K. rewrite Forall_forall in K. destruct (K x Hin) as [Hx|Hx]; [rewrite Hx in Hq; by apply elem_of_nil in Hq|].
    rewrite (Hon x Hx Hq) in Hin. destruct (cover_elem (infos L') (strip o) b) as [t Ht]; [|done|].
    + unfold infos. rewrite <- list_fmap_compose. by apply (list_elem_of_fmap_2 (strip ∘ snd) _ (p, o)).
    + unfold held in Hfree. cbn [lf_id strip set_next set_blkhd] in Ht. congruence.
  - cbn in Hq. rewrite Hbl in Hq. by apply elem_of_nil in Hq.
Qed.

(** Owner 7 holds 10..19, for which the request at address 2 waits; the request at
    address 3 unlocks 15..19. *)
Definition waiting_lock : ext2lockf := mkLock F_POSIX F_WRLCK 10 19 7 0 [2].
Definition unlock_request : ext2lockf := mkLock F_POSIX F_WRLCK 15 19 7 0 [].
Definition waiting_state : lkstate :=
  mkLk {[ 1 := waiting_lock; 2 := mkLock (F_POSIX + F_WAIT) F_WRLCK 12 17 8 1 []; 3 := unlock_request ]} 1 4 {[ 8 := 2 ]} [].

Lemma waiting_requested : requested {[2]} waiting_state [(1, waiting_lock)] 3 unlock_request.
Proof.
  exists {[ 1 := waiting_lock; 3 := unlock_request ]}. split; [split|]; cbn.
  - apply map_subseteq_spec. intros p x. rewrite lookup_insert_Some, lookup_singleton_Some. by intros [[<- <-]|[_ [<- <-]]].
  - done.
  - done.
  - intros w Hw. apply elem_of_singleton in Hw as ->. by split; [eexists|].
  - intros p Hp. rewrite !lookup_insert_ne, lookup_singleton_ne by lia. done.
  - lia.
  - intros p [x Hx]. rewrite !lookup_insert_Some, lookup_singleton_Some in Hx. naive_solver lia.
  - split; [done|]. split; [done|]. split; [by repeat constructor|]. split; cbn.
    + by apply (bool_decide_unpack (NoDup [1; 3])).
    + intros n w Hn. rewrite !elem_of_cons, elem_of_nil in Hn. destruct Hn as [-> |[-> |[]]]; cbn; set_solver.
    + intros w Hw. apply elem_of_singleton in Hw as ->. right. exists (1, waiting_lock). split; [by left|by left].
Qed.

Lemma ext2_lf_clearlock_wakes_witness :
  exists s' L' n, ext2_lf_clearlock 3 waiting_state = Ret tt s' /\ requested {[2]} s' L' 3 (set_next n unlock_request) /\
    held L' 7 16 = None /\ 2 ∈ woken s'.
Proof.
  apply (ext2_lf_clearlock_wakes {[2]} waiting_state [(1, waiting_lock)] 3 unlock_request 1 waiting_lock 2 16 waiting_requested).
  - unfold valid_range, hi, INF; cbn; lia.
  - by apply locks_ok_check; vm_compute.
  - done.
  - by left.
  - done.
  - unfold in_range, hi; cbn; lia.
  - unfold in_range, hi; cbn; lia.
  - set_solver.
  - intros n Hn _. by apply list_elem_of_singleton in Hn.
Defined.

(** The bytes that a struct flock (l_start, l_len) describes; length 0 means to the end
    of the file. *)
Definition flock_range (start len b : Z) : Prop := start <= b <= INF /\ (len = 0 \/ b < start + len).

(** C28: ext2_lf_getlock (F_GETLK) changes nothing; it reports F_UNLCK exactly when the
    request could be granted, and otherwise describes a lock that is on the list and
    conflicts with the request: its type, exactly its bytes, and its owner for a POSIX
    lock. *)
Theorem ext2_lf_getlock_exact W s L lk l :
  requested W s L lk l -> valid_range l -> locks_ok L ->
  exists r, ext2_lf_getlock lk s = Ret r s /\
    match r with
    | None => ~ blocked (held L) l
    | Some (t, start, len, pid) => blocked (held L) l /\ exists p o, (p, o) ∈ L /\ conflicts l o = true /\
        t = lf_type o /\ (forall b, flock_range start len b <-> in_range o b) /\
        pid = (if Z.land (lf_flags o) F_POSIX =? 0 then None else Some (lf_id o))
    end.
Proof.
  intros Hs Hr HL.
  destruct (ext2_lf_getblock_run W s L lk l Hs Hr HL) as (b & Eb & [[-> Hb]|(A & o & B & Hne & -> & Hc & Hb)]);
    unfold ext2_lf_getlock.
  - exists None. by rewrite (bind_ret _ _ _ _ _ Eb).
  - exists (Some (lf_type o, lf_start o, (if lf_end o =? -1 then 0 else i64 (lf_end o - lf_start o + 1)),
                 (if Z.land (lf_flags o) F_POSIX =? 0 then None else Some (lf_id o)))). split.
    + rewrite (bind_ret _ _ _ _ _ Eb), (proj2 (Z.eqb_neq _ _) Hne).
      destruct (parts_linked _ _ _ _ _ _ _ _ Hs) as (n & El). by rewrite (bind_ret _ _ _ _ _ El).
    + cbn beta match. cbn [lf_type lf_start lf_end lf_flags lf_id set_next]. split; [done|].
      exists b, o. split; [apply elem_of_app; right; by left|]. split_and!; try done.
      assert (valid_range o) as Ho.
      { destruct HL as (Hv & _). apply valid_locks_nodes in Hv. unfold valid_nodes in Hv.
        rewrite fmap_app, Forall_app in Hv. destruct Hv as [_ Hv]. by apply Forall_cons in Hv as [? _]. }
      pose proof (hi_bound _ Ho). intros x. unfold flock_range, in_range, hi, INF in *.
      destruct (Z.eqb_spec (lf_end o) (-1)); [lia|].
      assert (- 2 ^ 63 <= lf_end o - lf_start o + 1 < 2 ^ 63) by ranges. mach. lia.
Qed.

Lemma ext2_lf_getlock_exact_witness :
  exists r, ext2_lf_getlock 4 example_state = Ret r example_state /\
    match r with
    | None => ~ blocked (held example_locks) example_request
    | Some (t, start, len, pid) => blocked (held example_locks) example_request /\
        exists p o, (p, o) ∈ example_locks /\ conflicts example_request o = true /\
        t = lf_type o /\ (forall b, flock_range start len b <-> in_range o b) /\
        pid = (if Z.land (lf_flags o) F_POSIX =? 0 then None else Some (lf_id o))
    end.
Proof.
  apply (ext2_lf_getlock_exact ∅ example_state example_locks 4 example_request).
  - apply example_requested.
  - apply example_request_ok.
  - apply example_locks_ok.
Defined.

(** A blocked request without F_WAIT fails with EAGAIN: it is freed and the locks
    are untouched. *)
Theorem ext2_lf_setlock_again W s L lk l curproc :
  requested W s L lk l -> request_ok l -> locks_ok L -> blocked (held L) l -> Z.land (lf_flags l) F_WAIT = 0 ->
  exists s', setlock_try lk curproc s = Ret (Returned EAGAIN) s' /\ represents W s' L /\
    heap s' = delete lk (heap s).
Proof.
  intros Hs Hreq HL Hb Hf.
  destruct (ext2_lf_getblock_run W s L lk l) as (b & Eb & [[_ ?]|(A & o & B & Hne & -> & Hc & _)]); [done|apply Hreq|done|done|].
  pose proof (parts_request _ _ _ _ _ _ Hs) as El.
  destruct (parts_linked _ _ _ _ _ _ _ _ Hs) as (n & Eo).
  assert (wp (FREE lk) (fun _ s' => represents W s' (A ++ (b, o) :: B)) s) as Hw.
  { eapply parts_free_request; [exact Hs|apply Hreq|done]. }
  assert (heap s !! lk = Some l) as Hlk.
  { destruct Hs as (M & Ho & _ & _ & HX & _). apply Forall_cons in HX as [HX _]. by eapply own_lookup. }
  unfold wp in Hw. rewrite (FREE_run _ _ _ Hlk) in Hw. exists (with_heap (delete lk) s). split_and!; [|done|done].
  unfold setlock_try. rewrite (bind_ret _ _ _ _ _ Eb), (proj2 (Z.eqb_neq _ _) Hne).
  rewrite (bind_ret _ _ _ _ _ El), (bind_ret _ _ _ _ _ Eo), Hf. cbn [Z.eqb].
  by rewrite (bind_ret _ _ _ _ _ (FREE_run _ _ _ Hlk)).
Qed.

(** Owner 8 asks to write bytes that owner 7 reads. *)
Definition example_rival (flags : Z) : ext2lockf := mkLock flags F_WRLCK 90 110 8 0 [].
Definition example_contended (flags : Z) : lkstate := lock_state example_locks [(4, example_rival flags)] 5.

Lemma example_contended_requested flags :
  requested ∅ (example_contended flags) example_locks 4 (example_rival flags).
Proof. apply lock_state_parts; [|repeat constructor; done|repeat constructor|done]. by apply (bool_decide_unpack _). Qed.

Lemma example_rival_ok flags : request_ok (example_rival flags).
Proof. split_and!; [unfold valid_range, hi, INF; cbn; lia|by right|done]. Qed.

Lemma ext2_lf_setlock_again_witness :
  exists s', setlock_try 4 8 (example_contended F_POSIX) = Ret (Returned EAGAIN) s' /\ represents ∅ s' example_locks /\
    heap s' = delete 4 (heap (example_contended F_POSIX)).
Proof.
  apply (ext2_lf_setlock_again ∅ _ _ _ (example_rival F_POSIX)).
  - apply example_contended_requested.
  - apply example_rival_ok.
  - apply example_locks_ok.
  - apply blocked_check; [apply example_rival_ok|apply example_locks_ok|vm_compute; reflexivity].
  - vm_compute. reflexivity.
Defined.

(** ** Sleeping *)

(** The request [l] may sleep: F_WAIT is set, the deadlock check of a POSIX request finds
    nothing, and it is no exclusive flock request (which first drops its own locks). *)
Definition may_sleep (s : lkstate) (L : list node) (l : ext2lockf) : Prop :=
  Z.land (lf_flags l) F_WAIT <> 0 /\
  (Z.land (lf_flags l) F_POSIX <> 0 -> forall p o, (p, o) ∈ L ->
     deadlock_loop maxlockdepth (lf_id o) (lf_id l) s = Ret false s) /\
  (Z.land (lf_flags l) F_FLOCK = 0 \/ lf_type l <> F_WRLCK).

(** The state in which [lk] sleeps on [p]. *)
Definition asleep (s : lkstate) (lk curproc p : Z) (l o : ext2lockf) : lkstate :=
  mkLk (<[p := set_blkhd (lf_blkhd o ++ [lk]) o]> (<[lk := set_next p l]> (heap s)))
    (i_lockf s) (next_addr s) (<[curproc := lk]> (p_wchan s)) (woken s).

Lemma sleep_run W s L lk l curproc :
  requested W s L lk l -> request_ok l -> locks_ok L -> blocked (held L) l -> may_sleep s L l ->
  exists A p o B n, L = A ++ (p, o) :: B /\ conflicts l o = true /\ p <> NOLOCKF /\ p <> lk /\
    heap s !! p = Some (set_next n o) /\ n = hdp B 0 /\
    setlock_try lk curproc s = Ret Sleeping (asleep s lk curproc p l (set_next n o)).
Proof.
  intros Hs Hreq HL Hb (Hwait & Hdead & Hflock).
  destruct (ext2_lf_getblock_run W s L lk l) as (p & Eb & [[_ ?]|(A & o & B & Hne & -> & Hc & _)]); [done|apply Hreq|done|done|].
  pose proof (parts_request _ _ _ _ _ _ Hs) as El.
  destruct Hs as (M & Ho & Hlay & _ & HX & Hn). apply Forall_cons in HX as [HX _]. cbn in HX.
  apply lays_app in Hlay as (_ & Hp & _). cbn [hdp] in Hp.
  assert (p <> lk) as Hplk.
  { intros ->. destruct Hn as [Hn _ _]. rewrite app_nil_l, !ptrs_app in Hn. apply NoDup_app in Hn as (_ & Hn & _).
    apply (Hn lk); [apply elem_of_app; right; by left|by left]. }
  assert (heap s !! p = Some (set_next (hdp B 0) o)) as Hps by by eapply own_lookup.
  assert (heap s !! lk = Some l) as Hlks by by eapply own_lookup.
  exists A, p, o, B, (hdp B 0). split_and!; try done.
  unfold setlock_try. rewrite (bind_ret _ _ _ _ _ Eb), (proj2 (Z.eqb_neq _ _) Hne).
  rewrite (bind_ret _ _ _ _ _ El), (bind_ret _ _ _ _ _ (load_run _ _ _ Hps)).
  rewrite (proj2 (Z.eqb_neq _ _) Hwait). cbn [lf_flags lf_id set_next].
  assert ((if negb (Z.land (lf_flags l) F_POSIX =? 0) && negb (Z.land (lf_flags o) F_POSIX =? 0)
           then deadlock_loop maxlockdepth (lf_id o) (lf_id l) else mret false) s = Ret false s) as Ed.
  { destruct (Z.eqb_spec (Z.land (lf_flags l) F_POSIX) 0) as [|Hpos]; [done|].
    destruct (Z.land (lf_flags o) F_POSIX =? 0); [done|]. apply (Hdead Hpos p). apply elem_of_app. right. by left. }
  rewrite (bind_ret _ _ _ _ _ Ed). cbn iota.
  assert (negb (Z.land (lf_flags l) F_FLOCK =? 0) && (lf_type l =? F_WRLCK) = false) as -> by lia.
  rewrite (bind_ret (mret tt) _ s s tt) by done.
  rewrite (bind_ret _ _ _ _ _ (update_run lk _ _ _ Hlks)).
  assert (heap (with_heap (<[lk := set_next p l]>) s) !! p = Some (set_next (hdp B 0) o)) as Hp1.
  { cbn. by rewrite lookup_insert_ne. }
  rewrite (bind_ret _ _ _ _ _ (load_run _ _ _ Hp1)).
  by rewrite (bind_ret _ _ _ _ _ (update_run p _ _ _ Hp1)).
Qed.

Lemma owns_sleep W s hd wk M lk l p o curproc :
  owns W s hd wk M -> M !! lk = Some l -> M !! p = Some o -> p <> lk ->
  owns ({[lk]} ∪ W) (asleep s lk curproc p l o) hd wk
    (delete lk (<[p := set_blkhd (lf_blkhd o ++ [lk]) o]> M)).
Proof.
  intros [H1 H2 H3 H4 H5 H6 H7] Hlk Hp Hne. pose proof (lookup_weaken _ _ _ _ Hlk H1) as Hlks.
  pose proof (lookup_weaken _ _ _ _ Hp H1) as Hps.
  split; cbn [heap i_lockf woken next_addr asleep]; try done.
  - rewrite delete_insert_ne by done. apply insert_mono. apply insert_subseteq_r; [apply lookup_delete_eq|].
    etrans; [apply delete_subseteq|done].
  - intros w [->%elem_of_singleton|Hw]%elem_of_union.
    + rewrite lookup_delete_eq, lookup_insert_ne, lookup_insert_eq by done. eauto.
    + destruct (H4 w Hw) as [Hs1 Hs2]. assert (w <> lk) by congruence. assert (w <> p) by congruence.
      by rewrite lookup_delete_ne, !lookup_insert_ne by done.
  - intros q Hq. specialize (H5 q Hq). rewrite !lookup_insert_ne; congruence.
  - intros q [<-|[_ [<-|[_ Hq]]%lookup_insert_is_Some]]%lookup_insert_is_Some; apply H7; eauto.
Qed.

Lemma nodes_ok_sleep W wk N p o lk l :
  nodes_ok W wk ((p, o) :: (lk, l) :: N) -> lf_blkhd l = [] ->
  nodes_ok ({[lk]} ∪ W) wk ((p, set_blkhd (lf_blkhd o ++ [lk]) o) :: N).
Proof.
  intros Hn Hb. assert (nodes_ok W wk ((lk, l) :: (p, o) :: N)) as Hn' by (eapply nodes_ok_perm; [exact Hn|solve_Permutation]).
  destruct (nodes_ok_drop _ _ _ _ _ Hn' Hb) as [H1 H2 H3]. split; [done| |].
  - intros n w [->|Hn1]%elem_of_cons Hw; apply elem_of_union.
    + cbn in Hw. apply elem_of_app in Hw as [Hw|Hw%list_elem_of_singleton]; [right|left; by apply elem_of_singleton].
      apply (H2 (p, o)); [by left|done].
    + right. apply (H2 n); [by right|done].
  - intros w [->%elem_of_singleton|Hw]%elem_of_union.
    + right. eexists. split; [by left|]. cbn. apply elem_of_app. right. by left.
    + destruct (H3 w Hw) as [?|(n & [->|Hn1]%elem_of_cons & Hwx)]; [by left|right..].
      * eexists. split; [by left|]. cbn. apply elem_of_app. by left.
      * exists n. split; [by right|done].
Qed.

(** a blocked request with F_WAIT sleeps at the end of the queue of the first lock
    that conflicts with it, and remembers that lock; the locks that are held do not
    change and the state stays well formed with one more sleeping request. *)
Theorem ext2_lf_setlock_sleeps W s L lk l curproc :
  requested W s L lk l -> request_ok l -> locks_ok L -> blocked (held L) l -> may_sleep s L l ->
  exists s' A p o B, setlock_try lk curproc s = Ret Sleeping s' /\ L = A ++ (p, o) :: B /\ conflicts l o = true /\
    represents ({[lk]} ∪ W) s' (A ++ (p, set_blkhd (lf_blkhd o ++ [lk]) o) :: B) /\
    heap s' !! lk = Some (set_next p l) /\ p_wchan s' = <[curproc := lk]> (p_wchan s).
Proof.
  intros Hs Hreq HL Hb Hsleep.
  destruct (sleep_run W s L lk l curproc Hs Hreq HL Hb Hsleep) as (A & p & o & B & n & -> & Hc & Hne & Hplk & Hp & -> & E).
  exists (asleep s lk curproc p l (set_next (hdp B 0) o)), A, p, o, B. split_and!; try done.
  2: { cbn. rewrite lookup_insert_ne by done. apply lookup_insert_eq. }
  destruct Hs as (M & Ho & Hlay & _ & HX & Hn). apply Forall_cons in HX as [HX _]. cbn [fst snd] in HX.
  pose proof Hlay as Hlay'. apply lays_app in Hlay' as (_ & HpM & _).
  assert (nodes_ok W (woken s) ((p, o) :: (lk, l) :: A ++ B)) as Hn1.
  { eapply nodes_ok_perm; [exact Hn|]. solve_Permutation. }
  assert (nodes_ok W (woken s) (A ++ (p, o) :: (B ++ [(lk, l)])) /\
    nodes_ok W (woken s) ((A ++ (p, o) :: B) ++ (lk, l) :: [])) as [Hn2 Hn3].
  { split; (eapply nodes_ok_perm; [exact Hn|]; solve_Permutation). }
  destruct (nodes_distinct _ _ _ _ _ _ Hn2) as (HpA & HpB & _).
  destruct (nodes_distinct _ _ _ _ _ _ Hn3) as (Hlk & _).
  rewrite ptrs_elem_app in HpB.
  eexists. split; [|split; [|split; [done|split; [by constructor|]]]].
  - rewrite hdp_app in *. eapply owns_sleep; [exact Ho|done|exact HpM|done].
  - apply lays_delete; [by rewrite ptrs_app in *|].
    refine (lays_edit _ A p o (set_blkhd (lf_blkhd o ++ [lk]) o) B 0 Hlay HpA _). tauto.
  - apply nodes_ok_sleep in Hn1; [|apply Hreq]. eapply nodes_ok_perm; [exact Hn1|]. solve_Permutation.
Qed.

Definition example_wait_rival : ext2lockf := example_rival (F_POSIX + F_WAIT).
Definition example_wait_state : lkstate := example_contended (F_POSIX + F_WAIT).

Lemma example_may_sleep : may_sleep example_wait_state example_locks example_wait_rival.
Proof. split_and!; [done| |by left]. intros _ p o _. reflexivity. Qed.

Lemma example_wait_blocked : blocked (held example_locks) example_wait_rival.
Proof. apply blocked_check; [apply example_rival_ok|apply example_locks_ok|vm_compute; reflexivity]. Qed.

Lemma ext2_lf_setlock_sleeps_witness :
  exists s' A p o B, setlock_try 4 8 example_wait_state = Ret Sleeping s' /\ example_locks = A ++ (p, o) :: B /\
    conflicts example_wait_rival o = true /\
    represents ({[4]} ∪ ∅) s' (A ++ (p, set_blkhd (lf_blkhd o ++ [4]) o) :: B) /\
    heap s' !! 4 = Some (set_next p example_wait_rival) /\ p_wchan s' = <[8 := 4]> (p_wchan example_wait_state).
Proof.
  apply (ext2_lf_setlock_sleeps ∅ _ _ _ example_wait_rival).
  - apply example_contended_requested.
  - apply example_rival_ok.
  - apply example_locks_ok.
  - apply example_wait_blocked.
  - apply example_may_sleep.
Defined.

Lemma filter_absent (x : Z) (l : list Z) : x ∉ l -> filter (fun y => y <> x) l = l.
Proof.
  induction l as [|y l IH]; intros H; [done|]. apply not_elem_of_cons in H as [? ?].
  by rewrite filter_cons_True, IH.
Qed.

(** a request that sleeps and is interrupted by a signal leaves no trace: the attempt
    returns the error of msleep, the request is freed and the locks and their queues are
    what they were. *)
Theorem ext2_lf_setlock_interrupted W s L lk l curproc error :
  requested W s L lk l -> request_ok l -> locks_ok L -> blocked (held L) l -> may_sleep s L l ->
  p_wchan s !! curproc = None -> error <> 0 ->
  exists s1 s2, setlock_try lk curproc s = Ret Sleeping s1 /\
    setlock_woken lk curproc error s1 = Ret (Returned error) s2 /\
    represents W s2 L /\ heap s2 = delete lk (heap s) /\ p_wchan s2 = p_wchan s.
Proof.
  intros Hs Hreq HL Hb Hsleep Hproc He.
  destruct (sleep_run W s L lk l curproc Hs Hreq HL Hb Hsleep) as (A & p & o & B & n & EL & Hc & Hne & Hplk & Hp & En & E).
  assert (wp (FREE lk) (fun _ s' => represents W s' L) s) as Hw.
  { eapply parts_free_request; [exact Hs|apply Hreq|done]. }
  assert (heap s !! lk = Some l /\ lk ∉ lf_blkhd o) as [Hlk Hni].
  { destruct Hs as (M & Ho & _ & _ & HX & Hn). apply Forall_cons in HX as [HX _]. cbn in HX.
    split; [by eapply own_lookup|]. intros Hin. destruct (own_wait _ _ _ _ _ Ho lk) as [_ HN]; [|congruence].
    apply (nk_waits _ _ _ Hn (p, o)); [|done]. rewrite EL, !elem_of_app. left. right. by left. }
  unfold wp in Hw. rewrite (FREE_run _ _ _ Hlk) in Hw.
  eexists _, (with_heap (delete lk) s). split; [exact E|]. split_and!; try done.
  set (s1 := mkLk (heap (asleep s lk curproc p l (set_next n o))) (i_lockf s) (next_addr s) (p_wchan s) (woken s)).
  unfold setlock_woken.
  rewrite (bind_ret (modify _) _ _ s1 tt).
  2: { unfold s1, asleep, modify. cbn [heap i_lockf next_addr p_wchan woken]. by rewrite delete_insert_id. }
  rewrite (proj2 (Z.eqb_neq _ _) He).
  assert (heap s1 !! lk = Some (set_next p l)) as H1 by (cbn; rewrite lookup_insert_ne by done; apply lookup_insert_eq).
  assert (heap s1 !! p = Some (set_blkhd (lf_blkhd o ++ [lk]) (set_next n o))) as H2 by apply lookup_insert_eq.
  rewrite (bind_ret _ _ _ _ _ (load_run _ _ _ H1)). cbn [lf_next set_next]. rewrite (proj2 (Z.eqb_neq _ _) Hne).
  assert (filter (fun w => w <> lk) (lf_blkhd o ++ [lk]) = lf_blkhd o) as Ef.
  { rewrite filter_app, filter_cons_False, filter_nil, app_nil_r by tauto. by apply filter_absent. }
  set (s2 := mkLk (<[p := set_next n o]> (heap s1)) (i_lockf s) (next_addr s) (p_wchan s) (woken s)).
  rewrite (bind_ret _ _ s1 s2 tt).
  2: { rewrite (bind_ret _ _ _ _ _ (load_run _ _ _ H2)). rewrite (update_run _ _ _ _ H2). cbn [lf_blkhd set_blkhd].
    rewrite Ef. unfold s2, with_heap. done. }
  assert (heap s2 !! lk = Some (set_next p l)) as H3 by (cbn -[s1]; by rewrite lookup_insert_ne).
  rewrite (bind_ret _ _ _ _ _ (FREE_run _ _ _ H3)). unfold mret, kern_ret. f_equal.
  unfold with_heap. cbn [heap i_lockf next_addr p_wchan woken s2 s1 asleep]. destruct s as [h ? ? ? ?]. cbn in *. f_equal.
  rewrite insert_insert_eq, delete_insert_ne, delete_insert_eq by done.
  apply insert_id. by rewrite lookup_delete_ne.
Qed.

Lemma ext2_lf_setlock_interrupted_witness :
  exists s1 s2, setlock_try 4 8 example_wait_state = Ret Sleeping s1 /\
    setlock_woken 4 8 4 s1 = Ret (Returned 4) s2 /\
    represents ∅ s2 example_locks /\ heap s2 = delete 4 (heap example_wait_state) /\
    p_wchan s2 = p_wchan example_wait_state.
Proof.
  apply (ext2_lf_setlock_interrupted ∅ _ _ _ example_wait_rival).
  - apply example_contended_requested.
  - apply example_rival_ok.
  - apply example_locks_ok.
  - apply example_wait_blocked.
  - apply example_may_sleep.
  - reflexivity.
  - lia.
Defined.

(** ** Deadlock detection *)

(** Process [p] sleeps on a request that waits for a POSIX lock of process [q]. *)
Inductive waits_for (s : lkstate) (p : Z) : Z -> Prop :=
| waits_for_intro w waiting waitblock :
    p_wchan s !! p = Some w -> heap s !! w = Some waiting -> heap s !! lf_next waiting = Some waitblock ->
    Z.land (lf_flags waitblock) F_POSIX <> 0 -> waits_for s p (lf_id waitblock).

Inductive waits_path (s : lkstate) : nat -> Z -> Z -> Prop :=
| path_one p q : waits_for s p q -> waits_path s 1 p q
| path_more n p q r : waits_for s p q -> waits_path s n q r -> waits_path s (S n) p r.

Lemma waits_for_fun s p q r : waits_for s p q -> waits_for s p r -> q = r.
Proof. intros [w x y H1 H2 H3 _] H. destruct H. congruence. Qed.

(** C29: the deadlock check reports a deadlock exactly when a chain of at most
    maxlockdepth sleeping processes, each waiting for a POSIX lock of the next, leads from
    the owner of the blocking lock back to the requester. *)
Theorem deadlock_loop_exact s n proc id :
  deadlock_loop n proc id s = Ret true s <-> exists k, (k <= n)%nat /\ waits_path s k proc id.
Proof.
  revert proc. induction n as [|n IH]; intros proc.
  { split; [done|]. intros (k & Hk & Hp). inversion Hp; lia. }
  cbn [deadlock_loop]. rewrite (bind_ret _ _ s s s) by done. split.
  - destruct (p_wchan s !! proc) as [w|] eqn:E1; [|done].
    unfold load, gets, access, mbind, kern_bind.
    destruct (heap s !! w) as [x|] eqn:E2; [|done]. destruct (heap s !! lf_next x) as [y|] eqn:E3; [|done].
    destruct (Z.eqb_spec (Z.land (lf_flags y) F_POSIX) 0) as [|E4]; [done|].
    pose proof (waits_for_intro s proc w x y E1 E2 E3 E4) as Hw.
    destruct (Z.eqb_spec (lf_id y) id) as [<-|].
    + intros _. exists 1%nat. split; [lia|by constructor].
    + intros (k & ? & ?)%IH. exists (S k). split; [lia|by eapply path_more].
  - intros (k & Hk & Hp).
    assert (exists q, waits_for s proc q /\ (q = id \/ exists j, (j <= n)%nat /\ waits_path s j q id)) as (q & Hw & Hq).
    { inversion Hp as [? ? Hw|j ? q ? Hw Hr]; subst; [by exists id; auto|]. exists q. split; [done|]. right. exists j. split; [lia|done]. }
    destruct Hw as [w x y E1 E2 E3 E4]. rewrite E1.
    rewrite (bind_ret _ _ _ _ _ (load_run _ _ _ E2)), (bind_ret _ _ _ _ _ (load_run _ _ _ E3)).
    rewrite (proj2 (Z.eqb_neq _ _) E4). destruct (Z.eqb_spec (lf_id y) id) as [|Hne]; [done|].
    destruct Hq as [?|Hq]; [done|]. by apply IH.
Qed.

(** ** A dangling pointer *)

(** Owner 7 has write-locked 10..19. *)
Definition dangling_locks : list node := [(1, mkLock F_POSIX F_WRLCK 10 19 7 0 [])].

(** Owner 8 (address 2) wants to wait for that lock; owner 7 (address 3) will lock 0..29. *)
Definition dangling_state : lkstate := lock_state dangling_locks
  [(2, mkLock (F_POSIX + F_WAIT) F_WRLCK 10 19 8 0 []); (3, mkLock F_POSIX F_WRLCK 0 29 7 0 [])] 4.

(** when a lock that contains an old lock of its owner replaces it, the requests that
    sleep on the old lock move to the queue of the new one, but their [lf_next] keeps
    pointing to the old lock, which is freed: after owner 7 has extended its lock, the
    signal that interrupts owner 8 makes ext2_lf_setlock follow the dangling pointer. *)
Theorem ext2_lf_setlock_dangling :
  exists s1 s2, setlock_try 2 8 dangling_state = Ret Sleeping s1 /\
    setlock_try 3 7 s1 = Ret (Returned 0) s2 /\
    (lf_next <$> heap s2 !! 2 = Some 1 /\ heap s2 !! 1 = None) /\
    setlock_woken 2 8 4 s2 = Fault.
Proof.
  eexists _, _. split; [vm_compute; reflexivity|]. split; [vm_compute; reflexivity|].
  split; [split; vm_compute; reflexivity|vm_compute; reflexivity].
Qed.
