(* ===== verification/Sort.v ===== *)
(** * Heapsort and introsort (src/src/kern/kheapsort.c, src/src/kern/qsort.c)

    [kheapsort] sorts the index descriptors of a directory block (ext2_htree.c);
    [qsort] is the introsort that falls back on it.  The array is the state: a list of
    elements, indexed by [Z]; a pointer is an index, counted in elements of [size]
    bytes, and an access outside the array is a [Fault].  Block copies and swaps of one
    element are single steps. *)

From S2P Require Import Prelude.

(** ** Arrays *)

Definition elem {A} (i : Z) (arr : list A) : option A :=
  if 0 <=? i then arr !! Z.to_nat i else None.
Definition upd {A} (i : Z) (x : A) (arr : list A) : list A := <[Z.to_nat i := x]> arr.

Abbreviation ARR A := (kern (list A)).

Definition fetch {A} (i : Z) : ARR A A := arr ← gets id; access (elem i arr).
Definition put {A} (i : Z) (x : A) : ARR A unit :=
  arr ← gets id; access (elem i arr);; modify (upd i x).

(** [SWAP] / [swap], [COPY(a, b)] *)
Definition swap {A} (i j : Z) : ARR A unit :=
  x ← fetch i; y ← fetch j; put i y;; put j x.
Definition COPY {A} (i j : Z) : ARR A unit := x ← fetch j; put i x.

(** What the callers' comparison functions promise. *)
Class Comparator {A} (compar : A -> A -> Z) : Prop := {
  compar_flip x y : Z.sgn (compar x y) = - Z.sgn (compar y x);
  compar_trans x y z : compar x y <= 0 -> compar y z <= 0 -> compar x z <= 0;
}.

Section code.
Context {A : Type} (compar : A -> A -> Z).

(** ** [kheapsort]: items are numbered from 1; [base] is the index below the first. *)

(** The larger child: [child_i] or [child_i + 1]. *)
Definition larger_child (base nmemb child_i : Z) : ARR A Z :=
  if child_i <? nmemb then
    x ← fetch (base + child_i);
    y ← fetch (base + child_i + 1);
    mret (if compar x y <? 0 then child_i + 1 else child_i)
  else mret child_i.

Fixpoint CREATE (fuel : nat) (base nmemb par_i : Z) : ARR A unit :=
  match fuel with
  | O => out_of_fuel
  | S fuel =>
      let child_i := u64 (par_i * 2) in
      if nmemb <? child_i then mret tt
      else
        child_i ← larger_child base nmemb child_i;
        child ← fetch (base + child_i);
        par ← fetch (base + par_i);
        if compar child par <=? 0 then mret tt
        else swap (base + par_i) (base + child_i);; CREATE fuel base nmemb child_i
  end.

(** First loop of [SELECT]: the hole moves down to a leaf, whose number is returned. *)
Fixpoint select_down (fuel : nat) (base nmemb par_i : Z) : ARR A Z :=
  match fuel with
  | O => out_of_fuel
  | S fuel =>
      let child_i := u64 (par_i * 2) in
      if nmemb <? child_i then mret par_i
      else
        child_i ← larger_child base nmemb child_i;
        COPY (base + par_i) (base + child_i);;
        select_down fuel base nmemb child_i
  end.

(** Second loop: the hole moves up to the place of [k]. *)
Fixpoint select_up (fuel : nat) (base : Z) (k : A) (par_i : Z) : ARR A unit :=
  match fuel with
  | O => out_of_fuel
  | S fuel =>
      let child_i := par_i in
      let par_i := child_i / 2 in
      if child_i =? 1 then put (base + child_i) k
      else
        par ← fetch (base + par_i);
        if compar k par <? 0 then put (base + child_i) k
        else COPY (base + child_i) (base + par_i);; select_up fuel base k par_i
  end.

Definition SELECT (fuel : nat) (base nmemb : Z) (k : A) : ARR A unit :=
  par_i ← select_down fuel base nmemb 1; select_up fuel base k par_i.

(** [for (l = nmemb / 2 + 1; --l;) CREATE(l, ...)] *)
Fixpoint create_heap (l : nat) (fuel : nat) (base nmemb : Z) : ARR A unit :=
  match l with
  | O => mret tt
  | S l' => CREATE fuel base nmemb (Z.of_nat l);; create_heap l' fuel base nmemb
  end.

(** [while (nmemb > 1)] *)
Fixpoint take_top (nmemb : nat) (fuel : nat) (base : Z) : ARR A unit :=
  match nmemb with
  | S (S _ as nmemb') =>
      k ← fetch (base + Z.of_nat nmemb);
      COPY (base + Z.of_nat nmemb) (base + 1);;
      SELECT fuel base (Z.of_nat nmemb') k;;
      take_top nmemb' fuel base
  | _ => mret tt
  end.

(** [malloc]: whether the allocation of the temporary succeeds. *)
Definition kheapsort (malloc : bool) (vbase nmemb size : Z) : ARR A Z :=
  if nmemb <=? 1 then mret 0
  else if size =? 0 then mret (-1)
  else if negb malloc then mret (-1)
  else
    let fuel := Z.to_nat nmemb in
    let base := vbase - 1 in
    create_heap (Z.to_nat (nmemb / 2)) fuel base nmemb;;
    take_top (Z.to_nat nmemb) fuel base;;
    mret 0.

(** ** [qsort] *)

(** [for (pl = pm; pl > a && cmp(pl - es, pl) > 0; pl -= es) swap(pl, pl - es)], from
    [pl = a + n]. *)
Fixpoint insert_down (n : nat) (a : Z) : ARR A unit :=
  match n with
  | O => mret tt
  | S n' =>
      let pl := a + Z.of_nat n in
      x ← fetch (pl - 1);
      y ← fetch pl;
      if 0 <? compar x y then swap pl (pl - 1);; insert_down n' a else mret tt
  end.

(** [for (pm = a + es; pm < a + n * es; pm += es)]: [n] more rounds from [a + i]. *)
Fixpoint insertion_sort (n : nat) (i : nat) (a : Z) : ARR A unit :=
  match n with
  | O => mret tt
  | S n => insert_down i a;; insertion_sort n (S i) a
  end.

Definition med3 (a b c : Z) : ARR A Z :=
  x ← fetch a; y ← fetch b;
  if compar x y <? 0 then
    y ← fetch b; z ← fetch c;
    if compar y z <? 0 then mret b
    else x ← fetch a; z ← fetch c; mret (if compar x z <? 0 then c else a)
  else
    y ← fetch b; z ← fetch c;
    if 0 <? compar y z then mret b
    else x ← fetch a; z ← fetch c; mret (if compar x z <? 0 then a else c).

Definition pivot (a n : Z) : ARR A Z :=
  let pm := a + n / 2 in
  if 7 <? n then
    let pl := a in
    let pn := a + (n - 1) in
    '(pl, pm, pn) ←
      (if 40 <? n then
         let s := n / 8 in
         pl ← med3 pl (pl + s) (pl + 2 * s);
         pm ← med3 (pm - s) pm (pm + s);
         pn ← med3 (pn - 2 * s) (pn - s) pn;
         mret (pl, pm, pn)
       else mret (pl, pm, pn));
    med3 pl pm pn
  else mret pm.

(** [while (pb <= pc && (cmp_result = cmp(pb, a)) <= 0)]: the new [pa], [pb]. *)
Fixpoint scan_left (fuel : nat) (a pa pb pc : Z) : ARR A (Z * Z) :=
  match fuel with
  | O => out_of_fuel
  | S fuel =>
      if pb <=? pc then
        x ← fetch pb; v ← fetch a;
        let cmp_result := compar x v in
        if cmp_result <=? 0 then
          if cmp_result =? 0 then swap pa pb;; scan_left fuel a (pa + 1) (pb + 1) pc
          else scan_left fuel a pa (pb + 1) pc
        else mret (pa, pb)
      else mret (pa, pb)
  end.

Fixpoint scan_right (fuel : nat) (a pb pc pd : Z) : ARR A (Z * Z) :=
  match fuel with
  | O => out_of_fuel
  | S fuel =>
      if pb <=? pc then
        x ← fetch pc; v ← fetch a;
        let cmp_result := compar x v in
        if 0 <=? cmp_result then
          if cmp_result =? 0 then swap pc pd;; scan_right fuel a pb (pc - 1) (pd - 1)
          else scan_right fuel a pb (pc - 1) pd
        else mret (pc, pd)
      else mret (pc, pd)
  end.

(** The [for (;;)] of the partition: the final [pa], [pb], [pc], [pd]. *)
Fixpoint partition (fuel fuel' : nat) (a pa pb pc pd : Z) : ARR A (Z * Z * Z * Z) :=
  match fuel with
  | O => out_of_fuel
  | S fuel =>
      '(pa, pb) ← scan_left fuel' a pa pb pc;
      '(pc, pd) ← scan_right fuel' a pb pc pd;
      if pc <? pb then mret (pa, pb, pc, pd)
      else swap pb pc;; partition fuel fuel' a pa (pb + 1) (pc - 1) pd
  end.

(** [vecswap]: [n] elements. *)
Fixpoint vecswap (a b : Z) (n : nat) : ARR A unit :=
  match n with
  | O => mret tt
  | S n => swap a b;; vecswap (a + 1) (b + 1) n
  end.

(** [malloc a n]: whether [kheapsort]'s allocation succeeds when it is called for the
    [n] elements from [a]; no two calls of one sort are made for the same range. *)
Fixpoint introsort (fuel : nat) (malloc : Z -> Z -> bool) (a n maxdepth : Z) : ARR A unit :=
  match fuel with
  | O => out_of_fuel
  | S fuel =>
      if n <? 7 then insertion_sort (Z.to_nat (n - 1)) 1 a
      else
        done ← (if maxdepth =? 0 then r ← kheapsort (malloc a n) a n 1; mret (r =? 0) else mret false);
        if done : bool then mret tt
        else
          let maxdepth := u64 (maxdepth - 1) in
          pm ← pivot a n;
          swap a pm;;
          '(pa, pb, pc, pd) ← partition (S (Z.to_nat n)) (S (Z.to_nat n)) a (a + 1) (a + 1) (a + (n - 1)) (a + (n - 1));
          let pn := a + n in
          let r := Z.min (pa - a) (pb - pa) in
          vecswap a (pb - r) (Z.to_nat r);;
          let r := Z.min (pd - pc) (pn - pd - 1) in
          vecswap pb (pn - r) (Z.to_nat r);;
          let r := pb - pa in
          let s := pd - pc in
          if r <? s then
            if 1 <? s then
              (if 1 <? r then introsort fuel malloc a r maxdepth else mret tt);;
              introsort fuel malloc (pn - s) s maxdepth
            else mret tt
          else
            if 1 <? r then
              (if 1 <? s then introsort fuel malloc (pn - s) s maxdepth else mret tt);;
              introsort fuel malloc a r maxdepth
            else mret tt
  end.

(** [for (i = n; i > 0; i >>= 1) maxdepth++] *)
Fixpoint depth_loop (fuel : nat) (i maxdepth : Z) : option Z :=
  match fuel with
  | O => None
  | S fuel => if 0 <? i then depth_loop fuel (Z.shiftr i 1) (maxdepth + 1) else Some maxdepth
  end.

Definition qsort (malloc : Z -> Z -> bool) (a n : Z) : ARR A unit :=
  match depth_loop 65 n 0 with
  | Some maxdepth => introsort (S (Z.to_nat n)) malloc a n (maxdepth * 2)
  | None => out_of_fuel
  end.
End code.

(** ** Lookup and update *)

Section arrays.
Context {A : Type}.
Implicit Types (a : list A) (i j : Z) (x y : A).

Lemma elem_range i x a : elem i a = Some x -> 0 <= i < Z.of_nat (length a).
Proof.
  unfold elem. destruct (Z.leb_spec 0 i); [|done]. intros H1%lookup_lt_Some. lia.
Qed.

Lemma elem_some i a : 0 <= i < Z.of_nat (length a) -> exists x, elem i a = Some x.
Proof.
  intros H. unfold elem. rewrite (proj2 (Z.leb_le 0 i)) by lia. apply lookup_lt_is_Some_2. lia.
Qed.

Lemma length_upd i x a : length (upd i x a) = length a.
Proof. apply length_insert. Qed.

Lemma elem_upd i j x a : 0 <= i < Z.of_nat (length a) ->
  elem j (upd i x a) = if decide (i = j) then Some x else elem j a.
Proof.
  intros Hi. unfold elem, upd. destruct (decide (i = j)) as [<-|Hne].
  - rewrite (proj2 (Z.leb_le 0 i)) by lia. apply list_lookup_insert_eq. lia.
  - destruct (Z.leb_spec 0 j); [|done]. apply list_lookup_insert_ne. lia.
Qed.

Lemma elem_upd_eq i x a : 0 <= i < Z.of_nat (length a) -> elem i (upd i x a) = Some x.
Proof. intros Hi. by rewrite elem_upd, decide_True. Qed.

Lemma elem_upd_ne i j x a : i <> j -> 0 <= i < Z.of_nat (length a) -> elem j (upd i x a) = elem j a.
Proof. intros Hne Hi. by rewrite elem_upd, decide_False. Qed.

Lemma elem_ext a a' : (forall i, elem i a = elem i a') -> a = a'.
Proof.
  intros H. apply list_eq. intros n. specialize (H (Z.of_nat n)). unfold elem in H.
  rewrite (proj2 (Z.leb_le 0 (Z.of_nat n))), Nat2Z.id in H by lia. done.
Qed.

Lemma upd_id i x a : elem i a = Some x -> upd i x a = a.
Proof. unfold elem, upd. destruct (_ <=? _); [|done]. apply list_insert_id. Qed.

Lemma wp_fetch (Q : A -> list A -> Prop) i a :
  0 <= i < Z.of_nat (length a) -> (forall x, elem i a = Some x -> Q x a) -> wp (fetch i) Q a.
Proof.
  intros Hi HQ. destruct (elem_some i a Hi) as [x Hx]. unfold fetch. wp_steps.
  apply (wp_access _ x); [done|]. by apply HQ.
Qed.

Lemma wp_put (Q : unit -> list A -> Prop) i x a :
  0 <= i < Z.of_nat (length a) -> Q tt (upd i x a) -> wp (put i x) Q a.
Proof.
  intros Hi HQ. destruct (elem_some i a Hi) as [y Hy]. unfold put. wp_steps.
  by apply (wp_access _ y).
Qed.

(** ** Rearrangements of a range *)

(** [shuffled lo hi a a']: [a'] is a permutation of [a] that is equal to it outside
    [lo, hi). *)
Definition shuffled (lo hi : Z) (a a' : list A) : Prop :=
  a ≡ₚ a' /\ forall i, ~ lo <= i < hi -> elem i a' = elem i a.

Lemma shuffled_refl lo hi a : shuffled lo hi a a.
Proof. by split. Qed.

Lemma shuffled_trans lo hi a a' a'' : shuffled lo hi a a' -> shuffled lo hi a' a'' -> shuffled lo hi a a''.
Proof. intros [P E] [P' E']. split; [by etrans|]. intros i Hi. by rewrite E', E. Qed.

Lemma shuffled_weaken lo hi lo' hi' a a' :
  lo' <= lo -> hi <= hi' -> shuffled lo hi a a' -> shuffled lo' hi' a a'.
Proof. intros H1 H2 [P E]. split; [done|]. intros i Hi. apply E. lia. Qed.

Lemma shuffled_length lo hi a a' : shuffled lo hi a a' -> length a' = length a.
Proof. intros [P _]. symmetry. by apply Permutation_length. Qed.

(** An update exchanges one element for another. *)
Lemma upd_perm i x y a : elem i a = Some x -> y :: a ≡ₚ x :: upd i y a.
Proof.
  unfold elem, upd. destruct (0 <=? i); [|done]. intros H.
  rewrite insert_take_drop by by eapply lookup_lt_Some.
  rewrite <- (take_drop_middle a (Z.to_nat i) x H) at 1. rewrite <- !Permutation_middle.
  apply Permutation_swap.
Qed.

(** Moving the hole at [i] to [j]: [k] is the element that is taken out. *)
Lemma hole_moves i j k y a :
  i <> j -> 0 <= i < Z.of_nat (length a) -> elem j a = Some y ->
  upd i k a ≡ₚ upd j k (upd i y a).
Proof.
  intros Hne Hi Hj. destruct (elem_some i a Hi) as [x Hx].
  apply (Permutation_cons_inv (a := x)). rewrite <- (upd_perm i x k a Hx).
  apply (Permutation_cons_inv (a := y)).
  rewrite (perm_swap x y (upd j k (upd i y a))).
  rewrite <- (upd_perm j y k (upd i y a)) by by rewrite elem_upd_ne.
  rewrite (perm_swap k x). rewrite <- (upd_perm i x y a Hx). apply perm_swap.
Qed.

Lemma shuffled_swap lo hi i j x y a :
  lo <= i < hi -> lo <= j < hi -> elem i a = Some x -> elem j a = Some y ->
  shuffled lo hi a (upd j x (upd i y a)).
Proof.
  intros Hi Hj Hx Hy. pose proof (elem_range _ _ _ Hx). pose proof (elem_range _ _ _ Hy).
  destruct (decide (i = j)) as [<-|Hne].
  - assert (x = y) as <- by congruence. rewrite (upd_id i x a Hx), upd_id by done. by apply shuffled_refl.
  - split.
    + rewrite <- (hole_moves i j x y a Hne) by done. by rewrite upd_id.
    + intros k Hk. rewrite !elem_upd_ne by (rewrite ?length_upd; lia). done.
Qed.

Lemma wp_swap (Q : unit -> list A -> Prop) i j a :
  0 <= i < Z.of_nat (length a) -> 0 <= j < Z.of_nat (length a) ->
  (forall x y, elem i a = Some x -> elem j a = Some y -> Q tt (upd j x (upd i y a))) ->
  wp (swap i j) Q a.
Proof.
  intros Hi Hj HQ. unfold swap. wp_steps. apply wp_fetch; [done|]. intros x Hx. wp_steps.
  apply wp_fetch; [done|]. intros y Hy. wp_steps. apply wp_put; [done|]. wp_steps.
  apply wp_put; [by rewrite length_upd|]. by apply HQ.
Qed.

(** The elements of a range that was shuffled are those it had. *)
Lemma shuffled_range lo hi a a' i x :
  shuffled lo hi a a' -> 0 <= lo -> hi <= Z.of_nat (length a) -> lo <= i < hi -> elem i a' = Some x ->
  exists j, lo <= j < hi /\ elem j a = Some x.
Proof.
  intros S Hlo Hhi Hi Hx. pose proof (shuffled_length _ _ _ _ S) as HL. destruct S as [P E].
  assert (forall n, ~ lo <= Z.of_nat n < hi -> a' !! n = a !! n) as En.
  { intros n Hn. specialize (E (Z.of_nat n) Hn). unfold elem in E.
    by rewrite (proj2 (Z.leb_le 0 (Z.of_nat n))), Nat2Z.id in E by lia. }
  set (l := Z.to_nat lo). set (h := Z.to_nat hi).
  assert (take l a' = take l a) as Et.
  { apply list_eq. intros n. destruct (decide (n < l)%nat).
    - rewrite !lookup_take_lt by done. apply En. lia.
    - by rewrite !lookup_take_ge by lia. }
  assert (drop h a' = drop h a) as Ed.
  { apply list_eq. intros n. rewrite !lookup_drop. apply En. lia. }
  assert (forall b : list A, b = take l b ++ drop l (take h b) ++ drop h b) as Split.
  { intros b. rewrite <- (take_drop h b) at 1. rewrite <- (take_drop l (take h b)) at 1.
    rewrite take_take, Nat.min_l by lia. by rewrite app_assoc. }
  rewrite (Split a), (Split a'), Et, Ed in P. apply Permutation_app_inv_l, Permutation_app_inv_r in P.
  unfold elem in Hx. rewrite (proj2 (Z.leb_le 0 i)) in Hx by lia.
  assert (x ∈ drop l (take h a')) as Hin.
  { apply (list_elem_of_lookup_2 _ (Z.to_nat i - l)). rewrite lookup_drop, lookup_take_lt by lia.
    rewrite <- Hx. f_equal. lia. }
  rewrite <- P in Hin. apply list_elem_of_lookup_1 in Hin as [n Hn]. rewrite lookup_drop in Hn.
  assert (l + n < h)%nat.
  { destruct (decide (l + n < h)%nat); [done|]. by rewrite lookup_take_ge in Hn by lia. }
  rewrite lookup_take_lt in Hn by done. exists (Z.of_nat (l + n)). split; [lia|].
  unfold elem. rewrite (proj2 (Z.leb_le 0 _)), Nat2Z.id by lia. done.
Qed.

(** [holds P lo hi a]: the elements of the range satisfy [P]. *)
Definition holds (P : A -> Prop) (lo hi : Z) (a : list A) : Prop :=
  forall i x, lo <= i < hi -> elem i a = Some x -> P x.

Lemma holds_shuffled P lo hi a a' :
  0 <= lo -> hi <= Z.of_nat (length a) -> shuffled lo hi a a' -> holds P lo hi a -> holds P lo hi a'.
Proof.
  intros Hlo Hhi S H i x Hi Hx. destruct (shuffled_range lo hi a a' i x) as (j & Hj & E); try done. by eapply H.
Qed.

(** Outside a shuffled range nothing changes. *)
Lemma holds_outside P lo hi l h a a' :
  (h <= lo \/ hi <= l) -> shuffled lo hi a a' -> holds P l h a -> holds P l h a'.
Proof. intros D [_ E] H i x Hi Hx. rewrite E in Hx by lia. by eapply H. Qed.
End arrays.

(** ** Heaps *)

Section heap.
Context {A : Type} (compar : A -> A -> Z) {C : Comparator compar}.
Implicit Types (a : list A).

Definition le (x y : A) : Prop := compar x y <= 0.

Lemma le_refl x : le x x.
Proof. unfold le. pose proof (compar_flip x x). lia. Qed.

Lemma le_trans x y z : le x y -> le y z -> le x z.
Proof. apply compar_trans. Qed.

Lemma not_lt x y : ~ compar x y < 0 -> le y x.
Proof. unfold le. pose proof (compar_flip x y). lia. Qed.

Lemma lt_le x y : compar x y < 0 -> le x y.
Proof. unfold le. lia. Qed.

(** [a[i] <= a[j]], where both are elements *)
Definition ord a (i j : Z) : Prop := forall x y, elem i a = Some x -> elem j a = Some y -> le x y.

Definition childof (c p : Z) : Prop := c = 2 * p \/ c = 2 * p + 1.

Definition sorted a (lo hi : Z) : Prop := forall i j, lo <= i -> i <= j -> j < hi -> ord a i j.

(** The nodes [p >= l] are not less than their children, as far as [ok] asks for it. *)
Definition heap_but (ok : Z -> Z -> Prop) a (base n l : Z) : Prop :=
  forall p c, l <= p -> childof c p -> c <= n -> ok p c -> ord a (base + c) (base + p).

Definition heap a base n l : Prop := heap_but (fun _ _ => True) a base n l.

(** The nodes below [h] are not less than the parent of [h]. *)
Definition grand_ok a (base n l h : Z) : Prop :=
  forall g c, l <= g -> childof h g -> childof c h -> c <= n -> ord a (base + c) (base + g).

Lemma ord_refl a i : ord a i i.
Proof. intros x y Hx Hy. assert (x = y) as -> by congruence. apply le_refl. Qed.

Lemma ord_same a a' i j : elem i a' = elem i a -> elem j a' = elem j a -> ord a i j -> ord a' i j.
Proof. unfold ord. by intros -> ->. Qed.

(** The root of a heap is its largest element. *)
Lemma heap_root a base n :
  heap a base n 1 ->
  (forall i, 1 <= i <= n -> exists x, elem (base + i) a = Some x) ->
  forall i, 1 <= i <= n -> ord a (base + i) (base + 1).
Proof.
  intros H D i. induction i as [i IH] using (well_founded_induction (Z.lt_wf 0)). intros Hi. destruct (decide (i = 1)) as [->|]; [apply ord_refl|].
  pose proof (Z.div_mod i 2). pose proof (Z.mod_pos_bound i 2).
  intros x y Hx Hy. destruct (D (i / 2)) as [z Hz]; [lia|].
  apply (le_trans x z y); [|apply (IH (i / 2)); [lia|lia|done|done]].
  apply (H (i / 2) i); [lia|unfold childof; lia|lia|done|done|done].
Qed.

Section bounds.
Context (base n : Z) (Hbase : -1 <= base) (Hn : n < 2 ^ 62).

Definition in_array a : Prop := base + n < Z.of_nat (length a).

Lemma wp_larger_child (Q : Z -> list A -> Prop) c p a :
  in_array a -> c = 2 * p -> 1 <= p -> c <= n ->
  (forall c', childof c' p -> c' <= n ->
     (forall d, childof d p -> d <= n -> ord a (base + d) (base + c')) -> Q c' a) ->
  wp (larger_child compar base n c) Q a.
Proof.
  intros Ha Hc Hp Hcn HQ. unfold in_array in Ha. unfold larger_child. destruct (Z.ltb_spec c n).
  - wp_steps. apply wp_fetch; [lia|]. intros x Hx. wp_steps. apply wp_fetch; [lia|]. intros y Hy. wp_steps.
    destruct (Z.ltb_spec (compar x y) 0) as [L|L].
    + apply HQ; [unfold childof; lia|lia|]. intros d [-> | ->] Hd; [|replace (2 * p + 1) with (c + 1) by lia; apply ord_refl].
      intros x' y' Hx' Hy'. replace (base + 2 * p) with (base + c) in Hx' by lia.
      rewrite Z.add_assoc in Hy'. assert (x' = x) as -> by congruence. assert (y' = y) as -> by congruence. by apply lt_le.
    + apply HQ; [unfold childof; lia|lia|]. intros d [-> | ->] Hd; [replace (2 * p) with c by lia; apply ord_refl|].
      intros y' x' Hy' Hx'. replace (base + (2 * p + 1)) with (base + c + 1) in Hy' by lia.
      assert (x' = x) as -> by congruence. assert (y' = y) as -> by congruence. apply not_lt. lia.
  - wp_steps. apply HQ; [unfold childof; lia|lia|]. intros d [-> | ->] Hd; [replace (2 * p) with c by lia; apply ord_refl|lia].
Qed.

(** [CREATE]: the node [h] sinks to its place. *)
Lemma wp_CREATE (Q : unit -> list A -> Prop) l fuel h a0 a :
  1 <= l -> l <= h -> n < h + Z.of_nat fuel -> h <= n -> in_array a ->
  shuffled (base + 1) (base + n + 1) a0 a ->
  heap_but (fun p _ => p <> h) a base n l -> grand_ok a base n l h ->
  (forall a', in_array a' -> shuffled (base + 1) (base + n + 1) a0 a' -> heap a' base n l -> Q tt a') ->
  wp (CREATE compar fuel base n h) Q a.
Proof.
  revert h a. induction fuel as [|fuel IH]; intros h a Hl Hh Hf Hhn Ha S H G HQ; [lia|].
  cbn [CREATE]. rewrite uintw_small by lia.
  destruct (Z.ltb_spec n (h * 2)).
  { wp_steps. apply HQ; [done..|]. intros p c Hp Hc Hcn _.
    apply H; [done..|]. intros ->. unfold childof in Hc. lia. }
  wp_steps. apply (wp_larger_child _ _ h); [done|lia..|]. intros c Hc Hcn Hmax. unfold in_array in Ha.
  assert (2 * h <= c) as Hc2 by (unfold childof in Hc; lia).
  wp_steps. apply wp_fetch; [lia|]. intros x Hx. wp_steps. apply wp_fetch; [lia|]. intros y Hy. wp_steps.
  destruct (Z.leb_spec (compar x y) 0) as [L|L].
  { wp_steps. apply HQ; [done..|]. intros p d Hp Hd Hdn _. destruct (decide (p = h)) as [->|]; [|by apply H].
    intros x' y' Hx' Hy'. assert (y' = y) as -> by congruence. apply (le_trans _ x); [|done]. by apply (Hmax d). }
  wp_steps. apply wp_swap; [lia..|]. intros y' x' Hy' Hx'.
  assert (y' = y) as -> by congruence. assert (x' = x) as -> by congruence. clear Hy' Hx'.
  assert (forall i, elem (base + i) (upd (base + c) y (upd (base + h) x a)) =
            if decide (i = c) then Some y else if decide (i = h) then Some x else elem (base + i) a) as E.
  { intros i. rewrite !elem_upd by (rewrite ?length_upd; lia).
    destruct (decide (i = c)), (decide (i = h)), (decide (base + c = base + i)), (decide (base + h = base + i));
      try done; lia. }
  assert (le y x) as Lyx by (apply not_lt; lia).
  apply (IH c); [lia..| | | | |done].
  - unfold in_array. rewrite !length_upd. lia.
  - eapply shuffled_trans; [exact S|]. apply shuffled_swap; lia || done.
  - (* pairs whose parent is not [c] *)
    intros p d Hp Hd Hdn Hpc x1 x2. rewrite !E, (decide_False _ _ Hpc). unfold childof in Hd, Hc.
    destruct (decide (d = c)) as [->|Hdc].
    { rewrite decide_True by lia. intros E1 E2. simplify_eq. done. }
    destruct (decide (d = h)) as [->|Hdh].
    { rewrite decide_False by lia. intros E1 E2. simplify_eq. by apply (G p c). }
    destruct (decide (p = h)) as [->|Hph].
    { intros E1 E2. simplify_eq. by apply (Hmax d). }
    by apply (H p d).
  - intros g d Hg Hcg Hd Hdn x1 x2. unfold childof in *. assert (g = h) as -> by lia.
    rewrite !E. rewrite (decide_False (P := d = c)), (decide_False (P := d = h)), (decide_False (P := h = c)), decide_True by lia.
    intros E1 E2. simplify_eq. apply (H c d); [lia|unfold childof; lia|lia|lia|done|done].
Qed.

(** A heap with a hole at [h], into which [k] goes. *)
Record hole (a0 a : list A) (k : A) (h : Z) : Prop := {
  ho_range : 1 <= h <= n;
  ho_array : in_array a;
  ho_perm : shuffled (base + 1) (base + n + 1) a0 (upd (base + h) k a);
  ho_heap : heap_but (fun p c => p <> h /\ c <> h) a base n 1;
  ho_grand : grand_ok a base n 1 h;
}.

(** The contents after the hole moved from [h] to [j]. *)
Lemma hole_elem a h x i :
  1 <= h <= n -> in_array a ->
  elem (base + i) (upd (base + h) x a) = if decide (i = h) then Some x else elem (base + i) a.
Proof.
  unfold in_array. intros Hh Ha. rewrite elem_upd by lia.
  destruct (decide (i = h)), (decide (base + h = base + i)); done || lia.
Qed.

Lemma hole_perm a0 a k h j x :
  1 <= h <= n -> 1 <= j <= n -> h <> j -> in_array a -> elem (base + j) a = Some x ->
  shuffled (base + 1) (base + n + 1) a0 (upd (base + h) k a) ->
  shuffled (base + 1) (base + n + 1) a0 (upd (base + j) k (upd (base + h) x a)).
Proof.
  unfold in_array. intros Hh Hj Hne Ha Hx [P E]. split.
  - rewrite P. apply hole_moves; [lia|lia|done].
  - intros i Hi. rewrite <- E by done. rewrite !elem_upd_ne by (rewrite ?length_upd; lia). done.
Qed.

Lemma wp_select_down (Q : Z -> list A -> Prop) fuel a0 k h a :
  hole a0 a k h -> n < h + Z.of_nat fuel ->
  (forall h' a', hole a0 a' k h' -> n < 2 * h' -> Q h' a') ->
  wp (select_down compar fuel base n h) Q a.
Proof.
  revert h a. induction fuel as [|fuel IH]; intros h a [Hh Ha S H G] Hf HQ; [lia|].
  cbn [select_down]. rewrite uintw_small by lia.
  destruct (Z.ltb_spec n (h * 2)); [wp_steps; apply HQ; [done|lia]|].
  wp_steps. apply (wp_larger_child _ _ h); [done|lia..|]. intros c Hc Hcn Hmax.
  assert (2 * h <= c) as Hc2 by (unfold childof in Hc; lia). pose proof Ha as Hlen. unfold in_array in Hlen.
  wp_steps. unfold COPY. wp_steps. apply wp_fetch; [lia|]. intros x Hx. wp_steps. apply wp_put; [lia|].
  apply (IH c); [|lia|done]. split.
  - lia.
  - unfold in_array. by rewrite length_upd.
  - apply hole_perm; (done || lia).
  - intros p d Hp Hd Hdn [Hpc Hdc] x1 x2. rewrite !hole_elem by done. unfold childof in Hd, Hc.
    destruct (decide (d = h)) as [->|Hdh].
    { rewrite decide_False by lia. intros E1 E2. simplify_eq. by apply (G p c). }
    destruct (decide (p = h)) as [->|Hph].
    { intros E1 E2. simplify_eq. by apply (Hmax d). }
    by apply (H p d).
  - intros g d Hg Hcg Hd Hdn x1 x2. unfold childof in *. assert (g = h) as -> by lia.
    rewrite !hole_elem by done. rewrite (decide_False (P := d = h)), decide_True by lia.
    intros E1 E2. simplify_eq. apply (H c d); [lia|unfold childof; lia|lia|lia|done|done].
Qed.

(** Filling the hole with an element that fits there. *)
Lemma fill_hole a0 a k h :
  hole a0 a k h -> (forall c x, childof c h -> c <= n -> elem (base + c) a = Some x -> le x k) ->
  (forall g x, 1 <= g -> childof h g -> elem (base + g) a = Some x -> le k x) ->
  let a' := upd (base + h) k a in
  in_array a' /\ shuffled (base + 1) (base + n + 1) a0 a' /\ heap a' base n 1.
Proof.
  intros [Hh Ha S H G] Hdown Hup a'. split; [unfold in_array, a'; by rewrite length_upd|]. split; [done|].
  intros p d Hp Hd Hdn _ x1 x2. unfold a'. rewrite !hole_elem by done.
  destruct (decide (d = h)) as [->|Hdh].
  { unfold childof in Hd. rewrite decide_False by lia. intros E1 E2. simplify_eq. by apply (Hup p). }
  destruct (decide (p = h)) as [->|Hph].
  { intros E1 E2. simplify_eq. by apply (Hdown d). }
  by apply (H p d).
Qed.

Lemma wp_select_up (Q : unit -> list A -> Prop) fuel a0 k h a :
  hole a0 a k h -> (forall c x, childof c h -> c <= n -> elem (base + c) a = Some x -> le x k) ->
  h <= Z.of_nat fuel ->
  (forall a', in_array a' -> shuffled (base + 1) (base + n + 1) a0 a' -> heap a' base n 1 -> Q tt a') ->
  wp (select_up compar fuel base k h) Q a.
Proof.
  revert h a. induction fuel as [|fuel IH]; intros h a Ho Hdown Hf HQ; pose proof Ho as [Hh Ha S H G]; [lia|].
  cbn [select_up]. pose proof Ha as Hlen. unfold in_array in Hlen.
  destruct (Z.eqb_spec h 1) as [->|Hh1].
  { apply wp_put; [lia|]. destruct (fill_hole a0 a k 1 Ho Hdown) as (?&?&?); [|by apply HQ].
    intros g x Hg Hc. unfold childof in Hc. lia. }
  pose proof (Z.div_mod h 2). pose proof (Z.mod_pos_bound h 2). set (q := h / 2) in *.
  assert (childof h q) as Hhq by (unfold childof; lia).
  wp_steps. apply wp_fetch; [lia|]. intros x Hx. destruct (Z.ltb_spec (compar k x) 0) as [L|L].
  { apply wp_put; [lia|]. destruct (fill_hole a0 a k h Ho Hdown) as (?&?&?); [|by apply HQ].
    intros g y Hg Hc Hy. assert (g = q) as -> by (unfold childof in *; lia).
    assert (y = x) as -> by congruence. by apply lt_le. }
  assert (le x k) as Lxk by (apply not_lt; lia).
  wp_steps. unfold COPY. wp_steps. apply wp_fetch; [lia|]. intros x' Hx'. assert (x' = x) as -> by congruence.
  wp_steps. apply wp_put; [lia|].
  assert (forall c y, childof c q -> c <= n -> elem (base + c) (upd (base + h) x a) = Some y -> le y x) as Hqc.
  { intros c y Hc Hcn. rewrite hole_elem by done. destruct (decide (c = h)) as [->|].
    - intros E. simplify_eq. apply le_refl.
    - intros Hy. apply (H q c); [lia|done|lia|lia|done|done]. }
  apply (IH q); [split| |lia|done].
  - lia.
  - unfold in_array. by rewrite length_upd.
  - apply hole_perm; (done || lia).
  - intros p d Hp Hd Hdn [Hpc Hdc] x1 x2. rewrite !hole_elem by done.
    destruct (decide (d = h)) as [->|Hdh]; [unfold childof in *; lia|].
    destruct (decide (p = h)) as [->|Hph]; [|by apply (H p d)].
    intros E1 E2. simplify_eq. apply (G q d); [lia|done..].
  - intros g d Hg Hcg Hd Hdn x1 x2 E1 E2. apply (le_trans _ x); [by apply (Hqc d)|].
    rewrite hole_elem in E2 by done. rewrite decide_False in E2 by (unfold childof in *; lia).
    apply (H g q); [lia|done|lia|unfold childof in *; lia|done|done].
  - intros c y Hc Hcn Hy. apply (le_trans _ x); [by apply (Hqc c)|done].
Qed.
Lemma wp_SELECT (Q : unit -> list A -> Prop) fuel a0 k a :
  hole a0 a k 1 -> n <= Z.of_nat fuel ->
  (forall a', in_array a' -> shuffled (base + 1) (base + n + 1) a0 a' -> heap a' base n 1 -> Q tt a') ->
  wp (SELECT compar fuel base n k) Q a.
Proof.
  intros Ho Hf HQ. unfold SELECT. wp_steps. apply (wp_select_down _ fuel a0 k 1 a Ho); [lia|].
  intros h a1 Ho1 Hleaf. pose proof (ho_range _ _ _ _ Ho1).
  apply (wp_select_up _ fuel a0 k h a1 Ho1); [|lia|done].
  intros c x Hc Hcn. unfold childof in Hc. lia.
Qed.

Lemma wp_create_heap (Q : unit -> list A -> Prop) l fuel a0 a :
  Z.of_nat l <= n -> n <= Z.of_nat fuel -> in_array a -> shuffled (base + 1) (base + n + 1) a0 a ->
  heap a base n (Z.of_nat l + 1) ->
  (forall a', in_array a' -> shuffled (base + 1) (base + n + 1) a0 a' -> heap a' base n 1 -> Q tt a') ->
  wp (create_heap compar l fuel base n) Q a.
Proof.
  revert a. induction l as [|l IH]; intros a Hl Hf Ha S H HQ; [by apply wp_ret, HQ|].
  cbn [create_heap]. wp_steps. apply (wp_CREATE _ (Z.of_nat (Datatypes.S l)) fuel _ a0 a); try done; try lia.
  - intros p c Hp Hc Hcn Hne. apply H; [lia|done..].
  - intros g c Hg Hcg Hc Hcn. unfold childof in Hcg. lia.
  - intros a' Ha' S' H'. apply IH; [lia|done..| |done].
    by replace (Z.of_nat l + 1) with (Z.of_nat (Datatypes.S l)) by lia.
Qed.
End bounds.

(** One round of the second loop: the top goes to its final place [m]. *)
Lemma top_hole base m a k top :
  -1 <= base -> 2 <= m -> base + m < Z.of_nat (length a) -> heap a base m 1 ->
  elem (base + m) a = Some k -> elem (base + 1) a = Some top ->
  let a1 := upd (base + m) top a in
  shuffled (base + 1) (base + m + 1) a (upd (base + 1) k a1) /\
  hole base (m - 1) (upd (base + 1) k a1) a1 k 1.
Proof.
  intros Hb Hm Ha H Hk Ht a1. split; [apply shuffled_swap; done || lia|]. split.
  - lia.
  - unfold in_array, a1. rewrite length_upd. lia.
  - apply shuffled_refl.
  - intros p c Hp Hc Hcn [Hp1 Hc1]. unfold a1. assert (p <= c) by (unfold childof in Hc; lia).
    apply (ord_same a); [by rewrite elem_upd_ne by lia..|]. apply H; [lia|done|lia|done].
  - intros g c Hg Hcg. unfold childof in Hcg. lia.
Qed.

(** The part behind [m] is sorted and not less than the part up to [m]. *)
Definition tail_sorted a base m N : Prop :=
  (forall i j, 1 <= i <= m -> m < j <= N -> ord a (base + i) (base + j)) /\
  sorted a (base + m + 1) (base + N + 1).

Lemma tail_sorted_step base m N a a1 a2 top :
  -1 <= base -> 2 <= m <= N -> base + N < Z.of_nat (length a) -> heap a base m 1 ->
  tail_sorted a base m N -> elem (base + 1) a = Some top ->
  shuffled (base + 1) (base + m + 1) a a1 -> elem (base + m) a1 = Some top ->
  shuffled (base + 1) (base + (m - 1) + 1) a1 a2 -> tail_sorted a2 base (m - 1) N.
Proof.
  intros Hb Hm HN H [T1 T2] Ht S1 Em S2.
  assert (forall j, m < j -> elem (base + j) a2 = elem (base + j) a) as Eout.
  { intros j Hj. destruct S1 as [_ S1], S2 as [_ S2]. rewrite S2, S1 by lia. done. }
  assert (elem (base + m) a2 = Some top) as Em2.
  { destruct S2 as [_ S2]. rewrite S2 by lia. done. }
  assert (forall i x, 1 <= i <= m -> elem (base + i) a1 = Some x ->
            exists i', 1 <= i' <= m /\ elem (base + i') a = Some x) as R1.
  { intros i x Hi Hx. destruct (shuffled_range _ _ a a1 (base + i) x S1 ltac:(lia) ltac:(lia) ltac:(lia) Hx) as (j & Hj & E).
    exists (j - base). split; [lia|]. by replace (base + (j - base)) with j by lia. }
  assert (forall i x, 1 <= i <= m -> elem (base + i) a = Some x -> le x top) as Htop.
  { intros i x Hi Hx. apply (heap_root a base m H) with (i := i); [|done|done|done].
    intros i' Hi'. apply elem_some. lia. }
  split.
  - intros i j Hi Hj x y Hx Hy. pose proof (shuffled_length _ _ _ _ S1).
    destruct (shuffled_range _ _ a1 a2 (base + i) x S2 ltac:(lia) ltac:(lia) ltac:(lia) Hx) as (i1 & Hi1 & E1).
    replace i1 with (base + (i1 - base)) in E1 by lia.
    destruct (R1 (i1 - base) x ltac:(lia) E1) as (i2 & Hi2 & E2).
    destruct (decide (j = m)) as [->|].
    + assert (y = top) as -> by congruence. apply (Htop i2); [lia|done].
    + rewrite Eout in Hy by lia. apply (T1 i2 j); [lia|lia|done|done].
  - intros i j Hi Hij Hj x y Hx Hy. replace i with (base + (i - base)) in Hx by lia.
    replace j with (base + (j - base)) in Hy by lia.
    destruct (decide (i - base = m)) as [E|].
    + rewrite E in Hx. assert (x = top) as -> by congruence. destruct (decide (j - base = m)) as [E'|].
      * rewrite E' in Hy. assert (y = top) as -> by congruence. apply le_refl.
      * rewrite Eout in Hy by lia. apply (T1 1 (j - base)); [lia|lia|done|done].
    + rewrite Eout in Hx, Hy by lia. eapply T2; [| | |done|done]; lia.
Qed.

Lemma take_top_step m fuel base :
  take_top compar (S (S m)) fuel base =
    (k ← fetch (base + Z.of_nat (S (S m)));
     COPY (base + Z.of_nat (S (S m))) (base + 1);;
     SELECT compar fuel base (Z.of_nat (S m)) k;;
     take_top compar (S m) fuel base).
Proof. done. Qed.

Lemma wp_take_top (Q : unit -> list A -> Prop) base N m fuel a0 a :
  -1 <= base -> N < 2 ^ 62 -> Z.of_nat m <= N <= Z.of_nat fuel -> base + N < Z.of_nat (length a) ->
  shuffled (base + 1) (base + N + 1) a0 a -> heap a base (Z.of_nat m) 1 -> tail_sorted a base (Z.of_nat m) N ->
  (forall a', shuffled (base + 1) (base + N + 1) a0 a' -> sorted a' (base + 1) (base + N + 1) -> Q tt a') ->
  wp (take_top compar m fuel base) Q a.
Proof.
  revert a. induction m as [|m IH]; intros a Hb HN Hm Ha S H T HQ.
  { apply wp_ret, HQ; [done|]. destruct T as [_ T]. replace (base + 1) with (base + Z.of_nat 0 + 1) by lia. exact T. }
  destruct m as [|m].
  { apply wp_ret, HQ; [done|]. destruct T as [T1 T2]. intros i j Hi Hij Hj x y Hx Hy.
    destruct (decide (i = base + 1)) as [->|]; [|apply (T2 i j); done || lia].
    destruct (decide (j = base + 1)) as [->|]; [simplify_eq; apply le_refl|].
    apply (T1 1 (j - base)); [lia|lia|done|]. by replace (base + (j - base)) with j by lia. }
  set (M := Z.of_nat (Datatypes.S (Datatypes.S m))) in *. assert (Z.of_nat (Datatypes.S m) = M - 1) as EM by lia.
  rewrite take_top_step. fold M. rewrite EM. wp_steps. apply wp_fetch; [lia|]. intros k Hk. wp_steps. unfold COPY. wp_steps.
  apply wp_fetch; [lia|]. intros top Ht. wp_steps. apply wp_put; [lia|]. wp_steps.
  destruct (top_hole base M a k top) as [S1 Ho]; try done; try lia.
  apply (wp_SELECT base (M - 1) ltac:(lia) ltac:(lia) _ _ _ _ _ Ho); [lia|].
  intros a2 Ha2 S2 H2. pose proof (shuffled_length _ _ _ _ S1) as L1. pose proof (shuffled_length _ _ _ _ S2) as L2.
  apply IH; [done|done|lia|lia| | | |done].
  - eapply shuffled_trans; [exact S|]. eapply shuffled_trans; eapply shuffled_weaken; [| |exact S1| | |exact S2]; lia.
  - by rewrite EM.
  - rewrite EM. eapply tail_sorted_step; [done| | |exact H|done|exact Ht|exact S1| |exact S2]; [lia|lia|].
    rewrite elem_upd_ne, elem_upd_eq by (rewrite ?length_upd; lia). done.
Qed.

(** Sorted rearrangements of the [n] elements from [lo]. *)
Definition sorts (lo n : Z) a a' : Prop := shuffled lo (lo + n) a a' /\ sorted a' lo (lo + n).

Lemma sorts_small lo n a : n <= 1 -> sorts lo n a a.
Proof.
  intros Hn. split; [apply shuffled_refl|]. intros i j Hi Hij Hj. assert (i = j) as -> by lia. apply ord_refl.
Qed.

Lemma wp_kheapsort (Q : Z -> list A -> Prop) malloc lo n size a :
  0 <= lo -> lo + n <= Z.of_nat (length a) -> n < 2 ^ 62 -> size <> 0 ->
  (malloc = true \/ n <= 1 -> forall a', sorts lo n a a' -> Q 0 a') ->
  (malloc = false -> 1 < n -> Q (-1) a) ->
  wp (kheapsort compar malloc lo n size) Q a.
Proof.
  intros Hlo Ha Hn Hs HQ HF. unfold kheapsort. destruct (Z.leb_spec n 1).
  { apply wp_ret, HQ; [by right|by apply sorts_small]. }
  rewrite (proj2 (Z.eqb_neq _ _)) by done. destruct malloc; cbn [negb]; [|by apply wp_ret, HF].
  pose proof (Z.div_mod n 2). pose proof (Z.mod_pos_bound n 2).
  wp_steps. apply (wp_create_heap (lo - 1) n ltac:(lia) Hn _ _ _ a); [lia|lia|unfold in_array; lia|apply shuffled_refl| |].
  { intros p c Hp Hc Hcn _. unfold childof in Hc. lia. }
  intros a1 Ha1 S1 Hheap. wp_steps. unfold in_array in Ha1.
  apply (wp_take_top _ (lo - 1) n _ _ a a1); try done; try lia.
  - by rewrite Z2Nat.id by lia.
  - rewrite Z2Nat.id by lia. split; [lia|]. intros i j Hi Hij Hj. lia.
  - intros a2 S2 T2. wp_steps. apply HQ; [by left|]. split.
    + by replace lo with (lo - 1 + 1) by lia; replace (lo - 1 + 1 + n) with (lo - 1 + n + 1) by lia.
    + by replace lo with (lo - 1 + 1) by lia; replace (lo - 1 + 1 + n) with (lo - 1 + n + 1) by lia.
Qed.
End heap.

(** ** Introsort *)

Section introsort.
Context {A : Type} (compar : A -> A -> Z) {C : Comparator compar}.
Implicit Types (a : list A) (v x y : A).

Local Abbreviation le := (le compar).
Local Abbreviation ord := (ord compar).
Local Abbreviation sorted := (sorted compar).
Local Abbreviation sorts := (sorts compar).

Definition lt_v v x : Prop := compar x v < 0.
Definition eq_v v x : Prop := compar x v = 0.
Definition gt_v v x : Prop := 0 < compar x v.

(** *** Insertion sort *)

Lemma wp_insert_down (Q : unit -> list A -> Prop) n lo hi a0 a :
  0 <= lo -> lo + Z.of_nat n < hi -> hi <= Z.of_nat (length a) -> shuffled lo hi a0 a ->
  (forall i j, lo <= i -> i <= j -> j < hi -> j <> lo + Z.of_nat n -> ord a i j) ->
  (forall a', shuffled lo hi a0 a' -> sorted a' lo hi -> Q tt a') ->
  wp (insert_down compar n lo) Q a.
Proof.
  revert a. induction n as [|n IH]; intros a Hlo Hn Hhi S H HQ.
  { apply wp_ret, HQ; [done|]. intros i j Hi Hij Hj. destruct (decide (j = lo + Z.of_nat 0)) as [->|]; [|by apply H].
    assert (i = lo + Z.of_nat 0) as -> by lia. by apply ord_refl. }
  cbn [insert_down]. set (p := lo + Z.of_nat (Datatypes.S n)) in *. assert (lo + Z.of_nat n = p - 1) as Ep by lia.
  wp_steps. apply wp_fetch; [lia|]. intros x Hx. wp_steps. apply wp_fetch; [lia|]. intros y Hy.
  destruct (Z.ltb_spec 0 (compar x y)) as [L|L].
  - wp_steps. apply wp_swap; [lia..|]. intros y' x' Hy' Hx'.
    assert (y' = y) as -> by congruence. assert (x' = x) as -> by congruence.
    assert (le y x) as Lyx by (unfold Sort.le; pose proof (compar_flip x y); lia).
    apply IH; [lia|lia|by rewrite !length_upd|eapply shuffled_trans; [exact S|apply shuffled_swap; done || lia]| |done].
    rewrite Ep. intros i j Hi Hij Hj Hne z w. rewrite !elem_upd by (rewrite ?length_upd; lia).
    destruct (decide (p - 1 = j)); [lia|]. destruct (decide (p = j)) as [<-|].
    + destruct (decide (p - 1 = i)); [by intros [= <-] [= <-]|].
      destruct (decide (p = i)) as [<-|]; [intros [= <-] [= <-]; by apply le_refl|].
      intros Hz [= <-]. apply (H i (p - 1)); done || lia.
    + destruct (decide (p - 1 = i)) as [<-|]; [intros [= <-] Hw; apply (H p j); done || lia|].
      destruct (decide (p = i)) as [<-|]; [intros [= <-] Hw; apply (H (p - 1) j); done || lia|].
      intros Hz Hw. apply (H i j); done || lia.
  - wp_steps. apply HQ; [done|]. intros i j Hi Hij Hj. destruct (decide (j = p)) as [->|]; [|by apply H].
    intros z w Hz Hw. assert (w = y) as -> by congruence. destruct (decide (i = p)) as [->|].
    { assert (z = y) as -> by congruence. by apply le_refl. }
    apply (compar_trans z x y); [|lia]. apply (H i (p - 1)); done || lia.
Qed.

Lemma wp_insertion_sort (Q : unit -> list A -> Prop) n i lo a0 a :
  0 <= lo -> lo + Z.of_nat (n + i) <= Z.of_nat (length a) ->
  shuffled lo (lo + Z.of_nat (n + i)) a0 a -> sorted a lo (lo + Z.of_nat i) ->
  (forall a', sorts lo (Z.of_nat (n + i)) a0 a' -> Q tt a') ->
  wp (insertion_sort compar n i lo) Q a.
Proof.
  revert i a. induction n as [|n IH]; intros i a Hlo Hn S H HQ; [by apply wp_ret, HQ|].
  cbn [insertion_sort]. wp_steps.
  apply (wp_insert_down _ i lo (lo + Z.of_nat i + 1) a a); [lia|lia|lia|apply shuffled_refl| |].
  { intros j k Hj Hjk Hk Hne. apply H; lia. }
  intros a' S' H'. apply IH; [lia| | | |].
  - rewrite (shuffled_length _ _ _ _ S'). lia.
  - eapply shuffled_trans; eapply shuffled_weaken; [| |exact S| | |exact S']; lia.
  - by replace (lo + Z.of_nat (Datatypes.S i)) with (lo + Z.of_nat i + 1) by lia.
  - replace (Z.of_nat (n + Datatypes.S i)) with (Z.of_nat (Datatypes.S n + i)) by lia. done.
Qed.

(** *** The pivot *)

Lemma wp_med3 (Q : Z -> list A -> Prop) i j k a :
  0 <= i < Z.of_nat (length a) -> 0 <= j < Z.of_nat (length a) -> 0 <= k < Z.of_nat (length a) ->
  Q i a -> Q j a -> Q k a -> wp (med3 compar i j k) Q a.
Proof.
  intros Hi Hj Hk Qi Qj Qk. unfold med3. wp_steps. apply wp_fetch; [done|]. intros x Hx. wp_steps.
  apply wp_fetch; [done|]. intros y Hy. destruct (compar x y <? 0); wp_steps.
  all: apply wp_fetch; [done|]; intros y' Hy'; wp_steps; apply wp_fetch; [done|]; intros z Hz.
  - destruct (compar y' z <? 0); [by apply wp_ret|]. wp_steps. apply wp_fetch; [done|]. intros x' Hx'. wp_steps.
    apply wp_fetch; [done|]. intros z' Hz'. wp_steps. by destruct (compar x' z' <? 0).
  - destruct (0 <? compar y' z); [by apply wp_ret|]. wp_steps. apply wp_fetch; [done|]. intros x' Hx'. wp_steps.
    apply wp_fetch; [done|]. intros z' Hz'. wp_steps. by destruct (compar x' z' <? 0).
Qed.

Lemma wp_pivot (Q : Z -> list A -> Prop) lo n a :
  0 <= lo -> 7 <= n -> lo + n <= Z.of_nat (length a) ->
  (forall p, lo <= p < lo + n -> Q p a) -> wp (pivot compar lo n) Q a.
Proof.
  intros Hlo Hn Ha HQ. unfold pivot. pose proof (Z.div_mod n 2). pose proof (Z.mod_pos_bound n 2).
  destruct (Z.ltb_spec 7 n); [|apply wp_ret, HQ; lia]. apply wp_bind.
  enough (forall Q' : Z * Z * Z -> list A -> Prop,
    (forall i j k, lo <= i < lo + n -> lo <= j < lo + n -> lo <= k < lo + n -> Q' (i, j, k) a) ->
    wp (if 40 <? n then
          pl ← med3 compar lo (lo + n / 8) (lo + 2 * (n / 8));
          pm ← med3 compar (lo + n / 2 - n / 8) (lo + n / 2) (lo + n / 2 + n / 8);
          pn ← med3 compar (lo + (n - 1) - 2 * (n / 8)) (lo + (n - 1) - n / 8) (lo + (n - 1));
          mret (pl, pm, pn)
        else mret (lo, lo + n / 2, lo + (n - 1))) Q' a) as Hsel.
  { apply Hsel. intros i j k Hi Hj Hk. apply wp_med3; [lia..| | |]; by apply HQ. }
  intros Q' HQ'. destruct (Z.ltb_spec 40 n); [|apply wp_ret, HQ'; lia].
  pose proof (Z.div_mod n 8). pose proof (Z.mod_pos_bound n 8). set (s := n / 8) in *. set (h := n / 2) in *.
  assert (forall (R : Z -> list A -> Prop) i j k, lo <= i < lo + n -> lo <= j < lo + n -> lo <= k < lo + n ->
    (forall p, lo <= p < lo + n -> R p a) -> wp (med3 compar i j k) R a) as M.
  { intros R i j k Hi Hj Hk HR. apply wp_med3; [lia..| | |]; by apply HR. }
  wp_steps. apply M; [lia..|]. intros p1 ?. wp_steps. apply M; [lia..|]. intros p2 ?. wp_steps.
  apply M; [lia..|]. intros p3 ?. wp_steps. by apply HQ'.
Qed.

(** *** The partition *)

(** The segments of the range of [n] elements from [lo] during the partition: [v],
    equal, less, unknown, greater, equal. *)
Record parting (a0 : list A) v lo n a (pa pb pc pd : Z) : Prop := {
  pt_range : 0 <= lo /\ lo + 1 <= pa <= pb /\ pb <= pc + 1 /\ pc <= pd <= lo + n - 1;
  pt_array : lo + n <= Z.of_nat (length a);
  pt_perm : shuffled lo (lo + n) a0 a;
  pt_pivot : elem lo a = Some v;
  pt_eq : holds (eq_v v) (lo + 1) pa a;
  pt_lt : holds (lt_v v) pa pb a;
  pt_gt : holds (gt_v v) (pc + 1) (pd + 1) a;
  pt_eq' : holds (eq_v v) (pd + 1) (lo + n) a;
}.

Lemma swapped_elem i j x y a k :
  0 <= i < Z.of_nat (length a) -> 0 <= j < Z.of_nat (length a) ->
  elem k (upd j x (upd i y a)) = if decide (j = k) then Some x else if decide (i = k) then Some y else elem k a.
Proof. intros Hi Hj. by rewrite !elem_upd by (rewrite ?length_upd; lia). Qed.

(** A segment of the array after two of its elements were exchanged. *)
Lemma holds_swapped P lo hi i j x y a :
  0 <= i < Z.of_nat (length a) -> 0 <= j < Z.of_nat (length a) ->
  (lo <= j < hi -> P x) -> (lo <= i < hi -> i <> j -> P y) ->
  (forall k z, lo <= k < hi -> k <> i -> k <> j -> elem k a = Some z -> P z) ->
  holds P lo hi (upd j x (upd i y a)).
Proof.
  intros Hi Hj Hx Hy Hr k z Hk. rewrite swapped_elem by done.
  destruct (decide (j = k)) as [<-|]; [intros [= <-]; by apply Hx|].
  destruct (decide (i = k)) as [<-|]; [intros [= <-]; by apply Hy|]. by apply Hr.
Qed.

Lemma wp_scan_left (Q : Z * Z -> list A -> Prop) fuel a0 v lo n a pa pb pc pd :
  parting a0 v lo n a pa pb pc pd -> pc - pb + 1 < Z.of_nat fuel ->
  (forall a' pa' pb', parting a0 v lo n a' pa' pb' pc pd -> pb <= pb' ->
     (pb' <= pc -> exists x, elem pb' a' = Some x /\ gt_v v x) -> Q (pa', pb') a') ->
  wp (scan_left compar fuel lo pa pb pc) Q a.
Proof.
  revert a pa pb. induction fuel as [|fuel IH]; intros a pa pb I Hf HQ; pose proof I as [R L S V E1 T1 G1 E2]; [lia|].
  cbn [scan_left]. destruct (Z.leb_spec pb pc); [|apply wp_ret, HQ; [done|lia|lia]].
  wp_steps. apply wp_fetch; [lia|]. intros x Hx. wp_steps. apply wp_fetch; [lia|]. intros v' Hv'.
  assert (v' = v) as -> by congruence. clear Hv'. destruct (Z.leb_spec (compar x v) 0) as [Hle|Hgt].
  2: { apply wp_ret, HQ; [done|lia|]. intros _. exists x. split; [done|]. unfold gt_v. lia. }
  destruct (Z.eqb_spec (compar x v) 0) as [He|Hne].
  - wp_steps. apply wp_swap; [lia..|]. intros y x' Hy Hx'. assert (x' = x) as -> by congruence. clear Hx'.
    apply IH; [|lia|intros; apply HQ; done || lia]. split; [lia|by rewrite !length_upd| | | | | |].
    + eapply shuffled_trans; [exact S|]. apply shuffled_swap; done || lia.
    + rewrite !elem_upd_ne by (rewrite ?length_upd; lia). done.
    + apply holds_swapped; [lia..| | |].
      * intros Hk. assert (y = x) as -> by (replace pb with pa in Hx by lia; congruence). done.
      * done.
      * intros k z Hk Hk1 Hk2. apply E1. lia.
    + apply holds_swapped; [lia..| |lia|].
      * intros Hk. apply (T1 pa); [lia|done].
      * intros k z Hk Hk1 Hk2. apply T1. lia.
    + apply holds_swapped; [lia..|]. intros k z Hk _ _. by apply G1.
    + apply holds_swapped; [lia..|]. intros k z Hk _ _. by apply E2.
  - apply IH; [|lia|intros; apply HQ; done || lia]. split; try done; [lia|].
    intros k z Hk Hz. destruct (decide (k = pb)) as [->|]; [|apply (T1 k); done || lia].
    assert (z = x) as -> by congruence. unfold lt_v. lia.
Qed.

Lemma wp_scan_right (Q : Z * Z -> list A -> Prop) fuel a0 v lo n a pa pb pc pd :
  parting a0 v lo n a pa pb pc pd -> pc - pb + 1 < Z.of_nat fuel ->
  (forall a' pc' pd', parting a0 v lo n a' pa pb pc' pd' -> pc' <= pc ->
     (pb <= pc' -> elem pb a' = elem pb a /\ exists x, elem pc' a' = Some x /\ lt_v v x) -> Q (pc', pd') a') ->
  wp (scan_right compar fuel lo pb pc pd) Q a.
Proof.
  revert a pc pd. induction fuel as [|fuel IH]; intros a pc pd I Hf HQ; pose proof I as [R L S V E1 T1 G1 E2]; [lia|].
  cbn [scan_right]. destruct (Z.leb_spec pb pc); [|apply wp_ret, HQ; [done|lia|lia]].
  wp_steps. apply wp_fetch; [lia|]. intros x Hx. wp_steps. apply wp_fetch; [lia|]. intros v' Hv'.
  assert (v' = v) as -> by congruence. clear Hv'. destruct (Z.leb_spec 0 (compar x v)) as [Hge|Hlt].
  2: { apply wp_ret, HQ; [done|lia|]. intros _. split; [done|]. by exists x. }
  destruct (Z.eqb_spec (compar x v) 0) as [He|Hne].
  - wp_steps. apply wp_swap; [lia..|]. intros x' y Hx' Hy. assert (x' = x) as -> by congruence. clear Hx'.
    apply IH; [|lia|].
    2: { intros a' pc' pd' I' Hpc' Hlt. apply HQ; [done|lia|]. intros Hpb. destruct (Hlt Hpb) as [-> ?]. split; [|done].
         rewrite !elem_upd_ne by (rewrite ?length_upd; lia). done. }
    split; [lia|by rewrite !length_upd| | | | | |].
    + eapply shuffled_trans; [exact S|]. apply shuffled_swap; done || lia.
    + rewrite !elem_upd_ne by (rewrite ?length_upd; lia). done.
    + apply holds_swapped; [lia..|]. intros k z Hk _ _. by apply E1.
    + apply holds_swapped; [lia..|]. intros k z Hk _ _. by apply T1.
    + apply holds_swapped; [lia..| | |].
      * lia.
      * intros Hk Hk1. apply (G1 pd); [lia|done].
      * intros k z Hk Hk1 Hk2. apply G1. lia.
    + apply holds_swapped; [lia..|done| |].
      * intros Hk Hk1. lia.
      * intros k z Hk Hk1 Hk2. apply E2. lia.
  - apply IH; [|lia|intros; apply HQ; done || lia]. split; try done; [lia|].
    intros k z Hk Hz. destruct (decide (k = pc)) as [->|]; [|apply (G1 k); done || lia].
    assert (z = x) as -> by congruence. unfold gt_v. lia.
Qed.

Lemma wp_partition (Q : Z * Z * Z * Z -> list A -> Prop) fuel fuel' a0 v lo n a pa pb pc pd :
  parting a0 v lo n a pa pb pc pd -> pc - pb + 1 < Z.of_nat fuel -> n < Z.of_nat fuel' ->
  (forall a' pa' pb' pc' pd', parting a0 v lo n a' pa' pb' pc' pd' -> pb' = pc' + 1 -> Q (pa', pb', pc', pd') a') ->
  wp (partition compar fuel fuel' lo pa pb pc pd) Q a.
Proof.
  revert a pa pb pc pd. induction fuel as [|fuel IH]; intros a pa pb pc pd I Hf Hf' HQ;
    pose proof (pt_range _ _ _ _ _ _ _ _ _ I); [lia|].
  cbn [partition]. wp_steps. apply (wp_scan_left _ _ a0 v lo n a pa pb pc pd I); [lia|].
  intros a1 pa1 pb1 I1 Hpb1 Hgt. wp_steps. pose proof (pt_range _ _ _ _ _ _ _ _ _ I1).
  apply (wp_scan_right _ _ a0 v lo n a1 pa1 pb1 pc pd I1); [lia|]. intros a2 pc1 pd1 I2 Hpc1 Hlt.
  pose proof I2 as [R L S V E1 T1 G1 E2]. destruct (Z.ltb_spec pc1 pb1); [apply wp_ret, HQ; [done|lia]|].
  destruct Hlt as (Epb & x & Hx & Lx); [lia|]. destruct Hgt as (y & Hy & Gy); [lia|]. rewrite <- Epb in Hy.
  assert (pb1 <> pc1) by (intros ->; assert (x = y) as -> by congruence; unfold lt_v, gt_v in *; lia).
  wp_steps. apply wp_swap; [lia..|]. intros y' x' Hy' Hx'.
  assert (y' = y) as -> by congruence. assert (x' = x) as -> by congruence.
  apply IH; [|lia|done|done]. split; [lia|by rewrite !length_upd| | | | | |].
  - eapply shuffled_trans; [exact S|]. apply shuffled_swap; done || lia.
  - rewrite !elem_upd_ne by (rewrite ?length_upd; lia). done.
  - apply holds_swapped; [lia..|]. intros k z Hk _ _. by apply E1.
  - apply holds_swapped; [lia..|done|]. intros k z Hk Hk1 Hk2. apply T1. lia.
  - apply holds_swapped; [lia..|done|lia|]. intros k z Hk Hk1 Hk2. apply G1. lia.
  - apply holds_swapped; [lia..|]. intros k z Hk _ _. by apply E2.
Qed.

(** *** Moving the equal elements to the middle *)

(** Exchange of two disjoint blocks of [n] elements. *)
Lemma wp_vecswap (Q : unit -> list A -> Prop) n i j lo hi a0 a :
  0 <= lo <= i -> i + Z.of_nat n <= j -> j + Z.of_nat n <= hi -> hi <= Z.of_nat (length a) -> shuffled lo hi a0 a ->
  (forall a', shuffled lo hi a0 a' ->
     (forall k, elem k a' = if decide (i <= k < i + Z.of_nat n) then elem (k - i + j) a
                            else if decide (j <= k < j + Z.of_nat n) then elem (k - j + i) a else elem k a) ->
     Q tt a') ->
  wp (vecswap i j n) Q a.
Proof.
  revert i j a. induction n as [|n IH]; intros i j a Hi Hj Hh Ha S HQ.
  { apply wp_ret, HQ; [done|]. intros k. by rewrite !decide_False by lia. }
  cbn [vecswap]. wp_steps. apply wp_swap; [lia..|]. intros x y Hx Hy.
  apply IH; [lia|lia|lia|by rewrite !length_upd|eapply shuffled_trans; [exact S|apply shuffled_swap; done || lia]|].
  intros a' S' E. apply HQ; [done|]. intros k. rewrite E, !swapped_elem by lia.
  destruct (decide (k = i)) as [->|].
  { rewrite decide_False, decide_False, decide_False, decide_True, decide_True by lia.
    by replace (i - i + j) with j by lia. }
  destruct (decide (k = j)) as [->|].
  { rewrite decide_False, decide_False, decide_True, decide_False, decide_True by lia.
    by replace (j - j + i) with i by lia. }
  destruct (decide (i + 1 <= k < i + 1 + Z.of_nat n)).
  { rewrite decide_False, decide_False, decide_True by lia. f_equal. lia. }
  destruct (decide (j + 1 <= k < j + 1 + Z.of_nat n)).
  { rewrite decide_False, decide_False, decide_False, decide_True by lia. f_equal. lia. }
  by rewrite !decide_False by lia.
Qed.

(** Two adjacent segments change places. *)
Lemma wp_rotate (Q : unit -> list A -> Prop) (P1 P2 : A -> Prop) l m h lo hi a0 a :
  0 <= lo <= l -> l <= m <= h -> h <= hi -> hi <= Z.of_nat (length a) -> shuffled lo hi a0 a ->
  holds P1 l m a -> holds P2 m h a ->
  (forall a', shuffled lo hi a0 a' -> (forall k, ~ l <= k < h -> elem k a' = elem k a) ->
     holds P2 l (l + (h - m)) a' -> holds P1 (l + (h - m)) h a' -> Q tt a') ->
  wp (let r := Z.min (m - l) (h - m) in vecswap l (h - r) (Z.to_nat r)) Q a.
Proof.
  intros Hlo Hm Hh Ha S H1 H2 HQ. cbn zeta. set (r := Z.min _ _).
  apply (wp_vecswap _ _ _ _ lo hi a0); [lia..|done|]. rewrite Z2Nat.id by lia. intros a' S' E.
  apply HQ; [done| | |].
  - intros k Hk. by rewrite E, !decide_False by lia.
  - intros k z Hk. rewrite E. destruct (decide (l <= k < l + r)).
    + apply H2. lia.
    + rewrite decide_False by lia. apply H2. lia.
  - intros k z Hk. rewrite E. rewrite decide_False by lia. destruct (decide _); apply H1; lia.
Qed.

(** The range is cut in elements less than [v], equal to it and greater. *)
Record parted v lo n r s a : Prop := {
  pd_sizes : 0 <= r /\ 0 <= s /\ r + s < n;
  pd_lt : holds (lt_v v) lo (lo + r) a;
  pd_eq : holds (eq_v v) (lo + r) (lo + n - s) a;
  pd_gt : holds (gt_v v) (lo + n - s) (lo + n) a;
}.

Lemma parted_left v lo n r s a a' :
  0 <= lo -> lo + n <= Z.of_nat (length a) -> parted v lo n r s a -> sorts lo r a a' -> parted v lo n r s a'.
Proof.
  intros Hlo Ha [Hs P1 P2 P3] [S _]. split; [done| | |].
  - eapply holds_shuffled; [..|exact S|done]; lia.
  - eapply holds_outside; [|exact S|done]. lia.
  - eapply holds_outside; [|exact S|done]. lia.
Qed.

Lemma parted_right v lo n r s a a' :
  0 <= lo -> lo + n <= Z.of_nat (length a) -> parted v lo n r s a -> sorts (lo + n - s) s a a' ->
  parted v lo n r s a'.
Proof.
  intros Hlo Ha [Hs P1 P2 P3] [S _]. split; [done| | |].
  - eapply holds_outside; [|exact S|done]. lia.
  - eapply holds_outside; [|exact S|done]. lia.
  - replace (lo + n - s + s) with (lo + n) in S by lia. eapply holds_shuffled; [..|exact S|done]; lia.
Qed.

Lemma sorted_outside lo hi l h a a' :
  (h <= lo \/ hi <= l) -> shuffled lo hi a a' -> sorted a l h -> sorted a' l h.
Proof.
  intros D [_ E] H i j Hi Hij Hj. eapply ord_same; [apply E; lia|apply E; lia|]. apply H; lia.
Qed.

(** Once both sides are sorted, everything is. *)
Lemma parted_sorted v lo n r s a :
  parted v lo n r s a -> sorted a lo (lo + r) -> sorted a (lo + n - s) (lo + n) -> sorted a lo (lo + n).
Proof.
  intros [Hs P1 P2 P3] S1 S2 i j Hi Hij Hj x y Hx Hy.
  assert (forall k z, lo <= k < lo + n - s -> elem k a = Some z -> le z v) as Low.
  { intros k z Hk Hz. unfold Sort.le. destruct (decide (k < lo + r)).
    - pose proof (P1 k z ltac:(lia) Hz). unfold lt_v in *. lia.
    - pose proof (P2 k z ltac:(lia) Hz). unfold eq_v in *. lia. }
  assert (forall k z, lo + r <= k < lo + n -> elem k a = Some z -> le v z) as High.
  { intros k z Hk Hz. unfold Sort.le. pose proof (compar_flip v z). destruct (decide (k < lo + n - s)).
    - pose proof (P2 k z ltac:(lia) Hz). unfold eq_v in *. lia.
    - pose proof (P3 k z ltac:(lia) Hz). unfold gt_v in *. lia. }
  destruct (decide (j < lo + r)); [apply (S1 i j); done || lia|].
  destruct (decide (lo + n - s <= i)); [apply (S2 i j); done || lia|].
  apply (compar_trans x v y); [apply (Low i)|apply (High j)]; done || lia.
Qed.

Lemma sorts_parted v lo n r s a0 a1 a2 a3 :
  0 <= lo -> lo + n <= Z.of_nat (length a1) -> shuffled lo (lo + n) a0 a1 -> parted v lo n r s a1 ->
  (sorts lo r a1 a2 /\ sorts (lo + n - s) s a2 a3 \/ sorts (lo + n - s) s a1 a2 /\ sorts lo r a2 a3) ->
  sorts lo n a0 a3.
Proof.
  intros Hlo Ha S P D. pose proof (pd_sizes _ _ _ _ _ _ P) as Hs.
  assert (lo + n - s + s = lo + n) as En by lia. destruct D as [[O1 O2]|[O1 O2]].
  - pose proof (parted_left v lo n r s a1 a2 Hlo Ha P O1) as P2.
    pose proof (shuffled_length _ _ _ _ (proj1 O1)) as L1.
    pose proof (parted_right v lo n r s a2 a3 Hlo ltac:(lia) P2 O2) as P3.
    destruct O1 as [S1 T1], O2 as [S2 T2]. rewrite En in *. split.
    + eapply shuffled_trans; [exact S|]. eapply shuffled_trans; eapply shuffled_weaken; [| |exact S1| | |exact S2]; lia.
    + apply (parted_sorted v lo n r s); [done| |done]. eapply sorted_outside; [|exact S2|done]. lia.
  - pose proof (parted_right v lo n r s a1 a2 Hlo Ha P O1) as P2.
    pose proof (shuffled_length _ _ _ _ (proj1 O1)) as L1.
    pose proof (parted_left v lo n r s a2 a3 Hlo ltac:(lia) P2 O2) as P3.
    destruct O1 as [S1 T1], O2 as [S2 T2]. rewrite En in *. split.
    + eapply shuffled_trans; [exact S|]. eapply shuffled_trans; eapply shuffled_weaken; [| |exact S1| | |exact S2]; lia.
    + apply (parted_sorted v lo n r s); [done|done|]. eapply sorted_outside; [|exact S2|done]. lia.
Qed.

(** One level of the recursion up to the recursive calls. *)
Lemma wp_split (Q : unit -> list A -> Prop) (k : Z -> Z -> ARR A unit) lo n a :
  0 <= lo -> 7 <= n -> lo + n <= Z.of_nat (length a) ->
  (forall v r s a', shuffled lo (lo + n) a a' -> parted v lo n r s a' -> wp (k r s) Q a') ->
  wp (pm ← pivot compar lo n;
      swap lo pm;;
      '(pa, pb, pc, pd) ← partition compar (S (Z.to_nat n)) (S (Z.to_nat n)) lo (lo + 1) (lo + 1) (lo + (n - 1)) (lo + (n - 1));
      let pn := lo + n in
      let r := Z.min (pa - lo) (pb - pa) in
      vecswap lo (pb - r) (Z.to_nat r);;
      let r := Z.min (pd - pc) (pn - pd - 1) in
      vecswap pb (pn - r) (Z.to_nat r);;
      k (pb - pa) (pd - pc)) Q a.
Proof.
  intros Hlo Hn Ha HQ. wp_steps. apply wp_pivot; [done..|]. intros p Hp. wp_steps. apply wp_swap; [lia..|].
  intros x v Hx Hv. wp_steps.
  apply (wp_partition _ _ _ a v lo n); [split|lia|lia|].
  - lia.
  - by rewrite !length_upd.
  - apply shuffled_swap; done || lia.
  - rewrite swapped_elem by lia. destruct (decide (p = lo)) as [->|]; [congruence|by rewrite decide_True].
  - intros i z Hi. lia.
  - intros i z Hi. lia.
  - intros i z Hi. lia.
  - intros i z Hi. lia.
  - intros a1 pa pb pc pd I Epb. destruct I as [R L S V E1 T1 G1 E2]. apply wp_bind.
    apply (wp_rotate _ (eq_v v) (lt_v v) lo pa pb lo (lo + n) a); [lia..|done| |done|].
    { intros i z Hi Hz. destruct (decide (i = lo)) as [->|]; [|apply (E1 i); done || lia].
      assert (z = v) as -> by congruence. unfold eq_v. pose proof (compar_flip v v). lia. }
    intros a2 S2 O2 L2 M2. wp_steps. pose proof (shuffled_length _ _ _ _ S). pose proof (shuffled_length _ _ _ _ S2).
    replace (pd - pc) with (pd + 1 - pb) by lia. replace (lo + n - pd - 1) with (lo + n - (pd + 1)) by lia.
    apply wp_bind, (wp_rotate _ (gt_v v) (eq_v v) pb (pd + 1) (lo + n) lo (lo + n) a); [lia..|done| | |].
    { intros i z Hi. rewrite O2 by lia. apply G1. lia. }
    { intros i z Hi. rewrite O2 by lia. apply E2. lia. }
    intros a3 S3 O3 L3 M3. apply (HQ v); [done|]. split.
    + lia.
    + intros i z Hi. rewrite O3 by lia. apply L2. lia.
    + intros i z Hi. destruct (decide (i < pb)).
      * rewrite O3 by lia. apply M2. lia.
      * apply L3. lia.
    + intros i z Hi. apply M3. lia.
Qed.

Lemma wp_introsort (Q : unit -> list A -> Prop) fuel malloc lo n maxdepth a :
  0 <= lo -> 0 <= n < 2 ^ 62 -> n < Z.of_nat fuel -> lo + n <= Z.of_nat (length a) ->
  (forall a', sorts lo n a a' -> Q tt a') -> wp (introsort compar fuel malloc lo n maxdepth) Q a.
Proof.
  revert Q lo n maxdepth a. induction fuel as [|fuel IH]; intros Q lo n maxdepth a Hlo Hn Hf Ha HQ; [lia|].
  cbn [introsort]. destruct (Z.ltb_spec n 7).
  { destruct (Z.leb_spec n 1).
    { replace (Z.to_nat (n - 1)) with O by lia. apply wp_ret, HQ. by apply sorts_small. }
    assert (Z.of_nat (Z.to_nat (n - 1) + 1) = n) as En by lia.
    apply (wp_insertion_sort _ _ _ _ a); rewrite ?En; [lia|lia|apply shuffled_refl| |done].
    intros i j Hi Hij Hj. assert (i = j) as -> by lia. by apply ord_refl. }
  assert (forall md a', lo + n <= Z.of_nat (length a') -> (forall a'', sorts lo n a' a'' -> Q tt a'') ->
    wp (pm ← pivot compar lo n;
      swap lo pm;;
      '(pa, pb, pc, pd) ← partition compar (S (Z.to_nat n)) (S (Z.to_nat n)) lo (lo + 1) (lo + 1) (lo + (n - 1)) (lo + (n - 1));
      let pn := lo + n in
      let r := Z.min (pa - lo) (pb - pa) in
      vecswap lo (pb - r) (Z.to_nat r);;
      let r := Z.min (pd - pc) (pn - pd - 1) in
      vecswap pb (pn - r) (Z.to_nat r);;
      let r := pb - pa in
      let s := pd - pc in
      if r <? s then
        if 1 <? s then
          (if 1 <? r then introsort compar fuel malloc lo r md else mret tt);;
          introsort compar fuel malloc (pn - s) s md
        else mret tt
      else
        if 1 <? r then
          (if 1 <? s then introsort compar fuel malloc (pn - s) s md else mret tt);;
          introsort compar fuel malloc lo r md
        else mret tt) Q a') as Rec.
  { intros md a' Ha' HQ'.
    apply (wp_split Q (fun r s => if r <? s then
        if 1 <? s then
          (if 1 <? r then introsort compar fuel malloc lo r md else mret tt);;
          introsort compar fuel malloc (lo + n - s) s md
        else mret tt
      else
        if 1 <? r then
          (if 1 <? s then introsort compar fuel malloc (lo + n - s) s md else mret tt);;
          introsort compar fuel malloc lo r md
        else mret tt) lo n a'); [lia..|].
    intros v r s a1 S1 P. pose proof (shuffled_length _ _ _ _ S1). pose proof (pd_sizes _ _ _ _ _ _ P).
    assert (forall (R : unit -> list A -> Prop) l m b, 0 <= l -> l + m <= Z.of_nat (length b) -> m < n -> 0 <= m ->
      (forall b', sorts l m b b' -> R tt b') ->
      wp (if 1 <? m then introsort compar fuel malloc l m md else mret tt) R b) as Sub.
    { intros R l m b Hl Hb Hm Hm0 HR. destruct (Z.ltb_spec 1 m); [apply IH; lia || done|].
      apply wp_ret, HR. by apply sorts_small. }
    destruct (Z.ltb_spec r s) as [Hrs|Hrs].
    - destruct (Z.ltb_spec 1 s).
      + wp_steps. apply Sub; [lia..|]. intros a2 O1. pose proof (shuffled_length _ _ _ _ (proj1 O1)).
        apply IH; [lia..|]. intros a3 O2. apply HQ'. eapply sorts_parted; [done| |exact S1|exact P|]; [lia|eauto].
      + apply wp_ret, HQ'. eapply (sorts_parted _ _ _ _ _ _ a1 a1 a1); [done| |exact S1|exact P|]; [lia|].
        left. split; apply sorts_small; done || lia.
    - destruct (Z.ltb_spec 1 r).
      + wp_steps. apply Sub; [lia..|]. intros a2 O1. pose proof (shuffled_length _ _ _ _ (proj1 O1)).
        apply IH; [lia..|]. intros a3 O2. apply HQ'. eapply sorts_parted; [done| |exact S1|exact P|]; [lia|eauto].
      + apply wp_ret, HQ'. eapply (sorts_parted _ _ _ _ _ _ a1 a1 a1); [done| |exact S1|exact P|]; [lia|].
        left. split; apply sorts_small; done || lia. }
  apply wp_bind. destruct (maxdepth =? 0); [|by apply wp_ret, Rec].
  wp_steps. apply (wp_kheapsort compar); [lia..| |].
  - intros _ a' O. wp_steps. by apply HQ.
  - intros _ _. wp_steps. by apply Rec.
Qed.

Lemma depth_loop_some fuel i d : 0 <= i < 2 ^ Z.of_nat fuel -> is_Some (depth_loop (S fuel) i d).
Proof.
  revert i d. induction fuel as [|fuel IH]; intros i d Hi.
  - cbn. replace i with 0 by lia. done.
  - cbn [depth_loop]. destruct (0 <? i); [|done]. apply IH. rewrite Z.shiftr_div_pow2 by lia.
    rewrite Nat2Z.inj_succ, Z.pow_succ_r in Hi by lia. split; [apply Z.div_pos; lia|].
    apply Z.div_lt_upper_bound; lia.
Qed.
End introsort.

(** ** The theorems *)

#[export] Instance sub_comparator : Comparator Z.sub.
Proof. split; lia. Qed.

(** C26: [kheapsort] sorts: for any comparison that is a total preorder, when the
    allocation of the temporary succeeds it returns 0, never accesses memory outside
    the array, and leaves a permutation of it that is sorted on the [nmemb] elements
    from [vbase] and unchanged outside them.  When the allocation fails it returns -1
    and the array is as it was. *)
Theorem kheapsort_sorts {A} (compar : A -> A -> Z) (C : Comparator compar) vbase nmemb size a :
  0 <= vbase -> nmemb < 2 ^ 62 -> vbase + nmemb <= Z.of_nat (length a) -> size <> 0 ->
  (exists a', kheapsort compar true vbase nmemb size a = Ret 0 a' /\ sorts compar vbase nmemb a a') /\
  (1 < nmemb -> kheapsort compar false vbase nmemb size a = Ret (-1) a).
Proof.
  intros H1 H2 H3 H4. split.
  - enough (wp (kheapsort compar true vbase nmemb size) (fun r a' => r = 0 /\ sorts compar vbase nmemb a a') a) as W.
    { apply wp_run in W as (r & a' & E & -> & O). by exists a'. }
    by apply wp_kheapsort.
  - intros Hn. unfold kheapsort. by rewrite (proj2 (Z.leb_gt _ _)), (proj2 (Z.eqb_neq _ _)).
Qed.

Lemma kheapsort_sorts_witness :
  exists a', kheapsort Z.sub true 1 5 8 [9; 3; 1; 2; 3; 0; 7] = Ret 0 a' /\
    sorts Z.sub 1 5 [9; 3; 1; 2; 3; 0; 7] a' /\ a' = [9; 0; 1; 2; 3; 3; 7].
Proof.
  destruct (kheapsort_sorts Z.sub _ 1 5 8 [9; 3; 1; 2; 3; 0; 7]) as [(a' & E & O) _]; [lia|lia|cbn; lia|lia|].
  exists a'. split; [exact E|]. split; [exact O|]. vm_compute in E. congruence.
Defined.

(** C30: [qsort] sorts: it returns whatever the outcome of [kheapsort]'s allocations,
    within a recursion that is bounded by the number of elements, never accesses memory
    outside the array, and leaves a permutation of it that is sorted on the [n] elements
    from [a] and unchanged outside them. *)
Theorem qsort_sorts {A} (compar : A -> A -> Z) (C : Comparator compar) malloc a n arr :
  0 <= a -> 0 <= n < 2 ^ 62 -> a + n <= Z.of_nat (length arr) ->
  exists arr', qsort compar malloc a n arr = Ret tt arr' /\ sorts compar a n arr arr'.
Proof.
  intros H1 H2 H3.
  enough (wp (qsort compar malloc a n) (fun _ arr' => sorts compar a n arr arr') arr) as W.
  { apply wp_run in W as ([] & arr' & E & O). by exists arr'. }
  unfold qsort. destruct (depth_loop_some 64 n 0) as [d ->]; [cbn; lia|].
  apply wp_introsort; done || lia.
Qed.

Lemma qsort_sorts_witness :
  exists arr', qsort Z.sub (fun _ _ => false) 0 9 [5; 2; 8; 2; 9; 1; 5; 0; 7] = Ret tt arr' /\
    sorts Z.sub 0 9 [5; 2; 8; 2; 9; 1; 5; 0; 7] arr' /\ arr' = [0; 1; 2; 2; 5; 5; 7; 8; 9].
Proof.
  destruct (qsort_sorts Z.sub _ (fun _ _ => false) 0 9 [5; 2; 8; 2; 9; 1; 5; 0; 7]) as (a' & E & O); [lia|lia|cbn; lia|].
  exists a'. split; [exact E|]. split; [exact O|]. vm_compute in E. congruence.
Defined.
