(* ===== verification/Dirent.v ===== *)
(** * Directory entries (src/src/gnu/ext2fs/ext2_fs.h, ext2_dir.h)

    A directory block is a list of bytes.  This file has the accesses of the C code to
    a [struct ext2_dir_entry_2] in a block, and the abstract view of a range of a block
    as a list of entries: [dents b lo hi l]. *)

From S2P Require Import Prelude.

(** ** Byte ranges *)

Definition slice (o n : Z) (b : list Z) : option (list Z) :=
  if (0 <=? o) && (0 <=? n) && (o + n <=? Z.of_nat (length b))
  then Some (take (Z.to_nat n) (drop (Z.to_nat o) b)) else None.

(** Overwrite the bytes from [o] on. *)
Definition splice (o : Z) (bs b : list Z) : option (list Z) :=
  if (0 <=? o) && (o + Z.of_nat (length bs) <=? Z.of_nat (length b))
  then Some (take (Z.to_nat o) b ++ bs ++ drop (Z.to_nat o + length bs) b) else None.

(** [bcopy(src, dst, n)]: the ranges may overlap. *)
Definition bcopy (src dst n : Z) (b : list Z) : option (list Z) :=
  bs ← slice src n b; splice dst bs b.

Definition le16 (x : Z) : list Z := [x mod 256; x / 256 mod 256].
Definition le32 (x : Z) : list Z := [x mod 256; x / 256 mod 256; x / 65536 mod 256; x / 16777216 mod 256].

(** ** [struct ext2_dir_entry_2], without its name *)
Record direntry := mkDe {
  de_inode : Z;
  de_rec_len : Z;
  de_name_len : Z;
  de_file_type : Z;
}.

Definition decode (h : list Z) : option direntry :=
  match h with
  | [a0; a1; a2; a3; a4; a5; a6; a7] =>
      Some (mkDe (a0 + 256 * a1 + 65536 * a2 + 16777216 * a3) (a4 + 256 * a5) a6 a7)
  | _ => None
  end.
Definition header (e : direntry) : list Z :=
  le32 (de_inode e) ++ le16 (de_rec_len e) ++ [de_name_len e; de_file_type e].

(** The entry at offset [o], and the [n] bytes of its name. *)
Definition entry_at (o : Z) (b : list Z) : option direntry := slice o 8 b ≫= decode.
Definition name_at (o n : Z) (b : list Z) : option (list Z) := slice (o + 8) n b.

Definition set_inode (o x : Z) (b : list Z) : option (list Z) := splice o (le32 x) b.
Definition set_rec_len (o x : Z) (b : list Z) : option (list Z) := splice (o + 4) (le16 x) b.
Definition set_file_type (o x : Z) (b : list Z) : option (list Z) := splice (o + 7) [x] b.

Definition EXT2_DIR_PAD : Z := 4.
Definition EXT2_DIR_ROUND : Z := EXT2_DIR_PAD - 1.
Definition EXT2_DIR_REC_LEN (name_len : Z) : Z :=
  Z.land (name_len + 8 + EXT2_DIR_ROUND) (Z.lnot EXT2_DIR_ROUND).

(** The file types: [DTTOFT(IFTODT(mode))] is the table [dt_to_ext2_ft] at bits 12-15
    of the mode, [None] outside the table. *)
Definition dt_to_ext2_ft : list Z := [0; 5; 3; 0; 2; 0; 4; 0; 1; 0; 7; 0; 6; 0; 0].
Definition DTTOFT (dt : Z) : option Z :=
  if Z.of_nat (length dt_to_ext2_ft) <? dt then Some 0 else dt_to_ext2_ft !! Z.to_nat dt.
Definition ext2_ft_to_dt : list Z := [0; 8; 4; 2; 6; 1; 12; 10].
Definition FTTODT (ft : Z) : option Z :=
  if Z.of_nat (length ext2_ft_to_dt) <? ft then Some 0 else ext2_ft_to_dt !! Z.to_nat ft.
Definition IFTODT (mode : Z) : Z := Z.shiftr (Z.land mode 61440) 12.

(** ** Lemmas on byte ranges *)

Lemma slice_some o n b bs :
  slice o n b = Some bs <-> 0 <= o /\ 0 <= n /\ o + n <= Z.of_nat (length b) /\
    bs = take (Z.to_nat n) (drop (Z.to_nat o) b).
Proof.
  unfold slice. destruct (_ && _) eqn:E.
  - rewrite !andb_true_iff, !Z.leb_le in E. split; [intros [= <-]; tauto|intros (_&_&_& ->); done].
  - split; [done|]. intros (H1&H2&H3&_). rewrite !andb_false_iff, !Z.leb_gt in E. lia.
Qed.

Lemma slice_none o n b : ~ (0 <= o /\ 0 <= n /\ o + n <= Z.of_nat (length b)) -> slice o n b = None.
Proof. intros H. destruct (slice o n b) eqn:E; [|done]. apply slice_some in E. lia. Qed.

Lemma slice_length o n b bs : slice o n b = Some bs -> Z.of_nat (length bs) = n.
Proof. rewrite slice_some. intros (H1&H2&H3& ->). rewrite length_take, length_drop. lia. Qed.

Lemma splice_some o bs b b' :
  splice o bs b = Some b' <-> 0 <= o /\ o + Z.of_nat (length bs) <= Z.of_nat (length b) /\
    b' = take (Z.to_nat o) b ++ bs ++ drop (Z.to_nat o + length bs) b.
Proof.
  unfold splice. destruct (_ && _) eqn:E.
  - rewrite andb_true_iff, !Z.leb_le in E. split; [intros [= <-]; tauto|intros (_&_& ->); done].
  - split; [done|]. intros (H1&H2&_). rewrite andb_false_iff, !Z.leb_gt in E. lia.
Qed.

Lemma splice_length o bs b b' : splice o bs b = Some b' -> length b' = length b.
Proof.
  rewrite splice_some. intros (H1&H2& ->). rewrite !length_app, length_take, length_drop. lia.
Qed.

Lemma splice_is_some o bs b : 0 <= o -> o + Z.of_nat (length bs) <= Z.of_nat (length b) ->
  exists b', splice o bs b = Some b'.
Proof. intros H1 H2. eexists. rewrite splice_some. eauto. Qed.

Lemma slice_is_some o n b : 0 <= o -> 0 <= n -> o + n <= Z.of_nat (length b) -> exists bs, slice o n b = Some bs.
Proof. intros H1 H2 H3. eexists. rewrite slice_some. eauto. Qed.

Lemma lookup_slice o n b bs (i : nat) :
  slice o n b = Some bs -> Z.of_nat i < n -> bs !! i = b !! (Z.to_nat o + i)%nat.
Proof. rewrite slice_some. intros (H1&H2&H3& ->) Hi. by rewrite lookup_take_lt, lookup_drop by lia. Qed.

Lemma lookup_splice o bs b b' (i : nat) :
  splice o bs b = Some b' ->
  b' !! i = if decide (o <= Z.of_nat i < o + Z.of_nat (length bs)) then bs !! (i - Z.to_nat o)%nat else b !! i.
Proof.
  rewrite splice_some. intros (H1&H2& ->). destruct (decide _) as [Hi|Hi].
  - rewrite lookup_app_r; rewrite length_take; [|lia]. rewrite lookup_app_l by lia. f_equal. lia.
  - destruct (decide (Z.of_nat i < o)).
    + rewrite lookup_app_l by (rewrite length_take; lia). apply lookup_take_lt. lia.
    + rewrite lookup_app_r; rewrite length_take; [|lia]. rewrite lookup_app_r by lia. rewrite lookup_drop. f_equal. lia.
Qed.

(** Equality of ranges, byte by byte. *)
Lemma slice_ext o n b o' b' :
  0 <= o -> 0 <= o' -> o + n <= Z.of_nat (length b) -> o' + n <= Z.of_nat (length b') ->
  (forall i : nat, Z.of_nat i < n -> b !! (Z.to_nat o + i)%nat = b' !! (Z.to_nat o' + i)%nat) ->
  slice o n b = slice o' n b'.
Proof.
  intros H1 H2 H3 H4 H. destruct (decide (0 <= n)).
  2: { by rewrite !slice_none by lia. }
  destruct (slice_is_some o n b) as [x Hx]; [done..|]. destruct (slice_is_some o' n b') as [y Hy]; [done..|].
  rewrite Hx, Hy. f_equal. pose proof (slice_length _ _ _ _ Hx). pose proof (slice_length _ _ _ _ Hy).
  apply list_eq. intros i. destruct (decide (Z.of_nat i < n)).
  - by rewrite (lookup_slice _ _ _ _ _ Hx), (lookup_slice _ _ _ _ _ Hy), H.
  - rewrite !lookup_ge_None_2 by lia. done.
Qed.

Lemma slice_splice_out o n oo bs b b' :
  splice oo bs b = Some b' -> (o + n <= oo \/ oo + Z.of_nat (length bs) <= o) -> slice o n b' = slice o n b.
Proof.
  intros S D. pose proof (splice_length _ _ _ _ S) as L. destruct (decide (0 <= o /\ 0 <= n /\ o + n <= Z.of_nat (length b))).
  - apply slice_ext; [lia..|]. intros i Hi. rewrite (lookup_splice _ _ _ _ _ S). by rewrite decide_False by lia.
  - by rewrite !slice_none by lia.
Qed.

(** The range that was overwritten, and ranges inside it. *)
Lemma slice_splice_in o n oo bs b b' :
  splice oo bs b = Some b' -> oo <= o -> o + n <= oo + Z.of_nat (length bs) -> slice o n b' = slice (o - oo) n bs.
Proof.
  intros S H1 H2. pose proof (splice_length _ _ _ _ S) as L. pose proof S as S'. rewrite splice_some in S'.
  destruct (decide (0 <= n)).
  2: { by rewrite !slice_none by lia. }
  apply slice_ext; [lia..|]. intros i Hi. rewrite (lookup_splice _ _ _ _ _ S), decide_True by lia. f_equal. lia.
Qed.

Lemma slice_full b : slice 0 (Z.of_nat (length b)) b = Some b.
Proof. rewrite slice_some. split_and!; try lia. by rewrite drop_0, Nat2Z.id, take_ge. Qed.

Lemma slice_splice_same oo bs b b' :
  splice oo bs b = Some b' -> slice oo (Z.of_nat (length bs)) b' = Some bs.
Proof. intros S. rewrite (slice_splice_in _ _ _ _ _ _ S), Z.sub_diag by lia. apply slice_full. Qed.

(** A range of a range. *)
Lemma slice_slice o n b bs o' n' :
  slice o n b = Some bs -> 0 <= o' -> o' + n' <= n -> slice o' n' bs = slice (o + o') n' b.
Proof.
  intros S H1 H2. pose proof (slice_length _ _ _ _ S) as L. pose proof S as S'. rewrite slice_some in S'.
  apply slice_ext; [lia..|]. intros i Hi. rewrite (lookup_slice _ _ _ _ _ S) by lia. f_equal. lia.
Qed.

Lemma slice_app o n m b x y :
  slice o n b = Some x -> slice (o + n) m b = Some y -> slice o (n + m) b = Some (x ++ y).
Proof.
  rewrite !slice_some. intros (H1&H2&H3& ->) (H4&H5&H6& ->). split_and!; try lia.
  rewrite !Z2Nat.inj_add by lia. rewrite <- (drop_drop b). by rewrite take_take_drop.
Qed.

(** Two blocks that are equal on the bytes [lo, hi). *)
Definition agree (lo hi : Z) (b b' : list Z) : Prop :=
  length b' = length b /\ forall o n, lo <= o -> o + n <= hi -> slice o n b' = slice o n b.

Lemma agree_refl lo hi b : agree lo hi b b.
Proof. by split. Qed.
Lemma agree_trans lo hi b b' b'' : agree lo hi b b' -> agree lo hi b' b'' -> agree lo hi b b''.
Proof. intros [L1 E1] [L2 E2]. split; [congruence|]. intros o n H1 H2. by rewrite E2, E1. Qed.
Lemma agree_weaken lo hi lo' hi' b b' : lo <= lo' -> hi' <= hi -> agree lo hi b b' -> agree lo' hi' b b'.
Proof. intros H1 H2 [L E]. split; [done|]. intros o n H3 H4. apply E; lia. Qed.
Lemma agree_splice lo hi oo bs b b' :
  splice oo bs b = Some b' -> hi <= oo \/ oo + Z.of_nat (length bs) <= lo -> agree lo hi b b'.
Proof.
  intros S D. split; [by eapply splice_length|]. intros o n H1 H2. apply (slice_splice_out _ _ _ _ _ _ S). lia.
Qed.

(** ** The abstract view *)

Record dent := mkDent {
  d_ino : Z;
  d_reclen : Z;
  d_type : Z;
  d_name : list Z;
}.

Definition namelen (d : dent) : Z := Z.of_nat (length (d_name d)).
Definition d_hdr (d : dent) : direntry := mkDe (d_ino d) (d_reclen d) (namelen d) (d_type d).
Definition d_bytes (d : dent) : list Z := header (d_hdr d) ++ d_name d.
Definition with_reclen (n : Z) (d : dent) : dent := mkDent (d_ino d) n (d_type d) (d_name d).

(** The bytes an entry needs. *)
Definition need (d : dent) : Z := EXT2_DIR_REC_LEN (namelen d).
Definition is_live (d : dent) : bool := negb (d_ino d =? 0).

(** The contents of a directory: inode, file type and name of the entries in use. *)
Definition key (d : dent) : Z * Z * list Z := (d_ino d, d_type d, d_name d).
Definition live (l : list dent) : list (Z * Z * list Z) := key <$> filter is_live l.

(** The bytes that are free for a new entry. *)
Definition free_in (d : dent) : Z := d_reclen d - (if is_live d then need d else 0).
Definition slack (l : list dent) : Z := sumZ (free_in <$> l).

Record dent_wf (d : dent) : Prop := {
  dw_ino : 0 <= d_ino d < 2 ^ 32;
  dw_reclen : 0 <= d_reclen d < 2 ^ 16;
  dw_mult : (4 | d_reclen d);
  dw_need : need d <= d_reclen d;
  dw_type : 0 <= d_type d < 256;
  dw_name : namelen d < 256;
}.

Record dent_at (o : Z) (b : list Z) (d : dent) : Prop := {
  da_wf : dent_wf d;
  da_bytes : slice o (8 + namelen d) b = Some (d_bytes d);
  da_fits : o + d_reclen d <= Z.of_nat (length b);
}.

(** The bytes [lo, hi) are the entries of [l]. *)
Fixpoint dents (b : list Z) (lo hi : Z) (l : list dent) : Prop :=
  match l with
  | [] => lo = hi
  | d :: l => dent_at lo b d /\ dents b (lo + d_reclen d) hi l
  end.

(** *** Sizes *)

Lemma EXT2_DIR_REC_LEN_eq n : EXT2_DIR_REC_LEN n = 4 * ((n + 11) / 4).
Proof.
  unfold EXT2_DIR_REC_LEN, EXT2_DIR_ROUND, EXT2_DIR_PAD. change (4 - 1) with (Z.ones 2).
  rewrite land_lnot_ones by lia. change (2 ^ 2) with 4. change (Z.ones 2) with 3.
  replace (n + 8 + 3) with (n + 11) by lia. pose proof (Z.div_mod (n + 11) 4 ltac:(lia)). lia.
Qed.

Lemma rec_len_bounds n : n + 8 <= EXT2_DIR_REC_LEN n < n + 12 /\ (4 | EXT2_DIR_REC_LEN n).
Proof.
  rewrite EXT2_DIR_REC_LEN_eq. pose proof (Z.div_mod (n + 11) 4 ltac:(lia)).
  pose proof (Z.mod_pos_bound (n + 11) 4 ltac:(lia)). split; [lia|]. exists ((n + 11) / 4). lia.
Qed.

Lemma need_bounds d : namelen d + 8 <= need d < namelen d + 12 /\ (4 | need d) /\ 0 <= namelen d.
Proof. unfold need. pose proof (rec_len_bounds (namelen d)). unfold namelen in *. split_and!; lia || apply H. Qed.

Lemma length_header e : length (header e) = 8%nat.
Proof. done. Qed.

Lemma length_d_bytes d : Z.of_nat (length (d_bytes d)) = 8 + namelen d.
Proof. unfold d_bytes, namelen. rewrite length_app, length_header. lia. Qed.

Lemma dents_size b lo hi l : dents b lo hi l -> hi = lo + sumZ (d_reclen <$> l).
Proof.
  revert lo. induction l as [|d l IH]; intros lo; cbn [dents fmap list_fmap sumZ foldr]; [lia|].
  intros [_ D]. apply IH in D. unfold sumZ in D. lia.
Qed.

Lemma dents_range b lo hi l : 0 <= lo -> dents b lo hi l -> lo <= hi.
Proof.
  revert lo. induction l as [|d l IH]; intros lo H; cbn [dents]; [lia|].
  intros [[W _ _] D]. pose proof (dw_reclen _ W). apply IH in D; lia.
Qed.

Lemma dents_app b lo hi l1 l2 :
  dents b lo hi (l1 ++ l2) <-> exists mid, dents b lo mid l1 /\ dents b mid hi l2.
Proof.
  revert lo. induction l1 as [|d l1 IH]; intros lo; cbn [dents app].
  - split; [intros H; by exists lo|]. by intros (? & <- & ?).
  - rewrite IH. naive_solver.
Qed.

(** *** Reading an entry *)

Lemma decode_header e :
  0 <= de_inode e < 2 ^ 32 -> 0 <= de_rec_len e < 2 ^ 16 -> decode (header e) = Some e.
Proof.
  intros H1 H2. destruct e as [i r n t]. cbn [header le32 le16 app decode de_inode de_rec_len de_name_len de_file_type] in *.
  repeat f_equal.
  - assert (i / 65536 = i / 256 / 256) as E2 by by rewrite Z.div_div by lia.
    assert (i / 16777216 = i / 256 / 256 / 256) as E3 by by rewrite !Z.div_div by lia.
    assert (i / 256 / 256 / 256 / 256 = 0) as E4 by (rewrite !Z.div_div by lia; apply Z.div_small; lia).
    rewrite E2, E3. pose proof (Z.div_mod i 256 ltac:(lia)). pose proof (Z.div_mod (i / 256) 256 ltac:(lia)).
    pose proof (Z.div_mod (i / 256 / 256) 256 ltac:(lia)). pose proof (Z.div_mod (i / 256 / 256 / 256) 256 ltac:(lia)). lia.
  - pose proof (Z.div_mod r 256 ltac:(lia)). rewrite (Z.mod_small (r / 256)); [lia|].
    split; [apply Z.div_pos; lia|apply Z.div_lt_upper_bound; lia].
Qed.

Lemma decode_d_bytes o b d :
  0 <= o -> dent_wf d -> slice o (8 + namelen d) b = Some (d_bytes d) -> entry_at o b = Some (d_hdr d).
Proof.
  intros Ho W B. unfold entry_at. pose proof (need_bounds d).
  replace o with (o + 0) by lia. rewrite <- (slice_slice o (8 + namelen d) b (d_bytes d)) by (done || lia).
  unfold d_bytes. rewrite (proj2 (slice_some 0 8 _ (header (d_hdr d)))); [apply decode_header; apply W|].
  rewrite length_app, length_header. split_and!; [lia..|]. rewrite drop_0. by rewrite take_app_length'.
Qed.

Lemma dent_entry o b d : 0 <= o -> dent_at o b d -> entry_at o b = Some (d_hdr d).
Proof. intros Ho [W B _]. by apply decode_d_bytes. Qed.

Lemma dent_name o b d : 0 <= o -> dent_at o b d -> name_at o (namelen d) b = Some (d_name d).
Proof.
  intros Ho [W B _]. unfold name_at. pose proof (need_bounds d).
  rewrite <- (slice_slice o (8 + namelen d) b (d_bytes d)) by (done || lia).
  apply slice_some. pose proof (length_d_bytes d). split_and!; [lia..|]. unfold d_bytes.
  rewrite drop_app_length' by done. rewrite take_ge; [done|unfold namelen; lia].
Qed.

(** Entries whose bytes did not change are still there. *)
Lemma dent_at_agree lo hi o b b' d :
  agree lo hi b b' -> lo <= o -> o + need d <= hi -> dent_at o b d -> dent_at o b' d.
Proof.
  intros [L E] H1 H2 [W B F]. pose proof (need_bounds d). split; [done| |by rewrite L].
  rewrite E; [done|lia|lia].
Qed.

Lemma dents_agree lo hi b b' l : 0 <= lo -> agree lo hi b b' -> dents b lo hi l -> dents b' lo hi l.
Proof.
  intros Hlo A. enough (forall o, lo <= o -> dents b o hi l -> dents b' o hi l) as H by (apply H; lia).
  induction l as [|d l IH]; intros o Ho; cbn [dents]; [done|]. intros [D R]. pose proof (da_wf _ _ _ D) as W.
  pose proof (dw_need _ W). pose proof (dw_reclen _ W). pose proof (dents_range b (o + d_reclen d) hi l ltac:(lia) R).
  split; [|apply IH; [lia|done]]. apply (dent_at_agree lo hi o b b'); done || lia.
Qed.

(** *** Writing the fields of an entry *)

Lemma slice_app_iff o b x y :
  slice o (Z.of_nat (length (x ++ y))) b = Some (x ++ y) <->
  slice o (Z.of_nat (length x)) b = Some x /\ slice (o + Z.of_nat (length x)) (Z.of_nat (length y)) b = Some y.
Proof.
  rewrite length_app. split.
  - intros S. pose proof S as S'. rewrite slice_some in S'. split.
    + replace o with (o + 0) at 1 by lia. rewrite <- (slice_slice o _ b _ 0 (Z.of_nat (length x)) S) by lia.
      apply slice_some. rewrite length_app. split_and!; [lia..|]. by rewrite drop_0, take_app_length' by lia.
    + rewrite <- (slice_slice o _ b _ (Z.of_nat (length x)) (Z.of_nat (length y)) S) by lia.
      apply slice_some. rewrite length_app. split_and!; [lia..|]. rewrite drop_app_length' by lia.
      by rewrite take_ge by lia.
  - intros [H1 H2]. rewrite Nat2Z.inj_add. by apply slice_app.
Qed.

Definition d_tail (d : dent) : list Z := [namelen d; d_type d] ++ d_name d.

(** The bytes of an entry, field by field. *)
Lemma d_bytes_parts o b d :
  slice o (8 + namelen d) b = Some (d_bytes d) <->
  slice o 4 b = Some (le32 (d_ino d)) /\ slice (o + 4) 2 b = Some (le16 (d_reclen d)) /\
  slice (o + 6) (2 + namelen d) b = Some (d_tail d).
Proof.
  change (d_bytes d) with (le32 (d_ino d) ++ le16 (d_reclen d) ++ d_tail d).
  replace (8 + namelen d) with (Z.of_nat (length (le32 (d_ino d) ++ le16 (d_reclen d) ++ d_tail d)))
    by (unfold namelen; cbn; lia).
  rewrite !slice_app_iff. change (Z.of_nat (length (le32 (d_ino d)))) with 4.
  change (Z.of_nat (length (le16 (d_reclen d)))) with 2.
  replace (Z.of_nat (length (d_tail d))) with (2 + namelen d) by (unfold namelen; cbn; lia).
  by replace (o + 4 + 2) with (o + 6) by lia.
Qed.

Lemma with_reclen_at o b b' d n :
  0 <= o -> dent_at o b d -> need d <= n < 2 ^ 16 -> (4 | n) -> o + n <= Z.of_nat (length b) ->
  set_rec_len o n b = Some b' -> dent_at o b' (with_reclen n d).
Proof.
  intros Ho [[W1 W2 W3 W4 W5 W6] B F] Hn Hm Hf S. pose proof (splice_length _ _ _ _ S) as L.
  pose proof (need_bounds d).
  split; [split; change (need (with_reclen n d)) with (need d); cbn [d_reclen with_reclen]; done || lia| |cbn; lia].
  apply d_bytes_parts in B as (B1 & B2 & B3). apply d_bytes_parts. cbn [d_ino d_reclen with_reclen].
  split_and!.
  - rewrite (slice_splice_out _ _ _ _ _ _ S); [done|lia].
  - change 2 with (Z.of_nat (length (le16 n))). by apply (slice_splice_same _ _ b).
  - rewrite (slice_splice_out _ _ _ _ _ _ S); [exact B3|cbn; lia].
Qed.

Lemma with_inode_at o b b' d i :
  0 <= o -> dent_at o b d -> 0 <= i < 2 ^ 32 -> set_inode o i b = Some b' ->
  dent_at o b' (mkDent i (d_reclen d) (d_type d) (d_name d)).
Proof.
  intros Ho [[W1 W2 W3 W4 W5 W6] B F] Hi S. pose proof (splice_length _ _ _ _ S) as L.
  pose proof (need_bounds d). split; [by split| |cbn; lia].
  apply d_bytes_parts in B as (B1 & B2 & B3). apply d_bytes_parts. cbn [d_ino d_reclen].
  split_and!.
  - change 4 with (Z.of_nat (length (le32 i))). by apply (slice_splice_same _ _ b).
  - rewrite (slice_splice_out _ _ _ _ _ _ S); [done|cbn; lia].
  - rewrite (slice_splice_out _ _ _ _ _ _ S); [exact B3|cbn; lia].
Qed.

Lemma with_type_at o b b' d t :
  0 <= o -> dent_at o b d -> 0 <= t < 256 -> set_file_type o t b = Some b' ->
  dent_at o b' (mkDent (d_ino d) (d_reclen d) t (d_name d)).
Proof.
  intros Ho [[W1 W2 W3 W4 W5 W6] B F] Ht S. pose proof (splice_length _ _ _ _ S) as L.
  pose proof (need_bounds d). split; [by split| |cbn; lia].
  apply d_bytes_parts in B as (B1 & B2 & B3). apply d_bytes_parts. cbn [d_ino d_reclen].
  split_and!.
  - rewrite (slice_splice_out _ _ _ _ _ _ S); [done|lia].
  - rewrite (slice_splice_out _ _ _ _ _ _ S); [done|lia].
  - unfold d_tail in *. cbn [d_type d_name] in *. change (namelen (mkDent _ _ t _)) with (namelen d) in *.
    replace (2 + namelen d) with (Z.of_nat (length ([namelen d] ++ [t] ++ d_name d))) by (unfold namelen; cbn; lia).
    replace (2 + namelen d) with (Z.of_nat (length ([namelen d] ++ [d_type d] ++ d_name d))) in B3 by (unfold namelen; cbn; lia).
    change ([namelen d; d_type d] ++ d_name d) with ([namelen d] ++ [d_type d] ++ d_name d) in B3.
    change ([namelen d; t] ++ d_name d) with ([namelen d] ++ [t] ++ d_name d).
    rewrite !slice_app_iff in *. destruct B3 as (C1 & C2 & C3). cbn [length] in *. split_and!.
    + rewrite (slice_splice_out _ _ _ _ _ _ S); [done|lia].
    + replace (o + 6 + Z.of_nat 1) with (o + 7) by lia. by apply (slice_splice_same _ [t] b).
    + rewrite (slice_splice_out _ _ _ _ _ _ S); [exact C3|cbn; lia].
Qed.

(** The live entries. *)
Lemma live_app l1 l2 : live (l1 ++ l2) = live l1 ++ live l2.
Proof. unfold live. by rewrite filter_app, fmap_app. Qed.

Lemma live_one d : live [d] = if is_live d then [key d] else [].
Proof. unfold live. rewrite filter_cons. by destruct (is_live d). Qed.

Lemma slack_app l1 l2 : slack (l1 ++ l2) = slack l1 + slack l2.
Proof.
  unfold slack. rewrite fmap_app. unfold sumZ. induction (free_in <$> l1); cbn; [lia|]. lia.
Qed.

Lemma slack_cons d l : slack (d :: l) = free_in d + slack l.
Proof. done. Qed.
