(* ===== verification/Dirslot.v ===== *)
(** * Changing the entries of a directory block (src/src/gnu/ext2fs/ext2_lookup.c)

    The parts of [ext2_direnter] / [ext2fs_add_entry], [ext2_dirremove] and
    [ext2_dirrewrite_nolock] that work on the block that [ext2_blkatoff] returned.  The
    state is the contents of the buffer. *)

From S2P Require Import Prelude Dirent.

Abbreviation BUF := (kern (list Z)).

Definition get {A} (f : list Z -> option A) : BUF A := b ← gets id; access (f b).
Definition put (f : list Z -> option (list Z)) : BUF unit := b ← get f; modify (fun _ => b).

(** The loop that compacts the slot: the final [ep], [dsize], [spacefree]. *)
Fixpoint compact (fuel : nat) (dirbuf i_count ep dsize spacefree loc : Z) : BUF (Z * Z * Z) :=
  match fuel with
  | O => out_of_fuel
  | S fuel =>
      if loc <? i_count then
        let nep := dirbuf + loc in
        e ← get (entry_at ep);
        '(ep, spacefree) ←
          (if negb (de_inode e =? 0)
           then put (set_rec_len ep (u16 dsize));; mret (ep + dsize, spacefree)
           else mret (ep, spacefree + dsize));
        n ← get (entry_at nep);
        let dsize := EXT2_DIR_REC_LEN (de_name_len n) in
        let spacefree := spacefree + (de_rec_len n - dsize) in
        let loc := loc + de_rec_len n in
        put (bcopy nep ep dsize);;
        compact fuel dirbuf i_count ep dsize spacefree loc
      else mret (ep, dsize, spacefree)
  end.

(** [newdir], whose [rec_len] is still open, is entered in the slot of [i_count] bytes
    at [dirbuf]; [newname] is its name field. *)
Definition enter_slot (dirbuf i_count : Z) (newdir : direntry) (newname : list Z) (newentrysize : Z) : BUF unit :=
  e ← get (entry_at dirbuf);
  let dsize := EXT2_DIR_REC_LEN (de_name_len e) in
  '(ep, dsize, spacefree) ← compact (S (Z.to_nat i_count)) dirbuf i_count dirbuf dsize
                              (de_rec_len e - dsize) (de_rec_len e);
  e ← get (entry_at ep);
  '(ep, rec_len) ←
    (if de_inode e =? 0 then
       if spacefree + dsize <? newentrysize then panic "ext2_direnter: compact1"
       else mret (ep, u16 (spacefree + dsize))
     else
       if spacefree <? newentrysize then panic "ext2_direnter: compact2"
       else put (set_rec_len ep (u16 dsize));; mret (ep + dsize, u16 spacefree));
  let newdir := mkDe (de_inode newdir) rec_len (de_name_len newdir) (de_file_type newdir) in
  put (splice ep (take (Z.to_nat newentrysize) (header newdir ++ newname))).

(** [ext2_dirremove] on the block: [ep] is the entry itself when [i_count] is 0, which
    is so for the first entry of a block, and else the entry before it. *)
Definition remove_entry (ep i_count i_reclen : Z) : BUF unit :=
  if i_count =? 0 then put (set_inode ep 0)
  else
    e ← get (entry_at ep);
    put (set_rec_len ep (u16 (de_rec_len e + i_reclen))).

(** [ext2_dirrewrite_nolock]: the entry is made to point to another inode. *)
Definition rewrite_entry (off i_number i_mode : Z) (filetype : bool) : BUF unit :=
  put (set_inode off i_number);;
  if filetype then
    ft ← access (DTTOFT (IFTODT i_mode)); put (set_file_type off ft)
  else put (set_file_type off 0).

(** ** Lemmas *)

Lemma wp_get {A} (Q : A -> list Z -> Prop) (f : list Z -> option A) x b :
  f b = Some x -> Q x b -> wp (get f) Q b.
Proof. intros H HQ. unfold get. wp_steps. by apply (wp_access _ x). Qed.

Lemma wp_put_buf (Q : unit -> list Z -> Prop) f b b' : f b = Some b' -> Q tt b' -> wp (put f) Q b.
Proof. intros H HQ. unfold put. wp_steps. apply (wp_get _ _ b'); [done|]. by wp_steps. Qed.

Definition all_live (l : list dent) : Prop := Forall (fun d => is_live d = true) l.

(** The state of the compaction: the live entries met so far, but the last entry, are
    packed from [lo] to [ep]; the last one, [d], is at [ep] with its old record length;
    behind [loc] the block is as it was. *)
Record compacted (b0 : list Z) (lo : Z) (seen : list dent) (d : dent) (b : list Z) (ep dsize spacefree loc : Z)
    : Prop := {
  co_packed : exists l, dents b lo ep l /\ live l = live seen /\ all_live l;
  co_here : slice ep (8 + namelen d) b = Some (d_bytes d);
  co_wf : dent_wf d;
  co_range : 0 <= lo <= ep /\ ep + d_reclen d <= loc /\ loc <= Z.of_nat (length b) /\ loc - lo < 2 ^ 16;
  co_sizes : dsize = need d /\ spacefree = loc - ep - need d;
  co_slack : slack (seen ++ [d]) = loc - ep - (if is_live d then need d else 0);
  co_above : agree loc (Z.of_nat (length b0)) b0 b;
  co_below : agree 0 lo b0 b;
}.

Lemma small_need d : dent_wf d -> 0 <= need d < 2 ^ 16.
Proof. intros W. pose proof (dw_name _ W). pose proof (need_bounds d). lia. Qed.

(** Making room behind the last entry: a live entry is trimmed, a dead one is given up. *)
Lemma wp_trim (Q : Z * Z -> list Z -> Prop) b0 lo seen d b ep dsize spacefree loc :
  compacted b0 lo seen d b ep dsize spacefree loc ->
  (forall b1 ep1, ep1 = ep + (if is_live d then need d else 0) -> length b1 = length b ->
     (exists l, dents b1 lo ep1 l /\ live l = live (seen ++ [d]) /\ all_live l) ->
     agree loc (Z.of_nat (length b0)) b0 b1 -> agree 0 lo b0 b1 -> Q (ep1, loc - ep1) b1) ->
  wp (if negb (d_ino d =? 0)
      then put (set_rec_len ep (u16 dsize));; mret (ep + dsize, spacefree)
      else mret (ep, spacefree + dsize)) Q b.
Proof.
  intros [(l & D & HL & AL) B W R [-> ->] SL Up Down] HQ. pose proof (need_bounds d). pose proof (small_need d W).
  pose proof (dw_need _ W). unfold is_live in HQ. destruct (d_ino d =? 0) eqn:E; cbn [negb] in *.
  - apply wp_ret. replace (loc - ep - need d + need d) with (loc - (ep + 0)) by lia.
    rewrite <- (Z.add_0_r ep) at 1. apply HQ; try done. exists l. rewrite Z.add_0_r. split; [done|].
    rewrite live_app, live_one. unfold is_live. by rewrite E, app_nil_r.
  - rewrite uintw_small by lia. wp_steps.
    destruct (splice_is_some (ep + 4) (le16 (need d)) b) as [b1 S]; [lia|cbn; lia|].
    apply (wp_put_buf _ _ _ b1); [done|]. wp_steps. replace (loc - ep - need d) with (loc - (ep + need d)) by lia.
    pose proof (splice_length _ _ _ _ S) as L.
    assert (dent_at ep b d) as Da by (split; done || lia).
    assert (agree lo ep b b1) as A1 by (eapply agree_splice; [exact S|lia]).
    apply HQ; [done|done| | |].
    + exists (l ++ [with_reclen (need d) d]). split.
      * apply dents_app. exists ep. split; [eapply dents_agree; [lia|exact A1|done]|]. cbn [dents d_reclen with_reclen].
        split; [|done]. apply (with_reclen_at ep b); try done; try lia. apply need_bounds.
      * split; [rewrite !live_app, !live_one, HL; unfold is_live; cbn [d_ino with_reclen]; by rewrite E|].
        apply Forall_app. split; [done|]. constructor; [|done]. unfold is_live. cbn [d_ino with_reclen]. by rewrite E.
    + eapply agree_trans; [exact Up|]. eapply agree_splice; [exact S|]. cbn [length le16]. lia.
    + eapply agree_trans; [exact Down|]. eapply agree_splice; [exact S|]. lia.
Qed.

Lemma wp_compact (Q : Z * Z * Z -> list Z -> Prop) fuel b0 lo hi seen d rest b ep dsize spacefree loc :
  compacted b0 lo seen d b ep dsize spacefree loc -> dents b0 loc hi rest ->
  hi - lo < 2 ^ 16 -> hi <= Z.of_nat (length b0) -> hi - loc < Z.of_nat fuel ->
  (forall b' seen' d' ep' dsize' spacefree', compacted b0 lo seen' d' b' ep' dsize' spacefree' hi ->
     seen' ++ [d'] = seen ++ d :: rest -> Q (ep', dsize', spacefree') b') ->
  wp (compact fuel lo (hi - lo) ep dsize spacefree (loc - lo)) Q b.
Proof.
  revert seen d rest b ep dsize spacefree loc.
  induction fuel as [|fuel IH]; intros seen d rest b ep dsize spacefree loc I D Hhi Hlen Hf HQ; pose proof (co_range _ _ _ _ _ _ _ _ _ I) as R;
    pose proof (proj1 (co_above _ _ _ _ _ _ _ _ _ I)) as L0;
    pose proof (dw_reclen _ (co_wf _ _ _ _ _ _ _ _ _ I)) as Rl.
  { pose proof (dents_range b0 loc hi rest ltac:(lia) D). lia. }
  cbn [compact]. destruct rest as [|d' rest]; cbn [dents] in D.
  { subst hi. rewrite (proj2 (Z.ltb_ge _ _)) by lia. apply wp_ret. by apply (HQ b seen d). }
  destruct D as [Da D]. pose proof (da_wf _ _ _ Da) as W'. pose proof (need_bounds d'). pose proof (dw_need _ W').
  pose proof (dents_range b0 (loc + d_reclen d') hi rest ltac:(lia) D) as Hr.
  rewrite (proj2 (Z.ltb_lt _ _)) by lia. replace (lo + (loc - lo)) with loc by lia. wp_steps.
  apply (wp_get _ _ (d_hdr d)); [apply decode_d_bytes; [lia|apply I|apply I]|]. cbn [de_inode d_hdr]. apply wp_bind.
  apply (wp_trim _ _ _ _ _ _ _ _ _ _ I). intros b1 ep1 Eep L1 (l & Dl & HL & AL) Up Down. cbn beta iota zeta. apply wp_bind.
  assert (ep <= ep1 <= loc) as Hep.
  { pose proof (need_bounds d). pose proof (dw_need _ (co_wf _ _ _ _ _ _ _ _ _ I)). destruct (is_live d); lia. }
  assert (dent_at loc b1 d') as Da1 by (eapply dent_at_agree; [exact Up|lia|lia|done]).
  apply (wp_get _ _ (d_hdr d')); [apply dent_entry; [lia|done]|]. cbn [de_name_len de_rec_len d_hdr].
  fold (need d'). wp_steps. pose proof (co_slack _ _ _ _ _ _ _ _ _ I) as SL.
  destruct (slice_is_some loc (need d') b1) as [bs Hbs]; [lia|lia|lia|]. pose proof (slice_length _ _ _ _ Hbs).
  destruct (splice_is_some ep1 bs b1) as [b2 S]; [lia|lia|].
  apply (wp_put_buf _ _ _ b2). { unfold bcopy. rewrite Hbs. exact S. }
  pose proof (splice_length _ _ _ _ S) as L2.
  replace (loc - lo + d_reclen d') with (loc + d_reclen d' - lo) by lia.
  apply (IH (seen ++ [d]) d' rest).
  - split.
    + exists l. split; [|done]. eapply dents_agree; [lia| |exact Dl]. eapply agree_splice; [exact S|lia].
    + rewrite (slice_splice_in _ _ _ _ _ _ S), Z.sub_diag by lia.
      rewrite (slice_slice loc (need d') b1 bs 0 (8 + namelen d') Hbs), Z.add_0_r by lia. apply Da1.
    + done.
    + lia.
    + lia.
    + rewrite slack_app, SL, slack_cons. unfold free_in. change (slack []) with 0. lia.
    + eapply agree_trans; [eapply agree_weaken; [| |exact Up]; lia|]. eapply agree_splice; [exact S|]. lia.
    + eapply agree_trans; [exact Down|]. eapply agree_splice; [exact S|]. lia.
  - done.
  - done.
  - done.
  - lia.
  - intros b' seen' d'' ep' dsize' spacefree' I' E. apply (HQ b' seen' d''); [done|]. rewrite E. by rewrite <- app_assoc.
Qed.

Lemma dents_mult b lo hi l : dents b lo hi l -> (4 | hi - lo).
Proof.
  revert lo. induction l as [|d l IH]; intros lo; cbn [dents]; [intros ->; exists 0; lia|].
  intros [D R]. apply IH in R. destruct (dw_mult _ (da_wf _ _ _ D)) as [q Hq]. destruct R as [r Hr]. exists (q + r). lia.
Qed.

(** What the caller passes for the new entry: the name field starts with the name. *)
Record new_entry_ok (newdir : direntry) (newname : list Z) (newentrysize : Z) (name : list Z) : Prop := {
  ne_inode : 0 < de_inode newdir < 2 ^ 32;
  ne_type : 0 <= de_file_type newdir < 256;
  ne_len : de_name_len newdir = Z.of_nat (length name) /\ Z.of_nat (length name) < 256;
  ne_name : exists pad, newname = name ++ pad;
  ne_size : newentrysize = EXT2_DIR_REC_LEN (Z.of_nat (length name));
  ne_room : newentrysize <= 8 + Z.of_nat (length newname);
}.

(** Writing the new entry behind the packed ones. *)
Lemma written_dent newdir newname size name p rec_len b b' :
  new_entry_ok newdir newname size name -> 0 <= p -> p + rec_len <= Z.of_nat (length b) ->
  size <= rec_len < 2 ^ 16 -> (4 | rec_len) ->
  splice p (take (Z.to_nat size)
    (header (mkDe (de_inode newdir) rec_len (de_name_len newdir) (de_file_type newdir)) ++ newname)) b = Some b' ->
  dent_at p b' (mkDent (de_inode newdir) rec_len (de_file_type newdir) name).
Proof.
  intros [N1 N2 [N3 N3'] [pad ->] N5 N6] Hp Hb Hr Hm S. pose proof (splice_length _ _ _ _ S) as L.
  set (d := mkDent _ _ _ _). pose proof (need_bounds d) as Hn.
  assert (need d = size) as En by done. assert (namelen d = Z.of_nat (length name)) as El by done.
  split; [split; cbn [d_ino d_reclen d_type d]; lia || done| |cbn; lia].
  set (h := header _ ++ _) in S. assert (h = d_bytes d ++ pad) as Eh.
  { unfold h, d_bytes, d_hdr. rewrite N3, <- app_assoc. done. }
  assert (take (Z.to_nat size) h = d_bytes d ++ take (Z.to_nat size - length (d_bytes d)) pad) as Et.
  { rewrite Eh, take_app. f_equal. rewrite take_ge; [done|]. pose proof (length_d_bytes d). lia. }
  rewrite Et in S. pose proof (length_d_bytes d) as Ld.
  rewrite (slice_splice_in _ _ _ _ _ _ S), Z.sub_diag by (rewrite ?length_app; lia).
  apply slice_some. rewrite length_app. split_and!; [lia..|]. rewrite drop_0.
  by rewrite take_app_length' by lia.
Qed.

(** The choice between taking over a dead last entry and trimming a live one. *)
Lemma wp_make_room b0 lo seen d b ep hi :
  compacted b0 lo seen d b ep (need d) (hi - ep - need d) hi -> forall size,
  let p := ep + (if is_live d then need d else 0) in
  size <= hi - ep - (if is_live d then need d else 0) ->
  wp (if d_ino d =? 0 then
        if hi - ep <? size then panic "ext2_direnter: compact1"
        else mret (ep, u16 (hi - ep))
      else
        if hi - ep - need d <? size then panic "ext2_direnter: compact2"
        else put (set_rec_len ep (u16 (need d)));; mret (ep + need d, u16 (hi - ep - need d)))
    (fun r b1 => r = (p, hi - p) /\ length b1 = length b /\
       (exists l, dents b1 lo p l /\ live l = live (seen ++ [d]) /\ all_live l) /\
       agree hi (Z.of_nat (length b0)) b0 b1 /\ agree 0 lo b0 b1) b.
Proof.
  intros I size p Hs. pose proof (co_range _ _ _ _ _ _ _ _ _ I) as R. pose proof (need_bounds d).
  pose proof (co_wf _ _ _ _ _ _ _ _ _ I) as W. pose proof (dw_need _ W).
  pose proof (wp_trim (fun r b1 => r = (p, hi - p) /\ length b1 = length b /\
       (exists l, dents b1 lo p l /\ live l = live (seen ++ [d]) /\ all_live l) /\
       agree hi (Z.of_nat (length b0)) b0 b1 /\ agree 0 lo b0 b1) _ _ _ _ _ _ _ _ _ I) as T.
  unfold is_live in *. destruct (d_ino d =? 0) eqn:E; cbn [negb] in *.
  - rewrite (proj2 (Z.ltb_ge _ _)) by lia. rewrite uintw_small by lia. apply wp_ret.
    replace (ep, hi - ep) with (ep, hi - ep - need d + need d) by (f_equal; lia).
    apply T. by intros b1 ep1 -> L1 H1 H2 H3.
  - rewrite (proj2 (Z.ltb_ge _ _)) by lia. rewrite (uintw_small 16 (hi - ep - need d)) by lia.
    apply T. by intros b1 ep1 -> L1 H1 H2 H3.
Qed.

Lemma wp_write_new newdir newname size name lo hi l l1 b b1 p :
  new_entry_ok newdir newname size name -> 0 <= lo <= p -> hi <= Z.of_nat (length b) -> hi - lo < 2 ^ 16 ->
  (4 | hi - lo) -> size <= hi - p -> length b1 = length b -> dents b1 lo p l1 -> live l1 = live l -> all_live l1 ->
  agree hi (Z.of_nat (length b)) b b1 -> agree 0 lo b b1 ->
  wp (put (splice p (take (Z.to_nat size)
       (header (mkDe (de_inode newdir) (hi - p) (de_name_len newdir) (de_file_type newdir)) ++ newname))))
    (fun _ b' => exists l', agree 0 lo b b' /\ agree hi (Z.of_nat (length b)) b b' /\ dents b' lo hi l' /\
       live l' = live l ++ [(de_inode newdir, de_file_type newdir, name)] /\ all_live l') b1.
Proof.
  intros N Hp Hhi Hs Hm Hsize L1 D HL AL Up Down. set (bs := take _ _).
  pose proof (ne_size _ _ _ _ N) as Es. pose proof (rec_len_bounds (Z.of_nat (length name))) as Hrec.
  assert (Z.of_nat (length bs) = size) as Lb.
  { unfold bs. rewrite length_take, length_app, length_header. pose proof (ne_room _ _ _ _ N). lia. }
  destruct (splice_is_some p bs b1) as [b' S]; [lia|lia|]. apply (wp_put_buf _ _ _ b' S).
  assert (dent_at p b' (mkDent (de_inode newdir) (hi - p) (de_file_type newdir) name)) as Da.
  { eapply written_dent; [exact N| | | | |exact S]; try lia. apply dents_mult in D.
    replace (hi - p) with (hi - lo - (p - lo)) by lia. by apply Z.divide_sub_r. }
  assert (agree lo p b1 b') as A by (eapply agree_splice; [exact S|lia]).
  exists (l1 ++ [mkDent (de_inode newdir) (hi - p) (de_file_type newdir) name]). split_and!.
  - eapply agree_trans; [exact Down|]. eapply agree_splice; [exact S|lia].
  - eapply agree_trans; [exact Up|]. eapply agree_splice; [exact S|lia].
  - apply dents_app. exists p. split; [eapply dents_agree; [lia|exact A|done]|]. cbn [dents d_reclen]. split; [done|lia].
  - rewrite live_app, HL, live_one. unfold is_live. cbn [d_ino].
    rewrite (proj2 (Z.eqb_neq _ _)); [done|]. pose proof (ne_inode _ _ _ _ N). lia.
  - apply Forall_app. split; [done|]. constructor; [|done]. unfold is_live. cbn [d_ino].
    rewrite (proj2 (Z.eqb_neq _ _)); [done|]. pose proof (ne_inode _ _ _ _ N). lia.
Qed.

(** The whole routine, up to the point where it knows whether the entry fits. *)
Lemma enter_slot_prefix newdir newname size name lo hi l b :
  new_entry_ok newdir newname size name -> 0 <= lo -> hi <= Z.of_nat (length b) -> hi - lo < 2 ^ 16 ->
  dents b lo hi l -> l <> [] ->
  exists b1 seen d ep, l = seen ++ [d] /\
    compacted b lo seen d b1 ep (need d) (hi - ep - need d) hi /\
    enter_slot lo (hi - lo) newdir newname size b =
      (('(ep, rec_len) ←
         (if de_inode (d_hdr d) =? 0 then
            if hi - ep - need d + need d <? size then panic "ext2_direnter: compact1"
            else mret (ep, u16 (hi - ep - need d + need d))
          else
            if hi - ep - need d <? size then panic "ext2_direnter: compact2"
            else put (set_rec_len ep (u16 (need d)));; mret (ep + need d, u16 (hi - ep - need d)));
        let newdir := mkDe (de_inode newdir) rec_len (de_name_len newdir) (de_file_type newdir) in
        put (splice ep (take (Z.to_nat size) (header newdir ++ newname)))) : BUF unit) b1.
Proof.
  intros N Hlo Hhi Hs D Hl. destruct l as [|d0 l]; [done|]. cbn [dents] in D. destruct D as [D0 D].
  pose proof (da_wf _ _ _ D0) as W0. pose proof (dw_need _ W0). pose proof (need_bounds d0).
  pose proof (dents_range b (lo + d_reclen d0) hi l ltac:(lia) D) as Hr.
  assert (compacted b lo [] d0 b lo (need d0) (d_reclen d0 - need d0) (lo + d_reclen d0)) as I0.
  { split; try done; try apply D0; try lia; try apply agree_refl.
    - exists []. split_and!; [done|done|by constructor].
    - cbn [app]. rewrite slack_cons. unfold free_in. change (slack []) with 0. lia. }
  pose proof (wp_compact (fun r b1 => exists seen d ep, r = (ep, need d, hi - ep - need d) /\ d0 :: l = seen ++ [d] /\
      compacted b lo seen d b1 ep (need d) (hi - ep - need d) hi)
    (S (Z.to_nat (hi - lo))) b lo hi [] d0 l b lo (need d0) (d_reclen d0 - need d0) (lo + d_reclen d0) I0 D Hs Hhi) as H1.
  apply wp_run in H1 as (r & b1 & E & seen & d & ep & -> & El & I).
  2: { lia. }
  2: { intros b' seen d ep ds sf I El. pose proof (co_sizes _ _ _ _ _ _ _ _ _ I) as [-> ->]. by exists seen, d, ep. }
  exists b1, seen, d, ep. split; [done|]. split; [done|]. unfold enter_slot.
  rewrite (bind_run _ _ _ (d_hdr d0) b) by by apply (wp_get _ _ (d_hdr d0)); [apply dent_entry|].
  cbn [de_name_len de_rec_len d_hdr]. fold (need d0).
  replace (lo + d_reclen d0 - lo) with (d_reclen d0) in E by lia.
  rewrite (bind_run _ _ _ (ep, need d, hi - ep - need d) b1) by (unfold wp; by rewrite E).
  rewrite (bind_run _ _ _ (d_hdr d) b1); [done|].
  apply (wp_get _ _ (d_hdr d)); [|done]. pose proof (co_range _ _ _ _ _ _ _ _ _ I).
  apply decode_d_bytes; [lia|apply I|apply I].
Qed.

(** Entering a name in a slot of a directory block.  When the slot is a range of
    whole entries whose free bytes suffice, the routine compacts them and adds the new
    entry behind: it does not panic, changes no byte outside the slot, and the slot is
    again a range of whole entries, all in use, whose contents are the old ones in their
    order and the new one.  When the free bytes do not suffice it panics. *)
Lemma enter_slot_adds newdir newname size name lo hi l b :
  new_entry_ok newdir newname size name -> 0 <= lo -> hi <= Z.of_nat (length b) -> hi - lo < 2 ^ 16 ->
  dents b lo hi l -> l <> [] ->
  (size <= slack l ->
     exists b' l', enter_slot lo (hi - lo) newdir newname size b = Ret tt b' /\
       agree 0 lo b b' /\ agree hi (Z.of_nat (length b)) b b' /\
       dents b' lo hi l' /\ live l' = live l ++ [(de_inode newdir, de_file_type newdir, name)] /\ all_live l') /\
  (slack l < size -> exists msg, enter_slot lo (hi - lo) newdir newname size b = Panic msg).
Proof.
  intros N Hlo Hhi Hs D Hl.
  destruct (enter_slot_prefix newdir newname size name lo hi l b N Hlo Hhi Hs D Hl) as (b1 & seen & d & ep & -> & I & ->).
  pose proof (co_range _ _ _ _ _ _ _ _ _ I) as R. pose proof (co_slack _ _ _ _ _ _ _ _ _ I) as SL.
  cbn [de_inode d_hdr]. replace (hi - ep - need d + need d) with (hi - ep) by lia. split.
  - intros Hsize. pose proof (proj1 (co_above _ _ _ _ _ _ _ _ _ I)) as L0.
    enough (wp (
         ('(ep, rec_len) ←
         (if d_ino d =? 0 then
            if hi - ep <? size then panic "ext2_direnter: compact1"
            else mret (ep, u16 (hi - ep))
          else
            if hi - ep - need d <? size then panic "ext2_direnter: compact2"
            else put (set_rec_len ep (u16 (need d)));; mret (ep + need d, u16 (hi - ep - need d)));
        let newdir := mkDe (de_inode newdir) rec_len (de_name_len newdir) (de_file_type newdir) in
        put (splice ep (take (Z.to_nat size) (header newdir ++ newname)))) : BUF unit)
      (fun _ b' => exists l', agree 0 lo b b' /\ agree hi (Z.of_nat (length b)) b b' /\ dents b' lo hi l' /\
         live l' = live (seen ++ [d]) ++ [(de_inode newdir, de_file_type newdir, name)] /\ all_live l') b1) as H.
    { apply wp_run in H as ([] & b' & E & l' & H). by exists b', l'. }
    apply wp_bind. eapply wp_mono.
    { apply (wp_make_room _ lo seen d b1 ep hi I size). by rewrite SL in Hsize. }
    intros [p rec] b2 ([= -> ->] & L2 & (l1 & D1 & HL & AL) & Up & Down).
    pose proof (need_bounds d). apply dents_mult in D.
    eapply wp_write_new; [exact N| | | | | | |exact D1|exact HL|exact AL|exact Up|exact Down]; try done; try congruence;
      destruct (is_live d); lia.
  - intros Hsize. unfold is_live in SL. destruct (d_ino d =? 0); cbn [negb] in SL;
      rewrite (proj2 (Z.ltb_lt _ _)) by lia; by eexists.
Qed.

(** ** Removing and rewriting an entry *)

(** Replacing the entry at [mid] of a range. *)
Lemma dents_replace b b' lo mid hi l1 d d' l2 :
  0 <= lo -> dents b lo mid l1 -> dents b (mid + d_reclen d) hi l2 ->
  agree lo mid b b' -> agree (mid + d_reclen d) hi b b' -> dent_at mid b' d' -> d_reclen d' = d_reclen d ->
  0 <= mid -> dents b' lo hi (l1 ++ d' :: l2).
Proof.
  intros Hlo D1 D2 A1 A2 Da E Hm. apply dents_app. exists mid. split; [by eapply dents_agree|].
  cbn [dents]. split; [done|]. rewrite E. pose proof (dw_reclen _ (da_wf _ _ _ Da)).
  eapply dents_agree; [lia|exact A2|done].
Qed.

(** The first entry of a block loses its inode. *)
Definition dead_dent (d : dent) : dent := mkDent 0 (d_reclen d) (d_type d) (d_name d).

Lemma wp_remove_first (Q : unit -> list Z -> Prop) b lo hi d l n :
  0 <= lo -> hi <= Z.of_nat (length b) -> dents b lo hi (d :: l) ->
  (forall b', agree 0 lo b b' -> agree hi (Z.of_nat (length b)) b b' -> dents b' lo hi (dead_dent d :: l) -> Q tt b') ->
  wp (remove_entry lo 0 n) Q b.
Proof.
  intros Hlo Hhi D HQ. cbn [dents] in D. destruct D as [Da D]. pose proof (da_wf _ _ _ Da) as W.
  pose proof (need_bounds d). pose proof (dw_need _ W).
  pose proof (dents_range b (lo + d_reclen d) hi l ltac:(lia) D) as R. unfold remove_entry.
  destruct (splice_is_some lo (le32 0) b) as [b' S]; [lia|cbn; lia|]. apply (wp_put_buf _ _ _ b' S). apply HQ.
  - eapply agree_splice; [exact S|lia].
  - eapply agree_splice; [exact S|cbn; lia].
  - apply (dents_replace b b' lo lo hi [] d); try done; try lia.
    + apply (agree_weaken 0 lo); [done|lia|]. eapply agree_splice; [exact S|lia].
    + eapply agree_splice; [exact S|cbn; lia].
    + by apply (with_inode_at lo b).
Qed.

(** The entry before the removed one takes over its bytes. *)
Lemma wp_remove_second (Q : unit -> list Z -> Prop) b lo hi p d l :
  0 <= lo -> hi <= Z.of_nat (length b) -> hi - lo < 2 ^ 16 -> dents b lo hi (p :: d :: l) ->
  (forall b', agree 0 lo b b' -> agree hi (Z.of_nat (length b)) b b' ->
     dents b' lo hi (with_reclen (d_reclen p + d_reclen d) p :: l) -> Q tt b') ->
  wp (remove_entry lo (d_reclen p) (d_reclen d)) Q b.
Proof.
  intros Hlo Hhi Hs D HQ. cbn [dents] in D. destruct D as (Dp & Da & D).
  pose proof (da_wf _ _ _ Da) as W. pose proof (need_bounds d). pose proof (dw_need _ W).
  pose proof (da_wf _ _ _ Dp) as Wp. pose proof (need_bounds p). pose proof (dw_need _ Wp).
  pose proof (dents_range b (lo + d_reclen p + d_reclen d) hi l ltac:(lia) D) as R.
  unfold remove_entry. rewrite (proj2 (Z.eqb_neq _ _)) by lia. wp_steps.
  apply (wp_get _ _ (d_hdr p)); [apply dent_entry; done || lia|]. cbn [de_rec_len d_hdr]. rewrite uintw_small by lia.
  destruct (splice_is_some (lo + 4) (le16 (d_reclen p + d_reclen d)) b) as [b' S]; [lia|cbn; lia|].
  apply (wp_put_buf _ _ _ b' S). apply HQ.
  - eapply agree_splice; [exact S|lia].
  - eapply agree_splice; [exact S|cbn; lia].
  - apply (dents_replace b b' lo lo hi [] (with_reclen (d_reclen p + d_reclen d) p)); try done; try lia;
      cbn [d_reclen with_reclen].
    + by rewrite Z.add_assoc.
    + apply (agree_weaken 0 lo); [done|lia|]. eapply agree_splice; [exact S|lia].
    + eapply agree_splice; [exact S|cbn; lia].
    + apply (with_reclen_at lo b); try done; try lia. apply Z.divide_add_r; [apply Wp|apply W].
Qed.

(** The tables of file types are read inside their bounds for the types that exist. *)
Lemma DTTOFT_mode mode : 0 <= mode < 2 ^ 16 -> IFTODT mode <> 15 ->
  exists t, DTTOFT (IFTODT mode) = Some t /\ 0 <= t < 256.
Proof.
  intros Hm Hne. assert (0 <= IFTODT mode < 16) as Hr.
  { unfold IFTODT. rewrite Z.shiftr_div_pow2 by lia.
    assert (is_uint 16 (Z.land mode 61440)) as [H1 H2] by (apply uint_land; [lia|done|lia]).
    split; [apply Z.div_pos; lia|apply Z.div_lt_upper_bound; lia]. }
  unfold DTTOFT. change (Z.of_nat (length dt_to_ext2_ft)) with 15. rewrite (proj2 (Z.ltb_ge _ _)) by lia.
  assert (forall x : Z, 0 <= x < 15 -> exists t, dt_to_ext2_ft !! Z.to_nat x = Some t /\ 0 <= t < 256) as H.
  { intros x Hx. assert (x = 0 \/ x = 1 \/ x = 2 \/ x = 3 \/ x = 4 \/ x = 5 \/ x = 6 \/ x = 7 \/ x = 8 \/ x = 9 \/
      x = 10 \/ x = 11 \/ x = 12 \/ x = 13 \/ x = 14) as Hc by lia.
    repeat destruct Hc as [-> |Hc]; [..|subst x]; eexists; (split; [reflexivity|lia]). }
  apply H. lia.
Qed.

(** Rewriting an entry replaces the inode number and the file type of that entry and
    nothing else.  The type is the one of the mode when the file system records types,
    else 0. *)
Lemma rewrite_entry_replaces b lo hi l1 d l2 mid i_number i_mode filetype :
  0 <= lo -> hi <= Z.of_nat (length b) -> 0 < i_number < 2 ^ 32 -> 0 <= i_mode < 2 ^ 16 -> IFTODT i_mode <> 15 ->
  dents b lo mid l1 -> dents b mid hi (d :: l2) ->
  exists b' t, rewrite_entry mid i_number i_mode filetype b = Ret tt b' /\
    agree 0 lo b b' /\ agree hi (Z.of_nat (length b)) b b' /\
    dents b' lo hi (l1 ++ mkDent i_number (d_reclen d) t (d_name d) :: l2) /\
    (if filetype then DTTOFT (IFTODT i_mode) = Some t else t = 0).
Proof.
  intros Hlo Hhi Hi Hm Hne D1 D2. cbn [dents] in D2. destruct D2 as [Da D2].
  destruct (DTTOFT_mode i_mode Hm Hne) as (t0 & Et & Ht).
  set (t := if filetype then t0 else 0). assert (0 <= t < 256) as Htr by (unfold t; destruct filetype; lia).
  enough (wp (rewrite_entry mid i_number i_mode filetype) (fun _ b' => agree 0 lo b b' /\
    agree hi (Z.of_nat (length b)) b b' /\ dents b' lo hi (l1 ++ mkDent i_number (d_reclen d) t (d_name d) :: l2)) b) as H.
  { apply wp_run in H as ([] & b' & E & H1 & H2 & H3). exists b', t. split_and!; try done. unfold t. by destruct filetype. }
  pose proof (dents_range b lo mid l1 Hlo D1) as R1. pose proof (da_wf _ _ _ Da) as W.
  pose proof (need_bounds d). pose proof (dw_need _ W). pose proof (dw_reclen _ W).
  pose proof (dents_range b (mid + d_reclen d) hi l2 ltac:(lia) D2) as R2. unfold rewrite_entry.
  destruct (splice_is_some mid (le32 i_number) b) as [b1 S1]; [lia|cbn; lia|]. apply wp_bind, (wp_put_buf _ _ _ b1 S1).
  pose proof (splice_length _ _ _ _ S1) as L1. destruct (splice_is_some (mid + 7) [t] b1) as [b2 S2]; [lia|cbn; lia|].
  assert (wp (put (set_file_type mid t)) (fun _ b' => agree 0 lo b b' /\
    agree hi (Z.of_nat (length b)) b b' /\ dents b' lo hi (l1 ++ mkDent i_number (d_reclen d) t (d_name d) :: l2)) b1) as H'.
  2: { unfold t in H'. destruct filetype; [|done]. wp_steps. by apply (wp_access _ t0). }
  apply (wp_put_buf _ _ _ b2 S2).
  assert (forall l h, h <= mid \/ mid + 8 <= l -> agree l h b b2) as A.
  { intros l h Hlh. eapply agree_trans; eapply agree_splice; [exact S1| |exact S2|]; cbn; lia. }
  split_and!; [apply A; lia|apply A; lia|].
  apply (dents_replace b b2 lo mid hi l1 d); try done; try lia; [apply A; lia|apply A; lia|].
  apply (with_type_at mid b1 b2 (mkDent i_number (d_reclen d) (d_type d) (d_name d))); [lia| |done|done].
  apply (with_inode_at mid b); done || lia.
Qed.
