(* ===== verification/Dir.v ===== *)
(** * Directories (src/src/gnu/ext2fs/ext2_lookup.c)

    The search of [ext2_lookupi] in a directory that is not indexed ([is_dx] is false),
    what it leaves in the directory's inode, and the operations that use it.  The state
    is the inode of the directory and the contents of its blocks; a block without
    contents is one whose read fails.  The name cache of the kernel is not modelled. *)

From S2P Require Import Prelude Dirent Dirslot.

(** ** Data *)

(** The directory part of [struct inode]. *)
Record dirinode := mkDirinode {
  dp_number : Z;
  dp_mode : Z;
  dp_nlink : Z;
  dp_uid : Z;
  dp_size : Z;
  dp_flag : Z;
  dp_lastnamei : Z;
  dp_count : Z;
  dp_endoff : Z;
  dp_diroff : Z;
  dp_offset : Z;
  dp_ino : Z;
  dp_reclen : Z;
}.

Record dirstate := mkDirstate { dp : dirinode; blocks : gmap Z (list Z) }.

(** Mount parameters: [s_blocksize], [f_iosize], [s_inodes_count], the switch [dirchk]
    and whether the mount is read-only. *)
Record dirfs := mkDirfs {
  fs_blocksize : Z;
  fs_iosize : Z;
  fs_inodes_count : Z;
  dirchk : bool;
  fs_rdonly : bool;
}.

Inductive slotstatus := NONE | COMPACT | FOUND.

#[export] Instance slotstatus_eq_dec : EqDecision slotstatus.
Proof. solve_decision. Defined.

Record searchslot := mkSlot {
  slot_status : slotstatus;
  slotoffset : Z;
  slotsize : Z;
  slotfreespace : Z;
  slotneeded : Z;
}.

Inductive nameiop := LOOKUP | CREATE | DELETE | RENAME.

#[export] Instance nameiop_eq_dec : EqDecision nameiop.
Proof. solve_decision. Defined.

Definition nameiop_num (op : nameiop) : Z :=
  match op with LOOKUP => 0 | CREATE => 1 | DELETE => 2 | RENAME => 3 end.

(** What [lookup] is asked: [componentname], the credentials, and [vpp <> NULL]. *)
Record lookup_args := mkArgs {
  cn_nameiop : nameiop;
  cn_name : list Z;
  islastcn : bool;
  wantparent : bool;
  isdotdot : bool;
  cr_uid : Z;
  vpp : bool;
}.

(** The vnode that is returned: the directory itself or that of an inode. *)
Inductive vnode := VSelf | VInode (ino : Z).

Definition ENOENT : Z := 2.
Definition EIO : Z := 5.
Definition EPERM : Z := 1.
Definition EISDIR : Z := 21.
Definition EJUSTRETURN : Z := -2.
Definition IN_CHANGE : Z := 2.
Definition IN_UPDATE : Z := 4.
Definition ISVTX : Z := 512.

Abbreviation DIR := (kern dirstate).

Definition upd_dp (f : dirinode -> dirinode) (s : dirstate) : dirstate := mkDirstate (f (dp s)) (blocks s).
Definition set_offset (x : Z) (d : dirinode) : dirinode :=
  mkDirinode (dp_number d) (dp_mode d) (dp_nlink d) (dp_uid d) (dp_size d) (dp_flag d) (dp_lastnamei d)
    (dp_count d) (dp_endoff d) (dp_diroff d) x (dp_ino d) (dp_reclen d).
Definition set_found (ino reclen : Z) (d : dirinode) : dirinode :=
  mkDirinode (dp_number d) (dp_mode d) (dp_nlink d) (dp_uid d) (dp_size d) (dp_flag d) (dp_lastnamei d)
    (dp_count d) (dp_endoff d) (dp_diroff d) (dp_offset d) ino reclen.
Definition set_count (x : Z) (d : dirinode) : dirinode :=
  mkDirinode (dp_number d) (dp_mode d) (dp_nlink d) (dp_uid d) (dp_size d) (dp_flag d) (dp_lastnamei d)
    x (dp_endoff d) (dp_diroff d) (dp_offset d) (dp_ino d) (dp_reclen d).
Definition set_endoff (x : Z) (d : dirinode) : dirinode :=
  mkDirinode (dp_number d) (dp_mode d) (dp_nlink d) (dp_uid d) (dp_size d) (dp_flag d) (dp_lastnamei d)
    (dp_count d) x (dp_diroff d) (dp_offset d) (dp_ino d) (dp_reclen d).
Definition set_diroff (x : Z) (d : dirinode) : dirinode :=
  mkDirinode (dp_number d) (dp_mode d) (dp_nlink d) (dp_uid d) (dp_size d) (dp_flag d) (dp_lastnamei d)
    (dp_count d) (dp_endoff d) x (dp_offset d) (dp_ino d) (dp_reclen d).
Definition set_size (x : Z) (d : dirinode) : dirinode :=
  mkDirinode (dp_number d) (dp_mode d) (dp_nlink d) (dp_uid d) x (dp_flag d) (dp_lastnamei d)
    (dp_count d) (dp_endoff d) (dp_diroff d) (dp_offset d) (dp_ino d) (dp_reclen d).
Definition set_flags (m : Z) (d : dirinode) : dirinode :=
  mkDirinode (dp_number d) (dp_mode d) (dp_nlink d) (dp_uid d) (dp_size d) (Z.lor (dp_flag d) m) (dp_lastnamei d)
    (dp_count d) (dp_endoff d) (dp_diroff d) (dp_offset d) (dp_ino d) (dp_reclen d).
Definition set_lastnamei (x : Z) (d : dirinode) : dirinode :=
  mkDirinode (dp_number d) (dp_mode d) (dp_nlink d) (dp_uid d) (dp_size d) (dp_flag d) x
    (dp_count d) (dp_endoff d) (dp_diroff d) (dp_offset d) (dp_ino d) (dp_reclen d).

(** ** The search *)

Definition ext2_dirbad (fs : dirfs) (how : string) : DIR unit :=
  if fs_rdonly fs then mret tt else panic how.

(** [true]: the entry is bad. *)
Definition ext2_dirbadentry_locked (fs : dirfs) (de : direntry) (entryoffsetinblock : Z) : bool :=
  let rlen := de_rec_len de in
  if rlen <? EXT2_DIR_REC_LEN 1 then true
  else if negb (rlen mod 4 =? 0) then true
  else if rlen <? EXT2_DIR_REC_LEN (de_name_len de) then true
  else if fs_blocksize fs <? entryoffsetinblock + rlen then true
  else if fs_inodes_count fs <? de_inode de then true
  else false.

(** [ext2_blkatoff]: the block of the buffer, or [None] for an error. *)
Definition ext2_blkatoff (fs : dirfs) (offset : Z) : DIR (option Z) :=
  s ← gets id;
  let lbn := offset / fs_blocksize fs in
  mret (match blocks s !! lbn with Some _ => Some lbn | None => None end).

(** The slot that is looked for, after the entry [e] at [off]. *)
Definition account (off : Z) (e : direntry) (ss : searchslot) : searchslot :=
  if decide (slot_status ss = FOUND) then ss
  else
    let size := de_rec_len e - (if de_inode e =? 0 then 0 else EXT2_DIR_REC_LEN (de_name_len e)) in
    if 0 <? size then
      if slotneeded ss <=? size then
        mkSlot FOUND off (de_rec_len e) (slotfreespace ss) (slotneeded ss)
      else if decide (slot_status ss = NONE) then
        let free := slotfreespace ss + size in
        let start := if slotoffset ss =? -1 then off else slotoffset ss in
        if slotneeded ss <=? free
        then mkSlot COMPACT start (off + de_rec_len e - start) free (slotneeded ss)
        else mkSlot NONE start (slotsize ss) free (slotneeded ss)
      else ss
    else ss.

(** At the start of a block the search for a slot starts again. *)
Definition restart (blksiz entryoffsetinblock : Z) (ss : searchslot) : searchslot :=
  if decide (slot_status ss = NONE) then
    if Z.land entryoffsetinblock (blksiz - 1) =? 0
    then mkSlot NONE (-1) (slotsize ss) 0 (slotneeded ss) else ss
  else ss.

(** The local variables of the search: the buffer, [entryoffsetinblock], [prevoff],
    [enduseful] and the slot. *)
Record cursor := mkCursor {
  c_bp : option Z;
  c_eoff : Z;
  c_prevoff : Z;
  c_enduseful : Z;
  c_ss : searchslot;
}.

Inductive search :=
| Found (ep : direntry) (c : cursor)
| NotFound (c : cursor)
| Failed (error : Z).

(** Whether the entry has the name. *)
Definition name_matches (name : list Z) (ep : direntry) (eoff : Z) (data : list Z) : DIR bool :=
  if negb (de_inode ep =? 0) && (de_name_len ep =? Z.of_nat (length name))
  then n ← access (name_at eoff (de_name_len ep) data); mret (bool_decide (n = name))
  else mret false.

(** [searchloop:] *)
Fixpoint searchloop (fuel : nat) (fs : dirfs) (name : list Z) (endsearch : Z) (c : cursor) : DIR search :=
  match fuel with
  | O => out_of_fuel
  | S fuel =>
      s ← gets id;
      let offset := dp_offset (dp s) in
      if offset <? endsearch then
        r ← (if Z.land offset (fs_iosize fs - 1) =? 0 then
               b ← ext2_blkatoff fs offset;
               mret (match b with None => inl EIO | Some lbn => inr (Some lbn, 0) end)
             else mret (inr (c_bp c, c_eoff c)));
        match r with
        | inl error => mret (Failed error)
        | inr (bp, eoff) =>
            let ss := restart (fs_blocksize fs) eoff (c_ss c) in
            data ← access (lbn ← bp; blocks s !! lbn);
            ep ← access (entry_at eoff data);
            if (de_rec_len ep =? 0) || (dirchk fs && ext2_dirbadentry_locked fs ep eoff) then
              ext2_dirbad fs "ext2_dirbad: bad dir (mangled entry)";;
              let i := fs_blocksize fs - Z.land eoff (fs_blocksize fs - 1) in
              modify (upd_dp (set_offset (i32 (offset + i))));;
              searchloop fuel fs name endsearch (mkCursor bp (i32 (eoff + i)) (c_prevoff c) (c_enduseful c) ss)
            else
              let ss := account offset ep ss in
              m ← name_matches name ep eoff data;
              if m : bool then
                modify (upd_dp (set_found (de_inode ep) (de_rec_len ep)));;
                mret (Found ep (mkCursor bp eoff (c_prevoff c) (c_enduseful c) ss))
              else
                let offset' := i32 (offset + de_rec_len ep) in
                modify (upd_dp (set_offset offset'));;
                searchloop fuel fs name endsearch
                  (mkCursor bp (i32 (eoff + de_rec_len ep)) offset
                     (if de_inode ep =? 0 then c_enduseful c else offset') ss)
        end
      else mret (NotFound c)
  end.

(** ** [ext2_lookupi] *)

(** Where the search starts: the buffer, the cursor and the number of passes; an error
    when the block of the last lookup cannot be read. *)
Definition lookup_start (fs : dirfs) (op : nameiop) (ss : searchslot) : DIR (Z + cursor * bool) :=
  s ← gets id;
  let d := dp s in
  let bmask := fs_iosize fs - 1 in
  if bool_decide (op <> LOOKUP) || (dp_diroff d =? 0) || (dp_size d <? u64 (dp_diroff d)) then
    modify (upd_dp (set_offset 0));;
    mret (inr (mkCursor None 0 0 0 ss, false))
  else
    modify (upd_dp (set_offset (dp_diroff d)));;
    let eoff := Z.land (dp_diroff d) bmask in
    if eoff =? 0 then mret (inr (mkCursor None 0 (dp_diroff d) 0 ss, true))
    else
      b ← ext2_blkatoff fs (dp_diroff d);
      match b with
      | None => mret (inl EIO)
      | Some lbn => mret (inr (mkCursor (Some lbn) eoff (dp_diroff d) 0 ss, true))
      end.

(** [notfound:], behind the second pass.  [authorize] is what [vnode_authorize]
    returns. *)
Definition lookup_notfound (fs : dirfs) (authorize : Z) (a : lookup_args) (c : cursor) : DIR (Z * option vnode) :=
  s ← gets id;
  let d := dp s in
  if (bool_decide (cn_nameiop a = CREATE) || bool_decide (cn_nameiop a = RENAME))
     && islastcn a && negb (dp_nlink d =? 0) then
    if negb (authorize =? 0) then mret (authorize, None)
    else
      let ss := c_ss c in
      enduseful ←
        (if decide (slot_status ss = NONE) then
           let offset := i32 (roundup (dp_size d) (fs_blocksize fs)) in
           modify (upd_dp (set_offset offset));;
           modify (upd_dp (set_count 0));;
           mret offset
         else
           modify (upd_dp (set_offset (slotoffset ss)));;
           modify (upd_dp (set_count (slotsize ss)));;
           mret (if c_enduseful c <? slotoffset ss + slotsize ss
                 then i32 (slotoffset ss + slotsize ss) else c_enduseful c));
      modify (upd_dp (set_endoff (i32 (roundup enduseful (fs_blocksize fs)))));;
      modify (upd_dp (set_flags (Z.lor IN_CHANGE IN_UPDATE)));;
      mret (EJUSTRETURN, None)
  else mret (ENOENT, None).

(** [found:].  [vget ino] is what [EXT2_VGET] returns for the inode, and its owner. *)
Definition lookup_found (fs : dirfs) (authorize : Z) (vget : Z -> Z * Z) (a : lookup_args)
    (ep : direntry) (c : cursor) : DIR (Z * option vnode) :=
  s ← gets id;
  (if dp_size (dp s) <? u64 (c_eoff c + EXT2_DIR_REC_LEN (de_name_len ep)) then
     ext2_dirbad fs "ext2_dirbad: bad dir (i_size too small)";;
     modify (upd_dp (set_size (c_eoff c + EXT2_DIR_REC_LEN (de_name_len ep))));;
     modify (upd_dp (set_flags (Z.lor IN_CHANGE IN_UPDATE)))
   else mret tt);;
  (if islastcn a && bool_decide (cn_nameiop a = LOOKUP)
   then modify (upd_dp (set_diroff (i32 (Z.land (dp_offset (dp s)) (Z.lnot (fs_blocksize fs - 1))))))
   else mret tt);;
  s ← gets id;
  let d := dp s in
  if bool_decide (cn_nameiop a = DELETE) && islastcn a then
    if vpp a && negb (authorize =? 0) then mret (authorize, None)
    else
      modify (upd_dp (set_count
        (if Z.land (dp_offset d) (fs_blocksize fs - 1) =? 0 then 0 else i32 (dp_offset d - c_prevoff c))));;
      if dp_number d =? dp_ino d then mret (0, if vpp a then Some VSelf else None)
      else if vpp a then
        let '(error, uid) := vget (dp_ino d) in
        if negb (error =? 0) then mret (error, None)
        else if negb (Z.land (dp_mode d) ISVTX =? 0) && negb (cr_uid a =? 0)
                && negb (cr_uid a =? dp_uid d) && negb (uid =? cr_uid a)
        then mret (EPERM, None)
        else mret (0, Some (VInode (dp_ino d)))
      else mret (0, None)
  else if bool_decide (cn_nameiop a = RENAME) && wantparent a && islastcn a then
    if vpp a && negb (authorize =? 0) then mret (authorize, None)
    else if dp_number d =? dp_ino d then mret (EISDIR, None)
    else if vpp a then
      let '(error, _) := vget (dp_ino d) in
      if negb (error =? 0) then mret (error, None) else mret (0, Some (VInode (dp_ino d)))
    else mret (0, None)
  else if vpp a then
    if isdotdot a then
      (* the value of [error] is 0: it was last set by a read that succeeded *)
      let '(error', _) := vget (dp_ino d) in
      if negb (error' =? 0) then mret (0, None) else mret (0, Some (VInode (dp_ino d)))
    else if dp_number d =? dp_ino d then mret (0, Some VSelf)
    else
      let '(error, _) := vget (dp_ino d) in
      if negb (error =? 0) then mret (error, None) else mret (0, Some (VInode (dp_ino d)))
  else mret (0, None).

(** The error and [*vpp]. *)
Definition ext2_lookupi (fs : dirfs) (authorize : Z) (vget : Z -> Z * Z) (a : lookup_args) : DIR (Z * option vnode) :=
  let op := cn_nameiop a in
  let ss :=
    if (bool_decide (op = CREATE) || bool_decide (op = RENAME)) && islastcn a
    then mkSlot NONE (-1) 0 0 (EXT2_DIR_REC_LEN (Z.of_nat (length (cn_name a))))
    else mkSlot FOUND (-1) 0 0 0 in
  modify (upd_dp (set_lastnamei (nameiop_num op)));;
  st ← lookup_start fs op ss;
  match st with
  | inl error => mret (error, None)
  | inr (c, twopasses) =>
      s ← gets id;
      let endsearch := i32 (roundup (dp_size (dp s)) (fs_blocksize fs)) in
      r ← searchloop (S (Z.to_nat endsearch)) fs (cn_name a) endsearch c;
      r ← (match r with
           | NotFound c =>
               if twopasses : bool then
                 modify (upd_dp (set_offset 0));;
                 s ← gets id;
                 let endsearch := dp_diroff (dp s) in
                 searchloop (S (Z.to_nat endsearch)) fs (cn_name a) endsearch c
               else mret r
           | _ => mret r
           end);
      match r with
      | Failed error => mret (error, None)
      | NotFound c => lookup_notfound fs authorize a c
      | Found ep c => lookup_found fs authorize vget a ep c
      end
  end.

(** ** The operations on entries *)

(** A routine that works on the contents of a block. *)
Definition with_block {A} (lbn : Z) (m : BUF A) : DIR A := fun s =>
  match blocks s !! lbn with
  | None => Fault
  | Some b =>
      match m b with
      | Ret a b' => Ret a (mkDirstate (dp s) (<[lbn := b']> (blocks s)))
      | Panic msg => Panic msg
      | Fault => Fault
      | OutOfFuel => OutOfFuel
      end
  end.

Definition IN_DX_UPDATE : Z := 256.

(** The entry goes into the slot of [i_count] bytes at [i_offset]; [flags] are set in
    the inode.  [ext2fs_add_entry] is this, and the end of [ext2_direnter] has a copy. *)
Definition enter_in_slot (flags : Z) (fs : dirfs) (entry : direntry) (name : list Z) (newentrysize : Z) : DIR Z :=
  s ← gets id;
  let d := dp s in
  (if dp_size d <? u64 (dp_offset d + dp_count d) then modify (upd_dp (set_size (dp_offset d + dp_count d)))
   else mret tt);;
  b ← ext2_blkatoff fs (dp_offset d);
  match b with
  | None => mret EIO
  | Some lbn =>
      with_block lbn (enter_slot (dp_offset d mod fs_blocksize fs) (dp_count d) entry name newentrysize);;
      modify (upd_dp (set_flags flags));;
      mret 0
  end.

(** [bwrite] is the error of the write of the block, here and below. *)
Definition ext2fs_add_entry (fs : dirfs) (entry : direntry) (name : list Z) (newentrysize bwrite : Z) : DIR Z :=
  error ← enter_in_slot (Z.lor IN_CHANGE IN_UPDATE) fs entry name newentrysize;
  mret (if negb (error =? 0) then error else bwrite).

(** The start of [ext2_direnter]: the information of the last lookup is used when it was
    for a creation and found room, else the lookup is done again. *)
Definition direnter_room (fs : dirfs) (authorize : Z) (vget : Z -> Z * Z) (a : lookup_args) : DIR Z :=
  s ← gets id;
  if (dp_lastnamei (dp s) =? nameiop_num CREATE)
     && (EXT2_DIR_REC_LEN (Z.of_nat (length (cn_name a))) <=? dp_count (dp s))
  then mret 0
  else
    '(error, _) ← ext2_lookupi fs authorize vget a;
    mret (if (error =? 0) || (error =? EJUSTRETURN) then 0 else error).

(** [struct dcache], a cached position of an entry. *)
Record dcache := mkDcache {
  d_offset : Z;
  d_count : Z;
  d_refct : Z;
  dc_reclen : Z;
  d_namelen : Z;
  dc_name : list Z;
}.

Definition e2copydcache (dcp : dcache) (d : dirinode) : dirinode :=
  mkDirinode (dp_number d) (dp_mode d) (dp_nlink d) (dp_uid d) (dp_size d) (dp_flag d) (dp_lastnamei d)
    (d_count dcp) (dp_endoff d) (dp_diroff d) (d_offset dcp) (dp_ino d) (dc_reclen dcp).

(** The cached position of the entry, or a new lookup; the error of the lookup. *)
Definition entry_position (fs : dirfs) (authorize : Z) (vget : Z -> Z * Z) (a : lookup_args)
    (dcp : option dcache) : DIR Z :=
  match dcp with
  | Some dcp => modify (upd_dp (e2copydcache dcp));; mret 0
  | None => '(error, _) ← ext2_lookupi fs authorize vget a; mret error
  end.

(** The entry at the position goes. *)
Definition remove_at (fs : dirfs) (bwrite : Z) : DIR Z :=
  s ← gets id;
  let d := dp s in
  let offset := dp_offset d - dp_count d in
  b ← ext2_blkatoff fs offset;
  match b with
  | None => mret EIO
  | Some lbn =>
      with_block lbn (remove_entry (offset mod fs_blocksize fs) (dp_count d) (dp_reclen d));;
      (if bwrite =? 0 then modify (upd_dp (set_flags (Z.lor (Z.lor IN_CHANGE IN_UPDATE) IN_DX_UPDATE)))
       else mret tt);;
      mret bwrite
  end.

(** [dcp] is what [ext2_dcacheget] finds. *)
Definition ext2_dirremove (fs : dirfs) (authorize : Z) (vget : Z -> Z * Z) (a : lookup_args)
    (dcp : option dcache) (bwrite : Z) : DIR Z :=
  error ← entry_position fs authorize vget a dcp;
  if negb (error =? 0) then mret error else remove_at fs bwrite.

(** The entry at the position points to another inode. *)
Definition rewrite_at (fs : dirfs) (filetype : bool) (i_number i_mode bwrite : Z) : DIR Z :=
  s ← gets id;
  b ← ext2_blkatoff fs (dp_offset (dp s));
  match b with
  | None => mret EIO
  | Some lbn =>
      with_block lbn (rewrite_entry (dp_offset (dp s) mod fs_blocksize fs) i_number i_mode filetype);;
      modify (upd_dp (set_flags (Z.lor (Z.lor IN_CHANGE IN_UPDATE) IN_DX_UPDATE)));;
      mret bwrite
  end.

(** [i_number], [i_mode]: the inode the entry is made to point to. *)
Definition ext2_dirrewrite_nolock (fs : dirfs) (filetype : bool) (authorize : Z) (vget : Z -> Z * Z)
    (a : lookup_args) (dcp : option dcache) (i_number i_mode bwrite : Z) : DIR Z :=
  error ← entry_position fs authorize vget a dcp;
  if negb ((error =? 0) || (error =? EJUSTRETURN)) then mret error
  else rewrite_at fs filetype i_number i_mode bwrite.

(** [ext2_dirempty]: [vn_rdwr off] is what reading 12 bytes of the directory at [off]
    gives, [None] for an error or a short read; true when the directory is empty. *)
Fixpoint dirempty_loop (fuel : nat) (vn_rdwr : Z -> option (list Z)) (i_size parentino off : Z) : option bool :=
  match fuel with
  | O => None
  | S fuel =>
      if u64 off <? i_size then
        match vn_rdwr off with
        | Some ([_; _; _; _; _; _; _; _; n0; n1; _; _] as h) =>
            match decode (take 8 h) with
            | None => None
            | Some dp =>
                if de_rec_len dp =? 0 then Some false
                else if de_inode dp =? 0 then dirempty_loop fuel vn_rdwr i_size parentino (off + de_rec_len dp)
                else
                  let namlen := de_name_len dp in
                  if 2 <? namlen then Some false
                  else if negb (n0 =? 46) then Some false
                  else if namlen =? 1 then dirempty_loop fuel vn_rdwr i_size parentino (off + de_rec_len dp)
                  else if (n1 =? 46) && (de_inode dp =? parentino)
                  then dirempty_loop fuel vn_rdwr i_size parentino (off + de_rec_len dp)
                  else Some false
            end
        | _ => Some false
        end
      else Some true
  end.
Definition ext2_dirempty (vn_rdwr : Z -> option (list Z)) (i_size parentino : Z) : option bool :=
  dirempty_loop (S (Z.to_nat i_size)) vn_rdwr i_size parentino 0.

(** ** The abstract directory *)

(** The entries from offset [off] to [hi], over the blocks of the directory. *)
Fixpoint dirents (bs : Z) (blks : gmap Z (list Z)) (off hi : Z) (l : list dent) : Prop :=
  match l with
  | [] => off = hi
  | d :: l =>
      (exists b, blks !! (off / bs) = Some b /\ Z.of_nat (length b) = bs /\ dent_at (off mod bs) b d) /\
      dirents bs blks (off + d_reclen d) hi l
  end.

(** What the switch [dirchk] asks of an entry beyond its form. *)
Definition checked (fs : dirfs) (d : dent) : Prop :=
  dirchk fs = true -> EXT2_DIR_REC_LEN 1 <= d_reclen d /\ d_ino d <= fs_inodes_count fs /\
    (is_live d = true -> d_name d <> []).

Record fs_ok (fs : dirfs) : Prop := {
  fo_bsize : exists k, 2 <= k < 16 /\ fs_blocksize fs = 2 ^ k;
  fo_iosize : fs_iosize fs = fs_blocksize fs;
}.

Record dir_ok (fs : dirfs) (s : dirstate) (l : list dent) : Prop := {
  do_fs : fs_ok fs;
  do_size : 0 <= dp_size (dp s) < 2 ^ 30 /\ (fs_blocksize fs | dp_size (dp s));
  do_ents : dirents (fs_blocksize fs) (blocks s) 0 (dp_size (dp s)) l;
  do_checked : Forall (checked fs) l;
}.

(** The total length of a list of entries. *)
Definition extent (l : list dent) : Z := sumZ (d_reclen <$> l).

Definition has_name (name : list Z) (d : dent) : bool := is_live d && bool_decide (d_name d = name).

(** What the search computes: the first entry with the name, with its offset and the
    one of the entry before it; the end of the useful part; the slot. *)
Fixpoint scan (name : list Z) (bs off prev enduseful : Z) (ss : searchslot) (l : list dent)
    : option (dent * Z * Z) * Z * searchslot :=
  match l with
  | [] => (None, enduseful, ss)
  | d :: l =>
      let ss := account off (d_hdr d) (restart bs (off mod bs) ss) in
      if has_name name d then (Some (d, off, prev), enduseful, ss)
      else scan name bs (off + d_reclen d) off (if is_live d then off + d_reclen d else enduseful) ss l
  end.

(** What a lookup returns for the inode [ino]. *)
Definition vnode_of (a : lookup_args) (vget : Z -> Z * Z) (number ino : Z) : Z * option vnode :=
  if isdotdot a then
    if negb ((vget ino).1 =? 0) then (0, None) else (0, Some (VInode ino))
  else if number =? ino then (0, Some VSelf)
  else if negb ((vget ino).1 =? 0) then ((vget ino).1, None) else (0, Some (VInode ino)).

(** What the operations leave alone in the inode of the directory. *)
Definition same_dir (d d' : dirinode) : Prop :=
  dp_number d' = dp_number d /\ dp_nlink d' = dp_nlink d /\ dp_diroff d' = dp_diroff d.

(** ** Block arithmetic *)

Section search.
Context (fs : dirfs) (Hfs : fs_ok fs).
Local Abbreviation bs := (fs_blocksize fs).

Lemma bs_bounds : 4 <= bs < 2 ^ 16.
Proof.
  destruct Hfs as [(k & Hk & ->) _]. split.
  - change 4 with (2 ^ 2). apply Z.pow_le_mono_r; lia.
  - apply Z.pow_lt_mono_r; lia.
Qed.

Lemma land_mask x : Z.land x (bs - 1) = x mod bs.
Proof.
  destruct Hfs as [(k & Hk & ->) _]. rewrite <- Z.land_ones by lia. f_equal. by rewrite Z.ones_equiv.
Qed.

Lemma lnot_mask x : Z.land x (Z.lnot (bs - 1)) = x - x mod bs.
Proof.
  destruct Hfs as [(k & Hk & ->) _]. rewrite <- land_lnot_ones by lia. do 2 f_equal. by rewrite Z.ones_equiv.
Qed.

Lemma mod_mod_bs x : (x mod bs) mod bs = x mod bs.
Proof. apply Z.mod_mod. pose proof bs_bounds. lia. Qed.

Lemma roundup_mult x : (bs | x) -> roundup x bs = x.
Proof.
  pose proof bs_bounds. intros [q ->]. unfold roundup.
  replace (q * bs + (bs - 1)) with (bs - 1 + q * bs) by lia. rewrite Z.div_add, Z.div_small by lia. lia.
Qed.

(** The block and the position in it after an entry. *)
Lemma next_pos off n : 0 <= off -> 0 < n -> off mod bs + n <= bs ->
  (off mod bs + n < bs /\ (off + n) / bs = off / bs /\ (off + n) mod bs = off mod bs + n) \/
  (off mod bs + n = bs /\ (off + n) mod bs = 0).
Proof.
  pose proof bs_bounds. intros Ho Hn Hle. pose proof (Z.div_mod off bs ltac:(lia)) as E.
  pose proof (Z.mod_pos_bound off bs ltac:(lia)).
  destruct (decide (off mod bs + n < bs)).
  - left. split; [done|]. split; symmetry.
    + apply (Z.div_unique_pos _ _ _ (off mod bs + n)); lia.
    + apply (Z.mod_unique_pos _ _ (off / bs)); lia.
  - right. split; [lia|]. symmetry. apply (Z.mod_unique_pos _ _ (off / bs + 1)); lia.
Qed.

Lemma dirents_head off hi d l blks :
  dirents bs blks off hi (d :: l) -> 0 <= off ->
  0 < d_reclen d < 2 ^ 16 /\ off mod bs + d_reclen d <= bs /\ need d <= d_reclen d.
Proof.
  intros [(b & _ & Hb & [W _ F]) _] Ho. pose proof (dw_need _ W). pose proof (need_bounds d).
  pose proof (dw_reclen _ W). lia.
Qed.

Lemma dirents_range off hi l blks : dirents bs blks off hi l -> 0 <= off -> off <= hi.
Proof.
  revert off. induction l as [|d l IH]; intros off D Ho; [cbn in D; lia|].
  pose proof (dirents_head off hi d l blks D Ho). destruct D as [_ D]. apply IH in D; lia.
Qed.

Lemma dirents_app blks off hi l1 l2 :
  dirents bs blks off hi (l1 ++ l2) <-> dirents bs blks off (off + extent l1) l1 /\ dirents bs blks (off + extent l1) hi l2.
Proof.
  revert off. induction l1 as [|d l1 IH]; intros off; cbn [dirents app].
  - unfold extent. cbn. rewrite Z.add_0_r. naive_solver.
  - rewrite IH. change (extent (d :: l1)) with (d_reclen d + extent l1). rewrite Z.add_assoc. naive_solver.
Qed.

(** ** The search computes [scan] *)

(** The buffer holds the block of the current position, unless a new block starts. *)
Definition at_offset (off : Z) (c : cursor) : Prop :=
  off mod bs <> 0 -> c_bp c = Some (off / bs) /\ c_eoff c = off mod bs.

Definition with_offset (off : Z) (s : dirstate) : dirstate := upd_dp (set_offset off) s.

(** The outcome of the search, seen from outside. *)
Definition search_result (name : list Z) (off hi : Z) (s0 : dirstate) (c : cursor) (l : list dent)
    (r : search) (s : dirstate) : Prop :=
  match scan name bs off (c_prevoff c) (c_enduseful c) (c_ss c) l with
  | (Some (d, o, p), endu, ss) =>
      r = Found (d_hdr d) (mkCursor (Some (o / bs)) (o mod bs) p endu ss) /\
      s = upd_dp (set_found (d_ino d) (d_reclen d)) (with_offset o s0)
  | (None, endu, ss) =>
      exists bp eoff p, r = NotFound (mkCursor bp eoff p endu ss) /\ s = with_offset hi s0
  end.

Lemma good_entry off b d :
  checked fs d -> 0 <= off -> Z.of_nat (length b) = bs -> dent_at (off mod bs) b d ->
  (de_rec_len (d_hdr d) =? 0) || (dirchk fs && ext2_dirbadentry_locked fs (d_hdr d) (off mod bs)) = false.
Proof.
  intros Ck Ho Hb [W _ F]. pose proof (dw_need _ W) as Hn. pose proof (need_bounds d). pose proof (dw_mult _ W) as Hm.
  apply orb_false_iff. cbn [de_rec_len d_hdr]. split; [apply Z.eqb_neq; lia|].
  destruct (dirchk fs) eqn:E; [|done]. destruct (Ck E) as (C1 & C2 & _). cbn [andb].
  unfold ext2_dirbadentry_locked. cbn [de_rec_len de_name_len de_inode d_hdr].
  rewrite (proj2 (Z.ltb_ge _ _)) by lia. apply Z.mod_divide in Hm; [|lia]. rewrite Hm. cbn [negb Z.eqb].
  fold (need d). by rewrite !(proj2 (Z.ltb_ge _ _)) by lia.
Qed.

Lemma wp_name_matches (Q : bool -> dirstate -> Prop) name d o b s :
  0 <= o -> dent_at o b d -> Q (has_name name d) s -> wp (name_matches name (d_hdr d) o b) Q s.
Proof.
  intros Ho D HQ. unfold name_matches, has_name, is_live in *. cbn [de_inode de_name_len d_hdr].
  destruct (d_ino d =? 0); cbn [negb andb] in *; [by apply wp_ret|].
  destruct (Z.eqb_spec (namelen d) (Z.of_nat (length name))) as [E|E].
  - wp_steps. apply (wp_access _ (d_name d)); [by apply dent_name|]. by wp_steps.
  - apply wp_ret. rewrite bool_decide_eq_false_2 in HQ; [done|]. intros <-. by apply E.
Qed.

Lemma wp_searchloop (Q : search -> dirstate -> Prop) fuel name off hi s0 c l :
  dirents bs (blocks s0) off hi l -> Forall (checked fs) l -> 0 <= off -> hi < 2 ^ 30 -> at_offset off c ->
  hi - off < Z.of_nat fuel ->
  (forall r s', search_result name off hi s0 c l r s' -> Q r s') ->
  wp (searchloop fuel fs name hi c) Q (with_offset off s0).
Proof.
  pose proof bs_bounds as Hbs. revert off c l. induction fuel as [|fuel IH]; intros off c l D Ck Ho Hhi At Hf HQ.
  { pose proof (dirents_range _ _ _ _ D Ho). lia. }
  cbn [searchloop]. wp_steps. cbn [id with_offset upd_dp dp set_offset dp_offset blocks].
  destruct l as [|d l]; cbn [dirents] in D.
  { subst hi. rewrite (proj2 (Z.ltb_ge _ _)) by lia. apply wp_ret, HQ.
    unfold search_result. cbn [scan]. destruct c as [bp eoff p endu ss]. by exists bp, eoff, p. }
  pose proof (dirents_head off hi d l (blocks s0) D Ho) as (Hr & Hfit & Hneed).
  apply Forall_cons in Ck as [Cd Ck]. destruct D as [(b & Hb & Hlen & Da) D].
  pose proof (dirents_range _ _ _ _ D ltac:(lia)) as Hrange.
  rewrite (proj2 (Z.ltb_lt _ _)) by lia. apply wp_bind.
  assert (forall R : Z + option Z * Z -> dirstate -> Prop,
    R (inr (Some (off / bs), off mod bs)) (with_offset off s0) ->
    wp (if Z.land off (fs_iosize fs - 1) =? 0 then
          b ← ext2_blkatoff fs off;
          mret (match b with None => inl EIO | Some lbn => inr (Some lbn, 0) end)
        else mret (inr (c_bp c, c_eoff c))) R (with_offset off s0)) as Hbuf.
  { intros R HR. rewrite (fo_iosize _ Hfs), land_mask. destruct (Z.eqb_spec (off mod bs) 0) as [E|E].
    - unfold ext2_blkatoff. wp_steps. cbn [id with_offset upd_dp blocks]. rewrite Hb. by rewrite E in HR.
    - apply wp_ret. by destruct (At E) as [-> ->]. }
  apply Hbuf. clear Hbuf. cbn beta iota zeta. apply wp_bind.
  apply (wp_access _ b); [cbn [mbind option_bind]; exact Hb|]. pose proof (Z.mod_pos_bound off bs ltac:(lia)).
  apply wp_bind, (wp_access _ (d_hdr d)); [apply dent_entry; [lia|done]|].
  rewrite (good_entry off b d) by done. apply wp_bind. apply wp_name_matches; [lia|done|].
  unfold search_result in HQ. cbn [scan] in HQ. unfold is_live in HQ.
  change (negb (d_ino d =? 0)) with (is_live d) in HQ.
  destruct (has_name name d).
  { wp_steps. by apply HQ. }
  cbn [de_rec_len de_inode d_hdr]. rewrite !sintw_small by lia.
  wp_steps. apply (IH (off + d_reclen d) _ l); [done|done|lia|done| |lia|].
  - intros Hne. cbn [c_bp c_eoff]. destruct (next_pos off (d_reclen d) Ho ltac:(lia) Hfit) as [(H1 & -> & ->)|[_ ?]]; done.
  - intros r s' SR. apply HQ. unfold search_result in SR. cbn [c_prevoff c_enduseful c_ss] in SR.
    unfold is_live. by destruct (d_ino d =? 0).
Qed.
End search.

(** ** What [scan] finds *)

Lemma extent_app l1 l2 : extent (l1 ++ l2) = extent l1 + extent l2.
Proof. unfold extent, sumZ. rewrite fmap_app. induction (d_reclen <$> l1); cbn in *; lia. Qed.

Lemma extent_cons d l : extent (d :: l) = d_reclen d + extent l.
Proof. done. Qed.

Lemma extent_one d : extent [d] = d_reclen d.
Proof. rewrite extent_cons. unfold extent. cbn. lia. Qed.

Lemma slack_one d : slack [d] = free_in d.
Proof. rewrite slack_cons. change (slack []) with 0. lia. Qed.

(** The offset of the entry before the end of [l]; [prev] when there is none. *)
Definition prev_of (off prev : Z) (l : list dent) : Z :=
  match last l with Some d => off - d_reclen d | None => prev end.

Lemma scan_found name bs off prev endu ss l d o p endu' ss' :
  scan name bs off prev endu ss l = (Some (d, o, p), endu', ss') ->
  exists l1 l2, l = l1 ++ d :: l2 /\ has_name name d = true /\ Forall (fun x => has_name name x = false) l1 /\
    o = off + extent l1 /\ p = prev_of o prev l1.
Proof.
  revert off prev endu ss. induction l as [|x l IH]; intros off prev endu ss; cbn [scan]; [done|].
  destruct (has_name name x) eqn:E.
  - intros [= <- <- <- <- <-]. exists [], l. split_and!; try done. unfold extent. cbn. lia.
  - intros H. apply IH in H as (l1 & l2 & -> & H1 & H2 & -> & Hp). exists (x :: l1), l2.
    rewrite extent_cons. split_and!; try done; [by constructor|lia|]. rewrite Hp. unfold prev_of.
    replace (off + (d_reclen x + extent l1)) with (off + d_reclen x + extent l1) by lia.
    destruct l1 as [|y l1]; [cbn; unfold extent; cbn; lia|]. rewrite last_cons_cons.
    destruct (last (y :: l1)) eqn:El; [done|]. by apply last_None in El.
Qed.

Lemma scan_none name bs off prev endu ss l endu' ss' :
  scan name bs off prev endu ss l = (None, endu', ss') ->
  Forall (fun x => has_name name x = false) l /\
  exists a b, l = a ++ b /\ Forall (fun x => is_live x = false) b /\
    (endu' = off + extent a \/ a = [] /\ endu' = endu).
Proof.
  revert off prev endu ss. induction l as [|x l IH]; intros off prev endu ss; cbn [scan].
  - intros [= <- <-]. split; [done|]. exists [], []. split_and!; try done. by right.
  - destruct (has_name name x) eqn:E; [done|]. intros H.
    apply IH in H as (H1 & a & b & -> & H2 & H3). split; [by constructor|].
    destruct H3 as [-> |[-> ->]].
    + exists (x :: a), b. split_and!; try done. left. rewrite extent_cons. lia.
    + destruct (is_live x) eqn:L.
      * exists [x], b. split_and!; try done. left. rewrite extent_cons. unfold extent. cbn. lia.
      * exists [], (x :: b). split_and!; [done|by constructor|by right].
Qed.

Section slot.
Context (fs : dirfs) (Hfs : fs_ok fs) (needed : Z) (Hneeded : 0 < needed).
Local Abbreviation bs := (fs_blocksize fs).

(** The slot after the entries of [l] were looked at. *)
Definition slot_inv (l : list dent) (ss : searchslot) : Prop :=
  slotneeded ss = needed /\
  match slot_status ss with
  | NONE =>
      Forall (fun d => free_in d < needed) l /\ slotfreespace ss < needed /\
      (slotoffset ss = -1 /\ slotfreespace ss = 0 \/
       exists a r, l = a ++ r /\ r <> [] /\ slotoffset ss = extent a /\ slotfreespace ss = slack r /\
         extent a mod bs + extent r <= bs)
  | _ =>
      exists a r b, l = a ++ r ++ b /\ r <> [] /\ slotoffset ss = extent a /\ slotsize ss = extent r /\
        needed <= slack r /\ extent a mod bs + extent r <= bs
  end.

Lemma size_free_in d :
  de_rec_len (d_hdr d) - (if de_inode (d_hdr d) =? 0 then 0 else EXT2_DIR_REC_LEN (de_name_len (d_hdr d))) = free_in d.
Proof. unfold free_in, is_live, need. cbn. by destruct (d_ino d =? 0). Qed.

Lemma slack_snoc l d : slack (l ++ [d]) = slack l + free_in d.
Proof. by rewrite slack_app, slack_one. Qed.

Lemma extent_snoc l d : extent (l ++ [d]) = extent l + d_reclen d.
Proof. by rewrite extent_app, extent_one. Qed.

(** The slot inside the block: at the end of the block the run is over. *)
Lemma restart_inv l ss :
  0 <= extent l -> slot_inv l ss -> slot_inv l (restart bs (extent l mod bs) ss) /\
  (slot_status (restart bs (extent l mod bs) ss) = NONE -> extent l mod bs <> 0 ->
   forall a r, l = a ++ r -> slotoffset (restart bs (extent l mod bs) ss) = extent a ->
     0 <= extent a -> 0 <= extent r -> extent a mod bs + extent r <= bs ->
     extent a mod bs + extent r = extent l mod bs) /\
  (slot_status (restart bs (extent l mod bs) ss) = NONE -> extent l mod bs = 0 ->
   slotoffset (restart bs (extent l mod bs) ss) = -1 /\ slotfreespace (restart bs (extent l mod bs) ss) = 0).
Proof.
  pose proof (bs_bounds fs Hfs). intros Hl I. unfold restart. destruct (decide (slot_status ss = NONE)) as [E|E].
  - rewrite land_mask, mod_mod_bs by done. destruct (Z.eqb_spec (extent l mod bs) 0) as [E0|E0].
    + split; [|done]. destruct I as [I1 I2]. split; [done|]. rewrite E in I2. cbn.
      destruct I2 as (I2 & I3 & _). split; [done|]. split; [lia|by left].
    + split; [done|]. split; [|done]. intros _ _ a r -> _ Ha Hr Hle. rewrite extent_app in *.
      destruct (decide (extent r = 0)) as [->|]; [by rewrite !Z.add_0_r|].
      destruct (next_pos fs Hfs (extent a) (extent r)) as [(_ & _ & H1)|[_ H1]]; [lia|lia|lia|lia|]. lia.
  - split; [done|]. by split; intros.
Qed.

(** One entry. *)
Lemma account_inv l d ss :
  0 <= extent l -> 0 < d_reclen d -> need d <= d_reclen d -> extent l mod bs + d_reclen d <= bs ->
  (forall a r, l = a ++ r -> 0 <= extent a /\ 0 <= extent r) ->
  slot_inv l ss -> slot_inv (l ++ [d]) (account (extent l) (d_hdr d) (restart bs (extent l mod bs) ss)).
Proof.
  intros Hl Hr Hn Hfit Hpos I. destruct (restart_inv l ss Hl I) as ([I1 I2] & Hrun & Hnew).
  set (ss1 := restart _ _ _) in *. clearbody ss1. clear I ss.
  assert (0 <= free_in d) as Hfree by (unfold free_in; destruct (is_live d); lia).
  unfold account. rewrite size_free_in, I1. destruct (decide (slot_status ss1 = FOUND)) as [E|E].
  { split; [done|]. rewrite E in *. destruct I2 as (a & r & b & -> & H). exists a, r, (b ++ [d]). by rewrite <- !app_assoc. }
  assert (slot_status ss1 <> NONE -> slot_inv (l ++ [d]) ss1) as Keep.
  { intros Hne. split; [done|]. destruct (slot_status ss1); [done| |];
      destruct I2 as (a & r & b & -> & H); exists a, r, (b ++ [d]); by rewrite <- !app_assoc. }
  destruct (Z.ltb_spec 0 (free_in d)) as [Hf|Hf].
  2: { (* a full entry *)
    destruct (slot_status ss1) eqn:Es; [|by apply Keep|by apply Keep]. split; [done|]. rewrite Es.
    destruct I2 as (I2 & I3 & I4). split; [apply Forall_app; split; [done|constructor; [lia|done]]|]. split; [done|].
    destruct I4 as [I4|(a & r & -> & Hne & I4 & I5 & I6)]; [by left|].
    destruct (decide (extent (a ++ r) mod bs = 0)) as [E0|E0].
    { left. by destruct (Hnew eq_refl E0). }
    right. exists a, (r ++ [d]). rewrite <- app_assoc, slack_snoc, extent_snoc. destruct (Hpos a r eq_refl).
    rewrite <- (Hrun eq_refl E0 a r) in Hfit by done.
    split_and!; [done|by destruct r|done|lia|lia]. }
  destruct (Z.leb_spec needed (free_in d)) as [Hge|Hlt].
  { split; [done|]. cbn. exists l, [d], []. rewrite app_nil_r, extent_one, slack_one. by split_and!. }
  destruct (decide (slot_status ss1 = NONE)) as [En|En]; [|by apply Keep].
  rewrite En in I2. destruct I2 as (I2 & I3 & I4).
  assert (exists a r, l ++ [d] = a ++ r /\ r <> [] /\
    (if slotoffset ss1 =? -1 then extent l else slotoffset ss1) = extent a /\
    slotfreespace ss1 + free_in d = slack r /\ extent a mod bs + extent r <= bs) as (a & r & El & Hne & Ha & Hs & Hb).
  { assert (slotoffset ss1 = -1 /\ slotfreespace ss1 = 0 -> exists a r, l ++ [d] = a ++ r /\ r <> [] /\
      (if slotoffset ss1 =? -1 then extent l else slotoffset ss1) = extent a /\
      slotfreespace ss1 + free_in d = slack r /\ extent a mod bs + extent r <= bs) as Fresh.
    { intros [-> ->]. exists l, [d]. rewrite slack_one, extent_one. split_and!; done || lia. }
    destruct I4 as [I4|(a & r & -> & Hne & I4 & I5 & I6)]; [by apply Fresh|].
    destruct (decide (extent (a ++ r) mod bs = 0)) as [E0|E0]; [apply Fresh; by apply Hnew|].
    exists a, (r ++ [d]). rewrite <- app_assoc, slack_snoc, extent_snoc. destruct (Hpos a r eq_refl).
    rewrite <- (Hrun En E0 a r) in Hfit by done. rewrite (proj2 (Z.eqb_neq _ _)) by lia.
    split_and!; [done|by destruct r|done|lia|lia]. }
  rewrite Ha. destruct (Z.leb_spec needed (slotfreespace ss1 + free_in d)).
  - split; [done|]. cbn. exists a, r, []. rewrite app_nil_r. split_and!; try done; [|lia].
    rewrite <- extent_snoc, El, extent_app. lia.
  - split; [done|]. cbn. split; [apply Forall_app; split; [done|constructor; [lia|done]]|]. split; [lia|].
    right. by exists a, r.
Qed.

Lemma extent_nonneg l : Forall (fun d => 0 < d_reclen d) l -> 0 <= extent l.
Proof. induction 1 as [|d l]; [done|]. rewrite extent_cons. lia. Qed.

Lemma scan_slot name l1 prev endu ss l hi blks endu' ss' :
  scan name bs (extent l1) prev endu ss l = (None, endu', ss') ->
  dirents bs blks (extent l1) hi l -> Forall (fun d => 0 < d_reclen d) l1 ->
  slot_inv l1 ss -> slot_inv (l1 ++ l) ss'.
Proof.
  revert l1 prev endu ss. induction l as [|d l IH]; intros l1 prev endu ss; cbn [scan].
  { intros [= <- <-] _ _. by rewrite app_nil_r. }
  destruct (has_name name d); [done|]. intros H D F I. pose proof (extent_nonneg l1 F) as Hl.
  pose proof (dirents_head fs (extent l1) hi d l blks D Hl) as (H1 & H2 & H3). destruct D as [_ D].
  rewrite cons_middle, app_assoc. rewrite <- extent_snoc in *. eapply IH; [exact H|exact D| |].
  - apply Forall_app. split; [done|]. constructor; [lia|done].
  - apply account_inv; try done; try lia. intros a r ->. apply Forall_app in F as [Fa Fr].
    split; by apply extent_nonneg.
Qed.
End slot.

(** ** The theorems *)

Lemma dirents_pos fs (Hfs : fs_ok fs) blks off hi l :
  0 <= off -> dirents (fs_blocksize fs) blks off hi l -> Forall (fun d => 0 < d_reclen d) l.
Proof.
  revert off. induction l as [|d l IH]; intros off Ho D; [done|].
  pose proof (dirents_head fs off hi d l blks D Ho). destruct D as [_ D]. constructor; [lia|]. apply (IH (off + d_reclen d)); [lia|done].
Qed.

Lemma rec_len_pos n : 0 < EXT2_DIR_REC_LEN (Z.of_nat n).
Proof. pose proof (rec_len_bounds (Z.of_nat n)). lia. Qed.

(** The flags a caller that creates passes, the ones of one that removes. *)
Definition creates (a : lookup_args) : Prop :=
  (cn_nameiop a = CREATE \/ cn_nameiop a = RENAME) /\ islastcn a = true.

Definition absent (name : list Z) (l : list dent) : Prop := Forall (fun d => has_name name d = false) l.

(** The search of an operation other than [LOOKUP] looks at the whole directory. *)
Lemma wp_lookup_scan (Q : Z * option vnode -> dirstate -> Prop) fs authorize vget a s l :
  dir_ok fs s l -> cn_nameiop a <> LOOKUP ->
  let ss := if (bool_decide (cn_nameiop a = CREATE) || bool_decide (cn_nameiop a = RENAME)) && islastcn a
            then mkSlot NONE (-1) 0 0 (EXT2_DIR_REC_LEN (Z.of_nat (length (cn_name a))))
            else mkSlot FOUND (-1) 0 0 0 in
  let s0 := upd_dp (set_lastnamei (nameiop_num (cn_nameiop a))) s in
  (forall r s', search_result fs (cn_name a) 0 (dp_size (dp s)) s0 (mkCursor None 0 0 0 ss) l r s' ->
     wp (match r with
         | Failed error => mret (error, None)
         | NotFound c => lookup_notfound fs authorize a c
         | Found ep c => lookup_found fs authorize vget a ep c
         end) Q s') ->
  wp (ext2_lookupi fs authorize vget a) Q s.
Proof.
  intros [Hfs [Hs Hm] D Ck] Hop ss s0 HQ. unfold ext2_lookupi. fold ss. wp_steps. unfold lookup_start.
  rewrite (bool_decide_eq_true_2 (_ <> _)) by done. cbn [orb]. wp_steps.
  rewrite roundup_mult by done. cbn [dp upd_dp dp_size set_offset set_lastnamei id]. rewrite sintw_small by lia.
  change (upd_dp (set_offset 0) _) with (with_offset 0 s0).
  apply (wp_searchloop fs Hfs _ _ _ 0 _ s0 (mkCursor None 0 0 0 ss) l); [done|done|lia|lia| |lia|].
  - intros Hne. rewrite Z.mod_0_l in Hne; [done|]. pose proof (bs_bounds fs Hfs). lia.
  - intros r s' SR. specialize (HQ r s' SR). by destruct r; wp_steps.
Qed.

Lemma dirents_extent bs blks off hi l : dirents bs blks off hi l -> hi = off + extent l.
Proof.
  revert off. induction l as [|d l IH]; intros off D; cbn [dirents] in D.
  - unfold extent. cbn. lia.
  - destruct D as [_ D]. apply IH in D. rewrite extent_cons. lia.
Qed.

(** What the lookup leaves for the creation of an entry of [needed] bytes: a range of
    whole entries inside one block whose free bytes suffice, or [i_count = 0] and the
    end of the directory, and then no entry has room; the range and all entries in use
    lie below [i_endoff], the end of a block. *)
Record create_info (fs : dirfs) (needed : Z) (l : list dent) (s s' : dirstate) : Prop := {
  ci_blocks : blocks s' = blocks s;
  ci_size : dp_size (dp s') = dp_size (dp s);
  ci_same : same_dir (dp s) (dp s');
  ci_slot :
    dp_count (dp s') = 0 /\ dp_offset (dp s') = dp_size (dp s) /\ Forall (fun d => free_in d < needed) l \/
    exists p r q, l = p ++ r ++ q /\ r <> [] /\ dp_offset (dp s') = extent p /\ dp_count (dp s') = extent r /\
      needed <= slack r /\ extent p mod fs_blocksize fs + extent r <= fs_blocksize fs /\
      extent p + extent r <= dp_endoff (dp s');
  ci_end : (fs_blocksize fs | dp_endoff (dp s')) /\ 0 <= dp_endoff (dp s') <= dp_size (dp s);
  ci_endoff : exists p q, l = p ++ q /\ extent p <= dp_endoff (dp s') /\ Forall (fun d => is_live d = false) q;
}.

(** [notfound:] with a slot that satisfies the invariant. *)
Lemma wp_lookup_notfound (Q : Z * option vnode -> dirstate -> Prop) fs a s l u w c ss :
  fs_ok fs -> creates a -> dp_nlink (dp s) <> 0 -> 0 <= dp_size (dp s) < 2 ^ 30 -> (fs_blocksize fs | dp_size (dp s)) ->
  extent l = dp_size (dp s) -> Forall (fun d => 0 < d_reclen d) l ->
  let needed := EXT2_DIR_REC_LEN (Z.of_nat (length (cn_name a))) in
  c_ss c = ss -> slot_inv fs needed l ss ->
  l = u ++ w -> Forall (fun d => is_live d = false) w -> c_enduseful c = extent u ->
  (forall s', create_info fs needed l s s' -> dp_lastnamei (dp s') = dp_lastnamei (dp s) -> Q (EJUSTRETURN, None) s') ->
  wp (lookup_notfound fs 0 a c) Q s.
Proof.
  intros Hfs [Hop Hlast] Hn Hs Hm Hext Hpos needed Ec [I1 I2] Euw Hdead Hend HQ. pose proof (bs_bounds fs Hfs) as Hbs.
  assert (0 <= extent u <= dp_size (dp s)) as Hu.
  { rewrite Euw, Forall_app in Hpos. destruct Hpos as [Hpu Hpw]. rewrite <- Hext, Euw, extent_app.
    pose proof (extent_nonneg u Hpu). pose proof (extent_nonneg w Hpw). lia. }
  unfold lookup_notfound. wp_steps. unfold id. rewrite Hlast, (proj2 (Z.eqb_neq _ _)) by done. cbn [negb andb].
  replace (_ && true && true) with true.
  2: { rewrite !andb_true_r. symmetry. apply orb_true_iff. rewrite !bool_decide_eq_true. exact Hop. }
  rewrite (proj2 (Z.eqb_eq 0 0)) by done. cbn [negb]. rewrite Ec. wp_steps. unfold id.
  rewrite roundup_mult by done. rewrite (sintw_small 32 (dp_size (dp s))) by lia.
  destruct (decide (slot_status ss = NONE)) as [E|E].
  - wp_steps. rewrite roundup_mult, sintw_small by (done || lia). rewrite E in I2. destruct I2 as (I2 & _).
    apply HQ; [split; try done|done]; [by left|cbn; split; [done|lia]|]. exists u, w. split_and!; [done|cbn; lia|done].
  - assert (exists p r q, l = p ++ r ++ q /\ r <> [] /\ slotoffset ss = extent p /\ slotsize ss = extent r /\
        needed <= slack r /\ extent p mod fs_blocksize fs + extent r <= fs_blocksize fs) as (p & r & q & El & Hr & Eo & Es & H).
    { by destruct (slot_status ss). }
    rewrite El, !extent_app in Hext. pose proof Hpos as Hpos'. rewrite El in Hpos'.
    apply Forall_app in Hpos' as [Hp Hpos']. apply Forall_app in Hpos' as [Hpr Hpq].
    pose proof (extent_nonneg p Hp). pose proof (extent_nonneg r Hpr). pose proof (extent_nonneg q Hpq).
    wp_steps. rewrite Eo, Es. rewrite (sintw_small 32 (extent p + extent r)) by lia.
    set (e := if _ <? _ then _ else _).
    assert (0 <= e <= dp_size (dp s) /\ extent u <= e /\ extent p + extent r <= e) as (He1 & He2 & He3).
    { unfold e. rewrite Hend. destruct (Z.ltb_spec (extent u) (extent p + extent r)); lia. }
    pose proof (roundup_ge e (fs_blocksize fs) ltac:(lia) ltac:(lia)).
    pose proof (roundup_le e (fs_blocksize fs) (dp_size (dp s)) ltac:(lia) He1 Hm). rewrite sintw_small by lia.
    apply HQ; [split; try done|done]; [right; exists p, r, q; cbn; split_and!; done || lia|cbn|].
    { split; [by exists ((e + (fs_blocksize fs - 1)) / fs_blocksize fs)|lia]. } exists u, w. split_and!; [done|cbn; lia|done].
Qed.

(** A lookup for a creation, when the name does not exist. *)
Lemma wp_lookup_create (Q : Z * option vnode -> dirstate -> Prop) fs vget a s l :
  dir_ok fs s l -> creates a -> dp_nlink (dp s) <> 0 -> absent (cn_name a) l ->
  (forall s', create_info fs (EXT2_DIR_REC_LEN (Z.of_nat (length (cn_name a)))) l s s' ->
     dp_lastnamei (dp s') = nameiop_num (cn_nameiop a) -> Q (EJUSTRETURN, None) s') ->
  wp (ext2_lookupi fs 0 vget a) Q s.
Proof.
  intros Ok Hcr Hn Habs HQ. pose proof Ok as [Hfs [Hs Hm] D _]. apply dirents_extent in D as Hext.
  pose proof (dirents_pos fs Hfs _ 0 _ _ ltac:(lia) D) as Hpos. rewrite Z.add_0_l in Hext.
  apply (wp_lookup_scan _ _ _ _ _ _ l Ok); [by destruct Hcr as [[-> | ->] _]|].
  replace (_ && _) with true.
  2: { destruct Hcr as [Hop ->]. rewrite andb_true_r. symmetry. apply orb_true_iff. by rewrite !bool_decide_eq_true. }
  intros r s' SR. unfold search_result in SR. cbn [c_prevoff c_enduseful c_ss] in SR.
  destruct (scan _ _ _ _ _ _ _) as [[fnd endu] ss'] eqn:E. destruct fnd as [[[d o] p]|].
  { apply scan_found in E as (l1 & l2 & -> & Hname & _). apply Forall_app in Habs as [_ Habs].
    apply Forall_cons in Habs as [Habs _]. congruence. }
  destruct SR as (bp & eoff & p & -> & ->).
  assert (slot_inv fs (EXT2_DIR_REC_LEN (Z.of_nat (length (cn_name a)))) l ss') as Sl.
  { apply (scan_slot fs Hfs _ (rec_len_pos _) _ [] _ _ _ l (dp_size (dp s)) (blocks s) _ _ E D); [done|].
    split; [done|]. cbn. split; [done|]. split; [apply rec_len_pos|by left]. }
  apply scan_none in E as (_ & u & w & El & Hdead & Hend).
  apply (wp_lookup_notfound _ fs a _ l u w _ ss'); try done.
  - cbn. destruct Hend as [-> |[-> ->]]; [lia|done].
  - intros s'' [H1 H2 H3 H4 H5 H6] H7. apply HQ; [by split|done].
Qed.

(** Looking up a name that is to be created and does not exist yet: the search
    reads the whole directory, changes none of its blocks, and returns EJUSTRETURN with
    the place for the entry in the directory's inode ([create_info]): a range of whole
    entries inside one block whose free bytes suffice for the name; or, when no entry
    has room for it, the end of the directory. *)
Theorem lookup_creates fs vget a s l :
  dir_ok fs s l -> creates a -> dp_nlink (dp s) <> 0 -> absent (cn_name a) l ->
  exists s', ext2_lookupi fs 0 vget a s = Ret (EJUSTRETURN, None) s' /\
    create_info fs (EXT2_DIR_REC_LEN (Z.of_nat (length (cn_name a)))) l s s'.
Proof.
  intros Ok Hcr Hn Habs.
  enough (wp (ext2_lookupi fs 0 vget a) (fun x s' => x = (EJUSTRETURN, None) /\
    create_info fs (EXT2_DIR_REC_LEN (Z.of_nat (length (cn_name a)))) l s s') s) as H.
  { apply wp_run in H as (x & s' & E & -> & H). by exists s'. }
  by apply (wp_lookup_create _ fs vget a s l).
Qed.

(** ** Changing one block *)

Section change.
Context (fs : dirfs) (Hfs : fs_ok fs).
Local Abbreviation bs := (fs_blocksize fs).

(** Entries inside one block, seen in the block. *)
Lemma dirents_local blks off hi l :
  0 <= off -> dirents bs blks off hi l -> l <> [] -> off mod bs + extent l <= bs ->
  exists b, blks !! (off / bs) = Some b /\ Z.of_nat (length b) = bs /\ dents b (off mod bs) (off mod bs + extent l) l.
Proof.
  intros Ho D Hl Hfit. destruct l as [|d l]; [done|]. clear Hl. revert off d Ho D Hfit.
  induction l as [|d' l IH]; intros off d Ho D Hfit; pose proof (dirents_head fs off hi d _ blks D Ho) as (H1 & H2 & H3);
    destruct D as [(b & Hb & Hlen & Da) D]; exists b; split; [done| |done|]; split; try done.
  - cbn [dents]. rewrite extent_one. by split.
  - rewrite extent_cons in *. pose proof (dirents_pos fs Hfs blks (off + d_reclen d) hi _ ltac:(lia) D) as Hpos.
    apply Forall_cons in Hpos as Hpos'. destruct Hpos' as [Hd' _]. pose proof (extent_nonneg _ Hpos). rewrite extent_cons in *.
    apply Forall_cons in Hpos as [_ Hpos]. pose proof (extent_nonneg _ Hpos).
    destruct (next_pos fs Hfs off (d_reclen d) Ho ltac:(lia) ltac:(lia)) as [(N1 & N2 & N3)|[N1 _]]; [|lia].
    destruct (IH (off + d_reclen d) d') as (b' & Hb' & _ & D'); [lia|done|rewrite N3, extent_cons; lia|].
    rewrite N2, Hb in Hb'. injection Hb' as <-. rewrite N3, extent_cons in D'. cbn [dents] in *. split; [done|].
    by rewrite Z.add_assoc.
Qed.

(** Entries of one block, put back. *)
Lemma dirents_of_local blks off l b :
  0 <= off -> blks !! (off / bs) = Some b -> Z.of_nat (length b) = bs -> off mod bs + extent l <= bs ->
  dents b (off mod bs) (off mod bs + extent l) l -> dirents bs blks off (off + extent l) l.
Proof.
  revert off. induction l as [|d l IH]; intros off Ho Hb Hlen Hfit D; cbn [dirents].
  { unfold extent. cbn. lia. }
  rewrite extent_cons in *. cbn [dents] in D. destruct D as [Da D]. split; [by exists b|].
  rewrite Z.add_assoc in *. pose proof (da_wf _ _ _ Da) as W. pose proof (dw_need _ W). pose proof (need_bounds d).
  pose proof (bs_bounds fs Hfs). pose proof (Z.mod_pos_bound off bs ltac:(lia)) as Hm.
  pose proof (dents_range b (off mod bs + d_reclen d) (off mod bs + d_reclen d + extent l) l ltac:(lia) D) as R.
  destruct l as [|d' l]; [unfold extent; cbn; lia|].
  assert (0 < d_reclen d') as Hd'.
  { cbn [dents] in D. destruct D as [Da' _]. pose proof (dw_need _ (da_wf _ _ _ Da')). pose proof (need_bounds d'). lia. }
  assert (0 < extent (d' :: l)) as Hpos.
  { rewrite extent_cons. cbn [dents] in D. destruct D as [_ D]. apply dents_range in D; [|lia]. rewrite extent_cons in D. lia. }
  destruct (next_pos fs Hfs off (d_reclen d) Ho ltac:(lia) ltac:(lia)) as [(N1 & N2 & N3)|[N1 _]]; [|lia].
  apply IH; [lia|by rewrite N2|done|lia|]. by rewrite N3.
Qed.

(** Entries that lie below (above) the bytes that changed. *)
Lemma dirents_unchanged blks blks' off hi l :
  0 <= off -> dirents bs blks off hi l ->
  (forall o d b, off <= o -> o + d_reclen d <= hi -> o mod bs + d_reclen d <= bs ->
     blks !! (o / bs) = Some b -> Z.of_nat (length b) = bs -> dent_at (o mod bs) b d ->
     exists b', blks' !! (o / bs) = Some b' /\ Z.of_nat (length b') = bs /\ dent_at (o mod bs) b' d) ->
  dirents bs blks' off hi l.
Proof.
  revert off. induction l as [|d l IH]; intros off Ho D H; [done|].
  pose proof (dirents_head fs off hi d l blks D Ho) as (H1 & H2 & H3). destruct D as [(b & Hb & Hlen & Da) D].
  pose proof (dirents_range fs (off + d_reclen d) hi l blks D ltac:(lia)). cbn [dirents]. split.
  - apply (H off d b); done || lia.
  - apply IH; [lia|done|]. intros o d' b' Ho' Ho''. apply H; lia.
Qed.

Lemma div_mod_le x y : x <= y -> 0 <= x -> x / bs = y / bs -> x mod bs <= y mod bs.
Proof.
  intros H1 H2 E. pose proof (bs_bounds fs Hfs). pose proof (Z.div_mod x bs ltac:(lia)).
  pose proof (Z.div_mod y bs ltac:(lia)). rewrite E in *. lia.
Qed.

(** The entries [r] of one block are replaced by others of the same total length. *)
Lemma dirents_replace blks p r r' q hi b b' :
  dirents bs blks 0 hi (p ++ r ++ q) -> r <> [] -> extent p mod bs + extent r <= bs ->
  blks !! (extent p / bs) = Some b ->
  let lo := extent p mod bs in
  agree 0 lo b b' -> agree (lo + extent r) bs b b' -> dents b' lo (lo + extent r) r' -> Z.of_nat (length b) = bs ->
  dirents bs (<[extent p / bs := b']> blks) 0 hi (p ++ r' ++ q).
Proof.
  intros D Hr Hfit Hb lo A1 A2 D' Hlen. pose proof (bs_bounds fs Hfs) as Hbs.
  pose proof (dirents_pos fs Hfs blks 0 hi _ ltac:(lia) D) as Hpos. apply Forall_app in Hpos as [Hp Hpos].
  apply Forall_app in Hpos as [Hpr Hpq]. pose proof (extent_nonneg p Hp) as Ep. pose proof (extent_nonneg r Hpr) as Er.
  apply dirents_app in D as [Dp D]. apply dirents_app in D as [Dr Dq]. rewrite Z.add_0_l in *.
  assert (extent r' = extent r) as Ex by (apply dents_size in D'; unfold extent in *; lia).
  assert (length b' = length b) as L by apply A1. set (k := extent p / bs) in *.
  assert (0 <= lo < bs) as Hlo by (apply Z.mod_pos_bound; lia).
  apply dirents_app. rewrite Z.add_0_l. split; [|apply dirents_app; split].
  - apply (dirents_unchanged blks _ 0); [lia|done|]. intros o d b0 Ho Hod Hofit Hb0 Hlen0 Da.
    destruct (decide (o / bs = k)) as [E|E]; [|exists b0; rewrite lookup_insert_ne by done; done].
    rewrite E, lookup_insert_eq. rewrite E, Hb in Hb0. injection Hb0 as <-. exists b'. split; [done|]. split; [by rewrite L|].
    pose proof (dw_need _ (da_wf _ _ _ Da)). pose proof (need_bounds d). pose proof (Z.mod_pos_bound o bs ltac:(lia)).
    assert (o mod bs + d_reclen d <= lo).
    { pose proof (Z.div_mod o bs ltac:(lia)) as Eo. rewrite E in Eo.
      pose proof (Z.div_mod (extent p) bs ltac:(lia)) as Ep'. change (extent p = bs * k + lo) in Ep'. lia. }
    eapply dent_at_agree; [exact A1|lia|lia|done].
  - apply (dirents_of_local _ _ _ b'); rewrite ?Ex; try done; [by rewrite lookup_insert_eq|by rewrite L].
  - rewrite Ex. apply (dirents_unchanged blks); [lia|done|]. intros o d b0 Ho Hod Hofit Hb0 Hlen0 Da.
    destruct (decide (o / bs = k)) as [E|E]; [|exists b0; rewrite lookup_insert_ne by done; done].
    rewrite E, lookup_insert_eq. rewrite E, Hb in Hb0. injection Hb0 as <-. exists b'. split; [done|]. split; [by rewrite L|].
    pose proof (dw_need _ (da_wf _ _ _ Da)). pose proof (need_bounds d). pose proof (Z.mod_pos_bound o bs ltac:(lia)).
    assert (lo + extent r <= o mod bs).
    { pose proof (Z.div_mod o bs ltac:(lia)) as Eo. rewrite E in Eo.
      pose proof (Z.div_mod (extent p) bs ltac:(lia)) as Ep'. change (extent p = bs * k + lo) in Ep'. lia. }
    eapply dent_at_agree; [exact A2|lia|lia|done].
Qed.

Lemma dirents_block blks p r q hi :
  dirents bs blks 0 hi (p ++ r ++ q) -> r <> [] -> extent p mod bs + extent r <= bs ->
  exists b, blks !! (extent p / bs) = Some b /\ Z.of_nat (length b) = bs /\
    dents b (extent p mod bs) (extent p mod bs + extent r) r.
Proof.
  intros D Hr Hfit. pose proof (dirents_pos fs Hfs blks 0 hi _ ltac:(lia) D) as Hpos. apply Forall_app in Hpos as [Hp _].
  pose proof (extent_nonneg p Hp). apply dirents_app in D as [_ D]. apply dirents_app in D as [D _].
  rewrite Z.add_0_l in D. by apply (dirents_local blks (extent p) (extent p + extent r)).
Qed.
End change.

(** ** Entering, removing and rewriting in the directory *)

Lemma wp_with_block {A} (Q : A -> dirstate -> Prop) lbn (m : BUF A) s b :
  blocks s !! lbn = Some b -> wp m (fun x b' => Q x (mkDirstate (dp s) (<[lbn := b']> (blocks s)))) b ->
  wp (with_block lbn m) Q s.
Proof. intros Hb W. unfold wp, with_block in *. rewrite Hb. by destruct (m b). Qed.

Lemma dents_wf b lo hi l : dents b lo hi l -> Forall dent_wf l.
Proof.
  revert lo. induction l as [|d l IH]; intros lo D; [done|]. cbn [dents] in D. destruct D as [Da D].
  constructor; [apply Da|by eapply IH].
Qed.

(** The checks of a live entry are those of its inode number and its name. *)
Definition checked_key (fs : dirfs) (k : Z * Z * list Z) : Prop :=
  dirchk fs = true -> k.1.1 <= fs_inodes_count fs /\ k.2 <> [].

Lemma rec_len_mono m n : m <= n -> EXT2_DIR_REC_LEN m <= EXT2_DIR_REC_LEN n.
Proof.
  intros H. rewrite !EXT2_DIR_REC_LEN_eq. pose proof (Z.div_le_mono (m + 11) (n + 11) 4). lia.
Qed.

Lemma checked_live fs d : is_live d = true -> checked fs d -> checked_key fs (key d).
Proof. intros L C E. destruct (C E) as (_ & H1 & H2). split; [done|by apply H2]. Qed.

Lemma checked_key_live fs d : dent_wf d -> checked_key fs (key d) -> checked fs d.
Proof.
  intros W C E. destruct (C E) as [H1 H2]. cbn in H1, H2. split; [|by split].
  pose proof (dw_need _ W). assert (EXT2_DIR_REC_LEN 1 <= need d); [|lia].
  apply rec_len_mono. unfold namelen. destruct (d_name d); [done|cbn; lia].
Qed.

Lemma checked_all_live fs r r' k :
  Forall dent_wf r' -> all_live r' -> live r' = live r ++ [k] -> Forall (checked fs) r -> checked_key fs k ->
  Forall (checked fs) r'.
Proof.
  intros W AL HL Cr Ck.
  assert (Forall (checked_key fs) (live r')) as F.
  { rewrite HL. apply Forall_app. split; [|by constructor]. unfold live. apply Forall_fmap, Forall_forall.
    intros d Hd. apply list_elem_of_filter in Hd as [L Hd]. rewrite Forall_forall in Cr. cbn.
    apply checked_live; [by destruct (is_live d)|by apply Cr]. }
  assert (live r' = key <$> r') as E.
  { clear -AL. unfold live. induction AL as [|d l L AL IH]; [done|]. rewrite filter_cons_True, !fmap_cons, IH by (by rewrite L). done. }
  rewrite E, Forall_fmap in F. apply Forall_forall. intros d Hd. rewrite Forall_forall in F, W.
  apply checked_key_live; [by apply W|by apply F].
Qed.

(** An entry in the room that a lookup found. *)
Lemma wp_enter_in_slot (Q : Z -> dirstate -> Prop) flags fs entry newname size name s l p r q :
  dir_ok fs s l -> new_entry_ok entry newname size name ->
  checked_key fs (de_inode entry, de_file_type entry, name) ->
  l = p ++ r ++ q -> r <> [] -> dp_offset (dp s) = extent p -> dp_count (dp s) = extent r ->
  size <= slack r -> extent p mod fs_blocksize fs + extent r <= fs_blocksize fs ->
  (forall s' r', dir_ok fs s' (p ++ r' ++ q) -> live r' = live r ++ [(de_inode entry, de_file_type entry, name)] ->
     dp s' = set_flags flags (dp s) -> Q 0 s') ->
  wp (enter_in_slot flags fs entry newname size) Q s.
Proof.
  intros [Hfs [Hs Hm] D Ck] N Cn -> Hr Eo Ec Hsize Hfit HQ. pose proof (bs_bounds fs Hfs) as Hbs.
  pose proof (dirents_extent _ _ _ _ _ D) as Hext. rewrite !extent_app, Z.add_0_l in Hext.
  pose proof (dirents_pos fs Hfs _ 0 _ _ ltac:(lia) D) as Hpos. apply Forall_app in Hpos as [Hp Hpos].
  apply Forall_app in Hpos as [Hpr Hpq]. pose proof (extent_nonneg p Hp). pose proof (extent_nonneg r Hpr).
  pose proof (extent_nonneg q Hpq). pose proof (Z.mod_pos_bound (extent p) (fs_blocksize fs) ltac:(lia)) as Hlo.
  destruct (dirents_block fs Hfs _ _ _ _ _ D Hr Hfit) as (b & Hb & Hlen & Db).
  unfold enter_in_slot. wp_steps. unfold id. rewrite Eo, Ec, uintw_small by lia. rewrite (proj2 (Z.ltb_ge _ _)) by lia.
  wp_steps. unfold ext2_blkatoff. wp_steps. unfold id. rewrite Hb. wp_steps. apply (wp_with_block _ _ _ _ b Hb).
  destruct (enter_slot_adds entry newname size name (extent p mod fs_blocksize fs)
    (extent p mod fs_blocksize fs + extent r) r b N) as [Hadd _]; [lia|lia|lia|done|done|].
  destruct (Hadd Hsize) as (b' & r' & E & A1 & A2 & D' & HL & AL). apply wp_run. exists tt, b'.
  replace (extent p mod fs_blocksize fs + extent r - extent p mod fs_blocksize fs) with (extent r) in E by lia.
  split; [exact E|]. wp_steps. apply (HQ _ r'); [|done|done]. rewrite Hlen in A2.
  apply Forall_app in Ck as [Cp Ck]. apply Forall_app in Ck as [Cr Cq].
  split; [done|by split| |].
  - by apply (dirents_replace fs Hfs (blocks s) p r r' q (dp_size (dp s)) b b').
  - apply Forall_app. split; [done|]. apply Forall_app. split; [|done].
    eapply checked_all_live; [by eapply dents_wf|done|exact HL|done|done].
Qed.

(** The state of the inode after the entry [d] behind [l1] was found. *)
Definition found_dp (op : nameiop) (l1 : list dent) (d : dent) (i : dirinode) : dirinode :=
  set_found (d_ino d) (d_reclen d) (set_offset (extent l1) (set_lastnamei (nameiop_num op) i)).

(** The distance to the entry before, inside the block. *)
Definition dist_before (bs : Z) (l1 : list dent) : Z :=
  if extent l1 mod bs =? 0 then 0 else from_option d_reclen 0 (last l1).

(** What a lookup in the directory [i] returns for an entry of the inode [ino], when it is
    allowed. *)
Definition lookup_result (vget : Z -> Z * Z) (a : lookup_args) (i : dirinode) (ino : Z) : Z * option vnode :=
  if bool_decide (cn_nameiop a = DELETE) && islastcn a then
    if dp_number i =? ino then (0, if vpp a then Some VSelf else None)
    else if vpp a then
      if negb ((vget ino).1 =? 0) then ((vget ino).1, None)
      else if negb (Z.land (dp_mode i) ISVTX =? 0) && negb (cr_uid a =? 0)
              && negb (cr_uid a =? dp_uid i) && negb ((vget ino).2 =? cr_uid a)
      then (EPERM, None)
      else (0, Some (VInode ino))
    else (0, None)
  else if bool_decide (cn_nameiop a = RENAME) && wantparent a && islastcn a then
    if dp_number i =? ino then (EISDIR, None)
    else if vpp a then
      if negb ((vget ino).1 =? 0) then ((vget ino).1, None) else (0, Some (VInode ino))
    else (0, None)
  else if vpp a then vnode_of a vget (dp_number i) ino
  else (0, None).

(** A lookup of an operation other than [LOOKUP], for a name that exists. *)
Lemma wp_lookup_found (Q : Z * option vnode -> dirstate -> Prop) fs authorize vget a s l1 d l2 :
  dir_ok fs s (l1 ++ d :: l2) -> cn_nameiop a <> LOOKUP -> vpp a = false \/ authorize = 0 ->
  has_name (cn_name a) d = true -> absent (cn_name a) l1 ->
  (forall x i,
     i = (if bool_decide (cn_nameiop a = DELETE) && islastcn a
          then set_count (dist_before (fs_blocksize fs) l1) (found_dp (cn_nameiop a) l1 d (dp s))
          else found_dp (cn_nameiop a) l1 d (dp s)) ->
     x = lookup_result vget a (dp s) (d_ino d) ->
     Q x (mkDirstate i (blocks s))) ->
  wp (ext2_lookupi fs authorize vget a) Q s.
Proof.
  intros Ok Hop Hvpp Hname Habs HQ. pose proof Ok as [Hfs [Hs Hm] D _]. pose proof (bs_bounds fs Hfs) as Hbs.
  pose proof (dirents_extent _ _ _ _ _ D) as Hext. rewrite extent_app, extent_cons, Z.add_0_l in Hext.
  pose proof (dirents_pos fs Hfs _ 0 _ _ ltac:(lia) D) as Hpos. apply Forall_app in Hpos as [Hp1 Hpos].
  apply Forall_cons in Hpos as [Hd Hp2]. pose proof (extent_nonneg l1 Hp1) as E1. pose proof (extent_nonneg l2 Hp2).
  apply (wp_lookup_scan _ _ _ _ _ _ _ Ok Hop). intros r s' SR. unfold search_result in SR.
  cbn [c_prevoff c_enduseful c_ss] in SR. destruct (scan _ _ _ _ _ _ _) as [[fnd endu] ss'] eqn:E.
  destruct fnd as [[[d' o] p]|].
  2: { apply scan_none in E as [E _]. apply Forall_app in E as [_ E]. apply Forall_cons in E as [E _]. congruence. }
  destruct SR as [-> ->]. apply scan_found in E as (u & w & El & Hn' & Hu & -> & ->).
  assert (u = l1 /\ d' = d) as [-> ->].
  { clear -El Hn' Hu Hname Habs. revert u El Hu. induction l1 as [|x l1 IH]; intros [|y u] El Hu; simplify_eq/=; try done.
    - apply Forall_cons in Hu as [Hu _]. congruence.
    - apply Forall_cons in Habs as [Habs _]. congruence.
    - apply Forall_cons in Habs as [_ Habs]. apply Forall_cons in Hu as [_ Hu]. destruct (IH Habs u) as [-> ->]; done. }
  rewrite Z.add_0_l. apply dirents_app in D as [D1 D]. rewrite Z.add_0_l in D.
  pose proof (dirents_head fs _ _ _ _ _ D E1) as (R1 & R2 & R3). pose proof (need_bounds d).
  pose proof (Z.mod_pos_bound (extent l1) (fs_blocksize fs) ltac:(lia)) as Hmod.
  pose proof (Z.mod_le (extent l1) (fs_blocksize fs) E1 ltac:(lia)) as Hmodle.
  unfold lookup_found. wp_steps. cbn [id dp upd_dp dp_size set_found with_offset set_offset set_lastnamei c_eoff de_name_len d_hdr].
  fold (need d). rewrite uintw_small by lia. rewrite (proj2 (Z.ltb_ge _ _)) by lia. wp_steps.
  rewrite (bool_decide_eq_false_2 (cn_nameiop a = LOOKUP)) by done. rewrite andb_false_r. wp_steps.
  cbn [id dp upd_dp dp_size set_found with_offset set_offset set_lastnamei dp_number dp_ino dp_offset c_prevoff].
  assert (vpp a && negb (authorize =? 0) = false) as -> by (destruct Hvpp as [-> | ->]; [done|by rewrite andb_false_r]).
  unfold lookup_result in HQ. specialize (HQ _ _ eq_refl eq_refl).
  destruct (bool_decide (cn_nameiop a = DELETE) && islastcn a) eqn:Edel; cbn [negb andb] in *.
  - wp_steps.
    assert ((if Z.land (extent l1) (fs_blocksize fs - 1) =? 0 then 0
             else i32 (extent l1 - prev_of (extent l1) 0 l1)) = dist_before (fs_blocksize fs) l1) as Edist.
    { rewrite land_mask by done. unfold dist_before. destruct (Z.eqb_spec (extent l1 mod fs_blocksize fs) 0) as [|Hne]; [done|].
      unfold prev_of. destruct (last l1) as [x|] eqn:El1; cbn [from_option].
      - replace (extent l1 - (extent l1 - d_reclen x)) with (d_reclen x) by lia. apply sintw_small; [lia|].
        apply last_Some in El1 as [l1' ->]. rewrite extent_snoc in *. apply Forall_app in Hp1 as [Hp1 Hx].
        apply Forall_cons in Hx as [Hx _]. pose proof (extent_nonneg l1' Hp1). lia.
      - apply last_None in El1. subst l1. unfold extent in Hne. cbn in Hne. by rewrite Z.mod_0_l in Hne by lia. }
    rewrite Edist.
    destruct (vpp a).
    + destruct (dp_number (dp s) =? d_ino d); [wp_steps; exact HQ|]. destruct (vget (d_ino d)) as [e u]. cbn [fst snd] in HQ.
      destruct (negb (e =? 0)); [wp_steps; exact HQ|]. destruct (_ && _ && _ && _); wp_steps; exact HQ.
    + destruct (dp_number (dp s) =? d_ino d); wp_steps; exact HQ.
  - destruct (bool_decide (cn_nameiop a = RENAME) && wantparent a && islastcn a); cbn [negb andb] in *.
    + destruct (dp_number (dp s) =? d_ino d); [wp_steps; exact HQ|]. destruct (vpp a); [|wp_steps; exact HQ].
      destruct (vget (d_ino d)) as [e u]. cbn [fst snd] in HQ. destruct (negb (e =? 0)); wp_steps; exact HQ.
    + destruct (vpp a); [|wp_steps; exact HQ]. unfold vnode_of in HQ. destruct (isdotdot a).
      * destruct (vget (d_ino d)) as [e u]. cbn [fst snd] in HQ. destruct (negb (e =? 0)); wp_steps; exact HQ.
      * destruct (dp_number (dp s) =? d_ino d); [wp_steps; exact HQ|]. destruct (vget (d_ino d)) as [e u]. cbn [fst snd] in HQ.
        destruct (negb (e =? 0)); wp_steps; exact HQ.
Qed.

(** A lookup for a removal of a name that does not exist. *)
Lemma wp_lookup_missing (Q : Z * option vnode -> dirstate -> Prop) fs authorize vget a s l :
  dir_ok fs s l -> cn_nameiop a = DELETE -> absent (cn_name a) l ->
  (forall off, Q (ENOENT, None) (with_offset off (upd_dp (set_lastnamei (nameiop_num (cn_nameiop a))) s))) ->
  wp (ext2_lookupi fs authorize vget a) Q s.
Proof.
  intros Ok Hop Habs HQ. apply (wp_lookup_scan _ _ _ _ _ _ _ Ok); [by rewrite Hop|]. intros r s' SR.
  unfold search_result in SR. destruct (scan _ _ _ _ _ _ _) as [[fnd endu] ss'] eqn:E. destruct fnd as [[[d o] p]|].
  { apply scan_found in E as (u & w & -> & Hn & _). apply Forall_app in Habs as [_ Habs].
    apply Forall_cons in Habs as [Habs _]. congruence. }
  destruct SR as (bp & eoff & p & -> & ->). unfold lookup_notfound. wp_steps. rewrite Hop. cbn [orb andb bool_decide decide_rel].
  rewrite !bool_decide_eq_false_2 by done. cbn [orb andb]. wp_steps. rewrite <- Hop. apply HQ.
Qed.

(** The two ways to remove: the first entry of a block loses its inode, another one is
    merged into the entry before it. *)
Lemma wp_remove_entry fs s l1 d l2 :
  dir_ok fs s (l1 ++ d :: l2) ->
  let c := dist_before (fs_blocksize fs) l1 in
  let off := extent l1 - c in
  exists b, blocks s !! (off / fs_blocksize fs) = Some b /\
    wp (remove_entry (off mod fs_blocksize fs) c (d_reclen d)) (fun _ b' => exists l',
      dirents (fs_blocksize fs) (<[off / fs_blocksize fs := b']> (blocks s)) 0 (dp_size (dp s)) l' /\
      Forall (checked fs) l' /\ live l' = live l1 ++ live l2) b.
Proof.
  intros [Hfs [Hs Hm] D Ck]. pose proof (bs_bounds fs Hfs) as Hbs.
  pose proof (dirents_extent _ _ _ _ _ D) as Hext. rewrite extent_app, extent_cons, Z.add_0_l in Hext.
  pose proof (dirents_pos fs Hfs _ 0 _ _ ltac:(lia) D) as Hpos. apply Forall_app in Hpos as [Hp1 Hpos].
  apply Forall_cons in Hpos as [Hd Hp2]. pose proof (extent_nonneg l1 Hp1) as E1. pose proof (extent_nonneg l2 Hp2).
  apply dirents_app in D as D'. destruct D' as [D1 D2]. rewrite Z.add_0_l in D1, D2.
  pose proof (dirents_head fs _ _ _ _ _ D2 E1) as (R1 & R2 & R3).
  apply Forall_app in Ck as [Ck1 Ck]. apply Forall_cons in Ck as [Cd Ck2].
  cbv zeta. unfold dist_before in *. destruct (Z.eqb_spec (extent l1 mod fs_blocksize fs) 0) as [E0|E0].
  - destruct (dirents_block fs Hfs _ l1 [d] l2 _ D) as (b & Hb & Hlen & Db); [done|rewrite extent_one; lia|].
    rewrite Z.sub_0_r. exists b. split; [done|].
    rewrite extent_one in Db. eapply wp_remove_first; [|..|exact Db|]; [lia|lia|]. intros b' A1 A2 D'. rewrite Hlen in A2.
    exists (l1 ++ [dead_dent d] ++ l2). split_and!.
    + apply (dirents_replace fs Hfs (blocks s) l1 [d] [dead_dent d] l2 (dp_size (dp s)) b b'); try done; rewrite ?extent_one; done.
    + apply Forall_app. split; [done|]. apply Forall_app. split; [|done]. constructor; [|done].
      intros Edc. destruct (Cd Edc) as (C1 & C2 & C3). split; [done|]. split; [|done]. cbn.
      pose proof (dw_ino _ (da_wf _ _ _ (proj1 Db))). lia.
    + by rewrite !live_app.
  - destruct (last l1) as [x|] eqn:El1; cbn [from_option] in *.
    2: { apply last_None in El1. subst l1. unfold extent in E0. cbn in E0. by rewrite Z.mod_0_l in E0 by lia. }
    apply last_Some in El1 as [u ->]. rewrite extent_snoc in *. apply Forall_app in Hp1 as [Hpu Hx]. apply Forall_cons in Hx as [Hx _].
    pose proof (extent_nonneg u Hpu) as Eu. apply dirents_app in D1 as [Du Dx]. rewrite Z.add_0_l in Dx.
    pose proof (dirents_head fs _ _ _ _ _ Dx Eu) as (S1 & S2 & S3).
    destruct (next_pos fs Hfs (extent u) (d_reclen x) Eu ltac:(lia) S2) as [(N1 & N2 & N3)|[_ N1]]; [|lia].
    rewrite <- app_assoc in D. change ([x] ++ d :: l2) with ([x; d] ++ l2) in D.
    assert (extent [x; d] = d_reclen x + d_reclen d) as Exd by (rewrite extent_cons, extent_one; done).
    destruct (dirents_block fs Hfs _ u [x; d] l2 _ D) as (b & Hb & Hlen & Db); [done|lia|].
    pose proof (Z.mod_pos_bound (extent u) (fs_blocksize fs) ltac:(lia)).
    replace (extent u + d_reclen x - d_reclen x) with (extent u) by lia. exists b. split; [done|].
    rewrite Exd in Db. eapply wp_remove_second; [|..|exact Db|]; [lia|lia|lia|]. intros b' A1 A2 D'. rewrite Hlen in A2.
    exists (u ++ [with_reclen (d_reclen x + d_reclen d) x] ++ l2). split_and!.
    + apply (dirents_replace fs Hfs (blocks s) u [x; d] [with_reclen (d_reclen x + d_reclen d) x] l2 (dp_size (dp s)) b b');
        try done; rewrite ?Exd; done || lia.
    + apply Forall_app in Ck1 as [Cu Cx]. apply Forall_cons in Cx as [Cx _].
      apply Forall_app. split; [done|]. apply Forall_app. split; [|done]. constructor; [|done].
      intros Edc. destruct (Cx Edc) as (C1 & C2 & C3). split; [cbn; lia|done].
    + rewrite !live_app, <- app_assoc. f_equal. by rewrite !live_one.
Qed.

Lemma wp_remove_at (Q : Z -> dirstate -> Prop) fs bwrite s l1 d l2 :
  dir_ok fs s (l1 ++ d :: l2) -> dp_offset (dp s) = extent l1 ->
  dp_count (dp s) = dist_before (fs_blocksize fs) l1 -> dp_reclen (dp s) = d_reclen d ->
  (forall s' l', dir_ok fs s' l' -> live l' = live l1 ++ live l2 -> same_dir (dp s) (dp s') -> dp_size (dp s') = dp_size (dp s) -> Q bwrite s') ->
  wp (remove_at fs bwrite) Q s.
Proof.
  intros Ok Eo Ec Er HQ. pose proof Ok as [Hfs Hs _ _]. destruct (wp_remove_entry fs s l1 d l2 Ok) as (b & Hb & W).
  unfold remove_at. wp_steps. unfold id. rewrite Eo, Ec, Er. unfold ext2_blkatoff. wp_steps. unfold id. rewrite Hb. wp_steps.
  apply (wp_with_block _ _ _ _ b Hb). eapply wp_mono; [exact W|]. intros [] b' (l' & D' & C' & HL).
  destruct (bwrite =? 0); wp_steps; (apply (HQ _ l'); [split| | |]); done.
Qed.

Lemma wp_rewrite_at (Q : Z -> dirstate -> Prop) fs (filetype : bool) name i_number i_mode bwrite s l1 d l2 :
  dir_ok fs s (l1 ++ d :: l2) -> has_name name d = true -> dp_offset (dp s) = extent l1 ->
  0 < i_number < 2 ^ 32 -> i_number <= fs_inodes_count fs -> 0 <= i_mode < 2 ^ 16 -> IFTODT i_mode <> 15 ->
  (forall s' (t : Z), dir_ok fs s' (l1 ++ mkDent i_number (d_reclen d) t (d_name d) :: l2) ->
     (if filetype then DTTOFT (IFTODT i_mode) = Some t else t = 0) -> same_dir (dp s) (dp s') ->
     dp_size (dp s') = dp_size (dp s) -> Q bwrite s') ->
  wp (rewrite_at fs filetype i_number i_mode bwrite) Q s.
Proof.
  intros Ok Hname Eo Hi Hcount Hm Hdt HQ. pose proof Ok as [Hfs Hs D Ck]. pose proof (bs_bounds fs Hfs) as Hbs.
  pose proof (dirents_pos fs Hfs _ 0 _ _ ltac:(lia) D) as Hpos. apply Forall_app in Hpos as [Hp1 Hpos].
  pose proof (extent_nonneg l1 Hp1) as E1. apply dirents_app in D as D'. destruct D' as [D1 D2]. rewrite Z.add_0_l in D1, D2.
  pose proof (dirents_head fs _ _ _ _ _ D2 E1) as (R1 & R2 & R3).
  unfold rewrite_at. wp_steps. unfold id. rewrite Eo.
  destruct (dirents_block fs Hfs _ l1 [d] l2 _ D) as (b & Hb & Hlen & Db); [done|rewrite extent_one; lia|]. rewrite extent_one in Db.
  pose proof (Z.mod_pos_bound (extent l1) (fs_blocksize fs) ltac:(lia)).
  unfold ext2_blkatoff. wp_steps. unfold id. cbn [blocks]. rewrite Hb. wp_steps. apply (wp_with_block _ _ _ _ b); [done|].
  destruct (rewrite_entry_replaces b (extent l1 mod fs_blocksize fs) (extent l1 mod fs_blocksize fs + d_reclen d) [] d []
    (extent l1 mod fs_blocksize fs) i_number i_mode filetype) as (b' & t & E & A1 & A2 & D' & Ht); try done; [lia|lia|].
  apply wp_run. exists tt, b'. split; [exact E|]. wp_steps. rewrite Hlen in A2. apply (HQ _ t); [|done..].
  split; [done|done| |].
  - apply (dirents_replace fs Hfs (blocks s) l1 [d] [mkDent i_number (d_reclen d) t (d_name d)] l2 (dp_size (dp s)) b b');
      try done; rewrite ?extent_one; done.
  - apply Forall_app in Ck as [Ck1 Ck]. apply Forall_cons in Ck as [Cd Ck2]. apply Forall_app. split; [done|].
    constructor; [|done]. intros Edc. destruct (Cd Edc) as (C1 & C2 & C3). split; [done|]. split; [done|]. intros _.
    apply C3. unfold has_name in Hname. by apply andb_true_iff in Hname as [-> _].
Qed.

(** ** Plain lookups *)

(** A block boundary is between two entries. *)
Lemma dirents_split fs (Hfs : fs_ok fs) blks off hi l m :
  0 <= off -> dirents (fs_blocksize fs) blks off hi l -> (fs_blocksize fs | m) -> off <= m <= hi ->
  exists la lb, l = la ++ lb /\ off + extent la = m.
Proof.
  revert off. induction l as [|d l IH]; intros off Ho D Hm Hr.
  { cbn in D. subst hi. exists [], []. split; [done|]. unfold extent. cbn. lia. }
  destruct (decide (off = m)) as [->|Hne].
  { exists [], (d :: l). split; [done|]. unfold extent. cbn. lia. }
  pose proof (dirents_head fs _ _ _ _ _ D Ho) as (H1 & H2 & H3). destruct D as [_ D].
  pose proof (bs_bounds fs Hfs). assert (off + d_reclen d <= m).
  { destruct Hm as [q ->]. pose proof (Z.div_mod off (fs_blocksize fs) ltac:(lia)).
    pose proof (Z.mod_pos_bound off (fs_blocksize fs) ltac:(lia)). assert (off / fs_blocksize fs < q) by nia. nia. }
  destruct (IH (off + d_reclen d) ltac:(lia) D Hm ltac:(lia)) as (la & lb & -> & E).
  exists (d :: la), lb. split; [done|]. rewrite extent_cons. lia.
Qed.

Lemma scan_present name bs off prev endu ss l1 d l2 :
  has_name name d = true -> absent name l1 ->
  exists p endu' ss', scan name bs off prev endu ss (l1 ++ d :: l2) = (Some (d, off + extent l1, p), endu', ss').
Proof.
  intros Hd. revert off prev endu ss. induction l1 as [|x l1 IH]; intros off prev endu ss Ha; cbn [app scan].
  - rewrite Hd. unfold extent. cbn. rewrite Z.add_0_r. by eexists _, _, _.
  - apply Forall_cons in Ha as [Hx Ha]. rewrite Hx.
    destruct (IH (off + d_reclen x) off (if is_live x then off + d_reclen x else endu)
      (account off (d_hdr x) (restart bs (off mod bs) ss)) Ha) as (p & e' & s' & ->).
    exists p, e', s'. rewrite extent_cons. by rewrite Z.add_assoc.
Qed.

Lemma scan_absent name bs off prev endu ss l : absent name l ->
  exists endu' ss', scan name bs off prev endu ss l = (None, endu', ss').
Proof.
  revert off prev endu ss. induction l as [|x l IH]; intros off prev endu ss Ha; cbn [scan]; [by eexists _, _|].
  apply Forall_cons in Ha as [Hx Ha]. rewrite Hx. by apply IH.
Qed.

(** The directory as the lookups see it: the cached offset is that of a block. *)
Definition diroff_ok (fs : dirfs) (s : dirstate) : Prop :=
  0 <= dp_diroff (dp s) < 2 ^ 31 /\ (fs_blocksize fs | dp_diroff (dp s)).

(** The outcome of a plain lookup, for a name that is there at most once. *)
Inductive name_at_most_once (name : list Z) (l : list dent) : option (list dent * dent) -> Prop :=
| name_once l1 d l2 : l = l1 ++ d :: l2 -> has_name name d = true -> absent name l1 -> absent name l2 ->
    name_at_most_once name l (Some (l1, d))
| name_never : absent name l -> name_at_most_once name l None.

Lemma wp_found_lookup (Q : Z * option vnode -> dirstate -> Prop) fs authorize vget a s0 hi l1 d l2 p endu ss :
  fs_ok fs -> dirents (fs_blocksize fs) (blocks s0) 0 hi (l1 ++ d :: l2) -> hi <= dp_size (dp s0) < 2 ^ 30 ->
  cn_nameiop a = LOOKUP -> vpp a = true -> diroff_ok fs s0 ->
  (forall s', blocks s' = blocks s0 -> dp_size (dp s') = dp_size (dp s0) -> diroff_ok fs s' ->
     dp_number (dp s') = dp_number (dp s0) -> dp_nlink (dp s') = dp_nlink (dp s0) -> dp_offset (dp s') = extent l1 -> dp_ino (dp s') = d_ino d ->
     Q (vnode_of a vget (dp_number (dp s0)) (d_ino d)) s') ->
  wp (lookup_found fs authorize vget a (d_hdr d)
        (mkCursor (Some (extent l1 / fs_blocksize fs)) (extent l1 mod fs_blocksize fs) p endu ss)) Q
     (upd_dp (set_found (d_ino d) (d_reclen d)) (with_offset (extent l1) s0)).
Proof.
  intros Hfs D Hhi Hop Hvpp [Hd1 Hd2] HQ. pose proof (bs_bounds fs Hfs) as Hbs.
  pose proof (dirents_extent _ _ _ _ _ D) as Hext. rewrite extent_app, extent_cons, Z.add_0_l in Hext.
  pose proof (dirents_pos fs Hfs _ 0 _ _ ltac:(lia) D) as Hpos. apply Forall_app in Hpos as [Hp1 Hpos].
  apply Forall_cons in Hpos as [Hd Hp2]. pose proof (extent_nonneg l1 Hp1) as E1. pose proof (extent_nonneg l2 Hp2).
  apply dirents_app in D as [_ D]. rewrite Z.add_0_l in D.
  pose proof (dirents_head fs _ _ _ _ _ D E1) as (R1 & R2 & R3). pose proof (need_bounds d).
  pose proof (Z.mod_pos_bound (extent l1) (fs_blocksize fs) ltac:(lia)) as Hmod.
  pose proof (Z.mod_le (extent l1) (fs_blocksize fs) E1 ltac:(lia)) as Hmodle.
  unfold lookup_found. wp_steps.
  cbn [id dp upd_dp dp_size dp_offset set_found with_offset set_offset c_eoff de_name_len d_hdr].
  fold (need d). rewrite uintw_small by lia. rewrite (proj2 (Z.ltb_ge _ _)) by lia. wp_steps.
  rewrite Hop. rewrite (bool_decide_eq_true_2 (LOOKUP = LOOKUP)), !(bool_decide_eq_false_2 (LOOKUP = _)) by done.
  rewrite andb_true_r. cbn [andb].
  assert (forall s', s' = upd_dp (set_found (d_ino d) (d_reclen d)) (with_offset (extent l1) s0) \/
            s' = upd_dp (set_diroff (extent l1 - extent l1 mod fs_blocksize fs))
                   (upd_dp (set_found (d_ino d) (d_reclen d)) (with_offset (extent l1) s0)) ->
    Q (vnode_of a vget (dp_number (dp s0)) (d_ino d)) s') as HQ'.
  { intros s' [-> | ->]; apply HQ; try done. unfold diroff_ok. cbn. split; [lia|].
    exists (extent l1 / fs_blocksize fs). pose proof (Z.div_mod (extent l1) (fs_blocksize fs) ltac:(lia)). lia. }
  assert (forall s', s' = upd_dp (set_found (d_ino d) (d_reclen d)) (with_offset (extent l1) s0) \/
            s' = upd_dp (set_diroff (extent l1 - extent l1 mod fs_blocksize fs))
                   (upd_dp (set_found (d_ino d) (d_reclen d)) (with_offset (extent l1) s0)) ->
    wp (s ← gets id;
        let d := dp s in
        if vpp a then
          if isdotdot a then
            let '(error', _) := vget (dp_ino d) in
            if negb (error' =? 0) then mret (0, None) else mret (0, Some (VInode (dp_ino d)))
          else if dp_number d =? dp_ino d then mret (0, Some VSelf)
          else
            let '(error, _) := vget (dp_ino d) in
            if negb (error =? 0) then mret (error, None) else mret (0, Some (VInode (dp_ino d)))
        else mret (0, None)) Q s') as Rest.
  { intros s' Es. specialize (HQ' s' Es). wp_steps. unfold id. rewrite Hvpp.
    assert (dp_ino (dp s') = d_ino d /\ dp_number (dp s') = dp_number (dp s0)) as [-> ->] by (by destruct Es as [-> | ->]).
    unfold vnode_of in HQ'. destruct (vget (d_ino d)) as [e u]. cbn [fst] in HQ'. destruct (isdotdot a).
    - destruct (negb (e =? 0)); by wp_steps.
    - destruct (dp_number (dp s0) =? d_ino d); [by wp_steps|]. destruct (negb (e =? 0)); by wp_steps. }
  destruct (islastcn a).
  - rewrite lnot_mask, sintw_small by (done || lia). wp_steps. cbn [upd_dp dp set_diroff] in Rest. apply (Rest _ (or_intror eq_refl)).
  - wp_steps. apply (Rest _ (or_introl eq_refl)).
Qed.

(** One pass over the entries of [lo, hi). *)
Lemma wp_pass (Q : search -> dirstate -> Prop) fs name lo hi s0 c l :
  fs_ok fs -> dirents (fs_blocksize fs) (blocks s0) lo hi l -> Forall (checked fs) l -> 0 <= lo -> hi < 2 ^ 30 ->
  lo mod fs_blocksize fs = 0 ->
  (forall l1 d l2 p endu ss, l = l1 ++ d :: l2 -> has_name name d = true -> absent name l1 ->
     Q (Found (d_hdr d) (mkCursor (Some ((lo + extent l1) / fs_blocksize fs)) ((lo + extent l1) mod fs_blocksize fs) p endu ss))
       (upd_dp (set_found (d_ino d) (d_reclen d)) (with_offset (lo + extent l1) s0))) ->
  (forall c', absent name l -> Q (NotFound c') (with_offset hi s0)) ->
  wp (searchloop (S (Z.to_nat hi)) fs name hi c) Q (with_offset lo s0).
Proof.
  intros Hfs D Ck Hlo Hhi Hm HF HN. pose proof (dirents_range fs _ _ _ _ D Hlo).
  apply (wp_searchloop fs Hfs _ _ _ lo _ s0 c l); try done; try lia.
  intros r s' SR. unfold search_result in SR. destruct (scan _ _ _ _ _ _ _) as [[fnd endu] ss'] eqn:E.
  destruct fnd as [[[d o] p]|].
  - apply scan_found in E as (l1 & l2 & -> & Hn & Ha & -> & _). destruct SR as [-> ->]. by eapply HF.
  - apply scan_none in E as [Ha _]. destruct SR as (bp & eoff & p & -> & ->). by apply HN.
Qed.

Lemma split_around {A} (la lb l1 l2 : list A) d :
  la ++ lb = l1 ++ d :: l2 ->
  (exists x, l1 = la ++ x /\ lb = x ++ d :: l2) \/ (exists y, la = l1 ++ d :: y /\ l2 = y ++ lb).
Proof.
  intros H. apply app_eq_inv in H as [(k & E1 & E2)|(k & E1 & E2)].
  - destruct k as [|y k]; simplify_eq/=.
    + left. exists []. by rewrite !app_nil_r.
    + right. by exists k.
  - left. by exists k.
Qed.

(** The entry with the name is the one that is there once. *)
Lemma once_unique name l l1 d l2 res :
  name_at_most_once name l res -> l = l1 ++ d :: l2 -> has_name name d = true -> res = Some (l1, d).
Proof.
  intros [m1 e m2 -> He Ha1 Ha2|Ha] E Hd.
  - apply split_around in E as [(x & -> & E)|(y & -> & ->)].
    + destruct x as [|z x]; simplify_eq/=; [by rewrite app_nil_r|].
      apply Forall_app in Ha2 as [_ Ha2]. apply Forall_cons in Ha2 as [Ha2 _]. congruence.
    + apply Forall_app in Ha1 as [_ Ha1]. apply Forall_cons in Ha1 as [Ha1 _]. congruence.
  - subst l. apply Forall_app in Ha as [_ Ha]. apply Forall_cons in Ha as [Ha _]. congruence.
Qed.

Lemma once_never name l res : name_at_most_once name l res -> absent name l -> res = None.
Proof.
  intros [l1 d l2 -> Hd _ _|_] Ha; [|done]. apply Forall_app in Ha as [_ Ha]. apply Forall_cons in Ha as [Ha _]. congruence.
Qed.

Section plain.
Context (fs : dirfs) (authorize : Z) (vget : Z -> Z * Z) (a : lookup_args) (s : dirstate) (l : list dent)
  (res : option (list dent * dent)).
Context (Ok : dir_ok fs s l) (Hdo : diroff_ok fs s) (Hop : cn_nameiop a = LOOKUP) (Hvpp : vpp a = true).
Context (Hres : name_at_most_once (cn_name a) l res).
Context (Q : Z * option vnode -> dirstate -> Prop).
Context (HQ : forall s', blocks s' = blocks s -> dp_size (dp s') = dp_size (dp s) -> diroff_ok fs s' ->
     dp_number (dp s') = dp_number (dp s) -> dp_nlink (dp s') = dp_nlink (dp s) ->
     match res with
     | Some (l1, d) => dp_offset (dp s') = extent l1 /\ dp_ino (dp s') = d_ino d
     | None => True
     end ->
     Q (match res with Some (_, d) => vnode_of a vget (dp_number (dp s)) (d_ino d) | None => (ENOENT, None) end) s').

Local Definition s0 : dirstate := upd_dp (set_lastnamei (nameiop_num LOOKUP)) s.

(** What follows the search. *)
Local Definition finish (r : search) : DIR (Z * option vnode) :=
  match r with
  | Failed error => mret (error, None)
  | NotFound c => lookup_notfound fs authorize a c
  | Found ep c => lookup_found fs authorize vget a ep c
  end.

Lemma plain_miss c off : res = None -> wp (finish (NotFound c)) Q (with_offset off s0).
Proof.
  intros E. cbn [finish]. unfold lookup_notfound. wp_steps. rewrite Hop, !(bool_decide_eq_false_2 (LOOKUP = _)) by done.
  cbn [orb andb]. wp_steps. rewrite E in HQ. by apply HQ.
Qed.

Lemma plain_hit hi la l1 d l2 p endu ss :
  dirents (fs_blocksize fs) (blocks s) 0 hi la -> hi <= dp_size (dp s) -> la = l1 ++ d :: l2 -> res = Some (l1, d) ->
  wp (finish (Found (d_hdr d) (mkCursor (Some (extent l1 / fs_blocksize fs)) (extent l1 mod fs_blocksize fs) p endu ss))) Q
     (upd_dp (set_found (d_ino d) (d_reclen d)) (with_offset (extent l1) s0)).
Proof.
  intros D Hhi -> E. pose proof (do_size _ _ _ Ok) as [Hs _]. rewrite E in HQ.
  eapply (wp_found_lookup _ fs _ _ _ s0 hi); [apply Ok|exact D|cbn; lia|done|done|done|].
  intros s' H1 H2 H3 H4 H5 H6 H7. by apply HQ.
Qed.

(** The search starts at the beginning. *)
Lemma plain_one_pass c :
  wp (searchloop (S (Z.to_nat (dp_size (dp s)))) fs (cn_name a) (dp_size (dp s)) c)
     (fun r s' => wp (finish r) Q s') (with_offset 0 s0).
Proof.
  pose proof Ok as [Hfs [Hs Hm] D Ck]. pose proof (bs_bounds fs Hfs).
  apply (wp_pass _ fs _ 0 _ _ _ l); try done; try lia.
  - intros l1 d l2 p endu ss El Hn Ha. wp_steps. rewrite Z.add_0_l.
    apply (plain_hit (dp_size (dp s)) l l1 d l2); [done|lia|done|]. by eapply once_unique.
  - intros c' Ha. wp_steps. apply plain_miss. by eapply once_never.
Qed.

(** The search starts at the block of the last lookup and goes on from the beginning. *)
Lemma plain_two_passes c : dp_diroff (dp s) <= dp_size (dp s) ->
  wp (searchloop (S (Z.to_nat (dp_size (dp s)))) fs (cn_name a) (dp_size (dp s)) c)
     (fun r s' =>
        match r with
        | NotFound c =>
            wp (searchloop (S (Z.to_nat (dp_diroff (dp s')))) fs (cn_name a) (dp_diroff (dp s')) c)
               (fun r s' => wp (finish r) Q s') (with_offset 0 s')
        | _ => wp (finish r) Q s'
        end) (with_offset (dp_diroff (dp s)) s0).
Proof.
  intros Hle. pose proof Ok as [Hfs [Hs Hm] D Ck]. pose proof (bs_bounds fs Hfs). destruct Hdo as [Hdo1 Hdo2].
  destruct (dirents_split fs Hfs (blocks s) 0 (dp_size (dp s)) l (dp_diroff (dp s)) ltac:(lia) D Hdo2 ltac:(lia))
    as (la & lb & El & Ela). rewrite Z.add_0_l in Ela.
  rewrite El in D. apply dirents_app in D as [Da Db]. rewrite Z.add_0_l, Ela in Da, Db.
  rewrite El, Forall_app in Ck. destruct Ck as [Cka Ckb].
  apply (wp_pass _ fs _ _ _ _ _ lb); try done; try lia.
  - by rewrite Z.mod_divide by lia.
  - intros l1 d l2 p endu ss El2 Hn Ha. wp_steps. rewrite <- Ela, <- extent_app.
    apply (plain_hit (dp_size (dp s)) l (la ++ l1) d l2); [by apply Ok|lia|by rewrite El, El2, <- app_assoc|].
    eapply once_unique; [done| |done]. by rewrite El, El2, <- app_assoc.
  - intros c' Hb. change (with_offset 0 (with_offset _ s0)) with (with_offset 0 s0).
    change (dp_diroff (dp (with_offset _ s0))) with (dp_diroff (dp s)).
    apply (wp_pass _ fs _ 0 _ _ _ la); try done; try lia.
    + intros l1 d l2 p endu ss El2 Hn Ha. wp_steps. rewrite Z.add_0_l.
      apply (plain_hit (dp_diroff (dp s)) la l1 d l2); [done|lia|done|].
      apply (once_unique (cn_name a) l l1 d (l2 ++ lb)); [done| |done]. by rewrite El, El2, <- app_assoc.
    + intros c2 Ha. wp_steps. apply plain_miss. eapply once_never; [done|]. rewrite El. by apply Forall_app.
Qed.

Lemma wp_lookup_plain : wp (ext2_lookupi fs authorize vget a) Q s.
Proof.
  pose proof Ok as [Hfs [Hs Hm] D Ck]. pose proof (bs_bounds fs Hfs). pose proof Hdo as [Hdo1 Hdo2].
  unfold ext2_lookupi. rewrite Hop, !(bool_decide_eq_false_2 (LOOKUP = _)) by done. cbn [orb andb].
  wp_steps. fold s0. unfold lookup_start. rewrite (bool_decide_eq_false_2 (LOOKUP <> LOOKUP)) by (intros N; by apply N).
  cbn [orb]. wp_steps. unfold id. change (dp_diroff (dp s0)) with (dp_diroff (dp s)). change (dp_size (dp s0)) with (dp_size (dp s)).
  rewrite uintw_small by lia.
  destruct ((dp_diroff (dp s) =? 0) || (dp_size (dp s) <? dp_diroff (dp s))) eqn:Estart.
  - wp_steps. unfold id. cbn [dp upd_dp].
    change (dp_size (set_offset 0 _)) with (dp_size (dp s)). rewrite roundup_mult, sintw_small by (done || lia).
    eapply wp_mono; [apply (plain_one_pass (mkCursor None 0 0 0 (mkSlot FOUND (-1) 0 0 0)))|].
    intros r s' W. by destruct r; wp_steps.
  - apply orb_false_iff in Estart as [_ Ele]. apply Z.ltb_ge in Ele. wp_steps.
    rewrite (fo_iosize _ Hfs), land_mask, (proj2 (Z.mod_divide (dp_diroff (dp s)) (fs_blocksize fs) ltac:(lia)) Hdo2) by done.
    change (0 =? 0) with true. cbn iota. wp_steps. unfold id. cbn [dp upd_dp].
    change (dp_size (set_offset _ _)) with (dp_size (dp s)). rewrite roundup_mult, sintw_small by (done || lia).
    eapply wp_mono; [by apply (plain_two_passes (mkCursor None 0 (dp_diroff (dp s)) 0 (mkSlot FOUND (-1) 0 0 0)))|].
    intros r s' W. destruct r; wp_steps; [done| |done]. unfold id. eapply wp_mono; [exact W|]. intros r s'' W'. by destruct r.
Qed.
End plain.

(** ** A sample directory

    One block of 64 bytes with ["."], [".."] and room behind them; all requests are as
    root. *)

Definition sample_fs : dirfs := mkDirfs 64 64 100 false false.
Definition sample_entries : list dent := [mkDent 2 12 2 [46]; mkDent 2 52 2 [46; 46]].
Definition sample_block : list Z :=
  [2; 0; 0; 0; 12; 0; 1; 2; 46; 0; 0; 0; 2; 0; 0; 0; 52; 0; 2; 2; 46; 46] ++ replicate 42 0.
Definition sample_dir : dirstate :=
  mkDirstate (mkDirinode 2 16877 2 0 64 0 0 0 0 0 0 0 0) {[ 0 := sample_block ]}.
Definition sample_args (op : nameiop) (name : list Z) (v : bool) : lookup_args :=
  mkArgs op name true false false 0 v.
Definition sample_vget (ino : Z) : Z * Z := (0, 0).

Lemma sample_fs_ok : fs_ok sample_fs.
Proof. split; [|done]. exists 6. split; [lia|done]. Qed.

Lemma sample_ok : dir_ok sample_fs sample_dir sample_entries.
Proof.
  split; [exact sample_fs_ok| | |by repeat constructor].
  - split; [cbn; lia|]. exists 1. reflexivity.
  - cbn [dirents sample_entries]. split; [|split; [|done]]; exists sample_block; (split; [reflexivity|]; split; [reflexivity|]).
    + split; [|reflexivity|by vm_compute]. split; [cbn; lia|cbn; lia|by exists 3|by vm_compute|cbn; lia|by vm_compute].
    + split; [|reflexivity|by vm_compute]. split; [cbn; lia|cbn; lia|by exists 13|by vm_compute|cbn; lia|by vm_compute].
Qed.

(** Looking up the name "a" for a creation. *)
Lemma lookup_creates_witness :
  let a := sample_args CREATE [97] true in
  exists s', ext2_lookupi sample_fs 0 sample_vget a sample_dir = Ret (EJUSTRETURN, None) s' /\
    create_info sample_fs (EXT2_DIR_REC_LEN 1) sample_entries sample_dir s'.
Proof.
  apply (lookup_creates sample_fs sample_vget (sample_args CREATE [97] true) sample_dir sample_entries);
    [exact sample_ok|split; [by left|done]|done|by repeat constructor].
Defined.
