(* ===== verification/Direnter.v ===== *)
(** * Entering a name in a directory (src/src/gnu/ext2fs/ext2_lookup.c)

    [ext2_direnter] of a directory that is not indexed, on a file system without the
    feature [dir_index].  It writes a new block with [EXT2_WRITE] and cuts the unused end
    of the directory off with [ext2_truncate]; both are operations of another part of the
    driver, which this file uses through the class [DirIO].  The block size of the mount
    is that of the file system. *)

From S2P Require Import Prelude Dirent Dirslot Dir.

(** ** What the directory code uses of the file operations *)

(** Each returns an error, 0 for success. *)
Class DirIO := {
  EXT2_WRITE : Z -> list Z -> DIR Z;
  ext2_truncate : Z -> DIR Z;
}.

(** Appending at the end of the directory adds a block that starts with the bytes, or
    fails and changes nothing; the error of a write that is done is that of updating the
    inode on the disk.  Truncation leaves the blocks below the new end alone; when it fails
    it may have cut off only a part. *)
Class DirIOLaws (fs : dirfs) `{DirIO} := {
  write_appends off data s :
    (fs_blocksize fs | off) -> off = dp_size (dp s) -> 0 < Z.of_nat (length data) <= fs_blocksize fs ->
    wp (EXT2_WRITE off data) (fun error s' =>
      same_dir (dp s) (dp s') /\
      (dp_size (dp s') = off + Z.of_nat (length data) /\
         (exists b, Z.of_nat (length b) = fs_blocksize fs /\ take (length data) b = data /\
            blocks s' = <[off / fs_blocksize fs := b]> (blocks s)) \/
       error <> 0 /\ dp_size (dp s') = dp_size (dp s) /\ blocks s' = blocks s)) s;
  truncate_cuts off s :
    (fs_blocksize fs | off) -> 0 <= off <= dp_size (dp s) ->
    wp (ext2_truncate off) (fun _ s' =>
      same_dir (dp s) (dp s') /\
      exists size, off <= size <= dp_size (dp s) /\ (fs_blocksize fs | size) /\ dp_size (dp s') = size /\
        forall k, 0 <= k -> (k + 1) * fs_blocksize fs <= size -> blocks s' !! k = blocks s !! k) s;
}.

(** ** [ext2_direnter] *)

(** The new entry as the first one of a new block, when [i_count] is 0. *)
Definition direnter_block `{DirIO} (fs : dirfs) (newdir : direntry) (newname : list Z) (newentrysize : Z) : DIR Z :=
  s ← gets id;
  error ← EXT2_WRITE (dp_offset (dp s)) (take (Z.to_nat newentrysize) (header newdir ++ newname));
  (if error =? 0 then
     s ← gets id;
     modify (upd_dp (set_size (roundup (dp_size (dp s)) (fs_blocksize fs))));;
     modify (upd_dp (set_flags (Z.lor IN_CHANGE IN_DX_UPDATE)))
   else mret tt);;
  mret error.

(** The end of the operation: the unused blocks behind [i_endoff] are cut off. *)
Definition direnter_cut `{DirIO} (bwrite : Z) : DIR Z :=
  s ← gets id;
  let offset := dp_endoff (dp s) in
  if (bwrite =? 0) && negb (offset =? 0) && (offset <? dp_size (dp s)) then ext2_truncate offset
  else mret bwrite.

(** [pad]: the bytes of the stack behind the name and its terminator; [bwrite]: the error
    of the write of the changed block. *)
Definition ext2_direnter `{DirIO} (fs : dirfs) (filetype : bool) (authorize : Z) (vget : Z -> Z * Z)
    (a : lookup_args) (pad : list Z) (bwrite i_number i_mode : Z) : DIR Z :=
  ft ← (if filetype then access (DTTOFT (IFTODT i_mode)) else mret 0);
  let name_len := u8 (Z.of_nat (length (cn_name a))) in
  let newname := cn_name a ++ 0 :: pad in
  let newentrysize := EXT2_DIR_REC_LEN name_len in
  error ← direnter_room fs authorize vget a;
  if negb (error =? 0) then mret error
  else
    s ← gets id;
    if dp_count (dp s) =? 0 then
      if negb (Z.land (dp_offset (dp s)) (fs_blocksize fs - 1) =? 0) then panic "ext2_direnter: newblk"
      else direnter_block fs (mkDe i_number (u16 (fs_blocksize fs)) name_len ft) newname newentrysize
    else
      error ← enter_in_slot (Z.lor (Z.lor IN_CHANGE IN_UPDATE) IN_DX_UPDATE) fs
                (mkDe i_number 0 name_len ft) newname newentrysize;
      if negb (error =? 0) then mret error else direnter_cut bwrite.

(** ** Lemmas *)

(** The arguments with which the driver enters an inode. *)
Record enter_args (fs : dirfs) (a : lookup_args) (pad : list Z) (i_number i_mode : Z) : Prop := {
  ea_name : cn_name a <> [] /\ Z.of_nat (length (cn_name a)) < 256;
  ea_room : EXT2_DIR_REC_LEN (Z.of_nat (length (cn_name a))) <= fs_blocksize fs;
  ea_pad : (2 <= length pad)%nat;
  ea_ino : 0 < i_number < 2 ^ 32 /\ i_number <= fs_inodes_count fs;
  ea_mode : 0 <= i_mode < 2 ^ 16 /\ IFTODT i_mode <> 15;
}.

(** The file type the entry gets. *)
Definition entry_type (filetype : bool) (i_mode : Z) : Z :=
  if filetype then default 0 (DTTOFT (IFTODT i_mode)) else 0.

Section direnter.
Context (fs : dirfs) (filetype : bool) (vget : Z -> Z * Z) (a : lookup_args) (pad : list Z) (bwrite i_number i_mode : Z).
Context (Hcr : creates a) (Ha : enter_args fs a pad i_number i_mode).
Local Abbreviation bs := (fs_blocksize fs).
Local Definition needed : Z := EXT2_DIR_REC_LEN (Z.of_nat (length (cn_name a))).
Local Definition ftype : Z := entry_type filetype i_mode.

Lemma new_entry rec_len :
  new_entry_ok (mkDe i_number rec_len (Z.of_nat (length (cn_name a))) ftype) (cn_name a ++ 0 :: pad) needed (cn_name a).
Proof using Ha.
  destruct Ha as [[H1 H2] H3 H4 [H5 H6] [H7 H8]]. pose proof (rec_len_bounds (Z.of_nat (length (cn_name a)))).
  split; cbn [de_inode de_file_type de_name_len]; [done| | |by eexists|done|].
  - unfold ftype, entry_type. destruct filetype; [|done]. destruct (DTTOFT_mode i_mode H7 H8) as (t & -> & Ht). done.
  - split; done.
  - unfold needed. rewrite length_app. cbn [length]. lia.
Qed.

Lemma wp_filetype (Q : Z -> dirstate -> Prop) s :
  Q ftype s -> wp (if filetype then access (DTTOFT (IFTODT i_mode)) else mret 0) Q s.
Proof using Ha.
  intros HQ. unfold ftype, entry_type in HQ. destruct filetype; [|done].
  destruct (DTTOFT_mode i_mode (proj1 (ea_mode _ _ _ _ _ Ha)) (proj2 (ea_mode _ _ _ _ _ Ha))) as (t & E & _).
  rewrite E in *. by apply (wp_access _ t).
Qed.

(** The information of an earlier lookup, when it is one for a creation, is up to date. *)
Definition room_fresh (s : dirstate) (l : list dent) : Prop :=
  dp_lastnamei (dp s) = nameiop_num CREATE -> exists s0, create_info fs needed l s0 s.

Lemma wp_direnter_room (Q : Z -> dirstate -> Prop) s l :
  dir_ok fs s l -> dp_nlink (dp s) <> 0 -> absent (cn_name a) l -> room_fresh s l ->
  (forall s0 s', create_info fs needed l s0 s' -> blocks s' = blocks s -> dp_size (dp s') = dp_size (dp s) ->
     same_dir (dp s) (dp s') -> Q 0 s') ->
  wp (direnter_room fs 0 vget a) Q s.
Proof using Hcr.
  intros Ok Hn Habs Hfresh HQ. unfold direnter_room. wp_steps. unfold id. fold needed.
  destruct (Z.eqb_spec (dp_lastnamei (dp s)) (nameiop_num CREATE)) as [E|E];
    [destruct (needed <=? dp_count (dp s)); cbn [andb]|cbn [andb]].
  - wp_steps. destruct (Hfresh E) as [s0 I]. by apply (HQ s0).
  - wp_steps. apply (wp_lookup_create _ fs vget a s l Ok Hcr Hn Habs). intros s' I _. wp_steps.
    by apply (HQ s s'); try apply I.
  - wp_steps. apply (wp_lookup_create _ fs vget a s l Ok Hcr Hn Habs). intros s' I _. wp_steps.
    by apply (HQ s s'); try apply I.
Qed.
End direnter.

(** ** Cutting the unused end off *)

Section cut.
Context (fs : dirfs) (Hfs : fs_ok fs).
Local Abbreviation bs := (fs_blocksize fs).

(** Of two prefixes the shorter one is a prefix of the other. *)
Lemma prefix_by_extent l la lb u w :
  Forall (fun d => 0 < d_reclen d) l -> l = la ++ lb -> l = u ++ w -> extent u <= extent la -> exists x, w = x ++ lb.
Proof.
  intros F El Ew Hle. rewrite El in Ew. apply app_eq_inv in Ew as [(k & E1 & E2)|(k & E1 & E2)].
  - by exists k.
  - subst u. rewrite extent_app in Hle. rewrite El, E2 in F. apply Forall_app in F as [_ F]. apply Forall_app in F as [Fk _].
    destruct k as [|x k]; [by exists []|]. apply Forall_cons in Fk as [Hx Fk]. pose proof (extent_nonneg k Fk).
    rewrite extent_cons in Hle. lia.
Qed.

Lemma live_dead l : Forall (fun d => is_live d = false) l -> live l = [].
Proof.
  unfold live. induction 1 as [|d l E F IH]; [done|]. rewrite filter_cons. by destruct (is_live d).
Qed.

(** The blocks below a block boundary hold the entries below it. *)
Lemma dirents_below blks blks' m l :
  dirents bs blks 0 m l -> (bs | m) ->
  (forall k, 0 <= k -> (k + 1) * bs <= m -> blks' !! k = blks !! k) -> dirents bs blks' 0 m l.
Proof.
  intros D [q Hq] H. pose proof (bs_bounds fs Hfs). apply (dirents_unchanged fs blks _ 0); [lia|done|].
  intros o d b Ho Hod Hfit Hb Hlen Da. pose proof (dw_need _ (da_wf _ _ _ Da)). pose proof (need_bounds d).
  exists b. split; [|done]. rewrite <- Hb. pose proof (Z.div_mod o bs ltac:(lia)). pose proof (Z.mod_pos_bound o bs ltac:(lia)).
  apply H; [apply Z.div_pos; lia|]. assert (o / bs < q) by nia. nia.
Qed.

Lemma wp_truncate_dir `{DirIOLaws fs} (Q : Z -> dirstate -> Prop) off s l u w :
  dir_ok fs s l -> l = u ++ w -> Forall (fun d => is_live d = false) w -> extent u <= off ->
  (bs | off) -> 0 <= off <= dp_size (dp s) ->
  (forall error s' l', dir_ok fs s' l' -> live l' = live l -> same_dir (dp s) (dp s') ->
     dp_size (dp s') <= dp_size (dp s) -> Q error s') ->
  wp (ext2_truncate off) Q s.
Proof using Hfs.
  intros [_ [Hs Hm] D Ck] El Hdead Hu Hoff Hr HQ. eapply wp_mono; [by apply truncate_cuts|].
  intros e s' (Same & m & Hm1 & Hm2 & Es & Hb).
  destruct (dirents_split fs Hfs (blocks s) 0 (dp_size (dp s)) l m ltac:(lia) D Hm2 ltac:(lia)) as (la & lb & E & Ela).
  rewrite Z.add_0_l in Ela. pose proof (dirents_pos fs Hfs _ 0 _ _ ltac:(lia) D) as Hpos.
  destruct (prefix_by_extent l la lb u w) as [x Ex]; [done..|lia|].
  rewrite Ex in Hdead. apply Forall_app in Hdead as [_ Hlb].
  rewrite E in D, Ck. apply dirents_app in D as [Da _]. rewrite Z.add_0_l, Ela in Da. apply Forall_app in Ck as [Cka _].
  apply (HQ _ _ la); [|by rewrite E, live_app, (live_dead lb), app_nil_r|done|lia]. split; [done| | |done].
  - rewrite Es. split; [lia|done].
  - rewrite Es. by apply (dirents_below (blocks s)).
Qed.

(** A new block with one entry. *)
Lemma dirents_new_block blks hi l b d :
  dirents bs blks 0 hi l -> 0 <= hi -> (bs | hi) -> Z.of_nat (length b) = bs -> dent_at 0 b d -> d_reclen d = bs ->
  dirents bs (<[hi / bs := b]> blks) 0 (hi + bs) (l ++ [d]).
Proof.
  intros D Hhi Hm Hlen Da Hr. pose proof (bs_bounds fs Hfs). pose proof (dirents_extent _ _ _ _ _ D) as Hext.
  rewrite Z.add_0_l in Hext. apply dirents_app. rewrite Z.add_0_l, <- Hext. split.
  - apply (dirents_below blks); [done|done|]. intros k Hk Hle. apply lookup_insert_ne. intros <-.
    pose proof (Z.div_mod hi bs ltac:(lia)). rewrite (proj2 (Z.mod_divide hi bs ltac:(lia)) Hm) in *. nia.
  - cbn [dirents]. rewrite lookup_insert_eq, (proj2 (Z.mod_divide hi bs ltac:(lia)) Hm), Hr.
    split; [by exists b|done].
Qed.
End cut.

(** ** The operation *)

Lemma same_dir_trans d1 d2 d3 : same_dir d1 d2 -> same_dir d2 d3 -> same_dir d1 d3.
Proof. unfold same_dir. intuition congruence. Qed.

Section enter.
Context (fs : dirfs) `{DirIOLaws fs} (filetype : bool) (vget : Z -> Z * Z) (a : lookup_args) (pad : list Z).
Context (bwrite i_number i_mode : Z) (Hcr : creates a) (Ha : enter_args fs a pad i_number i_mode).
Local Abbreviation bs := (fs_blocksize fs).
Local Abbreviation ft := (ftype filetype i_mode).

(** What the entry adds to the contents of the directory. *)
Definition new_key : Z * Z * list Z := (i_number, entry_type filetype i_mode, cn_name a).

(** What is true of the directory afterwards: it is well formed, and it holds the entry;
    only when the operation fails the entry may be missing. *)
Definition entered (s : dirstate) (l : list dent) (error : Z) (s' : dirstate) : Prop :=
  exists l', dir_ok fs s' l' /\ same_dir (dp s) (dp s') /\
    (live l' ≡ₚ new_key :: live l \/ error <> 0 /\ live l' = live l).

(** The write of a new block is done, but it reports the error of updating the inode on the
    disk: the entry is there, but [i_size] is only the end of its bytes; with the size that
    the operation would have set the directory is well formed. *)
Definition rounded (s : dirstate) : dirstate := upd_dp (set_size (roundup (dp_size (dp s)) bs)) s.
Definition half_entered (s : dirstate) (l : list dent) (error : Z) (s' : dirstate) : Prop :=
  error <> 0 /\ dp_size (dp s') = dp_size (dp s) + needed a /\ entered s l 0 (rounded s').

Lemma new_key_checked : checked_key fs new_key.
Proof using Ha. intros _. cbn. split; [apply Ha|apply Ha]. Qed.

(** No entry has room: a new block. *)
Lemma wp_enter_block (Q : Z -> dirstate -> Prop) s l :
  dir_ok fs s l -> dp_size (dp s) + bs < 2 ^ 30 -> dp_offset (dp s) = dp_size (dp s) ->
  (forall error s', entered s l error s' \/ half_entered s l error s' -> Q error s') ->
  wp (if negb (Z.land (dp_offset (dp s)) (bs - 1) =? 0) then panic "ext2_direnter: newblk"
      else direnter_block fs (mkDe i_number (u16 bs) (Z.of_nat (length (cn_name a))) ft) (cn_name a ++ 0 :: pad) (needed a)) Q s.
Proof using Ha H0.
  intros [Hfs [Hs Hm] D Ck] Hsize Eo HQ. pose proof (bs_bounds fs Hfs).
  assert (8 <= needed a) as Hn8 by (pose proof (rec_len_bounds (Z.of_nat (length (cn_name a)))); unfold needed; lia).
  pose proof (new_entry fs filetype a pad i_number i_mode Ha (u16 bs)) as N.
  rewrite (uintw_small 16 bs) in * by lia. pose proof (ea_room _ _ _ _ _ Ha) as Hroom. fold (needed a) in Hroom.
  assert (Z.of_nat (length (take (Z.to_nat (needed a)) (header (mkDe i_number bs (Z.of_nat (length (cn_name a))) ft) ++
    cn_name a ++ 0 :: pad))) = needed a) as Hdata.
  { pose proof (ne_room _ _ _ _ N). rewrite length_take, length_app, length_header. lia. }
  rewrite Eo, land_mask, (proj2 (Z.mod_divide (dp_size (dp s)) bs ltac:(lia)) Hm) by done. change (0 =? 0) with true. cbn [negb].
  unfold direnter_block. wp_steps. unfold id. rewrite Eo. set (data := take _ _) in *. eapply wp_mono; [apply (write_appends _ data s); [done|done|lia]|].
  intros error s' [Same [(Es & b & Hb & Hd & Eb)|(Hne & Es & Eb)]].
  - assert (roundup (dp_size (dp s) + needed a) bs = dp_size (dp s) + bs) as Er.
    { pose proof (roundup_ge (dp_size (dp s) + needed a) bs ltac:(lia) ltac:(lia)).
      pose proof (roundup_le (dp_size (dp s) + needed a) bs (dp_size (dp s) + bs) ltac:(lia) ltac:(lia)
        ltac:(apply Z.divide_add_r; [done|apply Z.divide_refl])).
      destruct Hm as [q Hq]. unfold roundup in *. rewrite Hq in *. set (k := (q * bs + needed a + (bs - 1)) / bs) in *.
      clearbody k. assert (q < k) by (apply (Z.mul_lt_mono_pos_r bs); lia). assert (k = q + 1) as -> by nia. lia. }
    set (d := mkDent i_number bs ft (cn_name a)).
    assert (dent_at 0 b d) as Da.
    { eapply (written_dent _ _ _ _ 0 bs b b N); [lia|lia|lia|..].
      - destruct Hfs as [(k & Hk & Ek) _]. rewrite Ek. exists (2 ^ (k - 2)). change 4 with (2 ^ 2).
        rewrite <- Z.pow_add_r by lia. f_equal. lia.
      - change (splice 0 data b = Some b). apply splice_some. split; [lia|]. split; [lia|].
        cbn [Z.to_nat take app Nat.add]. rewrite <- (take_drop (length data) b) at 1. by rewrite Hd. }
    assert (is_live d = true) as Ld by (unfold is_live, d; cbn; apply negb_true_iff, Z.eqb_neq; pose proof (ea_ino _ _ _ _ _ Ha); lia).
    assert (forall s2 e, dp_size (dp s2) = dp_size (dp s) + bs -> blocks s2 = blocks s' -> same_dir (dp s) (dp s2) -> entered s l e s2) as HE.
    { intros s2 e Es2 Eb2 Same2. exists (l ++ [d]). split; [split|split]; rewrite ?Es2, ?Eb2, ?Eb.
      + done.
      + split; [lia|]. apply Z.divide_add_r; [done|apply Z.divide_refl].
      + apply (dirents_new_block fs Hfs); done || lia.
      + apply Forall_app. split; [done|]. constructor; [|done]. apply checked_key_live; [apply Da|]. apply new_key_checked.
      + done.
      + left. rewrite live_app, live_one, Ld. by rewrite Permutation_app_comm. }
    destruct (Z.eqb_spec error 0) as [->|Hne].
    + wp_steps. unfold id. apply HQ. left. apply HE; [cbn; by rewrite Es, Hdata|done|done].
    + wp_steps. apply HQ. right. split; [done|]. split; [by rewrite Es, Hdata|]. apply HE; [cbn; by rewrite Es, Hdata|done|done].
  - rewrite (proj2 (Z.eqb_neq _ _)) by done. wp_steps. apply HQ. left. exists l. split; [split|split; [|by right]]; try done.
    + by rewrite Es.
    + by rewrite Es, Eb.
Qed.
(** The entry goes into the slot that the lookup found; the rest of the directory may be
    cut off, which loses no entry. *)
Lemma wp_enter_slot (Q : Z -> dirstate -> Prop) s0 s l :
  dir_ok fs s l -> create_info fs (needed a) l s0 s -> dp_count (dp s) <> 0 ->
  (forall error s', entered s l error s' -> Q error s') ->
  wp (error ← enter_in_slot (Z.lor (Z.lor IN_CHANGE IN_UPDATE) IN_DX_UPDATE) fs
                (mkDe i_number 0 (Z.of_nat (length (cn_name a))) ft) (cn_name a ++ 0 :: pad) (needed a);
      if negb (error =? 0) then mret error else direnter_cut bwrite) Q s.
Proof using Ha H0.
  intros Ok [_ Es0 _ Slot [Em Er] (u & w & El & Hu & Hw)] Hc HQ. pose proof Ok as [Hfs [Hs Hm] D Ck].
  destruct Slot as [[Hc0 _]|(p & r & q & Elr & Hr & Eo & Ec & Hneed & Hfit & Hend)]; [done|].
  pose proof (new_entry fs filetype a pad i_number i_mode Ha 0) as N.
  pose proof (dirents_pos fs Hfs _ 0 _ _ ltac:(lia) D) as Hpos.
  apply wp_bind. eapply (wp_enter_in_slot _ _ fs _ _ _ _ s l p r q Ok N); try done; [exact new_key_checked|].
  intros s' r' Ok' HL Edp. change (0 =? 0) with true. cbn [negb]. unfold direnter_cut. wp_steps. unfold id.
  assert (live (p ++ r' ++ q) ≡ₚ new_key :: live l) as HP.
  { rewrite Elr, !live_app, HL. cbn [de_inode de_file_type]. rewrite <- !app_assoc.
    cbn [app]. by rewrite app_assoc, <- Permutation_middle, <- app_assoc. }
  assert (entered s l bwrite s') as E.
  { exists (p ++ r' ++ q). split; [done|]. split; [by rewrite Edp|by left]. }
  rewrite Edp. cbn [dp_endoff dp_size set_flags]. destruct (_ && _ && _) eqn:Et; [|by apply HQ].
  apply andb_true_iff in Et as [_ Et]. apply Z.ltb_lt in Et.
  assert (exists u' w', p ++ r' ++ q = u' ++ w' /\ Forall (fun d => is_live d = false) w' /\ extent u' <= dp_endoff (dp s))
    as (u' & w' & El' & Hw' & Hu').
  { assert (extent r' = extent r) as Ex.
    { pose proof (dirents_extent _ _ _ _ _ D) as X1. pose proof (dirents_extent _ _ _ _ _ (do_ents _ _ _ Ok')) as X2.
      rewrite Edp in X2. cbn [dp_size set_flags] in X2. rewrite Elr, !extent_app in X1. rewrite !extent_app in X2. lia. }
    rewrite Elr, app_assoc in El. apply app_eq_inv in El as [(k & E1 & E2)|(k & E1 & E2)].
    - exists (p ++ r'), q. rewrite <- app_assoc, extent_app. split; [done|]. split; [|lia].
      rewrite E2 in Hw. by apply Forall_app in Hw as [_ Hw].
    - exists (p ++ r' ++ k), w. rewrite E2, <- !app_assoc. split; [done|]. split; [done|].
      rewrite E1, !extent_app in Hu. rewrite !extent_app. lia. }
  apply (wp_truncate_dir fs Hfs _ _ s' _ u' w' Ok' El' Hw' Hu' Em).
  - rewrite Edp. cbn [dp_size set_flags]. lia.
  - intros e s2 l2 Ok2 HL2 Same2 Hs2. apply HQ. exists l2. split; [done|]. split.
    + rewrite Edp in Same2. exact Same2.
    + left. by rewrite HL2.
Qed.

(** The whole operation, on a directory that does not hold the name. *)
Lemma wp_direnter (Q : Z -> dirstate -> Prop) s l :
  dir_ok fs s l -> dp_size (dp s) + bs < 2 ^ 30 -> dp_nlink (dp s) <> 0 -> absent (cn_name a) l ->
  room_fresh fs a s l -> (forall error s', entered s l error s' \/ half_entered s l error s' -> Q error s') ->
  wp (ext2_direnter fs filetype 0 vget a pad bwrite i_number i_mode) Q s.
Proof using Ha Hcr H0.
  intros Ok Hs Hn Habs Hfresh HQ. unfold ext2_direnter. apply wp_bind, (wp_filetype fs filetype a pad i_number i_mode Ha).
  cbv zeta. rewrite (uintw_small 8 (Z.of_nat (length (cn_name a)))) by (pose proof (ea_name _ _ _ _ _ Ha); lia).
  apply wp_bind. eapply (wp_direnter_room fs vget a Hcr _ s l); try done. intros s0 s' I Eb Es Same.
  assert (dir_ok fs s' l) as Ok'.
  { destruct Ok as [Hfs Hsz D Ck]. by split; rewrite ?Es, ?Eb. }
  assert (forall e s'', entered s' l e s'' -> entered s l e s'') as HE.
  { intros e s'' (l' & O' & Same' & HL). exists l'. split; [done|]. split; [by eapply same_dir_trans|done]. }
  assert (forall error s'', entered s' l error s'' \/ half_entered s' l error s'' -> Q error s'') as HQ'.
  { intros e s'' [E|(Hne & Es'' & E)]; apply HQ; [left; by apply HE|right]. split; [done|]. split; [by rewrite Es'', Es|by apply HE]. }
  change (0 =? 0) with true. cbn [negb]. wp_steps. unfold id.
  destruct (Z.eqb_spec (dp_count (dp s')) 0) as [E0|E0].
  - apply (wp_enter_block _ s' l Ok'); [by rewrite Es| |done].
    destruct (ci_slot _ _ _ _ _ I) as [(_ & -> & _)|(p & r & q & El & Hr & _ & Ec & _)]; [by rewrite (ci_size _ _ _ _ _ I)|].
    exfalso. pose proof (dirents_pos fs (do_fs _ _ _ Ok) _ 0 _ _ ltac:(lia) (do_ents _ _ _ Ok)) as Hpos.
    rewrite El in Hpos. apply Forall_app in Hpos as [_ Hpos]. apply Forall_app in Hpos as [Hpos _].
    destruct r as [|d r]; [done|]. apply Forall_cons in Hpos as [Hd Hpos]. pose proof (extent_nonneg r Hpos).
    rewrite extent_cons in Ec. lia.
  - apply (wp_enter_slot _ s0 s' l Ok' I); [done|]. intros e s'' E. apply HQ'. by left.
Qed.
End enter.
