(* ===== verification/Dirspec.v ===== *)
(** * Directories as maps

    The abstract directory is a map from names to inode numbers and file types.  This file
    relates it to the blocks of a directory and states what plain lookups of
    src/src/gnu/ext2fs/ext2_lookup.c do in terms of it; [Dirrun] does the same for the
    requests of the kernel that change a directory. *)

From S2P Require Import Prelude Dirent Dirslot Dir Direnter.

(** ** The map *)

Abbreviation dirmap := (gmap (list Z) (Z * Z)).

Definition names (l : list dent) : list (list Z) := snd <$> live l.
Definition binding (k : Z * Z * list Z) : list Z * (Z * Z) := (k.2, k.1).
Definition contents (l : list dent) : dirmap := list_to_map (binding <$> live l).

(** The directory is well formed, its names are distinct, and it holds what the map says;
    it is not deleted, and the offset the next lookup starts from is that of a block. *)
Definition represents (fs : dirfs) (m : dirmap) (s : dirstate) : Prop :=
  exists l, dir_ok fs s l /\ NoDup (names l) /\ contents l = m /\ dp_nlink (dp s) <> 0 /\ diroff_ok fs s.

Section contents.
Implicit Types (l : list dent) (d : dent) (name : list Z).

Lemma fst_binding ks : (binding <$> ks).*1 = ks.*2.
Proof. by rewrite <- list_fmap_compose. Qed.

Lemma live_cons d l : live (d :: l) = (if is_live d then [key d] else []) ++ live l.
Proof. change (d :: l) with ([d] ++ l). by rewrite live_app, live_one. Qed.

Lemma names_app l1 l2 : names (l1 ++ l2) = names l1 ++ names l2.
Proof. unfold names. by rewrite live_app, fmap_app. Qed.

Lemma names_cons_live d l : is_live d = true -> names (d :: l) = d_name d :: names l.
Proof. intros E. unfold names. by rewrite live_cons, E. Qed.

Lemma absent_names name l : absent name l <-> name ∉ names l.
Proof.
  unfold absent. induction l as [|d l IH].
  - split; [intros _; by apply not_elem_of_nil|constructor].
  - rewrite Forall_cons, IH. unfold names, has_name. rewrite live_cons, fmap_app. rewrite not_elem_of_app.
    destruct (is_live d) eqn:E; cbn [andb fmap list_fmap].
    + rewrite bool_decide_eq_false. cbn [key snd]. rewrite list_elem_of_singleton. naive_solver.
    + pose proof (not_elem_of_nil name). naive_solver.
Qed.

Lemma contents_none name l : contents l !! name = None <-> absent name l.
Proof.
  rewrite absent_names. unfold names. rewrite <- fst_binding. symmetry. apply (not_elem_of_list_to_map (M := gmap (list Z))).
Qed.

(** A name that the map has is the name of one entry. *)
Lemma contents_some name l x :
  NoDup (names l) -> contents l !! name = Some x ->
  exists l1 d l2, l = l1 ++ d :: l2 /\ has_name name d = true /\ absent name l1 /\ absent name l2 /\ x = (d_ino d, d_type d).
Proof.
  intros ND H. apply elem_of_list_to_map_2, list_elem_of_fmap in H as ([y n] & E & Hin). injection E as -> ->.
  unfold live in Hin. apply list_elem_of_fmap in Hin as (d & Ed & Hin). injection Ed as -> ->.
  apply list_elem_of_filter in Hin as [L Hin]. apply list_elem_of_split in Hin as (l1 & l2 & ->).
  assert (is_live d = true) as Ld by (by destruct (is_live d)).
  exists l1, d, l2. unfold has_name. rewrite Ld, (bool_decide_eq_true_2 (d_name d = d_name d)), !absent_names by done.
  rewrite names_app, names_cons_live in ND by done. apply NoDup_app in ND as (_ & N1 & N2). apply NoDup_cons in N2 as [N2 _].
  split_and!; try done. intros Hin. apply (N1 _ Hin). by left.
Qed.

(** What changes of the entries do to the map. *)
Lemma contents_insert l l' x name :
  NoDup (names l) -> absent name l -> live l' ≡ₚ (x, name) :: live l ->
  NoDup (names l') /\ contents l' = <[name := x]> (contents l).
Proof.
  intros ND Habs HP. assert (names l' ≡ₚ name :: names l) as HN by (unfold names; by rewrite HP).
  assert (NoDup (names l')) as ND' by (rewrite HN; apply NoDup_cons; split; [by apply absent_names|done]).
  split; [done|]. unfold contents. change (<[name := x]> (list_to_map (binding <$> live l)))
    with (list_to_map (M := gmap (list Z) (Z * Z)) (binding <$> (x, name) :: live l)).
  apply list_to_map_proper; [by rewrite fst_binding|]. by rewrite HP.
Qed.

Lemma has_name_live name d : has_name name d = true -> is_live d = true /\ d_name d = name.
Proof. unfold has_name. intros H. apply andb_true_iff in H as [H1 H2]. by apply bool_decide_eq_true in H2. Qed.

Lemma contents_delete l1 d l2 l' name :
  NoDup (names (l1 ++ d :: l2)) -> has_name name d = true -> live l' = live l1 ++ live l2 ->
  NoDup (names l') /\ contents l' = delete name (contents (l1 ++ d :: l2)).
Proof.
  intros ND Hd HL. apply has_name_live in Hd as [Ld <-].
  assert (names l' = names l1 ++ names l2) as HN by (unfold names; by rewrite HL, fmap_app).
  rewrite names_app, names_cons_live in ND by done. apply NoDup_app in ND as (N1 & N2 & N3).
  apply NoDup_cons in N3 as [N3 N4].
  assert (NoDup (names l')) as ND'.
  { rewrite HN. apply NoDup_app. split_and!; try done. intros y Hy Hin. apply (N2 y Hy). by right. }
  split; [done|]. unfold contents. rewrite HL, live_app, live_cons, Ld. cbn [app]. rewrite !fmap_app, !fmap_cons.
  rewrite !list_to_map_app. change (binding (key d)) with (d_name d, (d_ino d, d_type d)). rewrite list_to_map_cons.
  rewrite <- insert_union_r.
  - rewrite delete_insert_id; [done|]. apply lookup_union_None. split; apply not_elem_of_list_to_map; rewrite fst_binding; [|done].
    intros Hin. apply (N2 _ Hin). by left.
  - apply not_elem_of_list_to_map. rewrite fst_binding. intros Hin. apply (N2 _ Hin). by left.
Qed.

Lemma contents_replace l1 d l2 d' name :
  NoDup (names (l1 ++ d :: l2)) -> has_name name d = true -> is_live d' = true -> d_name d' = name ->
  NoDup (names (l1 ++ d' :: l2)) /\ contents (l1 ++ d' :: l2) = <[name := (d_ino d', d_type d')]> (contents (l1 ++ d :: l2)).
Proof.
  intros ND Hd Ld' <-. apply has_name_live in Hd as [Ld E].
  assert (names (l1 ++ d' :: l2) = names (l1 ++ d :: l2)) as HN by (rewrite !names_app, !names_cons_live by done; by rewrite E).
  split; [by rewrite HN|]. rewrite names_app, names_cons_live in ND by done. apply NoDup_app in ND as (N1 & N2 & N3).
  assert (list_to_map (M := gmap (list Z) (Z * Z)) (binding <$> live l1) !! d_name d' = None) as Hnone.
  { apply not_elem_of_list_to_map. rewrite fst_binding. intros Hin. apply (N2 _ Hin). rewrite <- E. by left. }
  unfold contents. rewrite !live_app, !live_cons, Ld, Ld'. cbn [app]. rewrite !fmap_app, !fmap_cons.
  rewrite !list_to_map_app. change (binding (key d)) with (d_name d, (d_ino d, d_type d)).
  change (binding (key d')) with (d_name d', (d_ino d', d_type d')). rewrite !list_to_map_cons, E.
  rewrite <- !insert_union_r by done. by rewrite insert_insert_eq.
Qed.
End contents.

(** ** Lookups *)

Section refinement.
Context (fs : dirfs) (vget : Z -> Z * Z).

(** Only the blocks, the size, the link count and the saved offset matter. *)
Lemma represents_ext m s s' :
  represents fs m s -> blocks s' = blocks s -> dp_size (dp s') = dp_size (dp s) ->
  dp_nlink (dp s') = dp_nlink (dp s) -> diroff_ok fs s' -> represents fs m s'.
Proof using Type.
  intros (l & [Hfs Hs D Ck] & ND & Hm & Hn & _) Eb Es En Hd. exists l. rewrite En.
  split_and!; try done; [|apply Hd..]. by split; rewrite ?Eb, ?Es.
Qed.

Lemma same_dir_diroff s s' : same_dir (dp s) (dp s') -> diroff_ok fs s -> diroff_ok fs s'.
Proof using Type. intros (_ & _ & E) Hd. unfold diroff_ok in *. by rewrite E. Qed.

Lemma represents_present m s name x :
  represents fs m s -> m !! name = Some x ->
  exists l1 d l2, dir_ok fs s (l1 ++ d :: l2) /\ NoDup (names (l1 ++ d :: l2)) /\ contents (l1 ++ d :: l2) = m /\
    has_name name d = true /\ absent name l1 /\ absent name l2 /\ x = (d_ino d, d_type d) /\
    dp_nlink (dp s) <> 0 /\ diroff_ok fs s.
Proof using Type.
  intros (l & Ok & ND & <- & Hn & Hd) Hx. apply contents_some in Hx as (l1 & d & l2 & -> & H1 & H2 & H3 & ->); [|done].
  by exists l1, d, l2.
Qed.

Lemma wp_lookup_map (Q : Z * option vnode -> dirstate -> Prop) m s a authorize :
  represents fs m s -> cn_nameiop a = LOOKUP -> vpp a = true ->
  (forall s', represents fs m s' ->
     Q (match m !! cn_name a with
        | Some (ino, _) => vnode_of a vget (dp_number (dp s)) ino
        | None => (ENOENT, None)
        end) s') ->
  wp (ext2_lookupi fs authorize vget a) Q s.
Proof using Type.
  intros R Hop Hv HQ. pose proof R as (l & Ok & ND & Hm & Hn & Hd). subst m.
  destruct (contents l !! cn_name a) as [[ino t]|] eqn:E.
  - pose proof E as E'. apply contents_some in E' as (l1 & d & l2 & El & H1 & H2 & H3 & Ex); [|done]. injection Ex as -> ->.
    eapply (wp_lookup_plain fs authorize vget a s l (Some (l1, d)) Ok Hd Hop Hv); [by eapply name_once|].
    intros s' Eb Es Hd' Enum En _. apply HQ. by apply (represents_ext _ s).
  - eapply (wp_lookup_plain fs authorize vget a s l None Ok Hd Hop Hv); [apply name_never; by apply contents_none|].
    intros s' Eb Es Hd' Enum En _. apply HQ. by apply (represents_ext _ s).
Qed.

(** C23: A plain lookup in a directory that represents a map: a name that the map has
    gives the vnode of its inode (the directory itself for its own inode, else what
    reading the inode gives), any other name ENOENT; the map stays as it is. *)
Theorem lookup_refines m s a authorize :
  represents fs m s -> cn_nameiop a = LOOKUP -> vpp a = true ->
  exists s', ext2_lookupi fs authorize vget a s =
      Ret (match m !! cn_name a with
           | Some (ino, _) => vnode_of a vget (dp_number (dp s)) ino
           | None => (ENOENT, None)
           end) s' /\ represents fs m s'.
Proof using Type.
  intros R Hop Hv.
  enough (wp (ext2_lookupi fs authorize vget a) (fun r s' => r = match m !! cn_name a with
           | Some (ino, _) => vnode_of a vget (dp_number (dp s)) ino
           | None => (ENOENT, None)
           end /\ represents fs m s') s) as W.
  { apply wp_run in W as (r & s' & E & -> & W). by exists s'. }
  by apply (wp_lookup_map _ m s).
Qed.
End refinement.

(** ** The sample directory as a map *)

(** File operations on blocks in memory; [update] is the error of updating the inode. *)
Definition mem_io_with (update : Z) : DirIO := {|
  EXT2_WRITE off data := fun s =>
    Ret update (mkDirstate (set_size (off + Z.of_nat (length data)) (dp s))
             (<[off / 64 := data ++ replicate (64 - length data) 0]> (blocks s)));
  ext2_truncate off := fun s => Ret 0 (mkDirstate (set_size off (dp s)) (blocks s));
|}.
#[export] Instance mem_io : DirIO := mem_io_with 0.

Lemma mem_io_laws update : @DirIOLaws sample_fs (mem_io_with update).
Proof.
  split.
  - intros off data s _ -> Hd. cbn in Hd. unfold wp. cbn. split; [done|]. left. split; [done|].
    exists (data ++ replicate (64 - length data) 0). split_and!; [rewrite length_app, length_replicate; lia|by rewrite take_app_length|done].
  - intros off s Hm Hr. unfold wp. cbn. split; [done|]. exists off. split_and!; try done; lia.
Qed.

Definition sample_map : gmap (list Z) (Z * Z) := {[ [46] := (2, 2); [46; 46] := (2, 2) ]}.

Lemma sample_represents : represents sample_fs sample_map sample_dir.
Proof.
  exists sample_entries. split; [exact sample_ok|]. split.
  { apply (bool_decide_unpack (NoDup (names sample_entries))). by vm_compute. }
  split; [by vm_compute|]. split; [done|]. split; [cbn; lia|apply Z.divide_0_r].
Qed.

Lemma lookup_refines_witness :
  exists s', ext2_lookupi sample_fs 0 sample_vget (sample_args LOOKUP [46] true) sample_dir = Ret (0, Some VSelf) s' /\
    represents sample_fs sample_map s'.
Proof.
  apply (lookup_refines sample_fs sample_vget sample_map sample_dir (sample_args LOOKUP [46] true) 0 sample_represents); done.
Defined.
