(* ===== verification/Dirempty.v ===== *)
(** * Empty directories (src/src/gnu/ext2fs/ext2_lookup.c)

    What [ext2_dirempty] computes, in terms of the map of the directory. *)

From S2P Require Import Prelude Dirent Dirslot Dir Direnter Dirspec.

Section dirempty.
Context (fs : dirfs) (Hfs : fs_ok fs) (blks : gmap Z (list Z)) (i_size parentino : Z).
Context (vn_rdwr : Z -> option (list Z)).
Local Abbreviation bs := (fs_blocksize fs).

(** Reading inside a block of the directory gives its bytes. *)
Context (Hread : forall off b, 0 <= off -> blks !! (off / bs) = Some b -> off mod bs + 12 <= bs ->
  vn_rdwr off = slice (off mod bs) 12 b).

(** What an empty directory may hold. *)
Definition may_stay (d : dent) : bool :=
  negb (is_live d) || bool_decide (d_name d = [46]) || (bool_decide (d_name d = [46; 46]) && (d_ino d =? parentino)).

(** The first twelve bytes of an entry with a name. *)
Lemma first_twelve o b d :
  0 <= o -> dent_at o b d -> 12 <= d_reclen d ->
  exists a0 a1 a2 a3 a4 a5 a6 a7 n0 n1 n2 n3,
    slice o 12 b = Some [a0; a1; a2; a3; a4; a5; a6; a7; n0; n1; n2; n3] /\
    decode [a0; a1; a2; a3; a4; a5; a6; a7] = Some (d_hdr d) /\
    forall i x, d_name d !! i = Some x -> (i < 2)%nat -> [n0; n1] !! i = Some x.
Proof using Type.
  intros Ho D Hr. destruct (slice_is_some o 12 b Ho ltac:(lia)) as [h E]; [pose proof (da_fits _ _ _ D); lia|].
  pose proof (slice_length _ _ _ _ E) as L.
  do 13 (destruct h as [|? h]; [try (cbn in L; lia)|try (cbn in L; lia)]).
  do 12 eexists. split; [exact E|]. split.
  - pose proof (dent_entry o b d Ho D) as X. unfold entry_at in X.
    pose proof (slice_slice _ _ _ _ 0 8 E ltac:(lia) ltac:(lia)) as S8. rewrite Z.add_0_r in S8. rewrite <- S8 in X. exact X.
  - intros i x Hi Hlt. pose proof (dent_name o b d Ho D) as X. unfold name_at in X.
    assert (Z.of_nat i < namelen d) as Hil by (unfold namelen; apply lookup_lt_Some in Hi; lia).
    rewrite (lookup_slice _ _ _ _ i X Hil) in Hi. rewrite <- Hi.
    pose proof (lookup_slice _ _ _ _ (8 + i)%nat E ltac:(lia)) as Y.
    replace (Z.to_nat (o + 8) + i)%nat with (Z.to_nat o + (8 + i))%nat by lia. rewrite <- Y.
    destruct i as [|[|i]]; [done|done|lia].
Qed.

Lemma dirempty_loop_correct fuel off l :
  dirents bs blks off i_size l -> Forall (fun d => 12 <= d_reclen d /\ (is_live d = true -> d_name d <> [])) l ->
  0 <= off -> i_size < 2 ^ 30 -> i_size - off < Z.of_nat fuel ->
  dirempty_loop fuel vn_rdwr i_size parentino off = Some (forallb may_stay l).
Proof using Hfs Hread.
  pose proof (bs_bounds fs Hfs) as Hbs. revert off l. induction fuel as [|fuel IH]; intros off l D F Ho Hsz Hf.
  { pose proof (dirents_range fs _ _ _ _ D Ho). lia. }
  pose proof (dirents_range fs _ _ _ _ D Ho) as R. cbn [dirempty_loop]. rewrite uintw_small by lia.
  destruct l as [|d l]; cbn [dirents] in D.
  { subst off. by rewrite (proj2 (Z.ltb_ge _ _)) by lia. }
  pose proof (dirents_head fs off i_size d l blks D Ho) as (Hr & Hfit & Hneed). destruct D as [(b & Hb & Hlen & Da) D].
  apply Forall_cons in F as [[Hd Hname] F]. pose proof (dirents_range fs _ _ _ _ D ltac:(lia)).
  rewrite (proj2 (Z.ltb_lt _ _)) by lia. pose proof (Z.mod_pos_bound off bs ltac:(lia)).
  rewrite (Hread off b Ho Hb) by lia.
  destruct (first_twelve (off mod bs) b d ltac:(lia) Da Hd) as (a0&a1&a2&a3&a4&a5&a6&a7&n0&n1&n2&n3& -> & Ed & Hn).
  cbn [take]. rewrite Ed. cbn [de_rec_len de_inode de_name_len d_hdr].
  rewrite (proj2 (Z.eqb_neq (d_reclen d) 0)) by lia. rewrite (IH (off + d_reclen d) l) by (done || lia).
  cbn [forallb]. generalize (forallb may_stay l). intros rest. unfold may_stay, is_live. destruct (d_ino d =? 0) eqn:E0; cbn [negb orb]; [done|].
  assert (d_name d <> []) as Hne by (apply Hname; unfold is_live; by rewrite E0). unfold namelen.
  destruct (d_name d) as [|x0 [|x1 [|x2 nm]]] eqn:En; [done| | |].
  - assert (n0 = x0) as -> by (pose proof (Hn 0%nat x0 eq_refl ltac:(lia)) as X; by injection X).
    cbn [length Z.of_nat Pos.of_succ_nat]. change (2 <? 1) with false. change (1 =? 1) with true. cbn iota.
    rewrite (bool_decide_eq_false_2 ([x0] = [46; 46])) by done. cbn [andb]. rewrite orb_false_r.
    destruct (Z.eqb_spec x0 46) as [->|]; cbn [negb]; [by rewrite bool_decide_eq_true_2|].
    by rewrite bool_decide_eq_false_2 by congruence.
  - assert (n0 = x0) as -> by (pose proof (Hn 0%nat x0 eq_refl ltac:(lia)) as X; by injection X).
    assert (n1 = x1) as -> by (pose proof (Hn 1%nat x1 eq_refl ltac:(lia)) as X; by injection X).
    cbn [length Z.of_nat Pos.of_succ_nat Pos.succ]. change (2 <? 2) with false. change (2 =? 1) with false. cbn iota.
    rewrite (bool_decide_eq_false_2 ([x0; x1] = [46])) by done. cbn [orb].
    destruct (Z.eqb_spec x0 46) as [->|]; cbn [negb]; [|by rewrite bool_decide_eq_false_2 by congruence].
    destruct (Z.eqb_spec x1 46) as [->|]; cbn [andb]; [|by rewrite bool_decide_eq_false_2 by congruence].
    rewrite bool_decide_eq_true_2 by done. cbn [andb]. by destruct (d_ino d =? parentino).
  - rewrite !(bool_decide_eq_false_2 (x0 :: x1 :: x2 :: nm = _)) by done. cbn [orb andb].
    rewrite (proj2 (Z.ltb_lt _ _)) by (cbn [length]; lia). done.
Qed.
End dirempty.

Definition empty_map (parentino : Z) (m : gmap (list Z) (Z * Z)) : Prop :=
  map_Forall (fun name (x : Z * Z) => name = [46] \/ name = [46; 46] /\ x.1 = parentino) m.

#[export] Instance empty_map_dec parentino m : Decision (empty_map parentino m).
Proof. unfold empty_map. apply _. Defined.

Lemma may_stay_map parentino l : NoDup (names l) ->
  forallb (may_stay parentino) l = bool_decide (empty_map parentino (contents l)).
Proof.
  intros ND. apply eq_bool_prop_intro. rewrite bool_decide_spec, forallb_True, Forall_forall. unfold empty_map. split.
  - intros F name x Hx. apply contents_some in Hx as (l1 & d & l2 & El & Hn & _ & _ & ->); [|done].
    apply has_name_live in Hn as [Ld <-]. assert (Is_true (may_stay parentino d)) as M by (apply F; rewrite El; set_solver).
    unfold may_stay in M. rewrite Ld in M. cbn [negb orb] in M. apply orb_True in M as [M|M].
    + left. by apply bool_decide_unpack in M.
    + apply andb_True in M as [M1 M2]. right. split; [by apply bool_decide_unpack in M1|]. cbn. apply Is_true_true in M2. lia.
  - intros F d Hd. unfold may_stay. destruct (is_live d) eqn:Ld; [|done]. cbn [negb orb].
    assert (contents l !! d_name d = Some (d_ino d, d_type d)) as Hm.
    { unfold contents. apply elem_of_list_to_map_1; [by rewrite fst_binding|].
      apply list_elem_of_fmap. exists (key d). split; [done|]. unfold live. apply list_elem_of_fmap. exists d. split; [done|].
      apply list_elem_of_filter. split; [by rewrite Ld|done]. }
    apply F in Hm as [Hm|[Hm Hp]]; rewrite Hm; [done|]. cbn in Hp. rewrite Hp, Z.eqb_refl. done.
Qed.

(** C31: The test for an empty directory is exact: it ends, and it says that the
    directory is empty if and only if it holds no names other than "." and "..", and ".."
    is the given parent. *)
Theorem dirempty_exact fs s l parentino vn_rdwr :
  dir_ok fs s l -> NoDup (names l) ->
  Forall (fun d => 12 <= d_reclen d /\ (is_live d = true -> d_name d <> [])) l ->
  (forall off b, 0 <= off -> blocks s !! (off / fs_blocksize fs) = Some b -> off mod fs_blocksize fs + 12 <= fs_blocksize fs ->
     vn_rdwr off = slice (off mod fs_blocksize fs) 12 b) ->
  ext2_dirempty vn_rdwr (dp_size (dp s)) parentino = Some (bool_decide (empty_map parentino (contents l))).
Proof.
  intros [Hfs [Hs Hm] D Ck] ND F Hread. unfold ext2_dirempty.
  rewrite (dirempty_loop_correct fs Hfs (blocks s) _ parentino vn_rdwr Hread _ _ l D F) by lia.
  by rewrite may_stay_map.
Qed.

Lemma dirempty_exact_witness :
  ext2_dirempty (fun off => b ← blocks sample_dir !! (off / 64); slice (off mod 64) 12 b) 64 2 =
    Some (bool_decide (empty_map 2 (contents sample_entries))).
Proof.
  apply (dirempty_exact sample_fs sample_dir sample_entries); [exact sample_ok| | |].
  - apply (bool_decide_unpack (NoDup (names sample_entries))). by vm_compute.
  - repeat constructor; cbn; lia || done.
  - intros off b _ E _. cbn in E |- *. by rewrite E.
Defined.

(** ** Two requests at the same time *)

Definition long_name (c : Z) : list Z := replicate 20 c.

(** Two creations that overlap: both lookups come before both entries.  The second
    entry takes the room that the first one has used, because the information of the last
    lookup is not given up when an entry is made ([i_lastnamei] and [i_count] are as they
    were), and the kernel panics. *)
Theorem direnter_stale_room :
  let args c := sample_args CREATE (long_name c) true in
  let enter c ino := ext2_direnter sample_fs true 0 sample_vget (args c) [0; 0; 0] 0 ino 33188 in
  let lookup c := ext2_lookupi sample_fs 0 sample_vget (args c) in
  (lookup 97;; lookup 98;; enter 97 12;; enter 98 13) sample_dir = Panic "ext2_direnter: compact2".
Proof. by vm_compute. Qed.

(** A replacement of a name that another process has removed: the lookup says
    EJUSTRETURN, which [ext2_dirrewrite_nolock] takes for success, and the entry at the
    slot for a new name is rewritten: here ".." of the directory, which then is the inode
    that was to be renamed. *)
Theorem dirrewrite_vanished :
  exists s', ext2_dirrewrite_nolock sample_fs true 0 sample_vget (sample_args RENAME [97] false) None 12 33188 0 sample_dir = Ret 0 s' /\
    (b ← blocks s' !! 0; entry_at 12 b) = Some (mkDe 12 52 2 1) /\
    (b ← blocks s' !! 0; name_at 12 2 b) = Some [46; 46].
Proof. eexists. split; [by vm_compute|]. split; by vm_compute. Qed.
