(* ===== verification/Dcache.v ===== *)
(** * The lookup cache of a directory (src/src/gnu/ext2fs/ext2_lookup.c)

    [ext2_lookup] remembers the position that a lookup for a removal or a renaming has
    found, in a hash table of the directory's inode; [ext2_dirremove] and
    [ext2_dirrewrite_nolock] use the remembered position instead of a new lookup.  The
    kernel's name cache, which [ext2_lookup] asks first, is taken to have no answer; the
    allocations succeed. *)

From S2P Require Import Prelude Dirent Dirslot Dir Direnter Dirspec.

(** ** The table *)

Definition E2DCACHE_BUCKETS : nat := 8.
Definition E2DCACHE_MASK : Z := 7.
Definition DCACHE_HASH (cn_hash : Z) : nat := Z.to_nat (Z.land cn_hash E2DCACHE_MASK).

(** A directory with the table [i_dhashtbl] of its inode, a chain for each bucket. *)
Record lookstate := mkLook { ls_dir : dirstate; i_dhashtbl : option (list (list dcache)) }.

Abbreviation LOOK := (kern lookstate).

Definition dcache_matches (name : list Z) (c : dcache) : bool :=
  (d_namelen c =? Z.of_nat (length name)) &&
  bool_decide (take (Z.to_nat (d_namelen c)) (dc_name c) = take (Z.to_nat (d_namelen c)) name).

Definition ext2_dcacheget (name : list Z) (chain : list dcache) : option dcache :=
  head (filter (dcache_matches name) chain).

Definition ext2_dcacheins (c : dcache) (chain : list dcache) : list dcache := c :: chain.

(** A change of the entry that [ext2_dcacheget] returns; [None] takes it off the chain. *)
Fixpoint dcache_alter (name : list Z) (f : dcache -> option dcache) (chain : list dcache) : list dcache :=
  match chain with
  | [] => []
  | c :: chain =>
      if dcache_matches name c then match f c with Some c => c :: chain | None => chain end
      else c :: dcache_alter name f chain
  end.

Definition ext2_dcacherem (c : dcache) : option dcache :=
  let refct := d_refct c - 1 in
  if refct <=? 0 then None else Some (mkDcache (d_offset c) (d_count c) refct (dc_reclen c) (d_namelen c) (dc_name c)).

(** What [ext2_lookup] stores: the position in the inode, and one more reference. *)
Definition dcache_store (d : dirinode) (c : dcache) : dcache :=
  mkDcache (dp_offset d) (dp_count d) (d_refct c + 1) (dp_reclen d) (d_namelen c) (dc_name c).

Definition dcache_remember (name : list Z) (d : dirinode) (chain : list dcache) : list dcache :=
  match ext2_dcacheget name chain with
  | Some _ => dcache_alter name (fun c => Some (dcache_store d c)) chain
  | None => ext2_dcacheins (dcache_store d (mkDcache 0 0 0 0 (u8 (Z.of_nat (length name))) name)) chain
  end.

(** A use of the entry: it loses its name, so that it is not found again. *)
Definition dcache_use (c : dcache) : option dcache :=
  ext2_dcacherem (mkDcache (d_offset c) (d_count c) (d_refct c) (dc_reclen c) 0 (dc_name c)).

(** ** The operations *)

(** An operation of the directory alone. *)
Definition on_dir {A} (m : DIR A) : LOOK A := fun s =>
  match m (ls_dir s) with
  | Ret a d => Ret a (mkLook d (i_dhashtbl s))
  | Panic msg => Panic msg
  | Fault => Fault
  | OutOfFuel => OutOfFuel
  end.

(** [ext2_lookup], from [dolookup:] on. *)
Definition ext2_lookup (fs : dirfs) (authorize : Z) (vget : Z -> Z * Z) (a : lookup_args) (cn_hash : Z)
    : LOOK (Z * option vnode) :=
  '(error, v) ← on_dir (ext2_lookupi fs authorize vget a);
  (if (bool_decide (cn_nameiop a = DELETE) || bool_decide (cn_nameiop a = RENAME))
      && ((error =? 0) || (error =? EJUSTRETURN))
   then modify (fun s =>
     let tbl := default (replicate E2DCACHE_BUCKETS []) (i_dhashtbl s) in
     mkLook (ls_dir s) (Some (alter (dcache_remember (cn_name a) (dp (ls_dir s))) (DCACHE_HASH cn_hash) tbl)))
   else mret tt);;
  mret (error, v).

(** The entry for a name, and its use. *)
Definition cached (name : list Z) (cn_hash : Z) (s : lookstate) : option dcache :=
  tbl ← i_dhashtbl s; chain ← tbl !! DCACHE_HASH cn_hash; ext2_dcacheget name chain.

Definition dcache_take (a : lookup_args) (cn_hash : Z) : LOOK (option dcache) :=
  s ← gets id;
  let dcp := cached (cn_name a) cn_hash s in
  modify (fun s => mkLook (ls_dir s) (alter (dcache_alter (cn_name a) dcache_use) (DCACHE_HASH cn_hash) <$> i_dhashtbl s));;
  mret dcp.

Definition dirremove (fs : dirfs) (authorize : Z) (vget : Z -> Z * Z) (a : lookup_args) (cn_hash bwrite : Z) : LOOK Z :=
  dcp ← dcache_take a cn_hash;
  on_dir (ext2_dirremove fs authorize vget a dcp bwrite).

Definition dirrewrite (fs : dirfs) (filetype : bool) (authorize : Z) (vget : Z -> Z * Z) (a : lookup_args)
    (cn_hash i_number i_mode bwrite : Z) : LOOK Z :=
  dcp ← dcache_take a cn_hash;
  on_dir (ext2_dirrewrite_nolock fs filetype authorize vget a dcp i_number i_mode bwrite).

(** ** Lemmas *)

Lemma wp_on_dir {A} (Q : A -> lookstate -> Prop) (m : DIR A) s :
  wp m (fun x d => Q x (mkLook d (i_dhashtbl s))) (ls_dir s) -> wp (on_dir m) Q s.
Proof. unfold wp, on_dir. by destruct (m (ls_dir s)). Qed.

Lemma dcacheget_cons name c chain :
  ext2_dcacheget name (c :: chain) = if dcache_matches name c then Some c else ext2_dcacheget name chain.
Proof. unfold ext2_dcacheget. rewrite filter_cons. by destruct (dcache_matches name c). Qed.

Lemma store_matches name d c : dcache_matches name (dcache_store d c) = dcache_matches name c.
Proof. done. Qed.

(** What was remembered last is found. *)
Lemma dcacheget_remember name d chain : Z.of_nat (length name) < 256 ->
  exists c, ext2_dcacheget name (dcache_remember name d chain) = Some c /\
    d_offset c = dp_offset d /\ d_count c = dp_count d /\ dc_reclen c = dp_reclen d.
Proof.
  intros Hl. unfold dcache_remember. destruct (ext2_dcacheget name chain) as [c0|] eqn:E.
  - induction chain as [|c chain IH]; [done|]. rewrite dcacheget_cons in E. cbn [dcache_alter].
    destruct (dcache_matches name c) eqn:M.
    + rewrite dcacheget_cons, store_matches, M. by eexists.
    + rewrite dcacheget_cons, M. by apply IH.
  - unfold ext2_dcacheins. rewrite dcacheget_cons, store_matches. unfold dcache_matches. cbn [d_namelen dc_name].
    rewrite uintw_small, Z.eqb_refl, bool_decide_eq_true_2 by (done || lia). by eexists.
Qed.

Lemma hash_in_table h : (DCACHE_HASH h < E2DCACHE_BUCKETS)%nat.
Proof.
  unfold DCACHE_HASH, E2DCACHE_MASK, E2DCACHE_BUCKETS. change 7 with (Z.ones 3). rewrite Z.land_ones by lia.
  pose proof (Z.mod_pos_bound h (2 ^ 3) ltac:(lia)). lia.
Qed.

(** A table has all its buckets. *)
Definition table_ok (s : lookstate) : Prop :=
  forall tbl, i_dhashtbl s = Some tbl -> length tbl = E2DCACHE_BUCKETS.

(** ** Different names do not disturb each other *)

Lemma matches_eq n n' c : dcache_matches n c = true -> dcache_matches n' c = true -> n = n'.
Proof.
  unfold dcache_matches. intros [E1 E2]%andb_true_iff [E3 E4]%andb_true_iff. apply Z.eqb_eq in E1, E3.
  apply bool_decide_eq_true in E2, E4. rewrite E2 in E4. rewrite !take_ge in E4 by lia. done.
Qed.

Lemma dcacheget_alter_ne n n' f chain :
  n <> n' -> (forall c c', dcache_matches n c = true -> f c = Some c' -> dcache_matches n' c' = false) ->
  ext2_dcacheget n' (dcache_alter n f chain) = ext2_dcacheget n' chain.
Proof.
  intros Hn Hf. induction chain as [|c chain IH]; [done|]. cbn [dcache_alter]. rewrite (dcacheget_cons n' c).
  destruct (dcache_matches n c) eqn:M.
  - assert (dcache_matches n' c = false) as -> by (apply not_true_is_false; intros M'; by apply Hn, (matches_eq n n' c)).
    destruct (f c) as [c'|] eqn:Ef; [|done]. by rewrite dcacheget_cons, (Hf c c' M Ef).
  - rewrite dcacheget_cons. by rewrite IH.
Qed.

Lemma dcacheget_remember_ne n n' d chain : n <> n' -> Z.of_nat (length n) < 256 ->
  ext2_dcacheget n' (dcache_remember n d chain) = ext2_dcacheget n' chain.
Proof.
  intros Hn Hl. unfold dcache_remember. destruct (ext2_dcacheget n chain).
  - apply dcacheget_alter_ne; [done|]. intros c c' M [= <-]. rewrite store_matches.
    apply not_true_is_false. intros M'. by apply Hn, (matches_eq n n' c).
  - unfold ext2_dcacheins. rewrite dcacheget_cons, store_matches.
    assert (dcache_matches n' (mkDcache 0 0 0 0 (u8 (Z.of_nat (length n))) n) = false) as ->; [|done].
    apply not_true_is_false. intros M'. apply Hn. unfold dcache_matches in M'. cbn in M'. apply andb_true_iff in M' as [E1 E2].
    apply Z.eqb_eq in E1. apply bool_decide_eq_true in E2. rewrite uintw_small in * by lia. by rewrite !take_ge in E2 by lia.
Qed.

Lemma dcacheget_use_ne n n' chain : n <> n' -> n' <> [] -> ext2_dcacheget n' (dcache_alter n dcache_use chain) = ext2_dcacheget n' chain.
Proof.
  intros Hn Hne. apply dcacheget_alter_ne; [done|]. intros c c' _ E. unfold dcache_use, ext2_dcacherem in E. cbn in E.
  destruct (_ <=? 0); [done|]. injection E as <-. unfold dcache_matches. cbn. by destruct n'.
Qed.

(** The operations on the table. *)
Lemma wp_take (Q : option dcache -> lookstate -> Prop) a h s :
  table_ok s ->
  (forall s', ls_dir s' = ls_dir s -> table_ok s' ->
     (forall n' h', n' <> cn_name a -> n' <> [] -> cached n' h' s' = cached n' h' s) -> Q (cached (cn_name a) h s) s') ->
  wp (dcache_take a h) Q s.
Proof.
  intros Tb HQ. unfold dcache_take. wp_steps. apply HQ; [done| |]; unfold id.
  - intros tbl. cbn. destruct (i_dhashtbl s) as [t|] eqn:Et; [|done]. cbn. intros [= <-]. rewrite length_alter. by apply Tb.
  - intros n' h' Hn Hne. unfold cached. cbn. destruct (i_dhashtbl s) as [t|]; [|done]. cbn.
    rewrite list_lookup_alter. destruct (decide (DCACHE_HASH h = DCACHE_HASH h')) as [->|]; [|done].
    destruct (t !! DCACHE_HASH h') as [chain|]; [|done]. cbn. by apply dcacheget_use_ne.
Qed.

(** A lookup remembers the position that it leaves in the inode. *)
Definition remembered (name : list Z) (h : Z) (i : dirinode) (s : lookstate) : Prop :=
  exists c, cached name h s = Some c /\ d_offset c = dp_offset i /\ d_count c = dp_count i /\ dc_reclen c = dp_reclen i.

Lemma wp_lookup_cache (Q : Z * option vnode -> lookstate -> Prop) fs authorize vget a h s :
  table_ok s -> Z.of_nat (length (cn_name a)) < 256 ->
  wp (ext2_lookupi fs authorize vget a) (fun r d => forall s', ls_dir s' = d -> table_ok s' ->
     (forall n' h', n' <> cn_name a -> cached n' h' s' = cached n' h' s) ->
     (cn_nameiop a = DELETE \/ cn_nameiop a = RENAME -> r.1 = 0 \/ r.1 = EJUSTRETURN -> remembered (cn_name a) h (dp d) s') ->
     Q r s') (ls_dir s) ->
  wp (ext2_lookup fs authorize vget a h) Q s.
Proof.
  intros Tb Hl W. unfold ext2_lookup. apply wp_bind, wp_on_dir. eapply wp_mono; [exact W|]. clear W. intros [e v] d HQ. cbn [fst] in HQ.
  destruct (_ && _) eqn:E.
  2:{ wp_steps. apply HQ; [done|done|done|]. intros Hop He. exfalso. apply not_true_iff_false in E. apply E.
      apply andb_true_iff. rewrite !orb_true_iff, !bool_decide_eq_true, !Z.eqb_eq. done. }
  wp_steps. unfold id. cbn [i_dhashtbl ls_dir]. set (tbl := from_option (fun x => x) (replicate E2DCACHE_BUCKETS []) (i_dhashtbl s)).
  assert (length tbl = E2DCACHE_BUCKETS) as Lt by (unfold tbl; destruct (i_dhashtbl s) as [t|] eqn:Et; [by apply Tb|done]).
  apply HQ; [done| | |].
  - intros t. cbn. intros [= <-]. by rewrite length_alter.
  - intros n' h' Hn. unfold cached. cbn. rewrite list_lookup_alter.
    assert ((chain ← tbl !! DCACHE_HASH h'; ext2_dcacheget n' chain) = (t ← i_dhashtbl s; chain ← t !! DCACHE_HASH h'; ext2_dcacheget n' chain)) as <-.
    { unfold tbl. destruct (i_dhashtbl s); [done|]. cbn [from_option mbind option_bind]. rewrite lookup_replicate_2 by (apply hash_in_table). done. }
    destruct (decide (DCACHE_HASH h = DCACHE_HASH h')) as [<-|]; [|done]. destruct (tbl !! DCACHE_HASH h) as [chain|]; [|done]. cbn.
    by apply dcacheget_remember_ne.
  - intros _ _. unfold remembered, cached. cbn [i_dhashtbl mbind option_bind]. rewrite list_lookup_alter, decide_True by done.
    destruct (lookup_lt_is_Some_2 tbl (DCACHE_HASH h)) as [chain ->]; [rewrite Lt; apply hash_in_table|]. cbn. by apply dcacheget_remember.
Qed.

(** ** Removals with a remembered position *)

Section cached.
Context (fs : dirfs) (vget : Z -> Z * Z).

(** A removal at a position that is up to date. *)
Lemma wp_remove_cached (Q : Z -> dirstate -> Prop) authorize a c bwrite m s l1 d l2 :
  represents fs m s -> dir_ok fs s (l1 ++ d :: l2) -> NoDup (names (l1 ++ d :: l2)) -> contents (l1 ++ d :: l2) = m ->
  has_name (cn_name a) d = true ->
  d_offset c = extent l1 -> d_count c = dist_before (fs_blocksize fs) l1 -> dc_reclen c = d_reclen d ->
  (forall s', represents fs (delete (cn_name a) m) s' -> Q bwrite s') ->
  wp (ext2_dirremove fs authorize vget a (Some c) bwrite) Q s.
Proof using Type.
  intros (l & _ & _ & _ & Hn & Hd) Ok ND Hm Hname Eo Ec Er HQ. unfold ext2_dirremove, entry_position. wp_steps.
  change (0 =? 0) with true. cbn [negb]. apply (wp_remove_at _ fs bwrite _ l1 d l2).
  - destruct Ok as [Hfs Hs D Ck]. by split.
  - by cbn.
  - by cbn.
  - by cbn.
  - intros s' l' Ok' HL Same Es. destruct (contents_delete l1 d l2 l' _ ND Hname HL) as [ND' Hc]. rewrite Hm in Hc.
    apply HQ. exists l'. do 3 (split; [done|]). split; [by rewrite (proj1 (proj2 Same))|].
    unfold diroff_ok in *. by rewrite (proj2 (proj2 Same)).
Qed.

(** The kernel's lookup of a name that is there, for its removal or for renaming. *)
Lemma wp_lookup_present (Q : Z * option vnode -> lookstate -> Prop) a h m s l1 d l2 :
  represents fs m (ls_dir s) -> table_ok s -> Z.of_nat (length (cn_name a)) < 256 ->
  cn_nameiop a = DELETE /\ islastcn a = true \/ cn_nameiop a = RENAME ->
  dir_ok fs (ls_dir s) (l1 ++ d :: l2) -> has_name (cn_name a) d = true -> absent (cn_name a) l1 ->
  (forall s', represents fs m (ls_dir s') -> table_ok s' -> dir_ok fs (ls_dir s') (l1 ++ d :: l2) ->
     (forall n' h', n' <> cn_name a -> cached n' h' s' = cached n' h' s) ->
     ((lookup_result vget a (dp (ls_dir s)) (d_ino d)).1 = 0 -> exists c, cached (cn_name a) h s' = Some c /\ d_offset c = extent l1 /\
        dc_reclen c = d_reclen d /\ (cn_nameiop a = DELETE -> d_count c = dist_before (fs_blocksize fs) l1)) ->
     dp (ls_dir s') = set_count (dp_count (dp (ls_dir s'))) (found_dp (cn_nameiop a) l1 d (dp (ls_dir s))) ->
     Q (lookup_result vget a (dp (ls_dir s)) (d_ino d)) s') ->
  wp (ext2_lookup fs 0 vget a h) Q s.
Proof using Type.
  intros R Tb Hl Hop Ok Hname Habs HQ. apply wp_lookup_cache; [done..|].
  apply (wp_lookup_found _ fs 0 vget a _ l1 d l2 Ok); [by destruct Hop as [[-> _]| ->]|by right|done|done|].
  intros x i Ei -> s' Es' Tb' Hoth Hrem.
  assert (cn_nameiop a = DELETE -> dp_count i = dist_before (fs_blocksize fs) l1) as Hcnt.
  { intros Hdel. destruct Hop as [[_ Hlast]|Hr]; [|congruence]. subst i. by rewrite Hlast, bool_decide_eq_true_2. }
  assert (exists k, i = set_count k (found_dp (cn_nameiop a) l1 d (dp (ls_dir s)))) as [k Ei'].
  { subst i. destruct (_ && _); [by eexists|]. by exists (dp_count (dp (ls_dir s))). }
  clear Ei. subst i. apply HQ.
  - rewrite Es'. pose proof R as (_ & _ & _ & _ & _ & Hd). by apply (represents_ext fs m (ls_dir s)).
  - done.
  - rewrite Es'. destruct Ok as [Hfs Hs D Ck]. by split.
  - done.
  - intros He. destruct Hrem as (c & C0 & C1 & C2 & C3); [destruct Hop as [[? _]|?]; auto|by left|]. cbn [dp] in C1, C2, C3.
    exists c. split_and!; [done|by rewrite C1|by rewrite C3|]. intros Hdel. by rewrite C2, Hcnt.
  - by rewrite Es'.
Qed.
End cached.

(** C22: The path of an unlink: the kernel looks the name up for its removal, then removes
    it.  When the lookup succeeds, the removal uses the position that the lookup has
    remembered, whatever else the cache holds, and takes exactly this name out of the
    directory. *)
Theorem lookup_then_remove fs vget a cn_hash bwrite m s :
  represents fs m (ls_dir s) -> table_ok s -> cn_nameiop a = DELETE -> islastcn a = true ->
  Z.of_nat (length (cn_name a)) < 256 -> is_Some (m !! cn_name a) ->
  exists error v s1, ext2_lookup fs 0 vget a cn_hash s = Ret (error, v) s1 /\ represents fs m (ls_dir s1) /\
    (error = 0 -> exists s2, dirremove fs 0 vget a cn_hash bwrite s1 = Ret bwrite s2 /\
       represents fs (delete (cn_name a) m) (ls_dir s2)).
Proof.
  intros R Tb Hop Hlast Hlen [x Hx].
  destruct (represents_present fs m _ _ x R Hx) as (l1 & d & l2 & Ok & ND & Hm & Hdn & Ha1 & _).
  enough (wp (ext2_lookup fs 0 vget a cn_hash) (fun r s1 => represents fs m (ls_dir s1) /\
    (r.1 = 0 -> wp (dirremove fs 0 vget a cn_hash bwrite) (fun e s2 => e = bwrite /\
       represents fs (delete (cn_name a) m) (ls_dir s2)) s1)) s) as W.
  { apply wp_run in W as ([e v] & s1 & E & R1 & W). exists e, v, s1. split; [done|]. split; [done|]. intros He.
    apply W, wp_run in He as (e' & s2 & E2 & -> & R2). by exists s2. }
  apply (wp_lookup_present fs vget _ a cn_hash m s l1 d l2 R Tb Hlen); [by left|done..|]. intros s1 R1 Tb1 Ok1 _ Hc _. split; [done|].
  intros He. destruct (Hc He) as (c & C0 & C1 & C2 & C3). unfold dirremove. apply wp_bind, (wp_take _ _ _ _ Tb1). intros s2 E2 _ _. rewrite C0.
  apply wp_on_dir. rewrite E2. by apply (wp_remove_cached fs vget _ 0 a c bwrite m _ l1 d l2 R1); auto.
Qed.

(** ** Samples *)

(** The sample directory with the files "a" (inode 12) and "b" (inode 13). *)
Definition sample_files : list dent :=
  [mkDent 2 12 2 [46]; mkDent 2 12 2 [46; 46]; mkDent 12 12 1 [97]; mkDent 13 28 1 [98]].
Definition sample_files_block : list Z :=
  [2; 0; 0; 0; 12; 0; 1; 2; 46; 0; 0; 0;  2; 0; 0; 0; 12; 0; 2; 2; 46; 46; 0; 0;
   12; 0; 0; 0; 12; 0; 1; 1; 97; 0; 0; 0;  13; 0; 0; 0; 28; 0; 1; 1; 98] ++ replicate 19 0.
Definition sample_files_dir : dirstate := mkDirstate (dp sample_dir) {[ 0 := sample_files_block ]}.
Definition sample_look : lookstate := mkLook sample_files_dir None.

Lemma sample_files_represents : represents sample_fs (contents sample_files) sample_files_dir.
Proof.
  exists sample_files. split.
  - split; [exact sample_fs_ok|split; [cbn; lia|by exists 1]| |by repeat constructor].
    cbn [dirents sample_files]. do 4 (split; [exists sample_files_block; (split; [reflexivity|]); (split; [reflexivity|]);
      split; [split; [cbn; lia|cbn; lia|apply Z.mod_divide; [done|by vm_compute]|by vm_compute|cbn; lia|by vm_compute]|reflexivity|by vm_compute]|]).
    done.
  - split; [apply (bool_decide_unpack (NoDup (names sample_files))); by vm_compute|]. split; [done|]. split; [done|].
    split; [cbn; lia|apply Z.divide_0_r].
Qed.

Lemma lookup_then_remove_witness :
  let a := sample_args DELETE [97] true in
  exists error v s1, ext2_lookup sample_fs 0 sample_vget a 5 sample_look = Ret (error, v) s1 /\
    represents sample_fs (contents sample_files) (ls_dir s1) /\
    (error = 0 -> exists s2, dirremove sample_fs 0 sample_vget a 5 0 s1 = Ret 0 s2 /\
       represents sample_fs (delete [97] (contents sample_files)) (ls_dir s2)).
Proof.
  apply (lookup_then_remove sample_fs sample_vget (sample_args DELETE [97] true) 5 0 (contents sample_files) sample_look);
    [exact sample_files_represents|done|done|done|cbn; lia|]. exists (12, 1). by vm_compute.
Defined.

(** Two unlinks that overlap: both lookups come before both removals.  The first
    removal merges the entry "a" into the one before it, but the remembered position of
    "b" still names "a" as the entry before "b": the second removal enlarges the record of
    an entry that is gone, returns success, and "b" stays in the directory, with an inode
    that the caller frees. *)
Theorem dcache_stale_position :
  let del c := sample_args DELETE [c] true in
  let lookup c := ext2_lookup sample_fs 0 sample_vget (del c) c in
  let remove c := dirremove sample_fs 0 sample_vget (del c) c 0 in
  exists s, (lookup 98;; lookup 97;; e1 ← remove 97; e2 ← remove 98; mret (e1, e2)) sample_look = Ret (0, 0) s /\
    (exists s', on_dir (ext2_lookupi sample_fs 0 sample_vget (sample_args LOOKUP [97] true)) s = Ret (ENOENT, None) s') /\
    (exists s', on_dir (ext2_lookupi sample_fs 0 sample_vget (sample_args LOOKUP [98] true)) s = Ret (0, Some (VInode 13)) s').
Proof. eexists. split; [by vm_compute|]. split; eexists; by vm_compute. Qed.

(** A renaming inside one directory to a name that is not there, as [ext2_rename] does it
    after the lookups of the kernel: the new name is entered, then the old one removed.
    The new entry takes the room behind "b", but the removal of "b" still uses the length
    that the record of "b" had before: the entry before it swallows both.  Every step
    returns success, and the file has neither name. *)
Theorem rename_loses_names :
  let look op c := ext2_lookup sample_fs 0 sample_vget (sample_args op [c] true) c in
  exists s, ('(e1, _) ← look DELETE 98; '(e2, _) ← look RENAME 99;
      e3 ← on_dir (ext2_direnter sample_fs true 0 sample_vget (sample_args RENAME [99] true) [0; 0; 0] 0 13 33188);
      e4 ← dirremove sample_fs 0 sample_vget (sample_args DELETE [98] true) 98 0;
      mret (e1, e2, e3, e4)) sample_look = Ret (0, EJUSTRETURN, 0, 0) s /\
    (forall c, c = 98 \/ c = 99 -> exists s',
       on_dir (ext2_lookupi sample_fs 0 sample_vget (sample_args LOOKUP [c] true)) s = Ret (ENOENT, None) s').
Proof. eexists. split; [by vm_compute|]. intros c [-> | ->]; eexists; by vm_compute. Qed.
