(* ===== verification/Dirrun.v ===== *)
(** * Requests on a directory (src/src/gnu/ext2fs/ext2_lookup.c)

    [op] is a request of the kernel that uses the names of one directory, [run] the calls
    that serve it, the kernel's lookups first; a removal and a replacement use the position
    that the lookup has remembered in the cache of [Dcache].  [spec_step] is what a request
    does to the map of names. *)

From S2P Require Import Prelude Dirent Dirslot Dir Direnter Dirspec Dcache.

(** ** Requests *)

(** The arguments of a lookup come with the hash of the name; [bwrite] is the error of the
    write of a block, [pad] what is behind the name on the stack, and [i_number] and
    [i_mode] are the inode that the entry is to refer to.  [Create] makes a new name;
    [Target] is the new name of a renaming, which may be there; [Move] is a renaming inside
    the directory to a name that is there. *)
Inductive op :=
| Lookup (a : lookup_args) (h : Z)
| Create (a : lookup_args) (h : Z) (pad : list Z) (bwrite i_number i_mode : Z)
| Remove (a : lookup_args) (h bwrite : Z)
| Target (a : lookup_args) (h : Z) (pad : list Z) (bwrite i_number i_mode : Z)
| Move (a : lookup_args) (h : Z) (b : lookup_args) (h' i_number i_mode bwrite bwrite' : Z).

Definition run `{DirIO} (fs : dirfs) (filetype : bool) (vget : Z -> Z * Z) (o : op) : LOOK Z :=
  match o with
  | Lookup a h => '(error, _) ← ext2_lookup fs 0 vget a h; mret error
  | Create a h pad bwrite i_number i_mode =>
      '(error, _) ← ext2_lookup fs 0 vget a h;
      if error =? EJUSTRETURN then on_dir (ext2_direnter fs filetype 0 vget a pad bwrite i_number i_mode) else mret error
  | Remove a h bwrite =>
      '(error, _) ← ext2_lookup fs 0 vget a h;
      if error =? 0 then dirremove fs 0 vget a h bwrite else mret error
  | Target a h pad bwrite i_number i_mode =>
      '(error, _) ← ext2_lookup fs 0 vget a h;
      if error =? 0 then dirrewrite fs filetype 0 vget a h i_number i_mode bwrite
      else if error =? EJUSTRETURN then on_dir (ext2_direnter fs filetype 0 vget a pad bwrite i_number i_mode)
      else mret error
  | Move a h b h' i_number i_mode bwrite bwrite' =>
      '(error, _) ← ext2_lookup fs 0 vget a h;
      if negb (error =? 0) then mret error
      else
        '(error, _) ← ext2_lookup fs 0 vget b h';
        if negb (error =? 0) then mret error
        else
          error ← dirrewrite fs filetype 0 vget b h' i_number i_mode bwrite;
          if negb (error =? 0) then mret error else dirremove fs 0 vget a h bwrite'
  end.

Definition creates_name (a : lookup_args) (op : nameiop) : Prop := cn_nameiop a = op /\ islastcn a = true.
Definition removes_name (a : lookup_args) : Prop :=
  cn_nameiop a = DELETE /\ islastcn a = true /\ 0 < Z.of_nat (length (cn_name a)) < 256.

(** The arguments of the requests. *)
Definition valid (fs : dirfs) (m : dirmap) (o : op) : Prop :=
  match o with
  | Lookup a _ => cn_nameiop a = LOOKUP /\ vpp a = true /\ Z.of_nat (length (cn_name a)) < 256
  | Create a _ pad _ i_number i_mode => creates_name a CREATE /\ enter_args fs a pad i_number i_mode
  | Remove a _ _ => removes_name a
  | Target a _ pad _ i_number i_mode => creates_name a RENAME /\ enter_args fs a pad i_number i_mode
  | Move a _ b _ i_number i_mode _ _ =>
      removes_name a /\ cn_nameiop b = RENAME /\ 0 < Z.of_nat (length (cn_name b)) < 256 /\ cn_name a <> cn_name b /\
      is_Some (m !! cn_name b) /\ 0 < i_number < 2 ^ 32 /\ i_number <= fs_inodes_count fs /\ 0 <= i_mode < 2 ^ 16 /\ IFTODT i_mode <> 15
  end.

(** What a request does to the map, with its result; [look a ino] is the error of the lookup
    [a] for a name that is there and refers to [ino]. *)
Inductive spec_step (look : lookup_args -> Z -> Z) (filetype : bool) (m : dirmap) : op -> Z -> dirmap -> Prop :=
| spec_lookup a h :
    spec_step look filetype m (Lookup a h) (match m !! cn_name a with Some (ino, _) => look a ino | None => ENOENT end) m
| spec_created a h pad bwrite i_number i_mode error :
    m !! cn_name a = None ->
    spec_step look filetype m (Create a h pad bwrite i_number i_mode) error (<[cn_name a := (i_number, entry_type filetype i_mode)]> m)
| spec_not_created a h pad bwrite i_number i_mode error :
    m !! cn_name a = None -> error <> 0 -> spec_step look filetype m (Create a h pad bwrite i_number i_mode) error m
| spec_exists a h pad bwrite i_number i_mode ino t :
    m !! cn_name a = Some (ino, t) -> spec_step look filetype m (Create a h pad bwrite i_number i_mode) (look a ino) m
| spec_removed a h bwrite ino t :
    m !! cn_name a = Some (ino, t) -> look a ino = 0 -> spec_step look filetype m (Remove a h bwrite) bwrite (delete (cn_name a) m)
| spec_not_removed a h bwrite ino t :
    m !! cn_name a = Some (ino, t) -> look a ino <> 0 -> spec_step look filetype m (Remove a h bwrite) (look a ino) m
| spec_missing a h bwrite : m !! cn_name a = None -> spec_step look filetype m (Remove a h bwrite) ENOENT m
| spec_replaced a h pad bwrite i_number i_mode ino t :
    m !! cn_name a = Some (ino, t) -> look a ino = 0 ->
    spec_step look filetype m (Target a h pad bwrite i_number i_mode) bwrite (<[cn_name a := (i_number, entry_type filetype i_mode)]> m)
| spec_not_replaced a h pad bwrite i_number i_mode ino t :
    m !! cn_name a = Some (ino, t) -> look a ino <> 0 -> spec_step look filetype m (Target a h pad bwrite i_number i_mode) (look a ino) m
| spec_entered a h pad bwrite i_number i_mode error :
    m !! cn_name a = None ->
    spec_step look filetype m (Target a h pad bwrite i_number i_mode) error (<[cn_name a := (i_number, entry_type filetype i_mode)]> m)
| spec_not_entered a h pad bwrite i_number i_mode error :
    m !! cn_name a = None -> error <> 0 -> spec_step look filetype m (Target a h pad bwrite i_number i_mode) error m
| spec_no_source a h b h' i_number i_mode bwrite bwrite' :
    m !! cn_name a = None -> spec_step look filetype m (Move a h b h' i_number i_mode bwrite bwrite') ENOENT m
| spec_not_moved a h b h' i_number i_mode bwrite bwrite' ino t ino' t' error :
    m !! cn_name a = Some (ino, t) -> m !! cn_name b = Some (ino', t') -> error <> 0 ->
    error = (if look a ino =? 0 then look b ino' else look a ino) ->
    spec_step look filetype m (Move a h b h' i_number i_mode bwrite bwrite') error m
| spec_half_moved a h b h' i_number i_mode bwrite bwrite' ino t ino' t' :
    m !! cn_name a = Some (ino, t) -> m !! cn_name b = Some (ino', t') -> look a ino = 0 -> look b ino' = 0 -> bwrite <> 0 ->
    spec_step look filetype m (Move a h b h' i_number i_mode bwrite bwrite') bwrite (<[cn_name b := (i_number, entry_type filetype i_mode)]> m)
| spec_moved a h b h' i_number i_mode bwrite' ino t ino' t' :
    m !! cn_name a = Some (ino, t) -> m !! cn_name b = Some (ino', t') -> look a ino = 0 -> look b ino' = 0 ->
    spec_step look filetype m (Move a h b h' i_number i_mode 0 bwrite') bwrite'
      (delete (cn_name a) (<[cn_name b := (i_number, entry_type filetype i_mode)]> m)).

(** Entries whose records keep their length keep the positions of the others. *)
Lemma extent_swap p d d' q : d_reclen d' = d_reclen d -> extent (p ++ d' :: q) = extent (p ++ d :: q).
Proof. intros E. by rewrite !extent_app, !extent_cons, E. Qed.

Lemma dist_swap bs p d d' q : d_reclen d' = d_reclen d -> dist_before bs (p ++ d' :: q) = dist_before bs (p ++ d :: q).
Proof.
  intros E. unfold dist_before. rewrite (extent_swap p d d' q E). destruct (_ =? 0); [done|].
  destruct q as [|x q _] using rev_ind; [rewrite !last_snoc; exact E|]. by rewrite !app_comm_cons, !(app_assoc p), !last_snoc.
Qed.

(** Two different entries of a list. *)
Lemma two_entries n n' (l1 l2 k1 k2 : list dent) d e :
  l1 ++ d :: l2 = k1 ++ e :: k2 -> has_name n d = true -> has_name n' e = true -> n <> n' ->
  (exists p, l1 = k1 ++ e :: p /\ k2 = p ++ d :: l2) \/ (exists p, k1 = l1 ++ d :: p /\ l2 = p ++ e :: k2).
Proof.
  intros El Hd He Hn. assert (d <> e) as Hne.
  { intros ->. apply has_name_live in Hd as [_ <-], He as [_ <-]. done. }
  apply app_eq_inv in El as [(k & E1 & E2)|(k & E1 & E2)].
  - destruct k as [|x k]; simplify_eq/=. left. by exists k.
  - destruct k as [|x k]; simplify_eq/=. right. by exists k.
Qed.

Section refinement.
Context (fs : dirfs) `{DirIOLaws fs} (filetype : bool) (vget : Z -> Z * Z).
Context (Hvget : forall ino, (vget ino).1 <> EJUSTRETURN).

(** The directory represents the map; its cache of positions may hold anything. *)
Definition serves (m : dirmap) (s : lookstate) : Prop := represents fs m (ls_dir s) /\ table_ok s.

(** The error of a lookup in the directory [i]. *)
Definition look_of (i : dirinode) (a : lookup_args) (ino : Z) : Z := (lookup_result vget a i ino).1.

Lemma look_of_eq i i' a ino :
  dp_number i' = dp_number i -> dp_mode i' = dp_mode i -> dp_uid i' = dp_uid i -> look_of i' a ino = look_of i a ino.
Proof using Type. unfold look_of, lookup_result. by intros -> -> ->. Qed.

Lemma look_not_just i a ino : look_of i a ino <> EJUSTRETURN.
Proof using Hvget.
  unfold look_of, lookup_result, vnode_of. pose proof (Hvget ino) as Hv. assert (EJUSTRETURN <> 0 /\ EJUSTRETURN <> EPERM /\ EJUSTRETURN <> EISDIR) as (? & ? & ?) by done.
  repeat case_match; cbn; congruence.
Qed.

(** The new name is there, but the error of updating the inode of the directory has left
    the size at the end of the entry. *)
Definition half_created (m : dirmap) (o : op) (error : Z) (s' : lookstate) : Prop :=
  match o with
  | Create a _ _ _ i_number i_mode | Target a _ _ _ i_number i_mode =>
      m !! cn_name a = None /\ error <> 0 /\
      represents fs (<[cn_name a := (i_number, entry_type filetype i_mode)]> m) (rounded fs (ls_dir s')) /\ table_ok s'
  | _ => False
  end.

(** ** Serving a request *)

(** The kernel's lookup of a name that is there. *)
Lemma wp_look_present (Q : Z * option vnode -> lookstate -> Prop) m s a h ino t :
  serves m s -> Z.of_nat (length (cn_name a)) < 256 -> cn_nameiop a <> LOOKUP ->
  (cn_nameiop a = DELETE -> islastcn a = true) -> m !! cn_name a = Some (ino, t) ->
  (forall x s', serves m s' -> x.1 = look_of (dp (ls_dir s)) a ino -> Q x s') ->
  wp (ext2_lookup fs 0 vget a h) Q s.
Proof using Type.
  intros [R Tb] Hl Hop Hlast Hx HQ. destruct (represents_present fs m _ _ _ R Hx) as (l1 & d & l2 & Ok & ND & Hm & Hdn & Ha1 & _ & [= -> ->] & _ & Hd).
  apply wp_lookup_cache; [done..|]. apply (wp_lookup_found _ fs 0 vget a _ l1 d l2 Ok Hop); [by right|done|done|].
  intros x i Ei -> s' Es' Tb' _ _. apply HQ; [|done]. split; [|done]. rewrite Es'.
  apply (represents_ext fs m (ls_dir s)); try done; cbn [dp]; subst i; destruct (_ && _); done.
Qed.

(** A name that is not there is entered. *)
Lemma wp_look_enter (Q : Z -> lookstate -> Prop) m s a h pad bwrite i_number i_mode :
  serves m s -> creates a -> enter_args fs a pad i_number i_mode -> dp_size (dp (ls_dir s)) + fs_blocksize fs < 2 ^ 30 ->
  m !! cn_name a = None ->
  (forall error s' m', serves m' s' -> m' = <[cn_name a := (i_number, entry_type filetype i_mode)]> m \/ error <> 0 /\ m' = m -> Q error s') ->
  (forall error s', error <> 0 -> table_ok s' ->
     represents fs (<[cn_name a := (i_number, entry_type filetype i_mode)]> m) (rounded fs (ls_dir s')) -> Q error s') ->
  wp (ext2_lookup fs 0 vget a h) (fun r s1 => r.1 = EJUSTRETURN /\
    wp (on_dir (ext2_direnter fs filetype 0 vget a pad bwrite i_number i_mode)) Q s1) s.
Proof using H0.
  intros [R Tb] Hcr Ha Hs E HQ HQh. pose proof R as (l & Ok & ND & Hm & Hn & Hd). subst m. apply contents_none in E as Habs.
  apply wp_lookup_cache; [done|apply Ha|]. apply (wp_lookup_create _ fs vget a _ l Ok Hcr Hn Habs). intros s1 I _ s1' Es1 Tb1 _ _. split; [done|].
  pose proof (ci_blocks _ _ _ _ _ I) as Eb. pose proof (ci_size _ _ _ _ _ I) as Es. pose proof (ci_same _ _ _ _ _ I) as Same.
  assert (dir_ok fs s1 l) as Ok1 by (destruct Ok as [Hfs Hsz D Ck]; by split; rewrite ?Es, ?Eb).
  apply wp_on_dir. rewrite Es1.
  apply (wp_direnter fs filetype vget a pad bwrite i_number i_mode Hcr Ha _ s1 l Ok1); [by rewrite Es| |done|by exists (ls_dir s)|].
  { destruct Same as (_ & -> & _). done. }
  assert (forall (error : Z) s' l', dir_ok fs s' l' -> same_dir (dp s1) (dp s') -> live l' ≡ₚ new_key filetype a i_number i_mode :: live l ->
    represents fs (<[cn_name a := (i_number, entry_type filetype i_mode)]> (contents l)) s') as Hnew.
  { intros _ s' l' Ok' Same' HL. pose proof (same_dir_trans _ _ _ Same Same') as Same2.
    destruct (contents_insert l l' _ _ ND Habs HL) as [ND' Hc]. exists l'. split_and!; try done.
    - by rewrite (proj1 (proj2 Same2)).
    - by eapply same_dir_diroff. }
  intros error s' [(l' & Ok' & Same' & [HL|[He HL]])|(He & _ & l' & Ok' & Same' & HL)].
  - eapply HQ; [split; [cbn [ls_dir]; by apply (Hnew error s' l')|exact Tb1]|by left].
  - eapply (HQ _ _ (contents l)); [|by right]. split; [|exact Tb1]. cbn [ls_dir]. pose proof (same_dir_trans _ _ _ Same Same') as Same2. exists l'.
    unfold names, contents. rewrite HL. split_and!; try done; [by rewrite (proj1 (proj2 Same2))|by eapply same_dir_diroff..].
  - apply HQh; [done|exact Tb1|]. cbn [ls_dir]. destruct HL as [HL|[? _]]; [|done]. by apply (Hnew 0 _ l').
Qed.

(** A replacement at a position that is up to date. *)
Lemma wp_rewrite_cached (Q : Z -> dirstate -> Prop) authorize a c i_number i_mode bwrite m s l1 d l2 :
  represents fs m s -> dir_ok fs s (l1 ++ d :: l2) -> NoDup (names (l1 ++ d :: l2)) -> contents (l1 ++ d :: l2) = m ->
  has_name (cn_name a) d = true -> d_offset c = extent l1 ->
  0 < i_number < 2 ^ 32 -> i_number <= fs_inodes_count fs -> 0 <= i_mode < 2 ^ 16 -> IFTODT i_mode <> 15 ->
  (forall s' d', represents fs (<[cn_name a := (i_number, entry_type filetype i_mode)]> m) s' -> d_reclen d' = d_reclen d ->
     dir_ok fs s' (l1 ++ d' :: l2) -> NoDup (names (l1 ++ d' :: l2)) ->
     contents (l1 ++ d' :: l2) = <[cn_name a := (i_number, entry_type filetype i_mode)]> m -> Q bwrite s') ->
  wp (ext2_dirrewrite_nolock fs filetype authorize vget a (Some c) i_number i_mode bwrite) Q s.
Proof using Type.
  intros (l & _ & _ & _ & Hn & Hd) Ok ND Hm Hname Eo Hi Hc Hmo Hdt HQ. unfold ext2_dirrewrite_nolock, entry_position. wp_steps.
  change ((0 =? 0) || (0 =? EJUSTRETURN)) with true. cbn [negb].
  apply (wp_rewrite_at _ fs filetype (cn_name a) i_number i_mode bwrite _ l1 d l2); [|done|by cbn|done..|].
  { destruct Ok as [Hfs Hs D Ck]. by split. }
  intros s' t Ok' Ht Same Es. set (d' := mkDent i_number (d_reclen d) t (d_name d)) in *.
  assert (t = entry_type filetype i_mode) as Et by (unfold entry_type; destruct filetype; [by rewrite Ht|done]).
  destruct (contents_replace l1 d l2 d' (cn_name a) ND Hname) as [ND2 Hcs].
  { unfold is_live, d'. cbn. apply negb_true_iff, Z.eqb_neq. lia. }
  { by apply has_name_live in Hname as [_ Hname]. }
  cbn [d' d_ino d_type] in Hcs. rewrite Hm, Et in Hcs. fold d' in Hcs. apply (HQ s' d'); try done.
  exists (l1 ++ d' :: l2). split_and!; try done; [by rewrite (proj1 (proj2 Same))|by eapply same_dir_diroff..].
Qed.

(** The renaming inside the directory: both positions are those of the lookups. *)
Lemma wp_move (Q : Z -> lookstate -> Prop) m s a h b h' i_number i_mode bwrite bwrite' :
  serves m s -> valid fs m (Move a h b h' i_number i_mode bwrite bwrite') ->
  (forall error s' m', spec_step (look_of (dp (ls_dir s))) filetype m (Move a h b h' i_number i_mode bwrite bwrite') error m' ->
     serves m' s' -> Q error s') ->
  wp (run fs filetype vget (Move a h b h' i_number i_mode bwrite bwrite')) Q s.
Proof using Type.
  intros S ((Hop & Hlast & Hl) & Hopb & Hlb & Hne & [[ino' t'] Hb] & Hi & Hc & Hmo & Hdt) HQ. pose proof S as [R Tb]. cbn [run]. apply wp_bind.
  destruct (m !! cn_name a) as [[ino t]|] eqn:Ea.
  2:{ pose proof R as (l & Ok & _ & Hm & _ & Hd). subst m. apply contents_none in Ea as Habs. apply wp_lookup_cache; [done|lia|].
      apply (wp_lookup_missing _ fs 0 vget a _ l Ok Hop Habs). intros off s1 Es1 Tb1 _ _. change (negb (ENOENT =? 0)) with true. cbn iota.
      apply wp_ret. apply (HQ _ _ (contents l)); [by apply spec_no_source|]. split; [|done]. rewrite Es1. by apply (represents_ext fs _ (ls_dir s)). }
  destruct (represents_present fs m _ _ _ R Ea) as (l1 & d & l2 & Ok & ND & Hm & Hdn & Ha1 & _ & [= -> ->] & _).
  pose proof Hb as Hb'. rewrite <- Hm in Hb'. apply contents_some in Hb' as (k1 & e & k2 & El & Hen & Hb1 & _ & [= -> ->]); [|done].
  apply (wp_lookup_present fs vget _ a h m s l1 d l2 R Tb ltac:(lia)); [by left|done..|]. intros s1 R1 Tb1 Ok1 _ C1 Ed1.
  destruct (lookup_result vget a (dp (ls_dir s)) (d_ino d)) as [e1 v1] eqn:E1. cbn [fst] in C1.
  assert (look_of (dp (ls_dir s)) a (d_ino d) = e1) as L1 by (unfold look_of; by rewrite E1).
  destruct (Z.eqb_spec e1 0) as [->|He1]; cbn [negb].
  2:{ apply wp_ret, (HQ _ _ m); [|done]. eapply spec_not_moved; [done..|]. rewrite L1. by rewrite (proj2 (Z.eqb_neq _ _)). }
  destruct (C1 eq_refl) as (ca & Ca & A1 & A2 & A3). clear C1. apply wp_bind. rewrite El in Ok1.
  apply (wp_lookup_present fs vget _ b h' m s1 k1 e k2 R1 Tb1 ltac:(lia)); [by right|done..|]. intros s2 R2 Tb2 Ok2 Hoth2 C2 _.
  destruct (lookup_result vget b (dp (ls_dir s1)) (d_ino e)) as [e2 v2] eqn:E2. cbn [fst] in C2.
  assert (look_of (dp (ls_dir s)) b (d_ino e) = e2) as L2.
  { rewrite <- (look_of_eq (dp (ls_dir s)) (dp (ls_dir s1))) by (by rewrite Ed1). unfold look_of. by rewrite E2. }
  destruct (Z.eqb_spec e2 0) as [->|He2]; cbn [negb].
  2:{ apply wp_ret, (HQ _ _ m); [|done]. eapply spec_not_moved; [done..|]. by rewrite L1. }
  destruct (C2 eq_refl) as (cb & Cb & B1 & _). clear C2. unfold dirrewrite. wp_steps. apply (wp_take _ _ _ _ Tb2). intros s3 E3 Tb3 Hoth3. rewrite Cb.
  apply wp_on_dir. rewrite E3. rewrite El in ND, Hm.
  apply (wp_rewrite_cached _ 0 b cb i_number i_mode bwrite m _ k1 e k2 R2 Ok2 ND Hm Hen B1); try done.
  intros s4 e' R4 Er Ok4 ND4 Hm4. destruct (Z.eqb_spec bwrite 0) as [->|Hbw]; cbn [negb].
  2:{ wp_steps. eapply (HQ _ _ _ (spec_half_moved _ _ _ a h b h' _ _ _ _ _ _ _ _ Ea Hb L1 L2 Hbw)). by split. }
  unfold dirremove. wp_steps. apply wp_take; [exact Tb3|]. intros s5 E5 Tb5 _.
  assert (cached (cn_name a) h (mkLook s4 (i_dhashtbl s3)) = Some ca) as ->.
  { change (cached (cn_name a) h s3 = Some ca). rewrite Hoth3, Hoth2; [done|done..|]. intros E0. rewrite E0 in Hl. cbn in Hl. lia. }
  apply wp_on_dir. rewrite E5. cbn [ls_dir].
  assert (exists p q, k1 ++ e' :: k2 = p ++ d :: q /\ extent p = extent l1 /\
    dist_before (fs_blocksize fs) p = dist_before (fs_blocksize fs) l1) as (p & q & Ep & X1 & X2).
  { destruct (two_entries _ _ _ _ _ _ _ _ El Hdn Hen Hne) as [(p & -> & ->)|(p & -> & ->)].
    - exists (k1 ++ e' :: p), l2. rewrite <- app_assoc. split_and!; [done|by apply extent_swap|by apply dist_swap].
    - exists l1, (p ++ e' :: k2). by rewrite <- app_assoc. }
  rewrite Ep in Ok4, ND4, Hm4.
  apply (wp_remove_cached fs vget _ 0 a ca bwrite' _ _ p d q R4 Ok4 ND4 Hm4 Hdn); [congruence|rewrite A3 by done; congruence|done|].
  intros s6 R6. eapply HQ; [by eapply spec_moved|]. by split.
Qed.

(** A removal, at the position of the lookup. *)
Lemma wp_serve_remove (Q : Z -> lookstate -> Prop) m s a h bw :
  serves m s -> removes_name a ->
  (forall error s' m', spec_step (look_of (dp (ls_dir s))) filetype m (Remove a h bw) error m' -> serves m' s' -> Q error s') ->
  wp (run fs filetype vget (Remove a h bw)) Q s.
Proof using Type.
  intros S (Hop & Hlast & Hl) HQ. pose proof S as [R Tb]. cbn [run]. apply wp_bind. destruct (m !! cn_name a) as [[ino t]|] eqn:E.
  - destruct (represents_present fs m _ _ _ R E) as (l1 & d & l2 & Ok' & ND' & Hm' & Hdn & Ha1 & _ & [= -> ->] & _).
    apply (wp_lookup_present fs vget _ a h m s l1 d l2 R Tb ltac:(lia)); [by left|done..|]. intros s1 R1 Tb1 Ok1 _ C _.
    destruct (lookup_result _ _ _ _) as [e v] eqn:E1. cbn [fst] in C.
    assert (look_of (dp (ls_dir s)) a (d_ino d) = e) as L by (unfold look_of; by rewrite E1).
    destruct (Z.eqb_spec e 0) as [->|He].
    + destruct (C eq_refl) as (c & Ca & A1 & A2 & A3). unfold dirremove. wp_steps. apply (wp_take _ _ _ _ Tb1). intros s2 E2 Tb2 _. rewrite Ca.
      apply wp_on_dir. rewrite E2. apply (wp_remove_cached fs vget _ 0 a c bw m _ l1 d l2 R1 Ok1 ND' Hm' Hdn A1 (A3 Hop) A2).
      intros s3 R3. eapply HQ; [by eapply spec_removed|]. by split.
    + apply wp_ret, (HQ _ _ m); [|done]. rewrite <- L in He |- *. by eapply spec_not_removed.
  - pose proof R as (l & Ok & ND & Hm & Hn & Hd). subst m. apply contents_none in E as Habs. apply wp_lookup_cache; [done|lia|].
    apply (wp_lookup_missing _ fs 0 vget a _ l Ok Hop Habs). intros off s1 Es1 Tb1 _ _. change (ENOENT =? 0) with false. cbn iota.
    apply wp_ret. apply (HQ _ _ (contents l)); [by apply spec_missing|]. split; [|done]. rewrite Es1. by apply (represents_ext fs _ (ls_dir s)).
Qed.

(** A replacement, of the target of a renaming. *)
Lemma wp_serve_replace (Q : Z -> lookstate -> Prop) m s a h pad bw i md ino t :
  serves m s -> creates_name a RENAME -> enter_args fs a pad i md -> m !! cn_name a = Some (ino, t) ->
  (forall error s' m', spec_step (look_of (dp (ls_dir s))) filetype m (Target a h pad bw i md) error m' -> serves m' s' -> Q error s') ->
  wp (run fs filetype vget (Target a h pad bw i md)) Q s.
Proof using Hvget.
  intros S [Hop Hlast] Ha E HQ. pose proof S as [R Tb]. cbn [run]. apply wp_bind.
  destruct (represents_present fs m _ _ _ R E) as (l1 & d & l2 & Ok' & ND' & Hm' & Hdn & Ha1 & _ & [= -> ->] & _).
  apply (wp_lookup_present fs vget _ a h m s l1 d l2 R Tb); [apply Ha|by right|done..|]. intros s1 R1 Tb1 Ok1 _ C _.
  destruct (lookup_result _ _ _ _) as [e v] eqn:E1. cbn [fst] in C.
  assert (look_of (dp (ls_dir s)) a (d_ino d) = e) as L by (unfold look_of; by rewrite E1).
  destruct (Z.eqb_spec e 0) as [->|He].
  - destruct (C eq_refl) as (c & Ca & A1 & _). unfold dirrewrite. wp_steps. apply (wp_take _ _ _ _ Tb1). intros s2 E2 Tb2 _. rewrite Ca.
    apply wp_on_dir. rewrite E2. apply (wp_rewrite_cached _ 0 a c i md bw m _ l1 d l2 R1 Ok1 ND' Hm' Hdn A1); try apply Ha.
    intros s3 d' R3 _ _ _ _. eapply HQ; [by eapply spec_replaced|]. by split.
  - rewrite (proj2 (Z.eqb_neq e EJUSTRETURN)) by (rewrite <- L; apply look_not_just). apply wp_ret, (HQ _ _ m); [|done].
    rewrite <- L in He |- *. by eapply spec_not_replaced.
Qed.

(** A request that the kernel may make; the directory is not at its largest size. *)
Definition admissible (m : dirmap) (o : op) (s : lookstate) : Prop :=
  dp_size (dp (ls_dir s)) + fs_blocksize fs < 2 ^ 30 /\ valid fs m o.

Lemma wp_run_map (Q : Z -> lookstate -> Prop) m s o :
  serves m s -> admissible m o s ->
  (forall error s' m', spec_step (look_of (dp (ls_dir s))) filetype m o error m' -> serves m' s' -> Q error s') ->
  (forall error s', half_created m o error s' -> Q error s') ->
  wp (run fs filetype vget o) Q s.
Proof using Hvget H0.
  intros S [Hs V] HQ HQh. pose proof S as [R Tb]. pose proof R as (l & Ok & ND & Hm & Hn & Hd).
  assert (forall a h pad bw i md, creates a -> enter_args fs a pad i md -> m !! cn_name a = None ->
    (forall error, spec_step (look_of (dp (ls_dir s))) filetype m o error (<[cn_name a := (i, entry_type filetype md)]> m)) ->
    (forall error, error <> 0 -> spec_step (look_of (dp (ls_dir s))) filetype m o error m) ->
    (forall error s', error <> 0 -> table_ok s' -> represents fs (<[cn_name a := (i, entry_type filetype md)]> m) (rounded fs (ls_dir s')) -> half_created m o error s') ->
    wp (ext2_lookup fs 0 vget a h) (fun r s1 => r.1 = EJUSTRETURN /\ wp (on_dir (ext2_direnter fs filetype 0 vget a pad bw i md)) Q s1) s) as Henter.
  { intros a h pad bw i md Hcr Ha E H1 H2 H3. apply (wp_look_enter _ m s a h pad bw i md S Hcr Ha Hs E).
    - intros error s' m' S' [->|[He ->]]; [by apply (HQ _ _ _ (H1 error))|by apply (HQ _ _ _ (H2 error He))].
    - intros error s' He Tb' R'. by apply HQh, H3. }
  destruct o as [a h|a h pad bw i md|a h bw|a h pad bw i md|a h b h' i md bw bw'].
  - cbn [run]. destruct V as (Hop & Hv & Hl). apply wp_bind, wp_lookup_cache; [done..|]. apply (wp_lookup_map fs vget _ m _ a 0 R Hop Hv).
    intros d R' s' Es' Tb' _ _.
    assert (serves m s') as S' by (split; [by rewrite Es'|done]). pose proof (spec_lookup (look_of (dp (ls_dir s))) filetype m a h) as St.
    destruct (m !! cn_name a) as [[ino t]|].
    + unfold look_of, lookup_result in St. rewrite Hop, Hv, !bool_decide_eq_false_2 in St by done. cbn [andb] in St.
      destruct (vnode_of _ _ _ _) as [e v]. apply wp_ret. by apply (HQ _ _ _ St).
    + apply wp_ret. by apply (HQ _ _ _ St).
  - cbn [run]. destruct V as [[Hop Hlast] Ha]. apply wp_bind. destruct (m !! cn_name a) as [[ino t]|] eqn:E.
    + apply (wp_look_present _ m s a h ino t S); [apply Ha|by rewrite Hop|by rewrite Hop|done|]. intros [e v] s' S' He. cbn [fst] in He.
      rewrite (proj2 (Z.eqb_neq e EJUSTRETURN)) by (rewrite He; apply look_not_just). apply wp_ret, (HQ _ _ m); [|done]. rewrite He. by eapply spec_exists.
    + eapply wp_mono; [apply (Henter a h pad bw i md); try done; [split; [by left|done]|intros; by apply spec_created|intros; by apply spec_not_created]|].
      intros [e v] s1 [He W]. cbn [fst] in He. by rewrite He.
  - by apply (wp_serve_remove _ m s a h bw).
  - destruct V as [[Hop Hlast] Ha]. destruct (m !! cn_name a) as [[ino t]|] eqn:E.
    + by apply (wp_serve_replace _ m s a h pad bw i md ino t).
    + cbn [run]. apply wp_bind. eapply wp_mono; [apply (Henter a h pad bw i md); try done; [split; [by right|done]|intros; by apply spec_entered|intros; by apply spec_not_entered]|].
      intros [e v] s1 [He W]. cbn [fst] in He. by rewrite He.
  - by apply (wp_move _ m s).
Qed.

(** C2: Serving a request on a directory that represents a map: the calls return
    (no panic, no access outside a block, no loop without end), with a result and a
    directory that represents the map after the request: a lookup changes nothing, a
    creation of a new name adds exactly that name with the inode number and its file type
    (or fails with an error and adds nothing), a creation of a name that exists changes
    nothing; a removal removes exactly that name, a replacement changes exactly that name,
    and a renaming inside the directory over another name does both, at the positions that
    the kernel's lookups have left in the cache, whatever else the cache holds; when one of
    these lookups reports an error, nothing is changed.  There is one exception: when a new
    block was needed and the update of the directory's inode fails, the creation reports
    the error, the new name is there, but the size is not rounded up to the block. *)
Theorem run_refines m s o :
  serves m s -> admissible m o s ->
  exists error s', run fs filetype vget o s = Ret error s' /\
    ((exists m', spec_step (look_of (dp (ls_dir s))) filetype m o error m' /\ serves m' s') \/ half_created m o error s').
Proof using Hvget H0.
  intros R A. enough (wp (run fs filetype vget o) (fun error s' =>
    (exists m', spec_step (look_of (dp (ls_dir s))) filetype m o error m' /\ serves m' s') \/ half_created m o error s') s) as W.
  { apply wp_run in W as (e & s' & E & W). by exists e, s'. }
  apply (wp_run_map _ m s o R A); [|by right]. intros e s' m' S R'. left. by exists m'.
Qed.

(** ** Sequences of requests *)

(** The requests served, with their results and the inode of the directory before each. *)
Abbreviation trace := (list (dirinode * op * Z)).

(** The states a directory goes through while it serves requests, as long as no update of
    its inode fails after a new block. *)
Inductive reachable (s0 : lookstate) : trace -> lookstate -> Prop :=
| reachable_start : reachable s0 [] s0
| reachable_run tr s o error s' :
    reachable s0 tr s -> (forall m, serves m s -> admissible m o s) -> run fs filetype vget o s = Ret error s' ->
    (fs_blocksize fs | dp_size (dp (ls_dir s'))) -> reachable s0 (tr ++ [(dp (ls_dir s), o, error)]) s'.

Inductive spec_trace (m0 : dirmap) : trace -> dirmap -> Prop :=
| spec_start : spec_trace m0 [] m0
| spec_run tr m i o error m' :
    spec_trace m0 tr m -> spec_step (look_of i) filetype m o error m' -> spec_trace m0 (tr ++ [(i, o, error)]) m'.

Lemma half_created_rounded m o error s' i :
  half_created m o error s' -> (fs_blocksize fs | dp_size (dp (ls_dir s'))) -> exists m', spec_step (look_of i) filetype m o error m' /\ serves m' s'.
Proof using Type.
  intros Hh Hdiv. assert (forall m, represents fs m (rounded fs (ls_dir s')) -> represents fs m (ls_dir s')) as Hr.
  { intros m1 R. apply (represents_ext fs m1 _ _ R); cbn; [done| |done|].
    - rewrite roundup_mult; [done|by destruct R as (l & [Hfs _ _ _] & _)|done].
    - by destruct R as (l & _ & _ & _ & _ & Hd). }
  destruct o as [| a h pad bw n md | | a h pad bw n md |]; try done; destruct Hh as (E & _ & R & Tb);
    (eexists; split; [by apply spec_created || by apply spec_entered|]); (split; [by apply Hr|done]).
Qed.

(** C8: Sequences of requests: the states that a directory goes through represent maps (its
    blocks are filled with well-formed entries, and the names are distinct), and the map is
    what the specification makes of the first one by the same requests with the same
    results, in the same order; this holds as long as no creation fails in the update of
    the directory's inode. *)
Theorem reachable_represents m0 s0 tr s :
  serves m0 s0 -> reachable s0 tr s -> exists m, serves m s /\ spec_trace m0 tr m.
Proof using Hvget H0.
  intros R0. induction 1 as [|tr s o error s' _ (m & R & Hm) A E Hdiv]; [exists m0; split; [done|constructor]|].
  enough (exists m', spec_step (look_of (dp (ls_dir s))) filetype m o error m' /\ serves m' s') as (m' & St & R').
  { exists m'. split; [done|]. by apply (spec_run _ _ m). }
  assert (wp (run fs filetype vget o) (fun e s' =>
    (exists m', spec_step (look_of (dp (ls_dir s))) filetype m o e m' /\ serves m' s') \/ half_created m o e s') s) as W.
  { apply (wp_run_map _ m s o R (A m R)); [|by right]. intros e s'' m' S R'. left. by exists m'. }
  unfold wp in W. rewrite E in W. destruct W as [W|W]; [done|]. by apply (half_created_rounded m o error s').
Qed.
End refinement.

(** ** Samples *)

Lemma sample_serves : serves sample_fs (contents sample_files) sample_look.
Proof. split; [exact sample_files_represents|done]. Qed.

(** "a" is renamed to "b". *)
Definition sample_move : op := Move (sample_args DELETE [97] true) 97 (sample_args RENAME [98] true) 98 12 33188 0 0.

Lemma sample_admissible : admissible sample_fs (contents sample_files) sample_move sample_look.
Proof.
  split; [cbn; lia|]. split; [split; [done|split; [done|cbn; lia]]|]. split; [done|]. split; [cbn; lia|]. split; [done|].
  split; [exists (13, 1); by vm_compute|]. split; [cbn; lia|]. split; [cbn; lia|]. split; [lia|by vm_compute].
Qed.

Lemma run_refines_witness :
  exists error s', run sample_fs true sample_vget sample_move sample_look = Ret error s' /\
    ((exists m', spec_step (look_of sample_vget (dp (ls_dir sample_look))) true (contents sample_files) sample_move error m' /\
        serves sample_fs m' s') \/ half_created sample_fs true (contents sample_files) sample_move error s').
Proof.
  apply (@run_refines sample_fs mem_io (mem_io_laws 0) true sample_vget);
    [intros ino; by vm_compute|exact sample_serves|exact sample_admissible].
Defined.

(** "c" is created. *)
Definition sample_create (name : list Z) : op := Create (sample_args CREATE name true) 99 [0; 0; 0] 0 14 33188.
Definition sample_created : lookstate :=
  match run sample_fs true sample_vget (sample_create [99]) sample_look with Ret _ s => s | _ => sample_look end.

Lemma reachable_represents_witness :
  exists m, serves sample_fs m sample_created /\
    spec_trace true sample_vget (contents sample_files) [(dp (ls_dir sample_look), sample_create [99], 0)] m.
Proof.
  apply (@reachable_represents sample_fs mem_io (mem_io_laws 0) true sample_vget ltac:(intros ino; by vm_compute) _ sample_look);
    [exact sample_serves|].
  apply (reachable_run _ _ _ _ [] sample_look (sample_create [99]) 0); [constructor| |by vm_compute|by exists 1].
  intros m _. split; [cbn; lia|]. split; [done|]. split; [split; [done|cbn; lia]|by vm_compute|cbn; lia|cbn; lia|split; [lia|by vm_compute]].
Defined.

(** A name that needs a new block, when the inode of the directory cannot be updated: the
    creation reports the error, so that the caller gives the new inode back, but the name
    is in the directory and leads to it; the size is no multiple of the block size. *)
Theorem create_half_done :
  let name := replicate 9 99 in
  exists s, @run (mem_io_with EIO) sample_fs true sample_vget (sample_create name) sample_look = Ret EIO s /\
    dp_size (dp (ls_dir s)) = 84 /\
    exists s', on_dir (ext2_lookupi sample_fs 0 sample_vget (sample_args LOOKUP name true)) s = Ret (0, Some (VInode 14)) s'.
Proof. eexists. split; [by vm_compute|]. split; [by vm_compute|]. eexists. by vm_compute. Qed.
