(* ===== verification/Nametree.v ===== *)
(** * The tree of names

    What the directories of a file system say together, and what the link counts of the
    inodes must be.  A directory is a map from names to inodes (as in [Dirspec]); [refs]
    counts the entries that refer to an inode; [ns_ok] says that the counts are right,
    that the directories form a tree below the root, and that "." and ".." are where they
    should be.  The last part shows what the changes that the vnode operations make do to
    this invariant. *)

From S2P Require Import Prelude.

Abbreviation dirmap := (gmap (list Z) (Z * Z)).

Definition ROOTINO : Z := 2.
Definition dot : list Z := [46].
Definition dotdot : list Z := [46; 46].
Definition dots (n : list Z) : Prop := n = dot \/ n = dotdot.

#[export] Instance dots_dec n : Decision (dots n).
Proof. unfold dots. apply _. Defined.

(** What the operations on names need to know of an inode. *)
Record attr := mkAttr {
  a_number : Z;
  a_dir : bool;
  a_nlink : Z;
  a_flags : Z;
  a_rename : bool;
  a_look : bool;
}.

Definition set_nl (k : Z) (a : attr) : attr := mkAttr (a_number a) (a_dir a) k (a_flags a) (a_rename a) (a_look a).
Definition set_rn (b : bool) (a : attr) : attr := mkAttr (a_number a) (a_dir a) (a_nlink a) (a_flags a) b (a_look a).
Definition set_lk (b : bool) (a : attr) : attr := mkAttr (a_number a) (a_dir a) (a_nlink a) (a_flags a) (a_rename a) b.

(** ** Counting references *)

Definition one (ino x : Z) : Z := if decide (x = ino) then 1 else 0.
Definition count (ino : Z) (m : dirmap) : Z := Z.of_nat (size (filter (fun kv : list Z * (Z * Z) => kv.2.1 = ino) m)).
Definition refs (T : gmap Z dirmap) (ino : Z) : Z := map_fold (fun _ m acc => count ino m + acc) 0 T.

(** The entry [n] of directory [d] refers to [x]. *)
Definition entry (T : gmap Z dirmap) (d : Z) (n : list Z) (x : Z) : Prop := exists m t, T !! d = Some m /\ m !! n = Some (x, t).

Section counting.
Implicit Types (m : dirmap) (T : gmap Z dirmap) (n : list Z).

Lemma count_empty ino : count ino ∅ = 0.
Proof. unfold count. by rewrite map_filter_empty, map_size_empty. Qed.

Lemma count_nonneg ino m : 0 <= count ino m.
Proof. unfold count. lia. Qed.

Lemma count_insert ino m n x : m !! n = None -> count ino (<[n := x]> m) = count ino m + one ino x.1.
Proof.
  intros Hn. unfold count, one. destruct (decide (x.1 = ino)) as [E|E].
  - rewrite map_filter_insert_True by done. rewrite map_size_insert_None by (apply map_lookup_filter_None; by left). lia.
  - rewrite map_filter_insert_False by done. rewrite delete_id by done. lia.
Qed.

Lemma count_delete ino m n x : m !! n = Some x -> count ino (delete n m) = count ino m - one ino x.1.
Proof.
  intros Hn. pose proof (count_insert ino (delete n m) n x (lookup_delete_eq m n)) as E.
  rewrite insert_delete_eq, insert_id in E by done. lia.
Qed.

Lemma count_replace ino m n x y : m !! n = Some x -> count ino (<[n := y]> m) = count ino m - one ino x.1 + one ino y.1.
Proof.
  intros Hn. rewrite <- insert_delete_eq, count_insert by apply lookup_delete_eq. by rewrite (count_delete _ _ _ x).
Qed.

Lemma refs_new T d m ino : T !! d = None -> refs (<[d := m]> T) ino = refs T ino + count ino m.
Proof. intros Hd. unfold refs. rewrite map_fold_insert_L; [lia|intros; lia|done]. Qed.

Lemma refs_change T d m m' ino : T !! d = Some m -> refs (<[d := m']> T) ino = refs T ino - count ino m + count ino m'.
Proof.
  intros Hd. rewrite <- insert_delete_eq, refs_new by apply lookup_delete_eq.
  pose proof (refs_new (delete d T) d m ino (lookup_delete_eq T d)) as E. rewrite insert_delete_eq, insert_id in E by done. lia.
Qed.

Lemma refs_nonneg T ino : 0 <= refs T ino.
Proof.
  unfold refs. apply (map_fold_weak_ind (fun r _ => 0 <= r)); [lia|]. intros d m T' r _ Hr. pose proof (count_nonneg ino m). lia.
Qed.

Lemma count_pos ino m n x : m !! n = Some x -> x.1 = ino -> 1 <= count ino m.
Proof.
  intros Hn Hx. pose proof (count_delete ino m n x Hn) as E. pose proof (count_nonneg ino (delete n m)).
  unfold one in E. rewrite decide_True in E by done. lia.
Qed.

Lemma count_zero ino m : (forall n x, m !! n = Some x -> x.1 <> ino) -> count ino m = 0.
Proof.
  intros H. unfold count. replace (filter _ m) with (∅ : dirmap); [by rewrite map_size_empty|].
  symmetry. apply map_empty. intros n. apply map_lookup_filter_None. right. intros x Hn. by apply (H n).
Qed.

Lemma refs_pos T d n x : entry T d n x -> 1 <= refs T x.
Proof.
  intros (m & t & Hd & Hn). pose proof (refs_change T d m ∅ x Hd) as E. rewrite count_empty in E.
  pose proof (refs_nonneg (<[d := ∅]> T) x). pose proof (count_pos x m n _ Hn eq_refl). lia.
Qed.

(** Two entries are two references. *)
Lemma refs_two T d n d' n' x : entry T d n x -> entry T d' n' x -> (d, n) <> (d', n') -> 2 <= refs T x.
Proof.
  intros (m & t & Hd & Hn) (m' & t' & Hd' & Hn') Hne.
  pose proof (refs_change T d m (delete n m) x Hd) as E. rewrite (count_delete _ _ _ _ Hn) in E. cbn in E.
  unfold one in E. rewrite decide_True in E by done.
  enough (1 <= refs (<[d := delete n m]> T) x) by lia. apply (refs_pos _ d' n').
  destruct (decide (d = d')) as [<-|Hdd].
  - exists (delete n m), t'. rewrite lookup_insert_eq. split; [done|]. rewrite Hd in Hd'. injection Hd' as <-.
    rewrite lookup_delete_ne by congruence. done.
  - exists m', t'. by rewrite lookup_insert_ne.
Qed.

Lemma refs_zero T x : (forall d n, ~ entry T d n x) -> refs T x = 0.
Proof.
  induction T as [|d m T Hd IH] using map_ind; [done|]. intros H. rewrite refs_new by done. rewrite IH, count_zero; [done| |].
  - intros n [y t] Hn E. cbn in E. subst y. apply (H d n). exists m, t. by rewrite lookup_insert_eq.
  - intros d' n (m' & t & Hd' & Hn). apply (H d' n). exists m', t. rewrite lookup_insert_ne; [done|]. congruence.
Qed.
End counting.

(** ** Changing one entry *)

Definition put (T : gmap Z dirmap) (d : Z) (n : list Z) (x : Z * Z) : gmap Z dirmap :=
  match T !! d with Some m => <[d := <[n := x]> m]> T | None => T end.
Definition drop_entry (T : gmap Z dirmap) (d : Z) (n : list Z) : gmap Z dirmap :=
  match T !! d with Some m => <[d := delete n m]> T | None => T end.

Section entries.
Implicit Types (m : dirmap) (T : gmap Z dirmap) (n : list Z).

Lemma entry_det T d n x y : entry T d n x -> entry T d n y -> x = y.
Proof. intros (m & t & Hd & Hn) (m' & t' & Hd' & Hn'). congruence. Qed.

Lemma entry_dir T d n x : entry T d n x -> is_Some (T !! d).
Proof. intros (m & t & Hd & _). by exists m. Qed.

Lemma entry_none T d n m x : T !! d = Some m -> m !! n = None -> ~ entry T d n x.
Proof. intros Hd Hn (m' & t & Hd' & Hn'). congruence. Qed.

Lemma entry_put T d n x t d' n' y :
  is_Some (T !! d) -> entry (put T d n (x, t)) d' n' y <-> (d' = d /\ n' = n /\ y = x) \/ ((d', n') <> (d, n) /\ entry T d' n' y).
Proof.
  intros [m Hd]. unfold put, entry. rewrite Hd. destruct (decide (d' = d)) as [->|Hdd].
  - rewrite lookup_insert_eq. split.
    + intros (m' & t' & [= <-] & Hn). destruct (decide (n' = n)) as [->|Hnn].
      * rewrite lookup_insert_eq in Hn. injection Hn as -> ->. by left.
      * rewrite lookup_insert_ne in Hn by done. right. split; [congruence|]. by exists m, t'.
    + intros [(_ & -> & ->)|(Hne & m' & t' & Hd' & Hn)].
      * eexists _, t. by rewrite lookup_insert_eq.
      * rewrite Hd in Hd'. injection Hd' as <-. eexists _, t'. split; [done|]. rewrite lookup_insert_ne by congruence. done.
  - rewrite lookup_insert_ne by done. split.
    + intros (m' & t' & Hd' & Hn). right. split; [congruence|]. by exists m', t'.
    + intros [(-> & _)|(_ & H)]; done.
Qed.

Lemma entry_drop T d n d' n' y : entry (drop_entry T d n) d' n' y <-> (d', n') <> (d, n) /\ entry T d' n' y.
Proof.
  unfold drop_entry, entry. destruct (T !! d) as [m|] eqn:Hd.
  - destruct (decide (d' = d)) as [->|Hdd].
    + rewrite lookup_insert_eq. split.
      * intros (m' & t' & [= <-] & Hn). apply lookup_delete_Some in Hn as [Hnn Hn]. split; [congruence|]. by exists m, t'.
      * intros (Hne & m' & t' & Hd' & Hn). rewrite Hd in Hd'. injection Hd' as <-. eexists _, t'. split; [done|].
        rewrite lookup_delete_ne by congruence. done.
    + rewrite lookup_insert_ne by done. split; [|naive_solver]. intros H. split; [congruence|done].
  - split; [|naive_solver]. intros (m' & t' & Hd' & Hn). split; [congruence|]. by exists m', t'.
Qed.

Lemma refs_put T d n x m i :
  T !! d = Some m -> refs (put T d n x) i = refs T i + one i x.1 - match m !! n with Some y => one i y.1 | None => 0 end.
Proof.
  intros Hd. unfold put. rewrite Hd, (refs_change _ _ m) by done. destruct (m !! n) as [y|] eqn:Hn.
  - rewrite (count_replace _ _ _ y) by done. lia.
  - rewrite count_insert by done. lia.
Qed.

Lemma refs_drop T d n x i : entry T d n x -> refs (drop_entry T d n) i = refs T i - one i x.
Proof.
  intros (m & t & Hd & Hn). unfold drop_entry. rewrite Hd, (refs_change _ _ m), (count_delete _ _ _ _ Hn) by done. cbn. lia.
Qed.

Lemma is_Some_put T d n x d' : is_Some (put T d n x !! d') <-> is_Some (T !! d').
Proof.
  unfold put. destruct (T !! d) as [m|] eqn:E; [|done]. destruct (decide (d = d')) as [<-|]; [|by rewrite lookup_insert_ne].
  rewrite lookup_insert_eq, E. split; by eexists.
Qed.

Lemma is_Some_drop T d n d' : is_Some (drop_entry T d n !! d') <-> is_Some (T !! d').
Proof.
  unfold drop_entry. destruct (T !! d) as [m|] eqn:E; [|done]. destruct (decide (d = d')) as [<-|]; [|by rewrite lookup_insert_ne].
  rewrite lookup_insert_eq, E. split; by eexists.
Qed.

Lemma put_lookup T d n x m d' : T !! d = Some m -> put T d n x !! d' = if decide (d = d') then Some (<[n := x]> m) else T !! d'.
Proof.
  intros Hd. unfold put. rewrite Hd. destruct (decide (d = d')) as [<-|]; [by rewrite lookup_insert_eq|by rewrite lookup_insert_ne].
Qed.

Lemma drop_lookup T d n m d' : T !! d = Some m -> drop_entry T d n !! d' = if decide (d = d') then Some (delete n m) else T !! d'.
Proof.
  intros Hd. unfold drop_entry. rewrite Hd. destruct (decide (d = d')) as [<-|]; [by rewrite lookup_insert_eq|by rewrite lookup_insert_ne].
Qed.

(** The changes act on one directory. *)
Lemma put_at T d n x e : put T d n x !! e = if decide (d = e) then (fun m : dirmap => <[n := x]> m) <$> T !! e else T !! e.
Proof.
  unfold put. destruct (T !! d) as [m|] eqn:E; destruct (decide (d = e)) as [<-|]; [|by rewrite lookup_insert_ne| |done].
  - by rewrite lookup_insert_eq, E.
  - by rewrite E.
Qed.

Lemma drop_at T d n e : drop_entry T d n !! e = if decide (d = e) then (fun m : dirmap => delete n m) <$> T !! e else T !! e.
Proof.
  unfold drop_entry. destruct (T !! d) as [m|] eqn:E; destruct (decide (d = e)) as [<-|]; [|by rewrite lookup_insert_ne| |done].
  - by rewrite lookup_insert_eq, E.
  - by rewrite E.
Qed.

(** Removing and entering again. *)
Lemma put_drop T d n x : put (drop_entry T d n) d n x = put T d n x.
Proof.
  unfold put, drop_entry. destruct (T !! d) as [m|] eqn:E; [|by rewrite E].
  rewrite lookup_insert_eq, insert_insert_eq. by rewrite insert_delete_eq.
Qed.
End entries.

(** ** The way up *)

(** From [d] to the root: the directories before the root. *)
Inductive up_path (T : gmap Z dirmap) : Z -> list Z -> Prop :=
| up_root : up_path T ROOTINO []
| up_step d p l : d <> ROOTINO -> entry T d dotdot p -> up_path T p l -> up_path T d (d :: l).

Section up.
Implicit Types (T : gmap Z dirmap).

Lemma up_path_det T d l l' : up_path T d l -> up_path T d l' -> l = l'.
Proof.
  intros U. revert l'. induction U as [|d p l Hd E U IH]; intros l' U'; inversion U' as [|? p' l'' Hd' E' U'']; subst; [done..|].
  f_equal. apply IH. by rewrite (entry_det _ _ _ _ _ E E').
Qed.

Lemma up_path_in T d l x : up_path T d l -> x ∈ l -> exists l', up_path T x (x :: l') /\ (length (x :: l') <= length l)%nat.
Proof.
  intros U. revert x. induction U as [|d p l Hd E U IH]; intros x Hx; [by apply not_elem_of_nil in Hx|].
  apply elem_of_cons in Hx as [->|Hx].
  - exists l. split; [by apply (up_step _ _ p)|done].
  - destruct (IH x Hx) as (l' & U' & Hl). exists l'. split; [done|]. cbn in *. lia.
Qed.

Lemma up_path_NoDup T d l : up_path T d l -> NoDup l.
Proof.
  induction 1 as [|d p l Hd E U IH]; [constructor|]. constructor; [|done]. intros Hin.
  destruct (up_path_in _ _ _ _ U Hin) as (l' & U' & Hl). assert (l' = l) as ->; [|cbn in Hl; lia].
  enough (d :: l' = d :: l) as [= ->] by done. by apply (up_path_det T d); [|apply (up_step _ _ p)].
Qed.

Lemma up_path_not_root T d l : up_path T d l -> ROOTINO ∉ l.
Proof. induction 1 as [|d p l Hd E U IH]; [apply not_elem_of_nil|]. rewrite not_elem_of_cons. split; [congruence|done]. Qed.

Lemma up_path_dom T d l : up_path T d l -> list_to_set l ⊆ dom T.
Proof.
  induction 1 as [|d p l Hd E U IH]; [done|]. apply union_subseteq. split; [|done].
  apply singleton_subseteq_l, elem_of_dom. by eapply entry_dir.
Qed.

(** The way up is not longer than there are directories. *)
Lemma up_path_length T d l : up_path T d l -> (length l <= size T)%nat.
Proof.
  intros U. rewrite <- size_dom. rewrite <- (size_list_to_set (C := gset Z) l) by (by eapply up_path_NoDup).
  apply subseteq_size. by eapply up_path_dom.
Qed.

(** The way stays when ".." stays in the directories on it. *)
Lemma up_path_keep T T' d l :
  up_path T d l -> (forall x p, x ∈ l -> entry T x dotdot p -> entry T' x dotdot p) -> up_path T' d l.
Proof.
  induction 1 as [|d p l Hd E U IH]; intros H; [constructor|]. apply (up_step _ _ p); [done|by apply H; [left|]|].
  apply IH. intros x q Hx. apply H. by right.
Qed.
End up.

(** ** The invariant *)

Definition isdir (A : gmap Z attr) (d : Z) : Prop := exists a, A !! d = Some a /\ a_dir a = true.

(** Of [T], only the directories that are not removed. *)
Record ns_ok (LINK_MAX : Z) (A : gmap Z attr) (T : gmap Z dirmap) : Prop := {
  ns_attr i a : A !! i = Some a -> a_number a = i /\ 0 < i /\ a_rename a = false /\ a_look a = false;
  ns_links i a : A !! i = Some a -> a_nlink a = refs T i /\ a_nlink a <= LINK_MAX;
  ns_dom d : is_Some (T !! d) <-> exists a, A !! d = Some a /\ a_dir a = true /\ a_nlink a <> 0;
  ns_entry d n x : entry T d n x -> is_Some (A !! x);
  ns_dot d : is_Some (T !! d) -> entry T d dot d;
  ns_dotdot d : is_Some (T !! d) -> exists p, entry T d dotdot p;
  ns_root : entry T ROOTINO dotdot ROOTINO;
  ns_up d p : entry T d dotdot p -> d <> ROOTINO -> exists n, ~ dots n /\ entry T p n d;
  ns_down d n x : entry T d n x -> ~ dots n -> isdir A x -> entry T x dotdot d /\ x <> ROOTINO;
  ns_once d n n' x : entry T d n x -> entry T d n' x -> ~ dots n -> ~ dots n' -> isdir A x -> n = n';
  ns_rooted d : is_Some (T !! d) -> exists l, up_path T d l;
}.

Section invariant.
Context (LINK_MAX : Z) (A : gmap Z attr) (T : gmap Z dirmap) (W : ns_ok LINK_MAX A T).
Implicit Types (m : dirmap) (n : list Z).

Lemma ns_isdir d : is_Some (T !! d) -> isdir A d.
Proof. intros Hd. apply (ns_dom _ _ _ W) in Hd as (a & H1 & H2 & _). by exists a. Qed.

Lemma ns_nlink_nonneg i a : A !! i = Some a -> 0 <= a_nlink a.
Proof. intros Ha. apply (ns_links _ _ _ W) in Ha as [-> _]. apply refs_nonneg. Qed.

(** A directory that an entry refers to is not a removed one. *)
Lemma ns_live d n x : entry T d n x -> isdir A x -> is_Some (T !! x).
Proof.
  intros E (a & Ha & Hd). apply (ns_dom _ _ _ W). exists a. split; [done|]. split; [done|].
  apply (ns_links _ _ _ W) in Ha as [-> _]. pose proof (refs_pos _ _ _ _ E). lia.
Qed.

(** What "." and ".." refer to are directories. *)
Lemma ns_dots_dir d n x : entry T d n x -> dots n -> is_Some (T !! x).
Proof.
  intros E [->| ->]; pose proof (entry_dir _ _ _ _ E) as Hd.
  - by rewrite <- (entry_det _ _ _ _ _ (ns_dot _ _ _ W d Hd) E).
  - destruct (ns_rooted _ _ _ W d Hd) as [l U]. inversion U as [|? p l' Hr E' U']; subst.
    + by rewrite <- (entry_det _ _ _ _ _ (ns_root _ _ _ W) E).
    + rewrite (entry_det _ _ _ _ _ E E'). inversion U' as [|? q ? ? E2 U2]; subst; [|by eapply entry_dir].
      apply (entry_dir T ROOTINO dotdot ROOTINO), (ns_root _ _ _ W).
Qed.

Lemma ns_free_name d m n : T !! d = Some m -> m !! n = None -> ~ dots n.
Proof.
  intros Hd Hn [->| ->].
  - apply (entry_none T d dot m d Hd Hn), (ns_dot _ _ _ W). by exists m.
  - destruct (ns_dotdot _ _ _ W d) as [p E]; [by exists m|]. by apply (entry_none T d dotdot m p Hd Hn).
Qed.

Lemma ns_file_name d n x : entry T d n x -> ~ isdir A x -> ~ dots n.
Proof. intros E Hx Hn. apply Hx, ns_isdir. by apply (ns_dots_dir d n). Qed.

Lemma ns_dir_nlink d a : A !! d = Some a -> is_Some (T !! d) -> 1 <= a_nlink a.
Proof.
  intros Ha Hd. pose proof (refs_pos _ _ _ _ (ns_dot _ _ _ W d Hd)). pose proof (ns_links _ _ _ W _ _ Ha). lia.
Qed.

(** A directory with a name has two links at least. *)
Lemma ns_two_links d n x a : entry T d n x -> ~ dots n -> A !! x = Some a -> a_dir a = true -> 2 <= a_nlink a.
Proof.
  intros E Hn Ha Hd. assert (isdir A x) as Hx by by exists a. pose proof (ns_dot _ _ _ W x (ns_live _ _ _ E Hx)) as E'.
  destruct (ns_links _ _ _ W _ _ Ha) as [-> _]. apply (refs_two T d n x dot); [done..|]. intros [= -> ->]. apply Hn. by left.
Qed.
End invariant.

(** What the operations may assume of an attribute that is changed: only the counts. *)
Lemma isdir_insert A i a a' x : A !! i = Some a -> a_dir a' = a_dir a -> isdir (<[i := a']> A) x <-> isdir A x.
Proof.
  intros Ha E. unfold isdir. destruct (decide (i = x)) as [<-|]; [|by rewrite lookup_insert_ne].
  rewrite lookup_insert_eq. split; intros (b & Hb & Hd).
  - injection Hb as <-. exists a. by rewrite <- E.
  - exists a'. rewrite Ha in Hb. injection Hb as <-. by rewrite E.
Qed.

(** ** Files: links, removals, creations *)

Section files.
Context (LINK_MAX : Z) (A : gmap Z attr) (T : gmap Z dirmap) (W : ns_ok LINK_MAX A T).
Implicit Types (m : dirmap) (n : list Z).

(** The names of directories stay when other names change. *)
Lemma ns_ok_files A' T' :
  (forall i a', A' !! i = Some a' ->
     a_number a' = i /\ 0 < i /\ a_rename a' = false /\ a_look a' = false /\ a_nlink a' = refs T' i /\ a_nlink a' <= LINK_MAX) ->
  (forall i, isdir A' i <-> isdir A i) ->
  (forall i a', A' !! i = Some a' -> a_dir a' = true -> exists a, A !! i = Some a /\ a_nlink a = a_nlink a') ->
  (forall i, is_Some (A !! i) -> is_Some (A' !! i)) ->
  (forall d, is_Some (T' !! d) <-> is_Some (T !! d)) ->
  (forall d n x, dots n \/ isdir A x -> entry T' d n x <-> entry T d n x) ->
  (forall d n x, entry T' d n x -> is_Some (A' !! x)) ->
  ns_ok LINK_MAX A' T'.
Proof using W.
  intros HA Hdir Hnl Hdom HT He Hent. split.
  - intros i a' Ha. destruct (HA i a' Ha) as (H1 & H2 & H3 & H4 & _). done.
  - intros i a' Ha. by destruct (HA i a' Ha) as (_ & _ & _ & _ & H).
  - intros d. rewrite HT, (ns_dom _ _ _ W). split.
    + intros (a & Ha & Hd & Hn). assert (isdir A' d) as (a' & Ha' & Hd') by (apply Hdir; by exists a).
      exists a'. split; [done|]. split; [done|]. destruct (Hnl d a' Ha' Hd') as (b & Hb & <-). congruence.
    + intros (a' & Ha' & Hd' & Hn). assert (isdir A d) as (a & Ha & Hd) by (apply Hdir; by exists a').
      exists a. split; [done|]. split; [done|]. destruct (Hnl d a' Ha' Hd') as (b & Hb & E). congruence.
  - done.
  - intros d Hd. apply He; [left; by left|]. by apply (ns_dot _ _ _ W), HT.
  - intros d Hd. apply HT, (ns_dotdot _ _ _ W) in Hd as [p E]. exists p. apply He; [left; by right|done].
  - apply He; [left; by right|]. apply (ns_root _ _ _ W).
  - intros d p E Hd. apply He in E; [|left; by right]. destruct (ns_up _ _ _ W d p E Hd) as (n & Hn & E2). exists n. split; [done|].
    apply He; [|done]. right. apply (ns_isdir _ _ _ W). by eapply entry_dir.
  - intros d n x E Hn Hx. apply Hdir in Hx. apply He in E; [|by right]. destruct (ns_down _ _ _ W d n x E Hn Hx) as [E2 Hr].
    split; [|done]. apply He; [left; by right|done].
  - intros d n n' x E E' Hn Hn' Hx. apply Hdir in Hx. apply He in E, E'; [|by right..]. by apply (ns_once _ _ _ W d n n' x).
  - intros d Hd. apply HT, (ns_rooted _ _ _ W) in Hd as [l U]. exists l. apply (up_path_keep T); [done|]. intros x p _ E.
    apply He; [left; by right|done].
Qed.

(** A new name for a file. *)
Lemma ns_link x a d m n t :
  A !! x = Some a -> a_dir a = false -> a_nlink a < LINK_MAX -> T !! d = Some m -> m !! n = None ->
  ns_ok LINK_MAX (<[x := set_nl (a_nlink a + 1) a]> A) (put T d n (x, t)).
Proof using W.
  intros Ha Hx Hmax Hd Hn. pose proof (ns_free_name _ _ _ W _ _ _ Hd Hn) as Hdots.
  assert (is_Some (T !! d)) as Hsd by by exists m.
  assert (~ isdir A x) as Hnd by (intros (b & Hb & Hbd); congruence).
  assert (forall i, isdir (<[x := set_nl (a_nlink a + 1) a]> A) i <-> isdir A i) as Hdir by (intros i; by apply (isdir_insert _ _ a)).
  apply ns_ok_files; [|done| | |by intros; apply is_Some_put| |].
  - intros i a' Hi. rewrite (refs_put _ _ _ _ m) by done. rewrite Hn. unfold one. cbn [fst].
    destruct (decide (x = i)) as [<-|Hxi].
    + rewrite lookup_insert_eq in Hi. injection Hi as <-. cbn. destruct (ns_attr _ _ _ W _ _ Ha) as (H1 & H2 & H3 & H4).
      pose proof (ns_links _ _ _ W _ _ Ha). split_and!; done || lia.
    + rewrite lookup_insert_ne in Hi by done. destruct (ns_attr _ _ _ W _ _ Hi) as (H1 & H2 & H3 & H4).
      pose proof (ns_links _ _ _ W _ _ Hi). split_and!; done || lia.
  - intros i a' Hi Hd'. destruct (decide (x = i)) as [<-|Hxi].
    + rewrite lookup_insert_eq in Hi. injection Hi as <-. cbn in Hd'. congruence.
    + rewrite lookup_insert_ne in Hi by done. by exists a'.
  - intros i Hi. destruct (decide (x = i)) as [<-|Hxi]; [by rewrite lookup_insert_eq|by rewrite lookup_insert_ne].
  - intros d' n' y Hy. rewrite entry_put by done. split; [|intros E].
    + intros [(-> & -> & ->)|[_ E]]; [|done]. by destruct Hy.
    + destruct (decide ((d', n') = (d, n))) as [[= -> ->]|]; [|by right]. by destruct (entry_none _ _ _ _ _ Hd Hn E).
  - intros d' n' y E. apply entry_put in E as [(-> & -> & ->)|[_ E]]; [by rewrite lookup_insert_eq| |done].
    apply (ns_entry _ _ _ W) in E. destruct (decide (x = y)) as [<-|Hxi]; [by rewrite lookup_insert_eq|by rewrite lookup_insert_ne].
Qed.

(** A file loses a name. *)
Lemma ns_unlink x a d n :
  A !! x = Some a -> a_dir a = false -> entry T d n x ->
  ns_ok LINK_MAX (<[x := set_nl (a_nlink a - 1) a]> A) (drop_entry T d n).
Proof using W.
  intros Ha Hx E0. assert (~ isdir A x) as Hnd by (intros (b & Hb & Hbd); congruence).
  pose proof (ns_file_name _ _ _ W _ _ _ E0 Hnd) as Hdots.
  assert (forall i, isdir (<[x := set_nl (a_nlink a - 1) a]> A) i <-> isdir A i) as Hdir by (intros i; by apply (isdir_insert _ _ a)).
  apply ns_ok_files; [|done| | |by intros; apply is_Some_drop| |].
  - intros i a' Hi. rewrite (refs_drop _ _ _ x) by done. unfold one.
    destruct (decide (x = i)) as [<-|Hxi].
    + rewrite lookup_insert_eq in Hi. injection Hi as <-. cbn. destruct (ns_attr _ _ _ W _ _ Ha) as (H1 & H2 & H3 & H4).
      pose proof (ns_links _ _ _ W _ _ Ha). split_and!; done || lia.
    + rewrite lookup_insert_ne in Hi by done. destruct (ns_attr _ _ _ W _ _ Hi) as (H1 & H2 & H3 & H4).
      pose proof (ns_links _ _ _ W _ _ Hi). split_and!; done || lia.
  - intros i a' Hi Hd'. destruct (decide (x = i)) as [<-|Hxi].
    + rewrite lookup_insert_eq in Hi. injection Hi as <-. cbn in Hd'. congruence.
    + rewrite lookup_insert_ne in Hi by done. by exists a'.
  - intros i Hi. destruct (decide (x = i)) as [<-|Hxi]; [by rewrite lookup_insert_eq|by rewrite lookup_insert_ne].
  - intros d' n' y Hy. rewrite entry_drop. split; [by intros [_ E]|]. intros E. split; [|done]. intros [= -> ->].
    rewrite (entry_det _ _ _ _ _ E E0) in Hy. by destruct Hy.
  - intros d' n' y E. apply entry_drop in E as [_ E]. apply (ns_entry _ _ _ W) in E.
    destruct (decide (x = y)) as [<-|Hxi]; [by rewrite lookup_insert_eq|by rewrite lookup_insert_ne].
Qed.

(** A new inode without links, for what is made next. *)
Lemma refs_fresh x : A !! x = None -> refs T x = 0.
Proof using W. intros Hx. apply refs_zero. intros d n E. apply (ns_entry _ _ _ W) in E as [a Ha]. congruence. Qed.

Lemma ns_fresh x a :
  A !! x = None -> 0 < x -> a_number a = x -> a_nlink a = 0 -> a_rename a = false -> a_look a = false -> 0 <= LINK_MAX ->
  ns_ok LINK_MAX (<[x := a]> A) T.
Proof using W.
  intros Hx Hpos Hnum Hnl Hr Hl HM. pose proof (refs_fresh x Hx) as Hrefs.
  assert (forall d n y, entry T d n y -> y <> x) as Hne.
  { intros d n y E ->. apply (ns_entry _ _ _ W) in E as [b Hb]. congruence. }
  assert (forall y, y <> x -> isdir (<[x := a]> A) y -> isdir A y) as Hdir.
  { intros y Hy (b & Hb & Hd). rewrite lookup_insert_ne in Hb by done. by exists b. }
  destruct W as [W1 W2 W3 W4 W5 W6 W7 W8 W9 W10 W11]. split; try done.
  - intros i b Hb. destruct (decide (x = i)) as [<-|]; [|rewrite lookup_insert_ne in Hb by done; by apply W1].
    rewrite lookup_insert_eq in Hb. injection Hb as <-. done.
  - intros i b Hb. destruct (decide (x = i)) as [<-|]; [|rewrite lookup_insert_ne in Hb by done; by apply W2].
    rewrite lookup_insert_eq in Hb. injection Hb as <-. lia.
  - intros d. rewrite W3. destruct (decide (x = d)) as [<-|]; [|by rewrite lookup_insert_ne].
    rewrite lookup_insert_eq, Hx. naive_solver.
  - intros d n y E. rewrite lookup_insert_ne by (intros ->; by eapply Hne). by eapply W4.
  - intros d n y E Hn Hy. apply (W9 d n); [done..|]. apply Hdir; [|done]. by eapply Hne.
  - intros d n n' y E E' Hn Hn' Hy. apply (W10 d n n' y); [done..|]. apply Hdir; [|done]. by eapply Hne.
Qed.
End files.

(** ** Directories: creation and removal *)

Lemma refs_delete T d m i : T !! d = Some m -> refs (delete d T) i = refs T i - count i m.
Proof.
  intros Hd. pose proof (refs_new (delete d T) d m i (lookup_delete_eq T d)) as E. rewrite insert_delete_eq, insert_id in E by done. lia.
Qed.

Definition new_dir (x d tx td : Z) : dirmap := <[dotdot := (d, td)]> {[dot := (x, tx)]}.

Lemma new_dir_lookup x d tx td k y t :
  new_dir x d tx td !! k = Some (y, t) <-> (k = dot /\ y = x /\ t = tx) \/ (k = dotdot /\ y = d /\ t = td).
Proof.
  unfold new_dir. destruct (decide (k = dotdot)) as [->|H1].
  - rewrite lookup_insert_eq. split; [intros [= <- <-]; by right|]. intros [(E & _)|(_ & -> & ->)]; [by unfold dot in E|done].
  - rewrite lookup_insert_ne by done. destruct (decide (k = dot)) as [->|H2].
    + rewrite lookup_singleton_eq. split; [intros [= <- <-]; by left|]. intros [(_ & -> & ->)|(E & _)]; [done|by unfold dot in E].
    + rewrite lookup_singleton_ne by done. split; [done|]. intros [(-> & _)|(-> & _)]; done.
Qed.

Lemma count_new_dir i x d tx td : count i (new_dir x d tx td) = one i x + one i d.
Proof.
  unfold new_dir. rewrite count_insert by (by rewrite lookup_singleton_ne).
  change ({[dot := (x, tx)]} : dirmap) with (<[dot := (x, tx)]> ∅ : dirmap). rewrite count_insert, count_empty by done. cbn. lia.
Qed.

Section directories.
Context (LINK_MAX : Z) (A : gmap Z attr) (T : gmap Z dirmap) (W : ns_ok LINK_MAX A T).
Implicit Types (m : dirmap) (n : list Z).

(** Two inodes change. *)
Lemma lookup_two x d (ax ad : attr) i b :
  <[x := ax]> (<[d := ad]> A) !! i = Some b ->
  (i = x /\ b = ax) \/ (i <> x /\ i = d /\ b = ad) \/ (i <> x /\ i <> d /\ A !! i = Some b).
Proof using Type.
  destruct (decide (x = i)) as [<-|Hx]; [rewrite lookup_insert_eq; intros [= <-]; by left|]. rewrite lookup_insert_ne by done.
  destruct (decide (d = i)) as [<-|Hd]; [rewrite lookup_insert_eq; intros [= <-]; right; left; by split_and!|].
  rewrite lookup_insert_ne by done. right; right. by split_and!.
Qed.

Lemma ns_mkdir x a d ad m n t tx td :
  A !! x = None -> 0 < x -> A !! d = Some ad -> a_nlink ad < LINK_MAX -> T !! d = Some m -> m !! n = None -> 2 <= LINK_MAX ->
  a_number a = x -> a_dir a = true -> a_nlink a = 2 -> a_rename a = false -> a_look a = false ->
  ns_ok LINK_MAX (<[x := a]> (<[d := set_nl (a_nlink ad + 1) ad]> A)) (<[x := new_dir x d tx td]> (put T d n (x, t))).
Proof using W.
  intros Hx Hpos Had Hmax Hd Hn HM A1 A2 A3 A4 A5. pose proof (refs_fresh _ _ _ W x Hx) as Hrefs.
  pose proof (ns_free_name _ _ _ W _ _ _ Hd Hn) as Hdots. assert (is_Some (T !! d)) as Hsd by by exists m.
  assert (x <> d) as Hxd by congruence.
  assert (T !! x = None) as HTx.
  { apply eq_None_not_Some. intros H. apply (ns_dom _ _ _ W) in H as (b & Hb & _). congruence. }
  assert (put T d n (x, t) !! x = None) as HPx by (rewrite (put_lookup _ _ _ _ _ _ Hd), decide_False by done; done).
  assert (forall i, refs (<[x := new_dir x d tx td]> (put T d n (x, t))) i = refs T i + 2 * one i x + one i d) as HR.
  { intros i. rewrite refs_new, (refs_put _ _ _ _ m), Hn, count_new_dir by done. cbn. lia. }
  set (T' := <[x := _]> _) in *.
  assert (forall e k y, entry T' e k y <-> (e = x /\ (k = dot /\ y = x \/ k = dotdot /\ y = d)) \/ (e = d /\ k = n /\ y = x) \/ entry T e k y) as HE.
  { intros e k y. unfold T'. destruct (decide (e = x)) as [->|Hex].
    - unfold entry at 1. rewrite lookup_insert_eq. split.
      + intros (? & t' & [= <-] & Hk). apply new_dir_lookup in Hk. naive_solver.
      + intros [[_ [[-> ->]|[-> ->]]]|[(E & _)|E]].
        * eexists _, tx. split; [done|]. apply new_dir_lookup. by left.
        * eexists _, td. split; [done|]. apply new_dir_lookup. by right.
        * congruence.
        * apply entry_dir in E as [? E]. congruence.
    - unfold entry at 1. rewrite lookup_insert_ne by done. fold (entry (put T d n (x, t)) e k y). rewrite entry_put by done. split; [naive_solver|].
      intros [[? _]|[?|E]]; [done|by left|]. right. split; [|done]. intros [= -> ->]. by destruct (entry_none _ _ _ _ _ Hd Hn E). }
  set (A' := <[x := a]> _) in *.
  assert (forall y, isdir A' y <-> y = x \/ isdir A y) as HD.
  { intros y. unfold isdir at 1, A'. destruct (decide (x = y)) as [<-|Hxy].
    - rewrite lookup_insert_eq. split; [by left|]. intros _. by exists a.
    - rewrite lookup_insert_ne by done. fold (isdir (<[d := set_nl (a_nlink ad + 1) ad]> A) y). rewrite (isdir_insert _ _ ad) by done. naive_solver. }
  assert (forall y, is_Some (A !! y) -> is_Some (A' !! y)) as HS.
  { intros y Hy. unfold A'. destruct (decide (x = y)) as [<-|]; [by rewrite lookup_insert_eq|rewrite lookup_insert_ne by done].
    destruct (decide (d = y)) as [<-|]; [by rewrite lookup_insert_eq|by rewrite lookup_insert_ne]. }
  assert (forall e, is_Some (T' !! e) <-> e = x \/ is_Some (T !! e)) as HT.
  { intros e. unfold T'. destruct (decide (x = e)) as [<-|]; [rewrite lookup_insert_eq; split; [by left|by eexists]|].
    rewrite lookup_insert_ne, is_Some_put by done. naive_solver. }
  assert (~ entry T x dot x /\ forall e k, ~ entry T e k x) as [_ Hnx].
  { split; [intros [? E]; destruct E as (? & ? & _); congruence|]. intros e k E. apply (ns_entry _ _ _ W) in E as [? E]. congruence. }
  assert (forall k y, ~ entry T x k y) as Hnx' by (intros k y E; apply entry_dir in E as [? E]; congruence).
  assert (ROOTINO <> x) as Hroot by (intros <-; apply (Hnx ROOTINO dotdot), (ns_root _ _ _ W)).
  split.
  - intros i b Hb. apply lookup_two in Hb as [(-> & ->)|[(Hi & -> & ->)|(Hi & Hid & Hb)]]; [done|by apply (ns_attr _ _ _ W _ _ Had)|].
    by apply (ns_attr _ _ _ W).
  - intros i b Hb. rewrite HR. unfold one. apply lookup_two in Hb as [(-> & ->)|[(Hi & -> & ->)|(Hi & Hid & Hb)]].
    + rewrite decide_True, decide_False by done. lia.
    + rewrite decide_False, decide_True by done. pose proof (ns_links _ _ _ W _ _ Had). cbn. lia.
    + rewrite !decide_False by done. pose proof (ns_links _ _ _ W _ _ Hb). lia.
  - intros e. rewrite HT, (ns_dom _ _ _ W). unfold A'. destruct (decide (x = e)) as [<-|Hxe].
    + rewrite lookup_insert_eq. split; [|by left]. intros _. exists a. split; [done|]. split; [done|lia].
    + rewrite lookup_insert_ne by done. destruct (decide (d = e)) as [<-|Hde]; [|rewrite lookup_insert_ne by done; naive_solver].
      rewrite lookup_insert_eq. pose proof (ns_nlink_nonneg _ _ _ W _ _ Had) as Hnn. split.
      * intros [->|(b & Hb & H1 & H2)]; [done|]. rewrite Had in Hb. injection Hb as <-. eexists. split; [done|]. split; [done|]. cbn. lia.
      * intros _. right. by apply (ns_dom _ _ _ W).
  - intros e k y E. apply HE in E as [(-> & [(_ & ->)|(_ & ->)])|[(-> & -> & ->)|E]].
    + unfold A'. by rewrite lookup_insert_eq.
    + apply HS. by exists ad.
    + unfold A'. by rewrite lookup_insert_eq.
    + apply HS. by eapply (ns_entry _ _ _ W).
  - intros e He. apply HE. apply HT in He as [->|He]; [left; split; [done|by left]|]. right; right. by apply (ns_dot _ _ _ W).
  - intros e He. apply HT in He as [->|He]; [exists d; apply HE; left; split; [done|by right]|].
    apply (ns_dotdot _ _ _ W) in He as [p E]. exists p. apply HE. by right; right.
  - apply HE. right; right. apply (ns_root _ _ _ W).
  - intros e p E He. apply HE in E as [(-> & [(E & _)|(_ & ->)])|[(-> & <- & _)|E]].
    + by unfold dot, dotdot in E.
    + exists n. split; [done|]. apply HE. right; left. done.
    + destruct Hdots. by right.
    + destruct (ns_up _ _ _ W e p E He) as (k & Hk & E'). exists k. split; [done|]. apply HE. by right; right.
  - intros e k y E Hk Hy. apply HE in E as [(-> & [(-> & _)|(-> & _)])|[(-> & -> & ->)|E]].
    + destruct Hk. by left.
    + destruct Hk. by right.
    + split; [|congruence]. apply HE. left. split; [done|by right].
    + apply HD in Hy as [->|Hy]; [by destruct (Hnx e k)|]. destruct (ns_down _ _ _ W e k y E Hk Hy) as [E' Hr].
      split; [|done]. apply HE. by right; right.
  - intros e k k' y E E' Hk Hk' Hy.
    apply HE in E as [(-> & [(-> & _)|(-> & _)])|[(-> & -> & ->)|E]]; [destruct Hk; by left|destruct Hk; by right| |].
    + apply HE in E' as [(? & _)|[(_ & -> & _)|E']]; [done|done|by destruct (Hnx d k')].
    + apply HE in E' as [(-> & _)|[(-> & -> & ->)|E']]; [by destruct (Hnx' k y)|by destruct (Hnx d k)|].
      apply HD in Hy as [->|Hy]; [by destruct (Hnx e k)|]. by apply (ns_once _ _ _ W e k k' y).
  - assert (forall e l, up_path T e l -> up_path T' e l) as Hup.
    { intros e l U. apply (up_path_keep T); [done|]. intros y p _ E. apply HE. by right; right. }
    intros e He. apply HT in He as [->|He].
    + destruct (ns_rooted _ _ _ W d Hsd) as [l U]. exists (x :: l). apply (up_step _ _ d); [congruence| |by apply Hup].
      apply HE. left. split; [done|by right].
    + destruct (ns_rooted _ _ _ W e He) as [l U]. exists l. by apply Hup.
Qed.

(** An empty directory [x], the entry [n] of [d], is removed. *)
Lemma ns_rmdir x d ax ad n :
  entry T d n x -> ~ dots n -> A !! x = Some ax -> a_dir ax = true -> a_nlink ax = 2 -> A !! d = Some ad ->
  (forall k y, entry T x k y -> dots k) ->
  x <> d /\ ns_ok LINK_MAX (<[x := set_nl 0 ax]> (<[d := set_nl (a_nlink ad - 1) ad]> A)) (delete x (drop_entry T d n)).
Proof using W.
  intros E0 Hdots Hax Hdx Hnl Had Hempty. assert (isdir A x) as Hx by by exists ax.
  destruct (ns_down _ _ _ W d n x E0 Hdots Hx) as [Eup Hroot]. pose proof (entry_dir _ _ _ _ Eup) as HTx.
  pose proof (entry_dir _ _ _ _ E0) as HTd. pose proof (ns_dot _ _ _ W x HTx) as Edot.
  assert (x <> d) as Hxd by (intros <-; by apply Hdots, (Hempty n x)). split; [done|].
  destruct HTx as [mx Hmx].
  assert (forall i, count i mx = one i x + one i d) as HC.
  { intros i. destruct Edot as (? & t1 & E1 & Edot). rewrite Hmx in E1. injection E1 as <-.
    destruct Eup as (? & t2 & E2 & Eup). rewrite Hmx in E2. injection E2 as <-.
    pose proof (count_delete i mx dot _ Edot) as C1.
    assert (delete dot mx !! dotdot = Some (d, t2)) as Eup' by (by rewrite lookup_delete_ne).
    pose proof (count_delete i _ dotdot _ Eup') as C2. rewrite C1 in C2. cbn [fst] in C2.
    rewrite (count_zero i (delete dotdot (delete dot mx))) in C2; [lia|].
    intros k [y t] Hk. apply lookup_delete_Some in Hk as [H1 Hk]. apply lookup_delete_Some in Hk as [H2 Hk].
    assert (dots k) as [->| ->]; [|done..]. apply (Hempty k y). by exists mx, t. }
  assert (drop_entry T d n !! x = Some mx) as HDx.
  { destruct HTd as [m Hm]. by rewrite (drop_lookup _ _ _ _ _ Hm), decide_False by done. }
  set (T' := delete x _). set (A' := <[x := _]> _).
  assert (forall i, refs T' i = refs T i - 2 * one i x - one i d) as HR.
  { intros i. unfold T'. rewrite (refs_delete _ _ _ _ HDx), HC, (refs_drop _ _ _ _ _ E0). lia. }
  assert (forall e k y, entry T' e k y <-> e <> x /\ (e, k) <> (d, n) /\ entry T e k y) as HE.
  { intros e k y. unfold T'. destruct (decide (e = x)) as [->|He].
    - split; [|naive_solver]. intros E. apply entry_dir in E as [? E]. by rewrite lookup_delete_eq in E.
    - unfold entry at 1. rewrite lookup_delete_ne by done. fold (entry (drop_entry T d n) e k y). rewrite entry_drop. naive_solver. }
  assert (forall e k, ~ entry T' e k x) as Hnone.
  { intros e k E. apply HE in E as (He & Hne & E). destruct (decide (dots k)) as [[->| ->]|Hk].
    - apply He. symmetry. by apply (entry_det T e dot); [|apply (ns_dot _ _ _ W); eapply entry_dir].
    - destruct (decide (e = ROOTINO)) as [->|Her].
      + apply Hroot. by rewrite (entry_det _ _ _ _ _ E (ns_root _ _ _ W)).
      + destruct (ns_up _ _ _ W e x E Her) as (k' & Hk' & E'). by apply Hk', (Hempty k' e).
    - destruct (ns_down _ _ _ W e k x E Hk Hx) as [E' _]. rewrite (entry_det _ _ _ _ _ E' Eup) in *.
      apply Hne. f_equal. by apply (ns_once _ _ _ W d k n x). }
  assert (forall y, isdir A' y <-> isdir A y) as HD.
  { intros y. unfold A', isdir. destruct (decide (x = y)) as [<-|Hxy].
    - rewrite lookup_insert_eq, Hax. split; intros (b & [= <-] & Hb); by eexists.
    - rewrite lookup_insert_ne by done. apply (isdir_insert A d ad); done. }
  assert (forall y, is_Some (A !! y) -> is_Some (A' !! y)) as HS.
  { intros y Hy. unfold A'. destruct (decide (x = y)) as [<-|]; [by rewrite lookup_insert_eq|rewrite lookup_insert_ne by done].
    destruct (decide (d = y)) as [<-|]; [by rewrite lookup_insert_eq|by rewrite lookup_insert_ne]. }
  assert (forall e, is_Some (T' !! e) <-> e <> x /\ is_Some (T !! e)) as HT.
  { intros e. unfold T'. destruct (decide (x = e)) as [<-|]; [rewrite lookup_delete_eq; split; [by intros []|naive_solver]|].
    rewrite lookup_delete_ne, is_Some_drop by done. naive_solver. }
  assert (forall e p, entry T e dotdot p -> e <> x -> entry T' e dotdot p) as Hdd.
  { intros e p E He. apply HE. split_and!; [done| |done]. intros [= _ <-]. apply Hdots. by right. }
  assert (2 <= a_nlink ad) as Hnd.
  { destruct (ns_links _ _ _ W _ _ Had) as [-> _]. apply (refs_two T d dot x dotdot); [by apply (ns_dot _ _ _ W)|done|congruence]. }
  split.
  - intros i b Hb. apply lookup_two in Hb as [(-> & ->)|[(Hi & -> & ->)|(Hi & Hid & Hb)]].
    + apply (ns_attr _ _ _ W _ _ Hax).
    + apply (ns_attr _ _ _ W _ _ Had).
    + by apply (ns_attr _ _ _ W).
  - intros i b Hb. rewrite HR. unfold one. apply lookup_two in Hb as [(-> & ->)|[(Hi & -> & ->)|(Hi & Hid & Hb)]].
    + rewrite decide_True, decide_False by done. pose proof (ns_links _ _ _ W _ _ Hax). cbn. lia.
    + rewrite decide_False, decide_True by done. pose proof (ns_links _ _ _ W _ _ Had). cbn. lia.
    + rewrite !decide_False by done. pose proof (ns_links _ _ _ W _ _ Hb). lia.
  - intros e. rewrite HT, (ns_dom _ _ _ W). unfold A'. destruct (decide (x = e)) as [<-|Hxe].
    + rewrite lookup_insert_eq. split; [by intros [? _]|]. intros (b & [= <-] & _ & Hb). done.
    + rewrite lookup_insert_ne by done. destruct (decide (d = e)) as [<-|Hde]; [|rewrite lookup_insert_ne by done; naive_solver].
      rewrite lookup_insert_eq. apply (ns_dom _ _ _ W) in HTd as (b & Hb & H1 & H2). rewrite Had in Hb. injection Hb as <-.
      split; [|intros _; split; [done|by exists ad]]. intros _. eexists. split; [done|]. split; [done|]. cbn. lia.
  - intros e k y E. apply HE in E as (_ & _ & E). apply HS. by eapply (ns_entry _ _ _ W).
  - intros e He. apply HT in He as [He HTe]. apply HE. split; [done|]. split; [|by apply (ns_dot _ _ _ W)].
    intros [= _ <-]. apply Hdots. by left.
  - intros e He. apply HT in He as [He HTe]. apply (ns_dotdot _ _ _ W) in HTe as [p E]. exists p. by apply Hdd.
  - apply Hdd; [apply (ns_root _ _ _ W)|congruence].
  - intros e p E He. apply HE in E as (Hex & _ & E). destruct (ns_up _ _ _ W e p E He) as (k & Hk & E'). exists k. split; [done|].
    apply HE. split_and!; [|intros [= -> ->]; apply Hex; by apply (entry_det T d n)|done].
    intros ->. by apply Hk, (Hempty k e).
  - intros e k y E Hk Hy. assert (y <> x) as Hyx by (intros ->; by destruct (Hnone e k)).
    apply HE in E as (_ & _ & E). apply HD in Hy. destruct (ns_down _ _ _ W e k y E Hk Hy) as [E' Hr].
    split; [|done]. by apply Hdd.
  - intros e k k' y E E' Hk Hk' Hy. apply HE in E as (_ & _ & E). apply HE in E' as (_ & _ & E'). apply HD in Hy.
    by apply (ns_once _ _ _ W e k k' y).
  - intros e He. apply HT in He as [He HTe]. destruct (ns_rooted _ _ _ W e HTe) as [l U]. exists l.
    apply (up_path_keep T); [done|]. intros y p Hy E. apply Hdd; [done|]. intros ->.
    clear HTe. induction U as [|e p' l Her E2 U IH]; [by apply not_elem_of_nil in Hy|]. apply elem_of_cons in Hy as [->|Hy]; [done|].
    apply IH; [|done]. intros ->. destruct (ns_up _ _ _ W e x E2 Her) as (k' & Hk' & E'). by apply Hk', (Hempty k' e).
Qed.

(** A directory [x] moves from the entry [fn] of [fd] to the entry [tn] of [td], which is
    not below [x]. *)
Lemma ns_move x fd fn td tn m A' T' :
  entry T fd fn x -> ~ dots fn -> isdir A x -> T !! td = Some m -> m !! tn = None ->
  (forall l, up_path T td l -> x ∉ l) ->
  (forall a, A !! td = Some a -> td <> fd -> a_nlink a < LINK_MAX) ->
  (forall i, A' !! i = (fun a => set_nl (a_nlink a + one i td - one i fd) a) <$> A !! i) ->
  (forall e k y, entry T' e k y <->
     (e = td /\ k = tn /\ y = x) \/ (e = x /\ k = dotdot /\ y = td) \/ ((e, k) <> (fd, fn) /\ (e, k) <> (x, dotdot) /\ entry T e k y)) ->
  (forall d, is_Some (T' !! d) <-> is_Some (T !! d)) ->
  (forall i, refs T' i = refs T i + one i td - one i fd) ->
  ns_ok LINK_MAX A' T'.
Proof using W.
  intros E0 Hfn Hx Htd Htn Hpath Hmax HA HE HT HR. destruct (ns_down _ _ _ W fd fn x E0 Hfn Hx) as [Eup Hroot].
  pose proof (ns_free_name _ _ _ W _ _ _ Htd Htn) as Hdots. assert (is_Some (T !! td)) as Hstd by by exists m.
  pose proof (entry_dir _ _ _ _ E0) as Hsfd. pose proof (entry_dir _ _ _ _ Eup) as Hsx.
  assert (forall i b, A' !! i = Some b -> exists a, A !! i = Some a /\ b = set_nl (a_nlink a + one i td - one i fd) a) as HA'.
  { intros i b Hb. rewrite HA in Hb. apply fmap_Some in Hb as (a & Ha & ->). by exists a. }
  assert (forall y, isdir A' y <-> isdir A y) as HD.
  { intros y. unfold isdir. rewrite HA. destruct (A !! y) as [a|]; cbn; [|done].
    split; intros (b & [= <-] & Hb); by eexists. }
  assert (forall e p, entry T e dotdot p -> e <> x -> entry T' e dotdot p) as Hdd.
  { intros e p E He. apply HE. right; right. split_and!; [|congruence|done]. intros [= _ <-]. apply Hfn. by right. }
  split.
  - intros i b Hb. apply HA' in Hb as (a & Ha & ->). exact (ns_attr _ _ _ W i a Ha).
  - intros i b Hb. apply HA' in Hb as (a & Ha & ->). rewrite HR. cbn. destruct (ns_links _ _ _ W _ _ Ha) as [-> Hm].
    split; [done|]. destruct (ns_links _ _ _ W _ _ Ha) as [Hr _]. specialize (Hmax a). rewrite Hr in *.
    unfold one. destruct (decide (td = i)) as [Ei|], (decide (fd = i)) as [Ei'|]; try lia.
    subst i. specialize (Hmax Ha ltac:(congruence)). lia.
  - intros e. rewrite HT. split.
    + intros He. assert (is_Some (T' !! e)) as He' by by apply HT.
      assert (1 <= refs T' e) as Hr.
      { apply (refs_pos T' e dot). apply HE. right; right. split_and!; [|intros [= _ E]; by unfold dot, dotdot in E|by apply (ns_dot _ _ _ W)].
        intros [= _ <-]. apply Hfn. by left. }
      apply (ns_dom _ _ _ W) in He as (a & Ha & H1 & H2). exists (set_nl (a_nlink a + one e td - one e fd) a). rewrite HA, Ha. cbn.
      split_and!; [done|done|]. destruct (ns_links _ _ _ W _ _ Ha) as [-> _]. rewrite HR in Hr. lia.
    + intros (b & Hb & H1 & H2). apply HA' in Hb as (a & Ha & ->). cbn in H1, H2. unfold one in H2.
      destruct (decide (td = e)) as [<-|]; [done|]. destruct (decide (fd = e)) as [<-|]; [done|].
      apply (ns_dom _ _ _ W). exists a. split_and!; [done..|lia].
  - intros e k y E. apply HE in E as [(_ & _ & ->)|[(_ & _ & ->)|(_ & _ & E)]].
    + destruct Hx as (a & Ha & _). rewrite HA, Ha. by eexists.
    + destruct (ns_isdir _ _ _ W td Hstd) as (a & Ha & _). rewrite HA, Ha. by eexists.
    + apply (ns_entry _ _ _ W) in E as [a Ha]. rewrite HA, Ha. by eexists.
  - intros e He. apply HE. right; right. split_and!; [|intros [= _ E]; by unfold dot, dotdot in E|by apply (ns_dot _ _ _ W), HT].
    intros [= _ <-]. apply Hfn. by left.
  - intros e He. apply HT in He. destruct (decide (e = x)) as [->|Hex]; [exists td; apply HE; right; by left|].
    apply (ns_dotdot _ _ _ W) in He as [p E]. exists p. by apply Hdd.
  - apply Hdd; [apply (ns_root _ _ _ W)|congruence].
  - intros e p E He. apply HE in E as [(-> & <- & _)|[(-> & _ & ->)|(Hne & Hex & E)]].
    + destruct Hdots. by right.
    + exists tn. split; [done|]. apply HE. by left.
    + destruct (ns_up _ _ _ W e p E He) as (k & Hk & E'). exists k. split; [done|]. apply HE. right; right. split_and!; [| |done].
      * intros [= -> ->]. apply Hex. f_equal. by apply (entry_det T fd fn).
      * intros [= -> ->]. apply Hk. by right.
  - intros e k y E Hk Hy. apply HD in Hy. apply HE in E as [(-> & -> & ->)|[(_ & -> & _)|(Hne & _ & E)]].
    + split; [|done]. apply HE. right; by left.
    + destruct Hk. by right.
    + destruct (ns_down _ _ _ W e k y E Hk Hy) as [E' Hr]. split; [|done]. apply Hdd; [done|]. intros ->.
      rewrite (entry_det _ _ _ _ _ E' Eup) in *. apply Hne. f_equal. by apply (ns_once _ _ _ W fd k fn x).
  - assert (forall e k, (e, k) <> (fd, fn) -> ~ dots k -> entry T e k x -> False) as Hlast.
    { intros e k Hne Hk E. destruct (ns_down _ _ _ W e k x E Hk Hx) as [E' _]. rewrite (entry_det _ _ _ _ _ E' Eup) in *.
      apply Hne. f_equal. by apply (ns_once _ _ _ W fd k fn x). }
    intros e k k' y E E' Hk Hk' Hy. apply HD in Hy.
    apply HE in E as [(-> & -> & ->)|[(_ & -> & _)|(Hne & _ & E)]]; [|destruct Hk; by right|].
    + apply HE in E' as [(_ & -> & _)|[(_ & -> & _)|(Hne' & _ & E')]]; [done|destruct Hk'; by right|by destruct (Hlast td k')].
    + apply HE in E' as [(-> & -> & ->)|[(_ & -> & _)|(Hne' & _ & E')]]; [by destruct (Hlast td k)|destruct Hk'; by right|].
      by apply (ns_once _ _ _ W e k k' y).
  - assert (forall e l, up_path T e l -> x ∉ l -> up_path T' e l) as Hkeep.
    { intros e l U Hl. apply (up_path_keep T); [done|]. intros y p Hy E. apply Hdd; [done|]. by intros ->. }
    destruct (ns_rooted _ _ _ W td Hstd) as [ltd Utd].
    assert (up_path T' x (x :: ltd)) as Ux.
    { apply (up_step _ _ td); [done| |apply Hkeep; [done|by apply Hpath]]. apply HE. right; by left. }
    intros e He. apply HT, (ns_rooted _ _ _ W) in He as [l U]. induction U as [|e p l Her E U IH]; [exists []; constructor|].
    destruct (decide (e = x)) as [->|Hex]; [by eexists|]. destruct IH as [l' U']. exists (e :: l').
    apply (up_step _ _ p); [done|by apply Hdd|done].
Qed.
End directories.
