(* ===== verification/Vnops.v ===== *)
(** * Vnode operations (src/src/gnu/ext2fs/ext2_vnops.c)

    The operations that change names, links and attributes, with [ext2_valloc]
    (ext2_alloc.c) and [ext2_checkpath_nolock] (ext2_lookup.c), which they use.  What the
    other files and the kernel do for them is the class [VnOps].  The state is the table
    of the in-core inodes, which vnodes are numbers of, and whatever the rest of the
    system keeps.  The locks of inodes, the name cache and the notifications of the kernel
    are not modelled; the inodes are all of one device, so that the panics for EXDEV are
    not there. *)

From S2P Require Import Prelude Dir Nametree Fs Inode Ialloc Alloc Bmap Fballoc Dirent Truncate.

Definition EPERM : Z := 1.
Definition EBUSY : Z := 16.
Definition EEXIST : Z := 17.
Definition ENOTDIR : Z := 20.
Definition EISDIR : Z := 21.
Definition EINVAL : Z := 22.
Definition EMLINK : Z := 31.
Definition ENOTEMPTY : Z := 66.

Definition IN_RENAME : Z := 0x10.
Definition IN_LOOK : Z := 0x800.
Definition IFMT : Z := 0xF000.
Definition IFDIR : Z := 0x4000.
Definition IFREG : Z := 0x8000.
Definition IFLNK : Z := 0xA000.
Definition ISUID : Z := 0x800.
Definition ISGID : Z := 0x400.
Definition ALLPERMS : Z := 0xFFF.
Definition UF_OPAQUE : Z := 8.
Definition EXT2_FT_DIR : Z := 2.
Definition EXT2_FT_UNKNOWN : Z := 0.
Definition FWRITE : Z := 2.
Definition O_APPEND : Z := 8.

(** Constants of the system's headers. *)
Class Sdk := { LINK_MAX : Z; NOUNLINK : Z; IMMUTABLE : Z; APPEND : Z }.

(** ** Data *)

Record componentname := mkCn {
  cn_nameptr : list Z;
  cn_isdotdot : bool;
  cn_iswhiteout : bool;
}.

(** The credentials: the user, membership in groups, and [vfs_context_suser], which is 0
    for the superuser. *)
Record vfs_context := mkCtx {
  cr_uid : Z;
  kauth_cred_ismember_gid : Z -> bool;
  vfs_context_suser : Z;
}.

(** The first bytes of a directory; the fields for type and length of the name are the
    wrong way round, as in the source. *)
Record dirtemplate := mkDt {
  dot_ino : Z;
  dot_reclen : Z;
  dot_type : Z;
  dot_namlen : Z;
  dot_name : list Z;
  dotdot_ino : Z;
  dotdot_reclen : Z;
  dotdot_type : Z;
  dotdot_namlen : Z;
  dotdot_name : list Z;
}.

Definition mastertemplate : dirtemplate := mkDt 0 12 1 EXT2_FT_DIR [46; 0; 0; 0] 0 (512 - 12) 2 EXT2_FT_DIR [46; 46; 0; 0].
Definition omastertemplate : dirtemplate := mkDt 0 12 1 EXT2_FT_UNKNOWN [46; 0; 0; 0] 0 (512 - 12) 2 EXT2_FT_UNKNOWN [46; 46; 0; 0].

Definition set_dotdot_ino (x : Z) (t : dirtemplate) : dirtemplate :=
  mkDt (dot_ino t) (dot_reclen t) (dot_type t) (dot_namlen t) (dot_name t) x (dotdot_reclen t) (dotdot_type t)
    (dotdot_namlen t) (dotdot_name t).
Definition fill_template (ino parent reclen : Z) (t : dirtemplate) : dirtemplate :=
  mkDt ino (dot_reclen t) (dot_type t) (dot_namlen t) (dot_name t) parent reclen (dotdot_type t) (dotdot_namlen t) (dotdot_name t).

(** The second entry is not "..": [namlen] is the byte that ext2 keeps the length in. *)
Definition mangled (t : dirtemplate) : bool :=
  negb (dotdot_type t =? 2) || negb (bool_decide (dotdot_name t !! 0%nat = Some 46)) || negb (bool_decide (dotdot_name t !! 1%nat = Some 46)).

Record world (X : Type) := mkWorld { inodes : gmap Z file; env : X }.
Arguments mkWorld {X}.
Arguments inodes {X}.
Arguments env {X}.

(** What other files and the kernel do.  Vnodes and inodes are given by their numbers. *)
Class VnOps (X : Type) := {
  (** The kernel's lookup of a name for an operation on it, and its error. *)
  ext2_lookup (op : nameiop) (dvp : Z) (cnp : componentname) : kern (world X) Z;
  ext2_update (vp : Z) (waitfor : bool) : kern (world X) Z;
  s_free_inodes_count : kern (world X) Z;
  ext2_new_inode (pip mode : Z) : kern (world X) Z;
  EXT2_VGET (ino : Z) (createmode : option Z) : kern (world X) Z;
  ext2_vfree (pvp ino mode : Z) : kern (world X) unit;
  random : kern (world X) Z;
  ext2_direnter (ip dvp : Z) (cnp : componentname) : kern (world X) Z;
  ext2_dirremove (dvp : Z) (cnp : componentname) : kern (world X) Z;
  ext2_dirrewrite_nolock (dp ip : Z) (cnp : componentname) : kern (world X) Z;
  ext2_dirempty (ip parentino : Z) : kern (world X) bool;
  ext2_truncate (vp length : Z) : kern (world X) Z;
  (** [vn_rdwr] of a [struct dirtemplate] at offset 0, and of bytes at offset 0. *)
  vn_read_dir (vp : Z) : kern (world X) (Z * dirtemplate);
  vn_write_dir (vp : Z) (dirbuf : dirtemplate) : kern (world X) Z;
  vn_write (vp : Z) (bytes : list Z) : kern (world X) Z;
  EXT2_READ (vp resid : Z) : kern (world X) (Z * list Z);
}.

(** Fields of the inode. *)
Definition set_nlink (n : Z) (i : inode) : inode :=
  mkInode (i_mode i) n (i_size i) (i_atime i) (i_mtime i) (i_ctime i) (i_db i) (i_ib i)
    (i_flags i) (i_blocks i) (i_gen i) (i_uid i) (i_gid i) (i_e2flags i).
Definition set_mode (m : Z) (i : inode) : inode :=
  mkInode m (i_nlink i) (i_size i) (i_atime i) (i_mtime i) (i_ctime i) (i_db i) (i_ib i)
    (i_flags i) (i_blocks i) (i_gen i) (i_uid i) (i_gid i) (i_e2flags i).
Definition set_iflags (x : Z) (i : inode) : inode :=
  mkInode (i_mode i) (i_nlink i) (i_size i) (i_atime i) (i_mtime i) (i_ctime i) (i_db i) (i_ib i)
    x (i_blocks i) (i_gen i) (i_uid i) (i_gid i) (i_e2flags i).
Definition set_owner (uid gid : Z) (i : inode) : inode :=
  mkInode (i_mode i) (i_nlink i) (i_size i) (i_atime i) (i_mtime i) (i_ctime i) (i_db i) (i_ib i)
    (i_flags i) (i_blocks i) (i_gen i) uid gid (i_e2flags i).
Definition set_gen (blocks gen : Z) (i : inode) : inode :=
  mkInode (i_mode i) (i_nlink i) (i_size i) (i_atime i) (i_mtime i) (i_ctime i) (i_db i) (i_ib i)
    (i_flags i) blocks gen (i_uid i) (i_gid i) (i_e2flags i).

(** [i_shortlink]: the block pointers as bytes. *)
Definition link_bytes (i : inode) : list Z := concat ((fun w => le32 (u32 w)) <$> (i_db i ++ i_ib i)).
Fixpoint words_of (n : nat) (b : list Z) : list Z :=
  match n, b with
  | S n, b0 :: b1 :: b2 :: b3 :: b => i32 (b0 + 256 * b1 + 65536 * b2 + 16777216 * b3) :: words_of n b
  | _, _ => []
  end.
(** [bcopy] to [i_shortlink]; what does not fit would go to other fields. *)
Definition set_shortlink (target : list Z) (i : inode) : option inode :=
  b ← splice 0 target (link_bytes i);
  let w := words_of (length (i_db i ++ i_ib i)) b in
  Some (set_blks (take (length (i_db i)) w) (drop (length (i_db i)) w) i).

Section Operations.
Context `{Sdk} {X : Type} `{VnOps X}.
Local Abbreviation VN := (kern (world X)).

Definition VTOI (vp : Z) : VN file := t ← gets inodes; access (t !! vp).
Definition upd (vp : Z) (f : file -> file) : VN unit :=
  x ← VTOI vp;
  modify (fun w => mkWorld (<[vp := f x]> (inodes w)) (env w)).
(** [i_nlink += k] with IN_CHANGE. *)
Definition add_nlink (k vp : Z) : VN unit :=
  upd vp (fun f => set_flag IN_CHANGE (set_ip (fun i => set_nlink (i16 (i_nlink i + k)) i) f)).

(** ** New inodes *)

(** [ext2_valloc], with the number of the vnode. *)
Definition ext2_valloc (pvp mode : Z) : VN (Z * Z) :=
  n ← s_free_inodes_count;
  if n =? 0 then mret (ENOSPC, 0)
  else
    ino ← ext2_new_inode pvp mode;
    if ino =? 0 then mret (ENOSPC, 0)
    else
      error ← EXT2_VGET ino (Some mode);
      if negb (error =? 0) then ext2_vfree pvp ino mode;; mret (error, 0)
      else
        r ← random;
        upd ino (set_ip (fun i =>
          let gen := i32 (i_gen i + 1) in
          set_gen 0 (if (i_gen i =? 0) || (gen =? 0) then i32 (Z.quot r 2 + 1) else gen)
            (set_blks (replicate 12 0) (replicate 3 0) (set_iflags 0 (Truncate.set_size 0 (set_mode 0 i))))));;
        mret (0, ino).

(** After an error of [ext2_makeinode] or [ext2_mkdir]: the new inode has no links. *)
Definition forget_inode (tvp : Z) : VN unit :=
  upd tvp (fun f => set_flag IN_CHANGE (set_ip (set_nlink 0) f)).

Definition ext2_makeinode (mode dvp : Z) (cnp : componentname) (context : vfs_context) : VN (Z * option Z) :=
  pdir ← VTOI dvp;
  let mode := if Z.land mode IFMT =? 0 then Z.lor mode IFREG else mode in
  '(error, tvp) ← ext2_valloc dvp mode;
  if negb (error =? 0) then mret (error, None)
  else
    pdir ← VTOI dvp;
    let uid := if Z.land mode IFMT =? IFLNK then i_uid (ip pdir) else cr_uid context in
    let gid := i_gid (ip pdir) in
    let m := u16 mode in
    let m := if has_flag m ISGID && negb (kauth_cred_ismember_gid context gid) && negb (vfs_context_suser context =? 0)
             then Z.land m (Z.lnot ISGID) else m in
    upd tvp (fun f =>
      set_ip (fun i => let i := set_nlink 1 (set_mode m (set_owner uid gid i)) in
                       if cn_iswhiteout cnp then set_iflags (Z.lor (i_flags i) UF_OPAQUE) i else i)
        (set_flag (Z.lor IN_ACCESS (Z.lor IN_CHANGE IN_UPDATE)) f));;
    error ← ext2_update tvp true;
    error ← (if negb (error =? 0) then mret error else ext2_direnter tvp dvp cnp);
    if negb (error =? 0) then forget_inode tvp;; mret (error, None)
    else mret (0, Some tvp).

(** [MAKEIMODE] of the attributes is an argument, [imode]. *)
Definition ext2_create (va_uid imode dvp : Z) (cnp : componentname) (context : vfs_context) : VN (Z * option Z) :=
  if negb (va_uid =? cr_uid context) then panic "UID not equal to VFS_CTX UID"
  else ext2_makeinode imode dvp cnp context.

(** [va_rdev]: [None] is VNOVAL. *)
Definition ext2_mknod (imode : Z) (va_rdev : option Z) (dvp : Z) (cnp : componentname) (context : vfs_context) : VN (Z * option Z) :=
  '(error, vpp) ← ext2_makeinode imode dvp cnp context;
  match vpp with
  | None => mret (error, None)
  | Some vp =>
      upd vp (fun f =>
        let f := set_flag (Z.lor IN_ACCESS (Z.lor IN_CHANGE IN_UPDATE)) f in
        match va_rdev with
        | Some rdev => set_ip (fun i => set_blks (<[0%nat := i32 rdev]> (i_db i)) (i_ib i) i) f
        | None => f
        end);;
      mret (0, Some vp)
  end.

Definition ext2_symlink (va_mode maxsymlen dvp : Z) (cnp : componentname) (target : list Z) (context : vfs_context) : VN (Z * option Z) :=
  '(error, vpp) ← ext2_makeinode (Z.lor IFLNK va_mode) dvp cnp context;
  match vpp with
  | None => mret (error, None)
  | Some vp =>
      let len := Z.of_nat (length target) in
      if len <? maxsymlen then
        f ← VTOI vp;
        i ← access (set_shortlink target (ip f));
        upd vp (fun f => set_flag (Z.lor IN_CHANGE IN_UPDATE) (set_ip (fun _ => Truncate.set_size len i) f));;
        mret (0, Some vp)
      else
        error ← vn_write vp target;
        mret (error, Some vp)
  end.

(** The bytes that are moved to the user, at most [resid]. *)
Definition ext2_readlink (maxsymlen vp resid : Z) : VN (Z * list Z) :=
  f ← VTOI vp;
  let isize := i32 (i_size (ip f)) in
  if isize <? maxsymlen then
    b ← access (slice 0 (Z.min isize resid) (link_bytes (ip f)));
    mret (0, b)
  else EXT2_READ vp resid.

(** ** Links *)

Definition ext2_remove (vp dvp : Z) (cnp : componentname) (nodeletebusy isinuse : bool) : VN Z :=
  f ← VTOI vp;
  d ← VTOI dvp;
  if has_flag (i_flags (ip f)) (Z.lor NOUNLINK (Z.lor IMMUTABLE APPEND)) || has_flag (i_flags (ip d)) APPEND then mret EPERM
  else if nodeletebusy && isinuse then mret EBUSY
  else
    error ← ext2_dirremove dvp cnp;
    (if error =? 0 then add_nlink (-1) vp else mret tt);;
    mret error.

Definition ext2_link (vp tdvp : Z) (cnp : componentname) : VN Z :=
  f ← VTOI vp;
  if LINK_MAX <=? u16 (i_nlink (ip f)) then mret EMLINK
  else if has_flag (i_flags (ip f)) (Z.lor IMMUTABLE APPEND) then mret EPERM
  else
    add_nlink 1 vp;;
    error ← ext2_update vp true;
    error ← (if error =? 0 then ext2_direnter vp tdvp cnp else mret error);
    (if negb (error =? 0) then add_nlink (-1) vp else mret tt);;
    mret error.

(** ** The way to the root *)

Fixpoint checkpath_loop (fuel : nat) (source vp : Z) : VN Z :=
  match fuel with
  | O => out_of_fuel
  | S fuel =>
      f ← VTOI vp;
      if negb (S_ISDIR (i_mode (ip f))) then mret ENOTDIR
      else
        '(error, dirbuf) ← vn_read_dir vp;
        if negb (error =? 0) then mret error
        else if mangled dirbuf then mret ENOTDIR
        else if dotdot_ino dirbuf =? source then mret EINVAL
        else if dotdot_ino dirbuf =? ROOTINO then mret 0
        else
          error ← EXT2_VGET (dotdot_ino dirbuf) None;
          if negb (error =? 0) then mret error else checkpath_loop fuel source (dotdot_ino dirbuf)
  end.

(** One step for each inode is enough. *)
Definition ext2_checkpath_nolock (source target : Z) : VN Z :=
  s ← VTOI source;
  t ← VTOI target;
  n ← gets (fun w => size (inodes w));
  if i_number t =? i_number s then mret EEXIST
  else if i_number t =? ROOTINO then mret 0
  else checkpath_loop (S n) (i_number s) target.

(** ** Renaming *)

(** [bad]: the link that was added at the beginning is taken back. *)
Definition rename_bad (fvp error : Z) : VN Z :=
  upd fvp (fun f => set_flag IN_CHANGE (set_ip (fun i => set_nlink (i16 (i_nlink i - 1)) i) (clear_flag IN_RENAME f)));;
  mret error.

(** 2) without a target. *)
Definition rename_enter (fvp tdvp : Z) (tcnp : componentname) (doingdirectory : bool) (newparent : Z) : VN Z :=
  dp ← VTOI tdvp;
  let moving := doingdirectory && negb (newparent =? 0) in
  error ← (if moving then
             if LINK_MAX <=? u16 (i_nlink (ip dp)) then mret EMLINK
             else add_nlink 1 tdvp;; ext2_update tdvp true
           else mret 0);
  if negb (error =? 0) then mret error
  else
    error ← ext2_direnter fvp tdvp tcnp;
    if negb (error =? 0) then
      (if moving then add_nlink (-1) tdvp;; ext2_update tdvp true;; mret tt else mret tt);;
      mret error
    else mret 0.

(** 2) over the target [xp]. *)
Definition rename_replace (fvp tdvp xp : Z) (tcnp : componentname) (doingdirectory : bool) (newparent : Z) : VN Z :=
  f ← VTOI fvp;
  dp ← VTOI tdvp;
  x ← VTOI xp;
  if i_number x =? i_number f then panic "ext2_rename: same file"
  else
    error ← (if S_ISDIR (i_mode (ip x)) then
               empty ← ext2_dirempty xp (i_number dp);
               x ← VTOI xp;
               if negb empty || (2 <? i_nlink (ip x)) then mret ENOTEMPTY
               else if negb doingdirectory then mret ENOTDIR
               else mret 0
             else if doingdirectory then mret EISDIR
             else mret 0);
    if negb (error =? 0) then mret error
    else
      error ← ext2_dirrewrite_nolock tdvp fvp tcnp;
      if negb (error =? 0) then mret error
      else
        (if doingdirectory && (newparent =? 0) then add_nlink (-1) tdvp else mret tt);;
        upd xp (set_ip (fun i => set_nlink (i16 (i_nlink i - 1)) i));;
        (if doingdirectory then
           upd xp (set_ip (fun i => set_nlink (i16 (i_nlink i - 1)) i));;
           x ← VTOI xp;
           if negb (i_nlink (ip x) =? 0) then panic "ext2_rename: linked directory"
           else ext2_truncate xp 0;; mret tt
         else mret tt);;
        upd xp (set_flag IN_CHANGE);;
        mret 0.

(** ".." of the directory gets the new parent; errors are ignored. *)
Definition rename_dotdot (rdonly : bool) (fvp newparent : Z) : VN unit :=
  '(error, dirbuf) ← vn_read_dir fvp;
  if negb (error =? 0) then mret tt
  else if mangled dirbuf then
    if rdonly then mret tt else panic "ext2_rename: mangled dir"
  else vn_write_dir fvp (set_dotdot_ino newparent dirbuf);; mret tt.

(** 3) The source is unlinked; [xp] and [ip] are both the inode of [fvp]. *)
Definition rename_unlink (rdonly : bool) (fvp fdvp : Z) (fcnp : componentname) (doingdirectory : bool) (newparent : Z) : VN Z :=
  (if doingdirectory && negb (newparent =? 0) then
     add_nlink (-1) fdvp;;
     rename_dotdot rdonly fvp newparent
   else mret tt);;
  error ← ext2_dirremove fdvp fcnp;
  (if error =? 0 then add_nlink (-1) fvp else mret tt);;
  upd fvp (clear_flag IN_RENAME);;
  mret error.

Definition ext2_rename (rdonly : bool) (fdvp fvp : Z) (fcnp : componentname) (tdvp : Z) (tvp : option Z) (tcnp : componentname) : VN Z :=
  refused ← (match tvp with
             | Some t =>
                 x ← VTOI t;
                 dp ← VTOI tdvp;
                 mret (has_flag (i_flags (ip x)) (Z.lor NOUNLINK (Z.lor IMMUTABLE APPEND)) || has_flag (i_flags (ip dp)) APPEND)
             | None => mret false
             end);
  if refused : bool then mret EPERM
  else if decide (tvp = Some fvp) then mret 0
  else
    dp ← VTOI fdvp;
    f ← VTOI fvp;
    let doingdirectory := S_ISDIR (i_mode (ip f)) in
    if LINK_MAX <=? i_nlink (ip f) then mret EMLINK
    else if has_flag (i_flags (ip f)) (Z.lor NOUNLINK (Z.lor IMMUTABLE APPEND)) || has_flag (i_flags (ip dp)) APPEND then mret EPERM
    else if doingdirectory &&
            (bool_decide (cn_nameptr fcnp = [46]) || (fdvp =? fvp) || (cn_isdotdot fcnp || cn_isdotdot tcnp) || has_flag (i_flag f) IN_RENAME)
    then mret EINVAL
    else
      let oldparent := if doingdirectory then i_number dp else 0 in
      upd fvp (fun f => if doingdirectory then set_flag IN_RENAME f else f);;
      add_nlink 1 fvp;;
      error ← ext2_update fvp true;
      if negb (error =? 0) then rename_bad fvp error
      else
        tdp ← VTOI tdvp;
        let newparent := if negb (oldparent =? i_number tdp) then i_number tdp else 0 in
        error ← (if doingdirectory && negb (newparent =? 0) then ext2_checkpath_nolock fvp tdvp else mret 0);
        if negb (error =? 0) then rename_bad fvp error
        else
          error ← (match tvp with
                   | None => rename_enter fvp tdvp tcnp doingdirectory newparent
                   | Some xp => rename_replace fvp tdvp xp tcnp doingdirectory newparent
                   end);
          if negb (error =? 0) then rename_bad fvp error
          else rename_unlink rdonly fvp fdvp fcnp doingdirectory newparent.

(** ** Directories *)

(** The parameters of the mount: the feature FILETYPE, the block size, and [f_bsize]. *)
Definition ext2_mkdir (filetype : bool) (s_blocksize f_bsize : Z) (va_mode dvp : Z) (cnp : componentname) (context : vfs_context) : VN (Z * option Z) :=
  dp ← VTOI dvp;
  if LINK_MAX <=? u16 (i_nlink (ip dp)) then mret (EMLINK, None)
  else
    let dgid := i_gid (ip dp) in
    let dmode := Z.lor (Z.land va_mode 0x1FF) IFDIR in
    '(error, tvp) ← ext2_valloc dvp dmode;
    if negb (error =? 0) then mret (error, None)
    else
      upd tvp (fun f =>
        set_ip (fun i => let i := set_nlink 2 (set_mode (u16 dmode) (set_owner (cr_uid context) dgid i)) in
                         if cn_iswhiteout cnp then set_iflags (Z.lor (i_flags i) UF_OPAQUE) i else i)
          (set_flag (Z.lor IN_ACCESS (Z.lor IN_CHANGE IN_UPDATE)) f));;
      error ← ext2_update tvp true;
      error ←
        (if negb (error =? 0) then mret error
         else
           add_nlink 1 dvp;;
           error ← ext2_update dvp true;
           if negb (error =? 0) then mret error
           else
             f ← VTOI tvp;
             dp ← VTOI dvp;
             error ← vn_write_dir tvp (fill_template (i_number f) (i_number dp) (i16 (s_blocksize - 12))
                                        (if filetype then mastertemplate else omastertemplate));
             if negb (error =? 0) then add_nlink (-1) dvp;; mret error
             else
               (if f_bsize <? s_blocksize then panic "ext2_mkdir: blksize"
                else upd tvp (fun f => set_flag IN_CHANGE (set_ip (Truncate.set_size s_blocksize) f)));;
               error ← ext2_direnter tvp dvp cnp;
               (if negb (error =? 0) then add_nlink (-1) dvp else mret tt);;
               mret error);
      if negb (error =? 0) then forget_inode tvp;; mret (error, None)
      else mret (0, Some tvp).

(** The end of [ext2_rmdir], from [out] on. *)
Definition rmdir_out (vp error : Z) : VN Z := upd vp (clear_flag IN_LOOK);; mret error.

(** The loop that waits for other lookups ends when nobody is left who looks: here, when
    there is nobody. *)
Definition ext2_rmdir (vp dvp : Z) (cnp : componentname) : VN Z :=
  if dvp =? vp then mret EINVAL
  else
    f ← VTOI vp;
    if has_flag (i_flag f) IN_LOOK then out_of_fuel
    else
      upd vp (set_flag IN_LOOK);;
      dp ← VTOI dvp;
      empty ← (if negb (i_nlink (ip f) =? 2) then mret false else ext2_dirempty vp (i_number dp));
      if negb empty then rmdir_out vp ENOTEMPTY
      else
        f ← VTOI vp;
        dp ← VTOI dvp;
        if has_flag (i_flags (ip dp)) APPEND || has_flag (i_flags (ip f)) (Z.lor NOUNLINK (Z.lor IMMUTABLE APPEND))
        then rmdir_out vp EPERM
        else
          error ← ext2_dirremove dvp cnp;
          if negb (error =? 0) then rmdir_out vp error
          else
            add_nlink (-1) dvp;;
            upd vp (set_ip (fun i => set_nlink (i16 (i_nlink i - 2)) i));;
            error ← ext2_truncate vp 0;
            rmdir_out vp error.
End Operations.
