(* ===== verification/Vnoplaws.v ===== *)
(** * What the vnode operations rely on, and rules for them

    [VnLaws] states what directories, inode update, truncation and allocation promise to
    the vnode operations, in terms of the tree of names; the rest of the file are rules
    that compute what a piece of [Vnops] does to the attributes of the inodes ([attrs])
    and to the tree.  A directory remembers the positions that lookups have found; the laws
    of the operations that use them demand that they are right ([ready]). *)

From S2P Require Import Prelude Dir Nametree Fs Inode Ialloc Alloc Bmap Fballoc Dirent Truncate Vnops.

(** ** The view *)

Definition attr_of (f : file) : attr :=
  mkAttr (i_number f) (S_ISDIR (i_mode (ip f))) (i_nlink (ip f)) (i_flags (ip f))
    (has_flag (i_flag f) IN_RENAME) (has_flag (i_flag f) IN_LOOK).
Definition attrs {X} (w : world X) : gmap Z attr := attr_of <$> inodes w.

(** A template that shows "." as [x] and ".." as [y], with their types. *)
Definition shows (t : dirtemplate) (x y : Z * Z) : Prop :=
  dot_ino t = x.1 /\ dot_reclen t = 12 /\ dot_type t = 1 /\ dot_namlen t = x.2 /\ dot_name t !! 0%nat = Some 46 /\
  dotdot_ino t = y.1 /\ dotdot_namlen t = y.2 /\ mangled t = false.

(** What a directory remembers of a lookup stays right where [P] says so. *)
Definition keeps {X : Type} (ready : X -> Z -> list Z -> Prop) (P : Z -> list Z -> Prop) (x x' : X) : Prop :=
  forall d n, P d n -> ready x d n -> ready x' d n.
Definition anywhere (d : Z) (n : list Z) : Prop := True.
Definition elsewhere (d : Z) (e : Z) (n : list Z) : Prop := e <> d.

(** Results of a lookup after which the directory remembers the position: the name is to be
    removed or renamed and is there, or there is room for it. *)
Definition located (op : Dir.nameiop) (e : Z) : Prop := e = Dir.EJUSTRETURN \/ e = 0 /\ (op = Dir.DELETE \/ op = Dir.RENAME).

#[export] Instance located_dec op e : Decision (located op e).
Proof. unfold located. apply _. Defined.

Class VnLaws (X : Type) {OPS : VnOps X} := {
  (** The directory [d] holds [m]. *)
  tree : X -> gmap Z dirmap;
  (** What the directory remembers of a name is right: when the name is there the position
      of its entry, otherwise the room for it.  A lookup establishes it, and an entry that
      is made or removed in the directory destroys it: records change their length. *)
  ready : X -> Z -> list Z -> Prop;
  (** The device works, so that reads and writes do not fail. *)
  io_ok : X -> Prop;

  law_lookup op dvp cnp w : is_Some (attrs w !! dvp) -> is_Some (tree (env w) !! dvp) ->
    wp (ext2_lookup op dvp cnp) (fun e w' => attrs w' = attrs w /\ tree (env w') = tree (env w) /\
      (io_ok (env w) -> io_ok (env w')) /\ keeps ready anywhere (env w) (env w') /\
      (located op e -> ready (env w') dvp (cn_nameptr cnp))) w;
  law_update vp b w : is_Some (attrs w !! vp) ->
    wp (ext2_update vp b) (fun e w' => attrs w' = attrs w /\ keeps ready anywhere (env w) (env w') /\ tree (env w') = tree (env w) /\
      (io_ok (env w) -> io_ok (env w') /\ e = 0)) w;
  law_free_inodes w : wp s_free_inodes_count (fun _ w' => w' = w) w;
  (** The number of an inode that is not in use, or 0. *)
  law_new_inode pip mode w : wp (ext2_new_inode pip mode) (fun ino w' => attrs w' = attrs w /\ keeps ready anywhere (env w) (env w') /\ tree (env w') = tree (env w) /\
      (io_ok (env w) -> io_ok (env w')) /\ (ino <> 0 -> 0 < ino /\ attrs w !! ino = None)) w;
  law_vget_new ino mode w : 0 < ino -> attrs w !! ino = None ->
    wp (EXT2_VGET ino (Some mode)) (fun e w' => keeps ready anywhere (env w) (env w') /\ tree (env w') = tree (env w) /\ (io_ok (env w) -> io_ok (env w')) /\
      (if e =? 0 then exists a, attrs w' = <[ino := a]> (attrs w) /\ a_number a = ino /\ a_rename a = false /\ a_look a = false
       else attrs w' = attrs w)) w;
  law_vget ino w : is_Some (attrs w !! ino) ->
    wp (EXT2_VGET ino None) (fun e w' => attrs w' = attrs w /\ keeps ready anywhere (env w) (env w') /\ tree (env w') = tree (env w) /\
      (io_ok (env w) -> io_ok (env w') /\ e = 0)) w;
  law_vfree pvp ino mode w : wp (ext2_vfree pvp ino mode) (fun _ w' => attrs w' = attrs w /\ keeps ready anywhere (env w) (env w') /\ tree (env w') = tree (env w) /\
      (io_ok (env w) -> io_ok (env w'))) w;
  law_random w : wp random (fun _ w' => w' = w) w;

  (** A new entry is made, or there is an error; an error of the device may come after the
      entry is made. *)
  law_direnter ip dvp cnp m w : is_Some (attrs w !! ip) -> is_Some (attrs w !! dvp) -> tree (env w) !! dvp = Some m -> m !! cn_nameptr cnp = None ->
    ready (env w) dvp (cn_nameptr cnp) ->
    wp (ext2_direnter ip dvp cnp) (fun e w' => attrs w' = attrs w /\ keeps ready (elsewhere dvp) (env w) (env w') /\ (io_ok (env w) -> io_ok (env w')) /\
      ((exists t, tree (env w') = put (tree (env w)) dvp (cn_nameptr cnp) (ip, t) /\ (io_ok (env w) -> e = 0)) \/
       (e <> 0 /\ tree (env w') = tree (env w)))) w;
  law_dirremove dvp cnp x w : is_Some (attrs w !! dvp) -> entry (tree (env w)) dvp (cn_nameptr cnp) x -> ready (env w) dvp (cn_nameptr cnp) ->
    wp (ext2_dirremove dvp cnp) (fun e w' => attrs w' = attrs w /\ keeps ready (elsewhere dvp) (env w) (env w') /\ (io_ok (env w) -> io_ok (env w') /\ e = 0) /\
      (tree (env w') = drop_entry (tree (env w)) dvp (cn_nameptr cnp) \/ (e <> 0 /\ tree (env w') = tree (env w)))) w;
  law_dirrewrite dp ip cnp x w : is_Some (attrs w !! dp) -> is_Some (attrs w !! ip) -> entry (tree (env w)) dp (cn_nameptr cnp) x -> x <> dp ->
    ready (env w) dp (cn_nameptr cnp) ->
    wp (ext2_dirrewrite_nolock dp ip cnp) (fun e w' => attrs w' = attrs w /\
      keeps ready (fun d n => d <> dp \/ n <> cn_nameptr cnp /\ exists y, entry (tree (env w)) d n y) (env w) (env w') /\ (io_ok (env w) -> io_ok (env w') /\ e = 0) /\
      ((exists t, tree (env w') = put (tree (env w)) dp (cn_nameptr cnp) (ip, t)) \/ (e <> 0 /\ tree (env w') = tree (env w)))) w;
  law_dirempty ip parent m w : is_Some (attrs w !! ip) -> tree (env w) !! ip = Some m ->
    wp (ext2_dirempty ip parent) (fun b w' => attrs w' = attrs w /\ keeps ready anywhere (env w) (env w') /\ tree (env w') = tree (env w) /\ (io_ok (env w) -> io_ok (env w')) /\
      (b = true -> forall n x, m !! n = Some x -> n = dot \/ n = dotdot /\ x.1 = parent) /\
      (io_ok (env w) -> (forall n x, m !! n = Some x -> n = dot \/ n = dotdot /\ x.1 = parent) -> b = true)) w;
  (** A directory is emptied, or it keeps its entries. *)
  law_truncate vp w : is_Some (attrs w !! vp) ->
    wp (ext2_truncate vp 0) (fun e w' => attrs w' = attrs w /\ keeps ready (elsewhere vp) (env w) (env w') /\ (io_ok (env w) -> io_ok (env w') /\ e = 0) /\
      (forall d, d <> vp -> tree (env w') !! d = tree (env w) !! d)) w;
  law_read_dir d m x y w : is_Some (attrs w !! d) -> tree (env w) !! d = Some m -> m !! dot = Some x -> m !! dotdot = Some y ->
    wp (vn_read_dir d) (fun '(e, t) w' => attrs w' = attrs w /\ keeps ready anywhere (env w) (env w') /\ tree (env w') = tree (env w) /\
      (io_ok (env w) -> io_ok (env w') /\ e = 0) /\ (e = 0 -> shows t x y)) w;
  (** What is written back changes the inode of ".."; a new directory gets its entries. *)
  law_write_back d m x y z t w : is_Some (attrs w !! d) -> tree (env w) !! d = Some m -> m !! dot = Some x -> m !! dotdot = Some y -> shows t x y ->
    wp (vn_write_dir d (set_dotdot_ino z t)) (fun e w' => attrs w' = attrs w /\ keeps ready (elsewhere d) (env w) (env w') /\ (io_ok (env w) -> io_ok (env w') /\ e = 0) /\
      (e = 0 -> tree (env w') = put (tree (env w)) d dotdot (z, y.2)) /\ (e <> 0 -> tree (env w') = tree (env w))) w;
  law_write_new d x y t w : is_Some (attrs w !! d) -> tree (env w) !! d = None -> shows t x y ->
    wp (vn_write_dir d t) (fun e w' => attrs w' = attrs w /\ keeps ready (elsewhere d) (env w) (env w') /\ (io_ok (env w) -> io_ok (env w') /\ e = 0) /\
      (e = 0 -> tree (env w') = <[d := new_dir x.1 y.1 x.2 y.2]> (tree (env w))) /\
      (e <> 0 -> forall d', d' <> d -> tree (env w') !! d' = tree (env w) !! d')) w;
}.

(** ** Flags *)

Lemma has_flag_lor x m m' : Z.land m m' = 0 -> has_flag (Z.lor x m) m' = has_flag x m'.
Proof. intros E. unfold has_flag. by rewrite Z.land_lor_distr_l, E, Z.lor_0_r. Qed.

Lemma has_flag_set x m : m <> 0 -> has_flag (Z.lor x m) m = true.
Proof.
  intros E. unfold has_flag. rewrite Z.land_lor_distr_l, Z.land_diag. apply negb_true_iff, Z.eqb_neq. intros H.
  apply Z.lor_eq_0_iff in H as [_ H]. done.
Qed.

Lemma has_flag_keep x m m' : Z.land (u32 (Z.lnot m)) m' = m' -> has_flag (Z.land x (u32 (Z.lnot m))) m' = has_flag x m'.
Proof. intros E. unfold has_flag. by rewrite <- Z.land_assoc, E. Qed.

Lemma has_flag_clear x m m' : Z.land (u32 (Z.lnot m)) m' = 0 -> has_flag (Z.land x (u32 (Z.lnot m))) m' = false.
Proof. intros E. unfold has_flag. by rewrite <- Z.land_assoc, E, Z.land_0_r. Qed.

(** ** Directories that are not removed *)

Definition alive (A : gmap Z attr) (d : Z) : Prop := match A !! d with Some a => a_nlink a <> 0 | None => False end.

#[export] Instance alive_dec A d : Decision (alive A d).
Proof. unfold alive. destruct (A !! d); apply _. Defined.

Definition restrict (A : gmap Z attr) (T : gmap Z dirmap) : gmap Z dirmap := filter (fun kv => alive A kv.1) T.

Section restrict.
Implicit Types (A : gmap Z attr) (T : gmap Z dirmap).

Lemma restrict_lookup A T d : restrict A T !! d = if decide (alive A d) then T !! d else None.
Proof.
  apply option_eq. intros m. unfold restrict. rewrite map_lookup_filter_Some. cbn. destruct (decide (alive A d)); naive_solver.
Qed.

Lemma restrict_entry A T d n x : entry (restrict A T) d n x <-> alive A d /\ entry T d n x.
Proof. unfold entry. rewrite restrict_lookup. destruct (decide (alive A d)); naive_solver. Qed.

Lemma restrict_ext A A' T T' : (forall d, alive A d <-> alive A' d) -> (forall d, alive A d -> T !! d = T' !! d) -> restrict A T = restrict A' T'.
Proof.
  intros HA HT. apply map_eq. intros d. rewrite !restrict_lookup. specialize (HA d). specialize (HT d).
  destruct (decide (alive A d)), (decide (alive A' d)); tauto.
Qed.

Lemma restrict_put A T d n x : alive A d -> restrict A (put T d n x) = put (restrict A T) d n x.
Proof.
  intros Hd. apply map_eq. intros e. unfold put. rewrite restrict_lookup, (restrict_lookup A T d). rewrite (decide_True _ _ Hd).
  destruct (T !! d) as [m|] eqn:E; [|by rewrite !restrict_lookup]. destruct (decide (d = e)) as [<-|He].
  - by rewrite !lookup_insert_eq, decide_True.
  - by rewrite !lookup_insert_ne, restrict_lookup.
Qed.

Lemma restrict_drop A T d n : alive A d -> restrict A (drop_entry T d n) = drop_entry (restrict A T) d n.
Proof.
  intros Hd. apply map_eq. intros e. unfold drop_entry. rewrite restrict_lookup, (restrict_lookup A T d). rewrite (decide_True _ _ Hd).
  destruct (T !! d) as [m|] eqn:E; [|by rewrite !restrict_lookup]. destruct (decide (d = e)) as [<-|He].
  - by rewrite !lookup_insert_eq, decide_True.
  - by rewrite !lookup_insert_ne, restrict_lookup.
Qed.

Lemma alive_insert A i a d : alive (<[i := a]> A) d <-> (d = i /\ a_nlink a <> 0) \/ (d <> i /\ alive A d).
Proof.
  unfold alive. destruct (decide (i = d)) as [<-|]; [rewrite lookup_insert_eq; naive_solver|rewrite lookup_insert_ne by done; naive_solver].
Qed.
End restrict.

(** ** Rules *)

Section rules.
Context `{SDK : Sdk} {X : Type} {OPS : VnOps X} {LAWS : VnLaws X}.
Context (io : bool) (R : list (Z * list Z)).
Implicit Types (w : world X) (A : gmap Z attr) (T : gmap Z dirmap).

(** The attributes and the tree of a state, and names for which it is ready; when [io] is
    set, the device works. *)
Definition sees (w : world X) (A : gmap Z attr) (T : gmap Z dirmap) : Prop :=
  attrs w = A /\ tree (env w) = T /\ (io = true -> io_ok (env w)) /\ Forall (fun p => ready (env w) p.1 p.2) R.

Lemma sees_lookup w A T vp a : sees w A T -> A !! vp = Some a -> exists f, inodes w !! vp = Some f /\ attr_of f = a.
Proof. intros (<- & _) Ha. unfold attrs in Ha. apply lookup_fmap_Some in Ha as (f & <- & Hf). by exists f. Qed.

Lemma sees_ready w A T d n : sees w A T -> (d, n) ∈ R -> ready (env w) d n.
Proof. intros (_ & _ & _ & HR) Hin. by apply (proj1 (Forall_forall _ _) HR (d, n)). Qed.

(** The names that stay ready. *)
Lemma keeps_all (P : Z -> list Z -> Prop) (x x' : X) R' :
  Forall (fun p => ready x p.1 p.2) R -> keeps ready P x x' -> Forall (fun p => p ∈ R /\ P p.1 p.2) R' -> Forall (fun p => ready x' p.1 p.2) R'.
Proof.
  intros HR HK HR'. apply Forall_forall. intros p Hp. apply (proj1 (Forall_forall _ _) HR') in Hp as [Hp HP].
  apply HK; [done|]. by apply (proj1 (Forall_forall _ _) HR).
Qed.

Lemma keeps_anywhere (x x' : X) : Forall (fun p => ready x p.1 p.2) R -> keeps ready anywhere x x' -> Forall (fun p => ready x' p.1 p.2) R.
Proof. intros HR HK. apply (keeps_all anywhere x x'); [done..|]. apply Forall_forall. done. Qed.

Lemma wp_VTOI (Q : file -> world X -> Prop) w A T vp a :
  sees w A T -> A !! vp = Some a -> (forall f, inodes w !! vp = Some f -> attr_of f = a -> Q f w) -> wp (VTOI vp) Q w.
Proof.
  intros S Ha HQ. destruct (sees_lookup _ _ _ _ _ S Ha) as (f & Hf & Ef). unfold VTOI. wp_steps.
  apply (wp_access _ f); [done|]. by apply HQ.
Qed.

Lemma wp_upd (Q : unit -> world X -> Prop) w A T vp a a' (g : file -> file) :
  sees w A T -> A !! vp = Some a -> (forall f, attr_of f = a -> attr_of (g f) = a') ->
  (forall w', sees w' (<[vp := a']> A) T -> Q tt w') -> wp (upd vp g) Q w.
Proof.
  intros S Ha Hg HQ. unfold upd. wp_steps. apply (wp_VTOI _ _ _ _ _ _ S Ha). intros f Hf Ef. apply wp_modify, HQ.
  destruct S as (<- & <- & HT). split; [|by split]. unfold attrs. cbn. rewrite fmap_insert. by rewrite (Hg f Ef).
Qed.

Lemma wp_add_nlink (Q : unit -> world X -> Prop) w A T vp a k :
  sees w A T -> A !! vp = Some a -> (forall w', sees w' (<[vp := set_nl (i16 (a_nlink a + k)) a]> A) T -> Q tt w') -> wp (add_nlink k vp) Q w.
Proof.
  intros S Ha HQ. unfold add_nlink. apply (wp_upd _ _ _ _ _ a (set_nl (i16 (a_nlink a + k)) a) _ S Ha); [|done].
  intros f <-. unfold attr_of, set_nl. cbn. by rewrite !has_flag_lor.
Qed.
End rules.

(** Fewer names. *)
Lemma sees_some {X} {OPS : VnOps X} {LAWS : VnLaws X} io R R' (w : world X) A T :
  sees io R w A T -> Forall (fun p => p ∈ R) R' -> sees io R' w A T.
Proof.
  intros (H1 & H2 & H3 & H4) HR. split_and!; [done..|]. apply Forall_forall. intros p Hp.
  by apply (proj1 (Forall_forall _ _) H4), (proj1 (Forall_forall _ _) HR).
Qed.

(** ** The laws, for states that are seen *)

Section laws.
Context `{SDK : Sdk} {X : Type} {OPS : VnOps X} {LAWS : VnLaws X}.
Context (io : bool) (R : list (Z * list Z)).
Implicit Types (w : world X) (A : gmap Z attr) (T : gmap Z dirmap).
Local Abbreviation sees := (sees io).

Local Ltac seen := split_and!; [naive_solver..|by eapply keeps_anywhere].

(** A lookup makes its name ready, when it locates it. *)
Lemma wp_vlookup (Q : Z -> world X -> Prop) w A T op d cnp :
  sees R w A T -> is_Some (A !! d) -> is_Some (T !! d) ->
  (forall e w', sees R w' A T -> ~ located op e -> Q e w') ->
  (forall e w', sees ((d, cn_nameptr cnp) :: R) w' A T -> located op e -> Q e w') ->
  wp (ext2_lookup op d cnp) Q w.
Proof.
  intros (<- & <- & Hio & HR) Hd Ht HQ1 HQ2. eapply wp_mono; [by apply law_lookup|]. intros e w' (H1 & H2 & H3 & H4 & H5).
  assert (sees R w' (attrs w) (tree (env w))) as S by seen.
  destruct (decide (located op e)) as [He|He]; [|by apply HQ1].
  apply HQ2; [|done]. destruct S as (S1 & S2 & S3 & S4). split_and!; [done..|]. constructor; [by apply H5|done].
Qed.

Lemma wp_vupdate (Q : Z -> world X -> Prop) w A T vp b :
  sees R w A T -> is_Some (A !! vp) -> (forall e w', sees R w' A T -> (io = true -> e = 0) -> Q e w') -> wp (ext2_update vp b) Q w.
Proof.
  intros (<- & <- & Hio & HR) Hv HQ. eapply wp_mono; [by apply law_update|]. intros e w' (H1 & H2 & H3 & H4).
  apply HQ; [|naive_solver]. seen.
Qed.

Lemma wp_vget (Q : Z -> world X -> Prop) w A T ino :
  sees R w A T -> is_Some (A !! ino) -> (forall e w', sees R w' A T -> (io = true -> e = 0) -> Q e w') -> wp (EXT2_VGET ino None) Q w.
Proof.
  intros (<- & <- & Hio & HR) Hv HQ. eapply wp_mono; [by apply law_vget|]. intros e w' (H1 & H2 & H3 & H4).
  apply HQ; [|naive_solver]. seen.
Qed.

(** The names of other directories stay ready. *)
Definition others (d : Z) (R' : list (Z * list Z)) : Prop := Forall (fun p => p ∈ R /\ elsewhere d p.1 p.2) R'.

Lemma wp_vdirenter (Q : Z -> world X -> Prop) R' w A T x d cnp m :
  sees R w A T -> is_Some (A !! x) -> is_Some (A !! d) -> T !! d = Some m -> m !! cn_nameptr cnp = None ->
  (d, cn_nameptr cnp) ∈ R -> others d R' ->
  (forall e w' t, sees R' w' A (put T d (cn_nameptr cnp) (x, t)) -> (io = true -> e = 0) -> Q e w') ->
  (forall e w', sees R' w' A T -> e <> 0 -> Q e w') ->
  wp (ext2_direnter x d cnp) Q w.
Proof.
  intros S Hx Hd Hm Hn Hr HR' HQ1 HQ2. pose proof (sees_ready _ _ _ _ _ _ _ S Hr) as Hrd. destruct S as (<- & <- & Hio & HR).
  eapply wp_mono; [by eapply law_direnter|].
  intros e w' (H1 & HK & H2 & Hcase). assert (Forall (fun p => ready (env w') p.1 p.2) R') as HR2 by by eapply keeps_all.
  destruct Hcase as [(t & H3 & H4)|[H3 H4]].
  - apply (HQ1 e w' t); [|naive_solver]. split_and!; naive_solver.
  - apply HQ2; [|done]. split_and!; naive_solver.
Qed.

Lemma wp_vdirremove (Q : Z -> world X -> Prop) R' w A T d cnp x :
  sees R w A T -> is_Some (A !! d) -> entry T d (cn_nameptr cnp) x -> (d, cn_nameptr cnp) ∈ R -> others d R' ->
  (forall e w', sees R' w' A (drop_entry T d (cn_nameptr cnp)) -> (io = true -> e = 0) -> Q e w') ->
  (forall e w', sees R' w' A T -> e <> 0 -> io = false -> Q e w') ->
  wp (ext2_dirremove d cnp) Q w.
Proof.
  intros S Hd Hm Hr HR' HQ1 HQ2. pose proof (sees_ready _ _ _ _ _ _ _ S Hr) as Hrd. destruct S as (<- & <- & Hio & HR).
  eapply wp_mono; [by eapply law_dirremove|].
  intros e w' (H1 & HK & H2 & Hcase). assert (Forall (fun p => ready (env w') p.1 p.2) R') as HR2 by by eapply keeps_all.
  destruct Hcase as [H3|[H3 H4]].
  - apply HQ1; [|naive_solver]. split_and!; naive_solver.
  - apply HQ2; [|done|]; [split_and!; naive_solver|]. destruct io; [|done]. naive_solver.
Qed.

(** So do the names that are there. *)
Lemma wp_vdirrewrite (Q : Z -> world X -> Prop) R' w A T d ip cnp x :
  sees R w A T -> is_Some (A !! d) -> is_Some (A !! ip) -> entry T d (cn_nameptr cnp) x -> x <> d -> (d, cn_nameptr cnp) ∈ R ->
  Forall (fun p => p ∈ R /\ (p.1 <> d \/ p.2 <> cn_nameptr cnp /\ exists y, entry T p.1 p.2 y)) R' ->
  (forall e w' t, sees R' w' A (put T d (cn_nameptr cnp) (ip, t)) -> (io = true -> e = 0) -> Q e w') ->
  (forall e w', sees R' w' A T -> e <> 0 -> io = false -> Q e w') ->
  wp (ext2_dirrewrite_nolock d ip cnp) Q w.
Proof.
  intros S Hd Hi Hm Hne Hr HR' HQ1 HQ2. pose proof (sees_ready _ _ _ _ _ _ _ S Hr) as Hrd. destruct S as (<- & <- & Hio & HR).
  eapply wp_mono; [by eapply law_dirrewrite|].
  intros e w' (H1 & HK & H2 & Hcase). assert (Forall (fun p => ready (env w') p.1 p.2) R') as HR2 by by eapply keeps_all.
  destruct Hcase as [[t H3]|[H3 H4]].
  - apply (HQ1 e w' t); [|naive_solver]. split_and!; naive_solver.
  - apply HQ2; [|done|]; [split_and!; naive_solver|]. destruct io; [|done]. naive_solver.
Qed.

(** What an empty directory may hold. *)
Definition empty_of (T : gmap Z dirmap) (d parent : Z) : Prop := forall n x, entry T d n x -> n = dot \/ n = dotdot /\ x = parent.

Lemma wp_dirempty (Q : bool -> world X -> Prop) w A T d parent :
  sees R w A T -> is_Some (A !! d) -> is_Some (T !! d) ->
  (forall b w', sees R w' A T -> (b = true -> empty_of T d parent) -> (io = true -> empty_of T d parent -> b = true) -> Q b w') ->
  wp (ext2_dirempty d parent) Q w.
Proof.
  intros (<- & <- & Hio & HR) Hd [m Hm] HQ. eapply wp_mono; [by eapply law_dirempty|].
  intros b w' (H1 & HK & H2 & H3 & H4 & H5). apply HQ; [seen| |].
  - intros Hb n x (m' & t & Hd' & Hn). rewrite Hm in Hd'. injection Hd' as <-. by apply (H4 Hb n (x, t)).
  - intros Hi He. apply H5; [by apply Hio|]. intros n [x t] Hn. cbn. apply He. by exists m, t.
Qed.

Lemma wp_truncate (Q : Z -> world X -> Prop) R' w A T vp :
  sees R w A T -> is_Some (A !! vp) -> others vp R' ->
  (forall e w' T', sees R' w' A T' -> (io = true -> e = 0) -> (forall d, d <> vp -> T' !! d = T !! d) -> Q e w') ->
  wp (ext2_truncate vp 0) Q w.
Proof.
  intros (<- & <- & Hio & HR) Hd HR' HQ. eapply wp_mono; [by eapply law_truncate|].
  intros e w' (H1 & HK & H2 & H3). apply (HQ e w' (tree (env w'))); [|naive_solver|done].
  split_and!; [naive_solver..|by eapply keeps_all].
Qed.

Lemma wp_read_dir (Q : Z * dirtemplate -> world X -> Prop) w A T d x y :
  sees R w A T -> is_Some (A !! d) -> entry T d dot x -> entry T d dotdot y ->
  (forall e t w' tx ty, sees R w' A T -> (io = true -> e = 0) -> (e = 0 -> shows t (x, tx) (y, ty)) ->
     (exists m, T !! d = Some m /\ m !! dot = Some (x, tx) /\ m !! dotdot = Some (y, ty)) -> Q (e, t) w') ->
  wp (vn_read_dir d) Q w.
Proof.
  intros (<- & <- & Hio & HR) Hd (m & tx & Hm & Hx) (m' & ty & Hm' & Hy) HQ. rewrite Hm in Hm'. injection Hm' as <-.
  eapply wp_mono; [by eapply law_read_dir|]. intros [e t] w' (H1 & HK & H2 & H3 & H4).
  apply (HQ e t w' tx ty); [seen|naive_solver|done|by exists m].
Qed.

(** A new inode. *)
Lemma wp_valloc (Q : Z * Z -> world X -> Prop) w A T pvp mode :
  sees R w A T ->
  (forall e w', sees R w' A T -> e <> 0 -> Q (e, 0) w') ->
  (forall ino a w', A !! ino = None -> 0 < ino -> a_number a = ino -> a_flags a = 0 -> a_rename a = false -> a_look a = false ->
     sees R w' (<[ino := a]> A) T -> Q (0, ino) w') ->
  wp (ext2_valloc pvp mode) Q w.
Proof.
  intros (<- & <- & Hio & HR) HQ1 HQ2. unfold ext2_valloc. wp_steps. eapply wp_mono; [apply law_free_inodes|]. intros n _ ->.
  destruct (n =? 0); [apply wp_ret, HQ1; [by split_and!|done]|]. wp_steps. eapply wp_mono; [apply law_new_inode|].
  intros ino w1 (H1 & HK & H2 & H3 & H4). pose proof (keeps_anywhere _ _ _ HR HK) as HR1. destruct (Z.eqb_spec ino 0) as [|Hino].
  { apply wp_ret, HQ1; [|done]. split_and!; naive_solver. }
  destruct (H4 Hino) as [Hpos Hnone]. wp_steps. eapply wp_mono; [apply law_vget_new; [done|by rewrite H1]|].
  intros e w2 (HK2 & H5 & H6 & H7). pose proof (keeps_anywhere _ _ _ HR1 HK2) as HR2. destruct (Z.eqb_spec e 0) as [->|He]; cbn [negb].
  - destruct H7 as (a & H7 & A1 & A2 & A3). wp_steps. eapply wp_mono; [apply law_random|]. intros r _ ->. wp_steps.
    eapply (wp_upd io R _ w2 (<[ino := a]> (attrs w)) (tree (env w)) ino a (mkAttr ino (S_ISDIR 0) (a_nlink a) 0 false false)).
    + split_and!; [by rewrite H7, H1|by rewrite H5, H2|naive_solver|done].
    + apply lookup_insert_eq.
    + intros f <-. unfold attr_of. cbn. cbn in A1, A2, A3. by rewrite A1, A2, A3.
    + intros w3 S3. rewrite insert_insert_eq in S3. apply wp_ret. refine (HQ2 ino _ w3 Hnone Hpos _ _ _ _ S3); done.
  - wp_steps. eapply wp_mono; [apply law_vfree|]. intros _ w3 (H8 & HK3 & H9 & H10). wp_steps. apply HQ1; [|done].
    split_and!; [by rewrite H8, H7|by rewrite H9, H5, H2|naive_solver|by eapply keeps_anywhere].
Qed.
End laws.
