(* ===== verification/Memns.v ===== *)
(** * A file system in memory

    An instance of the interface [VnOps] that satisfies [VnLaws]: directories are maps, and
    the inodes that cannot be written, the directories that cannot be read and those that
    are full are given; a directory whose entries have changed removes nothing before the
    next lookup.  It shows that the laws can hold, and the examples of [Namespace]
    run on it. *)

From S2P Require Import Prelude Nametree Fs Inode Ialloc Alloc Bmap Fballoc Dirent Truncate Vnops Vnoplaws.

Definition ENOENT : Z := 2.

Record memfs := mkMemfs {
  dirs : gmap Z dirmap;
  bad_update : list Z;
  bad_read : list Z;
  full : list Z;
  changed : list Z;
}.

Abbreviation MEM := (kern (world memfs)).

Definition set_dirs (T : gmap Z dirmap) (w : world memfs) : world memfs :=
  mkWorld (inodes w) (mkMemfs T (bad_update (env w)) (bad_read (env w)) (full (env w)) (changed (env w))).
Definition set_changed (l : list Z) (w : world memfs) : world memfs :=
  mkWorld (inodes w) (mkMemfs (dirs (env w)) (bad_update (env w)) (bad_read (env w)) (full (env w)) l).
Definition mark (d : Z) : MEM unit := modify (fun w => set_changed (d :: changed (env w)) w).
Definition edit (f : gmap Z dirmap -> gmap Z dirmap) : MEM unit := modify (fun w => set_dirs (f (dirs (env w))) w).

Definition empty_inode : inode := mkInode 0 0 0 0 0 0 (replicate 12 0) (replicate 3 0) 0 0 0 0 0 0.
Definition new_file (ino : Z) : file := mkFile empty_inode ino 0 0 0 0 0 0.
(** An inode number that is not in use. *)
Definition unused (t : gmap Z file) : Z := 1 + map_fold (fun k _ acc => Z.max k acc) 10 t.

Definition only_dots (m : dirmap) (parent : Z) : Prop := map_Forall (fun n (x : Z * Z) => n = dot \/ n = dotdot /\ x.1 = parent) m.

#[export] Instance only_dots_dec m parent : Decision (only_dots m parent).
Proof. unfold only_dots. apply _. Defined.

Definition mem_direnter (x d : Z) (cnp : componentname) : MEM Z :=
  w ← gets id;
  match dirs (env w) !! d with
  | Some m =>
      match m !! cn_nameptr cnp with
      | Some _ => mret EEXIST
      | None => if decide (d ∈ full (env w)) then mret ENOSPC
                else edit (fun T => put T d (cn_nameptr cnp) (x, 0));; mark d;; mret 0
      end
  | None => mret ENOTDIR
  end.

Definition mem_lookup (op : Dir.nameiop) (d : Z) (cnp : componentname) : MEM Z :=
  modify (fun w => set_changed (filter (fun e => e <> d) (changed (env w))) w);;
  w ← gets id;
  mret (match dirs (env w) !! d ≫= (.!! cn_nameptr cnp), op with
        | Some _, _ => 0
        | None, (Dir.CREATE | Dir.RENAME) => Dir.EJUSTRETURN
        | None, _ => ENOENT
        end).

Definition mem_dirremove (d : Z) (cnp : componentname) : MEM Z :=
  w ← gets id;
  if decide (d ∈ changed (env w)) then mret EIO
  else
    match dirs (env w) !! d ≫= (.!! cn_nameptr cnp) with
    | Some _ => edit (fun T => drop_entry T d (cn_nameptr cnp));; mark d;; mret 0
    | None => mret ENOENT
    end.

Definition mem_read_dir (d : Z) : MEM (Z * dirtemplate) :=
  w ← gets id;
  if decide (d ∈ bad_read (env w)) then mret (EIO, omastertemplate)
  else
    match m ← dirs (env w) !! d; x ← m !! dot; y ← m !! dotdot; Some (x, y) with
    | Some (x, y) => mret (0, mkDt x.1 12 1 x.2 [46; 0; 0; 0] y.1 500 2 y.2 [46; 46; 0; 0])
    | None => mret (EIO, omastertemplate)
    end.

Definition mem_write_dir (d : Z) (t : dirtemplate) : MEM Z :=
  edit (fun T => match T !! d with
                 | Some m => <[d := <[dotdot := (dotdot_ino t, dotdot_namlen t)]> (<[dot := (dot_ino t, dot_namlen t)]> m)]> T
                 | None => <[d := new_dir (dot_ino t) (dotdot_ino t) (dot_namlen t) (dotdot_namlen t)]> T
                 end);;
  mret 0.

#[export] Instance mem_ops : VnOps memfs := {
  ext2_lookup := mem_lookup;
  ext2_update vp _ := w ← gets id; mret (if decide (vp ∈ bad_update (env w)) then EIO else 0);
  s_free_inodes_count := mret 1;
  ext2_new_inode _ _ := w ← gets id; mret (unused (inodes w));
  EXT2_VGET ino createmode :=
    match createmode with
    | Some _ => modify (fun w => mkWorld (<[ino := new_file ino]> (inodes w)) (env w));; mret 0
    | None => w ← gets id; mret (if decide (is_Some (inodes w !! ino)) then 0 else EIO)
    end;
  ext2_vfree _ _ _ := mret tt;
  random := mret 7;
  ext2_direnter := mem_direnter;
  ext2_dirremove := mem_dirremove;
  ext2_dirrewrite_nolock d x cnp := edit (fun T => put T d (cn_nameptr cnp) (x, 0));; mret 0;
  ext2_dirempty d parent := w ← gets id; mret (match dirs (env w) !! d with Some m => bool_decide (only_dots m parent) | None => false end);
  ext2_truncate vp _ := edit (fun T => match T !! vp with Some _ => <[vp := ∅]> T | None => T end);; mret 0;
  vn_read_dir := mem_read_dir;
  vn_write_dir := mem_write_dir;
  vn_write _ _ := mret 0;
  EXT2_READ _ _ := mret (EIO, []);
}.

Lemma attrs_none (w : world memfs) ino : attrs w !! ino = None <-> inodes w !! ino = None.
Proof. unfold attrs. rewrite lookup_fmap. apply fmap_None. Qed.

Lemma unused_spec (t : gmap Z file) : 0 < unused t /\ t !! unused t = None.
Proof.
  assert (forall k, is_Some (t !! k) -> k < unused t) as Hk.
  { unfold unused. apply (map_fold_weak_ind (fun r (m : gmap Z file) => forall k, is_Some (m !! k) -> k < 1 + r)).
    - intros k [? Hk]. by rewrite lookup_empty in Hk.
    - intros i x m r Hi IH k Hk. destruct (decide (i = k)) as [<-|]; [lia|]. rewrite lookup_insert_ne in Hk by done. specialize (IH k Hk). lia. }
  assert (10 <= map_fold (fun k (_ : file) acc => Z.max k acc) 10 t) as H10.
  { apply (map_fold_weak_ind (fun r (_ : gmap Z file) => 10 <= r)); [lia|]. intros. lia. }
  split; [unfold unused; lia|]. apply eq_None_not_Some. intros Hs. specialize (Hk _ Hs). lia.
Qed.

Lemma attrs_some (w : world memfs) ino : is_Some (attrs w !! ino) <-> is_Some (inodes w !! ino).
Proof. unfold attrs. by rewrite lookup_fmap, fmap_is_Some. Qed.

(** The laws. *)
#[export, refine] Instance mem_laws : VnLaws memfs := {
  tree := dirs;
  ready s d _ := d ∉ changed s;
  io_ok s := bad_update s = [] /\ bad_read s = [];
}.
Proof.
  all: unfold keeps, anywhere, elsewhere; cbn [ext2_lookup ext2_update s_free_inodes_count ext2_new_inode EXT2_VGET ext2_vfree random ext2_direnter ext2_dirremove
            ext2_dirrewrite_nolock ext2_dirempty ext2_truncate vn_read_dir vn_write_dir mem_ops].
  - intros op d cnp w Hd Ht. unfold mem_lookup. wp_steps. split_and!; [done..| |].
    + intros e n _ He Hin. apply list_elem_of_filter in Hin as [_ Hin]. by apply He.
    + intros _ Hin. by apply list_elem_of_filter in Hin as [Hin _].
  - intros vp b w Hv. wp_steps. split_and!; [done..|]. intros [H1 H2]. split; [done|]. unfold id. rewrite H1.
    rewrite decide_False by apply not_elem_of_nil. done.
  - intros w. by wp_steps.
  - intros pip mode w. wp_steps. split_and!; [done..|]. intros _. destruct (unused_spec (inodes w)). split; [done|]. by apply attrs_none.
  - intros ino mode w Hpos Hn. wp_steps. split_and!; [done..|]. exists (attr_of (new_file ino)). split; [|done]. unfold attrs. cbn. by rewrite fmap_insert.
  - intros ino w Hs. wp_steps. unfold id. rewrite decide_True by by apply attrs_some. done.
  - intros. by wp_steps.
  - intros w. by wp_steps.
  - intros x d cnp m w Hx Hd Hm Hn _. unfold mem_direnter. wp_steps. unfold id. rewrite Hm, Hn. destruct (decide _); [wp_steps; naive_solver|].
    wp_steps. unfold mark. wp_steps. split_and!; [done| |done|].
    + intros e k Hne He Hin. cbn in Hin. apply elem_of_cons in Hin as [->|Hin]; [done|by apply He].
    + left. by exists 0.
  - intros d cnp x w Hd (m & t & Hm & Hn) Hr. unfold mem_dirremove. wp_steps. unfold id. rewrite decide_False by done. rewrite Hm. cbn. rewrite Hn. wp_steps. unfold mark. wp_steps. split_and!; [done| |done|by left].
    intros e n Hne He Hin. cbn in Hin. apply elem_of_cons in Hin as [->|Hin]; [done|by apply He].
  - intros d x cnp y w _ _ _ _ _. wp_steps. split_and!; [done..|]. left. by exists 0.
  - intros d parent m w Hd Hm. wp_steps. unfold id. rewrite Hm. split_and!; [done..| |].
    + intros Hb. by apply bool_decide_eq_true in Hb.
    + intros _ Hb. by apply bool_decide_eq_true.
  - intros vp w Hv. wp_steps. split_and!; [done..|]. intros d Hd. cbn. destruct (dirs (env w) !! vp); [by rewrite lookup_insert_ne|done].
  - intros d m x y w Hd Hm Hx Hy. unfold mem_read_dir. wp_steps. unfold id. destruct (decide _) as [Hb|Hb].
    + wp_steps. split_and!; [done..| |done]. intros [_ H2]. rewrite H2 in Hb. by apply not_elem_of_nil in Hb.
    + rewrite Hm. cbn. rewrite Hx. cbn. rewrite Hy. cbn. wp_steps. split_and!; done.
  - intros d m x y z t w Hd Hm Hx Hy (S1 & _ & _ & S4 & _ & S6 & S7 & _). unfold mem_write_dir. wp_steps. split_and!; [done..| |done].
    intros _. cbn. rewrite Hm. unfold put. rewrite Hm. f_equal. rewrite S1, S4, S7. f_equal. destruct x. by apply insert_id.
  - intros d x y t w Hd Hn (S1 & _ & _ & S4 & _ & S6 & S7 & _). unfold mem_write_dir. wp_steps. split_and!; [done..| |done].
    intros _. cbn. rewrite Hn. f_equal. by rewrite S1, S4, S6, S7.
Defined.

(** ** An empty file system *)

#[export] Instance sdk : Sdk := { LINK_MAX := 32767; NOUNLINK := 0x100000; IMMUTABLE := 0x20002; APPEND := 0x40004 }.

Definition file_with (ino mode nlink : Z) : file :=
  mkFile (mkInode mode nlink 0 0 0 0 (replicate 12 0) (replicate 3 0) 0 0 0 0 0 0) ino 0 0 0 0 0 0.

(** What mkfs leaves: the root, which is its own parent. *)
Definition empty_fs : world memfs :=
  mkWorld {[2 := file_with 2 0x41ED 2]} (mkMemfs {[2 := new_dir 2 2 2 2]} [] [] [] []).

Definition name (s : list Z) : componentname := mkCn s false false.
Definition root_ctx : vfs_context := mkCtx 0 (fun _ => true) 0.
