(* ===== verification/Vnopspec.v ===== *)
(** * What the vnode operations do to names and links

    For each operation of [Vnops] that changes names: that it returns (in particular, its
    panics are not taken), and the attributes and the tree that it leaves, for every result;
    and that the invariant [names_ok] holds again.  [Rename] has the same for renaming. *)

From S2P Require Import Prelude Nametree Fs Inode Ialloc Alloc Bmap Fballoc Dirent Truncate Vnops Vnoplaws.

Section Spec.
Context `{SDK : Sdk} {X : Type} {OPS : VnOps X} {LAWS : VnLaws X}.
Context (HM : 2 <= LINK_MAX < 2 ^ 15).
Implicit Types (w : world X) (A : gmap Z attr) (T : gmap Z dirmap).

(** ** The invariant, of attributes and tree *)

Record names_ok A T : Prop := {
  no_ns : ns_ok LINK_MAX A (restrict A T);
  no_dom d : is_Some (T !! d) -> isdir A d;
}.

Lemma alive_is_Some A d : alive A d -> is_Some (A !! d).
Proof. unfold alive. destruct (A !! d); [by eexists|done]. Qed.

Lemma names_attr A T i a : names_ok A T -> A !! i = Some a -> a_number a = i /\ 0 < i /\ a_rename a = false /\ a_look a = false.
Proof. intros [W _] Ha. by apply (ns_attr _ _ _ W). Qed.

Lemma names_nlink A T i a : names_ok A T -> A !! i = Some a -> 0 <= a_nlink a <= LINK_MAX.
Proof. intros [W _] Ha. split; [by apply (ns_nlink_nonneg _ _ _ W i)|by apply (ns_links _ _ _ W i)]. Qed.

(** The casts of link counts are in range. *)
Lemma names_u16 A T i a : names_ok A T -> A !! i = Some a -> u16 (a_nlink a) = a_nlink a.
Proof. intros N Ha. pose proof (names_nlink _ _ _ _ N Ha). apply uintw_small. lia. Qed.

Lemma restrict_some A T d : alive A d -> is_Some (restrict A T !! d) <-> is_Some (T !! d).
Proof. intros Hd. by rewrite restrict_lookup, decide_True. Qed.

(** A directory that is not removed is in the tree. *)
Lemma names_dir A T d a : names_ok A T -> A !! d = Some a -> a_dir a = true -> a_nlink a <> 0 -> exists m, T !! d = Some m.
Proof.
  intros [W _] Ha Hd Hn. assert (alive A d) as Hal by (unfold alive; by rewrite Ha).
  destruct (proj2 (ns_dom _ _ _ W d) ltac:(by exists a)) as [m Hm]. exists m. by rewrite restrict_lookup, decide_True in Hm.
Qed.

Lemma set_nl_id a : set_nl (a_nlink a) a = a.
Proof. by destruct a. Qed.

(** ** The changes keep it *)

Lemma alive_set A i a n d : A !! i = Some a -> (n <> 0 <-> a_nlink a <> 0) -> alive (<[i := set_nl n a]> A) d <-> alive A d.
Proof.
  intros Ha Hn. rewrite alive_insert. cbn. unfold alive. destruct (decide (d = i)) as [->|]; [rewrite Ha; naive_solver|naive_solver].
Qed.

(** When the same directories are not removed, the restriction does not change. *)
Lemma restrict_same A A' T : (forall d, is_Some (T !! d) -> alive A' d <-> alive A d) -> restrict A' T = restrict A T.
Proof.
  intros HA. apply map_eq. intros e. rewrite !restrict_lookup. destruct (T !! e) as [m|] eqn:E; [|by destruct (decide _), (decide _)].
  assert (is_Some (T !! e)) as Hs by by exists m. specialize (HA e Hs). destruct (decide _), (decide _); tauto.
Qed.

Lemma restrict_file A T i a n : names_ok A T -> A !! i = Some a -> a_dir a = false ->
  restrict (<[i := set_nl n a]> A) T = restrict A T.
Proof.
  intros [_ D] Ha Hd. apply restrict_same. intros d Hs. rewrite alive_insert. assert (d <> i) as Hne; [|naive_solver].
  intros ->. apply D in Hs as (b & Hb & Hbd). congruence.
Qed.

Lemma isdir_dom A A' T T' :
  (forall d, is_Some (T' !! d) -> is_Some (T !! d)) -> (forall d, isdir A d -> isdir A' d) ->
  (forall d, is_Some (T !! d) -> isdir A d) -> forall d, is_Some (T' !! d) -> isdir A' d.
Proof. naive_solver. Qed.

Lemma isdir_set A i a n x : A !! i = Some a -> isdir A x -> isdir (<[i := set_nl n a]> A) x.
Proof. intros Ha. by apply (isdir_insert A i a). Qed.

Lemma names_link A T x a d m n t :
  names_ok A T -> A !! x = Some a -> a_dir a = false -> a_nlink a < LINK_MAX -> alive A d -> T !! d = Some m -> m !! n = None ->
  names_ok (<[x := set_nl (a_nlink a + 1) a]> A) (put T d n (x, t)).
Proof.
  intros N Ha Hx Hmax Hal Hd Hn. pose proof N as [W D].
  assert (is_Some (T !! d)) as Hs by by exists m. assert (d <> x) as Hdx by (intros ->; destruct (D x Hs) as (b & ? & ?); congruence).
  split.
  - rewrite restrict_put by (apply alive_insert; naive_solver). rewrite (restrict_file _ _ _ a _ N Ha Hx).
    apply (ns_link _ _ _ W x a d m n t Ha Hx Hmax); [by rewrite restrict_lookup, decide_True|done].
  - apply (isdir_dom A _ T); [by intros e; rewrite is_Some_put|intros e; by apply isdir_set|done].
Qed.

Lemma names_unlink A T x a d n :
  names_ok A T -> A !! x = Some a -> a_dir a = false -> alive A d -> entry T d n x ->
  names_ok (<[x := set_nl (a_nlink a - 1) a]> A) (drop_entry T d n).
Proof.
  intros N Ha Hx Hal Hd. pose proof N as [W D].
  assert (d <> x) as Hdx by (intros ->; destruct (D x (entry_dir _ _ _ _ Hd)) as (b & ? & ?); congruence).
  split.
  - rewrite restrict_drop by (apply alive_insert; naive_solver). rewrite (restrict_file _ _ _ a _ N Ha Hx).
    apply (ns_unlink _ _ _ W x a d n Ha Hx). by apply restrict_entry.
  - apply (isdir_dom A _ T); [by intros e; rewrite is_Some_drop|intros e; by apply isdir_set|done].
Qed.

(** An inode without links, and without entries if it is a directory, is not in the way. *)
Lemma names_fresh A T T' x a :
  names_ok A T -> A !! x = None -> 0 < x -> a_number a = x -> a_nlink a = 0 -> a_rename a = false -> a_look a = false ->
  (forall d, d <> x -> T' !! d = T !! d) -> (is_Some (T' !! x) -> a_dir a = true) ->
  names_ok (<[x := a]> A) T'.
Proof.
  intros [W D] Hx Hpos H1 H2 H3 H4 HT Hdir. split.
  - assert (restrict (<[x := a]> A) T' = restrict A T) as ->; [|apply (ns_fresh _ _ _ W); done || lia].
    apply map_eq. intros e. rewrite !restrict_lookup. destruct (decide (e = x)) as [->|He].
    + rewrite decide_False by (rewrite alive_insert; intros [[_ Hn]|[Hn _]]; by apply Hn).
      rewrite decide_False by (unfold alive; rewrite Hx; tauto). done.
    + rewrite (HT e He). assert (alive (<[x := a]> A) e <-> alive A e) by (rewrite alive_insert; naive_solver).
      destruct (decide _), (decide _); tauto.
  - intros d Hs. destruct (decide (d = x)) as [->|Hd]; [exists a; rewrite lookup_insert_eq; by auto|].
    rewrite HT in Hs by done. destruct (D d Hs) as (b & Hb & Hbd). exists b. by rewrite lookup_insert_ne.
Qed.

Lemma names_mkdir A T x a d ad m n t tx td :
  names_ok A T -> A !! x = None -> 0 < x -> A !! d = Some ad -> a_nlink ad <> 0 -> a_nlink ad < LINK_MAX ->
  T !! d = Some m -> m !! n = None ->
  a_number a = x -> a_dir a = true -> a_nlink a = 2 -> a_rename a = false -> a_look a = false ->
  names_ok (<[x := a]> (<[d := set_nl (a_nlink ad + 1) ad]> A)) (<[x := new_dir x d tx td]> (put T d n (x, t))).
Proof.
  intros N Hx Hpos Had Hnl Hmax Hd Hn H1 H2 H3 H4 H5. pose proof N as [W D].
  assert (alive A d) as Hal by (unfold alive; by rewrite Had).
  pose proof (names_nlink _ _ _ _ N Had) as Hpn. assert (x <> d) as Hxd by congruence.
  split.
  - assert (restrict (<[x := a]> (<[d := set_nl (a_nlink ad + 1) ad]> A)) (<[x := new_dir x d tx td]> (put T d n (x, t))) =
      <[x := new_dir x d tx td]> (put (restrict A T) d n (x, t))) as ->.
    + rewrite <- restrict_put by done. apply map_eq. intros e. rewrite restrict_lookup. destruct (decide (e = x)) as [->|He].
      * rewrite decide_True by (apply alive_insert; lia). by rewrite !lookup_insert_eq.
      * rewrite !lookup_insert_ne, restrict_lookup by done.
        assert (alive (<[x := a]> (<[d := set_nl (a_nlink ad + 1) ad]> A)) e <-> alive A e) as E.
        { rewrite alive_insert, (alive_set A d ad) by (done || lia). naive_solver. }
        destruct (decide _), (decide _); tauto.
    + eapply (ns_mkdir LINK_MAX A (restrict A T) W); try done; [by rewrite restrict_lookup, decide_True|lia].
  - intros e Hs. destruct (decide (x = e)) as [<-|He]; [exists a; by rewrite lookup_insert_eq|].
    rewrite lookup_insert_ne, is_Some_put in Hs by done. apply D, (isdir_set A d ad (a_nlink ad + 1) e Had) in Hs as (b & Hb & Hbd).
    exists b. by rewrite lookup_insert_ne.
Qed.

Lemma names_rmdir A T T' x d ax ad n :
  names_ok A T -> entry T d n x -> ~ dots n -> A !! x = Some ax -> a_dir ax = true -> a_nlink ax = 2 -> A !! d = Some ad ->
  a_nlink ad <> 0 -> (forall k y, entry T x k y -> dots k) -> (forall e, e <> x -> T' !! e = drop_entry T d n !! e) ->
  x <> d /\ names_ok (<[x := set_nl 0 ax]> (<[d := set_nl (a_nlink ad - 1) ad]> A)) T'.
Proof.
  intros N E Hn Hax Hdx Hnl Had Hdn Hempty HT. pose proof N as [W D].
  assert (alive A d) as Hald by (unfold alive; by rewrite Had). assert (alive A x) as Halx by (unfold alive; rewrite Hax; lia).
  destruct (ns_rmdir _ _ _ W x d ax ad n) as [Hxd W']; try done; [by apply restrict_entry| |].
  { intros k y E'. apply restrict_entry in E' as [_ E']. by apply (Hempty k y). }
  split; [done|]. split.
  - assert (restrict (<[x := set_nl 0 ax]> (<[d := set_nl (a_nlink ad - 1) ad]> A)) T' = delete x (drop_entry (restrict A T) d n)) as ->; [|done].
    rewrite <- restrict_drop by done. apply map_eq. intros e. rewrite restrict_lookup. destruct (decide (e = x)) as [->|He].
    + rewrite lookup_delete_eq, decide_False; [done|]. rewrite alive_insert. naive_solver.
    + rewrite lookup_delete_ne, restrict_lookup, HT by done.
      assert (2 <= a_nlink ad) as H2.
      { destruct (ns_links _ _ _ W _ _ Had) as [-> _].
        assert (entry (restrict A T) d n x) as E' by by apply restrict_entry.
        apply (refs_two _ d dot x dotdot).
        - apply (ns_dot _ _ _ W). by eapply entry_dir.
        - apply (ns_down _ _ _ W d n x E' Hn). by exists ax.
        - congruence. }
      assert (alive (<[x := set_nl 0 ax]> (<[d := set_nl (a_nlink ad - 1) ad]> A)) e <-> alive A e) as Ea.
      { rewrite alive_insert, (alive_set A d ad) by (done || lia). naive_solver. }
      destruct (decide _), (decide _); tauto.
  - intros e Hs. destruct (decide (x = e)) as [<-|He]; [exists (set_nl 0 ax); by rewrite lookup_insert_eq|].
    rewrite HT, is_Some_drop in Hs by done. apply D, (isdir_set A d ad (a_nlink ad - 1) e Had) in Hs as (b & Hb & Hbd).
    exists b. by rewrite lookup_insert_ne.
Qed.

(** ** Files *)

Section operations.
Context (io : bool).
Local Abbreviation sees := (sees io).
Implicit Types (R : list (Z * list Z)).

Lemma wp_link (Q : Z -> world X -> Prop) R w A T x a d m cnp :
  sees R w A T -> names_ok A T -> A !! x = Some a -> is_Some (A !! d) -> T !! d = Some m -> m !! cn_nameptr cnp = None ->
  (d, cn_nameptr cnp) ∈ R ->
  (forall R e w', sees R w' A T -> e <> 0 -> Q e w') ->
  (forall R w' t, sees R w' (<[x := set_nl (a_nlink a + 1) a]> A) (put T d (cn_nameptr cnp) (x, t)) -> a_nlink a < LINK_MAX -> Q 0 w') ->
  (forall R e w' t, io = false -> sees R w' A (put T d (cn_nameptr cnp) (x, t)) -> e <> 0 -> Q e w') ->
  wp (ext2_link x d cnp) Q w.
Proof.
  intros S N Ha Hd Hm Hn Hr HQe HQ HQio. unfold ext2_link. wp_steps. apply (wp_VTOI io _ _ _ _ _ _ _ S Ha). intros f Hf <-.
  pose proof (names_u16 _ _ _ _ N Ha) as E16. pose proof (names_nlink _ _ _ _ N Ha) as Hnl. cbn in E16, Hnl. rewrite E16.
  destruct (Z.leb_spec LINK_MAX (i_nlink (ip f))) as [|Hmax]; [apply wp_ret; by eapply HQe|].
  destruct (has_flag _ _); [apply wp_ret; by eapply HQe|]. wp_steps. apply (wp_add_nlink io _ _ _ _ _ _ _ _ S Ha). intros w1 S1.
  cbn [a_nlink attr_of] in S1. rewrite sintw_small in S1 by lia. set (a := attr_of f) in *. set (A1 := <[x := _]> A) in S1.
  assert (forall y, is_Some (A !! y) -> is_Some (A1 !! y)) as HA1.
  { intros y Hy. unfold A1. destruct (decide (x = y)) as [<-|]; [by rewrite lookup_insert_eq|by rewrite lookup_insert_ne]. }
  (* what an error after the first step leads to *)
  assert (forall R Q' w' T', sees R w' A1 T' -> (forall w'', sees R w'' A T' -> Q' tt w'') -> wp (add_nlink (-1) x) Q' w') as Hback.
  { intros R' Q' w' T' S' HQ'. eapply (wp_add_nlink io _ _ _ _ _ _ _ _ S' (lookup_insert_eq _ _ _)). intros w'' S''. apply HQ'.
    cbn [set_nl a_nlink] in S''. rewrite sintw_small in S'' by lia. unfold A1 in S''. rewrite insert_insert_eq in S''.
    unfold set_nl in S''. cbn in S''. replace (i_nlink (ip f) + 1 + -1) with (a_nlink a) in S'' by (cbn; lia).
    change (mkAttr _ _ _ _ _ _) with (set_nl (a_nlink a) a) in S''. rewrite set_nl_id, insert_id in S'' by done. done. }
  wp_steps. apply (wp_vupdate io _ _ _ _ _ _ _ S1); [apply HA1; by eexists|]. intros e w2 S2 He. wp_steps.
  destruct (Z.eqb_spec e 0) as [->|Hne].
  - eapply (wp_vdirenter io _ _ [] _ _ _ _ _ _ _ S2); [apply HA1; by eexists|by apply HA1|exact Hm|exact Hn|exact Hr|constructor| |].
    + intros e w3 t S3 He3. destruct (Z.eqb_spec e 0) as [->|Hne]; cbn [negb]; wp_steps.
      * by eapply (HQ _ _ t).
      * eapply (Hback _ _ _ _ S3). intros w4 S4. wp_steps. eapply (HQio _ _ _ t); [|done..]. destruct io; [|done]. by destruct Hne, He3.
    + intros e w3 S3 Hne. rewrite (proj2 (Z.eqb_neq e 0)) by done. cbn [negb]. wp_steps.
      eapply (Hback _ _ _ _ S3). intros w4 S4. wp_steps. by eapply HQe.
  - wp_steps. rewrite (proj2 (Z.eqb_neq e 0)) by done. cbn [negb]. wp_steps. eapply (Hback _ _ _ _ S2). intros w4 S4. wp_steps. by eapply HQe.
Qed.

Lemma wp_remove (Q : Z -> world X -> Prop) R w A T x a d cnp busy inuse :
  sees R w A T -> names_ok A T -> A !! x = Some a -> is_Some (A !! d) -> entry T d (cn_nameptr cnp) x -> 1 <= a_nlink a -> (d, cn_nameptr cnp) ∈ R ->
  (forall R e w', sees R w' A T -> e <> 0 -> Q e w') ->
  (forall R w', sees R w' (<[x := set_nl (a_nlink a - 1) a]> A) (drop_entry T d (cn_nameptr cnp)) -> Q 0 w') ->
  (forall R e w', io = false -> sees R w' A (drop_entry T d (cn_nameptr cnp)) -> e <> 0 -> Q e w') ->
  wp (ext2_remove x d cnp busy inuse) Q w.
Proof.
  intros S N Ha [ad Had] E Hnl Hr HQe HQ HQio. unfold ext2_remove. wp_steps. apply (wp_VTOI io _ _ _ _ _ _ _ S Ha). intros f Hf <-.
  wp_steps. apply (wp_VTOI io _ _ _ _ _ _ _ S Had). intros g Hg <-. pose proof (names_nlink _ _ _ _ N Ha) as Hmax. cbn in Hnl, Hmax.
  destruct (_ || _); [apply wp_ret; by eapply HQe|]. destruct (_ && _); [apply wp_ret; by eapply HQe|]. wp_steps.
  apply (wp_vdirremove io _ _ [] _ _ _ _ _ _ S ltac:(by eexists) E Hr ltac:(constructor)).
  - intros e w1 S1 He. destruct (Z.eqb_spec e 0) as [->|Hne]; wp_steps.
    + apply (wp_add_nlink io _ _ _ _ _ _ _ _ S1 Ha). intros w2 S2. wp_steps. cbn [a_nlink attr_of] in S2 |- *.
      rewrite sintw_small in S2 by lia. by eapply HQ.
    + eapply HQio; [|done..]. destruct io; [|done]. by destruct Hne, He.
  - intros e w1 S1 Hne _. rewrite (proj2 (Z.eqb_neq e 0)) by done. wp_steps. by eapply HQe.
Qed.

Lemma S_ISDIR_sgid m : S_ISDIR (Z.land m (Z.lnot ISGID)) = S_ISDIR m.
Proof. unfold S_ISDIR. by rewrite <- Z.land_assoc. Qed.

Lemma S_ISDIR_u16 m : S_ISDIR (u16 m) = S_ISDIR m.
Proof. unfold S_ISDIR, uintw. rewrite <- Z.land_ones, <- Z.land_assoc by lia. done. Qed.

(** Whether the mode asks for a directory; [ext2_makeinode] makes a regular file when no
    type is given. *)
Lemma S_ISDIR_reg m : Z.land m IFMT = 0 -> S_ISDIR (Z.lor m IFREG) = false.
Proof. intros E. unfold S_ISDIR. rewrite Z.land_lor_distr_l. change S_IFMT with IFMT. by rewrite E. Qed.

Lemma wp_makeinode (Q : Z * option Z -> world X -> Prop) R w A T mode d m cnp context :
  sees R w A T -> names_ok A T -> is_Some (A !! d) -> T !! d = Some m -> m !! cn_nameptr cnp = None -> S_ISDIR mode = false ->
  (d, cn_nameptr cnp) ∈ R ->
  (forall R e w', sees R w' A T -> e <> 0 -> Q (e, None) w') ->
  (forall R e w' x a, A !! x = None -> 0 < x -> a_number a = x -> a_dir a = false -> a_nlink a = 0 -> a_rename a = false -> a_look a = false ->
     sees R w' (<[x := a]> A) T -> e <> 0 -> Q (e, None) w') ->
  (forall R w' x a t, A !! x = None -> 0 < x -> a_number a = x -> a_dir a = false -> a_nlink a = 1 -> a_rename a = false -> a_look a = false ->
     sees R w' (<[x := a]> A) (put T d (cn_nameptr cnp) (x, t)) -> Q (0, Some x) w') ->
  (forall R e w' x a t, io = false -> A !! x = None -> 0 < x -> a_number a = x -> a_dir a = false -> a_nlink a = 0 ->
     sees R w' (<[x := a]> A) (put T d (cn_nameptr cnp) (x, t)) -> e <> 0 -> Q (e, None) w') ->
  wp (ext2_makeinode mode d cnp context) Q w.
Proof.
  intros S N [ad Had] Hm Hn Hdir Hr HQ0 HQe HQ HQio. unfold ext2_makeinode. wp_steps.
  apply (wp_VTOI io _ _ _ _ _ _ _ S Had). intros g0 _ _. cbv zeta. set (mode' := if Z.land mode IFMT =? 0 then _ else _).
  assert (S_ISDIR mode' = false) as Hdir'.
  { unfold mode'. destruct (Z.eqb_spec (Z.land mode IFMT) 0); [by apply S_ISDIR_reg|done]. }
  clearbody mode'. wp_steps. apply (wp_valloc io _ _ _ _ _ _ _ S).
  { intros e w1 S1 He. rewrite (proj2 (Z.eqb_neq e 0)) by done. cbn [negb]. wp_steps. by eapply HQ0. }
  intros x a w1 Hx Hpos A1 A2 A3 A4 S1. cbn [negb Z.eqb]. change (0 =? 0) with true. cbn [negb]. wp_steps.
  assert (x <> d) as Hxd by congruence.
  eapply (wp_VTOI io _ _ _ _ _ _ _ S1); [by rewrite lookup_insert_ne|]. intros g _ _. wp_steps. cbv zeta.
  set (md := if (_ : bool) then Z.land (u16 mode') _ else _).
  assert (S_ISDIR md = false) as Hmd.
  { unfold md. destruct (_ && _); [rewrite S_ISDIR_sgid|]; by rewrite S_ISDIR_u16. }
  clearbody md. set (fl := if cn_iswhiteout cnp then Z.lor (a_flags a) UF_OPAQUE else a_flags a).
  set (a1 := mkAttr x false 1 fl false false).
  apply (wp_upd io _ _ _ _ _ _ _ a1 _ S1 (lookup_insert_eq _ _ _)).
  { intros f Ef. subst a. cbn in A1, A2, A3, A4. unfold attr_of, a1, fl. cbn. rewrite A1, !has_flag_lor, A3, A4 by done.
    destruct (cn_iswhiteout cnp); cbn; by rewrite Hmd. }
  intros w2 S2. rewrite insert_insert_eq in S2. wp_steps. apply (wp_vupdate io _ _ _ _ _ _ _ S2); [by rewrite lookup_insert_eq|].
  intros e w3 S3 He3. wp_steps.
  (* after an error the links are given up *)
  assert (forall R (e : Z) (w' : world X) T', e <> 0 -> sees R w' (<[x := a1]> A) T' ->
    (forall w'', sees R w'' (<[x := set_nl 0 a1]> A) T' -> Q (e, None) w'') ->
    wp (if negb (e =? 0) then forget_inode x;; mret (e, None) else mret (0, Some x)) Q w') as Hforget.
  { intros R' e' w' T' Hne S' HQ'. rewrite (proj2 (Z.eqb_neq e' 0)) by done. cbn [negb]. wp_steps. unfold forget_inode.
    apply (wp_upd io _ _ _ _ _ _ _ (set_nl 0 a1) _ S' (lookup_insert_eq _ _ _)).
    - intros f Ef. unfold attr_of in Ef. injection Ef as E1 E2 E3 E4 E5 E6. unfold attr_of, set_nl. cbn.
      by rewrite !has_flag_lor, E1, E2, E4, E5, E6 by done.
    - intros w'' S''. rewrite insert_insert_eq in S''. wp_steps. by eapply HQ'. }
  destruct (Z.eqb_spec e 0) as [->|Hne]; cbn [negb].
  - eapply (wp_vdirenter io _ _ [] _ _ _ _ _ _ _ S3); [by rewrite lookup_insert_eq|by rewrite lookup_insert_ne|exact Hm|exact Hn|exact Hr|constructor| |].
    + intros e w4 t S4 He4. destruct (Z.eqb_spec e 0) as [->|Hne]; cbn [negb].
      * wp_steps. by eapply (HQ _ w4 x a1 t).
      * assert (io = false) as Hio by (destruct io; [by destruct Hne, He4|done]).
        pose proof (Hforget _ e w4 _ Hne S4) as Hf. rewrite (proj2 (Z.eqb_neq e 0)) in Hf by done. apply Hf.
        intros w5 S5. by eapply (HQio _ e w5 x (set_nl 0 a1) t).
    + intros e w4 S4 Hne. eapply (Hforget _ e w4 _ Hne S4). intros w5 S5. by eapply (HQe _ e w5 x (set_nl 0 a1)).
  - wp_steps. eapply (Hforget _ e w3 _ Hne S3). intros w5 S5. by eapply (HQe _ e w5 x (set_nl 0 a1)).
Qed.

(** ** Directories *)

Lemma lookup_same_or A x a y : is_Some (A !! y) -> is_Some (<[x := a : attr]> A !! y).
Proof. intros Hy. destruct (decide (x = y)) as [<-|]; [by rewrite lookup_insert_eq|by rewrite lookup_insert_ne]. Qed.

Lemma attr_create f k m uid gid fl : has_flag fl IN_RENAME = false -> has_flag fl IN_LOOK = false ->
  attr_of (set_ip (fun i => set_nlink k (set_mode m (set_owner uid gid i))) (set_flag fl f)) =
  mkAttr (i_number f) (S_ISDIR m) k (i_flags (ip f)) (has_flag (i_flag f) IN_RENAME) (has_flag (i_flag f) IN_LOOK).
Proof.
  intros H1 H2. unfold has_flag in H1, H2. apply negb_false_iff, Z.eqb_eq in H1, H2. unfold attr_of. cbn. by rewrite !has_flag_lor.
Qed.

Lemma S_ISDIR_mkdir m : S_ISDIR (u16 (Z.lor (Z.land m 0x1FF) IFDIR)) = true.
Proof.
  rewrite S_ISDIR_u16. unfold S_ISDIR. rewrite Z.land_lor_distr_l, <- Z.land_assoc. change (Z.land 0x1FF S_IFMT) with 0. by rewrite Z.land_0_r.
Qed.

Lemma attr_set_nlink f a k : attr_of f = a -> attr_of (set_flag IN_CHANGE (set_ip (set_nlink k) f)) = set_nl k a.
Proof. intros <-. unfold attr_of, set_nl. cbn. by rewrite !has_flag_lor. Qed.

Lemma attr_set_size f a k : attr_of f = a -> attr_of (set_flag IN_CHANGE (set_ip (Truncate.set_size k) f)) = a.
Proof. intros <-. unfold attr_of. cbn. by rewrite !has_flag_lor. Qed.

Lemma put_insert_ne T (d : Z) (n : list Z) (x : Z) (y : Z * Z) (m : dirmap) : x <> d -> put (<[x := m]> T) d n y = <[x := m]> (put T d n y).
Proof.
  intros Hxd. unfold put. rewrite lookup_insert_ne by done. destruct (T !! d); [|done]. by rewrite insert_insert_ne.
Qed.

(** A wrong byte order of the fields notwithstanding, the template shows the two entries. *)
Lemma template_shows ft ino parent len : shows (fill_template ino parent len (if ft : bool then mastertemplate else omastertemplate))
  (ino, if ft then EXT2_FT_DIR else EXT2_FT_UNKNOWN) (parent, if ft then EXT2_FT_DIR else EXT2_FT_UNKNOWN).
Proof. by destruct ft. Qed.

Lemma wp_vwrite_new (Q : Z -> world X -> Prop) R w A T d x y t :
  sees R w A T -> is_Some (A !! d) -> T !! d = None -> shows t x y -> Forall (fun p => p.1 <> d) R ->
  (forall w', sees R w' A (<[d := new_dir x.1 y.1 x.2 y.2]> T) -> Q 0 w') ->
  (forall e w' T', e <> 0 -> io = false -> sees R w' A T' -> (forall d', d' <> d -> T' !! d' = T !! d') -> Q e w') ->
  wp (vn_write_dir d t) Q w.
Proof.
  intros (<- & <- & Hio & HR) Hd HT Hs Hne HQ HQe. eapply wp_mono; [by eapply law_write_new|]. intros e w' (H1 & HK & H2 & H3 & H4).
  assert (Forall (fun p => ready (env w') p.1 p.2) R) as HR'.
  { apply (keeps_all R (elsewhere d) (env w)); [done..|]. apply Forall_forall. intros p Hp. split; [done|]. by apply (proj1 (Forall_forall _ _) Hne). }
  destruct (decide (e = 0)) as [->|He].
  - apply HQ. split_and!; [done|by apply H3|naive_solver|done].
  - apply (HQe e w' (tree (env w'))); [done| |split_and!; naive_solver|by apply H4]. destruct io; [|done]. naive_solver.
Qed.

Lemma wp_mkdir (Q : Z * option Z -> world X -> Prop) R w A T ft bs fbs mode d ad m cnp context :
  io = true -> sees R w A T -> names_ok A T -> A !! d = Some ad -> T !! d = Some m -> m !! cn_nameptr cnp = None ->
  bs <= fbs -> (d, cn_nameptr cnp) ∈ R ->
  (forall R e w', sees R w' A T -> e <> 0 -> Q (e, None) w') ->
  (forall R e w' x a T', A !! x = None -> 0 < x -> a_number a = x -> a_dir a = true -> a_nlink a = 0 -> a_rename a = false -> a_look a = false ->
     sees R w' (<[x := a]> A) T' -> (forall e, e <> x -> T' !! e = T !! e) -> e <> 0 -> Q (e, None) w') ->
  (forall R w' x a t tx td, A !! x = None -> 0 < x -> a_number a = x -> a_dir a = true -> a_nlink a = 2 -> a_rename a = false -> a_look a = false ->
     a_flags a = (if cn_iswhiteout cnp then UF_OPAQUE else 0) -> a_nlink ad < LINK_MAX ->
     sees R w' (<[x := a]> (<[d := set_nl (a_nlink ad + 1) ad]> A)) (<[x := new_dir x d tx td]> (put T d (cn_nameptr cnp) (x, t))) -> Q (0, Some x) w') ->
  wp (ext2_mkdir ft bs fbs mode d cnp context) Q w.
Proof.
  intros Hio S0 N Had Hm Hn Hbs Hr0 HQ0 HQe HQ. unfold ext2_mkdir.
  assert (sees [(d, cn_nameptr cnp)] w A T) as S by (apply (sees_some _ R); [done|by repeat constructor]). clear S0 Hr0 R.
  assert ((d, cn_nameptr cnp) ∈ [(d, cn_nameptr cnp)]) as Hr by by left. wp_steps.
  apply (wp_VTOI io _ _ _ _ _ _ _ S Had). intros g _ Eg. pose proof (names_u16 _ _ _ _ N Had) as E16.
  pose proof (names_nlink _ _ _ _ N Had) as Hnl. replace (i_nlink (ip g)) with (a_nlink ad) by by rewrite <- Eg.
  rewrite E16. destruct (Z.leb_spec LINK_MAX (a_nlink ad)) as [|Hmax]; [apply wp_ret; by eapply HQ0|]. cbv zeta. wp_steps.
  apply (wp_valloc io _ _ _ _ _ _ _ S).
  { intros e w1 S1 He. rewrite (proj2 (Z.eqb_neq e 0)) by done. cbn [negb]. wp_steps. by eapply HQ0. }
  intros x a w1 Hx Hpos A1 A2 A3 A4 S1. change (0 =? 0) with true. cbn [negb]. wp_steps.
  assert (x <> d) as Hxd by congruence.
  assert (T !! x = None) as HTx.
  { apply eq_None_not_Some. intros Hs. destruct (no_dom _ _ N x Hs) as (b & Hb & _). congruence. }
  set (fl := if cn_iswhiteout cnp then Z.lor (a_flags a) UF_OPAQUE else a_flags a).
  set (a1 := mkAttr x true 2 fl false false).
  apply (wp_upd io _ _ _ _ _ _ _ a1 _ S1 (lookup_insert_eq _ _ _)).
  { intros f Ef. subst a. cbn in A1, A2, A3, A4. unfold attr_of, a1, fl. cbn [attr_of a_flags]. 
    pose proof (S_ISDIR_mkdir mode) as Hd. destruct (cn_iswhiteout cnp); cbn [ip set_ip set_flag i_mode set_nlink set_mode set_owner set_iflags i_nlink i_flags i_number Alloc.i_flag];
      by rewrite Hd, A1, !has_flag_lor, A3, A4. }
  intros w2 S2. rewrite insert_insert_eq in S2. wp_steps. apply (wp_vupdate io _ _ _ _ _ _ _ S2); [by rewrite lookup_insert_eq|].
  intros e w3 S3 He3. rewrite (He3 Hio). change (0 =? 0) with true. cbn [negb]. wp_steps.
  eapply (wp_add_nlink io _ _ _ _ _ _ _ _ S3); [by rewrite lookup_insert_ne|]. intros w4 S4. rewrite sintw_small in S4 by lia.
  wp_steps. apply (wp_vupdate io _ _ _ _ _ _ _ S4); [by rewrite lookup_insert_eq|]. intros e4 w5 S5 He5. rewrite (He5 Hio).
  change (0 =? 0) with true. cbn [negb]. wp_steps. clear e He3 e4 He5.
  rewrite insert_insert_ne in S5 by done. set (ad1 := set_nl (a_nlink ad + 1) ad) in *. set (Ad := <[d := ad1]> A) in *.
  apply (wp_VTOI io _ _ _ _ _ _ _ S5 (lookup_insert_eq _ _ _)). intros f1 _ Ef1. wp_steps.
  eapply (wp_VTOI io _ _ _ _ _ _ ad1 S5); [unfold Ad; by rewrite lookup_insert_ne, lookup_insert_eq|]. intros g1 _ Eg1. wp_steps.
  replace (i_number f1) with x by (change (x = a_number (attr_of f1)); by rewrite Ef1).
  replace (i_number g1) with d by (change (d = a_number (attr_of g1)); rewrite Eg1; symmetry; apply (names_attr _ _ _ _ N Had)).
  apply (wp_vwrite_new _ _ _ _ _ _ _ _ _ S5 ltac:(by rewrite lookup_insert_eq) HTx (template_shows _ _ _ _)); [by repeat constructor| |intros; congruence].
  cbn [fst snd]. intros w6 S6. change (0 =? 0) with true. cbn [negb]. wp_steps. rewrite (proj2 (Z.ltb_ge _ _)) by lia.
  apply (wp_upd io _ _ _ _ _ _ _ a1 _ S6 (lookup_insert_eq _ _ _) (fun f E => attr_set_size f _ _ E)). intros w7 S7.
  rewrite insert_insert_eq in S7. wp_steps.
  eapply (wp_vdirenter io _ _ [] _ _ _ _ _ _ _ S7); [by rewrite lookup_insert_eq|unfold Ad; apply lookup_same_or; by rewrite lookup_insert_eq|by rewrite lookup_insert_ne|exact Hn|exact Hr|constructor| |].
  - intros e w8 t S8 He8. rewrite (He8 Hio). change (0 =? 0) with true. cbn [negb]. wp_steps.
    change (0 =? 0) with true. cbn [negb]. wp_steps. rewrite put_insert_ne in S8 by done.
    eapply (HQ _ w8 x a1); [done..| |done|exact S8]. unfold a1, fl. cbn. rewrite A2. by destruct (cn_iswhiteout cnp).
  - intros e w8 S8 Hne. rewrite (proj2 (Z.eqb_neq e 0)) by done. cbn [negb]. wp_steps.
    eapply (wp_add_nlink io _ _ _ _ _ _ ad1 _ S8); [unfold Ad; by rewrite lookup_insert_ne, lookup_insert_eq|]. intros w9 S9. wp_steps.
    rewrite (proj2 (Z.eqb_neq e 0)) by done. cbn [negb]. wp_steps. unfold forget_inode.
    eapply (wp_upd io _ _ _ _ _ _ a1 _ _ S9); [rewrite lookup_insert_ne, lookup_insert_eq by done; done|intros f Ef; by apply attr_set_nlink|].
    intros w10 S10. wp_steps. eapply (HQe _ e w10 x (set_nl 0 a1)); [exact Hx|exact Hpos|done..| | |exact Hne].
    2:{ intros e' He'. by rewrite lookup_insert_ne. }
    + rewrite (insert_insert_ne _ d x) in S10 by done. rewrite insert_insert_eq in S10. unfold Ad in S10. rewrite insert_insert_eq in S10.
      unfold ad1 in S10. cbn [set_nl a_nlink] in S10. rewrite sintw_small in S10 by lia. unfold set_nl in S10 at 2. cbn in S10.
      replace (a_nlink ad + 1 + -1) with (a_nlink ad) in S10 by lia. change (mkAttr _ (a_dir ad) _ _ _ _) with (set_nl (a_nlink ad) ad) in S10.
      rewrite set_nl_id, (insert_id A d ad) in S10 by done. done.
Qed.
End operations.
End Spec.
