(* ===== verification/Rename.v ===== *)
(** * Removing directories, the way to the root, and renaming

    What [ext2_rmdir], [ext2_checkpath_nolock] and [ext2_rename] do to attributes and tree:
    the continuation of [Vnopspec]. *)

From S2P Require Import Prelude Nametree Fs Inode Ialloc Alloc Bmap Fballoc Dirent Truncate Vnops Vnoplaws Vnopspec.

Section Dirs.
Context `{SDK : Sdk} {X : Type} {OPS : VnOps X} {LAWS : VnLaws X}.
Context (HM : 2 <= LINK_MAX < 2 ^ 15).
Context (io : bool) (R : list (Z * list Z)).
Implicit Types (w : world X) (A : gmap Z attr) (T : gmap Z dirmap).
Local Abbreviation sees := (sees io R).

(** ** Flags of the inode *)

Lemma attr_set_look f a : attr_of f = a -> attr_of (set_flag IN_LOOK f) = set_lk true a.
Proof. intros <-. unfold attr_of, set_lk. cbn. by rewrite has_flag_lor, has_flag_set. Qed.

Lemma attr_clear_look f a : attr_of f = a -> attr_of (clear_flag IN_LOOK f) = set_lk false a.
Proof. intros <-. unfold attr_of, set_lk. cbn. by rewrite has_flag_keep, has_flag_clear. Qed.

Lemma attr_set_rename f a : attr_of f = a -> attr_of (set_flag IN_RENAME f) = set_rn true a.
Proof. intros <-. unfold attr_of, set_rn. cbn. by rewrite has_flag_set, has_flag_lor. Qed.

Lemma attr_clear_rename f a : attr_of f = a -> attr_of (clear_flag IN_RENAME f) = set_rn false a.
Proof. intros <-. unfold attr_of, set_rn. cbn. by rewrite has_flag_clear, has_flag_keep. Qed.

Lemma attr_add f a k : attr_of f = a -> attr_of (set_ip (fun i => set_nlink (i16 (i_nlink i + k)) i) f) = set_nl (i16 (a_nlink a + k)) a.
Proof. by intros <-. Qed.

Lemma set_lk_id a : a_look a = false -> set_lk false (set_lk true a) = a.
Proof. by destruct a; cbn; intros ->. Qed.

(** ** [ext2_rmdir] *)

Lemma wp_rmdir (Q : Z -> world X -> Prop) w A T x d ax ad cnp :
  sees w A T -> (d, cn_nameptr cnp) ∈ R -> names_ok A T -> entry T d (cn_nameptr cnp) x -> ~ dots (cn_nameptr cnp) ->
  A !! x = Some ax -> a_dir ax = true -> a_nlink ax <> 0 -> A !! d = Some ad -> a_nlink ad <> 0 -> d <> x ->
  (forall e w', Vnoplaws.sees io [] w' A T -> e <> 0 ->
     (io = true -> a_nlink ax = 2 -> empty_of T x d -> has_flag (a_flags ad) APPEND = false ->
        has_flag (a_flags ax) (Z.lor NOUNLINK (Z.lor IMMUTABLE APPEND)) = false -> False) -> Q e w') ->
  (forall e w' T', a_nlink ax = 2 -> empty_of T x d -> (io = true -> e = 0) ->
     (forall e, e <> x -> T' !! e = drop_entry T d (cn_nameptr cnp) !! e) ->
     Vnoplaws.sees io [] w' (<[x := set_nl 0 ax]> (<[d := set_nl (a_nlink ad - 1) ad]> A)) T' -> Q e w') ->
  (forall e w', io = false -> e <> 0 -> Vnoplaws.sees io [] w' A (drop_entry T d (cn_nameptr cnp)) -> Q e w') ->
  wp (ext2_rmdir x d cnp) Q w.
Proof.
  intros S Hr N E Hn Hax Hdx Hnx Had Hnd Hdx' HQe HQ HQio. unfold ext2_rmdir. rewrite (proj2 (Z.eqb_neq d x)) by done. wp_steps.
  destruct (names_attr _ _ _ _ N Hax) as (X1 & X2 & X3 & X4). destruct (names_attr _ _ _ _ N Had) as (D1 & D2 & D3 & D4).
  pose proof (names_nlink _ _ _ _ N Had) as Hnl.
  apply (wp_VTOI io _ _ _ _ _ _ _ S Hax). intros f Hf Ef. replace (has_flag (i_flag f) IN_LOOK) with false by (rewrite <- X4, <- Ef; done).
  wp_steps. apply (wp_upd io _ _ _ _ _ _ _ _ _ S Hax (fun f E => attr_set_look f _ E)). intros w1 S1. wp_steps.
  set (ax1 := set_lk true ax) in *. set (A1 := <[x := ax1]> A) in *.
  assert (A1 !! d = Some ad) as Had1 by (unfold A1; by rewrite lookup_insert_ne).
  assert (A1 !! x = Some ax1) as Hax1 by apply lookup_insert_eq.
  (* the end, on which every path comes *)
  assert (forall R e w' Ad T', Vnoplaws.sees io R w' (<[x := ax1]> Ad) T' -> (forall w'', Vnoplaws.sees io R w'' (<[x := ax]> Ad) T' -> Q e w'') -> wp (rmdir_out x e) Q w') as Hout.
  { intros R' e w' Ad T' S' HQ'. unfold rmdir_out. wp_steps.
    apply (wp_upd io _ _ _ _ _ _ _ _ _ S' (lookup_insert_eq _ _ _) (fun f E => attr_clear_look f _ E)). intros w'' S''.
    rewrite insert_insert_eq in S''. unfold ax1 in S''. rewrite set_lk_id in S'' by done. wp_steps. by apply HQ'. }
  assert (forall R' e w', e <> 0 -> Vnoplaws.sees io R' w' A1 T ->
     (io = true -> a_nlink ax = 2 -> empty_of T x d -> has_flag (a_flags ad) APPEND = false ->
        has_flag (a_flags ax) (Z.lor NOUNLINK (Z.lor IMMUTABLE APPEND)) = false -> False) -> wp (rmdir_out x e) Q w') as Herr.
  { intros R' e w' Hne S' Hwhy. apply (Hout _ e w' A T S'). intros w'' S''. rewrite (insert_id A x ax Hax) in S''.
    apply HQe; [|done..]. by apply (sees_some _ R'). }
  apply (wp_VTOI io _ _ _ _ _ _ _ S1 Had1). intros g Hg Eg. wp_steps.
  replace (i_nlink (ip f)) with (a_nlink ax) by by rewrite <- Ef.
  replace (i_number g) with d by (rewrite <- D1, <- Eg; done).
  destruct (Z.eqb_spec (a_nlink ax) 2) as [H2|H2]; cbn [negb]; [|wp_steps; eapply Herr; [done..|]; intros; congruence].
  assert (is_Some (T !! x)) as HTx by by eapply names_dir.
  apply (wp_dirempty io _ _ _ _ _ x _ S1 ltac:(by eexists) HTx). intros b w2 S2 Hb Hb'. destruct b; cbn [negb]; [|eapply Herr; [done..|]; intros Hio _ He; by specialize (Hb' Hio He)].
  specialize (Hb eq_refl). wp_steps. apply (wp_VTOI io _ _ _ _ _ _ _ S2 Hax1). intros f2 _ Ef2. wp_steps.
  apply (wp_VTOI io _ _ _ _ _ _ _ S2 Had1). intros g2 _ Eg2.
  replace (i_flags (ip g2)) with (a_flags ad) by by rewrite <- Eg2.
  replace (i_flags (ip f2)) with (a_flags ax) by (change (a_flags ax) with (a_flags ax1); by rewrite <- Ef2).
  destruct (_ || _) eqn:Efl; [eapply Herr; [done..|]; intros _ _ _ H1 H2'; by rewrite H1, H2' in Efl|]. wp_steps.
  apply (wp_vdirremove io _ _ [] _ _ _ d _ _ S2 ltac:(by eexists) E Hr ltac:(constructor)); cycle 1.
  { intros e w3 S3 Hne Hio. rewrite (proj2 (Z.eqb_neq e 0)) by done. cbn [negb]. eapply Herr; [done..|]. intros; congruence. }
  intros e w3 S3 He. destruct (Z.eqb_spec e 0) as [->|Hne]; cbn [negb].
  2:{ apply (Hout _ e w3 A _ S3). intros w4 S4. rewrite (insert_id A x ax Hax) in S4. apply HQio; [|done..].
      destruct io; [|done]. by destruct Hne, He. }
  wp_steps. apply (wp_add_nlink io _ _ _ _ _ _ _ _ S3 Had1). intros w4 S4. rewrite sintw_small in S4 by lia. wp_steps.
  apply (wp_upd io _ _ _ _ _ x ax1 (set_nl (i16 (a_nlink ax1 + -2)) ax1) _ S4); [by rewrite lookup_insert_ne|intros h Eh; by apply attr_add|].
  intros w5 S5. wp_steps. change (a_nlink ax1) with (a_nlink ax) in S5. rewrite H2 in S5. change (i16 (2 + -2)) with 0 in S5.
  eapply (wp_truncate io _ _ [] _ _ _ _ S5); [by rewrite lookup_insert_eq|constructor|]. intros e w6 T' S6 He6 HT'.
  unfold rmdir_out. wp_steps.
  apply (wp_upd io _ _ _ _ _ _ _ _ _ S6 (lookup_insert_eq _ _ _) (fun f E => attr_clear_look f _ E)). intros w7 S7. wp_steps.
  apply (HQ e w7 T' H2 Hb He6 HT').
  rewrite insert_insert_eq in S7. unfold A1 in S7. rewrite (insert_insert_ne _ d x), insert_insert_eq in S7 by done.
  replace (set_lk false (set_nl 0 ax1)) with (set_nl 0 ax) in S7; [done|].
  unfold ax1, set_lk, set_nl. cbn. by rewrite X4.
Qed.

(** ** The way to the root *)

(** The result, for the directories [l] on the way up. *)
Definition checked (x : Z) (l : list Z) (e : Z) : Prop :=
  (e = 0 /\ x ∉ l /\ x <> ROOTINO) \/ (e <> 0 /\ (io = true -> e = EINVAL /\ (x ∈ l \/ x = ROOTINO))).

(** The counts do not matter for the way up. *)
Definition similar (A A' : gmap Z attr) : Prop :=
  forall i a, A !! i = Some a -> exists a', A' !! i = Some a' /\ a_number a' = a_number a /\ a_dir a' = a_dir a.

Lemma similar_insert A x a a' : A !! x = Some a -> a_number a' = a_number a -> a_dir a' = a_dir a -> similar A (<[x := a']> A).
Proof.
  intros Ha H1 H2 i b Hb. destruct (decide (x = i)) as [<-|]; [|exists b; by rewrite lookup_insert_ne].
  exists a'. rewrite lookup_insert_eq. rewrite Ha in Hb. injection Hb as <-. done.
Qed.

Lemma wp_checkpath_loop (Q : Z -> world X -> Prop) fuel w A0 A T x d l :
  sees w A T -> names_ok A0 T -> similar A0 A -> up_path (restrict A0 T) d (d :: l) -> (length (d :: l) <= fuel)%nat ->
  (forall e w', sees w' A T -> checked x l e -> Q e w') ->
  wp (checkpath_loop fuel x d) Q w.
Proof.
  intros S N Sim. pose proof N as [W D]. revert w S d l. induction fuel as [|fuel IH]; intros w S d l U Hf HQ; [cbn in Hf; lia|].
  inversion U as [|? p ? Hd E U']; subst. cbn [checkpath_loop].
  pose proof (entry_dir _ _ _ _ E) as Hsd. pose proof (ns_dot _ _ _ W d Hsd) as Edot. apply restrict_entry in Edot as [_ Edot].
  pose proof E as E'. apply restrict_entry in E' as [_ E']. destruct (D d (entry_dir _ _ _ _ E')) as (a0 & Ha0 & Hda0).
  destruct (Sim _ _ Ha0) as (a & Ha & _ & Hda). rewrite Hda0 in Hda.
  wp_steps. apply (wp_VTOI io _ _ _ _ _ _ _ S Ha). intros f _ Ef. replace (S_ISDIR (i_mode (ip f))) with true by (rewrite <- Hda, <- Ef; done).
  cbn [negb]. wp_steps. apply (wp_read_dir io _ _ _ _ _ d _ _ S ltac:(by eexists) Edot E').
  intros e t w1 tx ty S1 He Ht _. destruct (Z.eqb_spec e 0) as [->|Hne]; cbn [negb].
  2:{ wp_steps. apply HQ; [done|]. right. split; [done|]. intros Hio. by destruct Hne, He. }
  destruct (Ht eq_refl) as (_ & _ & _ & _ & _ & Hino & _ & Hm). rewrite Hm. cbn [fst] in Hino. rewrite Hino. clear Hino Ht.
  destruct (Z.eqb_spec p x) as [->|Hpx].
  { wp_steps. apply HQ; [done|]. right. split; [done|]. intros _. split; [done|]. inversion U' as [|? ? ? ? ? ?]; subst; [by right|left; by left]. }
  destruct (Z.eqb_spec p ROOTINO) as [->|Hpr].
  { wp_steps. apply HQ; [done|]. left. inversion U'; subst; [|done]. split_and!; [done|apply not_elem_of_nil|by symmetry]. }
  inversion U' as [|? q l' Hp E2 U2]; subst; [done|].
  assert (is_Some (A !! p)) as Hp'.
  { apply restrict_entry in E2 as [_ E2]. destruct (D p (entry_dir _ _ _ _ E2)) as (b & Hb & _). apply Sim in Hb as (b' & Hb & _). by exists b'. }
  wp_steps. apply (wp_vget io _ _ _ _ _ _ S1 Hp'). intros e w2 S2 He2. destruct (Z.eqb_spec e 0) as [->|Hne]; cbn [negb].
  2:{ wp_steps. apply HQ; [done|]. right. split; [done|]. intros Hio. by destruct Hne, He2. }
  apply (IH _ S2 p l' U'); [cbn in Hf |- *; lia|]. intros e w3 S3 C. apply HQ; [done|]. unfold checked in *.
  rewrite not_elem_of_cons, elem_of_cons. destruct C as [(-> & C1 & C2)|[C1 C2]].
  - left. split_and!; [done|congruence|done..].
  - right. split; [done|]. intros Hio. destruct (C2 Hio) as [-> [C3|C3]]; split; [done|left; by right|done|by right].
Qed.

(** From the directory [d], whose way up is [l]. *)
Lemma wp_checkpath (Q : Z -> world X -> Prop) w A0 A T x d l :
  sees w A T -> names_ok A0 T -> similar A0 A -> is_Some (A0 !! x) -> up_path (restrict A0 T) d l -> is_Some (A0 !! d) ->
  (forall e w', sees w' A T ->
     (e = 0 /\ x ∉ l /\ x <> d /\ x <> ROOTINO) \/
     (e <> 0 /\ (io = true -> e = EEXIST /\ x = d \/ e = EINVAL /\ x <> d /\ (x ∈ l \/ x = ROOTINO))) -> Q e w') ->
  wp (ext2_checkpath_nolock x d) Q w.
Proof.
  intros S N Sim [ax0 Hx0] U [ad0 Hd0] HQ. destruct (Sim _ _ Hx0) as (ax & Hx & Nx & _). destruct (Sim _ _ Hd0) as (ad & Hd & Nd & _).
  unfold ext2_checkpath_nolock. wp_steps.
  apply (wp_VTOI io _ _ _ _ _ _ _ S Hx). intros f _ Ef. wp_steps. apply (wp_VTOI io _ _ _ _ _ _ _ S Hd). intros g _ Eg. wp_steps.
  replace (i_number f) with x by (change (x = a_number (attr_of f)); rewrite Ef, Nx; symmetry; apply (names_attr _ _ _ _ N Hx0)).
  replace (i_number g) with d by (change (d = a_number (attr_of g)); rewrite Eg, Nd; symmetry; apply (names_attr _ _ _ _ N Hd0)).
  destruct (Z.eqb_spec d x) as [->|Hdx]; [apply wp_ret, HQ; [done|]; right; split; [done|by left]|].
  destruct (Z.eqb_spec d ROOTINO) as [->|Hdr].
  { apply wp_ret, HQ; [done|]. left. inversion U; subst; [|done]. split_and!; [done|apply not_elem_of_nil|by symmetry..]. }
  inversion U as [|? p l' Hr E U']; subst; [done|]. apply (wp_checkpath_loop _ _ _ _ _ _ _ _ _ S N Sim U).
  - pose proof (up_path_NoDup _ _ _ U) as ND. rewrite <- (size_list_to_set (C := gset Z) _ ND).
    apply le_S. destruct S as (EA & _). rewrite <- (map_size_fmap attr_of (inodes w)). change (attr_of <$> inodes w) with (attrs w). rewrite EA, <- size_dom.
    apply subseteq_size. etrans; [by apply (up_path_dom _ _ _ U)|]. intros y Hy. apply elem_of_dom in Hy as [m Hm]. apply elem_of_dom.
    rewrite restrict_lookup in Hm. destruct (decide (alive A0 y)) as [Hal|]; [|done].
    apply alive_is_Some in Hal as [b Hb]. apply Sim in Hb as (b' & Hb & _). by exists b'.
  - intros e w' S' C. apply HQ; [done|]. unfold checked in C. rewrite not_elem_of_cons, elem_of_cons.
    destruct C as [(-> & C1 & C2)|[C1 C2]].
    + left. split_and!; [done|congruence|done|congruence|done].
    + right. split; [done|]. intros Hio. destruct (C2 Hio) as [-> [C3|C3]]; right; split_and!; [done|congruence|left; by right|done|congruence|by right].
Qed.
End Dirs.

(** ** The invariant after a directory has moved *)

Section Move.
Context `{SDK : Sdk} {X : Type} {OPS : VnOps X} {LAWS : VnLaws X}.
Context (HM : 2 <= LINK_MAX < 2 ^ 15).
Implicit Types (w : world X) (A : gmap Z attr) (T : gmap Z dirmap).

(** The tree after the entry [fn] of [fd] has become the entry [tn] of [td], with the new
    ".." if the parent is another one. *)
Definition moved T (fd : Z) (fn : list Z) (td : Z) (tn : list Z) (x t : Z) (dd : option Z) : gmap Z dirmap :=
  let T := put T td tn (x, t) in
  drop_entry (match dd with Some ty => put T x dotdot (td, ty) | None => T end) fd fn.

Lemma is_Some_moved T fd fn td tn x t dd e : is_Some (moved T fd fn td tn x t dd !! e) <-> is_Some (T !! e).
Proof. unfold moved. rewrite is_Some_drop. destruct dd; by rewrite !is_Some_put. Qed.

Lemma entry_moved T fd fn td tn x t dd m e k y :
  entry T fd fn x -> ~ dots fn -> T !! td = Some m -> m !! tn = None -> ~ dots tn -> is_Some (T !! x) -> entry T x dotdot fd ->
  (dd = None <-> td = fd) ->
  entry (moved T fd fn td tn x t dd) e k y <->
  (e = td /\ k = tn /\ y = x) \/ (e = x /\ k = dotdot /\ y = td) \/ ((e, k) <> (fd, fn) /\ (e, k) <> (x, dotdot) /\ entry T e k y).
Proof.
  intros E Hfn Htd Htn Hdt Hx Eup Hdd. assert (is_Some (T !! td)) as Hstd by by exists m.
  assert ((td, tn) <> (fd, fn)) as N1 by (intros [= -> ->]; by destruct (entry_none _ _ _ _ x Htd Htn)).
  assert ((td, tn) <> (x, dotdot)) as N2 by (intros [= _ ->]; apply Hdt; by right).
  assert ((x, dotdot) <> (fd, fn)) as N3 by (intros [= _ <-]; apply Hfn; by right).
  assert (forall y, (e, k) = (td, tn) -> ~ entry T e k y) as N4 by (intros y' [= -> ->]; by apply (entry_none _ _ _ m)).
  unfold moved. rewrite entry_drop. destruct dd as [ty|].
  - rewrite entry_put, entry_put by (done || by rewrite is_Some_put). split.
    + intros (H1 & [(-> & -> & ->)|(H2 & [(-> & -> & ->)|(H3 & H4)])]); [right; by left|by left|right; right; done].
    + intros [(-> & -> & ->)|[(-> & -> & ->)|(H1 & H2 & H3)]].
      * split; [done|]. right. split; [done|]. by left.
      * split; [done|]. by left.
      * split; [done|]. right. split; [done|]. right. split; [|done]. intros H. by apply (N4 y H).
  - assert (td = fd) as -> by by apply Hdd. rewrite entry_put by done. split.
    + intros (H1 & [(-> & -> & ->)|(H2 & H3)]); [by left|].
      destruct (decide ((e, k) = (x, dotdot))) as [[= -> ->]|]; [|right; right; done].
      right; left. rewrite (entry_det _ _ _ _ _ H3 Eup). done.
    + intros [(-> & -> & ->)|[(-> & -> & ->)|(H1 & H2 & H3)]].
      * split; [done|]. by left.
      * split; [done|]. right. split; [|done]. by intros H.
      * split; [done|]. right. split; [|done]. intros H. by apply (N4 y H).
Qed.

Lemma refs_moved T fd fn td tn x t dd m i :
  entry T fd fn x -> ~ dots fn -> T !! td = Some m -> m !! tn = None -> ~ dots tn -> entry T x dotdot fd ->
  (dd = None <-> td = fd) ->
  refs (moved T fd fn td tn x t dd) i = refs T i + one i td - one i fd.
Proof.
  intros E Hfn Htd Htn Hdt Eup Hdd. assert (is_Some (T !! td)) as Hstd by by exists m.
  assert ((td, tn) <> (fd, fn)) as N1 by (intros [= -> ->]; by destruct (entry_none _ _ _ _ x Htd Htn)).
  assert ((x, dotdot) <> (td, tn)) as N2 by (intros [= _ <-]; apply Hdt; by right).
  assert ((fd, fn) <> (x, dotdot)) as N3 by (intros [= _ ->]; apply Hfn; by right).
  set (T1 := put T td tn (x, t)).
  assert (forall e k y, (e, k) <> (td, tn) -> entry T e k y -> entry T1 e k y) as Hkeep.
  { intros e k y Hne Ee. apply entry_put; [done|]. by right. }
  assert (refs T1 i = refs T i + one i x) as HR1 by (unfold T1; rewrite (refs_put _ _ _ _ m), Htn by done; cbn; lia).
  unfold moved. fold T1. destruct dd as [ty|].
  - rewrite (refs_drop _ _ _ x) by (apply entry_put; [eapply entry_dir; by apply Hkeep|right; split; [done|by apply Hkeep]]).
    destruct (Hkeep _ _ _ N2 Eup) as (mx & tx & Hmx & Hdx). rewrite (refs_put _ _ _ _ mx), Hdx, HR1 by done. cbn. lia.
  - assert (td = fd) as -> by by apply Hdd. rewrite (refs_drop _ _ _ x) by (by apply Hkeep). rewrite HR1. lia.
Qed.

Lemma names_move A T A' x fd fn td tn m t dd :
  names_ok A T -> entry T fd fn x -> ~ dots fn -> alive A fd -> isdir A x -> T !! td = Some m -> m !! tn = None -> alive A td ->
  (forall l, up_path (restrict A T) td l -> x ∉ l) ->
  (forall a, A !! td = Some a -> td <> fd -> a_nlink a < LINK_MAX) ->
  (forall i, A' !! i = (fun a => set_nl (a_nlink a + one i td - one i fd) a) <$> A !! i) ->
  (dd = None <-> td = fd) ->
  names_ok A' (moved T fd fn td tn x t dd).
Proof.
  intros N E Hfn Halfd Hx Htd Htn Haltd Hpath Hmax HA Hdd. pose proof N as [W D].
  assert (entry (restrict A T) fd fn x) as Er by by apply restrict_entry.
  assert (restrict A T !! td = Some m) as Htdr by by rewrite restrict_lookup, decide_True.
  pose proof (ns_free_name _ _ _ W _ _ _ Htdr Htn) as Hdt. pose proof (ns_live _ _ _ W _ _ _ Er Hx) as Hxr.
  destruct (ns_down _ _ _ W _ _ _ Er Hfn Hx) as [Eup Hroot].
  assert (alive A x) as Halx by (destruct Hxr as [mx Hmx]; rewrite restrict_lookup in Hmx; by destruct (decide (alive A x))).
  assert (forall e, alive A' e <-> alive A e) as Hal.
  { intros e. unfold alive. rewrite HA. destruct (A !! e) as [a|] eqn:Ha; [|done]. cbn.
    destruct (ns_links _ _ _ W _ _ Ha) as [Hr _]. pose proof (refs_nonneg (restrict A T) e). unfold one.
    destruct (decide (fd = e)) as [Ee|], (decide (td = e)) as [Et|]; [lia| | |lia].
    - assert (2 <= a_nlink a); [|lia]. rewrite Hr. subst e. apply (refs_two _ fd dot x dotdot).
      + apply (ns_dot _ _ _ W). by eapply entry_dir.
      + done.
      + intros [= _ E2]; by unfold dot, dotdot in E2.
    - assert (a_nlink a <> 0); [|lia]. subst e. unfold alive in Haltd. by rewrite Ha in Haltd. }
  split.
  - assert (restrict A' (moved T fd fn td tn x t dd) = moved (restrict A T) fd fn td tn x t dd) as HRm.
    { rewrite (restrict_ext A' A _ (moved T fd fn td tn x t dd) Hal) by done. unfold moved. rewrite restrict_drop by done.
      destruct dd; by rewrite !restrict_put by done. }
    apply (ns_move _ _ _ W x fd fn td tn m); try done.
    + intros e k y. rewrite HRm. apply (entry_moved _ _ _ _ _ _ _ _ m); done.
    + intros e. by rewrite HRm, is_Some_moved.
    + intros i. rewrite HRm. by apply (refs_moved _ _ _ _ _ _ _ _ m).
  - intros e He. apply is_Some_moved in He. destruct (D e He) as (a & Ha & Hd). eexists. rewrite HA, Ha. by split.
Qed.
End Move.
