(* ===== verification/Renamespec.v ===== *)
(** * Renaming

    The steps of [ext2_rename] of [Vnops], one after the other, on a device that works, and
    the whole operation. *)

From S2P Require Import Prelude Nametree Fs Inode Ialloc Alloc Bmap Fballoc Dirent Truncate Vnops Vnoplaws Vnopspec Rename.

Section Rename.
Context `{SDK : Sdk} {X : Type} {OPS : VnOps X} {LAWS : VnLaws X}.
Context (HM : 2 <= LINK_MAX < 2 ^ 15).
Implicit Types (w : world X) (A B : gmap Z attr) (T : gmap Z dirmap) (R : list (Z * list Z)).
Local Abbreviation sees := (sees true).

(** The inode [x] that is renamed has one link more meanwhile, and if it is a directory
    the mark IN_RENAME. *)
Definition renaming (a : attr) : attr := set_nl (a_nlink a + 1) (if a_dir a then set_rn true a else a).

(** Steps on other inodes. *)
Lemma wp_add_other (Q : unit -> world X -> Prop) R w B T x ax z a k :
  sees R w (<[x := ax]> B) T -> z <> x -> B !! z = Some a -> - 2 ^ 15 <= a_nlink a + k < 2 ^ 15 ->
  (forall w', sees R w' (<[x := ax]> (<[z := set_nl (a_nlink a + k) a]> B)) T -> Q tt w') -> wp (add_nlink k z) Q w.
Proof.
  intros S Hz Ha Hk HQ. eapply (wp_add_nlink true _ _ _ _ _ z a k S); [by rewrite lookup_insert_ne|].
  intros w' S'. apply HQ. rewrite sintw_small in S' by lia. by rewrite insert_insert_ne in S' by done.
Qed.

Lemma wp_upd_other (Q : unit -> world X -> Prop) R w B T x ax z a a' g :
  sees R w (<[x := ax]> B) T -> z <> x -> B !! z = Some a -> (forall f, attr_of f = a -> attr_of (g f) = a') ->
  (forall w', sees R w' (<[x := ax]> (<[z := a']> B)) T -> Q tt w') -> wp (upd z g) Q w.
Proof.
  intros S Hz Ha Hg HQ. eapply (wp_upd true _ _ _ _ _ z a a' g S); [by rewrite lookup_insert_ne|done|].
  intros w' S'. apply HQ. by rewrite insert_insert_ne in S' by done.
Qed.

Lemma attr_change f a : attr_of f = a -> attr_of (set_flag IN_CHANGE f) = a.
Proof. intros <-. unfold attr_of. cbn. by rewrite !has_flag_lor. Qed.

(** The end after an error: everything is as before. *)
Lemma wp_bad (Q : Z -> world X -> Prop) R w B T x ax e :
  sees R w (<[x := renaming ax]> B) T -> B !! x = Some ax -> a_rename ax = false -> 0 <= a_nlink ax < LINK_MAX ->
  (forall w', sees R w' B T -> Q e w') -> wp (rename_bad x e) Q w.
Proof.
  intros S Hx Hr Hn HQ. unfold rename_bad. wp_steps.
  apply (wp_upd true _ _ _ _ _ x _ ax _ S (lookup_insert_eq _ _ _)).
  - intros f Ef. unfold attr_of in *. cbn. unfold renaming in Ef. rewrite !has_flag_lor, has_flag_clear, has_flag_keep by done.
    destruct ax as [n d l fl r lk]. cbn in *. subst r. destruct d; injection Ef as -> -> Enl -> Er ->; rewrite Enl;
      rewrite sintw_small by lia; f_equal; lia.
  - intros w' S'. rewrite insert_insert_eq, (insert_id B x ax Hx) in S'. wp_steps. by apply HQ.
Qed.

(** 2) without a target. *)
Lemma wp_rename_enter (Q : Z -> world X -> Prop) R R' w B T x ax td atd m cnp (doing : bool) (newparent : Z) (moving : bool) :
  sees R w (<[x := ax]> B) T -> (td, cn_nameptr cnp) ∈ R -> others R td R' -> B !! td = Some atd -> td <> x -> 0 <= a_nlink atd <= LINK_MAX -> T !! td = Some m -> m !! cn_nameptr cnp = None ->
  doing && negb (newparent =? 0) = moving ->
  (forall R e w', sees R w' (<[x := ax]> B) T -> e <> 0 -> Q e w') ->
  (forall w' t, (moving = true -> a_nlink atd < LINK_MAX) ->
     sees R' w' (<[x := ax]> (if moving then <[td := set_nl (a_nlink atd + 1) atd]> B else B)) (put T td (cn_nameptr cnp) (x, t)) -> Q 0 w') ->
  wp (rename_enter x td cnp doing newparent) Q w.
Proof.
  intros S Hr HR' Htd Hne Hnl Hm Hn Emov HQe HQ. unfold rename_enter. wp_steps.
  eapply (wp_VTOI true _ _ _ _ _ td atd S); [by rewrite lookup_insert_ne|]. intros g _ Eg. rewrite Emov.
  replace (i_nlink (ip g)) with (a_nlink atd) by by rewrite <- Eg. rewrite uintw_small by lia. wp_steps.
  set (B1 := if moving then _ else B) in *.
  assert (is_Some (<[x := ax]> B1 !! td)) as Htd1.
  { rewrite lookup_insert_ne by done. unfold B1. destruct moving; [by rewrite lookup_insert_eq|by exists atd]. }
  assert (forall w1, (moving = true -> a_nlink atd < LINK_MAX) -> sees R w1 (<[x := ax]> B1) T ->
    wp (error ← ext2_direnter x td cnp;
        if negb (error =? 0) then
          (if moving then add_nlink (-1) td;; ext2_update td true;; mret tt else mret tt);; mret error
        else mret 0) Q w1) as Hrest.
  { intros w1 Hmax S1. wp_steps. eapply (wp_vdirenter true _ _ R' _ _ _ _ _ _ _ S1); [by rewrite lookup_insert_eq|done|exact Hm|exact Hn|exact Hr|exact HR'| |].
    - intros e w2 t S2 He. rewrite (He eq_refl). change (0 =? 0) with true. cbn [negb]. wp_steps. by apply (HQ w2 t).
    - intros e w2 S2 Hne2. rewrite (proj2 (Z.eqb_neq e 0)) by done. cbn [negb]. wp_steps. unfold B1 in S2. destruct moving; [|wp_steps; by eapply HQe].
      specialize (Hmax eq_refl). wp_steps.
      apply (wp_add_other _ _ _ _ _ _ _ td (set_nl (a_nlink atd + 1) atd) (-1) S2 Hne (lookup_insert_eq _ _ _)); [cbn; lia|].
      intros w3 S3. rewrite insert_insert_eq in S3. cbn [set_nl a_nlink] in S3.
      replace (set_nl (a_nlink atd + 1 + -1) (set_nl (a_nlink atd + 1) atd)) with atd in S3
        by (replace (a_nlink atd + 1 + -1) with (a_nlink atd) by lia; by destruct atd).
      rewrite (insert_id B td atd Htd) in S3. wp_steps. apply (wp_vupdate true _ _ _ _ _ _ _ S3); [rewrite lookup_insert_ne by done; by exists atd|].
      intros e' w4 S4 _. wp_steps. by eapply HQe. }
  destruct moving.
  - destruct (Z.leb_spec LINK_MAX (a_nlink atd)) as [|Hmax]; [wp_steps; by eapply HQe|]. wp_steps.
    apply (wp_add_other _ _ _ _ _ _ _ td atd 1 S Hne Htd); [lia|]. intros w1 S1. wp_steps.
    apply (wp_vupdate true _ _ _ _ _ _ _ S1 Htd1). intros e w2 S2 He. rewrite (He eq_refl). change (0 =? 0) with true. cbn [negb]. by apply Hrest.
  - wp_steps. change (0 =? 0) with true. cbn [negb]. by apply Hrest.
Qed.

Lemma keep_elsewhere (y : Z) R : Forall (fun p => p.1 <> y) R -> others R y R.
Proof. intros H. apply Forall_forall. intros p Hp. split; [done|]. by apply (proj1 (Forall_forall _ _) H). Qed.

(** 2) over the target [y]. *)
Lemma wp_rename_replace (Q : Z -> world X -> Prop) R R' w B T x ax td atd y ay cnp (doing : bool) (newparent : Z) :
  sees R w (<[x := ax]> B) T -> (td, cn_nameptr cnp) ∈ R ->
  Forall (fun p => p ∈ R /\ (p.1 <> td \/ p.2 <> cn_nameptr cnp /\ exists z, entry T p.1 p.2 z)) R' ->
  (a_dir ay = true -> empty_of T y td -> Forall (fun p => p.1 <> y) R') ->
  is_Some (B !! x) -> a_number ax = x -> B !! td = Some atd -> a_number atd = td -> td <> x -> 1 <= a_nlink atd <= LINK_MAX ->
  B !! y = Some ay -> a_number ay = y -> y <> x -> 1 <= a_nlink ay <= LINK_MAX -> (a_dir ay = true -> 2 <= a_nlink ay /\ is_Some (T !! y)) ->
  entry T td (cn_nameptr cnp) y -> ~ dots (cn_nameptr cnp) -> a_dir atd = true ->
  (forall R e w', sees R w' (<[x := ax]> B) T -> e <> 0 -> Q e w') ->
  (forall w' t, doing = false -> a_dir ay = false -> y <> td ->
     sees R' w' (<[x := ax]> (<[y := set_nl (a_nlink ay - 1) ay]> B)) (put T td (cn_nameptr cnp) (x, t)) -> Q 0 w') ->
  (forall w' t T', doing = true -> a_dir ay = true -> a_nlink ay = 2 -> empty_of T y td -> y <> td ->
     (forall e, e <> y -> T' !! e = put T td (cn_nameptr cnp) (x, t) !! e) ->
     sees R' w' (<[x := ax]> (<[y := set_nl 0 ay]> (if newparent =? 0 then <[td := set_nl (a_nlink atd - 1) atd]> B else B))) T' -> Q 0 w') ->
  wp (rename_replace x td y cnp doing newparent) Q w.
Proof.
  intros S Hr HR' HRy Hbx Nx Htd Nd Hdx Hnd Hy Ny Hyx Hny Hdy E Hdots Hdd HQe HQf HQd. unfold rename_replace. wp_steps.
  eapply (wp_VTOI true _ _ _ _ _ x ax S); [apply lookup_insert_eq|]. intros f _ Ef. wp_steps.
  eapply (wp_VTOI true _ _ _ _ _ td atd S); [by rewrite lookup_insert_ne|]. intros g _ Eg. wp_steps.
  assert (<[x := ax]> B !! y = Some ay) as Hy1 by by rewrite lookup_insert_ne.
  apply (wp_VTOI true _ _ _ _ _ y ay S Hy1). intros h _ Eh.
  replace (i_number f) with x by (rewrite <- Nx, <- Ef; done). replace (i_number h) with y by (rewrite <- Ny, <- Eh; done).
  replace (i_number g) with td by (rewrite <- Nd, <- Eg; done). rewrite (proj2 (Z.eqb_neq y x)) by done. wp_steps.
  replace (S_ISDIR (i_mode (ip h))) with (a_dir ay) by by rewrite <- Eh.
  assert (forall w1, sees R w1 (<[x := ax]> B) T -> doing = a_dir ay ->
    (a_dir ay = true -> a_nlink ay = 2 /\ empty_of T y td) ->
    wp (error ← ext2_dirrewrite_nolock td x cnp;
      if negb (error =? 0) then mret error
      else
        (if doing && (newparent =? 0) then add_nlink (-1) td else mret tt);;
        upd y (set_ip (fun i => set_nlink (i16 (i_nlink i - 1)) i));;
        (if doing then
           upd y (set_ip (fun i => set_nlink (i16 (i_nlink i - 1)) i));;
           x ← VTOI y;
           if negb (i_nlink (ip x) =? 0) then panic "ext2_rename: linked directory"
           else ext2_truncate y 0;; mret tt
         else mret tt);;
        upd y (set_flag IN_CHANGE);;
        mret 0) Q w1) as Hrest.
  { intros w1 S1 Edir Hempty.
    assert (y <> td) as Hyd.
    { intros ->. rewrite Hy in Htd. injection Htd as ->. destruct (Hempty Hdd) as [_ He].
      destruct (He _ _ E) as [H|[H _]]; apply Hdots; [by left|by right]. }
    wp_steps. eapply (wp_vdirrewrite true _ _ R' _ _ _ td x cnp y S1); [rewrite lookup_insert_ne by done; by exists atd|by rewrite lookup_insert_eq|done|done|exact Hr|exact HR'| |].
    2:{ intros e w2 S2 Hne Hio. done. }
    intros e w2 t S2 He. rewrite (He eq_refl). change (0 =? 0) with true. cbn [negb]. wp_steps. clear e He.
    set (T1 := put T td _ _) in *. rewrite Edir. destruct (a_dir ay) eqn:Eay; cbn [andb].
    - destruct (Hempty eq_refl) as [H2 He]. destruct (Hdy eq_refl) as [_ HTy].
      set (B1 := if newparent =? 0 then <[td := set_nl (a_nlink atd - 1) atd]> B else B) in *.
      assert (B1 !! y = Some ay) as Hy2 by (unfold B1; destruct (newparent =? 0); [by rewrite lookup_insert_ne|done]).
      assert (forall w3, sees R' w3 (<[x := ax]> B1) T1 -> wp (upd y (set_ip (fun i => set_nlink (i16 (i_nlink i - 1)) i));;
        (upd y (set_ip (fun i => set_nlink (i16 (i_nlink i - 1)) i));;
         x ← VTOI y;
         if negb (i_nlink (ip x) =? 0) then panic "ext2_rename: linked directory" else ext2_truncate y 0;; mret tt);;
        upd y (set_flag IN_CHANGE);; mret 0) Q w3) as Hend.
      { intros w3 S3. wp_steps. apply (wp_upd_other _ _ _ _ _ _ _ y ay _ _ S3 Hyx Hy2 (fun f E => attr_add f _ (-1) E)). intros w4 S4. wp_steps.
        apply (wp_upd_other _ _ _ _ _ _ _ y _ _ _ S4 Hyx (lookup_insert_eq _ _ _) (fun f E => attr_add f _ (-1) E)). intros w5 S5. wp_steps.
        rewrite insert_insert_eq in S5. cbn [set_nl a_nlink] in S5. rewrite H2 in S5. change (i16 (i16 (2 + -1) + -1)) with 0 in S5.
        change (set_nl 0 (set_nl _ ay)) with (set_nl 0 ay) in S5.
        eapply (wp_VTOI true _ _ _ _ _ y (set_nl 0 ay) S5); [rewrite lookup_insert_ne by done; apply lookup_insert_eq|]. intros h2 _ Eh2.
        replace (i_nlink (ip h2)) with 0 by (change (i_nlink (ip h2)) with (a_nlink (attr_of h2)); by rewrite Eh2).
        change (0 =? 0) with true. cbn [negb]. wp_steps.
        eapply (wp_truncate true _ _ R' _ _ _ y S5); [rewrite lookup_insert_ne by done; by rewrite lookup_insert_eq|by apply keep_elsewhere, HRy|].
        intros e w6 T' S6 _ HT'. wp_steps.
        apply (wp_upd_other _ _ _ _ _ _ _ y (set_nl 0 ay) _ _ S6 Hyx (lookup_insert_eq _ _ _) (fun f E => attr_change f _ E)). intros w7 S7. wp_steps.
        rewrite insert_insert_eq in S7. by apply (HQd w7 t T'). }
      destruct (newparent =? 0).
      + apply (wp_add_other _ _ _ _ _ _ _ td atd (-1) S2 Hdx Htd); [lia|]. intros w3 S3. apply (Hend w3). exact S3.
      + apply wp_ret, (Hend w2). exact S2.
    - wp_steps. apply (wp_upd_other _ _ _ _ _ _ _ y ay _ _ S2 Hyx Hy (fun f E => attr_add f _ (-1) E)). intros w3 S3. wp_steps.
      apply (wp_upd_other _ _ _ _ _ _ _ y _ _ _ S3 Hyx (lookup_insert_eq _ _ _) (fun f E => attr_change f _ E)). intros w4 S4. wp_steps.
      rewrite insert_insert_eq, sintw_small in S4 by lia. apply (HQf w4 t); [done..|]. by replace (a_nlink ay - 1) with (a_nlink ay + -1) by lia. }
  destruct (a_dir ay) eqn:Eay.
  - destruct (Hdy eq_refl) as [H2 HTy]. wp_steps. eapply (wp_dirempty true _ _ _ _ _ y td S ltac:(by eexists) HTy).
    intros b w1 S1 Hb _. wp_steps. apply (wp_VTOI true _ _ _ _ _ y ay S1 Hy1). intros h1 _ Eh1.
    replace (i_nlink (ip h1)) with (a_nlink ay) by by rewrite <- Eh1.
    destruct b; cbn [negb orb]; [|wp_steps; rewrite (proj2 (Z.eqb_neq ENOTEMPTY 0)) by done; cbn [negb]; wp_steps; by eapply HQe].
    destruct (Z.ltb_spec 2 (a_nlink ay)) as [|H2']; [wp_steps; rewrite (proj2 (Z.eqb_neq ENOTEMPTY 0)) by done; cbn [negb]; wp_steps; by eapply HQe|].
    destruct doing eqn:Eax; cbn [negb]; [|wp_steps; rewrite (proj2 (Z.eqb_neq ENOTDIR 0)) by done; cbn [negb]; wp_steps; by eapply HQe].
    wp_steps. change (0 =? 0) with true. cbn [negb]. apply Hrest; [done..|]. intros _. split; [lia|by apply Hb].
  - destruct doing eqn:Eax; [wp_steps; rewrite (proj2 (Z.eqb_neq EISDIR 0)) by done; cbn [negb]; wp_steps; by eapply HQe|].
    wp_steps. change (0 =? 0) with true. cbn [negb]. by apply Hrest.
Qed.

(** 3) The source is unlinked. *)
Lemma wp_write_back (Q : Z -> world X -> Prop) R w A T d m x y z t :
  sees R w A T -> Forall (fun p => p.1 <> d) R -> is_Some (A !! d) -> T !! d = Some m -> m !! dot = Some x -> m !! dotdot = Some y -> shows t x y ->
  (forall w', sees R w' A (put T d dotdot (z, y.2)) -> Q 0 w') -> wp (vn_write_dir d (set_dotdot_ino z t)) Q w.
Proof.
  intros (<- & <- & Hio & HR) Hne Hd HT Hx Hy Hs HQ. eapply wp_mono; [by eapply law_write_back|]. intros e w' (H1 & HK & H2 & H3 & H4).
  destruct (H2 (Hio eq_refl)) as [H5 ->]. apply HQ. split_and!; [done|by apply H3|done|]. eapply keeps_all; [done..|by apply keep_elsewhere].
Qed.

Lemma wp_rename_dotdot (Q : unit -> world X -> Prop) R rdonly w A T x p z :
  sees R w A T -> Forall (fun p => p.1 <> x) R -> is_Some (A !! x) -> entry T x dot x -> entry T x dotdot p ->
  (forall w' ty, sees R w' A (put T x dotdot (z, ty)) -> Q tt w') -> wp (rename_dotdot rdonly x z) Q w.
Proof.
  intros S Hne Hx E1 E2 HQ. unfold rename_dotdot. wp_steps. apply (wp_read_dir true _ _ _ _ _ x _ _ S Hx E1 E2).
  intros e t w1 tx ty S1 He Ht (m & Hm & Hdx & Hdy). rewrite (He eq_refl) in *. change (0 =? 0) with true. cbn [negb].
  specialize (Ht eq_refl). pose proof Ht as (_ & _ & _ & _ & _ & _ & _ & Hmg). rewrite Hmg. wp_steps.
  apply (wp_write_back _ _ _ _ _ _ m _ _ _ _ S1 Hne Hx Hm Hdx Hdy Ht). intros w2 S2. wp_steps. by apply (HQ w2 ty).
Qed.

Lemma renaming_back ax f :
  attr_of f = renaming ax -> 0 <= a_nlink ax < LINK_MAX -> a_rename ax = false ->
  attr_of (clear_flag IN_RENAME (set_flag IN_CHANGE (set_ip (fun i => set_nlink (i16 (i_nlink i + -1)) i) f))) = ax.
Proof.
  intros Ef Hn Hr. unfold attr_of in *. cbn. unfold renaming in Ef. rewrite has_flag_clear, has_flag_keep, has_flag_lor by done.
  destruct ax as [n d l fl r lk]. cbn in *. subst r. destruct d; injection Ef as -> -> Enl -> Er ->; rewrite Enl;
    rewrite sintw_small by lia; f_equal; lia.
Qed.

Lemma wp_rename_unlink (Q : Z -> world X -> Prop) R rdonly w B T x ax fd afd cnp td (moving : bool) newparent :
  sees R w (<[x := renaming ax]> B) T -> (fd, cn_nameptr cnp) ∈ R -> B !! x = Some ax -> a_rename ax = false -> 0 <= a_nlink ax < LINK_MAX ->
  is_Some (B !! fd) -> (moving = true -> B !! fd = Some afd) -> fd <> x -> 1 <= a_nlink afd <= LINK_MAX -> entry T fd (cn_nameptr cnp) x ->
  a_dir ax && negb (newparent =? 0) = moving -> (moving = true -> newparent = td /\ exists p, entry T x dot x /\ entry T x dotdot p) ->
  (forall w' dd, (dd = None <-> moving = false) ->
     sees [] w' (if moving then <[fd := set_nl (a_nlink afd - 1) afd]> B else B)
       (drop_entry (match dd with Some ty => put T x dotdot (td, ty) | None => T end) fd (cn_nameptr cnp)) -> Q 0 w') ->
  wp (rename_unlink rdonly x fd cnp (a_dir ax) newparent) Q w.
Proof.
  intros S0 Hin0 Hx Hr Hn Hsfd Hfd Hne Hnl E Emov Hmov HQ. unfold rename_unlink. rewrite Emov.
  set (R1 := [(fd, cn_nameptr cnp)]). assert (sees R1 w (<[x := renaming ax]> B) T) as S by (apply (sees_some _ R); [done|by repeat constructor]).
  assert ((fd, cn_nameptr cnp) ∈ R1) as Hin by by left. wp_steps.
  assert (forall w1 T1 B1, sees R1 w1 (<[x := renaming ax]> B1) T1 -> B1 !! x = Some ax -> is_Some (B1 !! fd) -> entry T1 fd (cn_nameptr cnp) x ->
    (forall w', sees [] w' B1 (drop_entry T1 fd (cn_nameptr cnp)) -> Q 0 w') ->
    wp (error ← ext2_dirremove fd cnp; (if error =? 0 then add_nlink (-1) x else mret tt);; upd x (clear_flag IN_RENAME);; mret error) Q w1) as Hrest.
  { intros w1 T1 B1 S1 Hx1 Hfd1 E1 HQ1. wp_steps.
    apply (wp_vdirremove true _ _ [] _ _ _ fd _ x S1); [by rewrite lookup_insert_ne|done|exact Hin|constructor| |done].
    intros e w2 S2 He. rewrite (He eq_refl). change (0 =? 0) with true. wp_steps. unfold add_nlink, upd. wp_steps.
    eapply (wp_VTOI true _ _ _ _ _ x _ S2 (lookup_insert_eq _ _ _)). intros f Hf Ef. wp_steps. unfold VTOI. wp_steps.
    eapply wp_access; [apply lookup_insert_eq|]. wp_steps. apply HQ1. destruct S2 as (EA & ET & Hio & HR). split_and!; [|done..].
    unfold attrs in EA |- *. cbn. rewrite insert_insert_eq, fmap_insert, EA, insert_insert_eq.
    rewrite (renaming_back ax) by done. by apply insert_id. }
  destruct moving.
  - destruct (Hmov eq_refl) as (-> & p & E1 & E2). specialize (Hfd eq_refl). wp_steps.
    apply (wp_add_other _ _ _ _ _ _ _ fd afd (-1) S Hne Hfd); [lia|]. intros w1 S1. wp_steps.
    apply (wp_rename_dotdot _ _ _ _ _ _ _ p _ S1); [by constructor|by rewrite lookup_insert_eq|done|done|]. intros w2 ty S2.
    apply (Hrest _ _ _ S2).
    + by rewrite lookup_insert_ne.
    + by rewrite lookup_insert_eq.
    + apply entry_put; [by eapply entry_dir|]. right. split; [congruence|done].
    + intros w' S'. apply (HQ w' (Some ty)); [done|]. exact S'.
  - apply wp_ret. apply (Hrest _ _ _ S Hx); [done..|]. intros w' S'. by apply (HQ w' None).
Qed.

(** ** The whole operation *)

(** What the kernel passes: the name [fn] of [fd] is [x], and [tvp] is what the name [tn]
    of [td] is, if it is there; neither name is "." or "..". *)
Record rename_args A T (fd : Z) (fn : list Z) (x : Z) (td : Z) (tn : list Z) (tvp : option Z) (afd atd ax : attr) : Prop := {
  ra_names : names_ok A T;
  ra_from : entry T fd fn x;
  ra_fn : ~ dots fn;
  ra_tn : ~ dots tn;
  ra_fd : A !! fd = Some afd /\ a_nlink afd <> 0 /\ a_dir afd = true;
  ra_td : A !! td = Some atd /\ a_nlink atd <> 0 /\ a_dir atd = true;
  ra_x : A !! x = Some ax;
  ra_to : match tvp with None => exists m, T !! td = Some m /\ m !! tn = None | Some y => entry T td tn y end;
}.

(** A directory that gets another parent. *)
Definition moving (fd td : Z) (ax : attr) : bool := a_dir ax && negb (fd =? td).

(** The attributes that a renaming leaves, with the target [y] and its attributes. *)
Definition renamed_attrs A (fd td : Z) (afd atd ax : attr) (target : option (Z * attr)) : gmap Z attr :=
  match target with
  | None => if moving fd td ax then <[fd := set_nl (a_nlink afd - 1) afd]> (<[td := set_nl (a_nlink atd + 1) atd]> A) else A
  | Some (y, ay) =>
      if a_dir ax then
        if moving fd td ax then <[fd := set_nl (a_nlink afd - 1) afd]> (<[y := set_nl 0 ay]> A)
        else <[y := set_nl 0 ay]> (<[td := set_nl (a_nlink atd - 1) atd]> A)
      else <[y := set_nl (a_nlink ay - 1) ay]> A
  end.

(** When it succeeds: the attributes, and the tree outside of a directory that was replaced. *)
Record renamed A T fd fn x td tn tvp afd atd ax A' T' : Prop := {
  rn_target : match tvp with
              | None => A' = renamed_attrs A fd td afd atd ax None
              | Some y => exists ay, A !! y = Some ay /\ y <> x /\ y <> td /\ a_dir ay = a_dir ax /\
                  (a_dir ay = true -> a_nlink ay = 2 /\ empty_of T y td) /\ A' = renamed_attrs A fd td afd atd ax (Some (y, ay))
              end;
  rn_tree : exists t dd, (dd = None <-> moving fd td ax = false) /\
      forall e, (forall y, tvp = Some y -> a_dir ax = true -> e <> y) -> T' !! e = moved T fd fn td tn x t dd !! e;
  rn_max : a_nlink ax < LINK_MAX;
  rn_parent : moving fd td ax = true -> (tvp = None -> a_nlink atd < LINK_MAX) /\
    x <> td /\ forall l, up_path (restrict A T) td l -> x ∉ l;
}.

Section whole.
Context (A : gmap Z attr) (T : gmap Z dirmap) (fd : Z) (fcnp : componentname) (x td : Z) (tcnp : componentname) (tvp : option Z).
Context (afd atd ax : attr).
Local Abbreviation fn := (cn_nameptr fcnp).
Local Abbreviation tn := (cn_nameptr tcnp).
Context (Args : rename_args A T fd fn x td tn tvp afd atd ax).

Lemma rename_facts : fd <> x /\ a_number afd = fd /\ a_number atd = td /\ a_number ax = x /\ 0 < fd /\ 0 < td /\
  a_rename ax = false /\ 0 <= a_nlink ax /\ 1 <= a_nlink afd <= LINK_MAX /\ 1 <= a_nlink atd <= LINK_MAX /\ alive A fd /\ alive A td.
Proof.
  destruct Args as [N E Hfn Htn (Hfd & Hfl & Hfdir) (Htd & Htl & Htdir) Hx Hto]. pose proof N as [W D].
  destruct (names_attr _ _ _ _ N Hfd) as (F1 & F2 & _). destruct (names_attr _ _ _ _ N Htd) as (T1 & T2 & _).
  destruct (names_attr _ _ _ _ N Hx) as (X1 & X2 & X3 & _). pose proof (names_nlink _ _ _ _ N Hfd). pose proof (names_nlink _ _ _ _ N Htd).
  pose proof (names_nlink _ _ _ _ N Hx). assert (alive A fd) as Hal by (unfold alive; by rewrite Hfd).
  split_and!; try done; try lia; [|unfold alive; by rewrite Htd].
  intros ->. assert (entry (restrict A T) x fn x) as Er by by apply restrict_entry.
  assert (isdir A x) as Hd by (exists ax; split; [done|]; congruence).
  destruct (ns_down _ _ _ W _ _ _ Er Hfn Hd) as [Eup Hr].
  destruct (ns_rooted _ _ _ W x (entry_dir _ _ _ _ Er)) as [l U]. pose proof (up_path_NoDup _ _ _ U) as ND.
  inversion U as [|? p l' _ E2 U2]; subst; [done|]. rewrite (entry_det _ _ _ _ _ E2 Eup) in U2.
  rewrite (up_path_det _ _ _ _ U2 U) in ND. apply NoDup_cons in ND as [ND _]. apply ND. by left.
Qed.

(** The target, if there is one. *)
Lemma target_facts y : tvp = Some y -> exists ay, A !! y = Some ay /\ a_number ay = y /\ 1 <= a_nlink ay <= LINK_MAX /\
  (a_dir ay = true -> 2 <= a_nlink ay /\ is_Some (T !! y)).
Proof.
  intros ->. destruct Args as [N E Hfn Htn (Hfd & Hfl & Hfdir) (Htd & Htl & Htdir) Hx Hto]. pose proof N as [W D].
  assert (alive A td) as Hal by (unfold alive; by rewrite Htd). assert (entry (restrict A T) td tn y) as Er by by apply restrict_entry.
  destruct (ns_entry _ _ _ W _ _ _ Er) as [ay Hay]. exists ay. destruct (names_attr _ _ _ _ N Hay) as (Y1 & _).
  destruct (ns_links _ _ _ W _ _ Hay) as [Hr Hm]. pose proof (refs_pos _ _ _ _ Er). split_and!; [done..|lia|done|].
  intros Hd. split; [by apply (ns_two_links _ _ _ W td tn y)|]. assert (isdir A y) as Hyd by by exists ay.
  pose proof (ns_live _ _ _ W _ _ _ Er Hyd) as [my Hmy]. rewrite restrict_lookup in Hmy. destruct (decide (alive A y)); [by exists my|done].
Qed.

(** The number of the new parent, for a directory that gets one. *)
Definition newparent : Z := if negb ((if a_dir ax then fd else 0) =? td) then td else 0.

(** The directory is not on the way up from its new parent. *)
Definition clear_way : Prop := moving fd td ax = true -> x <> td /\ forall l, up_path (restrict A T) td l -> x ∉ l.

Lemma newparent_moving : a_dir ax && negb (newparent =? 0) = moving fd td ax /\ (moving fd td ax = true -> newparent = td).
Proof.
  destruct rename_facts as (_ & _ & _ & _ & _ & Ptd & _). unfold newparent, moving. destruct (a_dir ax); [|done]. cbn [andb].
  destruct (Z.eqb_spec fd td); cbn [negb]; [done|]. by rewrite (proj2 (Z.eqb_neq td 0)) by lia.
Qed.

Lemma moving_dots : moving fd td ax = true -> entry T x dot x /\ entry T x dotdot fd.
Proof.
  destruct rename_facts as (_ & _ & _ & _ & _ & _ & _ & _ & _ & _ & Alfd & _). destruct Args as [[W D] E Hfn _ _ _ Hx _].
  intros Hm. unfold moving in Hm. apply andb_true_iff in Hm as [Hm _]. assert (isdir A x) as Hxdir by by exists ax.
  assert (entry (restrict A T) fd fn x) as Er by by apply restrict_entry.
  split; [|by destruct (ns_down _ _ _ W _ _ _ Er Hfn Hxdir) as [[_ E2]%restrict_entry _]]. pose proof (ns_live _ _ _ W _ _ _ Er Hxdir) as Hs.
  by apply (ns_dot _ _ _ W), restrict_entry in Hs as [_ Hs].
Qed.

Lemma way_td : clear_way -> td <> x.
Proof.
  destruct rename_facts as (Hfdx & _). destruct Args as [_ _ _ _ _ (Htd & _ & Htdir) Hx _]. intros Hc Ex.
  rewrite Ex, Hx in Htd. injection Htd as Eax. assert (moving fd td ax = true) as Hm; [|by destruct (Hc Hm)].
  unfold moving. rewrite Eax, Htdir, Ex. cbn [andb]. by rewrite (proj2 (Z.eqb_neq _ _)).
Qed.

Lemma renaming_same : a_number (renaming ax) = a_number ax /\ a_dir (renaming ax) = a_dir ax.
Proof. unfold renaming. by destruct (a_dir ax) eqn:E'. Qed.

Lemma wp_renaming_bad (Q : Z -> world X -> Prop) R w e :
  a_nlink ax < LINK_MAX -> (forall R e w', sees R w' A T -> e <> 0 -> Q e w') -> sees R w (<[x := renaming ax]> A) T -> e <> 0 -> wp (rename_bad x e) Q w.
Proof.
  intros Hmax HQe S' Hne. destruct rename_facts as (_ & _ & _ & _ & _ & _ & Hrn & Hxn & _). destruct Args as [_ _ _ _ _ _ Hx _].
  apply (wp_bad _ _ _ _ _ _ _ _ S' Hx Hrn); [lia|]. intros w'' S''. by eapply HQe.
Qed.

(** 1) The flags, the link that is added, and the way up from the new parent. *)
Lemma wp_rename_prepare (Q : Z -> world X -> Prop) R rdonly w :
  sees R w A T ->
  (forall R e w', sees R w' A T -> e <> 0 -> Q e w') ->
  (tvp = Some x -> forall w', sees R w' A T -> Q 0 w') ->
  (tvp <> Some x -> a_nlink ax < LINK_MAX -> clear_way -> forall w', sees R w' (<[x := renaming ax]> A) T ->
     wp (error ← (match tvp with
                  | None => rename_enter x td tcnp (a_dir ax) newparent
                  | Some xp => rename_replace x td xp tcnp (a_dir ax) newparent
                  end);
         if negb (error =? 0) then rename_bad x error else rename_unlink rdonly x fd fcnp (a_dir ax) newparent) Q w') ->
  wp (ext2_rename rdonly fd x fcnp td tvp tcnp) Q w.
Proof.
  intros S HQe HQs HQ. destruct rename_facts as (Hfdx & Nfd & Ntd & Nx & Pfd & Ptd & Hrn & Hxn & Lfd & Ltd & Alfd & Altd).
  pose proof wp_renaming_bad as Hbad.
  pose proof Args as [N E Hfn Htn (Hfd & Hfl & Hfdir) (Htd & Htl & Htdir) Hx Hto]. pose proof N as [W D].
  pose proof target_facts as TF. unfold ext2_rename. wp_steps.
  (* the flags of the target *)
  assert (forall Q', (forall b : bool, Q' b w) -> wp (match tvp with
             | Some t => x ← VTOI t; dp ← VTOI td;
                 mret (has_flag (i_flags (ip x)) (Z.lor NOUNLINK (Z.lor IMMUTABLE APPEND)) || has_flag (i_flags (ip dp)) APPEND)
             | None => mret false end) Q' w) as Hflags.
  { intros Q' HQ'. destruct tvp as [y|] eqn:Et; [|by apply wp_ret]. destruct (TF y eq_refl) as (ay & Hay & _). wp_steps.
    apply (wp_VTOI true _ _ _ _ _ _ _ S Hay). intros f _ _. wp_steps. apply (wp_VTOI true _ _ _ _ _ _ _ S Htd). intros g _ _. wp_steps. apply HQ'. }
  apply Hflags. clear Hflags. intros [|]; [apply wp_ret; by eapply HQe|].
  destruct (decide (tvp = Some x)) as [Et|Etx]; [by apply wp_ret, HQs|]. wp_steps.
  apply (wp_VTOI true _ _ _ _ _ _ _ S Hfd). intros g _ Eg. wp_steps. apply (wp_VTOI true _ _ _ _ _ _ _ S Hx). intros f _ Ef. cbv zeta.
  replace (i_nlink (ip f)) with (a_nlink ax) by by rewrite <- Ef. replace (S_ISDIR (i_mode (ip f))) with (a_dir ax) by by rewrite <- Ef.
  replace (i_number g) with fd by (rewrite <- Nfd, <- Eg; done).
  destruct (Z.leb_spec LINK_MAX (a_nlink ax)) as [|Hmax]; [apply wp_ret; by eapply HQe|].
  destruct (_ || _); [apply wp_ret; by eapply HQe|]. destruct (_ && _); [apply wp_ret; by eapply HQe|]. wp_steps.
  apply (wp_upd true _ _ _ _ _ x ax (if a_dir ax then set_rn true ax else ax) _ S Hx).
  { intros h Eh. destruct (a_dir ax); [by apply attr_set_rename|done]. }
  intros w1 S1. wp_steps. apply (wp_add_nlink true _ _ _ _ _ x _ 1 S1 (lookup_insert_eq _ _ _)). intros w2 S2. rewrite insert_insert_eq in S2.
  replace (a_nlink (if a_dir ax then set_rn true ax else ax)) with (a_nlink ax) in S2 by by destruct (a_dir ax).
  rewrite sintw_small in S2 by lia. change (set_nl (a_nlink ax + 1) (if a_dir ax then set_rn true ax else ax)) with (renaming ax) in S2.
  wp_steps. apply (wp_vupdate true _ _ _ _ _ x _ S2); [by rewrite lookup_insert_eq|]. intros e w3 S3 He. rewrite (He eq_refl).
  change (0 =? 0) with true. cbn [negb]. wp_steps. clear e He.
  assert (similar A (<[x := renaming ax]> A)) as Sim by (destruct renaming_same; by apply (similar_insert _ _ ax)).
  destruct (Sim _ _ Htd) as (atd' & Htd' & Ntd' & _).
  apply (wp_VTOI true _ _ _ _ _ td atd' S3 Htd'). intros h _ Eh. replace (i_number h) with td by (rewrite <- Ntd, <- Ntd', <- Eh; done).
  wp_steps. destruct newparent_moving as [Emov Enew]. change (if negb ((if a_dir ax then fd else 0) =? td) then td else 0) with newparent. rewrite Emov.
  (* the way up from the new parent *)
  assert (forall Q' : Z -> world X -> Prop,
    (forall e w', sees R w' (<[x := renaming ax]> A) T ->
       e <> 0 \/ (e = 0 /\ (moving fd td ax = true -> x <> td /\ forall l, up_path (restrict A T) td l -> x ∉ l)) -> Q' e w') ->
    wp (if moving fd td ax then ext2_checkpath_nolock x td else mret 0) Q' w3) as Hcheck.
  { intros Q' HQ'. destruct (moving fd td ax); [|apply wp_ret, HQ'; [done|by right]].
    assert (is_Some (restrict A T !! td)) as Hs.
    { apply (ns_dom _ _ _ W). by exists atd. }
    destruct (ns_rooted _ _ _ W td Hs) as [l U].
    apply (wp_checkpath true _ _ _ _ _ _ _ _ _ S3 N Sim ltac:(by eexists) U ltac:(by eexists)). intros e w' S' [(-> & H1 & H2 & _)|[Hne _]]; apply HQ'; [done| |done|by left].
    right. split; [done|]. intros _. split; [done|]. intros l' U'. by rewrite (up_path_det _ _ _ _ U' U). }
  apply Hcheck. clear Hcheck. intros e w4 S4 Hc. destruct (Z.eqb_spec e 0) as [->|Hne]; cbn [negb]; [|by eapply Hbad].
  apply HQ; [done|done| |done]. intros Hm. destruct Hc as [|[_ Hc]]; [done|by apply Hc].
Qed.

(** 2) and 3) over a target. *)
Lemma wp_rename_over (Q : Z -> world X -> Prop) R rdonly w y :
  tvp = Some y -> y <> x -> a_nlink ax < LINK_MAX -> clear_way ->
  (fd, fn) ∈ R -> (td, tn) ∈ R ->
  (forall R e w', sees R w' A T -> e <> 0 -> Q e w') ->
  (forall w' A' T', renamed A T fd fn x td tn tvp afd atd ax A' T' -> sees [] w' A' T' -> Q 0 w') ->
  sees R w (<[x := renaming ax]> A) T ->
  wp (error ← rename_replace x td y tcnp (a_dir ax) newparent;
      if negb (error =? 0) then rename_bad x error else rename_unlink rdonly x fd fcnp (a_dir ax) newparent) Q w.
Proof.
  intros Et Hyx Hmax Hc Rf Rt HQe HQ S4. destruct rename_facts as (Hfdx & Nfd & Ntd & Nx & Pfd & Ptd & Hrn & Hxn & Lfd & Ltd & Alfd & Altd).
  destruct newparent_moving as [Emov Enew]. pose proof (way_td Hc) as Htdx. destruct renaming_same as [Rn Rd].
  pose proof moving_dots as Hxdots. pose proof wp_renaming_bad as Hbad.
  pose proof Args as [N E Hfn Htn (Hfd & Hfl & Hfdir) (Htd & Htl & Htdir) Hx Hto]. 
  destruct (target_facts y Et) as (ay & Hay & Ny & Ly & Hyd). clear Args. subst tvp.
    assert (forall w' T2 B, sees [(fd, fn)] w' (<[x := renaming ax]> B) T2 -> B !! x = Some ax -> is_Some (B !! fd) -> (moving fd td ax = true -> B !! fd = Some afd) ->
      (a_dir ax = true -> y <> fd) -> (forall t, (forall e, (a_dir ax = true -> e <> y) -> T2 !! e = put T td tn (x, t) !! e) ->
      renamed_attrs A fd td afd atd ax (Some (y, ay)) = (if moving fd td ax then <[fd := set_nl (a_nlink afd - 1) afd]> B else B) ->
      (a_dir ay = true -> a_nlink ay = 2 /\ empty_of T y td) -> a_dir ay = a_dir ax -> y <> td ->
      wp (if negb (0 =? 0) then rename_bad x 0 else rename_unlink rdonly x fd fcnp (a_dir ax) newparent) Q w')) as Hlast.
    { intros w' T2 B S' HB HsB HBfd Hyfd t HT2 HAr Hemp Edir Hytd. change (0 =? 0) with true. cbn [negb].
      assert (forall d n z, (a_dir ax = true -> d <> y) -> (d, n) <> (td, tn) -> entry T d n z -> entry T2 d n z) as Hkeep.
      { intros d n z Hdy Hne Ez. assert (entry (put T td tn (x, t)) d n z) as (m & tz & H1 & H2).
        { apply entry_put; [by eapply entry_dir|]. by right. }
        exists m, tz. by rewrite HT2. }
      apply (wp_rename_unlink _ _ _ _ _ _ _ _ _ _ _ td (moving fd td ax) _ S' ltac:(by left) HB Hrn ltac:(lia) HsB HBfd Hfdx Lfd).
      - apply Hkeep; [intros Hd ->; by apply Hyfd| |done]. intros [= -> Efn]. rewrite Efn in E. apply Hyx. by apply (entry_det T td tn).
      - done.
      - intros Hm. split; [by apply Enew|]. exists fd. destruct (Hxdots Hm) as [E1 E2]. split; apply Hkeep; try done.
        + intros [= -> _]. done.
        + intros [= -> _]. done.
      - intros w5 dd Hdd S5. eapply (HQ w5); [|exact S5]. split.
        + exists ay. split_and!; done || by rewrite HAr.
        + exists t, dd. split; [done|]. intros e0 He0. unfold moved.
          assert (a_dir ax = true -> e0 <> y) as He1 by (intros Hd; by apply (He0 y)).
          destruct dd as [ty|]; rewrite !drop_at, ?(put_at _ x), HT2 by done; done.
        + done.
        + intros Hm. split; [done|]. by apply Hc. }
    wp_steps.
    apply (wp_rename_replace _ _ [(fd, fn)] _ A T x (renaming ax) td atd y ay tcnp (a_dir ax) newparent S4 Rt); try done; try (by eexists); try congruence.
    + apply Forall_singleton. split; [done|]. cbn [fst snd]. destruct (decide (fd = td)) as [Eft|]; [right|by left].
      split; [|by exists x]. intros Efn. apply Hyx, (entry_det T td tn); [done|]. by rewrite <- Eft, <- Efn.
    + intros _ He. apply Forall_singleton. cbn. intros <-. destruct (He _ _ E) as [H|[H _]]; apply Hfn; [by left|by right].
    + intros R2 e w5 S5 Hne. rewrite (proj2 (Z.eqb_neq e 0)) by done. cbn [negb]. by eapply Hbad.
    + intros w5 t Hdx Hdy Hytd S5. apply (Hlast _ _ _ S5) with (t := t); try done; try congruence.
      * by rewrite lookup_insert_ne.
      * apply lookup_same_or. by eexists.
      * unfold moving. by rewrite Hdx.
      * unfold renamed_attrs, moving. by rewrite Hdx.
    + intros w5 t T' Hdx Hdy H2 He Hytd HT' S5.
      assert (y <> fd) as Hyfd.
      { intros ->. destruct (He _ _ E) as [H|[H _]]; apply Hfn; [by left|by right]. }
    assert (newparent = 0 <-> fd = td) as Hnp.
      { unfold newparent. rewrite Hdx. destruct (Z.eqb_spec fd td); cbn [negb]; [done|]. split; [lia|done]. }
      apply (Hlast _ _ _ S5) with (t := t); try done; try congruence.
      * rewrite lookup_insert_ne by done. destruct (newparent =? 0); [by rewrite lookup_insert_ne|done].
      * rewrite lookup_insert_ne by done. destruct (newparent =? 0); [|by eexists]. apply lookup_same_or. by eexists.
      * unfold moving. rewrite Hdx. cbn [andb]. intros Hm. rewrite lookup_insert_ne by done.
        destruct (Z.eqb_spec newparent 0) as [H0|]; [|done]. apply Hnp in H0. rewrite H0, Z.eqb_refl in Hm. done.
      * intros e Hed. by apply HT', Hed.
      * unfold renamed_attrs, moving. rewrite Hdx. cbn [andb]. destruct (Z.eqb_spec fd td), (Z.eqb_spec newparent 0); cbn [negb]; naive_solver.
Qed.

(** 2) and 3) without a target. *)
Lemma wp_rename_into (Q : Z -> world X -> Prop) R rdonly w :
  tvp = None -> td <> fd -> a_nlink ax < LINK_MAX -> clear_way ->
  (fd, fn) ∈ R -> (td, tn) ∈ R ->
  (forall R e w', sees R w' A T -> e <> 0 -> Q e w') ->
  (forall w' A' T', renamed A T fd fn x td tn tvp afd atd ax A' T' -> sees [] w' A' T' -> Q 0 w') ->
  sees R w (<[x := renaming ax]> A) T ->
  wp (error ← rename_enter x td tcnp (a_dir ax) newparent;
      if negb (error =? 0) then rename_bad x error else rename_unlink rdonly x fd fcnp (a_dir ax) newparent) Q w.
Proof.
  intros Et Hft Hmax Hc Rf Rt HQe HQ S4. destruct rename_facts as (Hfdx & Nfd & Ntd & Nx & Pfd & Ptd & Hrn & Hxn & Lfd & Ltd & Alfd & Altd).
  destruct newparent_moving as [Emov Enew]. pose proof (way_td Hc) as Htdx. destruct renaming_same as [Rn Rd].
  pose proof moving_dots as Hxdots. pose proof wp_renaming_bad as Hbad.
  pose proof Args as [N E Hfn Htn (Hfd & Hfl & Hfdir) (Htd & Htl & Htdir) Hx Hto]. clear Args. subst tvp.
  destruct Hto as (m & Hm & Hn). wp_steps.
    apply (wp_rename_enter _ _ [(fd, fn)] _ A T x (renaming ax) td atd m tcnp (a_dir ax) newparent (moving fd td ax) S4 Rt); try done; try lia.
    + apply Forall_singleton. split; [done|]. cbn. by unfold elsewhere; intros <-.
    + intros R2 e w5 S5 Hne. rewrite (proj2 (Z.eqb_neq e 0)) by done. cbn [negb]. by eapply Hbad.
    + intros w5 t Hmax5 S5. change (0 =? 0) with true. cbn [negb].
      set (B := if moving fd td ax then <[td := _]> A else A) in *.
      assert (is_Some (A !! fd)) as HsA by by eexists.
      assert (forall d n z, (d, n) <> (td, tn) -> entry T d n z -> entry (put T td tn (x, t)) d n z) as Hkeep.
      { intros d n z Hne Ez. apply entry_put; [by exists m|]. by right. }
      apply (wp_rename_unlink _ _ _ _ B _ _ _ _ afd _ td (moving fd td ax) _ S5 ltac:(by left)); try done; try lia.
      * unfold B. destruct (moving fd td ax); [by rewrite lookup_insert_ne|done].
      * unfold B. destruct (moving fd td ax); [by apply lookup_same_or|done].
      * unfold B. intros Hmv. rewrite Hmv. rewrite lookup_insert_ne; [done|]. intros ->. unfold moving in Hmv. by rewrite Z.eqb_refl, andb_false_r in Hmv.
      * apply Hkeep; [|done]. intros [= -> Efn]. rewrite Efn in E. by apply (entry_none T td tn m x).
      * intros Hmv. split; [by apply Enew|]. exists fd. destruct (Hxdots Hmv) as [E1 E2]. split; apply Hkeep; try done; intros [= -> _]; done.
      * intros w6 dd Hdd S6. eapply (HQ w6); [|exact S6]. split.
        -- unfold renamed_attrs, B. by destruct (moving fd td ax).
        -- exists t, dd. split; [done|]. intros e0 _. done.
        -- done.
        -- intros Hmv. split; [by intros _; apply Hmax5|]. by apply Hc.
Qed.

Lemma wp_rename (Q : Z -> world X -> Prop) R rdonly w :
  sees R w A T -> (fd, fn) ∈ R -> (td, tn) ∈ R -> (tvp = None -> td <> fd) ->
  (forall R e w', sees R w' A T -> e <> 0 -> Q e w') ->
  (tvp = Some x -> forall w', sees R w' A T -> Q 0 w') ->
  (forall w' A' T', renamed A T fd fn x td tn tvp afd atd ax A' T' -> sees [] w' A' T' -> Q 0 w') ->
  wp (ext2_rename rdonly fd x fcnp td tvp tcnp) Q w.
Proof.
  intros S Rf Rt Hft HQe HQs HQ. apply (wp_rename_prepare Q R rdonly w S HQe HQs). intros Hne Hmax Hc w' S'.
  pose proof (wp_rename_over Q R rdonly w') as Hover. pose proof (wp_rename_into Q R rdonly w') as Hinto.
  destruct tvp as [y|]; [apply (Hover y); try done; congruence|by apply Hinto, HQ || apply Hinto; auto].
Qed.
End whole.
End Rename.
