(* ===== verification/Namespace.v ===== *)
(** * The name space as a whole

    Renaming keeps the invariant [names_ok]; all requests that change names, with the
    kernel's lookups before them, and the states that sequences of them lead to. *)

From S2P Require Import Prelude Dir Nametree Fs Inode Ialloc Alloc Bmap Fballoc Dirent Truncate Vnops Vnoplaws Memns Vnopspec Rename Renamespec.

Section Renamed.
Context `{SDK : Sdk} {X : Type} {OPS : VnOps X} {LAWS : VnLaws X}.
Context (HM : 2 <= LINK_MAX < 2 ^ 15).
Implicit Types (A B : gmap Z attr) (T : gmap Z dirmap).

Lemma names_file_move A T x ax fd fn td tn m t :
  names_ok A T -> A !! x = Some ax -> a_dir ax = false -> a_nlink ax < LINK_MAX ->
  alive A fd -> alive A td -> entry T fd fn x -> T !! td = Some m -> m !! tn = None ->
  names_ok A (moved T fd fn td tn x t None).
Proof.
  intros N Hx Hd Hmax Hfd Htd E Hm Hn.
  pose proof (names_link HM _ _ x ax td m tn t N Hx Hd Hmax Htd Hm Hn) as N1.
  assert (forall e, alive A e -> e <> x -> alive (<[x := set_nl (a_nlink ax + 1) ax]> A) e) as Hal by (intros e He Hne; apply alive_insert; by right).
  assert (fd <> x) as Hfx by (intros ->; destruct (no_dom _ _ N x (entry_dir _ _ _ _ E)) as (b & Hb & ?); congruence).
  pose proof (names_unlink HM _ _ x _ fd fn N1 (lookup_insert_eq _ _ _) Hd (Hal _ Hfd Hfx)) as N2.
  rewrite insert_insert_eq in N2. cbn [set_nl a_nlink] in N2.
  replace (set_nl (a_nlink ax + 1 - 1) (set_nl (a_nlink ax + 1) ax)) with ax in N2
    by (replace (a_nlink ax + 1 - 1) with (a_nlink ax) by lia; by destruct ax).
  rewrite (insert_id A x ax Hx) in N2. apply N2. apply entry_put; [by exists m|]. right. split; [|done].
  intros [= -> ->]. by apply (entry_none T td tn m x).
Qed.

Lemma set_nl_add (a : attr) k : set_nl (a_nlink a + k - k) a = a.
Proof. replace (a_nlink a + k - k) with (a_nlink a) by lia. by destruct a. Qed.

(** Two counts change by one each, or none. *)
Lemma shift_attrs A (fd td : Z) afd atd i :
  A !! fd = Some afd -> A !! td = Some atd ->
  (if negb (fd =? td) then <[fd := set_nl (a_nlink afd - 1) afd]> (<[td := set_nl (a_nlink atd + 1) atd]> A) else A) !! i =
  (fun a => set_nl (a_nlink a + one i td - one i fd) a) <$> A !! i.
Proof.
  intros Hfd Htd. unfold one. destruct (Z.eqb_spec fd td) as [<-|Hne]; cbn [negb].
  - destruct (A !! i) as [a|]; [|done]. cbn. f_equal. symmetry. destruct (decide (fd = i)); apply set_nl_add || by rewrite (set_nl_add a 0).
  - destruct (decide (fd = i)) as [<-|Hf].
    + rewrite lookup_insert_eq, Hfd. cbn. rewrite decide_False by done. by rewrite Z.add_0_r.
    + rewrite lookup_insert_ne by done. destruct (decide (td = i)) as [<-|Ht].
      * rewrite lookup_insert_eq, Htd. cbn. by rewrite Z.sub_0_r.
      * rewrite lookup_insert_ne by done. destruct (A !! i) as [a|]; [|done]. cbn. f_equal. symmetry. apply set_nl_add.
Qed.

(** The counts after a directory was replaced, from those without it. *)
Lemma over_attrs A (fd td y : Z) afd atd ax ay i :
  A !! fd = Some afd -> A !! td = Some atd -> a_dir ax = true -> y <> fd -> y <> td ->
  let A0 := <[y := set_nl 0 ay]> (<[td := set_nl (a_nlink atd - 1) atd]> A) in
  renamed_attrs A fd td afd atd ax (Some (y, ay)) !! i = (fun a => set_nl (a_nlink a + one i td - one i fd) a) <$> A0 !! i.
Proof.
  intros Hfd Htd Hdx Hyfd Hytd A0. unfold renamed_attrs, moving. rewrite Hdx. cbn [andb]. destruct (Z.eqb_spec fd td) as [<-|Hne]; cbn [negb].
  - fold A0. destruct (A0 !! i) as [a|]; [|done]. cbn. f_equal. symmetry. apply set_nl_add.
  - unfold one, A0. destruct (decide (fd = i)) as [<-|Hf].
    + rewrite lookup_insert_eq. rewrite !lookup_insert_ne, Hfd by congruence. cbn. rewrite decide_False by congruence. by rewrite Z.add_0_r.
    + rewrite (lookup_insert_ne _ fd) by done. destruct (decide (y = i)) as [<-|Hyi].
      * rewrite !lookup_insert_eq. cbn. rewrite decide_False by congruence. done.
      * rewrite !(lookup_insert_ne _ y) by done. destruct (decide (td = i)) as [<-|].
        -- rewrite lookup_insert_eq, Htd. cbn. unfold set_nl. cbn. f_equal. destruct atd; cbn. f_equal. lia.
        -- rewrite lookup_insert_ne by done. destruct (A !! i) as [a|]; [|done]. cbn. f_equal. symmetry. apply set_nl_add.
Qed.

Lemma negb_eqb_iff (P : Prop) (a b : Z) : (P <-> negb (a =? b) = false) -> (P <-> b = a).
Proof. intros ->. destruct (Z.eqb_spec a b); cbn [negb]; naive_solver. Qed.

(** The ways up without the directory [y] were there before. *)
Lemma over_path A T T0 (y td : Z) tn ay atd l d :
  A !! td = Some atd -> a_nlink atd <> 0 ->
  (forall e, e <> y -> T0 !! e = drop_entry T td tn !! e) ->
  up_path (restrict (<[y := set_nl 0 ay]> (<[td := set_nl (a_nlink atd - 1) atd]> A)) T0) d l -> up_path (restrict A T) d l.
Proof.
  intros Htd Htl HT0 U. apply (up_path_keep _ _ _ _ U). intros z p _ Ez. apply restrict_entry in Ez as [Halz Ez].
  assert (z <> y) as Hzy by (intros ->; unfold alive in Halz; rewrite lookup_insert_eq in Halz; by apply Halz).
  assert (entry (drop_entry T td tn) z dotdot p) as Ez'.
  { destruct Ez as (mz & tz & Hz & Hz'). exists mz, tz. by rewrite <- HT0. }
  apply entry_drop in Ez' as [_ Ez']. apply restrict_entry. split; [|done]. unfold alive in *. rewrite lookup_insert_ne in Halz by done.
  destruct (decide (td = z)) as [<-|]; [by rewrite Htd|by rewrite lookup_insert_ne in Halz].
Qed.

Section renamed.
Context (A : gmap Z attr) (T : gmap Z dirmap) (fd : Z) (fn : list Z) (x td : Z) (tn : list Z) (tvp : option Z) (afd atd ax : attr).
Context (A' : gmap Z attr) (T' : gmap Z dirmap).
Context (Args : rename_args A T fd fn x td tn tvp afd atd ax) (Rn : renamed A T fd fn x td tn tvp afd atd ax A' T').

Lemma renamed_file : a_dir ax = false -> names_ok A' T'.
Proof.
  intros Hdx.
  destruct Args as [N E Hfn Htn (Hfd & Hfl & Hfdir) (Htd & Htl & Htdir) Hx Hto]. destruct Rn as [Htgt (t & dd & Hdd & HT') Hmax Hpar].
  assert (alive A fd) as Alfd by (unfold alive; by rewrite Hfd). assert (alive A td) as Altd by (unfold alive; by rewrite Htd).
  pose proof N as [W D]. clear Args Rn.
    assert (T' = moved T fd fn td tn x t None) as ->.
    { apply map_eq. intros e. rewrite HT' by congruence. replace dd with (None : option Z); [done|]. symmetry. apply Hdd.
      unfold moving. by rewrite Hdx. }
    destruct tvp as [y|].
    - destruct Htgt as (ay & Hay & Hyx & Hyd & Edir & _ & ->). unfold renamed_attrs. rewrite Hdx.
      assert (Alive : forall e, alive A e -> e <> y -> alive (<[y := set_nl (a_nlink ay - 1) ay]> A) e) by (intros e He Hne; apply alive_insert; by right).
      pose proof (names_unlink HM _ _ y ay td tn N Hay ltac:(congruence) Altd Hto) as N1.
      destruct Hto as (m & ty & Hm & Hn).
      replace (moved T fd fn td tn x t None) with (moved (drop_entry T td tn) fd fn td tn x t None) by (unfold moved; by rewrite put_drop).
      assert (fd <> y) as Hfy by (intros ->; rewrite Hay in Hfd; injection Hfd as ->; congruence).
      apply (names_file_move _ _ x ax fd fn td tn (delete tn m)); [done| |done..|by apply Alive|by apply Alive| | |apply lookup_delete_eq].
      + by rewrite lookup_insert_ne.
      + apply entry_drop. split; [|done]. intros [= -> ->]. apply Hyx. apply (entry_det T td tn); [by exists m, ty|done].
      + by rewrite (drop_lookup _ _ _ _ _ Hm), decide_True.
    - destruct Hto as (m & Hm & Hn). subst A'. unfold renamed_attrs, moving. rewrite Hdx. by apply (names_file_move _ _ x ax fd fn td tn m).
Qed.

(** The way up from the new parent of a directory does not lead through it. *)
Lemma renamed_path : a_dir ax = true ->
  entry (restrict A T) x dotdot fd /\ x <> ROOTINO /\ moving fd td ax = negb (fd =? td) /\ forall l, up_path (restrict A T) td l -> x ∉ l.
Proof.
  intros Hdx.
  destruct Args as [N E Hfn Htn (Hfd & Hfl & Hfdir) (Htd & Htl & Htdir) Hx Hto]. destruct Rn as [Htgt (t & dd & Hdd & HT') Hmax Hpar].
  assert (alive A fd) as Alfd by (unfold alive; by rewrite Hfd). assert (alive A td) as Altd by (unfold alive; by rewrite Htd).
  pose proof N as [W D]. clear Args Rn.
  assert (isdir A x) as Hxd by by exists ax. assert (entry (restrict A T) fd fn x) as Er by by apply restrict_entry.
  destruct (ns_down _ _ _ W _ _ _ Er Hfn Hxd) as [Eup Hxr].
  assert (moving fd td ax = negb (fd =? td)) as Emov by (unfold moving; by rewrite Hdx). rewrite Emov in *.
  assert (forall l, up_path (restrict A T) td l -> x ∉ l) as Hpath.
  { destruct (Z.eqb_spec fd td) as [<-|Hne]; cbn [negb] in *; [|by apply Hpar]. intros l U Hin.
    assert (up_path (restrict A T) x (x :: l)) as U2 by by apply (up_step _ _ fd). apply up_path_NoDup in U2.
    by apply NoDup_cons in U2 as [U2 _]. }
  assert (dd = None <-> td = fd) as Hdd'.
  { rewrite Hdd. destruct (Z.eqb_spec fd td); cbn [negb]; [by split|]. split; [done|congruence]. }
  by split_and!.
Qed.

(** Over a directory: first it is removed ([T0] and [A0] below), then the source is moved. *)
Lemma renamed_over y : tvp = Some y -> a_dir ax = true -> names_ok A' T'.
Proof.
  intros Et Hdx. destruct (renamed_path Hdx) as (Eup & Hxr & Emov & Hpath).
  destruct Args as [N E Hfn Htn (Hfd & Hfl & Hfdir) (Htd & Htl & Htdir) Hx Hto]. destruct Rn as [Htgt (t & dd & Hdd & HT') Hmax Hpar].
  assert (alive A fd) as Alfd by (unfold alive; by rewrite Hfd). assert (alive A td) as Altd by (unfold alive; by rewrite Htd).
  pose proof N as [W D]. clear Args Rn. subst tvp. rewrite Emov in *. apply negb_eqb_iff in Hdd.
  destruct Htgt as (ay & Hay & Hyx & Hyd & Edir & Hemp & ->). rewrite Hdx in Edir. destruct (Hemp Edir) as [H2 He].
  assert (y <> fd) as Hyfd.
  { intros ->. destruct (He _ _ E) as [H|[H _]]; apply Hfn; [by left|by right]. }
  set (T0 := match T' !! y with Some my => <[y := my]> (drop_entry T td tn) | None => delete y (drop_entry T td tn) end).
  assert (forall e, e <> y -> T0 !! e = drop_entry T td tn !! e) as HT0.
  { intros e Hne. unfold T0. destruct (T' !! y); [by rewrite lookup_insert_ne|by rewrite lookup_delete_ne]. }
  assert (forall k z, entry T y k z -> dots k) as Hye.
  { intros k z Ez. destruct (He k z Ez) as [->|[-> _]]; [by left|by right]. }
  pose proof (proj2 (names_rmdir HM A T T0 y td ay atd tn N Hto Htn Hay Edir H2 Htd Htl Hye HT0)) as N0.
  pose proof Hto as (m & ty & Hm & Hn).
  assert (moved T0 fd fn td tn x t dd = T') as EM.
  { apply map_eq. intros e. destruct (decide (e = y)) as [->|Hne].
    - unfold moved. rewrite drop_at, decide_False by done.
      assert (T0 !! y = T' !! y) as HTy by (unfold T0; destruct (T' !! y); [apply lookup_insert_eq|apply lookup_delete_eq]).
      destruct dd; rewrite ?put_at; rewrite ?(decide_False (P := x = y)), ?(decide_False (P := td = y)) by done; exact HTy.
    - rewrite HT' by congruence. unfold moved. rewrite !drop_at. rewrite <- (put_drop T td tn (x, t)).
      destruct dd; rewrite ?(put_at _ x), !put_at, HT0 by done; done. }
  rewrite <- EM. clear EM. clearbody T0.
  set (A0 := <[y := set_nl 0 ay]> (<[td := set_nl (a_nlink atd - 1) atd]> A)) in *.
  assert (A0 !! td = Some (set_nl (a_nlink atd - 1) atd)) as Htd0 by (unfold A0; by rewrite lookup_insert_ne, lookup_insert_eq).
  assert (2 <= a_nlink atd) as Htd2.
  { assert (entry (restrict A T) td tn y) as Ery by by apply restrict_entry. destruct (ns_links _ _ _ W _ _ Htd) as [-> _].
    assert (isdir A y) as Hyi by (exists ay; split; [done|congruence]).
    apply (refs_two _ td dot y dotdot); [apply (ns_dot _ _ _ W); by eapply entry_dir|by apply (ns_down _ _ _ W td tn)|congruence]. }
  assert (forall e, e <> y -> alive A e -> alive A0 e) as Hal.
  { intros e Hne Hal. apply alive_insert. right. split; [done|]. apply alive_insert. destruct (decide (e = td)) as [->|]; [left; cbn; lia|by right]. }
  assert (exists afd0, A0 !! fd = Some afd0 /\ a_nlink afd0 = a_nlink afd - one fd td /\ afd0 = set_nl (a_nlink afd - one fd td) afd) as (afd0 & Hfd0 & Hfdn & Efd0).
  { unfold A0, one. rewrite lookup_insert_ne by done. destruct (decide (td = fd)) as [<-|Hne].
    - rewrite lookup_insert_eq. eexists. split; [done|]. rewrite Hfd in Htd. by injection Htd as <-.
    - rewrite lookup_insert_ne by done. exists afd. rewrite Z.sub_0_r. destruct afd; done. }
  apply (names_move A0 T0 _ x fd fn td tn (delete tn m)); try done.
  + destruct E as (mf & tf & Hmf & Hf). assert (entry (drop_entry T td tn) fd fn x) as (mf' & tf' & Hmf' & Hf').
    { apply entry_drop. split; [|by exists mf, tf]. intros [= -> ->]. apply Hyx. apply (entry_det T td tn); [done|by exists mf, tf]. }
    exists mf', tf'. by rewrite HT0.
  + by apply Hal.
  + unfold A0. exists ax. rewrite lookup_insert_ne by done. split; [|done]. rewrite lookup_insert_ne; [done|]. intros ->.
    assert (entry (restrict A T) x dotdot fd) as E2 by done. destruct (Z.eqb_spec fd x) as [->|Hfx]; cbn [negb] in *.
    * destruct (ns_rooted _ _ _ W x (entry_dir _ _ _ _ E2)) as [l U]. inversion U as [|? ? ? ? ? ?]; subst; [done|]. apply (Hpath _ U). by left.
    * by destruct (Hpar eq_refl) as (_ & ? & _).
  + rewrite HT0, (drop_lookup _ _ _ _ _ Hm), decide_True by done. done.
  + apply lookup_delete_eq.
  + by apply Hal.
  + intros l U. apply Hpath. by apply (over_path A T T0 y td tn ay atd).
  + intros a Ha _. rewrite Htd0 in Ha. injection Ha as <-. cbn. pose proof (names_nlink _ _ _ _ N Htd). lia.
  + intros i. by apply over_attrs.
Qed.

(** Without a target. *)
Lemma renamed_into : tvp = None -> a_dir ax = true -> names_ok A' T'.
Proof.
  intros Et Hdx. destruct (renamed_path Hdx) as (Eup & Hxr & Emov & Hpath).
  destruct Args as [N E Hfn Htn (Hfd & Hfl & Hfdir) (Htd & Htl & Htdir) Hx Hto]. destruct Rn as [Htgt (t & dd & Hdd & HT') Hmax Hpar].
  assert (alive A fd) as Alfd by (unfold alive; by rewrite Hfd). assert (alive A td) as Altd by (unfold alive; by rewrite Htd).
  clear Args Rn. subst tvp. rewrite Emov in *. apply negb_eqb_iff in Hdd.
  destruct Hto as (m & Hm & Hn). subst A'. assert (T' = moved T fd fn td tn x t dd) as -> by (apply map_eq; intros e; by apply HT').
  apply (names_move A T _ x fd fn td tn m); try done.
  + by exists ax.
  + intros a Ha Hne. rewrite Htd in Ha. injection Ha as <-. apply Hpar; [|done]. by rewrite (proj2 (Z.eqb_neq _ _)) by congruence.
  + intros i. unfold renamed_attrs. rewrite Emov. by apply shift_attrs.
Qed.

Lemma renamed_names : names_ok A' T'.
Proof.
  destruct (bool_dec (a_dir ax) true) as [Hdx|Hdx]; [|by apply renamed_file, not_true_is_false].
  pose proof renamed_over as Hover. pose proof renamed_into as Hinto. destruct tvp as [y|]; [by apply (Hover y)|by apply Hinto].
Qed.
End renamed.
End Renamed.

(** ** Requests *)

Inductive request :=
| Link (vp tdvp : Z) (cnp : componentname)
| Remove (vp dvp : Z) (cnp : componentname) (nodeletebusy isinuse : bool)
| Create (mode dvp : Z) (cnp : componentname) (context : vfs_context)
| Mkdir (va_mode dvp : Z) (cnp : componentname) (context : vfs_context)
| Rmdir (vp dvp : Z) (cnp : componentname)
| Rename (fdvp fvp : Z) (fcnp : componentname) (tdvp : Z) (tvp : option Z) (tcnp : componentname).

Section Requests.
Context `{SDK : Sdk} {X : Type} {OPS : VnOps X} {LAWS : VnLaws X}.
(** The mount: the feature FILETYPE, whether it is read-only, [s_blocksize], [f_bsize]. *)
Context (filetype rdonly : bool) (s_blocksize f_bsize : Z).

(** The kernel looks a name up before it makes a request on it, and makes the request when
    the lookup has located the name. *)
Definition looked (op : nameiop) (dvp : Z) (cnp : componentname) (m : kern (world X) Z) : kern (world X) Z :=
  error ← ext2_lookup op dvp cnp;
  if decide (located op error) then m else mret (if error =? 0 then EEXIST else error).

Definition exec (r : request) : kern (world X) Z :=
  match r with
  | Link vp tdvp cnp => looked CREATE tdvp cnp (ext2_link vp tdvp cnp)
  | Remove vp dvp cnp busy inuse => looked DELETE dvp cnp (ext2_remove vp dvp cnp busy inuse)
  | Create mode dvp cnp context => looked CREATE dvp cnp ('(error, _) ← ext2_makeinode mode dvp cnp context; mret error)
  | Mkdir va_mode dvp cnp context =>
      looked CREATE dvp cnp ('(error, _) ← ext2_mkdir filetype s_blocksize f_bsize va_mode dvp cnp context; mret error)
  | Rmdir vp dvp cnp => looked DELETE dvp cnp (ext2_rmdir vp dvp cnp)
  | Rename fdvp fvp fcnp tdvp tvp tcnp =>
      looked DELETE fdvp fcnp (looked RENAME tdvp tcnp (ext2_rename rdonly fdvp fvp fcnp tdvp tvp tcnp))
  end.

Definition live_dir (A : gmap Z attr) (d : Z) (a : attr) : Prop := A !! d = Some a /\ a_dir a = true /\ a_nlink a <> 0.
Definition free_in (T : gmap Z dirmap) (d : Z) (n : list Z) : Prop := exists m, T !! d = Some m /\ m !! n = None.

(** What the kernel has made sure of: the directories are there, the names of new objects
    are not taken, those of others name them, directories are not linked, and neither "."
    nor ".." is removed or renamed.  A renaming to a new name of the same directory is left
    out: it loses both names ([rename_loses_names] of [Dcache]). *)
Inductive valid (A : gmap Z attr) (T : gmap Z dirmap) : request -> Prop :=
| valid_link x a d ad cnp : A !! x = Some a -> a_dir a = false -> live_dir A d ad -> free_in T d (cn_nameptr cnp) ->
    valid A T (Link x d cnp)
| valid_remove x a d ad cnp busy inuse : A !! x = Some a -> a_dir a = false -> live_dir A d ad -> entry T d (cn_nameptr cnp) x ->
    valid A T (Remove x d cnp busy inuse)
| valid_create mode d ad cnp context : S_ISDIR mode = false -> live_dir A d ad -> free_in T d (cn_nameptr cnp) ->
    valid A T (Create mode d cnp context)
| valid_mkdir mode d ad cnp context : live_dir A d ad -> free_in T d (cn_nameptr cnp) -> valid A T (Mkdir mode d cnp context)
| valid_rmdir x a d ad cnp : A !! x = Some a -> a_dir a = true -> live_dir A d ad -> entry T d (cn_nameptr cnp) x ->
    ~ dots (cn_nameptr cnp) -> valid A T (Rmdir x d cnp)
| valid_rename fd x fcnp td tvp tcnp afd atd ax :
    rename_args A T fd (cn_nameptr fcnp) x td (cn_nameptr tcnp) tvp afd atd ax ->
    (tvp = None -> td <> fd) -> valid A T (Rename fd x fcnp td tvp tcnp).

(** The names do not change: all inodes are as they were, and all directories that are not
    removed. *)
Definition unchanged (A : gmap Z attr) (T : gmap Z dirmap) (A' : gmap Z attr) (T' : gmap Z dirmap) : Prop :=
  (forall i a, A !! i = Some a -> A' !! i = Some a) /\ restrict A' T' = restrict A T.

(** A new inode [x] with [nlink] links. *)
Record fresh (A : gmap Z attr) (x : Z) (a : attr) (dir : bool) (nlink : Z) : Prop := {
  fr_new : A !! x = None;
  fr_pos : 0 < x;
  fr_number : a_number a = x;
  fr_dir : a_dir a = dir;
  fr_nlink : a_nlink a = nlink;
  fr_idle : a_rename a = false /\ a_look a = false;
}.

(** What a request does to attributes and tree, with its result. *)
Inductive ns_step (A : gmap Z attr) (T : gmap Z dirmap) : request -> Z -> gmap Z attr -> gmap Z dirmap -> Prop :=
| step_error r e A' T' : e <> 0 -> unchanged A T A' T' -> ns_step A T r e A' T'
| step_link x d cnp a t :
    A !! x = Some a -> a_nlink a < LINK_MAX ->
    ns_step A T (Link x d cnp) 0 (<[x := set_nl (a_nlink a + 1) a]> A) (put T d (cn_nameptr cnp) (x, t))
| step_remove x d cnp busy inuse a :
    A !! x = Some a ->
    ns_step A T (Remove x d cnp busy inuse) 0 (<[x := set_nl (a_nlink a - 1) a]> A) (drop_entry T d (cn_nameptr cnp))
| step_create mode d cnp context x a t :
    fresh A x a false 1 -> ns_step A T (Create mode d cnp context) 0 (<[x := a]> A) (put T d (cn_nameptr cnp) (x, t))
| step_mkdir mode d cnp context ad x a t tx td :
    A !! d = Some ad -> a_nlink ad < LINK_MAX -> fresh A x a true 2 ->
    ns_step A T (Mkdir mode d cnp context) 0 (<[x := a]> (<[d := set_nl (a_nlink ad + 1) ad]> A))
      (<[x := new_dir x d tx td]> (put T d (cn_nameptr cnp) (x, t)))
| step_rmdir x d cnp ax ad T' :
    A !! x = Some ax -> A !! d = Some ad -> a_nlink ax = 2 -> empty_of T x d ->
    (forall e, e <> x -> T' !! e = drop_entry T d (cn_nameptr cnp) !! e) ->
    ns_step A T (Rmdir x d cnp) 0 (<[x := set_nl 0 ax]> (<[d := set_nl (a_nlink ad - 1) ad]> A)) T'
| step_same_file fd x fcnp td tcnp : ns_step A T (Rename fd x fcnp td (Some x) tcnp) 0 A T
| step_rename fd x fcnp td tvp tcnp afd atd ax A' T' :
    A !! fd = Some afd -> A !! td = Some atd -> A !! x = Some ax ->
    renamed A T fd (cn_nameptr fcnp) x td (cn_nameptr tcnp) tvp afd atd ax A' T' ->
    ns_step A T (Rename fd x fcnp td tvp tcnp) 0 A' T'.

(** Between requests, on a device that works. *)
Definition ns_state (w : world X) : Prop := names_ok (attrs w) (tree (env w)) /\ io_ok (env w).

Context (HM : 2 <= LINK_MAX < 2 ^ 15) (Hbs : s_blocksize <= f_bsize).

Lemma unchanged_refl A T : unchanged A T A T.
Proof. done. Qed.

Lemma unchanged_fresh A T T' x a dir : names_ok A T -> fresh A x a dir 0 -> (forall e, e <> x -> T' !! e = T !! e) -> unchanged A T (<[x := a]> A) T'.
Proof.
  intros N [F1 F2 F3 F4 F5 F6] HT. split; [intros i b Hi; rewrite lookup_insert_ne; congruence|].
  apply map_eq. intros e. rewrite !restrict_lookup. destruct (decide (e = x)) as [->|He].
  - rewrite decide_False by (rewrite alive_insert; intros [[_ Hn]|[Hn _]]; by apply Hn).
    rewrite decide_False by (unfold alive; rewrite F1; tauto). done.
  - rewrite (HT e He). assert (alive (<[x := a]> A) e <-> alive A e) by (rewrite alive_insert; naive_solver).
    destruct (decide _), (decide _); tauto.
Qed.

(** The request comes after the lookup, or its error is reported. *)
Lemma wp_looked (Q : Z -> world X -> Prop) R op d cnp m w A T :
  sees true R w A T -> is_Some (A !! d) -> is_Some (T !! d) ->
  (forall e w', sees true R w' A T -> e <> 0 -> Q e w') ->
  (forall w', sees true ((d, cn_nameptr cnp) :: R) w' A T -> wp m Q w') -> wp (looked op d cnp m) Q w.
Proof.
  intros S Hd Ht HQe HQ. unfold looked. wp_steps. apply (wp_vlookup true R _ _ _ _ _ _ _ S Hd Ht).
  - intros e w' S' He. rewrite decide_False by done. apply wp_ret, HQe; [done|]. by destruct (Z.eqb_spec e 0).
  - intros e w' S' He. rewrite decide_True by done. by apply HQ.
Qed.

Lemma wp_renaming (Q : Z -> world X -> Prop) fd x fcnp td tvp tcnp afd atd ax w A T :
  sees true [] w A T -> rename_args A T fd (cn_nameptr fcnp) x td (cn_nameptr tcnp) tvp afd atd ax -> (tvp = None -> td <> fd) ->
  (forall R e w', sees true R w' A T -> e <> 0 -> Q e w') ->
  (tvp = Some x -> forall w', sees true [(td, cn_nameptr tcnp); (fd, cn_nameptr fcnp)] w' A T -> Q 0 w') ->
  (forall w' A' T', renamed A T fd (cn_nameptr fcnp) x td (cn_nameptr tcnp) tvp afd atd ax A' T' -> sees true [] w' A' T' -> Q 0 w') ->
  wp (exec (Rename fd x fcnp td tvp tcnp)) Q w.
Proof.
  intros S Args Hft HQe HQs HQ. pose proof (ra_names _ _ _ _ _ _ _ _ _ _ _ Args) as N.
  destruct (ra_fd _ _ _ _ _ _ _ _ _ _ _ Args) as (Hfd & Hfl & Hfdir). destruct (ra_td _ _ _ _ _ _ _ _ _ _ _ Args) as (Htd & Htl & Htdir).
  destruct (names_dir _ _ _ _ N Hfd Hfdir Hfl) as [mf Hmf]. destruct (names_dir _ _ _ _ N Htd Htdir Htl) as [mt Hmt]. cbn [exec].
  apply (wp_looked _ [] _ fd _ _ _ A T S ltac:(by eexists) ltac:(by eexists)); [by apply HQe|]. clear w S. intros w S.
  apply (wp_looked _ _ _ td _ _ _ A T S ltac:(by eexists) ltac:(by eexists)); [by apply HQe|]. clear w S. intros w S.
  apply (wp_rename HM A T fd fcnp x td tcnp tvp afd atd ax Args _ _ rdonly w S); [by right; left|by left|done..].
Qed.


(** A request, from the attributes and the tree that are seen. *)
Lemma wp_exec (Q : Z -> world X -> Prop) r w A T :
  sees true [] w A T -> names_ok A T -> valid A T r ->
  (forall e w' R A' T', sees true R w' A' T' -> names_ok A' T' -> ns_step A T r e A' T' -> Q e w') -> wp (exec r) Q w.
Proof.
  intros S N V HQ. pose proof N as [W D]. assert (forall R (e : Z) w', sees true R w' A T -> e <> 0 -> Q e w') as HQe.
  { intros R e w' S' He. apply (HQ e w' R A T S' N). by apply step_error. }
  assert (forall R (e : Z) w' x a dir T', e <> 0 -> fresh A x a dir 0 -> sees true R w' (<[x := a]> A) T' -> (forall e, e <> x -> T' !! e = T !! e) ->
    (is_Some (T' !! x) -> a_dir a = true) -> Q e w') as HQf.
  { intros R e w' x a dir T' He F S' HT Hd. apply (HQ e w' R (<[x := a]> A) T' S').
    - destruct F as [F1 F2 F3 F4 F5 [F6 F7]]. by apply (names_fresh HM A T).
    - apply step_error; [done|]. by apply (unchanged_fresh _ _ _ _ _ dir). }
  destruct V as [x a d ad cnp Ha Hd (Hlive & Hdd & Hdn) (m & Hm & Hn)|x a d ad cnp busy inuse Ha Hd (Hlive & Hdd & Hdn) E
    |mode d ad cnp context Hmode (Hlive & Hdd & Hdn) (m & Hm & Hn)|mode d ad cnp context (Hlive & Hdd & Hdn) (m & Hm & Hn)
    |x a d ad cnp Ha Hd (Hlive & Hdd & Hdn) E Hdots|fd x fcnp td tvp tcnp afd atd ax Args Hft]; cbn [exec].
  all: try (assert (alive A d) as Hal by (unfold alive; by rewrite Hlive)).
  all: try (apply (wp_looked _ [] _ d _ _ _ A T S ltac:(by eexists) ltac:(by first [by eexists|by eapply entry_dir])); [by apply HQe|]; clear w S; intros w S;
    assert ((d, cn_nameptr cnp) ∈ [(d, cn_nameptr cnp)]) as Hr by by left).
  - apply (wp_link HM true _ _ _ _ _ x a d m cnp S N Ha ltac:(by eexists) Hm Hn Hr); [done| |done].
    intros R w' t S' Hmax. eapply (HQ 0 w' _ _ _ S'); [by apply (names_link HM _ _ _ _ _ m)|by constructor].
  - assert (entry (restrict A T) d (cn_nameptr cnp) x) as Er by by apply restrict_entry.
    assert (1 <= a_nlink a) by (destruct (ns_links _ _ _ W _ _ Ha) as [-> _]; by apply (refs_pos _ d (cn_nameptr cnp))).
    apply (wp_remove HM true _ _ _ _ _ x a d cnp busy inuse S N Ha ltac:(by eexists) E); [done..| |done].
    intros R w' S'. eapply (HQ 0 w' _ _ _ S'); [by apply (names_unlink HM)|by constructor].
  - wp_steps.
    apply (wp_makeinode true _ _ _ _ _ mode d m cnp context S N ltac:(by eexists) Hm Hn Hmode Hr); [..|done].
    + intros R e w' S' He. wp_steps. by eapply HQe.
    + intros R e w' x a Hx H1 H2 H3 H4 H5 H6 S' He. wp_steps. apply (HQf R e w' x a false T); [done|by split|done|done|].
      intros Hs. destruct (D x Hs) as (b & Hb & _). congruence.
    + intros R w' x a t Hx H1 H2 H3 H4 H5 H6 S'. wp_steps. eapply (HQ 0 w' _ _ _ S'); [|by constructor; split].
      assert (names_ok (<[x := set_nl 0 a]> A) T) as N0.
      { apply (names_fresh HM A T); try done. intros Hs. destruct (D x Hs) as (b & Hb & _). congruence. }
      pose proof (names_link HM _ _ x _ d m (cn_nameptr cnp) t N0 (lookup_insert_eq _ _ _) H3 ltac:(cbn; lia)) as N1.
      rewrite insert_insert_eq in N1. cbn [set_nl a_nlink] in N1. change (set_nl (0 + 1) (set_nl 0 a)) with (set_nl 1 a) in N1.
      replace (set_nl 1 a) with a in N1 by (rewrite <- H4; by destruct a). apply N1; [|done..]. apply alive_insert. right. split; [congruence|done].
  - wp_steps. apply (wp_mkdir HM true _ _ _ _ _ filetype s_blocksize f_bsize mode d ad m cnp context eq_refl S N Hlive Hm Hn Hbs Hr).
    + intros R e w' S' He. wp_steps. by eapply HQe.
    + intros R e w' x a T' Hx H1 H2 H3 H4 H5 H6 S' HT He. wp_steps. by apply (HQf R e w' x a true T').
    + intros R w' x a t tx td Hx H1 H2 H3 H4 H5 H6 _ Hmax S'. wp_steps. eapply (HQ 0 w' _ _ _ S'); [by apply (names_mkdir HM _ _ _ _ _ _ m)|].
      by constructor; [..|split].
  - assert (entry (restrict A T) d (cn_nameptr cnp) x) as Er by by apply restrict_entry.
    assert (a_nlink a <> 0) as Hnl by (destruct (ns_links _ _ _ W _ _ Ha) as [-> _]; pose proof (refs_pos _ _ _ _ Er); lia).
    destruct (decide (d = x)) as [->|Hdx].
    { unfold ext2_rmdir. rewrite Z.eqb_refl. apply wp_ret. by eapply HQe. }
    apply (wp_rmdir HM true _ _ _ _ _ x d a ad cnp S Hr N E Hdots Ha Hd Hnl Hlive Hdn Hdx); [intros; by eapply HQe| |done].
    intros e w' T' H2 He He0 HT S'. rewrite (He0 eq_refl). eapply (HQ 0 w' _ _ _ S'); [|by apply step_rmdir].
    apply (names_rmdir HM A T T' x d a ad (cn_nameptr cnp)); try done. intros k y Ek. destruct (He k y Ek) as [->|[-> _]]; [by left|by right].
  - apply (wp_renaming _ _ _ _ _ _ _ afd atd ax _ A T S Args Hft); [by eapply HQe| |].
    + intros -> w' S'. apply (HQ 0 w' _ A T S' N). apply step_same_file.
    + intros w' A' T' Rn S'. apply (HQ 0 w' _ A' T' S'); [by apply (renamed_names HM _ _ _ _ _ _ _ _ _ _ _ _ _ Args Rn)|].
      destruct Args as [_ _ _ _ (Hfd & _) (Htd & _) Hx _]. by eapply step_rename.
Qed.

Lemma ns_sees w : ns_state w -> sees true [] w (attrs w) (tree (env w)).
Proof. intros [_ Hio]. by split_and!. Qed.

(** C3: On a device that works, every request on names that the kernel may make returns, with
    the lookups that come before it: none of the panics of [ext2_rename] and [ext2_mkdir]
    is taken, and the walk to the root ends.  What it does to the link counts and to the
    directories is [ns_step]; when it reports an error, no name and no link count has
    changed; and the invariant of the name space holds again.  A renaming to a new name in
    the same directory is not among the requests: it can lose both names
    ([rename_loses_names]). *)
Theorem vnops_refine r w :
  ns_state w -> valid (attrs w) (tree (env w)) r ->
  wp (exec r) (fun e w' => ns_state w' /\ ns_step (attrs w) (tree (env w)) r e (attrs w') (tree (env w'))) w.
Proof.
  intros Hw V. apply (wp_exec _ r w _ _ (ns_sees w Hw) (proj1 Hw) V). intros e w' R A' T' (<- & <- & Hio & _) N' St.
  split; [|done]. split; [done|by apply Hio].
Qed.

(** ** Sequences of requests *)

Inductive reach (w0 : world X) : world X -> Prop :=
| reach_refl : reach w0 w0
| reach_step w w' r e : reach w0 w -> valid (attrs w) (tree (env w)) r -> exec r w = Ret e w' -> reach w0 w'.

Lemma reach_state w0 w : ns_state w0 -> reach w0 w -> ns_state w.
Proof.
  intros H0. induction 1 as [|w w' r e _ IH V E]; [done|].
  pose proof (wp_exec (fun _ => ns_state) r w _ _ (ns_sees w IH) (proj1 IH) V) as Hwp. unfold wp in Hwp. rewrite E in Hwp. apply Hwp.
  intros e' w'' R A' T' (<- & <- & Hio & _) N' _. split; [done|by apply Hio].
Qed.

(** C5: Link counts and tree stay right, on a device that works, through every sequence of
    requests of the theorem before (no renaming to a new name in the same directory): an
    inode has as many links as there are entries that refer to it ("." and ".." are
    counted) in the directories that are not removed; each of these directories has a "."
    that is itself, and from each of them the ".." entries lead to the root. *)
Theorem namespace_invariant w0 w :
  ns_state w0 -> reach w0 w ->
  let T := restrict (attrs w) (tree (env w)) in
  (forall i f, inodes w !! i = Some f -> i_nlink (ip f) = refs T i /\ i_number f = i) /\
  (forall d n x, entry T d n x -> is_Some (inodes w !! x)) /\
  (forall d, is_Some (T !! d) -> entry T d dot d /\ exists l, up_path T d l).
Proof.
  intros H0 R. destruct (reach_state w0 w H0 R) as [[W D] _]. cbn zeta. split_and!.
  - intros i f Hf. assert (attrs w !! i = Some (attr_of f)) as Ha by (unfold attrs; by rewrite lookup_fmap, Hf).
    destruct (ns_links _ _ _ W _ _ Ha) as [Hl _]. by destruct (ns_attr _ _ _ W _ _ Ha) as (Hn & _).
  - intros d n x E. destruct (ns_entry _ _ _ W d n x E) as [a Ha]. unfold attrs in Ha. rewrite lookup_fmap in Ha. destruct (inodes w !! x); [by eexists|done].
  - intros d Hd. split; [by apply (ns_dot _ _ _ W)|by apply (ns_rooted _ _ _ W)].
Qed.

(** ** Renaming *)


(** C33: On a device that works, a directory cannot be moved below itself: when the source is the target directory
    or one on its way up, the renaming fails and nothing has changed. *)
Theorem rename_below_itself fd x fcnp td tvp tcnp afd atd ax l w :
  ns_state w -> rename_args (attrs w) (tree (env w)) fd (cn_nameptr fcnp) x td (cn_nameptr tcnp) tvp afd atd ax -> tvp <> Some x ->
  a_dir ax = true -> up_path (restrict (attrs w) (tree (env w))) td l -> x ∈ td :: l ->
  wp (ext2_rename rdonly fd x fcnp td tvp tcnp) (fun e w' => e <> 0 /\ attrs w' = attrs w /\ tree (env w') = tree (env w)) w.
Proof.
  intros Hw Args Hne Hd U Hin. apply (wp_rename_prepare HM _ _ _ _ _ _ _ _ _ _ _ Args _ _ rdonly w (ns_sees w Hw)); [|done|].
  - intros R e w' (HA & HT & _) He. done.
  - intros _ _ Hpar w' _. exfalso. unfold clear_way, moving in Hpar. rewrite Hd in Hpar. cbn [andb] in Hpar.
    destruct (Z.eqb_spec fd td) as [<-|Hft]; cbn [negb] in Hpar.
    + destruct Args as [[W D] Ef Hfn _ (Hfd & Hfl & Hfdir) _ Hx _].
      assert (entry (restrict (attrs w) (tree (env w))) fd (cn_nameptr fcnp) x) as Er by (apply restrict_entry; split; [unfold alive; by rewrite Hfd|done]).
      destruct (ns_down _ _ _ W _ _ _ Er Hfn ltac:(by exists ax)) as [Eup Hr].
      assert (up_path (restrict (attrs w) (tree (env w))) x (x :: l)) as U2 by by apply (up_step _ _ fd).
      pose proof (up_path_NoDup _ _ _ U2) as ND. apply NoDup_cons in ND as [ND _]. apply elem_of_cons in Hin as [->|Hin]; [|done].
      inversion U as [|? ? ? ? ? ?]; subst; [done|]. apply ND. by left.
    + destruct (Hpar eq_refl) as (H1 & H2). apply elem_of_cons in Hin as [->|Hin]; [done|]. by apply (H2 l).
Qed.

(** C12: On a device that works, the check of the way to the root is exact: EEXIST for the
    directory itself, EINVAL if the source is on the way up, else 0; it ends, with one step
    for each inode. *)
Theorem checkpath_exact source target l w :
  ns_state w -> is_Some (inodes w !! source) -> is_Some (inodes w !! target) -> up_path (restrict (attrs w) (tree (env w))) target l ->
  wp (ext2_checkpath_nolock source target) (fun e w' => attrs w' = attrs w /\ tree (env w') = tree (env w) /\
    e = if decide (source = target) then EEXIST else if decide (source ∈ l \/ source = ROOTINO) then EINVAL else 0) w.
Proof.
  intros Hw Hs Ht U. pose proof (proj1 Hw) as N.
  assert (forall i, is_Some (inodes w !! i) -> is_Some (attrs w !! i)) as HS by (intros i Hi; unfold attrs; by rewrite lookup_fmap, fmap_is_Some).
  apply (wp_checkpath true _ _ _ _ _ _ _ _ _ (ns_sees w Hw) N ltac:(intros i a Ha; by exists a) (HS _ Hs) U (HS _ Ht)).
  intros e w' (HA & HT & _) C. split; [done|]. split; [done|].
  destruct C as [(-> & H1 & H2 & H3)|[Hne C]].
  - rewrite decide_False by done. rewrite decide_False; [done|]. by intros [|].
  - destruct (C eq_refl) as [[-> ->]|(-> & H1 & H2)]; [by rewrite decide_True|]. by rewrite decide_False, decide_True.
Qed.

End Requests.

(** ** Examples, in memory *)

Definition result {S A} (d : S) (o : outcome S A) : S := match o with Ret _ s => s | _ => d end.
Definition mem_exec : request -> MEM Z := exec true false 4096 4096.

(** The directories "a" and "b" of the root, "a/c", and a file "f". *)
Definition example_fs : world memfs :=
  result empty_fs ((mem_exec (Mkdir 0x1ED 2 (name [97]) root_ctx);; mem_exec (Mkdir 0x1ED 2 (name [98]) root_ctx);;
    mem_exec (Mkdir 0x1ED 11 (name [99]) root_ctx);; mem_exec (Create 0x81A4 2 (name [102]) root_ctx)) empty_fs).

Example example_tree :
  (fun m : dirmap => fst <$> m) <$> tree (env example_fs) !! 2 =
    Some (list_to_map [(dot, 2); (dotdot, 2); ([97], 11); ([98], 12); ([102], 14)]) /\
  (fun a => (a_dir a, a_nlink a)) <$> attrs example_fs = list_to_map [(2, (true, 4)); (11, (true, 3)); (12, (true, 2)); (13, (true, 2)); (14, (false, 1))].
Proof. split; by vm_compute. Qed.

Lemma mem_HM : 2 <= LINK_MAX < 2 ^ 15.
Proof. split; [|reflexivity]. discriminate. Qed.

Lemma empty_fs_state : ns_state empty_fs.
Proof.
  assert (forall d n x, entry (tree (env empty_fs)) d n x <-> d = 2 /\ x = 2 /\ dots n) as HE.
  { intros d n x. unfold entry. cbn. split.
    - intros (m & t & Hm & Hn). apply lookup_singleton_Some in Hm as [<- <-]. apply new_dir_lookup in Hn as [(-> & -> & _)|(-> & -> & _)];
        split_and!; [done|done|by left|done|done|by right].
    - intros (-> & -> & Hn). exists (new_dir 2 2 2 2), 2. split; [apply lookup_singleton_eq|]. apply new_dir_lookup. destruct Hn as [->| ->]; [by left|by right]. }
  assert (restrict (attrs empty_fs) (tree (env empty_fs)) = tree (env empty_fs)) as HR.
  { apply map_eq. intros d. rewrite restrict_lookup. destruct (decide (alive (attrs empty_fs) d)) as [|Hd]; [done|].
    destruct (decide (d = 2)) as [->|]; [destruct Hd; by vm_compute|]. symmetry. cbn. by apply lookup_singleton_ne. }
  assert (forall i a, attrs empty_fs !! i = Some a -> i = 2 /\ a = mkAttr 2 true 2 0 false false) as HA.
  { intros i a Ha. assert (attrs empty_fs = {[2 := mkAttr 2 true 2 0 false false]}) as EA by (unfold attrs; cbn; by rewrite map_fmap_singleton).
    rewrite EA in Ha. by apply lookup_singleton_Some in Ha as [<- <-]. }
  split; [|done]. split; [rewrite HR; split|].
  - intros i a Ha. by apply HA in Ha as [-> ->].
  - intros i a Ha. apply HA in Ha as [-> ->]. split; [by vm_compute|]. cbn. lia.
  - intros d. split.
    + intros [m Hm]. cbn in Hm. apply lookup_singleton_Some in Hm as [<- _]. by exists (mkAttr 2 true 2 0 false false).
    + intros (a & Ha & _). apply HA in Ha as [-> _]. by eexists.
  - intros d n x E. apply HE in E as (-> & -> & _). by eexists.
  - intros d [m Hm]. cbn in Hm. apply lookup_singleton_Some in Hm as [<- _]. apply HE. split_and!; [done|done|by left].
  - intros d [m Hm]. cbn in Hm. apply lookup_singleton_Some in Hm as [<- _]. exists 2. apply HE. split_and!; [done|done|by right].
  - apply HE. split_and!; [done|done|by right].
  - intros d p E Hd. by apply HE in E as (-> & _).
  - intros d n x E Hn _. by apply HE in E as (_ & _ & ?).
  - intros d n n' x E _ Hn. by apply HE in E as (_ & _ & ?).
  - intros d [m Hm]. cbn in Hm. apply lookup_singleton_Some in Hm as [<- _]. exists []. constructor.
  - intros d [m Hm]. cbn in Hm. apply lookup_singleton_Some in Hm as [<- _]. by exists (mkAttr 2 true 2 0 false false).
Qed.

(** The requests that make the example are valid. *)
Lemma example_reach : reach true false 4096 4096 empty_fs example_fs.
Proof.
  eapply (reach_step _ _ _ _ _ (result empty_fs ((mem_exec (Mkdir 0x1ED 2 (name [97]) root_ctx);; mem_exec (Mkdir 0x1ED 2 (name [98]) root_ctx);;
    mem_exec (Mkdir 0x1ED 11 (name [99]) root_ctx)) empty_fs)) _ (Create 0x81A4 2 (name [102]) root_ctx)).
  2:{ eapply valid_create; [done|split_and!; [by vm_compute|by vm_compute|by vm_compute]|]. eexists. split; [by vm_compute|by vm_compute]. }
  2: by vm_compute.
  eapply (reach_step _ _ _ _ _ (result empty_fs ((mem_exec (Mkdir 0x1ED 2 (name [97]) root_ctx);; mem_exec (Mkdir 0x1ED 2 (name [98]) root_ctx)) empty_fs))
    _ (Mkdir 0x1ED 11 (name [99]) root_ctx)).
  2:{ eapply valid_mkdir; [split_and!; [by vm_compute|by vm_compute|by vm_compute]|]. eexists. split; [by vm_compute|by vm_compute]. }
  2: by vm_compute.
  eapply (reach_step _ _ _ _ _ (result empty_fs (mem_exec (Mkdir 0x1ED 2 (name [97]) root_ctx) empty_fs)) _ (Mkdir 0x1ED 2 (name [98]) root_ctx)).
  2:{ eapply valid_mkdir; [split_and!; [by vm_compute|by vm_compute|by vm_compute]|]. eexists. split; [by vm_compute|by vm_compute]. }
  2: by vm_compute.
  eapply (reach_step _ _ _ _ _ empty_fs _ (Mkdir 0x1ED 2 (name [97]) root_ctx)); [apply reach_refl| |by vm_compute].
  eapply valid_mkdir; [split_and!; [by vm_compute|by vm_compute|by vm_compute]|]. eexists. split; [by vm_compute|by vm_compute].
Qed.

Lemma example_state : ns_state example_fs.
Proof. eapply (reach_state true false 4096 4096 mem_HM); [lia|exact empty_fs_state|exact example_reach]. Qed.

Ltac found := eexists _, _; split; by vm_compute.


(** "a" is renamed to "a/c/x". *)
Lemma below_args : exists afd atd ax, rename_args (attrs example_fs) (tree (env example_fs)) 2 [97] 11 13 [120] None afd atd ax /\ a_dir ax = true.
Proof.
  eexists _, _, _. split; [split|].
  - exact (proj1 example_state).
  - found.
  - by intros [|].
  - by intros [|].
  - split_and!; by vm_compute.
  - split_and!; by vm_compute.
  - by vm_compute.
  - eexists. split; by vm_compute.
  - by vm_compute.
Qed.

Lemma example_path : up_path (restrict (attrs example_fs) (tree (env example_fs))) 13 [13; 11].
Proof.
  apply (up_step _ _ 11); [done|found|]. apply (up_step _ _ 2); [done|found|]. constructor.
Qed.

Lemma mem_live d a : attrs example_fs !! d = Some a -> a_dir a = true -> a_nlink a <> 0 -> live_dir (attrs example_fs) d a.
Proof. intros H1 H2 H3. exact (conj H1 (conj H2 H3)). Qed.

Lemma vnops_refine_witness :
  wp (mem_exec (Mkdir 0x1ED 13 (name [120]) root_ctx)) (fun e w' => ns_state w' /\
    ns_step (attrs example_fs) (tree (env example_fs)) (Mkdir 0x1ED 13 (name [120]) root_ctx) e (attrs w') (tree (env w'))) example_fs.
Proof.
  apply (vnops_refine true false 4096 4096 mem_HM ltac:(lia)); [exact example_state|].
  eapply valid_mkdir; [apply mem_live; by vm_compute|]. eexists. split; by vm_compute.
Defined.

Definition example_names : gmap Z dirmap := restrict (attrs example_fs) (tree (env example_fs)).

Lemma namespace_invariant_witness :
  (forall i f, inodes example_fs !! i = Some f -> i_nlink (ip f) = refs example_names i /\ i_number f = i) /\
  (forall d n x, entry example_names d n x -> is_Some (inodes example_fs !! x)) /\
  (forall d, is_Some (example_names !! d) -> entry example_names d dot d /\ exists l, up_path example_names d l).
Proof. exact (namespace_invariant true false 4096 4096 mem_HM ltac:(lia) empty_fs example_fs empty_fs_state example_reach). Defined.



Lemma rename_below_itself_witness :
  wp (ext2_rename false 2 11 (name [97]) 13 None (name [120])) (fun e w' => e <> 0 /\ attrs w' = attrs example_fs /\ tree (env w') = tree (env example_fs)) example_fs.
Proof.
  destruct below_args as (afd & atd & ax & Args & Hd).
  apply (rename_below_itself false mem_HM 2 11 (name [97]) 13 None (name [120]) afd atd ax [13; 11] example_fs example_state Args); [done|done|exact example_path|].
  right; right; left.
Defined.

Lemma checkpath_exact_witness :
  wp (ext2_checkpath_nolock 11 13) (fun e w' => attrs w' = attrs example_fs /\ tree (env w') = tree (env example_fs) /\ e = EINVAL) example_fs.
Proof.
  eapply wp_mono; [apply (checkpath_exact 11 13 [13; 11] example_fs); [exact example_state|eexists; by vm_compute|eexists; by vm_compute|exact example_path]|].
  intros e w' (H1 & H2 & ->). split; [exact H1|]. split; [exact H2|]. done.
Defined.



(** ** Errors of the device that are mishandled *)

Definition with_bad (update read : list Z) (w : world memfs) : world memfs := mkWorld (inodes w) (mkMemfs (dirs (env w)) update read [] []).
Definition nlink_of (w : world memfs) (i : Z) : option Z := a_nlink <$> attrs w !! i.
Definition refs_of (w : world memfs) (i : Z) : Z := refs (restrict (attrs w) (tree (env w))) i.

(** When the update of the parent directory fails, [ext2_mkdir] and [ext2_rename] report
    the error, but the link that they have added to the parent stays: it has one link more
    than there are entries for it. *)
Theorem parent_link_leaks :
  (exists w', ext2_mkdir true 4096 4096 0x1ED 12 (name [120]) root_ctx (with_bad [12] [] example_fs) = Ret (EIO, None) w' /\
     nlink_of w' 12 = Some 3 /\ refs_of w' 12 = 2) /\
  (exists w', ext2_rename false 11 13 (name [99]) 12 None (name [100]) (with_bad [12] [] example_fs) = Ret EIO w' /\
     nlink_of w' 12 = Some 3 /\ refs_of w' 12 = 2).
Proof.
  split.
  - exists (result example_fs (ext2_mkdir true 4096 4096 0x1ED 12 (name [120]) root_ctx (with_bad [12] [] example_fs))).
    split_and!; by vm_compute.
  - exists (result example_fs (ext2_rename false 11 13 (name [99]) 12 None (name [100]) (with_bad [12] [] example_fs))).
    split_and!; by vm_compute.
Qed.

(** When a directory gets a new parent and its first block cannot be read, [ext2_rename]
    reports success, but ".." still refers to the old parent, which has lost the link for
    it: it has fewer links than there are entries for it. *)
Theorem rename_dotdot_lost :
  exists w', ext2_rename false 11 13 (name [99]) 12 None (name [100]) (with_bad [] [13] example_fs) = Ret 0 w' /\
    entry (tree (env w')) 12 [100] 13 /\ entry (tree (env w')) 13 dotdot 11 /\
    nlink_of w' 11 = Some 2 /\ refs_of w' 11 = 3 /\ nlink_of w' 12 = Some 3 /\ refs_of w' 12 = 2.
Proof.
  exists (result example_fs (ext2_rename false 11 13 (name [99]) 12 None (name [100]) (with_bad [] [13] example_fs))).
  split_and!; [by vm_compute|found|found|by vm_compute..].
Qed.
