(* ===== verification/Attr.v ===== *)
(** * Attributes and symbolic links (src/src/gnu/ext2fs/ext2_vnops.c)

    [ext2_open], [ext2_chmod], [ext2_chown] and [ext2_setattr] on the state of [Vnops], and
    what [ext2_symlink] stores and [ext2_readlink] finds.  Nanoseconds are not modelled. *)

From S2P Require Import Prelude Nametree Fs Inode Ialloc Alloc Bmap Fballoc Dirent Truncate Vnops Vnoplaws Memns.

(** [(uid_t)VNOVAL] *)
Definition NOID : Z := u32 (-1).

(** The attributes to set; those that are active. *)
Record vnode_attr := mkVattr {
  va_flags : option Z;
  va_uid : option Z;
  va_gid : option Z;
  va_data_size : option Z;
  va_access_time : option Z;
  va_modify_time : option Z;
  va_mode : option Z;
}.

Section Attributes.
Context `{SDK : Sdk} {X : Type} {OPS : VnOps X}.
(** The time, what the kernel knows of the vnodes, MNT_IGNORE_OWNERSHIP, and the user. *)
Context (now : Z) (info : Z -> vnode) (ignore_ownership : bool) (uid : Z).
Local Abbreviation VN := (kern (world X)).

Definition ext2_open (vp mode : Z) : VN Z :=
  f ← VTOI vp;
  mret (if has_flag (i_flags (ip f)) APPEND && (Z.land mode (Z.lor FWRITE O_APPEND) =? FWRITE) then EPERM else 0).

Definition superuser : bool := uid =? 0.

Definition ext2_chmod (vp mode : Z) : VN Z :=
  if ignore_ownership && negb superuser then mret 0
  else
    upd vp (fun f => set_flag IN_CHANGE (set_ip (fun i =>
      set_mode (Z.lor (Z.land (i_mode i) (Z.lnot ALLPERMS)) (Z.land mode ALLPERMS)) i) f));;
    mret 0.

Definition ext2_chown (vp nuid ngid : Z) : VN Z :=
  if ignore_ownership && negb superuser then mret 0
  else
    f ← VTOI vp;
    let ouid := i_uid (ip f) in
    let ogid := i_gid (ip f) in
    let nuid := if nuid =? NOID then ouid else nuid in
    let ngid := if ngid =? NOID then ogid else ngid in
    upd vp (set_ip (set_owner nuid ngid));;
    (if negb (ouid =? nuid) || negb (ogid =? ngid) then
       upd vp (set_flag IN_CHANGE);;
       (if superuser then upd vp (set_ip (fun i => set_mode (Z.land (i_mode i) (Z.lnot (Z.lor ISUID ISGID))) i)) else mret tt)
     else mret tt);;
    mret 0.

(** [ext2_truncate] to any size is an argument. *)
Definition ext2_setattr (truncate : Z -> Z -> VN Z) (vp : Z) (vap : vnode_attr) : VN Z :=
  (match va_flags vap with
   | Some fl => upd vp (fun f => set_flag IN_CHANGE (set_ip (set_iflags fl) f))
   | None => mret tt
   end);;
  f ← VTOI vp;
  if has_flag (i_flags (ip f)) (Z.lor IMMUTABLE APPEND) then mret EPERM
  else
    let nuid := default NOID (va_uid vap) in
    let ngid := default NOID (va_gid vap) in
    error ← (if negb (nuid =? NOID) || negb (ngid =? NOID) then ext2_chown vp nuid ngid else mret 0);
    if negb (error =? 0) then mret error
    else
      error ← (match va_data_size vap with
               | Some size => if S_ISDIR (i_mode (ip f)) then mret EISDIR else truncate vp size
               | None => mret 0
               end);
      if negb (error =? 0) then mret error
      else
        error ← (match va_access_time vap, va_modify_time vap with
                 | None, None => mret 0
                 | at_, mt =>
                     upd vp (fun f =>
                       let f := if at_ then set_flag IN_ACCESS f else f in
                       if mt then set_flag (Z.lor IN_CHANGE IN_UPDATE) f else f);;
                     upd vp (ext2_itimes now (info vp));;
                     upd vp (set_ip (fun i => set_times (default (i_atime i) (i32 <$> at_)) (default (i_mtime i) (i32 <$> mt)) (i_ctime i) i));;
                     ext2_update vp false
                 end);
        if negb (error =? 0) then mret error
        else match va_mode vap with
             | Some mode => ext2_chmod vp mode
             | None => mret 0
             end.
End Attributes.

(** ** Permissions and owners *)

Section Owners.
Context `{SDK : Sdk} {X : Type} {OPS : VnOps X}.
Context (now : Z) (info : Z -> vnode) (uid : Z).

Lemma run_VTOI (w : world X) vp f : inodes w !! vp = Some f -> VTOI vp w = Ret f w.
Proof. intros Hf. unfold VTOI, mbind, kern_bind, gets, access. by rewrite Hf. Qed.

Lemma run_upd (w : world X) vp f g : inodes w !! vp = Some f -> upd vp g w = Ret tt (mkWorld (<[vp := g f]> (inodes w)) (env w)).
Proof. intros Hf. unfold upd, mbind, kern_bind. by rewrite (run_VTOI _ _ _ Hf). Qed.

Lemma upd_upd {A} (w : world X) vp f g (k : unit -> kern (world X) A) : inodes w !! vp = Some f ->
  (upd vp g ≫= k) w = k tt (mkWorld (<[vp := g f]> (inodes w)) (env w)).
Proof. intros Hf. unfold mbind, kern_bind. by rewrite (run_upd _ _ _ _ Hf). Qed.

Lemma VTOI_bind {A} (w : world X) vp f (k : file -> kern (world X) A) : inodes w !! vp = Some f -> (VTOI vp ≫= k) w = k f w.
Proof. intros Hf. unfold mbind, kern_bind. by rewrite (run_VTOI _ _ _ Hf). Qed.

(** The bits for set-user-id and set-group-id. *)
Definition setid (mode : Z) : Z := Z.land mode (Z.lor ISUID ISGID).

Lemma setid_cleared mode : setid (Z.land mode (Z.lnot (Z.lor ISUID ISGID))) = 0.
Proof. unfold setid. rewrite <- Z.land_assoc, (Z.land_comm (Z.lnot _)), Z.land_lnot_diag. apply Z.land_0_r. Qed.

(** A change of the owner takes the set-user-id and set-group-id bits away exactly when
    the superuser makes it; another user who may give the file away keeps them. *)
Theorem chown_setid vp nuid ngid f (w : world X) :
  inodes w !! vp = Some f -> (nuid <> NOID /\ nuid <> i_uid (ip f)) \/ (ngid <> NOID /\ ngid <> i_gid (ip f)) ->
  exists f', ext2_chown false uid vp nuid ngid w = Ret 0 (mkWorld (<[vp := f']> (inodes w)) (env w)) /\
    i_uid (ip f') = (if nuid =? NOID then i_uid (ip f) else nuid) /\ i_gid (ip f') = (if ngid =? NOID then i_gid (ip f) else ngid) /\
    has_flag (i_flag f') IN_CHANGE = true /\
    setid (i_mode (ip f')) = (if uid =? 0 then 0 else setid (i_mode (ip f))).
Proof.
  intros Hf Hch. unfold ext2_chown. cbn [andb]. rewrite (VTOI_bind _ _ _ _ Hf). cbv zeta.
  set (u := if nuid =? NOID then _ else nuid). set (g := if ngid =? NOID then _ else ngid).
  assert (negb (i_uid (ip f) =? u) || negb (i_gid (ip f) =? g) = true) as Eo.
  { apply orb_true_iff. unfold u, g. destruct Hch as [[H1 H2]|[H1 H2]]; [left|right]; rewrite (proj2 (Z.eqb_neq _ NOID)) by done;
      by apply negb_true_iff, Z.eqb_neq. }
  rewrite (upd_upd _ _ _ _ _ Hf), Eo. cbn [inodes env].
  assert (forall (m : kern (world X) unit) (k : unit -> kern (world X) Z) w1 w2, m w1 = Ret tt w2 -> (m ≫= k) w1 = k tt w2) as Hb
    by (intros m k w1 w2 Em; unfold mbind, kern_bind; by rewrite Em).
  unfold superuser. destruct (uid =? 0) eqn:Eu.
  - erewrite Hb; cycle 1.
    { rewrite (upd_upd _ _ _ _ _ (lookup_insert_eq _ _ _)). cbn [inodes env]. rewrite insert_insert_eq. 
      rewrite (run_upd _ _ _ _ (lookup_insert_eq _ _ _)). cbn [inodes env]. rewrite insert_insert_eq. reflexivity. }
    eexists. split; [reflexivity|]. cbn. split_and!; [done|done|apply has_flag_set; done|apply setid_cleared].
  - erewrite Hb; cycle 1.
    { rewrite (upd_upd _ _ _ _ _ (lookup_insert_eq _ _ _)). cbn [inodes env]. rewrite insert_insert_eq. reflexivity. }
    eexists. split; [reflexivity|]. cbn. split_and!; [done|done|apply has_flag_set; done|done].
Qed.

(** Setting the flags of a file always changes them, but when the new flags make the
    file immutable or append-only the operation reports EPERM all the same, and the other
    attributes of the request are not set. *)
Theorem setattr_flags_refused truncate vp fl vap f (w : world X) :
  inodes w !! vp = Some f -> va_flags vap = Some fl -> has_flag fl (Z.lor IMMUTABLE APPEND) = true ->
  exists f', ext2_setattr now info false uid truncate vp vap w = Ret EPERM (mkWorld (<[vp := f']> (inodes w)) (env w)) /\
    i_flags (ip f') = fl /\ i_mode (ip f') = i_mode (ip f) /\ i_uid (ip f') = i_uid (ip f) /\ i_gid (ip f') = i_gid (ip f).
Proof.
  intros Hf Hva Hfl. unfold ext2_setattr. rewrite Hva, (upd_upd _ _ _ _ _ Hf).
  rewrite (VTOI_bind _ _ _ _ (lookup_insert_eq _ _ _)). cbn [ip set_flag set_ip set_iflags i_flags]. rewrite Hfl.
  by eexists.
Qed.
End Owners.

(** User 5 gives file 13 of mode 06755 to user 7, and so does the superuser; then its flags
    are set to [IMMUTABLE]. *)
Definition setid_fs : world memfs := mkWorld {[13 := file_with 13 0x8DED 1]} (env empty_fs).

Lemma chown_setid_witness : forall uid : Z, exists f', 
  ext2_chown false uid 13 7 NOID setid_fs = Ret 0 (mkWorld (<[13 := f']> (inodes setid_fs)) (env setid_fs)) /\
    i_uid (ip f') = 7 /\ i_gid (ip f') = 0 /\ has_flag (i_flag f') IN_CHANGE = true /\
    setid (i_mode (ip f')) = (if uid =? 0 then 0 else 0xC00).
Proof.
  intros uid. apply (chown_setid uid 13 7 NOID (file_with 13 0x8DED 1) setid_fs); [reflexivity|].
  left. split; discriminate.
Defined.

Lemma setattr_flags_refused_witness : exists f',
  ext2_setattr 0 (fun _ => mkVnode VREG false false true 60 false) false 0 (fun _ _ => mret 0) 13
    (mkVattr (Some 2) (Some 7) None None None None (Some 0)) setid_fs =
    Ret EPERM (mkWorld (<[13 := f']> (inodes setid_fs)) (env setid_fs)) /\
  i_flags (ip f') = 2 /\ i_mode (ip f') = 0x8DED /\ i_uid (ip f') = 0 /\ i_gid (ip f') = 0.
Proof.
  apply (setattr_flags_refused 0 (fun _ => mkVnode VREG false false true 60 false) 0 (fun _ _ => mret 0) 13 2
    (mkVattr (Some 2) (Some 7) None None None None (Some 0)) (file_with 13 0x8DED 1) setid_fs); reflexivity.
Defined.

(** ** Short symbolic links *)

Definition is_byte (b : Z) : Prop := 0 <= b < 256.

Lemma le32_bytes x : Forall is_byte (le32 x).
Proof. unfold le32, is_byte. repeat constructor; apply Z.mod_pos_bound; lia. Qed.

Lemma le32_word b0 b1 b2 b3 : is_byte b0 -> is_byte b1 -> is_byte b2 -> is_byte b3 ->
  le32 (u32 (i32 (b0 + 256 * b1 + 65536 * b2 + 16777216 * b3))) = [b0; b1; b2; b3].
Proof.
  unfold is_byte. intros H0 H1 H2 H3. rewrite uintw_sintw, uintw_small by lia. unfold le32. repeat f_equal.
  - rewrite <- (Z.mod_unique _ 256 (b1 + 256 * b2 + 65536 * b3) b0); lia.
  - rewrite <- (Z.div_unique _ 256 (b1 + 256 * b2 + 65536 * b3) b0) by lia. rewrite <- (Z.mod_unique _ 256 (b2 + 256 * b3) b1); lia.
  - rewrite <- (Z.div_unique _ 65536 (b2 + 256 * b3) (b0 + 256 * b1)) by lia. rewrite <- (Z.mod_unique _ 256 b3 b2); lia.
  - rewrite <- (Z.div_unique _ 16777216 b3 (b0 + 256 * b1 + 65536 * b2)) by lia. rewrite Z.mod_small; lia.
Qed.

Definition bytes_of (w : list Z) : list Z := concat ((fun x => le32 (u32 x)) <$> w).

Lemma bytes_of_length w : length (bytes_of w) = (4 * length w)%nat.
Proof. unfold bytes_of. induction w as [|x w IH]; [done|]. cbn [fmap list_fmap concat length]. rewrite length_app, IH. cbn. lia. Qed.

Lemma bytes_of_bytes w : Forall is_byte (bytes_of w).
Proof. unfold bytes_of. induction w; [constructor|]. cbn [fmap list_fmap concat]. apply Forall_app. auto using le32_bytes. Qed.

Lemma words_of_length n b : (4 * n <= length b)%nat -> length (words_of n b) = n.
Proof.
  revert b. induction n as [|n IH]; [done|]. intros [|b0 [|b1 [|b2 [|b3 b]]]] Hl; cbn [length] in Hl; try lia.
  cbn [words_of length]. rewrite IH by lia. done.
Qed.

Lemma bytes_of_words n b : length b = (4 * n)%nat -> Forall is_byte b -> bytes_of (words_of n b) = b.
Proof.
  unfold bytes_of. revert b. induction n as [|n IH]; [by intros []|]. intros [|b0 [|b1 [|b2 [|b3 b]]]] Hl Hb; cbn [length] in Hl; try lia.
  apply Forall_cons in Hb as [B0 Hb]. apply Forall_cons in Hb as [B1 Hb]. apply Forall_cons in Hb as [B2 Hb]. apply Forall_cons in Hb as [B3 Hb].
  cbn [words_of fmap list_fmap concat]. rewrite le32_word, IH by (done || lia). done.
Qed.

(** What is copied to the block pointers is read from them. *)
Lemma set_shortlink_read target i i' : Forall is_byte target -> set_shortlink target i = Some i' ->
  slice 0 (Z.of_nat (length target)) (link_bytes i') = Some target.
Proof.
  intros Ht Es. unfold set_shortlink in Es. destruct (splice 0 target (link_bytes i)) as [b|] eqn:Eb; [|done]. injection Es as <-.
  pose proof (splice_length _ _ _ _ Eb) as Lb. unfold link_bytes in Lb. fold (bytes_of (i_db i ++ i_ib i)) in Lb. rewrite bytes_of_length in Lb.
  unfold link_bytes. cbn [set_blks i_db i_ib]. rewrite take_drop. fold (bytes_of (words_of (length (i_db i ++ i_ib i)) b)).
  rewrite bytes_of_words; [by apply (slice_splice_same _ _ _ _ Eb)|done|].
  apply splice_some in Eb as (_ & _ & ->). rewrite !Forall_app. split_and!; [|done|]; [apply Forall_take|apply Forall_drop]; apply bytes_of_bytes.
Qed.

Section Links.
Context `{SDK : Sdk} {X : Type} {OPS : VnOps X}.

(** C35: A symbolic link that is stored in the inode reads back as its target: [ext2_readlink]
    returns the first bytes of it, as many as are asked for. *)
Theorem symlink_readlink va_mode maxsymlen dvp cnp target context vp resid (w w' : world X) :
  maxsymlen <= 2 ^ 31 -> Z.of_nat (length target) < maxsymlen -> Forall is_byte target -> 0 <= resid ->
  ext2_symlink va_mode maxsymlen dvp cnp target context w = Ret (0, Some vp) w' ->
  ext2_readlink maxsymlen vp resid w' = Ret (0, take (Z.to_nat resid) target) w'.
Proof.
  intros Hm Hlen Hb Hr E. unfold ext2_symlink in E. unfold mbind at 1, kern_bind at 1 in E.
  destruct (ext2_makeinode _ dvp cnp context w) as [[e [v|]] w1| | |]; [|done..].
  cbv zeta in E. rewrite (proj2 (Z.ltb_lt _ _) Hlen) in E.
  destruct (inodes w1 !! v) as [f|] eqn:Hf; [|unfold mbind, kern_bind, VTOI, mbind, kern_bind, gets in E; by rewrite Hf in E].
  rewrite (VTOI_bind _ _ _ _ Hf) in E. unfold mbind at 1, kern_bind at 1 in E.
  destruct (set_shortlink target (ip f)) as [i|] eqn:Ei; [|done]. cbn [access] in E.
  rewrite (upd_upd _ _ _ _ _ Hf) in E. injection E as <- <-. unfold ext2_readlink.
  rewrite (VTOI_bind _ _ _ _ (lookup_insert_eq _ _ _)). cbn -[Z.pow link_bytes slice].
  rewrite (sintw_small 32), (proj2 (Z.ltb_lt _ _) Hlen) by lia. change (link_bytes (Truncate.set_size _ i)) with (link_bytes i).
  pose proof (set_shortlink_read _ _ _ Hb Ei) as Hs. apply slice_some in Hs as (_ & _ & H3 & H4).
  unfold mbind, kern_bind. rewrite (proj2 (slice_some _ _ _ (take (Z.to_nat resid) target))); [done|]. split_and!; [lia..|].
  rewrite H4 at 1. rewrite take_take. f_equal. lia.
Qed.
End Links.

Definition link_target : list Z := [97; 47; 98].
Definition with_link : outcome (world memfs) (Z * option Z) :=
  ext2_symlink 0x1ED 60 2 (name [108]) link_target root_ctx empty_fs.
Definition link_fs : world memfs := match with_link with Ret _ w => w | _ => empty_fs end.

Lemma symlink_readlink_witness : with_link = Ret (0, Some 11) link_fs /\ ext2_readlink 60 11 2 link_fs = Ret (0, [97; 47]) link_fs.
Proof.
  assert (with_link = Ret (0, Some 11) link_fs) as E by (vm_compute; reflexivity).
  split; [exact E|]. apply (symlink_readlink 0x1ED 60 2 (name [108]) link_target root_ctx 11 2 empty_fs link_fs); [lia|reflexivity| |lia|exact E].
  repeat constructor; lia.
Defined.
