(* ===== verification/Readdir.v ===== *)
(** * Reading directories (src/src/gnu/ext2fs/ext2_lookup.c)

    [ext2_readdir] for directories without an index: it reads the blocks from the offset
    of the [uio] on, converts the entries and moves those that fit to the user.  A client
    that calls it until it reports the end gets every entry once, in order. *)

From S2P Require Import Prelude Fballoc Vnops Dirent Dir.

Definition ENOTSUP : Z := 45.
Definition ENOMEM : Z := 12.
Definition MAXNAMLEN : Z := 255.

(** The [struct dirent] of the kernel; [d_name] with the zeros that are moved with it. *)
Record dirent := mkDirent {
  d_fileno : Z;
  dst_reclen : Z;
  dst_type : Z;
  d_namlen : Z;
  dst_name : list Z;
}.

(** IN_LOOK of the inode is in [rd_flag]; [moved] is what the user has received. *)
Record rdstate := mkRd {
  rd_flag : Z;
  uio_offset : Z;
  uio_resid : Z;
  moved : list dirent;
}.

Abbreviation RD := (kern rdstate).

Definition set_rd_flag (x : Z) (s : rdstate) : rdstate := mkRd x (uio_offset s) (uio_resid s) (moved s).
Definition uio_setoffset (x : Z) (s : rdstate) : rdstate := mkRd (rd_flag s) x (uio_resid s) (moved s).
(** What a [uiomove] that succeeds does. *)
Definition move (d : dirent) (s : rdstate) : rdstate :=
  mkRd (rd_flag s) (uio_offset s + dst_reclen d) (uio_resid s - dst_reclen d) (moved s ++ [d]).

Section Readdir.
(** The size of [struct dirent]; [uiomove], and [ext2_read] of [count] bytes at an offset,
    which gives the error, what it has not read, and the buffer. *)
Context (sizeof_dirent : Z) (uiomove : dirent -> RD Z) (ext2_read : Z -> Z -> Z * Z * list Z).

Definition GENERIC_DIRSIZ (namlen : Z) : Z := sizeof_dirent - (MAXNAMLEN + 1) + Z.land (namlen + 1 + 3) (Z.lnot 3).

(** The entry for the user: the zeros fill the record behind the name, which is behind the
    other fields. *)
Definition convert (inode file_type : Z) (name : list Z) : option dirent :=
  let namlen := Z.of_nat (length name) in
  let reclen := u16 (GENERIC_DIRSIZ namlen) in
  t ← FTTODT file_type;
  Some (mkDirent inode reclen t namlen
    (name ++ replicate (Z.to_nat (reclen - (sizeof_dirent - (MAXNAMLEN + 1)) - namlen)) 0)).

(** The error, and the position in the buffer. *)
Fixpoint readdir_loop (fuel : nat) (dirbuf : list Z) (edp dp : Z) : RD (Z * Z) :=
  match fuel with
  | O => out_of_fuel
  | S fuel =>
      s ← gets id;
      if (0 <? uio_resid s) && (dp <? edp) then
        e ← access (entry_at dp dirbuf);
        name ← access (name_at dp (de_name_len e) dirbuf);
        d ← access (convert (de_inode e) (de_file_type e) name);
        if 0 <? de_rec_len e then
          if dst_reclen d <=? uio_resid s then
            error ← uiomove d;
            if negb (error =? 0) then mret (error, dp + de_rec_len e)
            else readdir_loop fuel dirbuf edp (dp + de_rec_len e)
          else mret (0, dp)
        else mret (EIO, dp)
      else mret (0, dp)
  end.

(** [DIRBLKSIZ] is the block size; [unsupported] says that a flag asks for what is not
    there; [uio_create] and [uio_addiov] are what the kernel answers.  The error, and what
    is stored for [eofflag]. *)
Definition ext2_readdir (DIRBLKSIZ : Z) (unsupported uio_create : bool) (uio_addiov i_size : Z) : RD (Z * option bool) :=
  if unsupported then mret (ENOTSUP, None)
  else
    s ← gets id;
    let startoffset := uio_offset s in
    let count := i32 (uio_resid s) in
    let count := i32 (count - Z.land (startoffset + count) (DIRBLKSIZ - 1)) in
    let count := if count <=? 0 then count + DIRBLKSIZ else count in
    if i_size <=? u64 startoffset then mret (0, Some true)
    else if has_flag (rd_flag s) IN_LOOK then out_of_fuel
    else
      modify (set_rd_flag (Z.lor (rd_flag s) IN_LOOK));;
      error ←
        (if negb uio_create then mret ENOMEM
         else if negb (uio_addiov =? 0) then mret uio_addiov
         else
           let '(error, resid, dirbuf) := ext2_read startoffset count in
           if negb (error =? 0) then mret error
           else
             let readcnt := i32 (count - resid) in
             '(error, dp) ← readdir_loop (S (Z.to_nat readcnt)) dirbuf readcnt 0;
             modify (uio_setoffset (startoffset + dp));;
             mret error);
      s ← gets id;
      modify (set_rd_flag (Z.land (rd_flag s) (u32 (Z.lnot IN_LOOK))));;
      mret (error, Some (i_size <=? u64 (uio_offset s))).
End Readdir.

(** ** One call *)

Section readdir.
Context (fs : dirfs) (Hfs : fs_ok fs) (blks : gmap Z (list Z)) (size : Z).
Local Abbreviation bs := (fs_blocksize fs).
Context (sizeof_dirent : Z) (uiomove : dirent -> RD Z) (ext2_read : Z -> Z -> Z * Z * list Z).

(** The kernel's structure has at least a byte before the name, and the user's memory can
    be written. *)
Context (Hsz : MAXNAMLEN + 1 < sizeof_dirent < 2 ^ 15).
Context (Hmove : forall d s, uiomove d s = Ret 0 (move d s)).

(** [ext2_read] gives the bytes of the directory. *)
Definition reads : Prop := forall start count,
  0 <= start < size -> 0 < count < 2 ^ 31 -> (bs | start + count) ->
  let n := Z.min count (size - start) in
  exists buf, ext2_read start count = (0, count - n, buf) /\
    forall o k b, start <= o -> 0 < k -> blks !! (o / bs) = Some b -> o mod bs + k <= bs -> o + k <= start + n ->
      slice (o - start) k buf = slice (o mod bs) k b.

(** What the user gets of an entry. *)
Definition direntry_of (d : dent) : dirent :=
  default (mkDirent 0 0 0 0 []) (convert sizeof_dirent (d_ino d) (d_type d) (d_name d)).
Definition dirsiz (d : dent) : Z := u16 (GENERIC_DIRSIZ sizeof_dirent (namelen d)).

(** The entries from offset [o] on that lie before [hi] and fit in [resid] bytes. *)
Fixpoint fitting (hi o resid : Z) (l : list dent) : list dent :=
  match l with
  | [] => []
  | d :: l => if (o <? hi) && (dirsiz d <=? resid) then d :: fitting hi (o + d_reclen d) (resid - dirsiz d) l else []
  end.

Definition total (l : list dent) : Z := sumZ (dirsiz <$> l).

Lemma dirsiz_bounds d : dent_wf d -> 0 < dirsiz d <= sizeof_dirent /\ dirsiz d = GENERIC_DIRSIZ sizeof_dirent (namelen d) /\
  namelen d < dirsiz d - (sizeof_dirent - (MAXNAMLEN + 1)) <= MAXNAMLEN + 1.
Proof using Hsz.
  intros W. pose proof (dw_name _ W). assert (0 <= namelen d) by (unfold namelen; lia). unfold dirsiz, GENERIC_DIRSIZ, MAXNAMLEN in *.
  change (Z.lnot 3) with (Z.lnot (Z.ones 2)). rewrite !land_lnot_ones by lia. change (2 ^ 2) with 4.
  pose proof (Z.div_mod (namelen d + 1 + 3) 4 ltac:(lia)). pose proof (Z.mod_pos_bound (namelen d + 1 + 3) 4 ltac:(lia)).
  rewrite uintw_small by lia. lia.
Qed.

Lemma convert_ok d : dent_wf d -> d_type d <> 8 ->
  convert sizeof_dirent (d_ino d) (d_type d) (d_name d) = Some (direntry_of d) /\ dst_reclen (direntry_of d) = dirsiz d.
Proof using Hsz.
  intros W Ht. unfold direntry_of, convert. assert (is_Some (FTTODT (d_type d))) as [t ->].
  { unfold FTTODT. change (Z.of_nat (length ext2_ft_to_dt)) with 8. destruct (Z.ltb_spec 8 (d_type d)); [by eexists|]. apply lookup_lt_is_Some.
    pose proof (dw_type _ W). change (length ext2_ft_to_dt) with 8%nat. lia. }
  cbn. done.
Qed.

(** The end of the window is the end of a block: no entry lies across it. *)
Lemma fits_window off hi d l : dirents bs blks off size (d :: l) -> 0 <= off -> (bs | hi) -> off < hi -> off + d_reclen d <= hi.
Proof using Hfs.
  intros D Ho [q ->] Hlt. pose proof (dirents_head fs off size d l blks D Ho) as (_ & Hfit & _). pose proof (bs_bounds fs Hfs).
  pose proof (Z.div_mod off bs ltac:(lia)). assert (off / bs < q) by (apply Z.div_lt_upper_bound; lia). nia.
Qed.

Lemma readdir_loop_ok start n buf fuel off l s :
  (forall o k b, start <= o -> 0 < k -> blks !! (o / bs) = Some b -> o mod bs + k <= bs -> o + k <= start + n ->
     slice (o - start) k buf = slice (o mod bs) k b) ->
  dirents bs blks off size l -> Forall (fun d => d_type d <> 8) l -> 0 <= start <= off -> (bs | start + n) -> start + n <= size ->
  off <= start + n -> start + n - off < Z.of_nat fuel ->
  let m := fitting (start + n) off (uio_resid s) l in
  readdir_loop sizeof_dirent uiomove fuel buf n (off - start) s =
    Ret (0, off - start + extent m) (mkRd (rd_flag s) (uio_offset s + total m) (uio_resid s - total m) (moved s ++ (direntry_of <$> m))).
Proof using Hfs Hsz Hmove.
  intros Hbuf. revert off l s. induction fuel as [|fuel IH]; intros off l s D F Ho Hdiv Hsize Hle Hf; [lia|].
  assert (Hstop : Ret (0, off - start) s = Ret (0, off - start + extent []) (mkRd (rd_flag s) (uio_offset s + total []) (uio_resid s - total []) (moved s ++ []))).
  { unfold extent, total. cbn. rewrite !Z.add_0_r, Z.sub_0_r, app_nil_r. by destruct s. }
  cbn [readdir_loop]. unfold mbind at 1, kern_bind at 1, gets, id. destruct (Z.ltb_spec (off - start) n) as [Hlt|Hge].
  2:{ rewrite andb_false_r. cbv zeta. replace (fitting _ _ _ l) with (@nil dent); [exact Hstop|].
      destruct l; [done|]. cbn [fitting]. by rewrite (proj2 (Z.ltb_ge _ _)) by lia. }
  destruct l as [|d l]; [cbn [dirents] in D; lia|].
  pose proof (dirents_head fs off size d l blks D ltac:(lia)) as (Hr & Hfit & Hneed).
  pose proof (fits_window off (start + n) d l D ltac:(lia) Hdiv ltac:(lia)) as Hwin. pose proof (need_bounds d) as Hnb.
  destruct D as [(b & Hb & Hlen & Da) D]. apply Forall_cons in F as [Ht F]. pose proof (da_wf _ _ _ Da) as W.
  destruct (dirsiz_bounds d W) as [Hds _]. pose proof (bs_bounds fs Hfs). pose proof (Z.mod_pos_bound off bs ltac:(lia)).
  cbn [fitting]. rewrite (proj2 (Z.ltb_lt off _)) by lia. cbn [andb].
  destruct (Z.ltb_spec 0 (uio_resid s)) as [Hpos|Hneg]; cbn [andb].
  2:{ rewrite (proj2 (Z.leb_gt (dirsiz d) _)) by lia. exact Hstop. }
  assert (entry_at (off - start) buf = Some (d_hdr d)) as ->.
  { unfold entry_at. rewrite (Hbuf off 8 b); [|lia|lia|exact Hb|lia|lia]. apply (dent_entry (off mod bs) b d); [lia|exact Da]. }
  assert (name_at (off - start) (namelen d) buf = Some (d_name d)) as En.
  { unfold name_at. rewrite <- (dent_name (off mod bs) b d) by (exact Da || lia). unfold name_at.
    pose proof (Hbuf off (8 + namelen d) b ltac:(lia) ltac:(lia) Hb ltac:(lia) ltac:(lia)) as Hs.
    pose proof (da_bytes _ _ _ Da) as Hby. rewrite Hby in Hs.
    by rewrite <- (slice_slice _ _ _ _ 8 (namelen d) Hs), <- (slice_slice _ _ _ _ 8 (namelen d) Hby) by lia. }
  unfold mbind at 1, kern_bind at 1. cbn [access]. cbn [d_hdr de_name_len de_inode de_file_type de_rec_len]. rewrite En.
  destruct (convert_ok d W Ht) as [Ec Erl]. unfold mbind at 1, kern_bind at 1. cbn [access]. rewrite Ec.
  unfold mbind at 1, kern_bind at 1. cbn [access]. rewrite (proj2 (Z.ltb_lt 0 (d_reclen d))) by lia. rewrite Erl.
  destruct (Z.leb_spec (dirsiz d) (uio_resid s)) as [Hfits|Hno]; [|exact Hstop].
  unfold mbind at 1, kern_bind at 1. rewrite Hmove. cbn [negb Z.eqb].
  replace (off - start + d_reclen d) with (off + d_reclen d - start) by lia.
  rewrite (IH (off + d_reclen d) l) by (done || lia). cbn [move uio_resid uio_offset moved rd_flag]. rewrite Erl.
  set (m := fitting _ _ _ l). cbn [fmap list_fmap]. rewrite extent_cons. unfold total. cbn [fmap list_fmap sumZ foldr].
  f_equal; [f_equal; lia|]. rewrite <- app_assoc. f_equal; unfold sumZ; lia.
Qed.

Lemma fitting_prefix hi o r l : exists rest, l = fitting hi o r l ++ rest.
Proof using Type.
  revert o r. induction l as [|d l IH]; intros o r; cbn [fitting]; [by exists []|]. destruct (_ && _); [|by eexists].
  destruct (IH (o + d_reclen d) (r - dirsiz d)) as [rest Hrest]. exists rest. cbn. by rewrite <- Hrest.
Qed.

(** The number of bytes that a call reads: up to the end of a block. *)
Definition window (start resid : Z) : Z :=
  let count := resid - (start + resid) mod bs in if count <=? 0 then count + bs else count.

Lemma window_bounds start r : 0 <= r -> 0 < window start r <= r + bs /\ (bs | start + window start r).
Proof using Hfs.
  intros Hr. pose proof (bs_bounds fs Hfs). unfold window. pose proof (Z.div_mod (start + r) bs ltac:(lia)).
  pose proof (Z.mod_pos_bound (start + r) bs ltac:(lia)). set (q := (start + r) / bs) in *.
  destruct (Z.leb_spec (r - (start + r) mod bs) 0); (split; [lia|]); [exists (q + 1)|exists q]; lia.
Qed.

Lemma look_cleared x : 0 <= x < 2 ^ 32 -> has_flag x IN_LOOK = false -> Z.land (Z.lor x IN_LOOK) (u32 (Z.lnot IN_LOOK)) = x.
Proof using Type.
  intros Hx Hf. unfold has_flag in Hf. apply negb_false_iff, Z.eqb_eq in Hf.
  change (u32 (Z.lnot IN_LOOK)) with (Z.ldiff (Z.ones 32) IN_LOOK).
  assert (Z.land x (Z.ones 32) = x) as Ex by (rewrite Z.land_ones by lia; apply Z.mod_small; lia).
  apply Z.bits_inj'. intros n Hn. rewrite Z.land_spec, Z.lor_spec, Z.ldiff_spec.
  pose proof (f_equal (fun z => Z.testbit z n) Hf) as B. pose proof (f_equal (fun z => Z.testbit z n) Ex) as B2.
  cbn beta in B, B2. rewrite Z.land_spec in B, B2. rewrite Z.bits_0 in B.
  destruct (Z.testbit x n), (Z.testbit IN_LOOK n), (Z.testbit (Z.ones 32) n); cbn in *; done.
Qed.

(** One call, behind the entries [l1]: the entries that it moves. *)
Lemma readdir_call l1 l2 s :
  reads -> 0 <= size < 2 ^ 30 -> (bs | size) -> dirents bs blks 0 size (l1 ++ l2) -> Forall (fun d => d_type d <> 8) l2 ->
  uio_offset s = extent l1 -> 0 <= uio_resid s < 2 ^ 30 -> 0 <= rd_flag s < 2 ^ 32 -> has_flag (rd_flag s) IN_LOOK = false -> l2 <> [] ->
  let start := extent l1 in
  let m := fitting (start + Z.min (window start (uio_resid s)) (size - start)) start (uio_resid s) l2 in
  ext2_readdir sizeof_dirent uiomove ext2_read bs false true 0 size s =
    Ret (0, Some (size <=? start + extent m)) (mkRd (rd_flag s) (start + extent m) (uio_resid s - total m) (moved s ++ (direntry_of <$> m))).
Proof using Hfs Hsz Hmove.
  intros Hread Hsize Hdiv D F Hoff Hres Hfl Hlook Hne start m. pose proof (bs_bounds fs Hfs) as Hbs.
  apply dirents_app in D as [D1 D2]. rewrite Z.add_0_l in D1, D2. fold start in D1, D2, Hoff.
  pose proof (dirents_range fs _ _ _ _ D1 ltac:(lia)) as R1. pose proof (dirents_range fs _ _ _ _ D2 R1) as R2.
  assert (start < size) as Hlt.
  { destruct l2 as [|d l2]; [done|]. pose proof (dirents_head fs start size d l2 blks D2 R1) as (? & _). destruct D2 as [_ D2].
    pose proof (dirents_range fs _ _ _ _ D2 ltac:(lia)). lia. }
  pose proof (window_bounds start (uio_resid s) ltac:(lia)) as [Hw Hwd].
  set (n := Z.min (window start (uio_resid s)) (size - start)) in *.
  assert (bs | start + n) as Hnd by (unfold n; destruct (Z.min_spec (window start (uio_resid s)) (size - start)) as [[_ ->]|[_ ->]];
    [done|by replace (start + (size - start)) with size by lia]).
  destruct (Hread start (window start (uio_resid s)) ltac:(lia) ltac:(lia) Hwd) as (buf & Eread & Hbuf). fold n in Eread, Hbuf.
  unfold ext2_readdir. unfold mbind at 1, kern_bind at 1, gets, id. rewrite Hoff. cbv zeta.
  rewrite (sintw_small 32 (uio_resid s)), (land_mask fs Hfs) by lia. pose proof (Z.mod_pos_bound (start + uio_resid s) bs ltac:(lia)).
  rewrite (sintw_small 32 (uio_resid s - (start + uio_resid s) mod bs)) by lia. fold (window start (uio_resid s)).
  change (if uio_resid s - _ <=? 0 then _ else _) with (window start (uio_resid s)).
  rewrite (uintw_small 64 start), (proj2 (Z.leb_gt size start)), Hlook by lia. cbn [negb Z.eqb]. rewrite Eread. cbn [negb Z.eqb].
  unfold mbind at 1, kern_bind at 1, modify at 1. rewrite sintw_small by lia.
  replace (window start (uio_resid s) - (window start (uio_resid s) - n)) with n by lia.
  set (s1 := set_rd_flag _ s).
  pose proof (readdir_loop_ok start n buf (S (Z.to_nat n)) start l2 s1 Hbuf D2 F ltac:(lia) Hnd ltac:(lia) ltac:(lia) ltac:(lia)) as El.
  cbv zeta in El. rewrite Z.sub_diag in El. unfold mbind at 1, kern_bind at 1. unfold mbind at 1, kern_bind at 1. rewrite El. cbn [mret kern_ret].
  unfold mbind, kern_bind, modify, gets, mret, kern_ret. cbn [uio_offset uio_setoffset s1 set_rd_flag rd_flag uio_resid moved].
  destruct (fitting_prefix (start + n) start (uio_resid s) l2) as [rest Erest]. fold m in Erest.
  rewrite Erest in D2. apply dirents_app in D2 as [D2 D3].
  pose proof (dirents_range fs _ _ _ _ D2 R1). pose proof (dirents_range fs _ _ _ _ D3 ltac:(lia)).
  rewrite look_cleared, !Z.add_0_l by (done || lia). fold m. by rewrite (uintw_small 64) by lia.
Qed.

Lemma fitting_nil hi o r d l : fitting hi o r (d :: l) = [] -> hi <= o \/ r < dirsiz d.
Proof using Type. cbn [fitting]. destruct (Z.ltb_spec o hi), (Z.leb_spec (dirsiz d) r); cbn; [done|lia..]. Qed.
End readdir.

(** ** Reading all of a directory *)

Section client.
Context (fs : dirfs) (Hfs : fs_ok fs) (blks : gmap Z (list Z)) (size : Z).
Local Abbreviation bs := (fs_blocksize fs).
Context (sizeof_dirent : Z) (uiomove : dirent -> RD Z) (ext2_read : Z -> Z -> Z * Z * list Z).
Context (bufsize : nat -> Z).

(** A client calls [ext2_readdir] with one buffer after the other until it is told that
    this is the end. *)
Fixpoint read_all (n i : nat) : RD Z :=
  match n with
  | O => out_of_fuel
  | S n =>
      modify (fun s => mkRd (rd_flag s) (uio_offset s) (bufsize i) (moved s));;
      '(error, eof) ← ext2_readdir sizeof_dirent uiomove ext2_read bs false true 0 size;
      if negb (error =? 0) then mret error
      else if decide (eof = Some true) then mret 0
      else read_all n (S i)
  end.

Lemma read_all_ok n i l1 l2 s :
  MAXNAMLEN + 1 < sizeof_dirent < 2 ^ 15 -> (forall d s, uiomove d s = Ret 0 (move d s)) ->
  reads fs blks size ext2_read -> 0 <= size < 2 ^ 30 -> (bs | size) ->
  (forall i, sizeof_dirent <= bufsize i < 2 ^ 30) ->
  dirents bs blks 0 size (l1 ++ l2) -> Forall (fun d => d_type d <> 8) l2 ->
  uio_offset s = extent l1 -> 0 <= rd_flag s < 2 ^ 32 -> has_flag (rd_flag s) IN_LOOK = false -> (length l2 < n)%nat ->
  exists r, read_all n i s = Ret 0 (mkRd (rd_flag s) size r (moved s ++ (direntry_of sizeof_dirent <$> l2))).
Proof using Hfs.
  intros Hsz Hmove Hread Hsize Hdiv Hbuf. pose proof (bs_bounds fs Hfs) as Hbs.
  assert (0 < sizeof_dirent) by (unfold MAXNAMLEN in Hsz; lia). revert i l1 l2 s.
  induction n as [|n IH]; intros i l1 l2 s D F Hoff Hfl Hlook Hn; [lia|]. cbn [read_all].
  unfold mbind at 1, kern_bind at 1, modify. set (s0 := mkRd _ _ _ _). specialize (Hbuf i) as Hr.
  pose proof D as D'. apply dirents_app in D' as [D1 D2]. rewrite Z.add_0_l in D1, D2.
  pose proof (dirents_range fs _ _ _ _ D1 ltac:(lia)) as R1.
  destruct l2 as [|d l2].
  { cbn [dirents] in D2. unfold ext2_readdir. unfold mbind at 1, kern_bind at 1. unfold mbind at 1, kern_bind at 1, gets, id. cbv zeta.
    cbn [s0 uio_offset]. rewrite Hoff, D2, (uintw_small 64), (proj2 (Z.leb_le size size)) by lia. cbn. exists (bufsize i).
    unfold s0. by rewrite Hoff, D2, app_nil_r. }
  unfold mbind at 1, kern_bind at 1.
  erewrite (readdir_call fs Hfs blks size sizeof_dirent uiomove ext2_read Hsz Hmove l1 (d :: l2) s0); try done; [|cbn [s0 uio_resid]; lia].
  cbn [negb Z.eqb s0 rd_flag uio_resid moved]. set (m := fitting _ _ _ _ (d :: l2)).
  destruct (fitting_prefix sizeof_dirent (extent l1 + Z.min (window fs (extent l1) (bufsize i)) (size - extent l1)) (extent l1) (bufsize i) (d :: l2))
    as [rest Erest]. fold m in Erest.
  assert (m <> []) as Hm.
  { intros Em. apply fitting_nil in Em. pose proof (window_bounds fs Hfs (extent l1) (bufsize i) ltac:(lia)) as [Hw _].
    pose proof (dirents_head fs (extent l1) size d l2 blks D2 R1) as (Hr0 & _). pose proof D2 as [(b & _ & _ & Da) D3].
    pose proof (dirents_range fs _ _ _ _ D3 ltac:(lia)). destruct (dirsiz_bounds sizeof_dirent Hsz d (da_wf _ _ _ Da)) as [Hd _]. lia. }
  rewrite Erest in D2. apply dirents_app in D2 as [Dm D3]. pose proof (dirents_range fs _ _ _ _ Dm R1) as Rm.
  rewrite Erest, app_assoc in D.
  assert (extent (l1 ++ m) = extent l1 + extent m) as Eext by apply extent_app.
  assert (length (d :: l2) = (length m + length rest)%nat) as El by (by rewrite Erest, length_app).
  assert (length m <> 0%nat) by (by destruct m).
  destruct (Z.leb_spec size (extent l1 + extent m)) as [Hend|Hmore].
  - rewrite decide_True by done. destruct rest as [|d' rest].
    2:{ pose proof (dirents_head fs _ size d' rest blks D3 ltac:(lia)) as (? & _). destruct D3 as [_ D3]. pose proof (dirents_range fs _ _ _ _ D3 ltac:(lia)). lia. }
    rewrite app_nil_r in Erest. rewrite Erest. cbn [dirents] in D3. rewrite <- D3. by eexists.
  - rewrite decide_False by done. set (s1 := mkRd _ _ _ _).
    destruct (IH (S i) (l1 ++ m) rest s1 D) as [r Er]; [by rewrite Erest in F; apply Forall_app in F as [_ F]|by rewrite Eext|done|done|lia|].
    exists r. rewrite Er. cbn [s1 rd_flag moved]. by rewrite Erest, fmap_app, app_assoc.
Qed.
End client.

(** ** The properties *)

Lemma fitting_max sizeof_dirent hi o r l rest :
  l = fitting sizeof_dirent hi o r l ++ rest -> 0 <= r ->
  total sizeof_dirent (fitting sizeof_dirent hi o r l) <= r /\
  (forall d rest', rest = d :: rest' ->
     hi <= o + extent (fitting sizeof_dirent hi o r l) \/ r - total sizeof_dirent (fitting sizeof_dirent hi o r l) < dirsiz sizeof_dirent d).
Proof.
  revert o r. induction l as [|d l IH]; intros o r El Hr.
  { unfold total, extent. cbn in *. subst rest. split; [lia|done]. }
  destruct (fitting sizeof_dirent hi o r (d :: l)) as [|d' m] eqn:Ef.
  - apply fitting_nil in Ef. unfold total, extent. cbn in *. subst rest. split; [lia|]. intros d0 rest' [= <- <-]. lia.
  - cbn [fitting] in Ef. destruct (Z.ltb_spec o hi), (Z.leb_spec (dirsiz sizeof_dirent d) r); cbn [andb] in Ef; try done.
    injection Ef as <- Em. injection El as El. rewrite <- Em in El. destruct (IH (o + d_reclen d) (r - dirsiz sizeof_dirent d) El ltac:(lia)) as [H1 H2].
    rewrite Em in H1, H2. unfold total in *. rewrite extent_cons. cbn [fmap list_fmap sumZ foldr]. unfold sumZ in *. split; [lia|].
    intros d0 rest' E. specialize (H2 d0 rest' E). lia.
Qed.

(** What a client takes from a record: inode and name, if the entry is in use. *)
Definition received (ms : list dirent) : list (Z * list Z) :=
  (fun e => (d_fileno e, take (Z.to_nat (d_namlen e)) (dst_name e))) <$> filter (fun e => d_fileno e <> 0) ms.

(** A name with its terminating zero. *)
Definition terminated (e : dirent) : Prop := Z.of_nat (length (dst_name e)) <= MAXNAMLEN + 1 /\ last (dst_name e) = Some 0.

Lemma direntry_of_fields sizeof_dirent d :
  MAXNAMLEN + 1 < sizeof_dirent < 2 ^ 15 -> dent_wf d -> d_type d <> 8 ->
  let e := direntry_of sizeof_dirent d in
  d_fileno e = d_ino d /\ take (Z.to_nat (d_namlen e)) (dst_name e) = d_name d /\ terminated e.
Proof.
  intros Hsz W Ht. cbv zeta. destruct (convert_ok sizeof_dirent Hsz d W Ht) as [E _]. unfold convert in E.
  destruct (FTTODT (d_type d)) as [t|]; [|done]. cbn in E. injection E as <-. cbn [d_fileno d_namlen dst_name].
  split; [done|]. split; [by rewrite Nat2Z.id, take_app_length|]. fold (namelen d).
  change (u16 (GENERIC_DIRSIZ sizeof_dirent (namelen d))) with (dirsiz sizeof_dirent d).
  destruct (dirsiz_bounds sizeof_dirent Hsz d W) as (_ & _ & H3). unfold terminated. cbn [dst_name].
  set (k := dirsiz sizeof_dirent d - (sizeof_dirent - (MAXNAMLEN + 1)) - namelen d) in *. assert (0 < k) as Hk by (unfold k; lia).
  rewrite length_app, length_replicate. split; [unfold namelen in *; lia|].
  destruct (Z.to_nat k) as [|k'] eqn:Ek; [lia|]. replace (S k') with (k' + 1)%nat by lia.
  rewrite replicate_add, app_assoc. cbn [replicate]. apply last_snoc.
Qed.

Lemma received_live sizeof_dirent l :
  MAXNAMLEN + 1 < sizeof_dirent < 2 ^ 15 -> Forall dent_wf l -> Forall (fun d => d_type d <> 8) l ->
  received (direntry_of sizeof_dirent <$> l) = (fun k => (k.1.1, k.2)) <$> live l.
Proof.
  intros Hsz W F. induction l as [|d l IH]; [done|]. apply Forall_cons in W as [Wd W]. apply Forall_cons in F as [Fd F].
  destruct (direntry_of_fields sizeof_dirent d Hsz Wd Fd) as (E1 & E2 & _).
  unfold received, live in *. cbn [fmap list_fmap]. rewrite !filter_cons. unfold is_live. specialize (IH W F).
  destruct (Z.eqb_spec (d_ino d) 0) as [E0|E0]; cbn [negb].
  - rewrite decide_False by (intros Hn; apply Hn; by rewrite E1). rewrite decide_False by (by intros []). exact IH.
  - rewrite decide_True by by rewrite E1. rewrite decide_True by done. cbn [fmap list_fmap]. rewrite E1, E2. f_equal. exact IH.
Qed.

Lemma dirents_wf bs blks off hi l : dirents bs blks off hi l -> Forall dent_wf l.
Proof. revert off. induction l as [|d l IH]; intros off D; [done|]. destruct D as [(b & _ & _ & Da) D]. constructor; [apply Da|by eapply IH]. Qed.

Section properties.
Context (fs : dirfs) (ds : dirstate) (sizeof_dirent : Z) (uiomove : dirent -> RD Z) (ext2_read : Z -> Z -> Z * Z * list Z).

(** One call of [ext2_readdir] moves a run of the entries behind the offset, converted,
    into the buffer, and puts the offset behind them: as many as fit and lie in the blocks
    that were read; it says that this is the end exactly when there is no entry left. *)
Theorem readdir_moves l1 l2 s :
  dir_ok fs ds (l1 ++ l2) -> Forall (fun d => d_type d <> 8) l2 -> MAXNAMLEN + 1 < sizeof_dirent < 2 ^ 15 ->
  (forall d s, uiomove d s = Ret 0 (move d s)) -> reads fs (blocks ds) (dp_size (dp ds)) ext2_read ->
  uio_offset s = extent l1 -> 0 <= uio_resid s < 2 ^ 30 -> 0 <= rd_flag s < 2 ^ 32 -> has_flag (rd_flag s) IN_LOOK = false -> l2 <> [] ->
  exists m rest, l2 = m ++ rest /\
    ext2_readdir sizeof_dirent uiomove ext2_read (fs_blocksize fs) false true 0 (dp_size (dp ds)) s =
      Ret (0, Some (bool_decide (rest = [])))
        (mkRd (rd_flag s) (extent (l1 ++ m)) (uio_resid s - total sizeof_dirent m) (moved s ++ (direntry_of sizeof_dirent <$> m))) /\
    total sizeof_dirent m <= uio_resid s /\
    (forall d rest', rest = d :: rest' ->
       uio_resid s - total sizeof_dirent m < dirsiz sizeof_dirent d \/ extent l1 + window fs (extent l1) (uio_resid s) <= extent (l1 ++ m)).
Proof.
  intros [Hfs [Hs Hdiv] D _] F Hsz Hmove Hread Hoff Hres Hfl Hlook Hne.
  pose proof (readdir_call fs Hfs _ _ _ uiomove _ Hsz Hmove l1 l2 s Hread Hs Hdiv D F Hoff Hres Hfl Hlook Hne) as E. cbv zeta in E.
  set (hi := extent l1 + Z.min (window fs (extent l1) (uio_resid s)) (dp_size (dp ds) - extent l1)) in E.
  set (m := fitting sizeof_dirent hi (extent l1) (uio_resid s) l2) in E.
  destruct (fitting_prefix sizeof_dirent hi (extent l1) (uio_resid s) l2) as [rest Erest]. fold m in Erest.
  exists m, rest. split; [exact Erest|]. rewrite extent_app.
  destruct (fitting_max sizeof_dirent hi (extent l1) (uio_resid s) l2 rest Erest ltac:(lia)) as [H1 H2]. fold m in H1, H2.
  rewrite Erest, app_assoc in D. apply dirents_app in D as [D1 D2]. rewrite Z.add_0_l, extent_app in D1, D2.
  pose proof (dirents_range fs _ _ _ _ D1 ltac:(lia)) as R1.
  assert (rest = [] \/ extent l1 + extent m < dp_size (dp ds)) as Hend.
  { destruct rest as [|d rest]; [by left|right]. pose proof (dirents_head fs _ _ d rest _ D2 R1) as (? & _). destruct D2 as [_ D2].
    pose proof (dirents_range fs _ _ _ _ D2 ltac:(lia)). lia. }
  split_and!; [|done|].
  - rewrite E. do 2 f_equal. f_equal. destruct Hend as [->|Hend].
    + cbn [dirents] in D2. rewrite D2. rewrite bool_decide_true by done. apply Z.leb_refl.
    + rewrite bool_decide_false; [by apply Z.leb_gt|]. intros ->. cbn [dirents] in D2. lia.
  - intros d rest' Er. destruct (H2 d rest' Er) as [Hh|Hh]; [|by left]. right. destruct Hend as [->|Hend]; [done|].
    unfold hi in Hh. lia.
Qed.

(** C10: A client that reads a directory, with buffers that hold at least one record, is
    done after at most one call for each entry and one more; it has received every entry
    of the directory exactly once, in order, with names that end in a zero; those with an
    inode are the names in the directory. *)
Theorem readdir_complete bufsize flag resid l :
  dir_ok fs ds l -> Forall (fun d => d_type d <> 8) l -> MAXNAMLEN + 1 < sizeof_dirent < 2 ^ 15 ->
  (forall d s, uiomove d s = Ret 0 (move d s)) -> reads fs (blocks ds) (dp_size (dp ds)) ext2_read ->
  (forall i : nat, sizeof_dirent <= bufsize i < 2 ^ 30) -> 0 <= flag < 2 ^ 32 -> has_flag flag IN_LOOK = false ->
  exists resid' ms,
    read_all fs (dp_size (dp ds)) sizeof_dirent uiomove ext2_read bufsize (S (length l)) 0 (mkRd flag 0 resid []) =
      Ret 0 (mkRd flag (dp_size (dp ds)) resid' ms) /\
    ms = (direntry_of sizeof_dirent <$> l) /\ Forall terminated ms /\ received ms = (fun k => (k.1.1, k.2)) <$> live l.
Proof.
  intros [Hfs [Hs Hdiv] D _] F Hsz Hmove Hread Hbuf Hfl Hlook.
  destruct (read_all_ok fs Hfs _ _ _ uiomove _ bufsize (S (length l)) 0 [] l (mkRd flag 0 resid []) Hsz Hmove Hread Hs Hdiv Hbuf D F eq_refl Hfl Hlook
    ltac:(lia)) as [r Er].
  exists r, (direntry_of sizeof_dirent <$> l). pose proof (dirents_wf _ _ _ _ _ D) as W. split_and!; [exact Er|done| |by apply received_live].
  apply Forall_fmap. rewrite Forall_forall in W, F |- *. intros d Hd. by apply direntry_of_fields; auto.
Qed.
End properties.

(** ** An example *)

Definition sample_read (start count : Z) : Z * Z * list Z :=
  let n := Z.min count (64 - start) in (0, count - n, default [] (slice start n sample_block)).
Definition sample_move (d : dirent) : RD Z := modify (move d);; mret 0.

Lemma sample_reads : reads sample_fs (blocks sample_dir) 64 sample_read.
Proof.
  intros start count Hs Hc _ n. assert (length sample_block = 64%nat) as Hl by by vm_compute. assert (n = Z.min count (64 - start)) as Hn by done. clearbody n.
  destruct (slice_is_some start n sample_block ltac:(lia) ltac:(lia) ltac:(lia)) as [buf E].
  exists buf. unfold sample_read. cbv zeta. rewrite <- Hn, E. split; [done|]. intros o k b Ho Hk Hb Hfit Hin. cbn [fs_blocksize sample_fs] in *.
  assert (o / 64 = 0) as E0 by (apply Z.div_small; lia). rewrite E0 in Hb. injection Hb as <-.
  rewrite Z.mod_small by lia. rewrite (slice_slice start n sample_block buf (o - start) k E) by lia. f_equal. lia.
Qed.

Lemma sample_types : Forall (fun d => d_type d <> 8) sample_entries.
Proof. repeat constructor; done. Qed.

(** A buffer of 20 bytes gets "." only. *)
Lemma readdir_moves_witness : exists m rest, sample_entries = m ++ rest /\
  ext2_readdir 264 sample_move sample_read 64 false true 0 64 (mkRd 0 0 20 []) =
    Ret (0, Some (bool_decide (rest = []))) (mkRd 0 (extent ([] ++ m)) (20 - total 264 m) ([] ++ (direntry_of 264 <$> m))) /\
  total 264 m <= 20 /\
  (forall d rest', rest = d :: rest' -> 20 - total 264 m < dirsiz 264 d \/ 0 + window sample_fs 0 20 <= extent ([] ++ m)).
Proof.
  apply (readdir_moves sample_fs sample_dir 264 sample_move sample_read [] sample_entries (mkRd 0 0 20 [])).
  - exact sample_ok.
  - exact sample_types.
  - unfold MAXNAMLEN. lia.
  - reflexivity.
  - exact sample_reads.
  - reflexivity.
  - cbn. lia.
  - cbn. lia.
  - reflexivity.
  - discriminate.
Defined.

Lemma readdir_complete_witness : exists resid ms,
  read_all sample_fs 64 264 sample_move sample_read (fun _ => 264) 3 0 (mkRd 0 0 0 []) = Ret 0 (mkRd 0 64 resid ms) /\
  ms = (direntry_of 264 <$> sample_entries) /\ Forall terminated ms /\ received ms = [(2, [46]); (2, [46; 46])].
Proof.
  apply (readdir_complete sample_fs sample_dir 264 sample_move sample_read (fun _ => 264) 0 0 sample_entries).
  - exact sample_ok.
  - exact sample_types.
  - unfold MAXNAMLEN. lia.
  - reflexivity.
  - exact sample_reads.
  - intros _. lia.
  - lia.
  - reflexivity.
Defined.
