(* ===== verification/Ihash.v ===== *)
(** * The table of in-core inodes (src/src/gnu/ext2fs/ext2_ihash.c, ext2_vfsops.c)

    The hash table of inodes, the search that [ext2_hash_get] makes, and the protocol by
    which [ext2_vget_internal] enters an inode that is not there, with threads that can be
    preempted between any two accesses to what they share. *)

From S2P Require Import Prelude Fballoc.

Definition IN_HASHED : Z := 0x20.
Definition IN_INIT : Z := 0x200.
Definition IN_INITWAIT : Z := 0x400.
Definition ENOENT : Z := 2.
Definition EIO : Z := 5.

(** ** The table *)

(** An inode: what the table needs. *)
Record hnode := mkHnode {
  i_dev : Z;
  i_number : Z;
  i_flag : Z;
}.

(** The chains, by their index; inodes are given by numbers that stand for pointers. *)
Record htable := mkHtable {
  ihashtbl : gmap Z (list Z);
  nodes : gmap Z hnode;
}.

Abbreviation IH := (kern htable).

Definition set_iflag (x : Z) (n : hnode) : hnode := mkHnode (i_dev n) (i_number n) x.
Definition chain (s : htable) (k : Z) : list Z := default [] (ihashtbl s !! k).
Definition node (p : Z) : IH hnode := s ← gets nodes; access (s !! p).
Definition set_node (p : Z) (n : hnode) : IH unit := modify (fun s => mkHtable (ihashtbl s) (<[p := n]> (nodes s))).

Section Table.
(** [minor] of the system's headers, and the size of the table less one. *)
Context (minor : Z -> Z) (ihash : Z).

Definition INOHASH (dev inum : Z) : Z := Z.land (minor dev + inum) ihash.

(** LIST_FOREACH, up to the inode that is looked for. *)
Fixpoint foreach (dev inum : Z) (l : list Z) : IH (option Z) :=
  match l with
  | [] => mret None
  | ip :: l =>
      n ← node ip;
      if (inum =? i_number n) && (dev =? i_dev n) then mret (Some ip) else foreach dev inum l
  end.

Definition ext2_hash_lookup (dev inum : Z) : IH (option Z) :=
  s ← gets id;
  foreach dev inum (chain s (INOHASH dev inum)).

Definition ext2_hash_insert (ip : Z) : IH unit :=
  n ← node ip;
  let ipp := INOHASH (i_dev n) (i_number n) in
  modify (fun s => mkHtable (<[ipp := ip :: chain s ipp]> (ihashtbl s)) (nodes s));;
  set_node ip (set_iflag (Z.lor (i_flag n) IN_HASHED) n).

(** LIST_REMOVE takes the inode out of the chain that it is in. *)
Definition ext2_hash_remove (ip : Z) : IH unit :=
  n ← node ip;
  if has_flag (i_flag n) IN_HASHED then
    set_node ip (set_iflag (Z.land (i_flag n) (u32 (Z.lnot IN_HASHED))) n);;
    modify (fun s => mkHtable (filter (.≠ ip) <$> ihashtbl s) (nodes s))
  else mret tt.

(** What the kernel does: sleeping on an inode, [vnode_getwithvid] of the vnode of an
    inode, and the inode that the vnode has then. *)
Context (ISLEEP : Z -> IH Z) (vnode_getwithvid VTOI : Z -> IH Z).

(** An error of the last sleep; that of an earlier one is lost. *)
Fixpoint init_loop (fuel : nat) (ip error : Z) : IH Z :=
  match fuel with
  | O => out_of_fuel
  | S fuel =>
      n ← node ip;
      if has_flag (i_flag n) IN_INIT then
        set_node ip (set_iflag (Z.lor (i_flag n) IN_INITWAIT) n);;
        error ← ISLEEP ip;
        init_loop fuel ip error
      else mret error
  end.

Fixpoint ext2_hash_get (fuel : nat) (dev inum : Z) : IH (Z * option Z) :=
  match fuel with
  | O => out_of_fuel
  | S fuel =>
      r ← ext2_hash_lookup dev inum;
      match r with
      | None => mret (0, None)
      | Some ip =>
          error ← init_loop fuel ip 0;
          n ← node ip;
          let error := if (error =? 0) && negb (has_flag (i_flag n) IN_HASHED) then EIO else error in
          if negb (error =? 0) then mret (error, None)
          else
            error ← vnode_getwithvid ip;
            if error =? ENOENT then ext2_hash_get fuel dev inum
            else if negb (error =? 0) then mret (error, None)
            else
              ip' ← VTOI ip;
              if negb (ip =? ip') then ext2_hash_get fuel dev inum
              else mret (0, Some ip)
      end
  end.

End Table.

(** ** The table is a map *)

(** Device and number of an inode. *)
Definition key_of (s : htable) (p : Z) : option (Z * Z) := (fun n => (i_dev n, i_number n)) <$> nodes s !! p.

(** [p] is in the table under the key. *)
Definition hashed (s : htable) (key : Z * Z) (p : Z) : Prop :=
  exists n, nodes s !! p = Some n /\ (i_dev n, i_number n) = key /\ has_flag (i_flag n) IN_HASHED = true.

Lemma foreach_spec dev inum l s :
  Forall (fun p => exists key, hashed s key p) l ->
  exists r, foreach dev inum l s = Ret r s /\
    match r with Some p => p ∈ l /\ hashed s (dev, inum) p | None => forall p, p ∈ l -> ~ hashed s (dev, inum) p end.
Proof.
  induction l as [|p l IH]; intros F.
  { exists None. split; [done|]. intros p Hp. by apply elem_of_nil in Hp. }
  apply Forall_cons in F as [(key & n & Hn & Hk & Hh) F]. destruct (IH F) as (r & Er & Hr). cbn [foreach].
  unfold node, mbind, kern_bind, gets, access. rewrite Hn.
  destruct (Z.eqb_spec inum (i_number n)) as [Ei|Ei], (Z.eqb_spec dev (i_dev n)) as [Ed|Ed]; cbn [andb].
  { exists (Some p). split; [done|]. split; [by left|]. exists n. split; [done|]. by subst. }
  all: exists r; split; [exact Er|]; destruct r as [q|]; [destruct Hr; split; [by right|done]|].
  all: intros q Hq; apply elem_of_cons in Hq as [->|Hq]; [|by apply Hr].
  all: intros (n' & Hn' & [= E1 E2] & _); rewrite Hn in Hn'; injection Hn' as <-; congruence.
Qed.

Lemma foreach_head dev inum l s :
  Forall (fun p => is_Some (nodes s !! p)) l ->
  foreach dev inum l s = Ret (head (filter (fun p => key_of s p = Some (dev, inum)) l)) s.
Proof.
  induction l as [|p l IH]; intros F; [done|]. apply Forall_cons in F as [[n Hn] F]. cbn [foreach].
  unfold node, mbind, kern_bind, gets, access. rewrite Hn, filter_cons.
  assert (key_of s p = Some (i_dev n, i_number n)) as Hk by (unfold key_of; by rewrite Hn).
  destruct (Z.eqb_spec inum (i_number n)) as [->|Ei], (Z.eqb_spec dev (i_dev n)) as [->|Ed]; cbn [andb].
  { rewrite decide_True by done. done. }
  all: rewrite decide_False by (rewrite Hk; congruence); by apply IH.
Qed.

Lemma chain_insert s k l k' t : chain (mkHtable (<[k := l]> (ihashtbl s)) t) k' = if decide (k = k') then l else chain s k'.
Proof. unfold chain. cbn. destruct (decide (k = k')) as [<-|]; [by rewrite lookup_insert_eq|by rewrite lookup_insert_ne]. Qed.

Lemma chain_filter s ip k t : chain (mkHtable (filter (.≠ ip) <$> ihashtbl s) t) k = filter (.≠ ip) (chain s k).
Proof. unfold chain. cbn. rewrite lookup_fmap. by destruct (ihashtbl s !! k). Qed.

Lemma hashed_set s t ip n key p :
  hashed (mkHtable t (<[ip := n]> (nodes s))) key p <->
  (p = ip /\ (i_dev n, i_number n) = key /\ has_flag (i_flag n) IN_HASHED = true) \/ (p <> ip /\ hashed s key p).
Proof.
  unfold hashed. cbn [nodes]. destruct (decide (ip = p)) as [->|Hne].
  - rewrite lookup_insert_eq. naive_solver.
  - rewrite lookup_insert_ne by done. naive_solver.
Qed.

Section Map.
Context (minor : Z -> Z) (ihash : Z).
Local Abbreviation ih_index := (INOHASH minor ihash).

(** The inodes in the chains are those with IN_HASHED, each once, in the chain of its key. *)
Record table_ok (s : htable) : Prop := {
  to_in : forall k p, p ∈ chain s k -> exists key, hashed s key p /\ ih_index key.1 key.2 = k;
  to_all : forall key p, hashed s key p -> p ∈ chain s (ih_index key.1 key.2);
  to_nodup : forall k, NoDup (chain s k);
}.

(** The table holds [M]: no key is there twice. *)
Definition holds (s : htable) (M : gmap (Z * Z) Z) : Prop :=
  table_ok s /\ forall key p, hashed s key p <-> M !! key = Some p.

Lemma lookup_holds dev inum s M : holds s M -> ext2_hash_lookup minor ihash dev inum s = Ret (M !! (dev, inum)) s.
Proof.
  intros [[T1 T2 T3] HM]. unfold ext2_hash_lookup. unfold mbind, kern_bind, gets, id.
  destruct (foreach_spec dev inum (chain s (ih_index dev inum)) s) as (r & -> & Hr).
  { apply Forall_forall. intros p Hp. destruct (T1 _ _ Hp) as (key & Hk & _). by exists key. }
  f_equal. destruct r as [p|]; [symmetry; apply HM, Hr|]. symmetry. apply eq_None_not_Some. intros [p Hp].
  apply HM in Hp. by apply (Hr p (T2 _ _ Hp)).
Qed.

Lemma key_of_set s t ip n n' p :
  nodes s !! ip = Some n -> i_dev n' = i_dev n -> i_number n' = i_number n -> key_of (mkHtable t (<[ip := n']> (nodes s))) p = key_of s p.
Proof.
  intros Hn E1 E2. unfold key_of. cbn [nodes]. destruct (decide (ip = p)) as [<-|]; [|by rewrite lookup_insert_ne].
  rewrite lookup_insert_eq, Hn. cbn. by rewrite E1, E2.
Qed.

(** Insertion of an inode that is not in the table, whatever its key. *)
Lemma insert_ok ip n s :
  table_ok s -> nodes s !! ip = Some n -> has_flag (i_flag n) IN_HASHED = false ->
  exists s', ext2_hash_insert minor ihash ip s = Ret tt s' /\ table_ok s' /\
    (forall key p, hashed s' key p <-> (p = ip /\ key = (i_dev n, i_number n)) \/ (p <> ip /\ hashed s key p)) /\
    (forall p, key_of s' p = key_of s p) /\ nodes s' = <[ip := set_iflag (Z.lor (i_flag n) IN_HASHED) n]> (nodes s) /\
    (forall k, chain s' k = if decide (ih_index (i_dev n) (i_number n) = k) then ip :: chain s k else chain s k).
Proof.
  intros [T1 T2 T3] Hn Hf. unfold ext2_hash_insert, node, set_node, mbind, kern_bind, gets, access. rewrite Hn.
  eexists. split; [reflexivity|]. cbn [nodes ihashtbl]. set (key0 := (i_dev n, i_number n)) in *.
  set (n' := set_iflag (Z.lor (i_flag n) IN_HASHED) n). set (k0 := ih_index (i_dev n) (i_number n)).
  assert (has_flag (i_flag n') IN_HASHED = true) as Hf'.
  { cbn. unfold has_flag. rewrite Z.land_lor_distr_l, Z.land_diag. apply negb_true_iff, Z.eqb_neq. intros E. by apply Z.lor_eq_0_iff in E as [_ E]. }
  assert (forall key, ~ hashed s key ip) as Hnot by (intros key (n0 & Hn0 & _ & Hh); rewrite Hn in Hn0; injection Hn0 as <-; congruence).
  assert (forall t key p, hashed (mkHtable t (<[ip := n']> (nodes s))) key p <-> (p = ip /\ key = key0) \/ (p <> ip /\ hashed s key p)) as HH.
  { intros t key p. rewrite hashed_set. change (i_dev n', i_number n') with key0. naive_solver. }
  split; [split|split; [by apply HH|split; [intros p; by apply (key_of_set s _ ip n)|split; [done|]]]].
  - intros k p Hp. rewrite chain_insert in Hp. destruct (decide (k0 = k)) as [<-|].
    + apply elem_of_cons in Hp as [->|Hp]; [exists key0; split; [apply HH; by left|done]|].
      destruct (T1 _ _ Hp) as (key & Hk & E). exists key. split; [|done]. apply HH. right. split; [|done]. intros ->. by apply (Hnot key).
    + destruct (T1 _ _ Hp) as (key & Hk & E). exists key. split; [|done]. apply HH. right. split; [|done]. intros ->. by apply (Hnot key).
  - intros key p Hp. rewrite chain_insert. apply HH in Hp as [[-> ->]|[Hne Hp]]; [rewrite decide_True by done; by left|].
    apply T2 in Hp. destruct (decide _) as [E|]; [|done]. rewrite <- E in Hp. by right.
  - intros k. rewrite chain_insert. destruct (decide _) as [<-|]; [|done]. apply NoDup_cons. split; [|done].
    intros Hp. destruct (T1 _ _ Hp) as (key & Hk & _). by apply (Hnot key).
  - intros k. rewrite chain_insert. by destruct (decide _) as [<-|].
Qed.

Lemma insert_holds ip n s M :
  holds s M -> nodes s !! ip = Some n -> has_flag (i_flag n) IN_HASHED = false -> M !! (i_dev n, i_number n) = None ->
  exists s', ext2_hash_insert minor ihash ip s = Ret tt s' /\ holds s' (<[(i_dev n, i_number n) := ip]> M) /\
    (forall p, key_of s' p = key_of s p) /\ nodes s' = <[ip := set_iflag (Z.lor (i_flag n) IN_HASHED) n]> (nodes s).
Proof.
  intros [T HM] Hn Hf HK. destruct (insert_ok ip n s T Hn Hf) as (s' & E & T' & HH & H1 & H2 & _). exists s'. split_and!; [done| |done..].
  split; [done|]. intros key p. rewrite HH. set (key0 := (i_dev n, i_number n)) in *. destruct (decide (key0 = key)) as [<-|Hne].
  - rewrite lookup_insert_eq. split; [intros [[-> _]|[_ Hp]]; [done|apply HM in Hp; congruence]|]. intros [= ->]. by left.
  - rewrite lookup_insert_ne, <- HM by done. split; [intros [[_ ->]|[_ Hp]]; done|]. intros Hp. right. split; [|done].
    intros ->. destruct Hp as (n0 & Hn0 & _ & Hh). rewrite Hn in Hn0. injection Hn0 as <-. congruence.
Qed.

Lemma filter_keeps (P : Z -> Prop) `{!forall x, Decision (P x)} (l : list Z) : (forall x, x ∈ l -> P x) -> filter P l = l.
Proof.
  induction l as [|x l IH]; intros HP; [done|]. rewrite filter_cons, decide_True by by apply HP; left. f_equal. apply IH. intros y Hy. apply HP. by right.
Qed.

Lemma remove_ok ip n s :
  table_ok s -> nodes s !! ip = Some n ->
  exists s', ext2_hash_remove ip s = Ret tt s' /\ table_ok s' /\ (forall p, key_of s' p = key_of s p) /\
    (forall k, chain s' k = filter (.≠ ip) (chain s k)).
Proof.
  intros T Hn. pose proof T as [T1 T2 T3]. unfold ext2_hash_remove, node, set_node, mbind, kern_bind, gets, access. rewrite Hn.
  destruct (has_flag (i_flag n) IN_HASHED) eqn:Hf.
  2:{ exists s. split_and!; [done..|]. intros k. symmetry. apply filter_keeps. intros p Hp ->. destruct (T1 _ _ Hp) as (key & (n0 & Hn0 & _ & Hh) & _).
      rewrite Hn in Hn0. injection Hn0 as <-. congruence. }
  eexists. split; [reflexivity|]. cbn [nodes ihashtbl].
  set (n' := set_iflag (Z.land (i_flag n) (u32 (Z.lnot IN_HASHED))) n).
  assert (has_flag (i_flag n') IN_HASHED = false) as Hf'.
  { cbn. unfold has_flag. rewrite <- Z.land_assoc. change (Z.land (u32 (Z.lnot IN_HASHED)) IN_HASHED) with 0. by rewrite Z.land_0_r. }
  assert (forall t key p, hashed (mkHtable t (<[ip := n']> (nodes s))) key p <-> p <> ip /\ hashed s key p) as HH.
  { intros t key p. rewrite hashed_set. rewrite Hf'. naive_solver. }
  split; [split|split; [intros p; by apply (key_of_set s _ ip n)|intros k; by apply chain_filter]].
  - intros k p Hp. rewrite chain_filter in Hp. apply list_elem_of_filter in Hp as [Hne Hp].
    destruct (T1 _ _ Hp) as (key & Hk & E). exists key. by rewrite HH.
  - intros key p Hp. apply HH in Hp as [Hne Hp]. rewrite chain_filter. apply list_elem_of_filter. split; [done|by apply T2].
  - intros k. rewrite chain_filter. by apply NoDup_filter.
Qed.

(** ** The table, with the inodes of each key in the order in which they are found *)

(** More than one inode may be in the table for a key, as [ext2_hash_insert] does not look. *)
Definition under (s : htable) (key : Z * Z) : list Z := filter (fun p => key_of s p = Some key) (chain s (ih_index key.1 key.2)).
Definition entered (M : gmap (Z * Z) (list Z)) (key : Z * Z) : list Z := default [] (M !! key).
Definition stacked (s : htable) (M : gmap (Z * Z) (list Z)) : Prop := table_ok s /\ forall key, under s key = entered M key.

Lemma entered_insert M key l key' : entered (<[key := l]> M) key' = if decide (key = key') then l else entered M key'.
Proof. unfold entered. destruct (decide (key = key')) as [<-|]; [by rewrite lookup_insert_eq|by rewrite lookup_insert_ne]. Qed.

Lemma lookup_stacked dev inum s M : stacked s M -> ext2_hash_lookup minor ihash dev inum s = Ret (head (entered M (dev, inum))) s.
Proof.
  intros [[T1 T2 T3] HM]. unfold ext2_hash_lookup. unfold mbind, kern_bind, gets, id. rewrite foreach_head.
  - by rewrite <- HM.
  - apply Forall_forall. intros p Hp. destruct (T1 _ _ Hp) as (key & (n & Hn & _) & _). by exists n.
Qed.

Lemma insert_stacked ip key s M :
  stacked s M -> key_of s ip = Some key -> ip ∉ entered M key ->
  exists s', ext2_hash_insert minor ihash ip s = Ret tt s' /\ stacked s' (<[key := ip :: entered M key]> M) /\ forall p, key_of s' p = key_of s p.
Proof.
  intros [T HM] Hk Hin. pose proof Hk as Hk0. unfold key_of in Hk0. destruct (nodes s !! ip) as [n|] eqn:Hn; [|done]. injection Hk0 as <-.
  assert (has_flag (i_flag n) IN_HASHED = false) as Hf.
  { apply not_true_iff_false. intros Hf. apply Hin. rewrite <- HM. apply list_elem_of_filter. split; [done|]. apply (to_all _ T). by exists n. }
  destruct (insert_ok ip n s T Hn Hf) as (s' & E & T' & _ & H1 & _ & HC). exists s'. split_and!; [done| |done]. split; [done|].
  intros key. rewrite entered_insert, <- !HM. unfold under. rewrite HC. cbn [fst snd].
  assert (forall l, filter (fun p => key_of s' p = Some key) l = filter (fun p => key_of s p = Some key) l) as HF
    by (intros l; apply list_filter_iff; intros p; by rewrite H1).
  rewrite HF. destruct (decide ((i_dev n, i_number n) = key)) as [<-|Hne].
  - rewrite decide_True by done. rewrite filter_cons, decide_True by done. done.
  - destruct (decide _) as [<-|]; [|done]. rewrite filter_cons, decide_False; [done|]. rewrite Hk. congruence.
Qed.

Lemma remove_stacked ip key s M :
  stacked s M -> key_of s ip = Some key ->
  exists s', ext2_hash_remove ip s = Ret tt s' /\ stacked s' (<[key := filter (.≠ ip) (entered M key)]> M) /\ forall p, key_of s' p = key_of s p.
Proof.
  intros [T HM] Hk. pose proof Hk as Hk0. unfold key_of in Hk0. destruct (nodes s !! ip) as [n|] eqn:Hn; [|done]. clear Hk0.
  destruct (remove_ok ip n s T Hn) as (s' & E & T' & H1 & HC). exists s'. split_and!; [done| |done]. split; [done|].
  intros key'. rewrite entered_insert, <- !HM. unfold under. rewrite HC.
  assert (forall l, filter (fun p => key_of s' p = Some key') l = filter (fun p => key_of s p = Some key') l) as HF
    by (intros l; apply list_filter_iff; intros p; by rewrite H1).
  rewrite HF. destruct (decide (key = key')) as [<-|Hne].
  - rewrite !list_filter_filter. apply list_filter_iff. naive_solver.
  - rewrite list_filter_filter. apply list_filter_iff. intros p. split; [by intros [? _]|]. intros Hp. split; [done|]. intros ->. congruence.
Qed.

(** ** Sequences of operations *)

Inductive hop := Lookup (dev inum : Z) | Insert (ip : Z) | Remove (ip : Z).

Definition hexec (o : hop) : IH (option Z) :=
  match o with
  | Lookup dev inum => ext2_hash_lookup minor ihash dev inum
  | Insert ip => ext2_hash_insert minor ihash ip;; mret None
  | Remove ip => ext2_hash_remove ip;; mret None
  end.

(** What the map from keys to inodes does; an inode that is inserted is not in the table, its
    key may be. *)
Inductive hstep (key_of : Z -> option (Z * Z)) (M : gmap (Z * Z) (list Z)) : hop -> option Z -> gmap (Z * Z) (list Z) -> Prop :=
| hs_lookup dev inum : hstep key_of M (Lookup dev inum) (head (entered M (dev, inum))) M
| hs_insert ip key : key_of ip = Some key -> ip ∉ entered M key -> hstep key_of M (Insert ip) None (<[key := ip :: entered M key]> M)
| hs_remove ip key : key_of ip = Some key -> hstep key_of M (Remove ip) None (<[key := filter (.≠ ip) (entered M key)]> M).
Inductive hsteps (key_of : Z -> option (Z * Z)) : gmap (Z * Z) (list Z) -> list hop -> list (option Z) -> gmap (Z * Z) (list Z) -> Prop :=
| hss_nil M : hsteps key_of M [] [] M
| hss_cons M M1 M2 o os r rs : hstep key_of M o r M1 -> hsteps key_of M1 os rs M2 -> hsteps key_of M (o :: os) (r :: rs) M2.

Fixpoint hrun (os : list hop) : IH (list (option Z)) :=
  match os with
  | [] => mret []
  | o :: os => r ← hexec o; rs ← hrun os; mret (r :: rs)
  end.

Lemma hexec_refines o r M M' s : stacked s M -> hstep (key_of s) M o r M' ->
  exists s', hexec o s = Ret r s' /\ stacked s' M' /\ forall p, key_of s' p = key_of s p.
Proof.
  intros HM St. destruct St as [dev inum|ip key Hk Hin|ip key Hk]; cbn [hexec].
  - exists s. by rewrite (lookup_stacked _ _ _ _ HM).
  - destruct (insert_stacked ip key s M HM Hk Hin) as (s' & E & H1 & H2). exists s'. unfold mbind, kern_bind. by rewrite E.
  - destruct (remove_stacked ip key s M HM Hk) as (s' & E & H1 & H2). exists s'. unfold mbind, kern_bind. by rewrite E.
Qed.

Lemma hstep_ext f g M o r M' : (forall p, f p = g p) -> hstep f M o r M' -> hstep g M o r M'.
Proof. intros E []; [apply hs_lookup|apply hs_insert|apply hs_remove]; rewrite <- ?E; done. Qed.

Lemma hsteps_ext f g M os rs M' : (forall p, f p = g p) -> hsteps f M os rs M' -> hsteps g M os rs M'.
Proof. intros E. induction 1; [apply hss_nil|]. eapply hss_cons; [by eapply hstep_ext|done]. Qed.

(** C36: The table of in-core inodes maps device and number to inodes: searches, insertions
    of inodes that are not in it and removals, in any order, give what the map gives; a key
    that is entered again hides the older inode until the newer one is removed.  A search
    never follows a pointer to something else, and the chains stay well formed. *)
Theorem table_refines os rs M M' s :
  stacked s M -> hsteps (key_of s) M os rs M' -> exists s', hrun os s = Ret rs s' /\ stacked s' M'.
Proof.
  intros HM H. revert s HM H. revert M rs M'. induction os as [|o os IH]; intros M rs M' s HM H; inversion H; subst.
  { by exists s. }
  match goal with S : hstep _ _ _ _ _ |- _ => destruct (hexec_refines _ _ _ _ _ HM S) as (s1 & E1 & H1 & K1) end.
  match goal with S : hsteps _ _ os _ _ |- _ => destruct (IH _ _ _ s1 H1 (hsteps_ext _ _ _ _ _ _ (fun p => eq_sym (K1 p)) S)) as (s2 & E2 & H2) end.
  exists s2. split; [|done]. cbn [hrun]. unfold mbind, kern_bind. by rewrite E1, E2.
Qed.
End Map.

Lemma hs_found f M dev inum r : head (entered M (dev, inum)) = r -> hstep f M (Lookup dev inum) r M.
Proof. intros <-. apply hs_lookup. Qed.

(** Two inodes on one chain, and one with the key of another. *)
Definition two_inodes : htable := mkHtable ∅ {[ 0 := mkHnode 1 2 0; 1 := mkHnode 1 10 0; 2 := mkHnode 1 2 0 ]}.

Lemma two_inodes_empty : stacked (fun d => d) 7 two_inodes ∅.
Proof.
  assert (forall key p, ~ hashed two_inodes key p) as H0.
  { intros key p (n & Hn & _ & Hh). cbn in Hn. apply lookup_insert_Some in Hn as [[_ <-]|[_ Hn]]; [done|].
    apply lookup_insert_Some in Hn as [[_ <-]|[_ Hn]]; [done|]. by apply lookup_singleton_Some in Hn as [_ <-]. }
  split; [split|].
  - intros k p Hp. by apply elem_of_nil in Hp.
  - intros key p Hp. by apply H0 in Hp.
  - intros k. constructor.
  - intros key. done.
Qed.

Lemma table_refines_witness : exists s',
  hrun (fun d => d) 7 [Insert 0; Insert 1; Lookup 1 2; Insert 2; Lookup 1 2; Remove 2; Lookup 1 2; Lookup 1 10] two_inodes =
    Ret [None; None; Some 0; None; Some 2; None; Some 0; Some 1] s' /\
  stacked (fun d => d) 7 s' (<[(1, 2) := [0]]> (<[(1, 2) := [2; 0]]> (<[(1, 10) := [1]]> (<[(1, 2) := [0]]> ∅)))).
Proof.
  apply (table_refines (fun d => d) 7 _ _ ∅ _ two_inodes two_inodes_empty).
  eapply hss_cons; [apply (hs_insert _ _ 0 (1, 2)); [done|apply not_elem_of_nil]|].
  eapply hss_cons; [apply (hs_insert _ _ 1 (1, 10)); [done|apply not_elem_of_nil]|].
  eapply hss_cons; [by apply hs_found; vm_compute|]. eapply hss_cons; [apply (hs_insert _ _ 2 (1, 2)); [done|by apply (bool_decide_unpack (2 ∉ [0]))]|].
  eapply hss_cons; [by apply hs_found; vm_compute|]. eapply hss_cons; [by apply (hs_remove _ _ 2 (1, 2)); vm_compute|].
  eapply hss_cons; [by apply hs_found; vm_compute|]. eapply hss_cons; [by apply hs_found; vm_compute|]. apply hss_nil.
Defined.
