(* ===== verification/Vget.v ===== *)
(** * Bringing an inode into core (src/src/gnu/ext2fs/ext2_vfsops.c)

    The protocol of [ext2_vget_internal]: threads look an inode up in the table of [Ihash]
    and, if it is not there, take [ext2fs_inode_hash_lock] to make a new one.  A step of a
    thread is one access to what the threads share; any thread may be the next to take a
    step.  The paths behind a read error of the device are not modelled. *)

From S2P Require Import Prelude Fballoc Ihash.

(** ** The protocol *)

(** Where a thread is: before [ext2_hash_get]; before the test of the lock; in the loop
    that waits, before its test, before the swap with the value read as the old one, and
    asleep; before the arguments of the swap are read and before the swap; with the lock;
    before it is given back, in two steps; before the inode is filled; at the end. *)
Inductive pc :=
| PGet
| PTest
| PWait
| PMark (old : Z)
| PSleep
| PSwap
| PSwapped (old : Z)
| PInsert
| PUnlock (p : Z)
| PRelease (p old : Z)
| PFill (p : Z)
| PDone (p : Z).

#[export] Instance pc_eq_dec : EqDecision pc.
Proof. solve_decision. Defined.

(** [next]: the next pointer that MALLOC gives. *)
Record vstate := mkVstate {
  table : htable;
  hash_lock : Z;
  next : Z;
  pcs : gmap Z pc;
}.

Definition goto (t : Z) (c : pc) (s : vstate) : vstate := mkVstate (table s) (hash_lock s) (next s) (<[t := c]> (pcs s)).
Definition set_lock (x : Z) (s : vstate) : vstate := mkVstate (table s) x (next s) (pcs s).

Section Protocol.
Context (minor : Z -> Z) (ihash : Z).
(** Device and number of the inode that a thread wants. *)
Context (wants : Z -> Z * Z).

(** Of the kernel: the old value first. *)
Definition OSCompareAndSwap (old new : Z) (s : vstate) : bool * vstate :=
  if hash_lock s =? old then (true, set_lock new s) else (false, s).

(** The new inode, with IN_INIT, in the table. *)
Definition insert_new (t : Z) (s : vstate) : option vstate :=
  let '(dev, ino) := wants t in
  match ext2_hash_insert minor ihash (next s) (mkHtable (ihashtbl (table s)) (<[next s := mkHnode dev ino IN_INIT]> (nodes (table s)))) with
  | Ret _ tb => Some (mkVstate tb (hash_lock s) (next s + 1) (pcs s))
  | _ => None
  end.

(** IN_INIT is taken away. *)
Definition fill (p : Z) (s : vstate) : option vstate :=
  n ← nodes (table s) !! p;
  Some (mkVstate (mkHtable (ihashtbl (table s)) (<[p := set_iflag (Z.land (i_flag n) (u32 (Z.lnot IN_INIT))) n]> (nodes (table s))))
          (hash_lock s) (next s) (pcs s)).

(** A step of thread [t]; [None] if it cannot take one: it is done, or waits for an inode
    that is being filled. *)
Definition vstep (t : Z) (s : vstate) : option vstate :=
  match pcs s !! t with
  | None | Some (PDone _) => None
  | Some PGet =>
      match ext2_hash_lookup minor ihash (wants t).1 (wants t).2 (table s) with
      | Ret (Some p) _ =>
          n ← nodes (table s) !! p;
          if has_flag (i_flag n) IN_INIT then None else Some (goto t (PDone p) s)
      | Ret None _ => Some (goto t PTest s)
      | _ => None
      end
  | Some PTest => Some (goto t (if hash_lock s =? 0 then PSwap else PWait) s)
  | Some PWait => Some (goto t (if hash_lock s =? 0 then PGet else PMark (hash_lock s)) s)
  | Some (PMark old) => Some (goto t PSleep (OSCompareAndSwap old (-1) s).2)
  | Some PSleep => Some (goto t PWait s)
  | Some PSwap => Some (goto t (PSwapped (hash_lock s)) s)
  | Some (PSwapped old) =>
      let '(b, s') := OSCompareAndSwap old 1 s in
      Some (goto t (if b : bool then PInsert else PGet) s')
  | Some PInsert => goto t (PUnlock (next s)) <$> insert_new t s
  | Some (PUnlock p) => Some (goto t (PRelease p (hash_lock s)) s)
  | Some (PRelease p old) => Some (goto t (PFill p) (OSCompareAndSwap old 0 s).2)
  | Some (PFill p) => goto t (PDone p) <$> fill p s
  end.

(** The threads that take the steps; one that cannot is passed over. *)
Fixpoint run (schedule : list Z) (s : vstate) : vstate :=
  match schedule with
  | [] => s
  | t :: ts => run ts (default s (vstep t s))
  end.

Lemma run_app a b s : run (a ++ b) s = run b (run a s).
Proof. revert s. induction a as [|t a IH]; intros s; [done|]. cbn [app run]. apply IH. Qed.

Lemma vstep_at t s c : pcs s !! t = Some c -> vstep t s =
  match c with
  | PDone _ => None
  | PGet =>
      match ext2_hash_lookup minor ihash (wants t).1 (wants t).2 (table s) with
      | Ret (Some p) _ =>
          n ← nodes (table s) !! p;
          if has_flag (i_flag n) IN_INIT then None else Some (goto t (PDone p) s)
      | Ret None _ => Some (goto t PTest s)
      | _ => None
      end
  | PTest => Some (goto t (if hash_lock s =? 0 then PSwap else PWait) s)
  | PWait => Some (goto t (if hash_lock s =? 0 then PGet else PMark (hash_lock s)) s)
  | PMark old => Some (goto t PSleep (OSCompareAndSwap old (-1) s).2)
  | PSleep => Some (goto t PWait s)
  | PSwap => Some (goto t (PSwapped (hash_lock s)) s)
  | PSwapped old => let '(b, s') := OSCompareAndSwap old 1 s in Some (goto t (if b : bool then PInsert else PGet) s')
  | PInsert => goto t (PUnlock (next s)) <$> insert_new t s
  | PUnlock p => Some (goto t (PRelease p (hash_lock s)) s)
  | PRelease p old => Some (goto t (PFill p) (OSCompareAndSwap old 0 s).2)
  | PFill p => goto t (PDone p) <$> fill p s
  end.
Proof. intros E. unfold vstep. by rewrite E. Qed.

Lemma run_done t n s p : pcs s !! t = Some (PDone p) -> run (replicate n t) s = s.
Proof. intros E. induction n as [|n IH]; [done|]. cbn [replicate run]. by rewrite (vstep_at _ _ _ E). Qed.

(** ** A thread that is not preempted *)

(** The lock is free, the table holds [M], and its inodes are filled. *)
Record quiet (s : vstate) (M : gmap (Z * Z) Z) : Prop := {
  q_table : holds minor ihash (table s) M;
  q_lock : hash_lock s = 0;
  q_next : forall p, is_Some (nodes (table s) !! p) -> p < next s;
  q_init : forall key p n, M !! key = Some p -> nodes (table s) !! p = Some n -> has_flag (i_flag n) IN_INIT = false;
}.

(** The steps of one call. *)
Definition one_call : nat := 8.

Lemma goto_goto t c c' s : goto t c (goto t c' s) = goto t c s.
Proof. unfold goto. cbn. by rewrite insert_insert_eq. Qed.

Lemma at_goto t c s : pcs (goto t c s) !! t = Some c.
Proof. apply lookup_insert_eq. Qed.

Lemma run_step t ts s s' : vstep t s = Some s' -> run (t :: ts) s = run ts s'.
Proof. intros E. cbn [run]. by rewrite E. Qed.

(** The steps of a thread that has found nothing, up to the new inode. *)
Lemma run_new t s tb :
  hash_lock s = 0 -> pcs s !! t = Some PTest -> insert_new t s = Some (mkVstate tb 0 (next s + 1) (pcs s)) ->
  forall s', fill (next s) (mkVstate tb 0 (next s + 1) (pcs s)) = Some s' -> run (replicate 7 t) s = goto t (PDone (next s)) s'.
Proof.
  intros Hl Ht Ei s' Ef. cbn [replicate].
  rewrite (run_step t _ s (goto t PSwap s)) by (by rewrite (vstep_at _ _ _ Ht), Hl).
  rewrite (run_step t _ _ (goto t (PSwapped 0) s)) by (rewrite (vstep_at _ _ _ (at_goto _ _ _)); cbn [hash_lock goto]; by rewrite Hl, goto_goto).
  rewrite (run_step t _ _ (goto t PInsert (set_lock 1 s))).
  2:{ rewrite (vstep_at _ _ _ (at_goto _ _ _)). unfold OSCompareAndSwap. cbn [hash_lock goto]. rewrite Hl. cbn [Z.eqb]. f_equal. unfold goto, set_lock. cbn.
      by rewrite insert_insert_eq. }
  rewrite (run_step t _ _ (goto t (PUnlock (next s)) (mkVstate tb 1 (next s + 1) (pcs s)))).
  2:{ rewrite (vstep_at _ _ _ (at_goto _ _ _)). unfold insert_new in *. destruct (wants t) as [dev ino]. cbn [next goto set_lock table pcs hash_lock] in *.
      destruct (ext2_hash_insert _ _ _ _); [|done..]. injection Ei as -> _. unfold goto. cbn. by rewrite insert_insert_eq. }
  rewrite (run_step t _ _ (goto t (PRelease (next s) 1) (mkVstate tb 1 (next s + 1) (pcs s))))
    by (rewrite (vstep_at _ _ _ (at_goto _ _ _)); by rewrite goto_goto).
  rewrite (run_step t _ _ (goto t (PFill (next s)) (mkVstate tb 0 (next s + 1) (pcs s)))).
  2:{ rewrite (vstep_at _ _ _ (at_goto _ _ _)). unfold OSCompareAndSwap. cbn. unfold goto. cbn. by rewrite insert_insert_eq. }
  rewrite (run_step t _ _ (goto t (PDone (next s)) s')); [done|].
  rewrite (vstep_at _ _ _ (at_goto _ _ _)). unfold fill in *. cbn [table goto hash_lock next pcs] in *.
  destruct (nodes tb !! next s); [|done]. cbn in *. injection Ef as <-. unfold goto. cbn. by rewrite insert_insert_eq.
Qed.

Lemma flags_new : has_flag (Z.lor IN_INIT IN_HASHED) IN_HASHED = true /\
  has_flag (Z.land (Z.lor IN_INIT IN_HASHED) (u32 (Z.lnot IN_INIT))) IN_HASHED = true /\
  has_flag (Z.land (Z.lor IN_INIT IN_HASHED) (u32 (Z.lnot IN_INIT))) IN_INIT = false.
Proof. by vm_compute. Qed.

(** A node that changes, but not in its key and in whether it is hashed. *)
Lemma node_ok tb p n n' :
  table_ok minor ihash tb -> nodes tb !! p = Some n -> i_dev n' = i_dev n -> i_number n' = i_number n ->
  has_flag (i_flag n') IN_HASHED = has_flag (i_flag n) IN_HASHED ->
  let tb' := mkHtable (ihashtbl tb) (<[p := n']> (nodes tb)) in
  table_ok minor ihash tb' /\ forall key q, hashed tb' key q <-> hashed tb key q.
Proof.
  intros [T1 T2 T3] Hn E1 E2 E3 tb'.
  assert (forall key q, hashed tb' key q <-> hashed tb key q) as HH.
  { intros key q. unfold tb'. rewrite hashed_set, E1, E2, E3. split.
    - intros [(-> & Hk & Hh)|[_ H]]; [by exists n|done].
    - intros H. destruct (decide (q = p)) as [->|]; [left|by right]. destruct H as (n0 & Hn0 & ? & ?). rewrite Hn in Hn0. by injection Hn0 as <-. }
  split; [split|done].
  - intros k q Hq. destruct (T1 k q Hq) as (key & Hk & E). exists key. by rewrite HH.
  - intros key q. rewrite HH. apply T2.
  - exact T3.
Qed.

(** A node that is not in the table may be there or not. *)
Lemma fresh_ok tb p n :
  table_ok minor ihash tb -> nodes tb !! p = None -> has_flag (i_flag n) IN_HASHED = false ->
  let tb' := mkHtable (ihashtbl tb) (<[p := n]> (nodes tb)) in
  table_ok minor ihash tb' /\ forall key q, hashed tb' key q <-> hashed tb key q.
Proof.
  intros [T1 T2 T3] Hn E3 tb'.
  assert (forall key q, hashed tb' key q <-> hashed tb key q) as HH.
  { intros key q. unfold tb'. rewrite hashed_set, E3. split; [by intros [(_ & _ & ?)|[_ ?]]|]. intros H. right. split; [|done]. intros ->.
    destruct H as (? & ? & _). congruence. }
  split; [split|done].
  - intros k q Hq. destruct (T1 k q Hq) as (key & Hk & E). exists key. by rewrite HH.
  - intros key q. rewrite HH. apply T2.
  - exact T3.
Qed.

(** A thread that has not found its inode makes one, whether or not there is one by now. *)
Lemma run_makes t s :
  table_ok minor ihash (table s) -> hash_lock s = 0 -> nodes (table s) !! next s = None -> pcs s !! t = Some PTest ->
  exists s' n, run (replicate 7 t) s = s' /\ pcs s' = <[t := PDone (next s)]> (pcs s) /\ hash_lock s' = 0 /\ next s' = next s + 1 /\
    table_ok minor ihash (table s') /\ nodes (table s') = <[next s := n]> (nodes (table s)) /\ has_flag (i_flag n) IN_INIT = false /\
    forall key p, hashed (table s') key p <-> (p = next s /\ key = wants t) \/ hashed (table s) key p.
Proof.
  intros T Hl Hfr Ht. destruct (wants t) as [dev ino] eqn:Ew.
  set (n0 := mkHnode dev ino IN_INIT). destruct (fresh_ok (table s) (next s) n0 T Hfr eq_refl) as [T0 H0].
  set (tb0 := mkHtable (ihashtbl (table s)) (<[next s := n0]> (nodes (table s)))) in *.
  destruct (insert_ok minor ihash (next s) n0 tb0 T0 (lookup_insert_eq _ _ _) eq_refl) as (tb & Et & T1 & H1 & _ & Hnd & _).
  set (n1 := set_iflag (Z.lor (i_flag n0) IN_HASHED) n0) in *.
  assert (nodes tb !! next s = Some n1) as Hn1 by (rewrite Hnd; apply lookup_insert_eq).
  set (n2 := set_iflag (Z.land (i_flag n1) (u32 (Z.lnot IN_INIT))) n1). destruct flags_new as (F1 & F2 & F3).
  destruct (node_ok tb (next s) n1 n2 T1 Hn1 eq_refl eq_refl ltac:(by etrans)) as [T2 H2].
  eexists _, n2. split; [reflexivity|]. erewrite (run_new t s tb Hl Ht).
  2:{ unfold insert_new. rewrite Ew. fold n0. fold tb0. rewrite Et. by rewrite Hl. }
  2:{ unfold fill. cbn [table]. rewrite Hn1. reflexivity. }
  cbn [pcs goto next hash_lock table nodes]. split_and!; [done..| |done|].
  - rewrite Hnd. unfold tb0. cbn [nodes]. by rewrite !insert_insert_eq.
  - intros key p. etrans; [apply H2|]. rewrite H1, H0. cbn [i_dev i_number n0]. destruct (decide (p = next s)) as [->|]; [|naive_solver].
    assert (~ hashed (table s) key (next s)); [|naive_solver]. intros (? & ? & _). congruence.
Qed.

Lemma run_call t s M :
  quiet s M -> pcs s !! t = Some PGet ->
  let p := default (next s) (M !! wants t) in
  exists s', run (replicate one_call t) s = s' /\ pcs s' = <[t := PDone p]> (pcs s) /\ quiet s' (<[wants t := p]> M).
Proof.
  intros [HT Hl Hnx Hin] Ht. unfold one_call. change (replicate 8 t) with (t :: replicate 7 t).
  assert (vstep t s = match M !! wants t with
    | Some p => n ← nodes (table s) !! p; if has_flag (i_flag n) IN_INIT then None else Some (goto t (PDone p) s)
    | None => Some (goto t PTest s) end) as Es.
  { rewrite (vstep_at _ _ _ Ht), (lookup_holds _ _ _ _ _ _ HT). by destruct (wants t). }
  destruct (M !! wants t) as [p|] eqn:EM; cbn [default id].
  - pose proof HT as [_ HM]. pose proof EM as Hp. apply HM in Hp as (n & Hn & _). rewrite Hn in Es. cbn in Es.
    rewrite (Hin _ _ _ EM Hn) in Es. eexists. split; [reflexivity|].
    rewrite (run_step _ _ _ _ Es). rewrite (run_done t 7 _ p) by apply at_goto. split; [done|]. rewrite insert_id by done. by split.
  - rewrite (run_step _ _ _ _ Es). destruct HT as [T HM].
    assert (nodes (table s) !! next s = None) as Hfr by (apply eq_None_not_Some; intros Hs; apply Hnx in Hs; lia).
    destruct (run_makes t (goto t PTest s) T Hl Hfr (at_goto _ _ _)) as (s' & n & E & H1 & H2 & H3 & H4 & H5 & H6 & H7).
    cbn [pcs next table goto] in *. exists s'. split; [done|]. split; [by rewrite H1, insert_insert_eq|]. split.
    + split; [done|]. intros key p. rewrite H7, lookup_insert_Some, HM. split.
      * intros [[-> ->]|Hp]; [by left|]. right. split; [|done]. intros <-. congruence.
      * intros [[<- <-]|[_ Hp]]; [by left|by right].
    + done.
    + intros p [m Hm]. rewrite H5 in Hm. rewrite H3. destruct (decide (next s = p)) as [<-|Hne]; [lia|]. rewrite lookup_insert_ne in Hm by done.
      specialize (Hnx p ltac:(by exists m)). lia.
    + intros key p m Hk Hm. rewrite H5 in Hm. apply lookup_insert_Some in Hm as [[_ <-]|[Hne Hm]]; [done|].
      apply lookup_insert_Some in Hk as [[_ Hk]|[_ Hk]]; [done|]. by apply (Hin key p m).
Qed.

Lemma vstep_other t t' s s' : t <> t' -> vstep t s = Some s' -> pcs s' !! t' = pcs s !! t'.
Proof.
  intros Hne E. unfold vstep in E. destruct (pcs s !! t) as [[]|]; try done.
  - destruct (ext2_hash_lookup _ _ _ _ _) as [[p|]| | |]; try done.
    + destruct (nodes (table s) !! p); [|done]. cbn in E. destruct (has_flag _ _); [done|]. injection E as <-. by apply lookup_insert_ne.
    + injection E as <-. by apply lookup_insert_ne.
  - injection E as <-. by apply lookup_insert_ne.
  - injection E as <-. by apply lookup_insert_ne.
  - unfold OSCompareAndSwap in E. injection E as <-. destruct (_ =? _); cbn; by apply lookup_insert_ne.
  - injection E as <-. by apply lookup_insert_ne.
  - injection E as <-. by apply lookup_insert_ne.
  - unfold OSCompareAndSwap in E. destruct (_ =? _); injection E as <-; by apply lookup_insert_ne.
  - unfold insert_new in E. destruct (wants t). destruct (ext2_hash_insert _ _ _ _); try done. injection E as <-. by apply lookup_insert_ne.
  - injection E as <-. by apply lookup_insert_ne.
  - unfold OSCompareAndSwap in E. injection E as <-. destruct (_ =? _); cbn; by apply lookup_insert_ne.
  - unfold fill in E. destruct (nodes (table s) !! _); [|done]. injection E as <-. by apply lookup_insert_ne.
Qed.

Lemma pcs_other ts t s : t ∉ ts -> pcs (run (ts ≫= replicate one_call) s) !! t = pcs s !! t.
Proof.
  intros Hnin. assert (forall l s, t ∉ l -> pcs (run l s) !! t = pcs s !! t) as Hrun.
  { intros l. induction l as [|t' l IH]; intros s0 Hl; [done|]. apply not_elem_of_cons in Hl as [Hne Hl]. cbn [run]. rewrite IH by done.
    destruct (vstep t' s0) eqn:E; [|done]. cbn. apply (vstep_other t' t); [congruence|done]. }
  apply Hrun. intros Hin. apply list_elem_of_bind in Hin as (t' & Hin & Ht'). apply elem_of_replicate_inv in Hin. by subst.
Qed.

(** C37: Threads that are not preempted inside [ext2_vget_internal], one after another: each
    is done after eight steps and has the one inode of its key, old or new; the table stays
    a map and the lock is free again. *)
Theorem vget_one_inode ts M s :
  quiet s M -> NoDup ts -> Forall (fun t => pcs s !! t = Some PGet) ts ->
  exists M', quiet (run (ts ≫= replicate one_call) s) M' /\ M ⊆ M' /\
    forall t, t ∈ ts -> exists p, pcs (run (ts ≫= replicate one_call) s) !! t = Some (PDone p) /\ M' !! wants t = Some p.
Proof.
  revert s M. induction ts as [|t ts IH]; intros s M Q ND F.
  { exists M. split_and!; [done|done|]. intros t Ht. by apply elem_of_nil in Ht. }
  apply NoDup_cons in ND as [Hnin ND]. apply Forall_cons in F as [Ht F]. cbn [mbind list_bind]. rewrite run_app.
  destruct (run_call t s M Q Ht) as (s1 & -> & Hpc & Q1). set (p := default (next s) (M !! wants t)) in *.
  assert (M ⊆ <[wants t := p]> M) as Hsub.
  { destruct (M !! wants t) as [q|] eqn:EM; [unfold p; cbn; by rewrite insert_id|by apply insert_subseteq]. }
  destruct (IH s1 _ Q1 ND) as (M' & Q' & HM' & Hts).
  { apply Forall_forall. intros t' Ht'. rewrite Hpc, lookup_insert_ne by by intros ->. by eapply Forall_forall in F. }
  exists M'. split; [done|]. split; [by etrans|]. intros t' Ht'. apply elem_of_cons in Ht' as [->|Ht']; [|by apply Hts].
  exists p. split; [|eapply lookup_weaken; [apply lookup_insert_eq|done]].
  rewrite pcs_other by done. by rewrite Hpc, lookup_insert_eq.
Qed.
(** ** Two threads that ask for the same inode *)

(** Both threads look before one of them has made the inode. *)
Definition both_look (t1 t2 : Z) : list Z := [t1; t2] ++ replicate 7 t1 ++ replicate 7 t2.
(** Both threads find the lock free; the second reads it, as the old value for its swap,
    when the first has it. *)
Definition both_swap (t1 t2 : Z) : list Z := [t1; t1; t2; t2; t1; t1; t2; t2].

Lemma step_get t s M : quiet s M -> M !! wants t = None -> pcs s !! t = Some PGet -> vstep t s = Some (goto t PTest s).
Proof.
  intros Q HM Ht. rewrite (vstep_at _ _ _ Ht), (lookup_holds _ _ _ _ _ _ (q_table _ _ Q)). destruct (wants t). cbn. by rewrite HM.
Qed.

Lemma quiet_goto t c s M : quiet s M -> quiet (goto t c s) M.
Proof. by intros []. Qed.

Lemma pcs_goto_ne t t' c s : t <> t' -> pcs (goto t c s) !! t' = pcs s !! t'.
Proof. apply lookup_insert_ne. Qed.

(** C11: Any two threads that ask for the same inode, which is not in core, can get two
    in-core inodes for it, both in the table: the search is not repeated once the lock is
    taken.  And the lock does not exclude, because the old value for the compare-and-swap
    is what the lock is at that moment: both threads can hold it. *)
Theorem vget_duplicates t1 t2 s M :
  quiet s M -> t1 <> t2 -> wants t1 = wants t2 -> M !! wants t1 = None -> pcs s !! t1 = Some PGet -> pcs s !! t2 = Some PGet ->
  (let s' := run (both_look t1 t2) s in
   pcs s' !! t1 = Some (PDone (next s)) /\ pcs s' !! t2 = Some (PDone (next s + 1)) /\
   hashed (table s') (wants t1) (next s) /\ hashed (table s') (wants t1) (next s + 1)) /\
  (let s' := run (both_swap t1 t2) s in pcs s' !! t1 = Some PInsert /\ pcs s' !! t2 = Some PInsert).
Proof.
  intros Q Hne Hw HM H1 H2. pose proof (step_get t1 s M Q HM H1) as E1. split.
  - unfold both_look. cbv zeta. rewrite !run_app. cbn [run]. rewrite E1. cbn [default id].
    rewrite (step_get t2 _ M ltac:(by apply quiet_goto) ltac:(by rewrite <- Hw) ltac:(by rewrite pcs_goto_ne)). cbn [default id].
    set (s1 := goto t2 PTest (goto t1 PTest s)). destruct Q as [[T HT] Hl Hnx _].
    assert (forall p, next s <= p -> nodes (table s) !! p = None) as Hfr by (intros p Hp; apply eq_None_not_Some; intros Hs; apply Hnx in Hs; lia).
    destruct (run_makes t1 s1 T Hl (Hfr (next s) ltac:(lia))) as (s2 & n2 & -> & P2 & L2 & N2 & T2 & D2 & _ & K2).
    { unfold s1. rewrite pcs_goto_ne by done. apply at_goto. }
    destruct (run_makes t2 s2 T2 L2) as (s3 & n3 & -> & P3 & _ & _ & _ & _ & _ & K3).
    { rewrite D2, N2. cbn [next table s1 goto]. rewrite lookup_insert_ne by lia. apply Hfr. lia. }
    { rewrite P2, lookup_insert_ne by done. apply at_goto. }
    cbn [next table s1 goto] in N2, P2, K2. rewrite P3, N2. split_and!.
    + by rewrite lookup_insert_ne, P2, lookup_insert_eq.
    + by rewrite lookup_insert_eq.
    + rewrite K3, K2. right. by left.
    + rewrite K3. left. by rewrite Hw, N2.
  - pose proof (q_lock _ _ Q) as Hl. unfold both_swap. cbv zeta. rewrite (run_step t1 _ _ _ E1).
    rewrite (run_step t1 _ _ (goto t1 PSwap s)) by (rewrite (vstep_at _ _ _ (at_goto _ _ _)); cbn [hash_lock goto]; by rewrite Hl, goto_goto).
    rewrite (run_step t2 _ _ _ (step_get t2 _ M ltac:(by apply quiet_goto) ltac:(by rewrite <- Hw) ltac:(by rewrite pcs_goto_ne))).
    rewrite (run_step t2 _ _ (goto t2 PSwap (goto t1 PSwap s))) by (rewrite (vstep_at _ _ _ (at_goto _ _ _)); cbn [hash_lock goto]; by rewrite Hl, goto_goto).
    set (s1 := goto t2 PSwap (goto t1 PSwap s)). assert (pcs s1 !! t1 = Some PSwap) as P1 by (unfold s1; rewrite pcs_goto_ne by done; apply at_goto).
    rewrite (run_step t1 _ _ (goto t1 (PSwapped 0) s1)) by (rewrite (vstep_at _ _ _ P1); cbn [hash_lock goto s1]; by rewrite Hl).
    rewrite (run_step t1 _ _ (goto t1 PInsert (set_lock 1 s1))).
    2:{ rewrite (vstep_at _ _ _ (at_goto _ _ _)). unfold OSCompareAndSwap. cbn [hash_lock goto s1]. rewrite Hl. cbn [Z.eqb]. f_equal. unfold goto, set_lock. cbn.
        by rewrite insert_insert_eq. }
    set (s2 := goto t1 PInsert (set_lock 1 s1)). assert (pcs s2 !! t2 = Some PSwap) as P2 by (unfold s2; rewrite pcs_goto_ne by done; apply at_goto).
    rewrite (run_step t2 _ _ (goto t2 (PSwapped 1) s2)) by (by rewrite (vstep_at _ _ _ P2)).
    rewrite (run_step t2 _ _ (goto t2 PInsert (goto t2 (PSwapped 1) s2))) by (by rewrite (vstep_at _ _ _ (at_goto _ _ _))).
    cbn [run]. rewrite goto_goto. split; [|apply at_goto]. rewrite pcs_goto_ne by done. apply at_goto.
Qed.
End Protocol.

(** ** Examples *)

Definition on_disk (dev ino : Z) : Z -> Z * Z := fun _ => (dev, ino).
Definition start : vstate := mkVstate (mkHtable ∅ ∅) 0 100 {[ 1 := PGet; 2 := PGet ]}.
Definition minor_dev (d : Z) : Z := d.

Lemma start_quiet : quiet minor_dev 7 start ∅.
Proof.
  assert (forall key p, ~ hashed (table start) key p) as H0 by (intros key p (n & Hn & _); cbn in Hn; by rewrite lookup_empty in Hn).
  split; [|done| |].
  - split; [split|].
    + intros k p Hp. by apply elem_of_nil in Hp.
    + intros key p Hp. by apply H0 in Hp.
    + intros k. constructor.
    + intros key p. rewrite lookup_empty. split; [intros Hp; by apply H0 in Hp|done].
  - intros p [n Hn]. cbn in Hn. by rewrite lookup_empty in Hn.
  - intros key p n Hk. by rewrite lookup_empty in Hk.
Qed.

Lemma vget_one_inode_witness : exists M', quiet minor_dev 7 (run minor_dev 7 (on_disk 1 12) ([1; 2] ≫= replicate one_call) start) M' /\ ∅ ⊆ M' /\
  forall t, t ∈ [1; 2] -> exists p, pcs (run minor_dev 7 (on_disk 1 12) ([1; 2] ≫= replicate one_call) start) !! t = Some (PDone p) /\ M' !! (1, 12) = Some p.
Proof.
  apply (vget_one_inode minor_dev 7 (on_disk 1 12) [1; 2] ∅ start start_quiet).
  - apply (bool_decide_unpack (NoDup [1; 2])). by vm_compute.
  - repeat constructor.
Defined.

Lemma vget_duplicates_witness :
  (let s' := run minor_dev 7 (on_disk 1 12) (both_look 1 2) start in
   pcs s' !! 1 = Some (PDone 100) /\ pcs s' !! 2 = Some (PDone 101) /\ hashed (table s') (1, 12) 100 /\ hashed (table s') (1, 12) 101) /\
  (let s' := run minor_dev 7 (on_disk 1 12) (both_swap 1 2) start in pcs s' !! 1 = Some PInsert /\ pcs s' !! 2 = Some PInsert).
Proof. exact (vget_duplicates minor_dev 7 (on_disk 1 12) 1 2 start ∅ start_quiet ltac:(done) eq_refl (lookup_empty _) eq_refl eq_refl). Defined.

(** The second thread marks the lock between the two accesses by which the first gives it
    back. *)
Definition two_inums (t : Z) : Z * Z := (1, 10 + t).
Definition lost_release : list Z := [1; 1; 1; 1; 1; 1; 2; 2; 2; 2; 1; 1].

Definition waits (c : pc) : Prop := c = PWait \/ c = PMark (-1) \/ c = PSleep.

Lemma stuck_step s t :
  hash_lock s = -1 -> (exists p, pcs s !! 1 = Some (PDone p)) -> (exists c, pcs s !! 2 = Some c /\ waits c) -> (forall i, i <> 1 -> i <> 2 -> pcs s !! i = None) ->
  let s' := default s (vstep minor_dev 7 two_inums t s) in
  hash_lock s' = -1 /\ (exists p, pcs s' !! 1 = Some (PDone p)) /\ (exists c, pcs s' !! 2 = Some c /\ waits c) /\ (forall i, i <> 1 -> i <> 2 -> pcs s' !! i = None).
Proof.
  intros Hl [p Hp] (c & Hc & Hw) Ho. destruct (decide (t = 1)) as [->|H1].
  { rewrite (vstep_at _ _ _ _ _ _ Hp). split_and!; eauto. }
  destruct (decide (t = 2)) as [->|H2].
  2:{ unfold vstep. rewrite Ho by done. split_and!; eauto. }
  rewrite (vstep_at _ _ _ _ _ _ Hc).
  assert (forall c', waits c' -> let s' := goto 2 c' s in hash_lock s' = -1 /\ (exists p, pcs s' !! 1 = Some (PDone p)) /\
    (exists c, pcs s' !! 2 = Some c /\ waits c) /\ (forall i, i <> 1 -> i <> 2 -> pcs s' !! i = None)) as Hgo.
  { intros c' Hc'. cbn. split_and!; [done| | |].
    - exists p. by rewrite lookup_insert_ne.
    - exists c'. by rewrite lookup_insert_eq.
    - intros i Hi1 Hi2. rewrite lookup_insert_ne by congruence. by apply Ho. }
  destruct Hw as [->|[->| ->]]; cbn [default].
  - rewrite Hl. cbn [Z.eqb]. apply Hgo. by right; left.
  - unfold OSCompareAndSwap. rewrite Hl. cbn [Z.eqb Pos.eqb snd]. assert (set_lock (-1) s = s) as -> by (destruct s; cbn in *; by subst). apply Hgo. by right; right.
  - apply Hgo. by left.
Qed.

(** C38: The lock can be lost.  Of two threads that want different new inodes, the second
    marks the lock while the first gives it back; the swap that should free it fails, and
    after that, whatever steps the two threads take, the lock stays marked and the second
    thread waits for ever. *)
Theorem vget_lock_lost schedule :
  let s := run minor_dev 7 two_inums (lost_release ++ schedule) start in
  hash_lock s = -1 /\ (exists p, pcs s !! 1 = Some (PDone p)) /\ exists c, pcs s !! 2 = Some c /\ waits c.
Proof.
  cbn zeta. rewrite run_app. set (s0 := run minor_dev 7 two_inums lost_release start).
  assert (hash_lock s0 = -1 /\ (exists p, pcs s0 !! 1 = Some (PDone p)) /\ (exists c, pcs s0 !! 2 = Some c /\ waits c) /\
    (forall i, i <> 1 -> i <> 2 -> pcs s0 !! i = None)) as H0.
  { split_and!; [by vm_compute|exists 100; by vm_compute|exists PSleep; split; [by vm_compute|by right; right]|].
    intros i H1 H2. assert (pcs s0 = {[ 1 := PDone 100; 2 := PSleep ]}) as -> by (apply (bool_decide_unpack _); by vm_compute).
    by rewrite lookup_insert_ne, lookup_singleton_ne by congruence. }
  clearbody s0. revert s0 H0. induction schedule as [|t ts IH]; intros s0 (A & B & C & D); [done|].
  cbn [run]. by apply IH, stuck_step.
Qed.
