(* ===== verification/Readwrite.v ===== *)
(** * Reading and writing (src/src/gnu/ext2fs/ext2_readwrite.c)

    [ext2_read] and [ext2_write]: block by block through buffers for files without a page
    cache, such as directories, and through the cluster layer of the kernel for the
    others.  Buffers, allocation and the user's memory are the class [RwOps]. *)

From S2P Require Import Prelude Fs Inode Alloc Bmap Fballoc Truncate Vnops.

(** <sys/vnode.h> *)
Definition IO_UNIT : Z := 1.
Definition IO_APPEND : Z := 2.
Definition IO_TAILZEROFILL : Z := 0x40.
Definition IO_HEADZEROFILL : Z := 0x80.
Definition IO_NOZEROVALID : Z := 0x100.
(** ext2_dinode.h: a flag of the inode on the disk. *)
Definition EXT2_APPEND : Z := 0x20.

(** ** Data *)

(** A buffer of block [b_lbn] of the file. *)
Record rbuf := mkRbuf {
  b_lbn : Z;
  b_data : list Z;
  b_resid : Z;
}.

(** The inode, the [uio], and the rest of the system.  [uio_bytes] is what a reader has got,
    or what a writer has still to give. *)
Record rw (X : Type) := mkRw {
  rw_file : file;
  i_lastr : Z;
  uio_offset : Z;
  uio_resid : Z;
  uio_bytes : list Z;
  renv : X;
}.
Arguments mkRw {X}.
Arguments rw_file {X}.
Arguments i_lastr {X}.
Arguments uio_offset {X}.
Arguments uio_resid {X}.
Arguments uio_bytes {X}.
Arguments renv {X}.

(** What other files and the kernel do. *)
Class RwOps (X : Type) := {
  buf_bread (lbn size : Z) : kern X (Z * rbuf);
  (** With a read-ahead of another block. *)
  buf_breadn (lbn size : Z) : kern X (Z * rbuf);
  buf_brelse (bp : rbuf) : kern X unit;
  buf_bwrite (bp : rbuf) : kern X Z;
  buf_bawrite (bp : rbuf) : kern X Z;
  buf_bdwrite (bp : rbuf) : kern X Z;
  (** The error of copying [n] bytes from or to the user, and how many are copied. *)
  uio_copy (n : Z) : kern X (Z * Z);
  (** For the inode: the error and the buffer. *)
  ext2_balloc (lbn size flags : Z) : kern (file * X) (Z * rbuf);
  (** Without a buffer: the error and [*blk_alloc]. *)
  ext2_balloc2 (lbn size flags : Z) : kern (file * X) (Z * Z);
  cluster_read (isize : Z) : kern (rw X) Z;
  cluster_write (osize filesize head tail flags : Z) : kern (rw X) Z;
  ext2_truncate (length : Z) : kern (file * X) Z;
  ext2_update : kern (file * X) Z;
}.

Definition set_uio {X} (off res : Z) (bytes : list Z) (s : rw X) : rw X := mkRw (rw_file s) (i_lastr s) off res bytes (renv s).
Definition upd_file {X} (f : file -> file) (s : rw X) : rw X :=
  mkRw (f (rw_file s)) (i_lastr s) (uio_offset s) (uio_resid s) (uio_bytes s) (renv s).
Definition set_lastr {X} (x : Z) (s : rw X) : rw X := mkRw (rw_file s) x (uio_offset s) (uio_resid s) (uio_bytes s) (renv s).

(** Operations of the rest of the system, and those on the inode as well. *)
Definition onenv {X A} (m : kern X A) : kern (rw X) A := fun s =>
  match m (renv s) with
  | Ret a x => Ret a (mkRw (rw_file s) (i_lastr s) (uio_offset s) (uio_resid s) (uio_bytes s) x)
  | Panic msg => Panic msg
  | Fault => Fault
  | OutOfFuel => OutOfFuel
  end.
Definition onfile {X A} (m : kern (file * X) A) : kern (rw X) A := fun s =>
  match m (rw_file s, renv s) with
  | Ret a (f, x) => Ret a (mkRw f (i_lastr s) (uio_offset s) (uio_resid s) (uio_bytes s) x)
  | Panic msg => Panic msg
  | Fault => Fault
  | OutOfFuel => OutOfFuel
  end.

Section Operations.
Context {X : Type} `{RwOps X}.
Local Abbreviation RW := (kern (rw X)).
(** The mount, the vnode, whether it allows read-ahead, MNT_NOATIME. *)
Context (g : geometry) (v : vnode) (readahead noatime : bool).

Definition isize (s : rw X) : Z := i_size (ip (rw_file s)).

(** ** Reading *)

(** [uiomove] to the user, and from the user into the block at [blkoffset]. *)
Definition uiomove_out (data : list Z) : RW Z :=
  '(error, n) ← onenv (uio_copy (Z.of_nat (length data)));
  modify (fun s => set_uio (uio_offset s + n) (uio_resid s - n) (uio_bytes s ++ take (Z.to_nat n) data) s);;
  mret error.

Definition uiomove_in (blkoffset n : Z) (bp : rbuf) : RW (Z * rbuf) :=
  '(error, n) ← onenv (uio_copy n);
  s ← gets id;
  data ← access (Dirent.splice blkoffset (take (Z.to_nat n) (uio_bytes s)) (b_data bp));
  modify (fun s => set_uio (uio_offset s + n) (uio_resid s - n) (drop (Z.to_nat n) (uio_bytes s)) s);;
  mret (error, mkRbuf (b_lbn bp) data (b_resid bp)).

(** The error, and the buffer that is not released. *)
Fixpoint read_loop (fuel : nat) (size_of_file : Z) : RW (Z * option rbuf) :=
  match fuel with
  | O => out_of_fuel
  | S fuel =>
      s ← gets id;
      let bytesinfile := i64 (size_of_file - uio_offset s) in
      if (uio_resid s <=? 0) || (bytesinfile <=? 0) then mret (0, None)
      else
        let lbn := i32 (lblkno g (uio_offset s)) in
        let nextlbn := i32 (lbn + 1) in
        let size := blksize g in
        let blkoffset := blkoff g (uio_offset s) in
        let xfersize := s_blocksize g - blkoffset in
        let xfersize := if uio_resid s <? xfersize then uio_resid s else xfersize in
        let xfersize := if bytesinfile <? xfersize then bytesinfile else xfersize in
        '(error, bp) ← onenv (if size_of_file <=? u64 (i32 (Z.shiftl nextlbn (Z.log2 (s_blocksize g)))) then buf_bread lbn size
                               else if (lbn - 1 =? i_lastr s) && readahead then buf_breadn lbn size
                               else buf_bread lbn size);
        if negb (error =? 0) then onenv (buf_brelse bp);; mret (error, None)
        else
          modify (set_lastr lbn);;
          let size := size - b_resid bp in
          if (size <? xfersize) && (size =? 0) then mret (0, Some bp)
          else
            let xfersize := if size <? xfersize then size else xfersize in
            data ← access (Dirent.slice blkoffset xfersize (b_data bp));
            error ← uiomove_out data;
            size_of_file ← gets isize;
            if negb (error =? 0) then mret (error, Some bp)
            else onenv (buf_brelse bp);; read_loop fuel size_of_file
  end.

Definition ext2_read : RW Z :=
  s ← gets id;
  if uio_offset s <? 0 then mret EINVAL
  else if s_maxfilesize g <? u64 (uio_offset s) then mret EFBIG
  else
    let orig_resid := i32 (uio_resid s) in
    error ← (if v_ubc v then cluster_read (isize s)
             else
               '(error, bp) ← read_loop (S (Z.to_nat (uio_resid s))) (isize s);
               (match bp with Some bp => onenv (buf_brelse bp) | None => mret tt end);;
               mret error);
    s ← gets id;
    (if (0 <? orig_resid) && ((error =? 0) || negb (uio_resid s =? orig_resid)) && negb noatime
     then modify (upd_file (set_flag IN_ACCESS)) else mret tt);;
    mret error.

(** ** Writing *)

(** [vfs_context_suser], which is 0 for the superuser. *)
Context (vfs_context_suser : Z).

Definition set_isize (n : Z) : file -> file := set_ip (Truncate.set_size n).

(** Through buffers. *)
Fixpoint write_loop (fuel : nat) (flags : Z) (dodir sync : bool) : RW Z :=
  match fuel with
  | O => out_of_fuel
  | S fuel =>
      s ← gets id;
      if uio_resid s <=? 0 then mret 0
      else
        let lbn := i32 (lblkno g (uio_offset s)) in
        let blkoffset := blkoff g (uio_offset s) in
        let xfersize := s_blocksize g - blkoffset in
        let xfersize := if uio_resid s <? xfersize then uio_resid s else xfersize in
        let flags := if xfersize <? s_blocksize g then Z.lor flags B_CLRBUF else Z.land flags (Z.lnot B_CLRBUF) in
        '(error, bp) ← onfile (ext2_balloc lbn (blkoffset + xfersize) flags);
        if negb (error =? 0) then mret error
        else
          s ← gets id;
          (if isize s <? u64 (uio_offset s + xfersize) then modify (upd_file (set_isize (u64 (uio_offset s + xfersize)))) else mret tt);;
          let size := blksize g - b_resid bp in
          let xfersize := if size <? xfersize then size else xfersize in
          '(error, bp) ← (if 0 <? xfersize then uiomove_in blkoffset xfersize bp else mret (0, bp));
          if negb (error =? 0) || (xfersize =? 0) then onenv (buf_brelse bp);; mret error
          else
            modify (upd_file (set_flag (Z.lor IN_CHANGE IN_UPDATE)));;
            onenv (if negb dodir && sync then buf_bwrite bp
                   else if xfersize + blkoffset =? s_blocksize g then buf_bawrite bp else buf_bdwrite bp);;
            write_loop fuel flags dodir sync
  end.

(** The allocation before a write through the page cache: its variables. *)
Record prep := mkPrep {
  rsd : Z;
  local_offset : Z;
  local_flags : Z;
  first_block : bool;
  fboff : Z;
  fblk : Z;
  blkalloc : Z;
  loopcount : Z;
  p_xfersize : Z;
}.

Fixpoint alloc_loop (fuel : nat) (p : prep) : RW (Z * prep) :=
  match fuel with
  | O => out_of_fuel
  | S fuel =>
      if rsd p <=? 0 then mret (0, p)
      else
        let lbn := i32 (lblkno g (local_offset p)) in
        let blkoffset := blkoff g (local_offset p) in
        let xfersize := s_blocksize g - blkoffset in
        let fboff := if first_block p then blkoffset else fboff p in
        let xfersize := if rsd p <? xfersize then rsd p else xfersize in
        let fl := if xfersize <? s_blocksize g then Z.lor (local_flags p) B_CLRBUF else Z.land (local_flags p) (Z.lnot B_CLRBUF) in
        '(error, alloc) ← onfile (ext2_balloc2 lbn (blkoffset + xfersize) fl);
        if negb (error =? 0) then
          mret (error, mkPrep (rsd p) (local_offset p) fl (first_block p) fboff (fblk p) alloc (loopcount p) xfersize)
        else
          s ← gets id;
          (if isize s <? u64 (local_offset p + xfersize) then modify (upd_file (set_isize (u64 (local_offset p + xfersize)))) else mret tt);;
          alloc_loop fuel (mkPrep (rsd p - xfersize) (local_offset p + xfersize) fl false fboff
                            (if first_block p then alloc else fblk p) alloc (loopcount p + 1) xfersize)
  end.

(** Through the page cache. *)
Definition write_ubc (ioflag osize : Z) : RW Z :=
  s ← gets id;
  let endofwrite := uio_offset s + uio_resid s in
  let file_extended := isize s <? u64 endofwrite in
  let filesize := if file_extended then endofwrite else i64 (isize s) in
  let head_offset := i64 (isize s) in
  let fl := Z.lor (if has_flag ioflag IO_SYNC then B_SYNC else 0) B_NOBUFF in
  '(error, p) ← alloc_loop (S (Z.to_nat (uio_resid s))) (mkPrep (i32 (uio_resid s)) (uio_offset s) fl true 0 0 0 0 0);
  let save_error := error in
  (if negb (error =? 0) then modify (fun s => set_uio (uio_offset s) (uio_resid s - rsd p) (uio_bytes s) s) else mret tt);;
  let filesize := if negb (error =? 0) && file_extended then filesize - rsd p else filesize in
  let flags := Z.lor (if has_flag ioflag IO_SYNC then IO_SYNC else 0) IO_NOZEROVALID in
  let head := (error =? 0) && negb (fblk p =? 0) && negb (fboff p =? 0) in
  if head && (s_blocksize g <? fblk p) then panic "ext2_write : ext2_balloc allocated more than bsize(head)"
  else
    let head_offset := if head then uio_offset s - fboff p else head_offset in
    let flags := if head then Z.land (Z.lor flags IO_HEADZEROFILL) (Z.lnot IO_NOZEROVALID) else flags in
    let tail := (error =? 0) && negb (blkalloc p =? 0) && (0 <? blkalloc p - p_xfersize p) in
    if tail && (s_blocksize g <? blkalloc p) then panic "ext2_write : ext2_balloc allocated more than bsize(tail)"
    else
      let off := if tail then local_offset p + (blkalloc p - p_xfersize p) - (if loopcount p =? 1 then fboff p else 0) else local_offset p in
      let flags := if tail then Z.land (Z.lor flags IO_TAILZEROFILL) (Z.lnot IO_NOZEROVALID) else flags in
      error ← cluster_write osize filesize head_offset off flags;
      s ← gets id;
      (if osize <? uio_offset s then
         (if negb (error =? 0) && negb (has_flag ioflag IO_UNIT) then onfile (ext2_truncate (uio_offset s));; mret tt else mret tt);;
         modify (upd_file (set_isize (u64 (uio_offset s))))
       else mret tt);;
      (if negb (save_error =? 0) then modify (fun s => set_uio (uio_offset s) (uio_resid s + rsd p) (uio_bytes s) s) else mret tt);;
      let error := if negb (save_error =? 0) && (error =? 0) then save_error else error in
      modify (upd_file (set_flag (Z.lor IN_CHANGE IN_UPDATE)));;
      mret error.

(** After the data is written, or not. *)
Definition write_end (ioflag osize resid error : Z) : RW Z :=
  s ← gets id;
  (if (uio_resid s <? resid) && (vfs_context_suser =? 0)
   then modify (upd_file (set_ip (fun i => set_mode (Z.land (i_mode i) (Z.lnot (Z.lor ISUID ISGID))) i))) else mret tt);;
  if negb (error =? 0) then
    (if has_flag ioflag IO_UNIT then
       onfile (ext2_truncate osize);;
       modify (fun s => set_uio (uio_offset s - (resid - uio_resid s)) resid (uio_bytes s) s)
     else mret tt);;
    mret error
  else if (uio_resid s <? resid) && has_flag ioflag IO_SYNC then onfile ext2_update
  else mret 0.

Definition ext2_write (ioflag : Z) : RW Z :=
  s ← gets id;
  if uio_resid s =? 0 then mret 0
  else
    refused ← (match v_type v with
               | VREG =>
                   (if has_flag ioflag IO_APPEND then modify (fun s => set_uio (i64 (isize s)) (uio_resid s) (uio_bytes s) s) else mret tt);;
                   s ← gets id;
                   mret (has_flag (i_flags (ip (rw_file s))) EXT2_APPEND && negb (u64 (uio_offset s) =? isize s))
               | VLNK => mret false
               | VDIR => if has_flag ioflag IO_SYNC then mret false else panic "ext2_write: nonsync dir write"
               | _ => panic "ext2_write: type"
               end);
    if refused : bool then mret EPERM
    else
      s ← gets id;
      let resid := i32 (uio_resid s) in
      let osize := i64 (isize s) in
      error ← (if v_ubc v then write_ubc ioflag osize
               else write_loop (S (Z.to_nat (uio_resid s))) (if has_flag ioflag IO_SYNC then B_SYNC else 0) (bool_decide (v_type v = VDIR)) (has_flag ioflag IO_SYNC));
      write_end ioflag osize resid error.
End Operations.
