(* ===== verification/Rwspec.v ===== *)
(** * What reading and writing do

    [RwLaws] states what buffers and allocation promise to [ext2_read] and [ext2_write] of
    [Readwrite]; the files are those without a page cache.  The bytes of a file are
    [fbyte]; a write is an overlay of them. *)

From S2P Require Import Prelude Dirent Fs Inode Alloc Bmap Fballoc Truncate Vnops Readwrite.

(** The geometry of a mount. *)
Definition geo_ok (g : geometry) : Prop := e2fs_fsize g = s_blocksize g /\ exists k, 0 <= k < 16 /\ s_blocksize g = 2 ^ k.

Class RwLaws (g : geometry) (X : Type) {OPS : RwOps X} := {
  (** The bytes of a block of the file; a hole has zeros. *)
  blockbytes : X -> Z -> list Z;
  (** The block is mapped. *)
  has_storage : X -> Z -> Prop;
  (** The device and the user's memory work, and the block pointers of the file are in
      order, with none behind its end. *)
  rw_io_ok : file -> X -> Prop;
  law_length x l : Z.of_nat (length (blockbytes x l)) = s_blocksize g;
  law_ok_flag fl f x : rw_io_ok f x -> rw_io_ok (set_flag fl f) x;
  law_ok_mode m f x : rw_io_ok f x -> rw_io_ok (set_ip (fun i => set_mode (m i) i) f) x;
  law_bread lbn f x : 0 <= lbn -> rw_io_ok f x ->
    wp (buf_bread lbn (s_blocksize g)) (fun '(e, bp) x' =>
      (forall l, blockbytes x' l = blockbytes x l) /\ rw_io_ok f x' /\ e = 0 /\ b_data bp = blockbytes x lbn /\ b_resid bp = 0) x;
  law_breadn lbn f x : 0 <= lbn -> rw_io_ok f x ->
    wp (buf_breadn lbn (s_blocksize g)) (fun '(e, bp) x' =>
      (forall l, blockbytes x' l = blockbytes x l) /\ rw_io_ok f x' /\ e = 0 /\ b_data bp = blockbytes x lbn /\ b_resid bp = 0) x;
  law_brelse bp f x : rw_io_ok f x -> wp (buf_brelse bp) (fun _ x' => (forall l, blockbytes x' l = blockbytes x l) /\ rw_io_ok f x') x;
  law_copy n f x : rw_io_ok f x ->
    wp (uio_copy n) (fun '(e, k) x' => (forall l, blockbytes x' l = blockbytes x l) /\ (forall l, has_storage x l -> has_storage x' l) /\
      rw_io_ok f x' /\ e = 0 /\ k = n) x;
  (** Allocation may fail.  When it succeeds, the caller raises the size to what it uses of
      the block; without B_CLRBUF a new block has any bytes until it is written. *)
  law_balloc lbn size flags f x : 0 <= lbn -> 0 < size <= s_blocksize g -> rw_io_ok f x ->
    wp (ext2_balloc lbn size flags) (fun '(e, bp) '(f', x') =>
      i_size (ip f') = i_size (ip f) /\ (forall l, l <> lbn \/ e <> 0 -> blockbytes x' l = blockbytes x l) /\
      (e <> 0 -> rw_io_ok f' x') /\
      (e = 0 -> rw_io_ok (set_isize (Z.max (i_size (ip f)) (lbn * s_blocksize g + size)) f') x' /\ has_storage x' lbn /\
         b_lbn bp = lbn /\ b_resid bp = 0 /\ Z.of_nat (length (b_data bp)) = s_blocksize g /\
         (has_flag flags B_CLRBUF = true -> b_data bp = blockbytes x lbn))) (f, x);
  law_bwrite bp f x : Z.of_nat (length (b_data bp)) = s_blocksize g -> has_storage x (b_lbn bp) -> rw_io_ok f x ->
    wp (buf_bwrite bp) (fun _ x' => (forall l, blockbytes x' l = if decide (l = b_lbn bp) then b_data bp else blockbytes x l) /\ rw_io_ok f x') x;
  law_bawrite bp f x : Z.of_nat (length (b_data bp)) = s_blocksize g -> has_storage x (b_lbn bp) -> rw_io_ok f x ->
    wp (buf_bawrite bp) (fun _ x' => (forall l, blockbytes x' l = if decide (l = b_lbn bp) then b_data bp else blockbytes x l) /\ rw_io_ok f x') x;
  law_bdwrite bp f x : Z.of_nat (length (b_data bp)) = s_blocksize g -> has_storage x (b_lbn bp) -> rw_io_ok f x ->
    wp (buf_bdwrite bp) (fun _ x' => (forall l, blockbytes x' l = if decide (l = b_lbn bp) then b_data bp else blockbytes x l) /\ rw_io_ok f x') x;
  (** Shortening keeps what is before the new end.  It may fail, and then the size is as it
      was: the block that the new end cuts may be a hole that gets no storage. *)
  law_rw_truncate len f x : 0 <= len <= i_size (ip f) -> rw_io_ok f x ->
    wp (ext2_truncate len) (fun e '(f', x') => (i_size (ip f') = len \/ e <> 0 /\ i_size (ip f') = i_size (ip f)) /\ rw_io_ok f' x' /\
      forall l i, l * s_blocksize g + Z.of_nat i < len -> blockbytes x' l !! i = blockbytes x l !! i) (f, x);
  law_rw_update f x : rw_io_ok f x ->
    wp ext2_update (fun _ '(f', x') => i_size (ip f') = i_size (ip f) /\ (forall l, blockbytes x' l = blockbytes x l) /\ rw_io_ok f' x') (f, x);
}.

Section Bytes.
Context (g : geometry) (HG : geo_ok g) {X : Type} {OPS : RwOps X} {LAWS : RwLaws g X}.
Local Abbreviation bs := (s_blocksize g).
Implicit Types (s : rw X) (x : X).

Lemma bsize_pos : 0 < bs <= 2 ^ 16.
Proof. destruct HG as [_ (k & Hk & ->)]. split; [by apply Z.pow_pos_nonneg; lia|apply Z.pow_le_mono_r; lia]. Qed.

Lemma blkoff_rem o : blkoff g o = o mod bs.
Proof. destruct HG as [_ (k & Hk & E)]. unfold blkoff. rewrite E, <- Z.land_ones by lia. by rewrite Z.ones_equiv. Qed.

Lemma lblkno_quot o : lblkno g o = o / bs.
Proof. destruct HG as [_ (k & Hk & E)]. unfold lblkno. rewrite E, Z.log2_pow2 by lia. apply Z.shiftr_div_pow2. lia. Qed.

(** ** The bytes of a file *)

Definition fbyte x (p : Z) : Z := default 0 (blockbytes x (p / bs) !! Z.to_nat (p mod bs)).
Definition fbytes x (o n : Z) : list Z := (fun i => fbyte x (o + Z.of_nat i)) <$> seq 0 (Z.to_nat n).

Lemma fbytes_length x o n : length (fbytes x o n) = Z.to_nat n.
Proof. unfold fbytes. by rewrite length_fmap, length_seq. Qed.

Lemma fbytes_lookup x o n (i : nat) : Z.of_nat i < n -> fbytes x o n !! i = Some (fbyte x (o + Z.of_nat i)).
Proof. intros Hi. unfold fbytes. rewrite list_lookup_fmap, lookup_seq_lt by lia. done. Qed.

Lemma fbytes_app x o a b : 0 <= a -> 0 <= b -> fbytes x o (a + b) = fbytes x o a ++ fbytes x (o + a) b.
Proof.
  intros Ha Hb. apply list_eq. intros i. destruct (decide (Z.of_nat i < a)) as [H1|H1].
  { rewrite lookup_app_l by (rewrite fbytes_length; lia). by rewrite !fbytes_lookup by lia. }
  rewrite lookup_app_r by (rewrite fbytes_length; lia). rewrite fbytes_length. destruct (decide (Z.of_nat i < a + b)) as [H2|H2].
  - rewrite !fbytes_lookup by lia. do 2 f_equal. lia.
  - rewrite !lookup_ge_None_2; [done|rewrite fbytes_length; lia..].
Qed.

Lemma fbytes_ext x x' o n : (forall p, o <= p < o + n -> fbyte x' p = fbyte x p) -> fbytes x' o n = fbytes x o n.
Proof.
  intros E. apply list_eq. intros i. destruct (decide (Z.of_nat i < n)).
  - rewrite !fbytes_lookup by done. f_equal. apply E. lia.
  - rewrite !lookup_ge_None_2; [done|rewrite fbytes_length; lia..].
Qed.

Lemma fbyte_same x x' : (forall l, blockbytes x' l = blockbytes x l) -> forall p, fbyte x' p = fbyte x p.
Proof. intros E p. unfold fbyte. by rewrite E. Qed.

Lemma fbyte_shortened x x' len : (forall l i, l * bs + Z.of_nat i < len -> blockbytes x' l !! i = blockbytes x l !! i) ->
  forall p, 0 <= p < len -> fbyte x' p = fbyte x p.
Proof.
  intros E p Hp. pose proof bsize_pos. pose proof (Z.div_mod p bs ltac:(lia)). pose proof (Z.mod_pos_bound p bs ltac:(lia)).
  unfold fbyte. rewrite E; [done|]. rewrite Z2Nat.id by lia. lia.
Qed.

(** A range inside a block. *)
Lemma fbytes_block x o n : 0 <= n -> o mod bs + n <= bs -> slice (o mod bs) n (blockbytes x (o / bs)) = Some (fbytes x o n).
Proof.
  intros Hn Hfit. pose proof bsize_pos. pose proof (Z.mod_pos_bound o bs ltac:(lia)) as Hm. pose proof (law_length x (o / bs)) as HL.
  destruct (slice_is_some (o mod bs) n (blockbytes x (o / bs))) as [l E]; [lia..|]. rewrite E. f_equal. apply list_eq. intros i.
  destruct (decide (Z.of_nat i < n)) as [Hi|Hi].
  2:{ rewrite !lookup_ge_None_2; [done|rewrite fbytes_length; lia|]. apply slice_length in E. lia. }
  rewrite fbytes_lookup by done. rewrite (lookup_slice _ _ _ _ i E Hi). unfold fbyte.
  assert ((o + Z.of_nat i) / bs = o / bs /\ (o + Z.of_nat i) mod bs = o mod bs + Z.of_nat i) as [-> ->].
  { pose proof (Z.div_mod o bs ltac:(lia)). split; [symmetry; apply (Z.div_unique _ _ _ (o mod bs + Z.of_nat i)); lia|].
    symmetry. apply (Z.mod_unique _ _ (o / bs)); lia. }
  rewrite Z2Nat.inj_add, Nat2Z.id by lia. destruct (lookup_lt_is_Some_2 (blockbytes x (o / bs)) (Z.to_nat (o mod bs) + i)%nat) as [z ->]; [lia|done].
Qed.

(** ** Reading *)

Context (v : vnode) (readahead noatime : bool).

Lemma wp_onenv {A} (m : kern X A) (Q : A -> rw X -> Prop) s :
  wp m (fun a x => Q a (mkRw (rw_file s) (i_lastr s) (uio_offset s) (uio_resid s) (uio_bytes s) x)) (renv s) -> wp (onenv m) Q s.
Proof. unfold wp, onenv. by destruct (m (renv s)). Qed.

Lemma wp_onfile {A} (m : kern (file * X) A) (Q : A -> rw X -> Prop) s :
  wp m (fun a '(f, x) => Q a (mkRw f (i_lastr s) (uio_offset s) (uio_resid s) (uio_bytes s) x)) (rw_file s, renv s) -> wp (onfile m) Q s.
Proof. unfold wp, onfile. destruct (m _) as [a [f x]| | |]; done. Qed.

(** A state in which the operations work. *)
Record rw_ok s : Prop := {
  ro_io : rw_io_ok (rw_file s) (renv s);
  ro_off : 0 <= uio_offset s;
  ro_res : 0 <= uio_resid s < 2 ^ 31;
  ro_end : uio_offset s + uio_resid s <= (2 ^ 31 - 1) * bs;
  ro_size : 0 <= isize s < 2 ^ 62;
}.

Lemma wp_out data (Q : Z -> rw X -> Prop) s :
  rw_io_ok (rw_file s) (renv s) -> (forall x', (forall l, blockbytes x' l = blockbytes (renv s) l) -> rw_io_ok (rw_file s) x' ->
    Q 0 (mkRw (rw_file s) (i_lastr s) (uio_offset s + Z.of_nat (length data)) (uio_resid s - Z.of_nat (length data)) (uio_bytes s ++ data) x')) ->
  wp (uiomove_out data) Q s.
Proof.
  intros Hio HQ. unfold uiomove_out. wp_steps. apply wp_onenv. eapply wp_mono; [by apply law_copy|]. intros [e k] x' (Hc & _ & Hio' & -> & ->). wp_steps. cbn [renv rw_file i_lastr uio_offset uio_resid uio_bytes]. rewrite Nat2Z.id, firstn_all. by apply HQ.
Qed.

(** The length of the first piece. *)
Definition piece (o r : Z) : Z := let x := bs - o mod bs in if r <? x then r else x.

Lemma piece_bounds o r : 0 < r -> 0 < piece o r <= r /\ o mod bs + piece o r <= bs.
Proof.
  intros Hr. pose proof bsize_pos. pose proof (Z.mod_pos_bound o bs ltac:(lia)). unfold piece. destruct (Z.ltb_spec r (bs - o mod bs)); lia.
Qed.

Lemma block_small o r : 0 <= o -> 0 < r -> o + r <= (2 ^ 31 - 1) * bs -> 0 <= o / bs < 2 ^ 31 - 1.
Proof. intros Ho Hr Hend. pose proof bsize_pos. split; [apply Z.div_pos; lia|apply Z.div_lt_upper_bound; lia]. Qed.

Lemma read_loop_ok fuel : forall s, rw_ok s -> uio_resid s < Z.of_nat fuel ->
  let n := Z.max 0 (Z.min (uio_resid s) (isize s - uio_offset s)) in
  wp (read_loop g readahead fuel (isize s)) (fun r s' => r = (0, None) /\ rw_file s' = rw_file s /\
    uio_offset s' = uio_offset s + n /\ uio_resid s' = uio_resid s - n /\ uio_bytes s' = uio_bytes s ++ fbytes (renv s) (uio_offset s) n /\
    (forall l, blockbytes (renv s') l = blockbytes (renv s) l) /\ rw_io_ok (rw_file s) (renv s')) s.
Proof.
  induction fuel as [|fuel IH]; intros s [Hio Ho Hr Hend Hsz] Hf n; [lia|]. cbn [read_loop]. wp_steps. unfold id.
  pose proof bsize_pos as Hb. assert (bs * 2 ^ 31 <= 2 ^ 47) as Hb2 by (change (2 ^ 47) with (2 ^ 16 * 2 ^ 31); nia).
  rewrite (sintw_small 64) by lia.
  assert (Hstop : n = 0 -> wp (mret (0, None) : kern (rw X) (Z * option rbuf)) (fun r s' => r = (0, None) /\ rw_file s' = rw_file s /\
    uio_offset s' = uio_offset s + n /\ uio_resid s' = uio_resid s - n /\ uio_bytes s' = uio_bytes s ++ fbytes (renv s) (uio_offset s) n /\
    (forall l, blockbytes (renv s') l = blockbytes (renv s) l) /\ rw_io_ok (rw_file s) (renv s')) s).
  { intros ->. wp_steps. rewrite Z.add_0_r, Z.sub_0_r. change (fbytes (renv s) (uio_offset s) 0) with (@nil Z). by rewrite app_nil_r. }
  destruct (Z.leb_spec (uio_resid s) 0) as [H0|H0]; cbn [orb]; [apply Hstop; lia|].
  destruct (Z.leb_spec (isize s - uio_offset s) 0) as [H1|H1]; [apply Hstop; lia|]. clear Hstop.
  rewrite blkoff_rem, lblkno_quot. pose proof (block_small _ _ Ho H0 Hend) as Hq. rewrite (sintw_small 32 (uio_offset s / bs)) by lia.
  set (lbn := uio_offset s / bs). fold (piece (uio_offset s) (uio_resid s)). pose proof (piece_bounds (uio_offset s) (uio_resid s) H0) as [Hp1 Hp2].
  set (k := if isize s - uio_offset s <? piece (uio_offset s) (uio_resid s) then _ else _).
  assert (0 < k /\ k <= uio_resid s /\ k <= isize s - uio_offset s /\ uio_offset s mod bs + k <= bs) as (K1 & K2 & K3 & K4).
  { unfold k. destruct (Z.ltb_spec (isize s - uio_offset s) (piece (uio_offset s) (uio_resid s))); lia. }
  unfold blksize. rewrite (proj1 HG). wp_steps. apply wp_onenv.
  assert (forall m, (m = buf_bread lbn bs \/ m = buf_breadn lbn bs) -> wp m (fun '(e, bp) x' => (forall l, blockbytes x' l = blockbytes (renv s) l) /\
    rw_io_ok (rw_file s) x' /\ e = 0 /\ b_data bp = blockbytes (renv s) lbn /\ b_resid bp = 0) (renv s)) as Hread.
  { intros m [-> | ->]; [apply law_bread|apply law_breadn]; try done; lia. }
  eapply wp_mono; [apply Hread; destruct (_ <=? _); [by left|]; destruct (_ && _); [by right|by left]|].
  intros [e bp] x1 (Hc1 & Hio1 & -> & Ed & Er). cbn [negb Z.eqb]. wp_steps. rewrite Er, Z.sub_0_r.
  pose proof (Z.mod_pos_bound (uio_offset s) bs ltac:(lia)).
  rewrite (proj2 (Z.ltb_ge bs k)) by lia. cbn [andb]. rewrite Ed, fbytes_block by lia. wp_steps.
  assert (Z.of_nat (length (fbytes (renv s) (uio_offset s) k)) = k) as Lk by (rewrite fbytes_length; lia).
  apply wp_out; [done|]. cbn [set_lastr rw_file i_lastr uio_offset uio_resid uio_bytes renv]. rewrite Lk. intros x2 Hc2 Hio2. wp_steps.
  cbn [negb Z.eqb]. wp_steps. apply wp_onenv. eapply wp_mono; [by apply law_brelse|]. cbn [renv rw_file i_lastr uio_offset uio_resid uio_bytes].
  intros _ x3 [Hc3 Hio3]. set (s3 := mkRw _ _ _ _ _ x3).
  assert (forall l, blockbytes x3 l = blockbytes (renv s) l) as Hc by (intros l; by rewrite Hc3, Hc2, Hc1).
  match goal with |- wp (read_loop _ _ _ ?sz) _ _ => change sz with (isize s3) end.
  eapply wp_mono; [apply (IH s3); [split; cbn; try lia; [done|unfold isize in *; cbn; lia]|cbn; lia]|].
  change (isize s3) with (isize s). change (uio_offset s3) with (uio_offset s + k). change (uio_resid s3) with (uio_resid s - k).
  change (uio_bytes s3) with (uio_bytes s ++ fbytes (renv s) (uio_offset s) k). change (rw_file s3) with (rw_file s). change (renv s3) with x3.
  set (n' := Z.max 0 _). intros r s' (-> & E1 & E2 & E3 & E4 & E5 & E6). assert (n = k + n') as En by (unfold n, n'; lia).
  split_and!; [done|done|lia|lia| |intros l; by rewrite E5|done].
  rewrite E4, <- app_assoc, En, fbytes_app by lia. do 2 f_equal. apply fbytes_ext. intros p _. by apply fbyte_same.
Qed.
Lemma wp_read s :
  v_ubc v = false -> rw_ok s -> uio_offset s <= s_maxfilesize g ->
  let n := Z.max 0 (Z.min (uio_resid s) (isize s - uio_offset s)) in
  wp (ext2_read g v readahead noatime) (fun e s' => e = 0 /\ isize s' = isize s /\ uio_offset s' = uio_offset s + n /\
    uio_resid s' = uio_resid s - n /\ uio_bytes s' = uio_bytes s ++ fbytes (renv s) (uio_offset s) n /\
    (forall p, fbyte (renv s') p = fbyte (renv s) p) /\ rw_io_ok (rw_file s') (renv s')) s.
Proof.
  intros Hv O Hmax n. pose proof O as [Hio Ho Hr Hend Hsz]. pose proof bsize_pos. unfold ext2_read. wp_steps. unfold id.
  assert (bs * 2 ^ 31 <= 2 ^ 47) as Hb2 by (change (2 ^ 47) with (2 ^ 16 * 2 ^ 31); nia).
  rewrite (proj2 (Z.ltb_ge (uio_offset s) 0)) by lia. rewrite (uintw_small 64) by lia.
  rewrite (proj2 (Z.ltb_ge (s_maxfilesize g) _)) by lia. rewrite Hv. wp_steps.
  eapply wp_mono; [apply (read_loop_ok _ s O); lia|]. intros r s' (-> & E1 & E2 & E3 & E4 & E5 & E6). wp_steps. unfold id.
  assert (isize s' = isize s) as Es by (unfold isize; by rewrite E1).
  destruct (_ && _); wp_steps; split_and!; try done; try (intros p; by apply fbyte_same); cbn; rewrite E1; [by apply law_ok_flag|done].
Qed.

Lemma has_flag_set_bit (fl : Z) : has_flag (Z.lor fl B_CLRBUF) B_CLRBUF = true.
Proof.
  unfold has_flag. rewrite Z.land_lor_distr_l, Z.land_diag. apply negb_true_iff, Z.eqb_neq. intros E. by apply Z.lor_eq_0_iff in E as [_ E].
Qed.

(** ** Writing *)

(** The bytes [data] from [off] on, over others. *)
Definition overlay (old : Z -> Z) (off : Z) (data : list Z) (p : Z) : Z :=
  if decide (off <= p) then default (old p) (data !! Z.to_nat (p - off)) else old p.

Lemma overlay_nil old off p : overlay old off [] p = old p.
Proof. unfold overlay. by destruct (decide _). Qed.

Lemma overlay_app old off a b p : overlay (overlay old off a) (off + Z.of_nat (length a)) b p = overlay old off (a ++ b) p.
Proof.
  unfold overlay. destruct (decide (off + Z.of_nat (length a) <= p)).
  - rewrite decide_True, (decide_True (P := off <= p)) by lia. rewrite (lookup_app_r a b) by lia.
    rewrite (lookup_ge_None_2 a) by lia. cbn. do 2 f_equal. lia.
  - destruct (decide (off <= p)); [|done]. by rewrite (lookup_app_l a b) by lia.
Qed.

Lemma overlay_ext old old' off data p : old p = old' p -> overlay old off data p = overlay old' off data p.
Proof. intros E. unfold overlay. by rewrite E. Qed.

(** A block that is written with [d] in it. *)
Lemma fbyte_splice x x' o old d data p :
  0 <= o -> splice (o mod bs) d old = Some data -> Z.of_nat (length old) = bs ->
  (old = blockbytes x (o / bs) \/ Z.of_nat (length d) = bs) ->
  (forall l, l <> o / bs -> blockbytes x' l = blockbytes x l) -> blockbytes x' (o / bs) = data ->
  fbyte x' p = overlay (fbyte x) o d p.
Proof.
  intros Ho Es Hl Hold Hne Heq. pose proof bsize_pos. pose proof (Z.div_mod o bs ltac:(lia)). pose proof (Z.div_mod p bs ltac:(lia)).
  pose proof (Z.mod_pos_bound o bs ltac:(lia)). pose proof (Z.mod_pos_bound p bs ltac:(lia)).
  pose proof Es as Es'. apply splice_some in Es' as (_ & Hfit & _). rewrite Hl in Hfit. unfold fbyte at 1. unfold overlay.
  destruct (decide (p / bs = o / bs)) as [E|E].
  - rewrite E, Heq, (lookup_splice _ _ _ _ _ Es).
    assert (p - o = p mod bs - o mod bs) as Ed by (rewrite E in *; lia).
    destruct (decide (o <= p)) as [Ha|Ha].
    + destruct (decide (p < o + Z.of_nat (length d))) as [Hb|Hb].
      * rewrite decide_True by lia. destruct (lookup_lt_is_Some_2 d (Z.to_nat (p - o))) as [z Hz]; [lia|].
        replace (Z.to_nat (p mod bs) - Z.to_nat (o mod bs))%nat with (Z.to_nat (p - o)) by lia. by rewrite Hz.
      * rewrite decide_False by lia. rewrite (lookup_ge_None_2 d) by lia. cbn. unfold fbyte. rewrite E.
        destruct Hold as [->|Hd]; [done|]. exfalso. lia.
    + rewrite decide_False by lia. unfold fbyte. rewrite E. destruct Hold as [->|Hd]; [done|]. exfalso. lia.
  - rewrite Hne by done. destruct (decide (o <= p)); [|done]. rewrite (lookup_ge_None_2 d); [done|].
    assert (o / bs < p / bs \/ p / bs < o / bs) as [|] by lia; nia.
Qed.

(** A write can start: as [rw_ok], and the bytes are there. *)
Definition write_ok s : Prop := rw_ok s /\ Z.of_nat (length (uio_bytes s)) = uio_resid s.

(** The state after [n] bytes. *)
Definition written s (n : Z) s' : Prop :=
  uio_offset s' = uio_offset s + n /\ uio_resid s' = uio_resid s - n /\ uio_bytes s' = drop (Z.to_nat n) (uio_bytes s) /\
  isize s' = (if n =? 0 then isize s else Z.max (isize s) (uio_offset s + n)) /\ rw_io_ok (rw_file s') (renv s') /\
  forall p, fbyte (renv s') p = overlay (fbyte (renv s)) (uio_offset s) (take (Z.to_nat n) (uio_bytes s)) p.

Lemma written_trans s s1 s2 k n : 0 < k -> 0 <= n -> k + n <= uio_resid s -> Z.of_nat (length (uio_bytes s)) = uio_resid s ->
  written s k s1 -> written s1 n s2 -> written s (k + n) s2.
Proof.
  intros Hk Hn Hle Hl (A1 & A2 & A3 & A4 & A5 & A6) (B1 & B2 & B3 & B4 & B5 & B6). rewrite (proj2 (Z.eqb_neq k 0)) in A4 by lia. split_and!.
  - lia.
  - lia.
  - rewrite B3, A3, drop_drop. f_equal. lia.
  - rewrite B4, A4, (proj2 (Z.eqb_neq (k + n) 0)) by lia. destruct (Z.eqb_spec n 0); lia.
  - done.
  - intros p. rewrite B6, A1, A3. rewrite (overlay_ext _ _ _ _ p (A6 p)).
    replace (uio_offset s + k) with (uio_offset s + Z.of_nat (length (take (Z.to_nat k) (uio_bytes s)))) by (rewrite length_take; lia).
    rewrite overlay_app, Z2Nat.inj_add by lia. by rewrite take_take_drop.
Qed.

Lemma wp_bwrite_any (b1 b2 : bool) bp f x (Q : Z -> X -> Prop) :
  Z.of_nat (length (b_data bp)) = bs -> has_storage x (b_lbn bp) -> rw_io_ok f x ->
  (forall e x', (forall l, blockbytes x' l = if decide (l = b_lbn bp) then b_data bp else blockbytes x l) -> rw_io_ok f x' -> Q e x') ->
  wp (if b1 then buf_bwrite bp else if b2 then buf_bawrite bp else buf_bdwrite bp) Q x.
Proof.
  intros Hl Hst Hio HQ. destruct b1; [|destruct b2]; (eapply wp_mono; [apply law_bwrite || apply law_bawrite || apply law_bdwrite; done|]);
    intros e x' [Hc Hx]; by apply HQ.
Qed.

Lemma set_isize_id f : set_isize (i_size (ip f)) f = f.
Proof. by destruct f as [[]]. Qed.

Lemma write_loop_ok fuel flags dodir sync : forall s, write_ok s -> uio_resid s < Z.of_nat fuel ->
  wp (write_loop g fuel flags dodir sync) (fun e s' => exists n, 0 <= n <= uio_resid s /\ (e = 0 -> n = uio_resid s) /\ written s n s') s.
Proof.
  revert flags. induction fuel as [|fuel IH]; intros flags s [[Hio Ho Hr Hend Hsz] Hl] Hf; [lia|]. cbn [write_loop]. wp_steps. unfold id.
  pose proof bsize_pos as Hb. assert (bs * 2 ^ 31 <= 2 ^ 47) as Hb2 by (change (2 ^ 47) with (2 ^ 16 * 2 ^ 31); nia).
  assert (written s 0 s) as W0.
  { split_and!; try lia; try done. intros p. by rewrite overlay_nil. }
  destruct (Z.leb_spec (uio_resid s) 0) as [H0|H0]. { wp_steps. exists 0. split_and!; try lia; done. }
  rewrite blkoff_rem, lblkno_quot. pose proof (block_small _ _ Ho H0 Hend) as Hq. rewrite (sintw_small 32 (uio_offset s / bs)) by lia.
  fold (piece (uio_offset s) (uio_resid s)). pose proof (piece_bounds (uio_offset s) (uio_resid s) H0) as [Hp1 Hp2].
  set (k := piece (uio_offset s) (uio_resid s)) in *. set (flags' := if k <? bs then _ else _). pose proof (Z.mod_pos_bound (uio_offset s) bs ltac:(lia)) as Hm.
  wp_steps. apply wp_onfile. eapply wp_mono; [apply law_balloc; [lia|lia|done]|].
  intros [e bp] [f1 x1] (Ef & Hc1 & Hio1e & Hbp). destruct (Z.eqb_spec e 0) as [->|He]; cbn [negb].
  2:{ wp_steps. exists 0. split; [lia|]. split; [done|]. destruct W0 as (W1 & W2 & W3 & W4 & W5 & W6). split_and!; try done; cbn; try lia.
      - by apply Hio1e.
      - intros p. rewrite (fbyte_same (renv s)) by (intros l; apply Hc1; by right). by rewrite overlay_nil. }
  assert (uio_offset s / bs * bs + (uio_offset s mod bs + k) = uio_offset s + k) as Eend by (pose proof (Z.div_mod (uio_offset s) bs ltac:(lia)); lia).
  rewrite Eend in Hbp. fold (isize s) in Hbp.
  destruct (Hbp eq_refl) as (Hio1 & Hst1 & Hbl & Hbr & Hblen & Hclr). wp_steps. unfold id. set (s1 := mkRw f1 _ _ _ _ x1).
  assert (isize s1 = isize s) as Es1 by (unfold isize; cbn; by rewrite Ef).
  assert (forall Q, (forall s2, isize s2 = Z.max (isize s) (uio_offset s + k) -> uio_offset s2 = uio_offset s -> uio_resid s2 = uio_resid s ->
    uio_bytes s2 = uio_bytes s -> renv s2 = x1 -> rw_file s2 = set_isize (Z.max (isize s) (uio_offset s + k)) f1 -> Q tt s2) -> wp (if isize s1 <? u64 (uio_offset s1 + k) then modify (upd_file (set_isize (u64 (uio_offset s1 + k)))) else mret tt) Q s1) as Hsize.
  { intros Q HQ. cbn [s1 uio_offset]. rewrite Es1, (uintw_small 64) by lia. destruct (Z.ltb_spec (isize s) (uio_offset s + k)); wp_steps; apply HQ; try done.
    - unfold isize, set_isize. cbn. unfold isize in *. lia.
    - cbn. by rewrite Z.max_r by lia.
    - rewrite Es1. lia.
    - rewrite Z.max_l by lia. rewrite <- Es1. symmetry. apply set_isize_id. }
  apply Hsize. clear Hsize. intros s2 Z1 Z2 Z3 Z4 Z5 Z6. wp_steps. unfold blksize. rewrite (proj1 HG), Hbr, Z.sub_0_r.
  rewrite (proj2 (Z.ltb_ge bs k)) by lia. rewrite (proj2 (Z.ltb_lt 0 k)) by lia. unfold uiomove_in. wp_steps. apply wp_onenv.
  eapply wp_mono; [rewrite Z5; apply (law_copy _ _ _ Hio1)|]. intros [e2 k2] x2 (Hc2 & Hst2 & Hio2 & -> & ->). wp_steps. unfold id.
  cbn [uio_bytes uio_offset uio_resid rw_file i_lastr renv]. rewrite Z4.
  set (d := take (Z.to_nat k) (uio_bytes s)). assert (Z.of_nat (length d) = k) as Ld by (unfold d; rewrite length_take; lia).
  destruct (splice_is_some (uio_offset s mod bs) d (b_data bp)) as [data Ed]; [lia|lia|]. rewrite Ed. wp_steps.
  rewrite (proj2 (Z.eqb_neq k 0)) by lia. cbn [negb Z.eqb orb]. wp_steps. apply wp_onenv.
  apply (wp_bwrite_any _ _ _ (set_flag (Z.lor IN_CHANGE IN_UPDATE) (rw_file s2)));
    [cbn; by rewrite (splice_length _ _ _ _ Ed)|cbn; rewrite Hbl; by apply Hst2|cbn; rewrite Z6; by apply law_ok_flag|]. cbn [b_lbn b_data].
  intros e3 x3 Hc3 Hio3. cbn [upd_file set_uio renv rw_file i_lastr uio_offset uio_resid uio_bytes]. set (s3 := mkRw _ _ _ _ _ x3).
  assert (written s k s3) as W3.
  { split_and!; cbn; try lia.
    - cbn. done.
    - change (isize s3) with (isize s2). rewrite (proj2 (Z.eqb_neq k 0)) by lia. lia.
    - done.
    - intros p. apply (fbyte_splice (renv s) x3 _ (b_data bp) d data); try done.
      + destruct (decide (k = bs)) as [Ek|Ek]; [right; lia|left]. rewrite Hclr; [done|]. unfold flags'. rewrite (proj2 (Z.ltb_lt k bs)) by lia.
        apply has_flag_set_bit.
      + intros l Hne. rewrite Hc3, decide_False by congruence. rewrite Hc2. apply Hc1. by left.
      + rewrite Hc3. by rewrite decide_True by congruence. }
  pose proof W3 as (A1 & A2 & A3 & A4 & A5 & _). rewrite (proj2 (Z.eqb_neq k 0)) in A4 by lia.
  eapply wp_mono; [apply (IH flags' s3)|].
  - split; [split; try done; try lia; rewrite A4; lia|]. rewrite A3, A2, length_drop. lia.
  - lia.
  - intros e4 s' (n & Hn1 & Hn2 & W4). exists (k + n). split; [lia|]. split; [intros E; rewrite (Hn2 E); lia|]. by apply (written_trans s s3); try lia.
Qed.
End Bytes.
