(* ===== verification/Rwprops.v ===== *)
(** * Properties of reading and writing

    What is written is read; [ext2_read] gives [ext2_readdir] what it relies on; a file in
    memory that satisfies the laws, and what goes wrong. *)

From S2P Require Import Prelude Dirent Dir Readdir Fs Inode Alloc Bmap Fballoc Truncate Vnops Readwrite Rwspec.

Section Properties.
Context (g : geometry) (HG : geo_ok g) {X : Type} {OPS : RwOps X} {LAWS : RwLaws g X}.
Context (v : vnode) (readahead noatime : bool) (vfs_context_suser : Z).
Implicit Types (s : rw X).

(** Regular files, and directories with IO_SYNC as the driver itself writes them. *)
Definition may_write (ioflag : Z) : Prop :=
  match v_type v with
  | VREG => True
  | VDIR => has_flag ioflag IO_SYNC = true
  | _ => False
  end.

(** Where the write begins: with IO_APPEND at the end of a regular file. *)
Definition placed (ioflag : Z) s : rw X :=
  match v_type v with
  | VREG => if has_flag ioflag IO_APPEND then set_uio (isize s) (uio_resid s) (uio_bytes s) s else s
  | _ => s
  end.

Definition refused (ioflag : Z) s : bool :=
  match v_type v with
  | VREG => has_flag (i_flags (ip (rw_file s))) EXT2_APPEND && negb (uio_offset (placed ioflag s) =? isize s)
  | _ => false
  end.

(** Clearing the bits of the mode, or not. *)
Lemma wp_clear_setid (b : bool) (Q : unit -> rw X -> Prop) s :
  (forall s1, uio_offset s1 = uio_offset s -> uio_resid s1 = uio_resid s -> uio_bytes s1 = uio_bytes s ->
    isize s1 = isize s -> renv s1 = renv s -> (rw_io_ok (rw_file s) (renv s) -> rw_io_ok (rw_file s1) (renv s1)) -> Q tt s1) ->
  wp (if b then modify (upd_file (set_ip (fun i => set_mode (Z.land (i_mode i) (Z.lnot (Z.lor ISUID ISGID))) i))) else mret tt) Q s.
Proof using . intros HQ. destruct b; wp_steps; apply HQ; try done. intros Hio. by apply law_ok_mode. Qed.

(** After [n] bytes, with IO_UNIT, the write is undone: the [uio] is what it was, but the
    bytes of the request that were used are used; the size is what it was or, when
    [ext2_truncate] fails, whose error is dropped, stays raised; and the file up to its old
    end has what was written over it. *)
Definition undone s (n : Z) s' : Prop :=
  uio_offset s' = uio_offset s /\ uio_resid s' = uio_resid s /\ uio_bytes s' = drop (Z.to_nat n) (uio_bytes s) /\
  (isize s' = isize s \/ isize s' = if n =? 0 then isize s else Z.max (isize s) (uio_offset s + n)) /\ rw_io_ok (rw_file s') (renv s') /\
  forall p, 0 <= p < isize s -> fbyte g (renv s') p = overlay (fbyte g (renv s)) (uio_offset s) (take (Z.to_nat n) (uio_bytes s)) p.

(** The state at the end of a write of [n] bytes with the error [e]. *)
Definition write_ends ioflag s (n e : Z) s' : Prop :=
  if decide (e = 0) then n = uio_resid s /\ written g s n s'
  else n = uio_resid s /\ has_flag ioflag IO_SYNC = true /\ written g s n s' \/
       (if has_flag ioflag IO_UNIT then undone s n s' else written g s n s').

Lemma wp_write_end ioflag e s n s0 :
  0 <= n <= uio_resid s0 -> (e = 0 -> n = uio_resid s0) -> 0 <= isize s0 -> written g s0 n s ->
  wp (write_end vfs_context_suser ioflag (isize s0) (uio_resid s0) e) (write_ends ioflag s0 n) s.
Proof using HG.
  intros Hn He Hsz (W1 & W2 & W3 & W4 & W5 & W6). unfold write_end. wp_steps. unfold id. apply wp_clear_setid. intros s1 E1 E2 E3 E4 E5 E6.
  assert (written g s0 n s1) as W by (split_and!; try congruence; by apply E6).
  destruct (Z.eqb_spec e 0) as [->|Hne]; cbn [negb].
  - rewrite (He eq_refl) in *. destruct (_ && _) eqn:Eb; [|wp_steps; unfold write_ends; by rewrite decide_True].
    apply andb_true_iff in Eb as [_ Hs]. apply wp_onfile. eapply wp_mono; [apply law_rw_update, W|]. intros e' [f' x'] (F1 & F2 & F3).
    assert (written g s0 (uio_resid s0) (mkRw f' (i_lastr s1) (uio_offset s1) (uio_resid s1) (uio_bytes s1) x')) as W'.
    { destruct W as (V1 & V2 & V3 & V4 & V5 & V6). split_and!; try done.
      - unfold isize in *. cbn. by rewrite F1.
      - intros p. cbn. rewrite <- V6. by apply fbyte_same. }
    unfold write_ends. destruct (decide (e' = 0)); [done|by left].
  - destruct (has_flag ioflag IO_UNIT) eqn:Eu; [|wp_steps; unfold write_ends; rewrite decide_False, Eu by done; by right].
    destruct W as (V1 & V2 & V3 & V4 & V5 & V6). wp_steps. apply wp_onfile.
    eapply wp_mono; [apply law_rw_truncate; [|done]|].
    { fold (isize s1). destruct (Z.eqb_spec n 0); lia. }
    intros e1 [f' x'] (T1 & T2 & T3). wp_steps. unfold write_ends. rewrite decide_False, Eu by done. right. split_and!; try done; cbn; try lia.
    + destruct T1 as [T1|[_ T1]]; [by left|right]. unfold isize at 1. cbn. rewrite T1. exact V4.
    + intros p Hp. rewrite (fbyte_shortened g HG _ _ _ T3) by done. apply V6.
Qed.

Lemma isize_placed ioflag s : isize (placed ioflag s) = isize s.
Proof using . unfold placed. destruct (v_type v); try done. by destruct (has_flag _ _). Qed.

Lemma wp_write ioflag s :
  v_ubc v = false -> may_write ioflag -> write_ok g (placed ioflag s) ->
  wp (ext2_write g v vfs_context_suser ioflag) (fun e s' =>
    if decide (uio_resid s = 0) then e = 0 /\ s' = s
    else if refused ioflag s then e = EPERM /\ s' = placed ioflag s
    else exists n, 0 <= n <= uio_resid s /\ write_ends ioflag (placed ioflag s) n e s') s.
Proof using HG.
  intros Hubc Hmay W. pose proof W as [[Hio Ho Hr Hend Hsz] Hl]. unfold ext2_write. wp_steps. unfold id.
  destruct (Z.eqb_spec (uio_resid s) 0) as [E0|E0]; [wp_steps; by rewrite decide_True|].
  eapply wp_mono; cycle 1. { intros e s' HP. rewrite decide_False by done. exact HP. }
  assert (uio_resid (placed ioflag s) = uio_resid s) as Er.
  { unfold placed. destruct (v_type v); try done. by destruct (has_flag _ _). }
  rewrite isize_placed in Hsz. wp_steps. unfold may_write in Hmay. pose proof (bsize_pos g HG) as Hb.
  assert (s_blocksize g * 2 ^ 31 <= 2 ^ 47) as Hb2 by (change (2 ^ 47) with (2 ^ 16 * 2 ^ 31); nia).
  assert (forall Q : bool -> rw X -> Prop, Q (refused ioflag s) (placed ioflag s) -> wp (match v_type v with
    | VREG => (if has_flag ioflag IO_APPEND then modify (fun s => set_uio (i64 (isize s)) (uio_resid s) (uio_bytes s) s) else mret tt);;
              s ← gets id; mret (has_flag (i_flags (ip (rw_file s))) EXT2_APPEND && negb (u64 (uio_offset s) =? isize s))
    | VLNK => mret false
    | VDIR => if has_flag ioflag IO_SYNC then mret false else panic "ext2_write: nonsync dir write"
    | _ => panic "ext2_write: type" end) Q s) as Hsw.
  { intros Q HQ. unfold refused, placed in *. destruct (v_type v); try done.
    - destruct (has_flag ioflag IO_APPEND); wp_steps; unfold id; cbn [set_uio rw_file uio_offset isize] in *.
      + rewrite (sintw_small 64) by lia. change (isize (set_uio _ _ _ s)) with (isize s). rewrite (uintw_small 64) by lia. exact HQ.
      + rewrite (uintw_small 64) by lia. exact HQ.
    - by rewrite Hmay. }
  apply Hsw. clear Hsw. destruct (refused ioflag s); [by wp_steps|]. wp_steps. unfold id. set (s0 := placed ioflag s) in *.
  assert (isize s0 = isize s) as Es by apply isize_placed. rewrite <- Es in Hsz.
  rewrite Hubc, (sintw_small 32), (sintw_small 64) by lia. rewrite <- Er.
  eapply wp_mono; [apply (write_loop_ok g HG _ _ _ _ s0 W); lia|]. intros e s1 (n & Hn1 & Hn2 & Wn).
  eapply wp_mono; [apply (wp_write_end ioflag e s1 n s0); [done|done|lia|done]|]. intros e' s' Ho'. by exists n.
Qed.

(** C39: What a write to a regular file without a page cache, or to a directory, does, on a
    device that works and with a block tree in order (allocation may still fail).  A request
    for no bytes does nothing; a regular file with the flag EXT2_APPEND refuses a write that does
    not begin at its end.  Otherwise, without an error, all of the request is in the file, from the
    offset of the [uio] on (with IO_APPEND, from the end of the file on), the other bytes
    are as before, the size is raised to the end of the write if it was lower, and the
    [uio] is moved.  With an error, some first part of the request is there; with IO_UNIT
    the [uio] is put back, and the size unless [ext2_truncate] fails; the error of updating
    the inode on the disk, after a synchronous request, leaves everything written. *)
Theorem write_outcome ioflag s :
  v_ubc v = false -> may_write ioflag -> write_ok g (placed ioflag s) ->
  wp (ext2_write g v vfs_context_suser ioflag) (fun e s' =>
    if decide (uio_resid s = 0) then e = 0 /\ s' = s
    else if refused ioflag s then e = EPERM /\ s' = placed ioflag s
    else exists n, 0 <= n <= uio_resid s /\ write_ends ioflag (placed ioflag s) n e s') s.
Proof using HG. apply wp_write. Qed.




(** ** Reading directories *)

(** [ext2_read] into a buffer of the kernel, as [ext2_readdir] calls it. *)
Definition read_fn s (start count : Z) : Z * Z * list Z :=
  match ext2_read g v readahead noatime (set_uio start count [] s) with
  | Ret error s' => (error, uio_resid s', uio_bytes s')
  | _ => (EIO, count, [])
  end.

(** Reading a directory with [ext2_read] gives what [ext2_readdir] relies on: the bytes
    of its blocks. *)
Theorem read_serves_readdir fs blks s :
  v_ubc v = false -> fs_blocksize fs = s_blocksize g -> fs_ok fs -> rw_io_ok (rw_file s) (renv s) -> 0 <= isize s < 2 ^ 30 -> isize s <= s_maxfilesize g ->
  (forall l b, blks !! l = Some b -> blockbytes (renv s) l = b) -> reads fs blks (isize s) (read_fn s).
Proof using HG.
  intros Hubc Hbs Hfs Hio Hsz Hmax Hblk start count Hstart Hcount Hdiv n. pose proof (bs_bounds fs Hfs) as Hb. rewrite Hbs in *.
  assert (wp (ext2_read g v readahead noatime) (fun e s' => e = 0 /\ uio_resid s' = count - n /\ uio_bytes s' = fbytes g (renv s) start n) (set_uio start count [] s)) as Hwp.
  { eapply wp_mono.
    - apply (wp_read g HG v readahead noatime (set_uio start count [] s) Hubc); [|cbn; lia].
      split; cbn; try lia; [done|]. change (isize (set_uio start count [] s)) with (isize s). lia.
    - intros e s' (-> & _ & _ & E1 & E2 & _). change (isize (set_uio start count [] s)) with (isize s) in *. cbn [uio_resid uio_offset uio_bytes renv set_uio app] in *.
      replace (Z.max 0 _) with n in E1, E2 by lia. done. }
  exists (fbytes g (renv s) start n). unfold read_fn. unfold wp in Hwp. destruct (ext2_read _ _ _ _ _) as [e s'| | |]; [|done..].
  destruct Hwp as (-> & -> & ->). split; [done|]. intros o k b Ho Hk Hbl Hfit Hin.
  rewrite <- (Hblk _ _ Hbl), (fbytes_block g HG) by lia.
  replace n with ((o - start) + (k + (n - (o - start) - k))) by lia. rewrite !(fbytes_app g) by lia.
  replace (start + (o - start)) with o by lia. apply slice_some. rewrite !length_app, !fbytes_length. split_and!; [lia..|].
  rewrite drop_app_length' by (rewrite fbytes_length; lia). by rewrite take_app_length' by (rewrite fbytes_length; lia).
Qed.
End Properties.

(** ** Files in memory *)

(** The blocks that have been written, those that have no storage and get none, and the
    errors of [ext2_update] and of [cluster_write]. *)
Record rwmem := mkRwmem {
  written_blocks : gmap Z (list Z);
  no_storage : list Z;
  update_error : Z;
  cluster_error : Z;
}.

Definition mem_geo : geometry := mkGeo 64 0 0 0 0 64 512 0.
Definition mem_block (x : rwmem) (l : Z) : list Z := take 64 (default [] (written_blocks x !! l) ++ replicate 64 0).
Definition mem_put (bp : rbuf) : kern rwmem Z :=
  modify (fun x => mkRwmem (<[b_lbn bp := b_data bp]> (written_blocks x)) (no_storage x) (update_error x) (cluster_error x));; mret 0.
Definition mem_bread (lbn size : Z) : kern rwmem (Z * rbuf) := x ← gets id; mret (0, mkRbuf lbn (mem_block x lbn) 0).

#[export] Instance mem_rw : RwOps rwmem := {
  buf_bread := mem_bread;
  buf_breadn := mem_bread;
  buf_brelse _ := mret tt;
  buf_bwrite := mem_put;
  buf_bawrite := mem_put;
  buf_bdwrite := mem_put;
  uio_copy n := mret (0, n);
  ext2_balloc lbn size flags :=
    '(f, x) ← gets id;
    if decide (lbn ∈ no_storage x) then mret (ENOSPC, mkRbuf lbn [] 0) else mret (0, mkRbuf lbn (mem_block x lbn) 0);
  ext2_balloc2 lbn size flags := '(f, x) ← gets id; mret (if decide (lbn ∈ no_storage x) then ENOSPC else 0, 0);
  cluster_read _ := mret 0;
  cluster_write _ _ _ _ _ := s ← gets id; mret (cluster_error (renv s));
  ext2_truncate len := modify (fun '(f, x) => (set_isize len f, x));; mret 0;
  ext2_update := '(f, x) ← gets id; mret (update_error x);
}.

Lemma mem_block_length x l : length (mem_block x l) = 64%nat.
Proof. unfold mem_block. rewrite length_take, length_app, length_replicate. lia. Qed.

Lemma mem_puts bp x : Z.of_nat (length (b_data bp)) = 64 ->
  wp (mem_put bp) (fun _ x' => (forall l, mem_block x' l = if decide (l = b_lbn bp) then b_data bp else mem_block x l) /\ True) x.
Proof.
  intros Hl. unfold mem_put. wp_steps. split; [|done]. intros l. unfold mem_block. cbn. destruct (decide (l = b_lbn bp)) as [->|].
  - rewrite lookup_insert_eq. cbn. by rewrite take_app_length' by lia.
  - by rewrite lookup_insert_ne.
Qed.

#[export, refine] Instance mem_rw_laws : RwLaws mem_geo rwmem := {
  blockbytes := mem_block;
  has_storage x l := l ∉ no_storage x;
  rw_io_ok _ _ := True;
}.
Proof.
  all: cbn [buf_bread buf_breadn buf_brelse buf_bwrite buf_bawrite buf_bdwrite uio_copy ext2_balloc ext2_truncate ext2_update mem_rw s_blocksize mem_geo].
  - intros x l. by rewrite mem_block_length.
  - done.
  - done.
  - intros lbn f x _ _. unfold mem_bread. by wp_steps.
  - intros lbn f x _ _. unfold mem_bread. by wp_steps.
  - intros bp f x _. by wp_steps.
  - intros n f x _. by wp_steps.
  - intros lbn size flags f x _ _ _. wp_steps. unfold id. destruct (decide _); wp_steps; split_and!; try done.
    intros _. split_and!; try done. cbn. by rewrite mem_block_length.
  - intros bp f x Hl _ _. by apply mem_puts.
  - intros bp f x Hl _ _. by apply mem_puts.
  - intros bp f x Hl _ _. by apply mem_puts.
  - intros len f x _ _. wp_steps. split_and!; [by left|done|done].
  - intros f x _. by wp_steps.
Defined.

Lemma mem_geo_ok : geo_ok mem_geo.
Proof. split; [done|]. exists 6. split; [lia|done]. Qed.

(** A file of 70 bytes, and a write over the boundary of its blocks. *)
Definition plain (t : vtype) : vnode := mkVnode t false false false 60 false.
Definition mem_file (mode flags size : Z) : file :=
  mkFile (mkInode mode 1 size 0 0 0 (replicate 12 0) (replicate 3 0) flags 0 0 0 0 0) 14 0 0 0 0 0 0.
Definition rw_state (f : file) (off : Z) (bytes : list Z) (x : rwmem) : rw rwmem := mkRw f 0 off (Z.of_nat (length bytes)) bytes x.
Definition two_blocks : rwmem := mkRwmem {[ 0 := replicate 64 5; 1 := replicate 64 6 ]} [] 0 0.
Definition sample_write : rw rwmem := rw_state (mem_file 0x81A4 0 70) 60 [1; 2; 3; 4; 5; 6; 7; 8] two_blocks.

Lemma rw_small (s : rw rwmem) : 0 <= uio_offset s < 2 ^ 20 -> 0 <= uio_resid s < 2 ^ 20 -> 0 <= isize s < 2 ^ 20 ->
  Z.of_nat (length (uio_bytes s)) = uio_resid s -> write_ok mem_geo s.
Proof. intros H1 H2 H3 H4. split; [|done]. split; [done|lia..|cbn [s_blocksize mem_geo]; lia|lia]. Qed.

Ltac rw_ok := apply rw_small; vm_compute; by split || done.

Lemma write_outcome_witness :
  wp (ext2_write mem_geo (plain VREG) 0 0) (fun e s' => exists n, 0 <= n <= 8 /\ write_ends mem_geo 0 sample_write n e s') sample_write.
Proof.
  exact (write_outcome mem_geo mem_geo_ok (plain VREG) 0 0 sample_write eq_refl I ltac:(rw_ok)).
Defined.

Definition after (m : outcome (rw rwmem) Z) : rw rwmem := match m with Ret _ s => s | _ => sample_write end.


(** A directory in memory. *)
Definition sample_state : rw rwmem := rw_state (mem_file 0x41ED 0 64) 0 [] (mkRwmem {[ 0 := sample_block ]} [] 0 0).

Lemma read_serves_readdir_witness :
  reads sample_fs (blocks sample_dir) 64 (read_fn mem_geo (plain VDIR) false true sample_state).
Proof.
  apply (read_serves_readdir mem_geo mem_geo_ok (plain VDIR) false true sample_fs (blocks sample_dir) sample_state); try done.
  - exact sample_fs_ok.
  - intros l b Hb. cbn [blocks sample_dir] in Hb. apply lookup_singleton_Some in Hb as [<- <-]. by vm_compute.
Defined.

(** ** What goes wrong *)

(** The flags of an inode from the disk never have the bit that [ext2_write] tests, since
    those of <sys/stat.h> (0x40004 and 0x20002) do not: append-only files are written
    anywhere. *)
Theorem append_only_unenforced (APPEND IMMUTABLE : Z) (no_uid32 : bool) ei :
  has_flag APPEND EXT2_APPEND = false -> has_flag IMMUTABLE EXT2_APPEND = false ->
  has_flag (i_flags (ext2_ei2i APPEND IMMUTABLE no_uid32 ei)) EXT2_APPEND = false.
Proof.
  unfold has_flag. rewrite !negb_false_iff, !Z.eqb_eq. intros HA HI. cbn [ext2_ei2i i_flags]. rewrite Z.land_lor_distr_l.
  unfold flag_if. by destruct (_ =? 0), (_ =? 0); rewrite ?HA, ?HI.
Qed.

(** Writing clears the set-id bits for the superuser, and only then. *)
Theorem setid_kept_by_users :
  let mode suser := i_mode (ip (rw_file (after (ext2_write mem_geo (plain VREG) suser 0 (rw_state (mem_file 0x8DED 0 70) 60 [1; 2] two_blocks))))) in
  mode 0 = 0x81ED /\ mode EPERM = 0x8DED.
Proof. by vm_compute. Qed.

(** When the page cache fails, the size stays raised though nothing was written. *)
Theorem cluster_error_grows :
  let s := rw_state (mem_file 0x81ED 0 70) 60 (replicate 100 1) (mkRwmem ∅ [] 0 EIO) in
  exists s', ext2_write mem_geo (mkVnode VREG false false true 60 false) EPERM 0 s = Ret EIO s' /\
    isize s' = 160 /\ uio_offset s' = 60 /\ uio_resid s' = 100.
Proof. eexists. split; [vm_compute; reflexivity|by vm_compute]. Qed.

